(* ===== verification/_CoqProject ===== *)
-Q . S2P
Prelude.v
RustStd.v
Str.v
Hdr.v
Base64.v
Histogram.v
Live.v
HumanDuration.v
TimeSeries.v
LiveIntervals.v
Summaries.v
Metrics.v
Merge.v
Wire.v
Chaos.v
Json.v
JsonText.v
Url.v
Libs.v
Reply.v
Data.v
Template.v
Session.v
SocketIo.v
Worker.v
Accounting.v
Lifecycle.v
Stopping.v
Load.v
Runner.v
Clock.v
Slo.v
Config.v
WireConfig.v
Token.v
Display.v
Phases.v
Compare.v
Lag.v
WireResult.v
Scenario.v
Health.v
Coordinator.v
Cluster.v
Control.v
Capture.v
MockRules.v
Replay.v
Mock.v
MockServer.v
Deflate.v
DeflateLayer.v
Args.v
Auth.v
Jwt.v
JwtTokens.v
OAuth2.v
FromCli.v
Connect.v
Export.v
Dashboard.v
Drive.v
