(* ===== verification/Prelude.v ===== *)
(** * Verification of wsblast, a WebSocket load tester

    wsblast opens connections to a server, sends traffic through them and
    reports latency, throughput and errors; its exit code tells a CI job
    whether the server met its thresholds.  This library models the parts of
    src/src/ that compute: what a worker does on its connection, what it
    counts, how counts are kept while a run lasts and added up when it ends,
    how a run is started, staged, divided between machines and judged.

    ** The parts and how they interact

    A run goes through the files as follows.  The command line (Args, FromCli)
    or a caller fills in the builder, whose [build] checks everything and
    returns the configuration (Config, Load); a scenario file is compiled to
    phases (Phases).  [Runner::run] (Drive) warns, resolves the target,
    starts the workers the way the load asks (Runner), awaits them and puts
    the report together.  A connection is opened by a race between addresses
    (Connect), with the credential of Auth, Jwt, JwtTokens or OAuth2, and
    may pass through the compression layer (Deflate, DeflateLayer).  A worker
    (Worker, on the monad of Session; SocketIo for that mode) performs its
    handshake, runs the session loop of its mode and reconnects; on the way
    it renders payloads (Template, Data), delays, drops and corrupts sends
    (Chaos), checks replies (Reply, Json), records frames (Capture) and counts
    everything (Metrics).  Counting writes to three shared structures: the
    sharded live counters (Live), the latency recorders (Histogram) and the
    interval store (TimeSeries).  While the run lasts, LiveIntervals, Export
    and Dashboard read them.  At the end the workers' counts become totals and
    a report (Metrics, Merge, Summaries), the snapshots of the live counters a
    time series (TimeSeries), the probe's samples the generator's lag (Lag).
    Phases of a scenario are added up (Scenario), and the report is checked
    against its thresholds (Slo) or compared with another report (Compare).

    A distributed run: the coordinator divides the load (Load) and sends every
    agent its configuration (WireConfig, Phases) over the authenticated
    control channel (Token, Control); each agent rebuilds the configuration,
    runs it as above and sends live snapshots, capture records and its result
    (WireResult) back; the coordinator decides which agents remain (Health,
    Coordinator), merges what they report (Coordinator, Merge, Capture) and
    judges it as one run (Cluster).  The mock server (MockRules, Replay, Mock,
    MockServer) is the program's own peer for tests.

    ** The files

    - Prelude: fixed-width integers with their wrap-around, [result] and its
      bind [let?], record update, generic lemmas on lists, maps and sums.
    - RustStd, Str: the [f64] arithmetic (through [SpecFloat]), [Duration],
      [Instant] and [str] functions of Rust's standard library the code uses.
    - Hdr: the interface of the hdrhistogram crate as a class of operations
      and a class of their documented laws, and an instance that meets them.
      Every theorem that needs the crate is proved against the classes.
    - Base64 (base64.rs): both encoders and the decoder.
    - Histogram (histogram.rs): [LatencyRecorder], three sharded atomic
      histograms, and the conversion to hdrhistogram at the end of the run.
    - Live (error.rs, metrics.rs): the error taxonomy, [LiveMetrics] and its
      request claims.  An atomic update is one step on the shared state.
    - HumanDuration (config.rs): [parse_human_duration].
    - TimeSeries, LiveIntervals (timeseries.rs): the interval store and its
      recorders, the counter sampler, [TimeSeries::build], [append] and
      [merge_parallel]; the phase state machine behind the live readers.
    - Summaries, Metrics, Merge (metrics.rs): report records; the worker's own
      counts with every [record_*] operation as a step on the worker and the
      shared state; totals, their sums and the final report.
    - Wire: the message type of tungstenite and the UTF-8 check.
    - Chaos (chaos.rs): the seeded generators and every fault decision.
    - Json, Reply (check.rs, config.rs, worker.rs): serde_json as a class;
      [--match], [--expect] and captures.
    - Data (data.rs): the CSV and JSON data files and the rows a connection
      gets.
    - Template (template.rs): placeholders and payload rendering.
    - Session, Worker (worker.rs): a session is a program in a state and
      environment monad.  Everything it learns from outside (frames, timers,
      the clock, cancellation) is a script of observations [Obs]; reading past
      the end of the script leaves the session waiting, [Stuck] in the state it
      reached.  One definition per loop body and per method.
    - Accounting: a small program logic for these programs ([wp]) and what a
      session counts.
    - Lifecycle: what a connection slot reports, request claims, backoff.
    - Stopping: how far a worker goes with the observations it is given, and
      that cancellation ends it in every mode but Socket.IO.
    - Load (config.rs, distributed/protocol.rs): stages, arrivals, limits from
      the flags through the builder, and their division between agents.
    - Runner (runner.rs): the ramp, the staged run and the arrival run as
      functions of what timers, sessions and the cancellation do.
    - Drive (runner.rs): [Runner::run] from its warnings to its report, with
      the workers at work between being started and being awaited.
    - Clock (clock.rs), Lag (lag.rs), Slo (report.rs, config.rs, app.rs),
      Compare (report.rs, series_compare.rs, app.rs), Scenario (runner.rs).
    - JsonText, Url, Libs: what the configuration uses of the serde_json, url
      and http crates, as classes with plain instances.
    - Config (config.rs): the builder and everything [build] checks.
      Phases (config.rs): scenario files, their checks and compilation.
    - Args, FromCli (cli.rs, config.rs, app.rs, worker.rs): the flags, which of
      them exclude each other, the configuration they give, and the headers of
      a handshake's request.
    - Auth, Jwt, JwtTokens, OAuth2 (auth.rs, auth/): token commands with
      their deadline, signed tokens, the shared token that is replaced before
      it expires, and the client-credentials exchange.
    - SocketIo (socketio.rs): packets, the session and the mock's side.
    - Connect (connect.rs): addresses, sources, the race and the handshakes.
    - Deflate, DeflateLayer (deflate.rs): permessage-deflate's negotiation,
      its codec state and the frames of a connection in both directions.
    - Capture (capture.rs, distributed/coordinator.rs): what is recorded,
      queued, dropped and written, and the file merged from all agents.
    - MockRules, Replay, Mock, MockServer (mock.rs, mock/rules.rs): reply
      rules, recorded connections, one session and the server's counters.
    - Token, Control (distributed/): who may coordinate an agent, and the
      messages of a run as two state machines.
    - WireConfig, WireResult (distributed/protocol.rs): configurations and
      results as they travel.  Health, Coordinator, Cluster
      (distributed/coordinator.rs): the generators' health, the agents of a
      run and what is reported of them.
    - Display: the [Display] texts other files share.
    - Export (export.rs, export/): the Prometheus text and endpoint and the
      OTLP instruments.
    - Dashboard (tui/, distributed/dashboard.rs): what the terminal dashboard
      reads, remembers and shows, and its event loop.

    Laws of code outside the repository are classes, each with an instance
    that meets it: [HdrLaws] and [HdrIterLaws] (hdrhistogram), [FlateLaws]
    (the deflate codec), [RingLaws] (signatures), [AuthHttpLaws] and
    [RequestLaws] (header maps), [FormatterLines] (a printed float is one line).

    ** What the theorems show

    - Nothing is lost or counted twice: [run_report_agrees] for every
      interleaving of a run, [report_agrees_with_live], [session_accounts],
      [graphql_errors_covered], [finish_partitions_slots],
      [snapshot_counts_updates], [build_totals], [capture_accounts_for_frames],
      [distributed_capture_accounts], [mock_counters_add_up].
    - Sharding, buffering, merging and machines change nothing:
      [recorder_refines_direct], [interval_store_refines], [agents_add_up],
      [merge_parallel_adds_up], [scenario_reports_one_run],
      [distributed_scenario_reports_one_run].
    - When latency is read: [latency_is_read_at_the_first_join].
    - A connection slot behaves: [slot_outcome], [requests_respected],
      [claims_bounded], [response_time_from_schedule],
      [cancelled_worker_returns],
      [dead_addresses_hold_nothing_up], [connections_take_sources_in_turn],
      [socketio_session_answers].
    - The load is the one asked for: [build_consistent], [scenario_compiles],
      [cli_adds_no_checks], [arrivals_accounted], [staged_run_follows_profile],
      [plan_divides_load], [agents_accept_their_shares], [rows_are_apart],
      [every_connection_has_values].
    - Machines of a run agree: [one_coordinator_at_a_time],
      [control_never_surprised], [accepted_share_returns],
      [agents_leave_for_good], [agents_rebuild_the_run], [phases_reach_agents],
      [result_roundtrip], [other_protocols_refused].
    - Credentials: [handshakes_carry_the_credential], [shared_token_is_current],
      [token_reads_back], [token_command_is_bounded], [auth_flags_are_sound].
    - Verdicts are sound: [slo_gates], [comparison_scores_every_metric],
      [compare_is_sound], [probe_tells_intervals_apart].
    - The live readers are consistent: [live_readers_consistent],
      [live_elapsed_monotone], [exporters_agree], [scrapes_are_answered],
      [dashboard_window_covers_an_interval], [panel_agrees_with_the_report].
    - The peer behaves: [mock_session_is_a_queue], [capture_replays],
      [rules_answer_first_match]; compressed frames arrive as they were sent:
      [compression_is_transparent].
    - Texts are read as they are written: [decode_encode], [decode_accepts],
      [human_duration_roundtrip], [rules_roundtrip], [csv_roundtrip],
      [template_finds_placeholders], [packet_roundtrip];
      [timestamp_is_the_calendars].
    - Faults are injected as configured: [corrupt_changes_one_byte],
      [read_pauses_keep_send_decisions], [draws_are_apart].

    Some lemmas state behaviour a reader may not expect: a decoder that
    accepts inputs no encoder writes ([decode_accepts_noncanonical]), a series
    longer than its documented maximum ([series_exceeds_max_points]), counts
    after the last tick that no point holds ([build_drops_simultaneous_end]),
    a session loop that only looks at the token when every send is dropped
    ([dropped_round_only_looks_at_the_token]), latencies recorded after the
    first worker was awaited that no histogram holds
    ([latency_is_read_at_the_first_join]), stages and arrival rates that
    pass their checks and panic ([stage_durations_overflow],
    [tiny_rate_panics]).

    ** Bounds and fuel

    [forever] runs a loop for as many rounds as the script has observations
    left, and one more; [worker_uses_its_environment] shows that a worker
    that has not returned has consumed the whole script, so the fuel never
    hides a round that could still observe something.  A round may consume
    nothing once the script is used up, because a look at the token waits
    for nothing ([dropped_round_only_looks_at_the_token]).  A
    cancelled worker needs at most 62 observations: the most any mode needs
    from its worst point, the sum that [Cost] computes.  [open_up_to] and
    [close_down_to] get as fuel the number of rounds their loops can make.
    The race of [connect_tcp] gets the rounds that addresses and attempts
    still leave it ([race_measure]), and ends within them.
    The other recursions are structural.  Integers have the width of the
    source with its wrap-around written out; where a theorem needs counts
    below [2^64], it says so.

    ** What is not modelled, and why

    - Sockets, TLS (tls.rs, distributed/tls.rs), name resolution, the HTTP
      upgrade, files and processes: they are the environment of the modelled
      operations, as scripts of what they answer.
    - Threads and the scheduler: shared state changes by atomic steps in any
      order; wall-clock time is an argument.
    - Rendering a finished report (report.rs beyond what is mapped, html.rs,
      output.rs) and drawing the dashboard (tui/widgets.rs, tui/mod.rs): text
      and layout of values modelled here, through serde, colored and ratatui.
    - The parsers of clap, serde and serde_yaml, which are not in the
      repository; what they return is where Args, Phases and WireConfig start.
    - The program's shell (main.rs, lib.rs, run_app): it calls the modelled
      parts one after another and prints. *)

From Stdlib Require Import ZArith Lia Ascii String.
From stdpp Require Import base tactics strings numbers option gmap sorting list.

Local Open Scope Z_scope.

(** ** Rust's fixed-width unsigned integers

    A [uN] value is a [Z] in [0, 2^N).  The release profile of [Cargo.toml]
    leaves overflow checks off, so [+], [-] and [*] wrap, as the atomics'
    [fetch_add] and [fetch_sub] do by definition. *)

Definition is_uint (w z : Z) : Prop := 0 <= z < 2 ^ w.
Abbreviation is_u8 := (is_uint 8).
Abbreviation is_u32 := (is_uint 32).
Abbreviation is_u64 := (is_uint 64).

#[export] Instance is_uint_dec w z : Decision (is_uint w z).
Proof. unfold is_uint. apply _. Defined.

Definition wrap (w z : Z) : Z := z mod 2 ^ w.
Definition u64_max : Z := 2 ^ 64 - 1.
Definition u64_add (a b : Z) : Z := wrap 64 (a + b).
Definition u64_sub (a b : Z) : Z := wrap 64 (a - b).
Definition u64_mul (a b : Z) : Z := wrap 64 (a * b).
Definition u64_shl (a n : Z) : Z := wrap 64 (Z.shiftl a n).
Definition u64_saturating_sub (a b : Z) : Z := Z.max 0 (a - b).
Definition u64_saturating_add (a b : Z) : Z := Z.min u64_max (a + b).
Definition u64_saturating_mul (a b : Z) : Z := Z.min u64_max (a * b).
Definition u64_rotate_left (a n : Z) : Z :=
  Z.lor (u64_shl a n) (Z.shiftr a (64 - n)).

(** [x as uN] from a non-negative wider integer keeps the low bits. *)
Abbreviation as_u8 := (wrap 8).
Abbreviation as_u32 := (wrap 32).
Abbreviation as_u64 := (wrap 64).

Declare Scope rust_scope.
Delimit Scope rust_scope with rust.
Infix "+u" := u64_add (at level 50, left associativity) : rust_scope.
Infix "-u" := u64_sub (at level 50, left associativity) : rust_scope.
Infix "*u" := u64_mul (at level 40, left associativity) : rust_scope.

Create HintDb rust discriminated.

Lemma wrap_range w z : 0 <= w -> is_uint w (wrap w z).
Proof. intros Hw. apply Z.mod_pos_bound, Z.pow_pos_nonneg; lia. Qed.

Lemma wrap_id w z : is_uint w z -> wrap w z = z.
Proof. intros H. apply Z.mod_small, H. Qed.

Lemma wrap_wrap w z : wrap w (wrap w z) = wrap w z.
Proof. unfold wrap. apply Zmod_mod. Qed.

Lemma wrap_add_l w a b : wrap w (wrap w a + b) = wrap w (a + b).
Proof. unfold wrap. apply Zplus_mod_idemp_l. Qed.

Lemma wrap_add_r w a b : wrap w (a + wrap w b) = wrap w (a + b).
Proof. unfold wrap. apply Zplus_mod_idemp_r. Qed.

Lemma wrap_sub_l w a b : wrap w (wrap w a - b) = wrap w (a - b).
Proof. unfold wrap. apply Zminus_mod_idemp_l. Qed.

Lemma u64_range z : is_u64 (wrap 64 z).
Proof. by apply wrap_range. Qed.

Lemma u64_add_range a b : is_u64 (u64_add a b).
Proof. apply u64_range. Qed.

Lemma u64_add_id a b : 0 <= a -> 0 <= b -> a + b < 2 ^ 64 -> u64_add a b = a + b.
Proof. intros. apply wrap_id. unfold is_uint. lia. Qed.

Lemma u64_add_comm a b : u64_add a b = u64_add b a.
Proof. unfold u64_add. by rewrite Z.add_comm. Qed.

Lemma u64_add_assoc a b c : u64_add (u64_add a b) c = u64_add a (u64_add b c).
Proof. unfold u64_add. rewrite wrap_add_l, wrap_add_r. f_equal. lia. Qed.

Lemma u64_add_0_l a : is_u64 a -> u64_add 0 a = a.
Proof. intros H. unfold u64_add. rewrite Z.add_0_l. by apply wrap_id. Qed.

Lemma u64_add_0_r a : is_u64 a -> u64_add a 0 = a.
Proof. rewrite u64_add_comm. apply u64_add_0_l. Qed.

#[export] Hint Resolve u64_range u64_add_range : rust.

(** ** Bits *)

Lemma land_ones_wrap w z : 0 <= w -> Z.land z (Z.ones w) = wrap w z.
Proof. intros. by rewrite Z.land_ones by lia. Qed.

Lemma testbit_wrap w z i :
  0 <= w -> Z.testbit (wrap w z) i = (i <? w) && Z.testbit z i.
Proof.
  intros Hw. unfold wrap. destruct (Z.ltb_spec i w).
  - rewrite Z.mod_pow2_bits_low by lia. by rewrite andb_true_l.
  - rewrite Z.mod_pow2_bits_high by lia. by rewrite andb_false_l.
Qed.

Lemma testbit_high w z i : is_uint w z -> 0 <= w <= i -> Z.testbit z i = false.
Proof.
  intros Hz Hi. rewrite <- (wrap_id w z Hz), testbit_wrap by lia.
  by rewrite (proj2 (Z.ltb_ge i w)) by lia.
Qed.

(** Numbers whose high bits are clear are in range. *)
Lemma uint_of_bits w z :
  0 <= w -> 0 <= z -> (forall i, w <= i -> Z.testbit z i = false) -> is_uint w z.
Proof.
  intros Hw Hz Hb. assert (wrap w z = z) as <-; [| by apply wrap_range].
  apply Z.bits_inj'. intros i Hi. rewrite testbit_wrap by lia.
  destruct (Z.ltb_spec i w); [done|]. symmetry. by apply Hb.
Qed.

Lemma lxor_range w a b : 0 <= w -> is_uint w a -> is_uint w b -> is_uint w (Z.lxor a b).
Proof.
  intros Hw Ha Hb. apply uint_of_bits; [done| |].
  - apply Z.lxor_nonneg. unfold is_uint in *. lia.
  - intros i Hi. rewrite Z.lxor_spec, (testbit_high w a), (testbit_high w b); auto.
Qed.

Lemma lor_range w a b : 0 <= w -> is_uint w a -> is_uint w b -> is_uint w (Z.lor a b).
Proof.
  intros Hw Ha Hb. apply uint_of_bits; [done| |].
  - apply Z.lor_nonneg. unfold is_uint in *. lia.
  - intros i Hi. rewrite Z.lor_spec, (testbit_high w a), (testbit_high w b); auto.
Qed.

Lemma shiftr_range w a n : 0 <= w -> 0 <= n -> is_uint w a -> is_uint w (Z.shiftr a n).
Proof.
  intros Hw Hn Ha. apply uint_of_bits; [done| |].
  - apply Z.shiftr_nonneg. unfold is_uint in *. lia.
  - intros i Hi. rewrite Z.shiftr_spec by lia. apply (testbit_high w); [done|lia].
Qed.

Lemma u64_shl_range a n : is_u64 (u64_shl a n).
Proof. apply u64_range. Qed.

#[export] Hint Resolve lxor_range lor_range shiftr_range u64_shl_range : rust.

(** [a lor b] of numbers without common bits is their sum. *)
Lemma lor_add a b n :
  0 <= n -> 0 <= a < 2 ^ n -> Z.lor (Z.shiftl b n) a = b * 2 ^ n + a.
Proof.
  intros Hn Ha. rewrite <- Z.lxor_lor, <- Z.add_nocarry_lxor.
  - by rewrite Z.shiftl_mul_pow2 by lia.
  - apply Z.bits_inj'. intros i Hi. rewrite Z.land_spec, Z.bits_0.
    destruct (decide (i < n)).
    + rewrite Z.shiftl_spec_low by lia. done.
    + rewrite (testbit_high n a) by (unfold is_uint; lia). apply andb_false_r.
  - apply Z.bits_inj'. intros i Hi. rewrite Z.land_spec, Z.bits_0.
    destruct (decide (i < n)).
    + rewrite Z.shiftl_spec_low by lia. done.
    + rewrite (testbit_high n a) by (unfold is_uint; lia). apply andb_false_r.
Qed.

(** ** Fallible code: [Result<A, E>] *)

Inductive result (A E : Type) : Type :=
| Ok (a : A)
| Err (e : E).
Arguments Ok {A E} a.
Arguments Err {A E} e.

Definition result_bind {A B E} (m : result A E) (f : A -> result B E) : result B E :=
  match m with Ok a => f a | Err e => Err e end.
Definition result_map_err {A E F} (g : E -> F) (m : result A E) : result A F :=
  match m with Ok a => Ok a | Err e => Err (g e) end.
Definition result_is_ok {A E} (m : result A E) : bool :=
  match m with Ok _ => true | Err _ => false end.

Notation "'let?' x := c1 'in' c2" := (result_bind c1 (fun x => c2))
  (at level 10, x pattern, c1 at level 100, c2 at level 200)
  : rust_scope.

Lemma result_bind_Ok {A B E} (m : result A E) (f : A -> result B E) b :
  result_bind m f = Ok b <-> exists a, m = Ok a /\ f a = Ok b.
Proof. destruct m; simpl; split; naive_solver eauto. Qed.

(** [iter.map(f).collect::<Result<Vec<_>, _>>()]: stops at the first error. *)
Fixpoint result_collect {A B E} (f : A -> result B E) (l : list A) : result (list B) E :=
  match l with
  | [] => Ok []
  | a :: l' =>
      result_bind (f a) (fun b => result_bind (result_collect f l') (fun bs => Ok (b :: bs)))
  end.

Lemma result_collect_Ok {A B E} (f : A -> result B E) l bs :
  result_collect f l = Ok bs <-> Forall2 (fun a b => f a = Ok b) l bs.
Proof.
  revert bs. induction l as [|a l IH]; intros bs; simpl.
  - split; [by intros [= <-]|]. by intros ->%Forall2_nil_inv_l.
  - rewrite result_bind_Ok. setoid_rewrite result_bind_Ok. split.
    + intros (b & Hb & bs' & Hbs & [= <-]). constructor; [done|]. by apply IH.
    + intros (b & bs' & Hb & Hbs & ->)%Forall2_cons_inv_l. naive_solver.
Qed.

(** ** Byte strings

    A Rust [String] is its UTF-8 bytes, a Stdlib [string].  Byte buffers
    ([Vec<u8>], [&[u8]]) are lists of [Z], each an [is_u8]. *)

Definition byte_of_ascii (c : ascii) : Z := Z.of_N (N_of_ascii c).
Definition ascii_of_byte (b : Z) : ascii := ascii_of_N (Z.to_N b).
Definition bytes_of_string (s : string) : list Z := byte_of_ascii <$> list_ascii_of_string s.
Definition string_of_bytes (l : list Z) : string := string_of_list_ascii (ascii_of_byte <$> l).

Lemma ascii_of_byte_of_ascii c : ascii_of_byte (byte_of_ascii c) = c.
Proof. unfold ascii_of_byte, byte_of_ascii. by rewrite N2Z.id, ascii_N_embedding. Qed.

Lemma byte_of_ascii_of_byte b : is_u8 b -> byte_of_ascii (ascii_of_byte b) = b.
Proof.
  intros H. unfold ascii_of_byte, byte_of_ascii. rewrite N_ascii_embedding.
  - apply Z2N.id. unfold is_uint in H. lia.
  - unfold is_uint in H. change (2 ^ 8) with 256 in H. lia.
Qed.

Lemma byte_of_ascii_range c : is_u8 (byte_of_ascii c).
Proof.
  unfold is_uint, byte_of_ascii. pose proof (N_ascii_bounded c). change (2 ^ 8) with 256. lia.
Qed.

Lemma bytes_of_string_range s : Forall is_u8 (bytes_of_string s).
Proof. apply Forall_fmap, Forall_true. intros c. apply byte_of_ascii_range. Qed.

Lemma string_of_bytes_of_string s : string_of_bytes (bytes_of_string s) = s.
Proof.
  unfold string_of_bytes, bytes_of_string. rewrite <- list_fmap_compose.
  rewrite <- (string_of_list_ascii_of_string s) at 2. f_equal.
  rewrite <- (list_fmap_id (list_ascii_of_string s)) at 2.
  apply list_fmap_ext. intros i c _. simpl. apply ascii_of_byte_of_ascii.
Qed.

Lemma bytes_of_string_of_bytes l : Forall is_u8 l -> bytes_of_string (string_of_bytes l) = l.
Proof.
  intros H. unfold string_of_bytes, bytes_of_string.
  rewrite list_ascii_of_string_of_list_ascii, <- list_fmap_compose.
  rewrite <- (list_fmap_id l) at 2. apply list_fmap_ext.
  intros i b Hb. simpl. apply byte_of_ascii_of_byte. by eapply Forall_lookup_1 in Hb.
Qed.

Lemma length_bytes_of_string s : length (bytes_of_string s) = String.length s.
Proof.
  unfold bytes_of_string. rewrite length_fmap.
  induction s; simpl; congruence.
Qed.

(** ** Sums *)

Definition sum_Z (l : list Z) : Z := foldr Z.add 0 l.

Lemma sum_Z_app l1 l2 : sum_Z (l1 ++ l2) = sum_Z l1 + sum_Z l2.
Proof. induction l1; unfold sum_Z in *; simpl; lia. Qed.

Lemma sum_Z_nonneg l : Forall (fun x => 0 <= x) l -> 0 <= sum_Z l.
Proof. induction 1; unfold sum_Z in *; simpl; lia. Qed.

#[export] Instance sum_Z_perm : Proper ((≡ₚ) ==> (=)) sum_Z.
Proof. intros l1 l2 H. induction H; unfold sum_Z in *; simpl in *; lia. Qed.

Lemma sum_Z_cons x l : sum_Z (x :: l) = x + sum_Z l.
Proof. done. Qed.

Lemma sum_Z_insert {A} (f : A -> Z) (l : list A) i x y : l !! i = Some x ->
  sum_Z (f <$> <[i := y]> l) = sum_Z (f <$> l) - f x + f y.
Proof.
  revert i. induction l as [|z l IH]; intros [|i] Hi; try done.
  - injection Hi as ->. cbn [insert list_insert]. rewrite !fmap_cons, !sum_Z_cons. lia.
  - cbn [insert list_insert]. change (list_insert i y l) with (<[i := y]> l). rewrite !fmap_cons, !sum_Z_cons, IH by done. lia.
Qed.
Lemma sum_Z_member {A} (f : A -> Z) (l : list A) i x : Forall (fun y => 0 <= f y) l -> l !! i = Some x -> 0 <= f x <= sum_Z (f <$> l).
Proof.
  intros Hf. revert i. induction Hf as [|y l Hy Hf IH]; intros i Hi; [done|]. rewrite fmap_cons, sum_Z_cons.
  assert (0 <= sum_Z (f <$> l)) by (by apply sum_Z_nonneg, Forall_fmap).
  destruct i as [|i]; [injection Hi as ->; lia|]. specialize (IH i Hi). lia.
Qed.

(** Folding an addition to one field of an accumulator adds up the field. *)
Lemma fold_left_add {A S} (step : S -> A -> S) (get : S -> Z) (f : A -> Z) :
  (forall s a, get (step s a) = u64_add (get s) (f a)) ->
  forall l s, is_u64 (get s) ->
    get (fold_left step l s) = wrap 64 (get s + sum_Z (f <$> l)).
Proof.
  intros Hstep l. induction l as [|a l IH]; intros s Hs.
  - simpl. unfold sum_Z; simpl. by rewrite Z.add_0_r, wrap_id.
  - simpl fold_left. rewrite IH by (rewrite Hstep; apply u64_add_range).
    rewrite Hstep, fmap_cons, sum_Z_cons. unfold u64_add. rewrite wrap_add_l. f_equal. lia.
Qed.

(** The sum of a map's values. *)
Definition map_sum `{Countable K} (m : gmap K Z) : Z := sum_Z (map_to_list m).*2.

Lemma map_sum_insert `{Countable K} (m : gmap K Z) k v :
  map_sum (<[k := v]> m) = map_sum m - default 0 (m !! k) + v.
Proof.
  unfold map_sum. assert (map_to_list (<[k := v]> m) ≡ₚ (k, v) :: map_to_list (delete k m)) as ->.
  { rewrite <- insert_delete_eq. apply map_to_list_insert, lookup_delete_eq. }
  rewrite fmap_cons, sum_Z_cons. cbn [snd]. destruct (m !! k) as [x|] eqn:E; cbn [default from_option id].
  - rewrite <- (map_to_list_delete m k x E), fmap_cons, sum_Z_cons. cbn [snd]. lia.
  - rewrite delete_id by done. lia.
Qed.

(** ** Ordered maps

    A [BTreeMap] is a [gmap] whose entries are visited in key order.
    [btree_entry] is the insert-or-update of its entry API. *)

Definition entry_le {V} (a b : Z * V) : Prop := a.1 <= b.1.
#[export] Instance entry_le_dec {V} (a b : Z * V) : Decision (entry_le a b).
Proof. unfold entry_le. apply _. Defined.
#[export] Instance entry_le_trans {V} : Transitive (@entry_le V).
Proof. intros x y z. unfold entry_le. lia. Qed.
#[export] Instance entry_le_total {V} : Total (@entry_le V).
Proof. intros x y. unfold entry_le. lia. Qed.

Definition btree_entries {V} (m : gmap Z V) : list (Z * V) :=
  merge_sort entry_le (map_to_list m).

Lemma btree_entries_perm {V} (m : gmap Z V) : btree_entries m ≡ₚ map_to_list m.
Proof. apply merge_sort_Permutation. Qed.

Lemma elem_of_btree_entries {V} (m : gmap Z V) k v : (k, v) ∈ btree_entries m <-> m !! k = Some v.
Proof. rewrite btree_entries_perm. apply elem_of_map_to_list. Qed.

Lemma NoDup_btree_keys {V} (m : gmap Z V) : NoDup (btree_entries m).*1.
Proof. rewrite btree_entries_perm. apply NoDup_fst_map_to_list. Qed.

(** The keys come in strictly ascending order. *)
Lemma btree_entries_sorted {V} (m : gmap Z V) : StronglySorted Z.lt (btree_entries m).*1.
Proof.
  pose proof (NoDup_btree_keys m) as Hnd. unfold btree_entries in *.
  pose proof (StronglySorted_merge_sort (@entry_le V) (map_to_list m)) as Hs.
  induction Hs as [|[k v] l Hs IH Hall]; [constructor|].
  cbn in *. apply NoDup_cons in Hnd as [Hk Hnd]. constructor; [by apply IH|].
  apply Forall_fmap, Forall_forall. intros [k' v'] Hin. cbn.
  rewrite Forall_forall in Hall. specialize (Hall _ Hin). unfold entry_le in Hall. cbn in Hall.
  assert (k <> k'); [|lia]. intros ->. apply Hk. by apply (list_elem_of_fmap_2 fst) in Hin.
Qed.

(** Folding an update of one key per element: key [k] sees the elements with
    that key, in order. *)
Lemma fold_insert_lookup `{Countable K} {A V} (key : A -> K) (step : option V -> A -> V)
    (l : list A) (m : gmap K V) k :
  fold_left (fun m a => <[key a := step (m !! key a) a]> m) l m !! k =
    fold_left (fun o a => Some (step o a)) (filter (fun a => key a = k) l) (m !! k).
Proof.
  revert m. induction l as [|a l IH]; intros m; [done|].
  cbn [fold_left]. rewrite IH, filter_cons. case_decide as Hk.
  - cbn [fold_left]. by rewrite <- Hk, lookup_insert_eq.
  - by rewrite lookup_insert_ne.
Qed.

(** An entry list without duplicate keys has one element per key. *)
Lemma filter_key `{EqDecision K} {V} (l : list (K * V)) k :
  NoDup l.*1 ->
  filter (fun a => a.1 = k) l = [] /\ k ∉ l.*1 \/
  exists v, filter (fun a => a.1 = k) l = [(k, v)] /\ (k, v) ∈ l.
Proof.
  induction l as [|[k' v] l IH]; intros Hnd; [left; split; [done|apply not_elem_of_nil]|].
  cbn in Hnd. apply NoDup_cons in Hnd as [Hk Hnd]. rewrite filter_cons. cbn [fst].
  destruct (IH Hnd) as [[He Hn]|(v' & He & Hin)]; case_decide as Heq.
  - subst. right. exists v. rewrite He. split; [done|apply list_elem_of_here].
  - left. split; [done|]. cbn. apply not_elem_of_cons. split; congruence.
  - subst. exfalso. apply Hk. by apply (list_elem_of_fmap_2 fst) in Hin.
  - right. exists v'. rewrite He. split; [done|by apply list_elem_of_further].
Qed.

Lemma filter_btree_entries {V} (m : gmap Z V) k :
  filter (fun a => a.1 = k) (btree_entries m) =
    match m !! k with Some v => [(k, v)] | None => [] end.
Proof.
  destruct (filter_key (btree_entries m) k (NoDup_btree_keys m)) as [[-> Hn]|(v & -> & Hin)].
  - destruct (m !! k) as [v|] eqn:E; [|done]. exfalso. apply Hn.
    apply elem_of_btree_entries in E. by apply (list_elem_of_fmap_2 fst) in E.
  - apply elem_of_btree_entries in Hin. by rewrite Hin.
Qed.

Lemma StronglySorted_mono {A} (R S : A -> A -> Prop) l :
  (forall a b, R a b -> S a b) -> StronglySorted R l -> StronglySorted S l.
Proof.
  intros HRS. induction 1 as [|a l Hs IH Ha]; constructor; [done|].
  eapply Forall_impl; [exact Ha|auto].
Qed.

(** ** Record update

    [r <| proj ::= f |>] is [r] with field [proj] changed by [f]; the update
    is built from the record's eta-expansion, declared with [Settable]. *)

Class Settable (R : Type) := eta_expand : R -> R.
Class Setter {R T : Type} (proj : R -> T) := set_field : (T -> T) -> R -> R.
Arguments set_field {R T} proj {_} f r / : assert.

Ltac solve_setter :=
  lazymatch goal with
  | |- @Setter ?R ?T ?proj =>
      let eta := eval hnf in (@eta_expand R _) in
      exact (fun (f : T -> T) (r : R) =>
        ltac:(let body := eval cbv beta in (eta r) in
              let abs := eval pattern (proj r) in body in
              lazymatch abs with
              | ?F _ => let res := eval cbv beta in (F (f (proj r))) in exact res
              end))
  end.
#[export] Hint Extern 0 (Setter _) => solve_setter : typeclass_instances.

Notation "r <| proj ::= f |>" := (set_field proj f r)
  (at level 1, f at level 99, left associativity) : rust_scope.
Notation "r <| proj := v |>" := (set_field proj (fun _ => v) r)
  (at level 1, v at level 99, left associativity) : rust_scope.

(** ** Tactics *)

(** Splits the conjunctions and case analyses of a goal until it is flat. *)
Ltac destruct_matches :=
  repeat match goal with
  | |- context [match ?x with _ => _ end] =>
      lazymatch x with context [match _ with _ => _ end] => fail | _ => destruct x eqn:? end
  | H : context [match ?x with _ => _ end] |- _ =>
      lazymatch x with context [match _ with _ => _ end] => fail | _ => destruct x eqn:? end
  end.

(** Turns the boolean comparisons of the context into propositions. *)
Ltac bool_to_prop :=
  repeat match goal with
  | H : (_ <? _) = true |- _ => apply Z.ltb_lt in H
  | H : (_ <? _) = false |- _ => apply Z.ltb_ge in H
  | H : (_ <=? _) = true |- _ => apply Z.leb_le in H
  | H : (_ <=? _) = false |- _ => apply Z.leb_gt in H
  | H : (_ =? _) = true |- _ => apply Z.eqb_eq in H
  | H : (_ =? _) = false |- _ => apply Z.eqb_neq in H
  | H : (_ && _)%bool = true |- _ => apply andb_prop in H as [? ?]
  | H : (_ || _)%bool = false |- _ => apply orb_false_elim in H as [? ?]
  | H : negb _ = true |- _ => apply negb_true_iff in H
  | H : negb _ = false |- _ => apply negb_false_iff in H
  end.

(** Linear arithmetic on fixed-width integers. *)
Ltac ulia := unfold is_uint in *; lia.
