(* ===== verification/RustStd.v ===== *)
(** * What wsblast uses of Rust's [f64], [Duration] and [Instant]

    [f64] is IEEE 754 binary64 with rounding to nearest even, computed by the
    Standard Library's [SpecFloat]; a decimal literal is the correctly rounded
    quotient of two exact integers.  A [Duration] is its number of
    nanoseconds (at most [DURATION_MAX]) and an [Instant] the nanoseconds
    since an arbitrary origin of the monotonic clock. *)

From Stdlib Require Import ZArith Lia Floats.SpecFloat.
From stdpp Require Import base tactics option numbers list.
From S2P Require Import Prelude.

Local Open Scope Z_scope.

(** ** f64 *)

Abbreviation f64 := spec_float.

Definition f64_prec : Z := 53.
Definition f64_emax : Z := 1024.

Definition f64_add : f64 -> f64 -> f64 := SFadd f64_prec f64_emax.
Definition f64_sub : f64 -> f64 -> f64 := SFsub f64_prec f64_emax.
Definition f64_mul : f64 -> f64 -> f64 := SFmul f64_prec f64_emax.
Definition f64_div : f64 -> f64 -> f64 := SFdiv f64_prec f64_emax.
Definition f64_sqrt : f64 -> f64 := SFsqrt f64_prec f64_emax.
Definition f64_ltb : f64 -> f64 -> bool := SFltb.
Definition f64_leb : f64 -> f64 -> bool := SFleb.

(** [z as f64]. *)
Definition f64_of_Z (z : Z) : f64 := binary_normalize f64_prec f64_emax z 0 false.
(** The literal [n / d], for example [f64_lit 1 20] for [1.0 / 20.0]. *)
Definition f64_lit (n d : Z) : f64 := f64_div (f64_of_Z n) (f64_of_Z d).

Definition f64_zero : f64 := S754_zero false.
Definition f64_infinity : f64 := S754_infinity false.
Definition f64_is_nan (x : f64) : bool := match x with S754_nan => true | _ => false end.

Definition f64_is_finite (x : f64) : bool :=
  match x with S754_zero _ | S754_finite _ _ _ => true | _ => false end.

(** [a.max(b)] and [a.min(b)] return the other operand for a NaN. *)
Definition f64_max (a b : f64) : f64 :=
  if f64_is_nan a then b else if f64_is_nan b then a else if f64_ltb a b then b else a.
Definition f64_min (a b : f64) : f64 :=
  if f64_is_nan a then b else if f64_is_nan b then a else if f64_ltb b a then b else a.

(** The integer nearest to [m * 2^e], halves away from zero. *)
Definition round_half_away (m : Z) (e : Z) : Z :=
  if 0 <=? e then m * 2 ^ e else (2 * m + 2 ^ (- e)) / (2 * 2 ^ (- e)).

(** [x.round().max(0.0) as u64]: [as] saturates and maps NaN to 0. *)
Definition f64_round_as_u64 (x : f64) : Z :=
  match x with
  | S754_finite false m e => Z.min u64_max (round_half_away (Zpos m) e)
  | S754_infinity false => u64_max
  | _ => 0
  end.

(** ** Duration *)

Definition NANOS_PER_SEC : Z := 1000000000.
Definition DURATION_MAX : Z := u64_max * NANOS_PER_SEC + 999999999.

Definition from_secs (s : Z) : Z := s * NANOS_PER_SEC.
Definition from_millis (ms : Z) : Z := ms * 1000000.
Definition from_micros (us : Z) : Z := us * 1000.
Definition as_secs (d : Z) : Z := d / NANOS_PER_SEC.
Definition as_millis (d : Z) : Z := d / 1000000.
Definition as_micros (d : Z) : Z := d / 1000.
Definition subsec_millis (d : Z) : Z := d mod NANOS_PER_SEC / 1000000.

Definition duration_saturating_sub (a b : Z) : Z := Z.max 0 (a - b).
Definition duration_saturating_mul (a k : Z) : Z := Z.min DURATION_MAX (a * k).

(** [d.as_secs_f64()]: the whole seconds plus the nanoseconds over 1e9. *)
Definition as_secs_f64 (d : Z) : f64 :=
  f64_add (f64_of_Z (as_secs d)) (f64_div (f64_of_Z (d mod NANOS_PER_SEC)) (f64_of_Z NANOS_PER_SEC)).

(** [Duration::from_secs_f64(x)] for a non-negative finite [x]: the exact
    value in nanoseconds rounded to nearest, ties to even. *)
Definition round_half_even_div (n d : Z) : Z :=
  let q := n / d in
  let r := n mod d in
  if 2 * r <? d then q else if d <? 2 * r then q + 1 else if Z.even q then q else q + 1.
Definition from_secs_f64 (x : f64) : Z :=
  match x with
  | S754_finite false m e =>
      if 0 <=? e then Zpos m * 2 ^ e * NANOS_PER_SEC
      else round_half_even_div (Zpos m * NANOS_PER_SEC) (2 ^ (- e))
  | _ => 0
  end.

(** ** Instant *)

(** [a.saturating_duration_since(b)]; [a - b] and [a.elapsed()] saturate
    the same way. *)
Definition saturating_duration_since (a b : Z) : Z := Z.max 0 (a - b).

(** [d.as_micros().clamp(1, 60_000_000) as u64] *)
Definition clamp (lo hi z : Z) : Z := Z.max lo (Z.min hi z).

Lemma clamp_range lo hi z : lo <= hi -> lo <= clamp lo hi z <= hi.
Proof. unfold clamp. lia. Qed.

Lemma clamp_id lo hi z : lo <= z <= hi -> clamp lo hi z = z.
Proof. unfold clamp. lia. Qed.

Lemma clamp_mono lo hi a b : a <= b -> clamp lo hi a <= clamp lo hi b.
Proof. unfold clamp. lia. Qed.

(** ** Facts about non-negative floats *)

(** Not NaN and not negative (a zero of either sign counts as
    non-negative). *)
Definition f64_nonneg (x : f64) : bool :=
  match x with
  | S754_zero _ | S754_infinity false | S754_finite false _ _ => true
  | _ => false
  end.

Lemma f64_max_l_nonneg a b : f64_nonneg b = true -> f64_nonneg (f64_max a b) = true.
Proof.
  unfold f64_max, f64_ltb, SFltb. intros Hb.
  destruct a as [[]|[]| |[] ma ea], b as [[]|[]| |[] mb eb]; simpl in *; try done.
  all: by repeat case_match.
Qed.

Example as_secs_f64_ex : as_secs_f64 1500000000 = f64_lit 3 2.
Proof. vm_compute. reflexivity. Qed.

Example from_secs_f64_third : from_secs_f64 (f64_lit 1 3) = 333333333.
Proof. vm_compute. reflexivity. Qed.

Example from_secs_f64_inverse : from_secs_f64 (as_secs_f64 1234567891) = 1234567891.
Proof. vm_compute. reflexivity. Qed.
