(* ===== verification/Str.v ===== *)
(** * What wsblast uses of Rust's [str]

    A [&str] is its UTF-8 bytes.  The functions below are the standard
    library's, on those bytes: [trim], [split_once], [strip_prefix],
    [strip_suffix], [contains], [to_ascii_lowercase], the parsers of [u64]
    and [f64] and the display of an integer.  A character pattern made of
    whole UTF-8 sequences matches bytes exactly where it matches
    characters. *)

From Stdlib Require Import ZArith Lia Ascii String Decimal DecimalString DecimalFacts DecimalN DecimalPos Floats.SpecFloat.
From stdpp Require Import base tactics strings numbers option list.
From S2P Require Import Prelude RustStd.

Local Open Scope Z_scope.
Local Open Scope rust_scope.

(** ** Prefixes and suffixes *)

Fixpoint strip_prefix (p s : string) : option string :=
  match p, s with
  | EmptyString, _ => Some s
  | String a p', String b s' => if decide (a = b) then strip_prefix p' s' else None
  | String _ _, EmptyString => None
  end.

Fixpoint strip_suffix (p s : string) : option string :=
  if decide (s = p) then Some EmptyString
  else match s with
       | EmptyString => None
       | String c s' => String c <$> strip_suffix p s'
       end.

Definition starts_with (p s : string) : bool := if strip_prefix p s is Some _ then true else false.
Definition ends_with (p s : string) : bool := if strip_suffix p s is Some _ then true else false.

Fixpoint contains (p s : string) : bool :=
  starts_with p s || match s with EmptyString => false | String _ s' => contains p s' end.

(** [s.split_once(sep)] for an ASCII separator. *)
Fixpoint split_once (sep : ascii) (s : string) : option (string * string) :=
  match s with
  | EmptyString => None
  | String c s' =>
      if decide (c = sep) then Some (""%string, s')
      else '(a, b) ← split_once sep s'; Some (String c a, b)
  end.

(** [s.find(p)], as the text before the first occurrence of [p] and the text
    after it. *)
Fixpoint find_split (p s : string) : option (string * string) :=
  match strip_prefix p s with
  | Some after => Some (""%string, after)
  | None =>
      match s with
      | EmptyString => None
      | String c s' => '(before, after) ← find_split p s'; Some (String c before, after)
      end
  end.

Definition ascii_lower (c : ascii) : ascii :=
  let b := byte_of_ascii c in
  if (65 <=? b) && (b <=? 90) then ascii_of_byte (b + 32) else c.
Fixpoint to_ascii_lowercase (s : string) : string :=
  match s with
  | EmptyString => EmptyString
  | String c s' => String (ascii_lower c) (to_ascii_lowercase s')
  end.
Definition eq_ignore_ascii_case (a b : string) : bool :=
  bool_decide (to_ascii_lowercase a = to_ascii_lowercase b).

(** ** [trim] *)

(** The UTF-8 encodings of the characters with the Unicode property
    [White_Space]. *)
Definition whitespace_chars : list string :=
  string_of_bytes <$>
    ([[9]; [10]; [11]; [12]; [13]; [32]; [194; 133]; [194; 160]; [225; 154; 128]] ++
     ((fun b => [226; 128; b]) <$> [128; 129; 130; 131; 132; 133; 134; 135; 136; 137; 138; 168; 169; 175]) ++
     [[226; 129; 159]; [227; 128; 128]]).

Fixpoint first_some {A B} (f : A -> option B) (l : list A) : option B :=
  match l with
  | [] => None
  | a :: l' => match f a with Some b => Some b | None => first_some f l' end
  end.

(** Strips one character at a time; every strip shortens the string, so its
    length is fuel enough. *)
Fixpoint trim_loop (strip : string -> string -> option string) (fuel : nat) (s : string) : string :=
  match fuel with
  | O => s
  | S fuel' =>
      match first_some (fun w => strip w s) whitespace_chars with
      | Some s' => trim_loop strip fuel' s'
      | None => s
      end
  end.
Definition trim_start (s : string) : string := trim_loop strip_prefix (String.length s) s.
Definition trim_end (s : string) : string := trim_loop strip_suffix (String.length s) s.
Definition trim (s : string) : string := trim_end (trim_start s).

(** ** Integers *)

(** [s.parse::<u64>()]: digits, after an optional plus sign. *)
Definition parse_uint (max : Z) (s : string) : option Z :=
  let digits := match s with String "+" (String _ _ as d) => d | _ => s end in
  if decide (digits = ""%string) then None
  else d ← NilEmpty.uint_of_string digits;
       let n := Z.of_N (N.of_uint d) in
       if n <=? max then Some n else None.
Abbreviation parse_u64 := (parse_uint u64_max).

(** [n.to_string()] *)
Definition display_u64 (n : Z) : string := NilEmpty.string_of_uint (N.to_uint (Z.to_N n)).

(** ** Floats *)

(** The digits at the head of [s], and what follows them. *)
Definition is_digit (c : ascii) : bool :=
  let b := byte_of_ascii c in (48 <=? b) && (b <=? 57).
Fixpoint take_digits (s : string) : string * string :=
  match s with
  | String c s' =>
      if is_digit c then let (d, rest) := take_digits s' in (String c d, rest) else (""%string, s)
  | EmptyString => (""%string, s)
  end.
Definition digits_value (d : string) : Z :=
  match NilEmpty.uint_of_string d with Some u => Z.of_N (N.of_uint u) | None => 0 end.

(** [m * 10^e], correctly rounded. *)
Definition f64_of_decimal (negative : bool) (m e : Z) : f64 :=
  match m with
  | Zpos p =>
      if 0 <=? e then
        match binary_normalize f64_prec f64_emax (m * 10 ^ e) 0 false with
        | S754_finite _ m' e' => S754_finite negative m' e'
        | S754_infinity _ => S754_infinity negative
        | x => x
        end
      else f64_div (S754_finite negative p 0) (S754_finite false (Z.to_pos (10 ^ (- e))) 0)
  | _ => S754_zero negative
  end.

(** The exponent part, if there is one; [None] for a malformed one. *)
Definition parse_exponent (s : string) : option Z :=
  match s with
  | EmptyString => Some 0
  | String c s' =>
      if decide (c = "e"%char \/ c = "E"%char) then
        let '(negative, s') :=
          match s' with
          | String "-" t => (true, t)
          | String "+" t => (false, t)
          | _ => (false, s')
          end in
        let (d, rest) := take_digits s' in
        if decide (d = ""%string \/ rest <> ""%string) then None
        else Some (if negative : bool then - digits_value d else digits_value d)
      else None
  end.

(** [s.parse::<f64>()] *)
Definition parse_f64 (s : string) : option f64 :=
  let '(negative, body) :=
    match s with
    | String "-" t => (true, t)
    | String "+" t => (false, t)
    | _ => (false, s)
    end in
  let (whole, rest) := take_digits body in
  let (frac, rest) := match rest with String "." t => take_digits t | _ => (""%string, rest) end in
  if decide (whole = ""%string /\ frac = ""%string) then
    let word := to_ascii_lowercase body in
    if decide (word = "inf"%string \/ word = "infinity"%string) then Some (S754_infinity negative)
    else if decide (word = "nan"%string) then Some S754_nan
    else None
  else
    e ← parse_exponent rest;
    Some (f64_of_decimal negative (digits_value (whole ++ frac)) (e - Z.of_nat (String.length frac))).

(** ** Lemmas *)

Lemma app_string_cons a (p s : string) : (String a p ++ s)%string = String a (p ++ s).
Proof. done. Qed.
Lemma app_string_nil (s : string) : ("" ++ s)%string = s.
Proof. done. Qed.

Lemma app_string_assoc (a b c : string) : ((a ++ b) ++ c = a ++ (b ++ c))%string.
Proof. induction a as [|x a IH]; [done|]. by rewrite !app_string_cons, IH. Qed.

Lemma app_string_nil_r (s : string) : (s ++ "")%string = s.
Proof. induction s as [|c s IH]; [done|]. by rewrite app_string_cons, IH. Qed.

Lemma strip_prefix_app p s : strip_prefix p (p ++ s) = Some s.
Proof.
  induction p as [|a p IH]; [by destruct s|]. rewrite app_string_cons. cbn. by rewrite decide_True.
Qed.

Lemma strip_prefix_Some p s s' : strip_prefix p s = Some s' -> s = (p ++ s')%string.
Proof.
  revert s. induction p as [|a p IH]; intros s; cbn; [by intros [= ->]|].
  destruct s as [|b s]; [done|]. case_decide; [|done]. subst. by intros ->%IH.
Qed.

Lemma length_string_app (a b : string) : String.length (a ++ b) = (String.length a + String.length b)%nat.
Proof. induction a as [|c a IH]; [done|]. rewrite app_string_cons. cbn. by rewrite IH. Qed.

Lemma strip_suffix_Some p s s' : strip_suffix p s = Some s' -> s = (s' ++ p)%string.
Proof.
  revert s'. induction s as [|c s IH]; intros s'; cbn.
  - case_decide; [|done]. by intros [= <-].
  - case_decide as Hd; [by intros [= <-]|]. intros (t & Ht & ->)%fmap_Some.
    rewrite app_string_cons. f_equal. by apply IH.
Qed.

Lemma strip_suffix_app p s : strip_suffix p (s ++ p) = Some s.
Proof.
  induction s as [|c s IH].
  - rewrite app_string_nil. destruct p; cbn; by rewrite decide_True.
  - rewrite app_string_cons. cbn. rewrite decide_False; [by rewrite IH|]. intros Heq.
    pose proof (f_equal String.length Heq) as Hl. cbn in Hl. rewrite length_string_app in Hl. lia.
Qed.

Lemma starts_with_rest p s : starts_with p s = true <-> exists rest, s = (p ++ rest)%string.
Proof.
  unfold starts_with. split.
  - destruct (strip_prefix p s) as [rest|] eqn:E; [|done]. intros _. exists rest. by apply strip_prefix_Some.
  - intros [rest ->]. by rewrite strip_prefix_app.
Qed.

Lemma split_once_Some sep s a b : split_once sep s = Some (a, b) -> s = (a ++ String sep b)%string.
Proof.
  revert a. induction s as [|c s IH]; intros a; cbn; [done|]. case_decide as Hc.
  - intros [= <- <-]. by rewrite Hc.
  - destruct (split_once sep s) as [[a' b']|]; cbn; [|done]. intros [= <- <-]. rewrite app_string_cons. f_equal. by apply IH.
Qed.

Lemma find_split_Some p s before after :
  find_split p s = Some (before, after) -> s = (before ++ p ++ after)%string.
Proof.
  revert before. induction s as [|c s IH]; intros before; cbn.
  - destruct (strip_prefix p "") as [after'|] eqn:E; [|done]. intros [= <- <-].
    rewrite app_string_nil. by apply strip_prefix_Some.
  - destruct (strip_prefix p (String c s)) as [after'|] eqn:E.
    + intros [= <- <-]. rewrite app_string_nil. by apply strip_prefix_Some.
    + destruct (find_split p s) as [[b a]|]; cbn; [|done]. intros [= <- ->].
      rewrite app_string_cons. f_equal. by apply IH.
Qed.

(** A string that no whitespace character starts or ends is its own trim. *)
Lemma trim_loop_id strip n s :
  first_some (fun w => strip w s) whitespace_chars = None -> trim_loop strip n s = s.
Proof. intros H. destruct n; [done|]. cbn [trim_loop]. by rewrite H. Qed.

Lemma first_some_None {A B} (f : A -> option B) l : Forall (fun a => f a = None) l -> first_some f l = None.
Proof. induction 1 as [|a l Ha Hl IH]; [done|]. cbn. by rewrite Ha. Qed.

(** A character whose byte neither starts nor ends a whitespace character. *)
Definition is_word_byte (b : Z) : bool := (33 <=? b) && (b <=? 126).

Lemma strip_prefix_word c s :
  is_word_byte (byte_of_ascii c) = true ->
  Forall (fun w => strip_prefix w (String c s) = None) whitespace_chars.
Proof.
  destruct c as [[] [] [] [] [] [] [] []]; intros H; vm_compute in H; try done; clear H;
    repeat constructor.
Qed.

Lemma strip_suffix_last w c s :
  match strip_suffix w (s ++ String c EmptyString) with
  | Some _ => exists w', w = (w' ++ String c EmptyString)%string \/ w = EmptyString
  | None => True
  end.
Proof.
  destruct (strip_suffix w (s ++ String c EmptyString)) as [t|] eqn:E; [|done].
  apply strip_suffix_Some in E. revert t E. induction s as [|d s IH]; intros t E.
  - rewrite app_string_nil in E. destruct t as [|d t].
    + rewrite app_string_nil in E. exists EmptyString. by left.
    + rewrite app_string_cons in E. injection E as -> E. destruct t, w; done || (exists EmptyString; by right).
  - rewrite app_string_cons in E. destruct t as [|d' t].
    + rewrite app_string_nil in E. subst w. exists (String d s). by left.
    + rewrite app_string_cons in E. injection E as -> E. by apply (IH t).
Qed.

Lemma strip_suffix_word c s :
  is_word_byte (byte_of_ascii c) = true ->
  Forall (fun w => strip_suffix w (s ++ String c EmptyString) = None) whitespace_chars.
Proof.
  intros Hc. apply Forall_forall. intros w Hw.
  pose proof (strip_suffix_last w c s) as H. destruct (strip_suffix w _); [|done].
  exfalso. destruct H as (w' & [->| ->]); revert Hw; clear - Hc.
  - intros Hw. assert (Forall (fun w => match rev (list_ascii_of_string w) with
        | c :: _ => is_word_byte (byte_of_ascii c) = false | [] => False end) whitespace_chars) as Hall
      by (vm_compute; repeat constructor).
    rewrite Forall_forall in Hall. specialize (Hall _ Hw).
    assert (list_ascii_of_string (w' ++ String c EmptyString) = list_ascii_of_string w' ++ [c]) as Heq.
    { clear. induction w' as [|d w' IH]; [done|]. rewrite app_string_cons. cbn. by rewrite IH. }
    rewrite Heq, rev_app_distr in Hall. cbn in Hall. congruence.
  - intros Hw. assert (Forall (fun w => w <> EmptyString) whitespace_chars) as Hall
      by (vm_compute; repeat constructor; done).
    rewrite Forall_forall in Hall. by apply (Hall _ Hw).
Qed.

Lemma trim_word c s d t :
  is_word_byte (byte_of_ascii c) = true -> is_word_byte (byte_of_ascii d) = true ->
  String c s = (t ++ String d EmptyString)%string -> trim (String c s) = String c s.
Proof.
  intros Hc Hd Heq. unfold trim, trim_start, trim_end.
  rewrite (trim_loop_id strip_prefix) by (by apply first_some_None, strip_prefix_word).
  rewrite Heq. apply trim_loop_id. by apply first_some_None, strip_suffix_word.
Qed.

(** *** Digits *)

Lemma uint_of_display n : NilEmpty.uint_of_string (display_u64 n) = Some (N.to_uint (Z.to_N n)).
Proof. apply NilEmpty.usu. Qed.

Lemma to_uint_nonnil n : N.to_uint n <> Decimal.Nil.
Proof. destruct n; [done|]. apply DecimalPos.Unsigned.to_uint_nonnil. Qed.

Lemma display_u64_nonempty n : display_u64 n <> ""%string.
Proof.
  unfold display_u64. pose proof (to_uint_nonnil (Z.to_N n)). by destruct (N.to_uint (Z.to_N n)).
Qed.

Lemma display_head n : exists c s, display_u64 n = String c s /\ is_digit c = true.
Proof.
  pose proof (display_u64_nonempty n) as Hne. unfold display_u64 in *.
  destruct (N.to_uint (Z.to_N n)); cbn in *; try done; eauto.
Qed.

Lemma parse_u64_display n : is_u64 n -> parse_u64 (display_u64 n) = Some n.
Proof.
  intros Hn. unfold parse_uint. destruct (display_head n) as (c & s & Hs & Hc). rewrite Hs.
  assert (match String c s with String "+" (String _ _ as d) => d | _ => String c s end = String c s) as ->.
  { destruct c as [[] [] [] [] [] [] [] []]; try done. }
  rewrite decide_False by done. rewrite <- Hs, uint_of_display. cbn -[N.to_uint N.of_uint].
  rewrite DecimalN.Unsigned.of_to, Z2N.id by ulia.
  by rewrite (proj2 (Z.leb_le n u64_max)) by (unfold u64_max; ulia).
Qed.

Lemma string_of_uint_digits d : take_digits (NilEmpty.string_of_uint d) = (NilEmpty.string_of_uint d, ""%string).
Proof. induction d; cbn; try done; by rewrite IHd. Qed.

Lemma parse_uint_range max s n : parse_uint max s = Some n -> 0 <= n <= max.
Proof.
  unfold parse_uint. intros H. destruct_matches; simplify_option_eq; destruct_matches; simplify_eq.
  all: bool_to_prop; lia.
Qed.

Lemma take_digits_app d s :
  match s with String c _ => is_digit c = false | EmptyString => True end ->
  take_digits (NilEmpty.string_of_uint d ++ s) = (NilEmpty.string_of_uint d, s).
Proof.
  intros Hs. induction d; cbn [NilEmpty.string_of_uint]; rewrite ?app_string_nil, ?app_string_cons; cbn; try by rewrite IHd.
  destruct s as [|c s]; [done|]. cbn. by rewrite Hs.
Qed.

Lemma take_digits_none s :
  match s with String c _ => is_digit c = false | EmptyString => True end -> take_digits s = (""%string, s).
Proof. destruct s as [|c s]; cbn; [done|]. by intros ->. Qed.

(** The display of an integer ends in a digit. *)
Lemma string_of_uint_last d :
  d <> Decimal.Nil ->
  exists t c, NilEmpty.string_of_uint d = (t ++ String c EmptyString)%string /\ is_digit c = true.
Proof.
  induction d as [|d IH|d IH|d IH|d IH|d IH|d IH|d IH|d IH|d IH|d IH]; intros Hd; [done|..].
  all: cbn [NilEmpty.string_of_uint];
    assert (d = Decimal.Nil \/ d <> Decimal.Nil) as [->|Hne] by (destruct d; auto);
    [by eexists ""%string, _|destruct (IH Hne) as (t & c & -> & Hc); by eexists (String _ t), c].
Qed.

Lemma digit_word c : is_digit c = true -> is_word_byte (byte_of_ascii c) = true.
Proof. unfold is_digit, is_word_byte. intros [H1 H2]%andb_prop. bool_to_prop. apply andb_true_intro. split; apply Z.leb_le; lia. Qed.

Lemma contains_suffix (w s : string) : contains w (s ++ w)%string = true.
Proof.
  induction s as [|c s IH].
  - rewrite app_string_nil. pose proof (strip_prefix_app w ""%string) as Hp. rewrite app_string_nil_r in Hp.
    destruct w; cbn [contains]; unfold starts_with; by rewrite Hp.
  - rewrite app_string_cons. cbn [contains]. rewrite IH. apply orb_true_r.
Qed.

Lemma contains_prefix (w s : string) : contains w (w ++ s)%string = true.
Proof.
  pose proof (strip_prefix_app w s) as Hp. destruct (w ++ s)%string eqn:E; cbn [contains]; unfold starts_with; by rewrite Hp.
Qed.

Lemma contains_char c s : contains (String c EmptyString) s = false -> c ∉ list_ascii_of_string s.
Proof.
  induction s as [|d s IH]; [intros _; apply not_elem_of_nil|]. cbn [contains list_ascii_of_string]. unfold starts_with. cbn.
  intros [Hp Hs]%orb_false_elim. apply not_elem_of_cons. split; [|by apply IH]. intros <-. by rewrite decide_True in Hp.
Qed.

Example trim_ex : trim (string_of_bytes [32; 226; 128; 131; 49; 115; 194; 160; 10]) = "1s"%string.
Proof. vm_compute. reflexivity. Qed.
Example parse_u64_ex : parse_u64 "+18446744073709551615" = Some u64_max /\ parse_u64 "18446744073709551616" = None
  /\ parse_u64 "-1" = None /\ parse_u64 "+" = None /\ parse_u64 "" = None.
Proof. vm_compute. repeat split. Qed.
Example parse_f64_ex : parse_f64 "1.5" = Some (f64_lit 3 2) /\ parse_f64 ".5e1" = Some (f64_of_Z 5)
  /\ parse_f64 "-Infinity" = Some (S754_infinity true) /\ parse_f64 "1e" = None /\ parse_f64 "." = None
  /\ parse_f64 "0.1" = Some (f64_lit 1 10).
Proof. vm_compute. repeat split. Qed.
