(* ===== verification/Hdr.v ===== *)
(** * The interface of the [hdrhistogram] crate

    wsblast keeps latency in [hdrhistogram::Histogram<u64>], which is not part
    of the repository.  [Hdr] lists the operations the code calls and
    [HdrLaws] the documented behaviour it relies on: a histogram counts
    recordings per class of equivalent values, a class being the values that
    share their leading significant bits; [record_n] and [add] saturate the
    counts.  Every theorem about latency is proved against this interface.
    [ClassHistogram] at the end is an executable instance. *)

From Stdlib Require Import ZArith Lia.
From stdpp Require Import base tactics option numbers gmap sorting list.
From S2P Require Import Prelude RustStd.

Local Open Scope Z_scope.

(** Bounds of a histogram: smallest and largest value, significant
    figures. *)
Record HdrBounds := mkBounds { hdr_low : Z; hdr_high : Z; hdr_sigfig : Z }.

Class Hdr (H : Type) := {
  (** [Histogram::new_with_bounds(low, high, sigfig).ok()] *)
  hdr_new : HdrBounds -> option H;
  hdr_bounds : H -> HdrBounds;
  (** [record_n]: [None] when the value is out of bounds. *)
  hdr_record_n : Z -> Z -> H -> option H;
  (** [h.add(&other)]: [None] when the values do not fit. *)
  hdr_add : H -> H -> option H;
  hdr_count_at : H -> Z -> Z;
  hdr_len : H -> Z;
  hdr_min : H -> Z;
  hdr_max : H -> Z;
  hdr_mean : H -> f64;
  hdr_stdev : H -> f64;
  hdr_value_at_quantile : H -> f64 -> Z;
  hdr_count_between : H -> Z -> Z -> Z;
  (** [iter_recorded()]: values iterated to, with their counts. *)
  hdr_recorded : H -> list (Z * Z);
}.

Definition hdr_is_empty {H} `{Hdr H} (h : H) : bool := hdr_len h =? 0.
(** [let _ = hist.record_n(v, n)]: an error leaves the histogram as it is. *)
Definition hdr_record_n' {H} `{Hdr H} (v n : Z) (h : H) : H := default h (hdr_record_n v n h).
Definition hdr_record' {H} `{Hdr H} (v : Z) (h : H) : H := hdr_record_n' v 1 h.
(** [let _ = hist.add(other)] *)
Definition hdr_add' {H} `{Hdr H} (h other : H) : H := default h (hdr_add h other).

(** Bits kept of a value: [2^10 <= 1000 * 2 / 2] sub-buckets per power of two
    at three figures, [2^7] at two, as the crate derives them. *)
Definition half_magnitude (sigfig : Z) : Z := Z.log2_up (2 * 10 ^ sigfig) - 1.

(** The lowest value equivalent to [v]. *)
Definition lowest_equivalent (sigfig v : Z) : Z :=
  let b := Z.max 0 (Z.log2 v - half_magnitude sigfig) in v / 2 ^ b * 2 ^ b.

Definition in_bounds (b : HdrBounds) (v : Z) : Prop := hdr_low b <= v <= hdr_high b.
Definition equivalent (b : HdrBounds) (v w : Z) : Prop :=
  lowest_equivalent (hdr_sigfig b) v = lowest_equivalent (hdr_sigfig b) w.
#[export] Instance equivalent_dec b v w : Decision (equivalent b v w).
Proof. unfold equivalent. apply _. Defined.

(** Two histograms with the same bounds and counts cannot be told apart. *)
Definition hdr_equiv {H} `{Hdr H} : Equiv H := fun h1 h2 =>
  hdr_bounds h1 = hdr_bounds h2 /\
  forall v, in_bounds (hdr_bounds h1) v -> hdr_count_at h1 v = hdr_count_at h2 v.

(** The documented behaviour, for the bounds wsblast uses. *)
Definition used_bounds (b : HdrBounds) : Prop :=
  hdr_low b = 1 /\ hdr_high b = 60000000 /\ (hdr_sigfig b = 2 \/ hdr_sigfig b = 3).

Class HdrLaws (H : Type) `{Hdr H} := {
  hdr_new_spec : forall b, used_bounds b ->
    exists h, hdr_new b = Some h /\ hdr_bounds h = b /\
      (forall v, in_bounds b v -> hdr_count_at h v = 0);
  hdr_record_n_spec : forall v n h, used_bounds (hdr_bounds h) ->
    in_bounds (hdr_bounds h) v -> is_u64 n ->
    exists h', hdr_record_n v n h = Some h' /\ hdr_bounds h' = hdr_bounds h /\
      (forall w, in_bounds (hdr_bounds h) w -> hdr_count_at h' w =
         if decide (equivalent (hdr_bounds h) v w)
         then u64_saturating_add (hdr_count_at h w) n else hdr_count_at h w);
  hdr_add_spec : forall h1 h2, used_bounds (hdr_bounds h1) -> hdr_bounds h2 = hdr_bounds h1 ->
    exists h, hdr_add h1 h2 = Some h /\ hdr_bounds h = hdr_bounds h1 /\
      (forall v, in_bounds (hdr_bounds h1) v ->
         hdr_count_at h v = u64_saturating_add (hdr_count_at h1 v) (hdr_count_at h2 v));
  hdr_count_at_u64 : forall h v, is_u64 (hdr_count_at h v);
}.

(** A value is in the same class as one within the bounds: the crate's
    highest equivalent value of a bucket may exceed the upper bound. *)
Definition fits (b : HdrBounds) (v : Z) : Prop := exists w, in_bounds b w /\ equivalent b v w.

(** What the code relies on when it sends a histogram as its recorded
    values: [iter_recorded] visits every class with a count once, and a value
    of any class of the histogram can be recorded. *)
Class HdrIterLaws (H : Type) `{HdrLaws H} := {
  hdr_recorded_fits : forall h, used_bounds (hdr_bounds h) ->
    Forall (fun p => fits (hdr_bounds h) p.1 /\
      forall v, in_bounds (hdr_bounds h) v -> equivalent (hdr_bounds h) p.1 v -> p.2 = hdr_count_at h v)
      (hdr_recorded h);
  hdr_recorded_distinct : forall h, used_bounds (hdr_bounds h) ->
    NoDup ((fun p => lowest_equivalent (hdr_sigfig (hdr_bounds h)) p.1) <$> hdr_recorded h);
  hdr_recorded_complete : forall h v, used_bounds (hdr_bounds h) -> in_bounds (hdr_bounds h) v ->
    hdr_count_at h v <> 0 -> exists p, p ∈ hdr_recorded h /\ equivalent (hdr_bounds h) p.1 v;
  hdr_record_n_fits : forall v n h, used_bounds (hdr_bounds h) ->
    fits (hdr_bounds h) v -> is_u64 n ->
    exists h', hdr_record_n v n h = Some h' /\ hdr_bounds h' = hdr_bounds h /\
      (forall w, in_bounds (hdr_bounds h) w -> hdr_count_at h' w =
         if decide (equivalent (hdr_bounds h) v w)
         then u64_saturating_add (hdr_count_at h w) n else hdr_count_at h w);
}.

(** Counts are small enough for [n] more recordings. *)
Definition has_room {H} `{Hdr H} (h : H) (n : Z) : Prop :=
  forall v, in_bounds (hdr_bounds h) v -> hdr_count_at h v + n <= u64_max.

Section Consequences.
Context {H : Type} `{HdrLaws H}.
#[local] Existing Instance hdr_equiv.

#[export] Instance hdr_equiv_equivalence : Equivalence (≡@{H}).
Proof.
  split.
  - intros h. split; [done|]. auto.
  - intros h1 h2 [Hb Hc]. split; [done|]. intros v Hv. symmetry. apply Hc. by rewrite Hb.
  - intros h1 h2 h3 [Hb Hc] [Hb' Hc']. split; [congruence|].
    intros v Hv. rewrite Hc by done. apply Hc'. congruence.
Qed.

Lemma hdr_record_n'_spec v n h :
  used_bounds (hdr_bounds h) -> in_bounds (hdr_bounds h) v -> is_u64 n ->
  hdr_bounds (hdr_record_n' v n h) = hdr_bounds h /\
  forall w, in_bounds (hdr_bounds h) w -> hdr_count_at (hdr_record_n' v n h) w =
    if decide (equivalent (hdr_bounds h) v w)
    then u64_saturating_add (hdr_count_at h w) n else hdr_count_at h w.
Proof.
  intros Hb Hv Hn. unfold hdr_record_n'.
  destruct (hdr_record_n_spec v n h Hb Hv Hn) as (h' & -> & Hb' & Hc). done.
Qed.

Lemma hdr_add'_spec h1 h2 :
  used_bounds (hdr_bounds h1) -> hdr_bounds h2 = hdr_bounds h1 ->
  hdr_bounds (hdr_add' h1 h2) = hdr_bounds h1 /\
  forall v, in_bounds (hdr_bounds h1) v ->
    hdr_count_at (hdr_add' h1 h2) v = u64_saturating_add (hdr_count_at h1 v) (hdr_count_at h2 v).
Proof.
  intros Hb Hb2. unfold hdr_add'.
  destruct (hdr_add_spec h1 h2 Hb Hb2) as (h' & -> & Hb' & Hc). done.
Qed.

End Consequences.

(** Recording a list of values: every class gets as many as it has in the
    list, up to saturation. *)
Definition hdr_record_all {H} `{Hdr H} (l : list Z) (h : H) : H :=
  fold_left (fun h v => hdr_record' v h) l h.
Definition class_count (b : HdrBounds) (w : Z) (l : list Z) : Z :=
  Z.of_nat (length (filter (fun v => equivalent b v w) l)).

Lemma class_count_app b w l1 l2 : class_count b w (l1 ++ l2) = class_count b w l1 + class_count b w l2.
Proof. unfold class_count. rewrite filter_app, length_app. lia. Qed.

#[export] Instance class_count_perm b w : Proper ((≡ₚ) ==> (=)) (class_count b w).
Proof. intros l1 l2 Hp. unfold class_count. by rewrite Hp. Qed.

Lemma class_count_cons b w v l :
  class_count b w (v :: l) = (if decide (equivalent b v w) then 1 else 0) + class_count b w l.
Proof. unfold class_count. rewrite filter_cons. case_decide; cbn [length]; lia. Qed.

Lemma class_count_nonneg b w l : 0 <= class_count b w l.
Proof. unfold class_count. lia. Qed.

Lemma u64_saturating_add_assoc a b c :
  0 <= a -> 0 <= b -> 0 <= c ->
  u64_saturating_add (u64_saturating_add a b) c = u64_saturating_add a (b + c).
Proof. unfold u64_saturating_add. lia. Qed.

Section RecordAll.
Context {H : Type} `{HdrLaws H}.
#[local] Existing Instance hdr_equiv.

Lemma hdr_record_all_spec l h :
  used_bounds (hdr_bounds h) -> Forall (in_bounds (hdr_bounds h)) l ->
  hdr_bounds (hdr_record_all l h) = hdr_bounds h /\
  forall w, in_bounds (hdr_bounds h) w -> hdr_count_at (hdr_record_all l h) w =
    u64_saturating_add (hdr_count_at h w) (class_count (hdr_bounds h) w l).
Proof.
  revert h. induction l as [|v l IH]; intros h Hb Hl.
  { split; [done|]. intros w _. pose proof (hdr_count_at_u64 h w).
    unfold class_count, u64_saturating_add, u64_max. cbn. ulia. }
  apply Forall_cons in Hl as [Hv Hl].
  destruct (hdr_record_n'_spec v 1 h Hb Hv) as [Hb1 Hc1]; [ulia|].
  fold (hdr_record' v h) in Hb1, Hc1. cbn [hdr_record_all fold_left].
  destruct (IH (hdr_record' v h)) as [Hb2 Hc2]; [by rewrite Hb1|by rewrite Hb1|].
  rewrite Hb1 in *. split; [done|]. intros w Hw.
  fold (hdr_record_all l (hdr_record' v h)). rewrite Hc2, Hc1, class_count_cons by done.
  pose proof (hdr_count_at_u64 h w). pose proof (class_count_nonneg (hdr_bounds h) w l).
  case_decide; [rewrite u64_saturating_add_assoc by ulia|]; f_equal; lia.
Qed.

(** Recording in another order gives the same histogram. *)
Lemma hdr_record_all_perm l l' h :
  used_bounds (hdr_bounds h) -> Forall (in_bounds (hdr_bounds h)) l -> l ≡ₚ l' ->
  hdr_record_all l h ≡ hdr_record_all l' h.
Proof.
  intros Hb Hl Hp.
  destruct (hdr_record_all_spec l h Hb Hl) as [Hb1 Hc1].
  destruct (hdr_record_all_spec l' h Hb) as [Hb2 Hc2]; [by rewrite <- Hp|].
  split; [congruence|]. rewrite Hb1. intros w Hw. by rewrite Hc1, Hc2, Hp.
Qed.

End RecordAll.

(** ** An executable instance: counts per class of equivalent values *)

Record ClassHistogram := mkClassHistogram {
  ch_bounds : HdrBounds;
  ch_counts : gmap Z Z;
}.

(** [v] is in a class of the histogram. *)
Definition ch_fits (b : HdrBounds) (v : Z) : bool :=
  let k := lowest_equivalent (hdr_sigfig b) v in (hdr_low b <=? k) && (k <=? hdr_high b).
Definition ch_class (h : ClassHistogram) (v : Z) : Z :=
  lowest_equivalent (hdr_sigfig (ch_bounds h)) v.
Definition ch_count (h : ClassHistogram) (v : Z) : Z :=
  wrap 64 (default 0 (ch_counts h !! ch_class h v)).
Definition ch_record_n (v n : Z) (h : ClassHistogram) : option ClassHistogram :=
  if ch_fits (ch_bounds h) v
  then Some (mkClassHistogram (ch_bounds h)
         (<[ch_class h v := u64_saturating_add (ch_count h v) n]> (ch_counts h)))
  else None.
Definition ch_list (h : ClassHistogram) : list (Z * Z) :=
  let recorded k := ch_fits (ch_bounds h) k && (ch_class h k =? k) && (0 <? ch_count h k) in
  let keys := filter (fun k => recorded k = true) (merge_sort (≤) (map_to_list (ch_counts h)).*1) in
  (fun k => (k, ch_count h k)) <$> keys.
Definition ch_len (h : ClassHistogram) : Z := sum_Z (ch_list h).*2.
Definition ch_add (h1 h2 : ClassHistogram) : option ClassHistogram :=
  Some (mkClassHistogram (ch_bounds h1)
    (merge (fun a b => Some (u64_saturating_add (wrap 64 (default 0 a)) (wrap 64 (default 0 b))))
       (ch_counts h1) (ch_counts h2))).
Fixpoint ch_at_rank (l : list (Z * Z)) (rank : Z) : Z :=
  match l with
  | [] => 0
  | [(v, _)] => v
  | (v, n) :: l' => if rank <=? n then v else ch_at_rank l' (rank - n)
  end.
Definition ch_mean (h : ClassHistogram) : f64 :=
  f64_lit (sum_Z ((fun p => p.1 * p.2) <$> ch_list h)) (Z.max 1 (ch_len h)).
Definition ch_quantile (h : ClassHistogram) (q : f64) : Z :=
  ch_at_rank (ch_list h) (Z.max 1 (f64_round_as_u64 (f64_mul q (f64_of_Z (ch_len h))))).

#[export] Instance ClassHistogram_Hdr : Hdr ClassHistogram := {|
  hdr_new b := Some (mkClassHistogram b ∅);
  hdr_bounds := ch_bounds;
  hdr_record_n := ch_record_n;
  hdr_add := ch_add;
  hdr_count_at := ch_count;
  hdr_len := ch_len;
  hdr_min h := default 0 (head (ch_list h).*1);
  hdr_max h := default 0 (last (ch_list h).*1);
  hdr_mean := ch_mean;
  hdr_stdev _ := f64_zero;
  hdr_value_at_quantile := ch_quantile;
  hdr_count_between h lo hi :=
    sum_Z ((fun p => if (lo <=? p.1) && (p.1 <=? hi) then p.2 else 0) <$> ch_list h);
  hdr_recorded := ch_list;
|}.

(** The lowest value of a class is in it. *)
Lemma half_magnitude_used sigfig : sigfig = 2 \/ sigfig = 3 -> 0 < half_magnitude sigfig.
Proof. by intros [->| ->]. Qed.

Lemma lowest_equivalent_bounds sigfig v : 0 < half_magnitude sigfig -> 1 <= v -> 1 <= lowest_equivalent sigfig v <= v.
Proof.
  intros Hh Hv. unfold lowest_equivalent. cbv zeta. set (b := Z.max 0 _).
  assert (0 <= b) as Hb by lia. assert (2 ^ b <= v) as Hle.
  { destruct (Z.eq_dec b 0) as [->|Hb0]; [change (2 ^ 0) with 1; lia|]. etransitivity; [|apply Z.log2_spec; lia].
    apply Z.pow_le_mono_r; lia. }
  pose proof (Z.pow_pos_nonneg 2 b ltac:(lia) Hb) as Hp.
  pose proof (Z.div_mod v (2 ^ b) ltac:(lia)). pose proof (Z.mod_pos_bound v (2 ^ b) Hp).
  assert (1 <= v / 2 ^ b) by (apply Z.div_le_lower_bound; lia). nia.
Qed.

Lemma lowest_equivalent_idem sigfig v : 0 < half_magnitude sigfig -> 1 <= v ->
  lowest_equivalent sigfig (lowest_equivalent sigfig v) = lowest_equivalent sigfig v.
Proof.
  intros Hh Hv. pose proof (lowest_equivalent_bounds sigfig v Hh Hv) as Hb.
  assert (Z.log2 (lowest_equivalent sigfig v) = Z.log2 v) as Hlog.
  { unfold lowest_equivalent in *. cbv zeta in *. set (b := Z.max 0 _) in *.
    destruct (Z.eq_dec b 0) as [->|Hb0]; [change (2 ^ 0) with 1; by rewrite Z.div_1_r, Z.mul_1_r|].
    apply Z.le_antisymm; [apply Z.log2_le_mono; lia|]. pose proof (Z.log2_nonneg v).
    apply Z.log2_le_pow2; [lia|].
    assert (2 ^ Z.log2 v = 2 ^ (Z.log2 v - b) * 2 ^ b) as Heq by (rewrite <- Z.pow_add_r; [f_equal; lia|lia|lia]).
    rewrite Heq. apply Z.mul_le_mono_nonneg_r; [apply Z.pow_nonneg; lia|].
    apply Z.div_le_lower_bound; [apply Z.pow_pos_nonneg; lia|]. rewrite Z.mul_comm, <- Heq. apply Z.log2_spec. lia. }
  unfold lowest_equivalent at 1. cbv zeta. rewrite Hlog. unfold lowest_equivalent. cbv zeta.
  rewrite Z.div_mul; [done|]. apply Z.pow_nonzero; lia.
Qed.

Lemma ch_fits_spec b v : used_bounds b -> fits b v -> ch_fits b v = true.
Proof.
  intros (Hl & Hh & Hs) (w & [H1 H2] & He). unfold ch_fits. cbv zeta. rewrite He.
  pose proof (lowest_equivalent_bounds (hdr_sigfig b) w (half_magnitude_used _ Hs) ltac:(lia)). lia.
Qed.

Lemma in_bounds_fits b v : in_bounds b v -> fits b v.
Proof. intros Hv. by exists v. Qed.

Lemma ch_fits_fits b v : used_bounds b -> 1 <= v -> ch_fits b v = true -> fits b v.
Proof.
  intros (Hl & Hh & Hs) Hv Hf. unfold ch_fits in Hf. exists (lowest_equivalent (hdr_sigfig b) v). split; [split; lia|].
  unfold equivalent. symmetry. apply lowest_equivalent_idem; [by apply half_magnitude_used|lia].
Qed.

Lemma ch_record_n_spec v n h : used_bounds (ch_bounds h) -> fits (ch_bounds h) v -> is_u64 n ->
  exists h', ch_record_n v n h = Some h' /\ ch_bounds h' = ch_bounds h /\
    (forall w, in_bounds (ch_bounds h) w -> ch_count h' w =
       if decide (equivalent (ch_bounds h) v w)
       then u64_saturating_add (ch_count h w) n else ch_count h w).
Proof.
  intros Hb Hv Hn. unfold ch_record_n. rewrite ch_fits_spec by done.
  eexists. split_and!; [done|done|]. intros w _. unfold ch_count, ch_class, equivalent. simpl.
  case_decide as He.
  - rewrite He, lookup_insert_eq. simpl. apply wrap_id. unfold u64_saturating_add, u64_max, is_uint.
    pose proof (u64_range (default 0 (ch_counts h !! lowest_equivalent (hdr_sigfig (ch_bounds h)) w))).
    ulia.
  - by rewrite lookup_insert_ne.
Qed.

#[export] Instance ClassHistogram_laws : HdrLaws ClassHistogram.
Proof.
  split; simpl.
  - intros b _. eexists. split_and!; [done|done|]. intros v _. unfold ch_count. simpl.
    by rewrite lookup_empty.
  - intros v n h Hb Hv Hn. by apply ch_record_n_spec, Hn; [|apply in_bounds_fits].
  - intros h1 h2 _ Hb. eexists. split_and!; [done|done|]. intros v _. unfold ch_count, ch_class.
    rewrite Hb. simpl. rewrite lookup_merge.
    set (k := lowest_equivalent _ v).
    assert (forall x y, wrap 64 (u64_saturating_add (wrap 64 x) (wrap 64 y)) =
      u64_saturating_add (wrap 64 x) (wrap 64 y)) as Hw.
    { intros x y. apply wrap_id. pose proof (u64_range x). pose proof (u64_range y).
      unfold u64_saturating_add, u64_max. ulia. }
    destruct (ch_counts h1 !! k), (ch_counts h2 !! k); simpl; first [apply Hw | done].
  - intros h v. apply u64_range.
Qed.

Lemma ch_recorded_elem h p : p ∈ ch_list h <->
  p.2 = ch_count h p.1 /\ is_Some (ch_counts h !! p.1) /\ ch_fits (ch_bounds h) p.1 = true /\ ch_class h p.1 = p.1 /\
  0 < ch_count h p.1.
Proof.
  unfold ch_list. rewrite list_elem_of_fmap. setoid_rewrite list_elem_of_filter. split.
  - intros (k & -> & Hr & Hk). cbn. rewrite merge_sort_Permutation, list_elem_of_fmap in Hk.
    destruct Hk as ([k' n] & -> & Hk%elem_of_map_to_list). cbn in *.
    apply andb_prop in Hr as [[Hf Hc]%andb_prop Hn]. split_and!; [done|by eexists|done|lia|lia].
  - destruct p as [k n]. cbn. intros (-> & [m Hm] & Hf & Hc & Hn). exists k. split; [done|]. split.
    { rewrite Hf, Hc, Z.eqb_refl, (proj2 (Z.ltb_lt _ _) Hn). done. }
    rewrite merge_sort_Permutation. apply list_elem_of_fmap. exists (k, m). split; [done|]. by apply elem_of_map_to_list.
Qed.

#[export] Instance ClassHistogram_iter_laws : HdrIterLaws ClassHistogram.
Proof.
  split; simpl.
  - intros h Hb. apply Forall_forall. intros p (Hp2 & _ & Hf & Hc & Hn)%ch_recorded_elem. split.
    + apply ch_fits_fits; [done| |done]. unfold ch_fits in Hf. fold (ch_class h p.1) in Hf. rewrite Hc in Hf.
      destruct Hb as (Hl & _). apply andb_prop in Hf as [Hf _]. lia.
    + intros v _ He. rewrite Hp2. unfold ch_count, ch_class. by rewrite He.
  - intros h Hb. unfold ch_list. rewrite <- list_fmap_compose.
    set (keys := filter _ _). assert (NoDup keys) as Hnd.
    { apply NoDup_filter. rewrite merge_sort_Permutation. apply NoDup_fst_map_to_list. }
    assert (Forall (fun k => ch_class h k = k) keys) as Hk.
    { apply Forall_forall. intros k [[[_ Hc]%andb_prop _]%andb_prop _]%list_elem_of_filter. lia. }
    clearbody keys. replace (_ <$> keys) with keys; [done|]. clear Hnd.
    induction Hk as [|k keys Hk _ IH]; [done|]. cbn. f_equal; [symmetry; apply Hk|exact IH].
  - intros h v Hb Hv Hn. destruct Hb as (Hl & Hh & Hs). destruct Hv as [H1 H2].
    pose proof (lowest_equivalent_bounds (hdr_sigfig (ch_bounds h)) v (half_magnitude_used _ Hs) ltac:(lia)) as Hlow.
    pose proof (lowest_equivalent_idem (hdr_sigfig (ch_bounds h)) v (half_magnitude_used _ Hs) ltac:(lia)) as Hid.
    set (k := lowest_equivalent (hdr_sigfig (ch_bounds h)) v) in *.
    assert (ch_count h k = ch_count h v) as Hcnt by (unfold ch_count, ch_class; by rewrite Hid).
    exists (k, ch_count h k). split; [|exact Hid]. apply ch_recorded_elem. cbn. split_and!; [done| | |exact Hid|].
    + unfold ch_count, ch_class in Hn. fold k in Hn. destruct (ch_counts h !! k); [by eexists|done].
    + unfold ch_fits. rewrite Hid. lia.
    + pose proof (u64_range (default 0 (ch_counts h !! ch_class h k))). unfold ch_count in Hcnt, Hn |- *. ulia.
  - intros v n h Hb Hv Hn. by apply ch_record_n_spec.
Qed.
