(* ===== verification/Base64.v ===== *)
(** * Base64 (src/src/base64.rs)

    Padded standard base64 and unpadded base64url.  A [&[u8]] and the bytes
    of a [String] are lists of [Z]; [chunks] is the slice iterator both
    directions use.  The round trip holds for every byte string, and the
    decoder's output always has the length its groups and padding give. *)

From Stdlib Require Import ZArith Lia Ascii String.
From stdpp Require Import base tactics strings numbers option list.
From S2P Require Import Prelude.

Local Open Scope Z_scope.

Section Alphabet.

Definition ALPHABET : list Z :=
  bytes_of_string "ABCDEFGHIJKLMNOPQRSTUVWXYZabcdefghijklmnopqrstuvwxyz0123456789+/".

Definition URL_ALPHABET : list Z :=
  bytes_of_string "ABCDEFGHIJKLMNOPQRSTUVWXYZabcdefghijklmnopqrstuvwxyz0123456789-_".

(** [b'=']. *)
Definition PAD : Z := 61.

(** [sextet]: a character's value in the standard alphabet. *)
Definition sextet (c : Z) : option Z :=
  if (65 <=? c) && (c <=? 90) then Some (c - 65)
  else if (97 <=? c) && (c <=? 122) then Some (c - 97 + 26)
  else if (48 <=? c) && (c <=? 57) then Some (c - 48 + 52)
  else if c =? 43 then Some 62
  else if c =? 47 then Some 63
  else None.

End Alphabet.

(** [slice.chunks(n)]: consecutive pieces of [n] elements, the last one
    possibly shorter.  The fuel is the slice's length. *)
Fixpoint chunks_go {A} (fuel n : nat) (l : list A) : list (list A) :=
  match fuel, l with
  | _, [] | O, _ => []
  | S fuel, _ => take n l :: chunks_go fuel n (drop n l)
  end.
Definition chunks {A} (n : nat) (l : list A) : list (list A) := chunks_go (length l) n l.

Section Encode.

(** One iteration of [encode_with]'s loop: the characters of a chunk. *)
Definition encode_chunk (alphabet : list Z) (pad : bool) (chunk : list Z) : list Z :=
  let b0 := default 0 (chunk !! 0%nat) in
  let b1 := default 0 (chunk !! 1%nat) in
  let b2 := default 0 (chunk !! 2%nat) in
  let n := Z.lor (Z.lor (Z.shiftl b0 16) (Z.shiftl b1 8)) b2 in
  let char_at shift := default 0 (alphabet !! Z.to_nat (Z.land (Z.shiftr n shift) 63)) in
  [char_at 18; char_at 12]
    ++ (if (1 <? length chunk)%nat then [char_at 6] else if pad then [PAD] else [])
    ++ (if (2 <? length chunk)%nat then [char_at 0] else if pad then [PAD] else []).

Definition encode_with (input alphabet : list Z) (pad : bool) : list Z :=
  concat (encode_chunk alphabet pad <$> chunks 3 input).

Definition base64_encode (input : list Z) : list Z := encode_with input ALPHABET true.
Definition encode_url (input : list Z) : list Z := encode_with input URL_ALPHABET false.

End Encode.

Section Decode.

(** The trailing [=] of a group: [group.iter().rev().take_while(..).count()]. *)
Fixpoint count_while {A} (p : A -> bool) (l : list A) : nat :=
  match l with
  | a :: l' => if p a then S (count_while p l') else O
  | [] => O
  end.
Definition padding_of (group : list Z) : nat := count_while (fun c => c =? PAD) (rev group).

(** [for &c in &group[..4 - padding] { n = (n << 6) | sextet(c)?; }] *)
Fixpoint sextets (n : Z) (cs : list Z) : option Z :=
  match cs with
  | [] => Some n
  | c :: cs' =>
      match sextet c with
      | Some v => sextets (Z.lor (as_u32 (Z.shiftl n 6)) v) cs'
      | None => None
      end
  end.

(** One group of four characters, [last] when it is the final one. *)
Definition decode_group (last : bool) (group : list Z) : option (list Z) :=
  let padding := padding_of group in
  if (2 <? padding)%nat || ((0 <? padding)%nat && negb last) then None
  else
    match sextets 0 (take (4 - padding) group) with
    | None => None
    | Some n0 =>
        let n := as_u32 (Z.shiftl n0 (6 * Z.of_nat padding)) in
        Some ([as_u8 (Z.shiftr n 16)]
                ++ (if (padding <? 2)%nat then [as_u8 (Z.shiftr n 8)] else [])
                ++ (if (padding <? 1)%nat then [as_u8 n] else []))
    end.

Fixpoint decode_groups (groups : list (list Z)) : option (list Z) :=
  match groups with
  | [] => Some []
  | group :: rest =>
      match decode_group (match rest with [] => true | _ => false end) group with
      | None => None
      | Some bytes =>
          match decode_groups rest with
          | None => None
          | Some out => Some (bytes ++ out)
          end
      end
  end.

Definition base64_decode (input : list Z) : option (list Z) :=
  if negb (Nat.eqb (length input mod 4) 0) then None
  else decode_groups (chunks 4 input).

End Decode.

(** ** Chunks *)

Lemma chunks_go_nil {A} fuel n : chunks_go fuel n ([] : list A) = [].
Proof. by destruct fuel. Qed.

Lemma chunks_go_fuel {A} fuel fuel' n (l : list A) :
  (0 < n)%nat -> (length l <= fuel)%nat -> (length l <= fuel')%nat ->
  chunks_go fuel n l = chunks_go fuel' n l.
Proof.
  intros Hn. revert fuel' l. induction fuel as [|fuel IH]; intros fuel' l H1 H2.
  - destruct l; [|simpl in *; lia]. by destruct fuel'.
  - destruct l as [|a l]; [by destruct fuel'|].
    destruct fuel' as [|fuel']; [simpl in *; lia|].
    simpl. f_equal. apply IH; rewrite length_drop; simpl in *; lia.
Qed.

(** A full chunk in front is the first chunk. *)
Lemma chunks_app {A} n (l1 l2 : list A) :
  (0 < n)%nat -> length l1 = n -> chunks n (l1 ++ l2) = l1 :: chunks n l2.
Proof.
  intros Hn Hl. unfold chunks. rewrite length_app, Hl.
  destruct l1 as [|a l1]; [simpl in *; lia|].
  destruct n as [|n]; [lia|]. simpl in Hl |- *. injection Hl as Hl.
  f_equal.
  - f_equal. rewrite <- Hl. apply take_app_length.
  - rewrite <- Hl, drop_app_length. apply chunks_go_fuel; simpl; lia.
Qed.

Lemma chunks_short {A} n (l : list A) :
  (0 < length l <= n)%nat -> chunks n l = [l].
Proof.
  intros Hl. unfold chunks. destruct l as [|a l]; [simpl in Hl; lia|].
  cbn [length chunks_go]. rewrite take_ge, drop_ge by lia. by rewrite chunks_go_nil.
Qed.

Lemma chunks_nonempty {A} n (l : list A) : l <> [] -> exists c cs, chunks n l = c :: cs.
Proof. destruct l as [|a l]; [done|]. intros _. unfold chunks. simpl. eauto. Qed.

(** Induction over a list taken three elements at a time. *)
Lemma list_ind3 {A} (P : list A -> Prop) :
  P [] -> (forall a, P [a]) -> (forall a b, P [a; b]) ->
  (forall a b c l, P l -> P (a :: b :: c :: l)) -> forall l, P l.
Proof.
  intros H0 H1 H2 H3 l. remember (length l) as k eqn:Hk.
  revert l Hk. induction k as [k IH] using lt_wf_ind. intros l ->.
  destruct l as [|a [|b [|c l]]]; auto. apply H3. eapply IH; [|done]. simpl. lia.
Qed.

(** ** The alphabet and its inverse *)

Definition char_of (v : Z) : Z := default 0 (ALPHABET !! Z.to_nat v).

Lemma char_of_spec v :
  0 <= v < 64 -> sextet (char_of v) = Some v /\ (char_of v =? PAD) = false.
Proof.
  assert (Forall (fun k => sextet (char_of (Z.of_nat k)) = Some (Z.of_nat k) /\
    (char_of (Z.of_nat k) =? PAD) = false) (seq 0 64)) as H.
  { apply (bool_decide_unpack _). vm_compute. done. }
  intros Hv. rewrite Forall_forall in H. destruct (H (Z.to_nat v)) as [H1 H2].
  - apply elem_of_seq. lia.
  - rewrite Z2Nat.id in H1, H2 by lia. done.
Qed.

Lemma sextet_range c v : sextet c = Some v -> 0 <= v < 64.
Proof.
  unfold sextet. intros H. repeat case_match; simplify_eq; bool_to_prop; lia.
Qed.

(** ** Arithmetic of one group *)

Lemma land_63 z : Z.land z 63 = z mod 64.
Proof. change 63 with (Z.ones 6). by rewrite Z.land_ones by lia. Qed.

Lemma pack24 a b c :
  is_u8 a -> is_u8 b -> is_u8 c ->
  Z.lor (Z.lor (Z.shiftl a 16) (Z.shiftl b 8)) c = a * 65536 + b * 256 + c.
Proof.
  unfold is_uint. intros Ha Hb Hc.
  replace (Z.lor (Z.shiftl a 16) (Z.shiftl b 8)) with (Z.shiftl (a * 256 + b) 8).
  - rewrite lor_add by lia. lia.
  - change 256 with (2 ^ 8). rewrite <- (lor_add b a 8) by lia.
    by rewrite Z.shiftl_lor, Z.shiftl_shiftl by lia.
Qed.

Lemma sextets_cons n v cs :
  0 <= n < 2 ^ 26 -> 0 <= v < 64 ->
  sextets n (char_of v :: cs) = sextets (n * 64 + v) cs.
Proof.
  intros Hn Hv. simpl. rewrite (proj1 (char_of_spec v Hv)). f_equal.
  rewrite wrap_id.
  - by rewrite lor_add by lia.
  - rewrite Z.shiftl_mul_pow2 by lia. ulia.
Qed.

(** Evaluates shifts and masks by constants, leaving [/] and [mod]. *)
Ltac eval_shifts :=
  unfold wrap; rewrite ?land_63;
  rewrite ?Z.shiftl_mul_pow2, ?Z.shiftr_div_pow2 by lia;
  repeat match goal with
  | |- context [2 ^ ?k] => let v := eval vm_compute in (2 ^ k) in change (2 ^ k) with v
  end.

Ltac solve_divmod := unfold is_uint in *; Z.to_euclidean_division_equations; lia.

(** The characters of a chunk, as sextets of its packed 24-bit value. *)
Lemma encode_chunk_spec l n :
  (0 < length l <= 3)%nat ->
  n = default 0 (l !! 0%nat) * 65536 + default 0 (l !! 1%nat) * 256 + default 0 (l !! 2%nat) ->
  Forall is_u8 l ->
  encode_chunk ALPHABET true l =
    [char_of (n / 2 ^ 18 mod 64); char_of (n / 2 ^ 12 mod 64);
     if (1 <? length l)%nat then char_of (n / 2 ^ 6 mod 64) else PAD;
     if (2 <? length l)%nat then char_of (n mod 64) else PAD].
Proof.
  intros Hl -> Hu8.
  assert (forall i, is_u8 (default 0 (l !! i))) as Hb.
  { intros i. destruct (l !! i) as [x|] eqn:E; simpl; [by eapply Forall_lookup_1|ulia]. }
  unfold encode_chunk. rewrite pack24 by auto. unfold char_of.
  rewrite !land_63, !Z.shiftr_div_pow2, Z.pow_0_r, Z.div_1_r by lia.
  by destruct (1 <? length l)%nat, (2 <? length l)%nat.
Qed.

(** A group of characters without padding decodes to three bytes. *)
Lemma decode_group_full last a b c d :
  0 <= a < 64 -> 0 <= b < 64 -> 0 <= c < 64 -> 0 <= d < 64 ->
  let n := ((a * 64 + b) * 64 + c) * 64 + d in
  decode_group last [char_of a; char_of b; char_of c; char_of d] =
    Some [n / 2 ^ 16 mod 256; n / 2 ^ 8 mod 256; n mod 256].
Proof.
  intros Ha Hb Hc Hd n. unfold decode_group, padding_of. simpl rev. simpl app.
  simpl count_while. rewrite (proj2 (char_of_spec d Hd)). simpl take.
  rewrite !sextets_cons by lia. simpl. fold n. do 2 f_equal.
  - subst n. eval_shifts. solve_divmod.
  - f_equal; [|f_equal]; subst n; eval_shifts; solve_divmod.
Qed.

Lemma decode_group_pad1 a b c :
  0 <= a < 64 -> 0 <= b < 64 -> 0 <= c < 64 ->
  let n := ((a * 64 + b) * 64 + c) * 64 in
  decode_group true [char_of a; char_of b; char_of c; PAD] =
    Some [n / 2 ^ 16 mod 256; n / 2 ^ 8 mod 256].
Proof.
  intros Ha Hb Hc n. unfold decode_group, padding_of. simpl rev. simpl app.
  simpl count_while. rewrite (proj2 (char_of_spec c Hc)). simpl take.
  rewrite !sextets_cons by lia. simpl. do 2 f_equal; [|f_equal];
    subst n; eval_shifts; solve_divmod.
Qed.

Lemma decode_group_pad2 a b :
  0 <= a < 64 -> 0 <= b < 64 ->
  let n := (a * 64 + b) * 4096 in
  decode_group true [char_of a; char_of b; PAD; PAD] = Some [n / 2 ^ 16 mod 256].
Proof.
  intros Ha Hb n. unfold decode_group, padding_of. simpl rev. simpl app.
  simpl count_while. rewrite (proj2 (char_of_spec b Hb)). simpl take.
  rewrite !sextets_cons by lia. simpl. do 2 f_equal. subst n. eval_shifts. solve_divmod.
Qed.

(** ** Round trip *)

(** Decoding the characters of a chunk of one to three bytes gives it back;
    a padded chunk has to be the last one. *)
Lemma decode_encode_chunk l last :
  (0 < length l <= 3)%nat -> ((length l < 3)%nat -> last = true) -> Forall is_u8 l ->
  decode_group last (encode_chunk ALPHABET true l) = Some l.
Proof.
  intros Hl Hlast Hu8. erewrite encode_chunk_spec by done.
  destruct l as [|x [|y [|z [|]]]]; simpl in Hl; try lia;
    repeat (apply Forall_cons in Hu8 as [? Hu8]); simpl.
  - rewrite Hlast by (simpl; lia). rewrite decode_group_pad2 by (apply Z.mod_pos_bound; lia).
    do 2 f_equal. eval_shifts. solve_divmod.
  - rewrite Hlast by (simpl; lia). rewrite decode_group_pad1 by (apply Z.mod_pos_bound; lia).
    f_equal. f_equal; [|f_equal]; eval_shifts; solve_divmod.
  - rewrite decode_group_full by (apply Z.mod_pos_bound; lia).
    f_equal. f_equal; [|f_equal; [|f_equal]]; eval_shifts; solve_divmod.
Qed.

Lemma length_encode_chunk l :
  (0 < length l <= 3)%nat -> length (encode_chunk ALPHABET true l) = 4%nat.
Proof.
  intros Hl. unfold encode_chunk. destruct l as [|x [|y [|z [|]]]]; simpl in *; lia.
Qed.

Lemma encode_with_step l1 l2 alphabet pad :
  length l1 = 3%nat ->
  encode_with (l1 ++ l2) alphabet pad = encode_chunk alphabet pad l1 ++ encode_with l2 alphabet pad.
Proof. intros H. unfold encode_with. by rewrite chunks_app by lia. Qed.

Lemma encode_with_last l alphabet pad :
  (0 < length l <= 3)%nat -> encode_with l alphabet pad = encode_chunk alphabet pad l.
Proof. intros H. unfold encode_with. rewrite chunks_short by done. apply app_nil_r. Qed.

Lemma decode_groups_encode bs :
  Forall is_u8 bs -> decode_groups (chunks 4 (base64_encode bs)) = Some bs.
Proof.
  unfold base64_encode. induction bs as [|a|a b|a b c bs IH] using list_ind3; intros Hu8; [done|..].
  1,2: rewrite encode_with_last by (simpl; lia);
    rewrite chunks_short by (rewrite length_encode_chunk; simpl; lia);
    cbn [decode_groups]; rewrite decode_encode_chunk by (simpl; auto; lia);
    by rewrite app_nil_r.
  change (a :: b :: c :: bs) with ([a; b; c] ++ bs) in *.
  apply Forall_app in Hu8 as [Habc Hbs].
  rewrite encode_with_step by done.
  rewrite chunks_app by (rewrite ?length_encode_chunk; simpl; lia).
  cbn [decode_groups]. rewrite decode_encode_chunk by (simpl; auto; lia).
  by rewrite IH.
Qed.

Lemma length_base64_encode_mod4 bs : (length (base64_encode bs) mod 4 = 0)%nat.
Proof.
  unfold base64_encode. induction bs as [|a|a b|a b c bs IH] using list_ind3; [done..|].
  change (a :: b :: c :: bs) with ([a; b; c] ++ bs).
  rewrite encode_with_step, length_app, length_encode_chunk by (simpl; lia).
  by rewrite Nat.add_comm, <- Nat.Div0.add_mod_idemp_r, Nat.add_0_r.
Qed.

(** ** What the decoder accepts *)

Lemma sextets_is_Some n cs :
  is_Some (sextets n cs) <-> Forall (fun c => is_Some (sextet c)) cs.
Proof.
  revert n. induction cs as [|c cs IH]; intros n; simpl.
  - split; [constructor|done].
  - rewrite Forall_cons, <- (IH (Z.lor (as_u32 (Z.shiftl n 6)) (default 0 (sextet c)))).
    destruct (sextet c); simpl; [naive_solver|]. split; [by intros []|by intros [[] _]].
Qed.

Lemma padding_of_snoc g c :
  padding_of (g ++ [c]) = if c =? PAD then S (padding_of g) else 0%nat.
Proof. unfold padding_of. by rewrite rev_unit. Qed.

(** A group is its characters followed by its trailing padding. *)
Lemma padding_of_split g :
  exists body, g = body ++ replicate (padding_of g) PAD.
Proof.
  induction g as [|c g [body IH]] using rev_ind; [by exists []|].
  rewrite padding_of_snoc. destruct (Z.eqb_spec c PAD) as [->|Hc].
  - exists body. by rewrite IH at 1; rewrite replicate_S_end, app_assoc.
  - exists (g ++ [c]). by rewrite app_nil_r.
Qed.

Lemma padding_of_body body p :
  Forall (fun c => is_Some (sextet c)) body -> padding_of (body ++ replicate p PAD) = p.
Proof.
  intros Hb. induction p as [|p IH].
  - rewrite app_nil_r. induction body as [|c body _] using rev_ind; [done|].
    rewrite padding_of_snoc. apply Forall_app in Hb as [_ [[v Hv] _]%Forall_cons].
    destruct (Z.eqb_spec c PAD) as [->|]; [|done]. by vm_compute in Hv.
  - by rewrite replicate_S_end, app_assoc, padding_of_snoc, IH.
Qed.

(** [ok_input s p]: alphabet characters and then [p <= 2] padding characters. *)
Definition ok_input (s : list Z) (p : nat) : Prop :=
  exists body, s = body ++ replicate p PAD /\ (p <= 2)%nat /\
    Forall (fun c => is_Some (sextet c)) body.

Lemma decode_group_is_Some last g bs :
  length g = 4%nat -> decode_group last g = Some bs ->
  exists p, ok_input g p /\ ((0 < p)%nat -> last = true) /\ (length bs + p = 3)%nat
    /\ Forall is_u8 bs.
Proof.
  intros Hg. unfold decode_group. destruct (padding_of_split g) as [body Hbody].
  set (p := padding_of g) in *. intros H.
  destruct ((2 <? p)%nat || _) eqn:Hp; [done|].
  apply orb_false_elim in Hp as [Hp2 Hp0]. apply Nat.ltb_ge in Hp2.
  destruct (sextets _ _) as [n|] eqn:Hs; [|done]. injection H as <-.
  exists p. split_and!.
  - exists body. split_and!; [done|done|].
    rewrite Hbody in Hg. rewrite length_app, length_replicate in Hg.
    apply (sextets_is_Some 0).
    rewrite Hbody, take_app_length' in Hs by lia. by eexists.
  - intros H0. apply andb_false_elim in Hp0 as [Hp0|Hp0].
    + apply Nat.ltb_ge in Hp0. lia. + by apply negb_false_iff in Hp0.
  - destruct p as [|[|[|]]]; simpl; lia.
  - repeat case_match; simpl; repeat constructor; by apply wrap_range.
Qed.

Lemma decode_group_ok last body p :
  (length body + p = 4)%nat -> (p <= 2)%nat -> ((0 < p)%nat -> last = true) ->
  Forall (fun c => is_Some (sextet c)) body ->
  is_Some (decode_group last (body ++ replicate p PAD)).
Proof.
  intros Hl Hp Hlast Hb. unfold decode_group. rewrite padding_of_body by done.
  replace ((2 <? p)%nat || ((0 <? p)%nat && negb last)) with false.
  - rewrite take_app_length' by lia.
    apply (sextets_is_Some 0) in Hb as [v ->]. by eexists.
  - symmetry. apply orb_false_intro; [by apply Nat.ltb_ge|].
    destruct p; [done|]. rewrite Hlast by lia. apply andb_false_r.
Qed.

(** Splits off the first group of four. *)
Lemma take4_app {A} (s : list A) n :
  length s = (4 * S n)%nat -> exists g r, s = g ++ r /\ length g = 4%nat /\ length r = (4 * n)%nat.
Proof.
  intros H. exists (take 4 s), (drop 4 s).
  rewrite take_drop, length_take, length_drop. split_and!; [done|lia|lia].
Qed.

Lemma decode_groups_Some n s bs :
  length s = (4 * n)%nat -> decode_groups (chunks 4 s) = Some bs ->
  exists p, ok_input s p /\ (length bs + p = 3 * n)%nat /\ Forall is_u8 bs.
Proof.
  revert s bs. induction n as [|n IH]; intros s bs Hs H.
  - apply nil_length_inv in Hs as ->. injection H as <-. exists 0%nat.
    split_and!; [|done|constructor]. exists []. split_and!; [done|lia|constructor].
  - apply take4_app in Hs as (g & r & -> & Hg & Hr).
    rewrite chunks_app in H by (done || lia). cbn [decode_groups] in H.
    destruct (decode_group _ g) as [b1|] eqn:Hd; [|done].
    destruct (decode_groups (chunks 4 r)) as [b2|] eqn:Hd2; [|done]. injection H as <-.
    apply decode_group_is_Some in Hd as (p1 & (body1 & -> & Hp1 & Hb1) & Hlast & Hl1 & Hu1); [|done].
    destruct (IH _ _ Hr Hd2) as (p2 & (body2 & Hbody2 & Hp2 & Hb2) & Hl2 & Hu2).
    destruct p1 as [|p1].
    + exists p2. split_and!.
      * exists (body1 ++ body2). rewrite app_nil_r, Hbody2, app_assoc.
        split_and!; [done|done|]. by apply Forall_app_2.
      * rewrite length_app. lia.
      * by apply Forall_app_2.
    + specialize (Hlast ltac:(lia)). destruct r as [|x r].
      * injection Hd2 as <-. exists (S p1). rewrite !app_nil_r. simpl in Hr.
        split_and!; [by exists body1|lia|done].
      * exfalso. by destruct (chunks_nonempty 4 (x :: r)) as (c & cs & Hc); [|rewrite Hc in Hlast].
Qed.

Lemma decode_groups_is_Some n body p :
  (length body + p = 4 * n)%nat -> (p <= 2)%nat ->
  Forall (fun c => is_Some (sextet c)) body ->
  is_Some (decode_groups (chunks 4 (body ++ replicate p PAD))).
Proof.
  revert body. induction n as [|n IH]; intros body Hl Hp Hb.
  - replace p with 0%nat by lia. rewrite app_nil_r.
    assert (body = []) as -> by (apply nil_length_inv; lia). by eexists.
  - destruct (decide (length body <= 4)%nat).
    + rewrite chunks_short by (rewrite length_app, length_replicate; lia). cbn [decode_groups].
      destruct (decode_group_ok true body p) as [b ->]; [lia|done|done|done|]. by eexists.
    + rewrite <- (take_drop 4 body) in Hl, Hb |- *.
      apply Forall_app in Hb as [Hb1 Hb2].
      rewrite length_app, length_take in Hl.
      rewrite <- app_assoc, chunks_app by (rewrite ?length_take; lia). cbn [decode_groups].
      destruct (decode_group_ok (match chunks 4 (drop 4 body ++ replicate p PAD) with
        [] => true | _ => false end) (take 4 body) 0) as [b Hd];
        [rewrite length_take; lia|lia|lia|done|].
      simpl in Hd. rewrite app_nil_r in Hd. rewrite Hd.
      destruct (IH (drop 4 body)) as [b2 ->]; [lia|done|done|]. by eexists.
Qed.

Lemma base64_encode_range bs : Forall is_u8 (base64_encode bs).
Proof.
  unfold base64_encode, encode_with. apply Forall_concat, Forall_fmap, Forall_forall. intros chunk _. cbn [compose].
  assert (forall i, is_u8 (default 0 (ALPHABET !! i))) as Hc.
  { intros i. destruct (ALPHABET !! i) as [x|] eqn:E; [|cbn; ulia]. by apply (Forall_lookup_1 _ _ _ _ (bytes_of_string_range _) E). }
  assert (is_u8 PAD) as Hpad by (unfold PAD; ulia).
  unfold encode_chunk. destruct (1 <? length chunk)%nat, (2 <? length chunk)%nat; cbn [app]; by repeat first [apply Forall_nil_2 | apply Forall_cons_2].
Qed.

Lemma base64_round_trip bs :
  Forall is_u8 bs -> base64_decode (base64_encode bs) = Some bs.
Proof.
  intros H. unfold base64_decode. rewrite length_base64_encode_mod4. simpl.
  by apply decode_groups_encode.
Qed.

(** ** Properties *)

(** Round trip: [decode] inverts [encode] on every byte string. *)
Theorem decode_encode bs : Forall is_u8 bs -> base64_decode (base64_encode bs) = Some bs.
Proof. apply base64_round_trip. Qed.

Lemma decode_encode_witness :
  Forall is_u8 [0; 255; 254; 128] /\
  base64_decode (bytes_of_string "AP/+gA==") = Some [0; 255; 254; 128].
Proof.
  assert (Forall is_u8 [0; 255; 254; 128]) as H by (apply (bool_decide_unpack _); vm_compute; exact I).
  split; [exact H|]. exact (decode_encode [0; 255; 254; 128] H).
Defined.

(** The decoder accepts exactly the inputs of whole groups whose
    characters are in the alphabet apart from at most two trailing [=]; it
    then returns bytes, three for each group less one per padding
    character. *)
Theorem decode_accepts s :
  (is_Some (base64_decode s) <->
     (length s mod 4 = 0)%nat /\ exists p, ok_input s p) /\
  (forall bs, base64_decode s = Some bs ->
     Forall is_u8 bs /\
     exists p, ok_input s p /\ (length bs + p = 3 * (length s / 4))%nat).
Proof.
  assert (forall bs, base64_decode s = Some bs -> Forall is_u8 bs /\
     (length s mod 4 = 0)%nat /\
     exists p, ok_input s p /\ (length bs + p = 3 * (length s / 4))%nat) as Hsome.
  { intros bs. unfold base64_decode.
    destruct (Nat.eqb_spec (length s mod 4) 0) as [Hm|]; [simpl|done]. intros Hd.
    eapply (decode_groups_Some (length s / 4)) in Hd as (p & Hok & Hl & Hu).
    - split_and!; [done|done|]. by exists p.
    - rewrite (Nat.div_mod_eq (length s) 4) at 1. lia. }
  split; [split|].
  - intros [bs Hbs]. destruct (Hsome bs Hbs) as (_ & Hm & p & Hok & _). eauto.
  - intros [Hm (p & body & -> & Hp & Hb)]. unfold base64_decode. rewrite Hm. simpl.
    rewrite length_app, length_replicate in Hm.
    eapply (decode_groups_is_Some ((length body + p) / 4)); [|done|done].
    rewrite (Nat.div_mod_eq (length body + p) 4) at 1. lia.
  - intros bs Hbs. destruct (Hsome bs Hbs) as (Hu & _ & Hp). eauto.
Qed.

(** Decoding is not injective: an input with other low bits in its last
    character decodes to the same bytes although [encode] never writes it. *)
Theorem decode_accepts_noncanonical :
  base64_decode (bytes_of_string "Zh==") = base64_decode (bytes_of_string "Zg==") /\
  base64_decode (bytes_of_string "Zh==") = Some [102] /\
  forall bs, Forall is_u8 bs -> base64_encode bs <> bytes_of_string "Zh==".
Proof.
  split_and!; [vm_compute; done..|]. intros bs Hbs He.
  pose proof (base64_round_trip bs Hbs) as Hd. rewrite He in Hd.
  assert (bs = [102]) as ->; [by vm_compute in Hd; simplify_eq|]. by vm_compute in He.
Qed.
