(* ===== verification/Histogram.v ===== *)
(** * Shared latency recording (src/src/histogram.rs)

    Every worker of a run records into one [LatencyRecorder]: three sharded
    histograms of atomic counts, plus a pair per named action.  The index of
    a value's count is computed with shifts; at the end of the run the counts
    are moved into [hdrhistogram] histograms.  The main theorem is that this
    gives the histogram direct recording would have given, whatever shards
    the samples went through and in whatever order. *)

From Stdlib Require Import ZArith Lia.
From stdpp Require Import base tactics strings option numbers gmap list.
From S2P Require Import Prelude RustStd Hdr.

Local Open Scope Z_scope.

(** ** Layout *)

Definition LOWEST_US : Z := 1.
Definition HIGHEST_US : Z := 60000000.
Definition SIGFIG : Z := 3.
Definition SUB_BUCKET_COUNT_MAGNITUDE : Z := 11.
Definition SUB_BUCKET_HALF_COUNT_MAGNITUDE : Z := SUB_BUCKET_COUNT_MAGNITUDE - 1.
Definition SUB_BUCKET_HALF_COUNT : Z := Z.shiftl 1 SUB_BUCKET_HALF_COUNT_MAGNITUDE.
Definition SUB_BUCKET_MASK : Z := Z.shiftl 1 SUB_BUCKET_COUNT_MAGNITUDE - 1.
Definition LEADING_ZERO_COUNT_BASE : Z := 64 - SUB_BUCKET_COUNT_MAGNITUDE.
Definition BUCKET_COUNT : Z := 16.
Definition LEN : Z := Z.shiftl (BUCKET_COUNT + 1) SUB_BUCKET_HALF_COUNT_MAGNITUDE.

(** [u64::leading_zeros]. *)
Definition leading_zeros (z : Z) : Z := if z =? 0 then 64 else 63 - Z.log2 z.

Definition index_of (value : Z) : Z :=
  let bucket := LEADING_ZERO_COUNT_BASE - leading_zeros (Z.lor value SUB_BUCKET_MASK) in
  let sub_bucket := Z.shiftr value bucket in
  Z.shiftl (bucket + 1) SUB_BUCKET_HALF_COUNT_MAGNITUDE + sub_bucket - SUB_BUCKET_HALF_COUNT.

Definition value_at (index : Z) : Z :=
  let bucket := u64_saturating_sub (Z.shiftr index SUB_BUCKET_HALF_COUNT_MAGNITUDE) 1 in
  let sub_bucket := Z.land index (SUB_BUCKET_HALF_COUNT - 1) + SUB_BUCKET_HALF_COUNT in
  let sub_bucket :=
    if Z.shiftr index SUB_BUCKET_HALF_COUNT_MAGNITUDE =? 0
    then sub_bucket - SUB_BUCKET_HALF_COUNT else sub_bucket in
  u64_shl sub_bucket bucket.

Definition latency_bounds : HdrBounds := mkBounds LOWEST_US HIGHEST_US SIGFIG.
Definition latency_histogram {H} `{Hdr H} : option H := hdr_new latency_bounds.

(** ** Atomic histograms *)

(** A shard's counts, allocated when it records its first value. *)
Record AtomicHistogram := mkAtomicHistogram { shards : list (option (list Z)) }.

Definition AtomicHistogram_new (n : nat) : AtomicHistogram :=
  mkAtomicHistogram (replicate (Nat.max n 1) None).

(** A shard's initial counts. *)
Definition empty_shard : list Z := replicate (Z.to_nat LEN) 0.
Arguments empty_shard : simpl never.

(** One [record] call is one atomic increment, so concurrent workers are a
    sequence of these. *)
Definition AtomicHistogram_record (shard : nat) (micros : Z) (h : AtomicHistogram)
  : AtomicHistogram :=
  let i := (shard mod length (shards h))%nat in
  let index := Z.to_nat (index_of (clamp LOWEST_US HIGHEST_US micros)) in
  mkAtomicHistogram
    (alter (fun s => Some (alter (fun c => u64_add c 1) index (default empty_shard s))) i (shards h)).

(** The inner loop of [add_to]: the counts of one shard from [index] on. *)
Fixpoint add_counts_to {H} `{Hdr H} (index : Z) (counts : list Z) (hist : H) : H :=
  match counts with
  | [] => hist
  | count :: counts' =>
      add_counts_to (index + 1) counts'
        (if 0 <? count then hdr_record_n' (value_at index) count hist else hist)
  end.
Definition AtomicHistogram_add_to {H} `{Hdr H} (h : AtomicHistogram) (hist : H) : H :=
  fold_left (fun hist counts => add_counts_to 0 counts hist) (omap id (shards h)) hist.

(** ** The recorder of one run *)

Record ActionLatency := mkActionLatency {
  al_name : string;
  al_rtt : AtomicHistogram;
  al_response : AtomicHistogram;
}.

Record LatencyRecorder := mkLatencyRecorder {
  lr_handshake : AtomicHistogram;
  lr_rtt : AtomicHistogram;
  lr_response : AtomicHistogram;
  lr_actions : list ActionLatency;
}.

Definition with_shards (n : nat) : LatencyRecorder :=
  mkLatencyRecorder (AtomicHistogram_new n) (AtomicHistogram_new n) (AtomicHistogram_new n) [].

(** [LatencyRecorder::new] on a machine with [cores] cores. *)
Definition LatencyRecorder_new (cores : option nat) : LatencyRecorder :=
  with_shards (Nat.min (default 4%nat cores) 64).

Definition with_actions (names : list string) (r : LatencyRecorder) : LatencyRecorder :=
  let n := length (shards (lr_rtt r)) in
  mkLatencyRecorder (lr_handshake r) (lr_rtt r) (lr_response r)
    ((fun name => mkActionLatency name (AtomicHistogram_new n) (AtomicHistogram_new n)) <$> names).

Definition action_names (r : LatencyRecorder) : list string := al_name <$> lr_actions r.

Definition rec_handshake (shard : nat) (micros : Z) (r : LatencyRecorder) : LatencyRecorder :=
  mkLatencyRecorder (AtomicHistogram_record shard micros (lr_handshake r))
    (lr_rtt r) (lr_response r) (lr_actions r).
Definition rec_rtt (shard : nat) (micros : Z) (r : LatencyRecorder) : LatencyRecorder :=
  mkLatencyRecorder (lr_handshake r) (AtomicHistogram_record shard micros (lr_rtt r))
    (lr_response r) (lr_actions r).
Definition rec_response (shard : nat) (micros : Z) (r : LatencyRecorder) : LatencyRecorder :=
  mkLatencyRecorder (lr_handshake r) (lr_rtt r)
    (AtomicHistogram_record shard micros (lr_response r)) (lr_actions r).
Definition record_action_rtt (action shard : nat) (micros : Z) (r : LatencyRecorder)
  : LatencyRecorder :=
  mkLatencyRecorder (lr_handshake r) (lr_rtt r) (lr_response r)
    (alter (fun a => mkActionLatency (al_name a)
       (AtomicHistogram_record shard micros (al_rtt a)) (al_response a)) action (lr_actions r)).
Definition record_action_response (action shard : nat) (micros : Z) (r : LatencyRecorder)
  : LatencyRecorder :=
  mkLatencyRecorder (lr_handshake r) (lr_rtt r) (lr_response r)
    (alter (fun a => mkActionLatency (al_name a) (al_rtt a)
       (AtomicHistogram_record shard micros (al_response a))) action (lr_actions r)).

Definition add_action_to {H} `{Hdr H} (r : LatencyRecorder) (index : nat) (rtt response : H)
  : H * H :=
  match lr_actions r !! index with
  | Some a => (AtomicHistogram_add_to (al_rtt a) rtt, AtomicHistogram_add_to (al_response a) response)
  | None => (rtt, response)
  end.

Definition LatencyRecorder_add_to {H} `{Hdr H} (r : LatencyRecorder) (handshake rtt response : H)
  : H * H * H :=
  (AtomicHistogram_add_to (lr_handshake r) handshake,
   AtomicHistogram_add_to (lr_rtt r) rtt,
   AtomicHistogram_add_to (lr_response r) response).

(** ** The layout is hdrhistogram's *)

Lemma half_magnitude_3 : half_magnitude SIGFIG = 10.
Proof. vm_compute. reflexivity. Qed.

(** The bucket of a value, in [Z.log2] terms. *)
Lemma bucket_spec v :
  0 <= v -> LEADING_ZERO_COUNT_BASE - leading_zeros (Z.lor v SUB_BUCKET_MASK) =
            Z.max 0 (Z.log2 v - 10).
Proof.
  intros Hv. unfold leading_zeros.
  change LEADING_ZERO_COUNT_BASE with 53. change SUB_BUCKET_MASK with 2047.
  assert (Z.log2 (Z.lor v 2047) = Z.max (Z.log2 v) 10) as Hl by (by rewrite Z.log2_lor by lia).
  destruct (Z.eqb_spec (Z.lor v 2047) 0) as [H0|_].
  - rewrite H0 in Hl. simpl in Hl. lia.
  - lia.
Qed.

Section Bucket.
Context (v : Z) (Hv : 0 <= v <= HIGHEST_US).
Let b := Z.max 0 (Z.log2 v - 10).

Lemma bucket_range : 0 <= b <= 15.
Proof using Hv.
  subst b. assert (Z.log2 v <= Z.log2 HIGHEST_US) by (apply Z.log2_le_mono; lia).
  change (Z.log2 HIGHEST_US) with 25 in *. lia.
Qed.

Lemma sub_bucket_range : 0 <= v / 2 ^ b < 2048 /\ (0 < b -> 1024 <= v / 2 ^ b).
Proof using Hv.
  pose proof bucket_range as Hb. assert (0 < 2 ^ b) by (apply Z.pow_pos_nonneg; lia).
  destruct (Z.eq_dec v 0) as [->|Hnz].
  { assert (b = 0) by (subst b; reflexivity). rewrite Z.div_0_l by lia. lia. }
  destruct (Z.log2_spec v) as [Hl1 Hl2]; [lia|]. split.
  - split; [apply Z.div_pos; lia|]. apply Z.div_lt_upper_bound; [done|].
    change 2048 with (2 ^ 11). rewrite <- Z.pow_add_r by lia.
    eapply Z.lt_le_trans; [exact Hl2|]. apply Z.pow_le_mono_r; subst b; lia.
  - intros Hpos. apply Z.div_le_lower_bound; [done|].
    change 1024 with (2 ^ 10). rewrite <- Z.pow_add_r by lia.
    replace (b + 10) with (Z.log2 v) by (subst b; lia). exact Hl1.
Qed.

Lemma index_of_spec : index_of v = b * 1024 + v / 2 ^ b.
Proof using Hv.
  unfold index_of. rewrite bucket_spec by lia. fold b.
  pose proof bucket_range. rewrite Z.shiftr_div_pow2 by lia.
  rewrite Z.shiftl_mul_pow2 by (vm_compute; discriminate).
  change (2 ^ SUB_BUCKET_HALF_COUNT_MAGNITUDE) with 1024.
  change SUB_BUCKET_HALF_COUNT with 1024. lia.
Qed.

Lemma index_of_range : 0 <= index_of v < LEN.
Proof using Hv.
  rewrite index_of_spec. pose proof bucket_range. pose proof sub_bucket_range as [? _].
  change LEN with 17408. lia.
Qed.

Lemma value_at_index_of : value_at (index_of v) = lowest_equivalent SIGFIG v.
Proof using Hv.
  unfold lowest_equivalent. rewrite half_magnitude_3. fold b.
  pose proof bucket_range as Hb. pose proof sub_bucket_range as [Hs Hs'].
  set (s := v / 2 ^ b) in *.
  assert (index_of v = b * 1024 + s) as Hi by apply index_of_spec.
  unfold value_at. rewrite Hi.
  change SUB_BUCKET_HALF_COUNT_MAGNITUDE with 10. change (SUB_BUCKET_HALF_COUNT - 1) with (Z.ones 10).
  change SUB_BUCKET_HALF_COUNT with 1024. rewrite Z.land_ones, Z.shiftr_div_pow2 by lia.
  change (2 ^ 10) with 1024.
  assert (forall x c, 0 <= x < 2048 -> 0 <= c <= 15 -> u64_shl x c = x * 2 ^ c) as Hshl.
  { intros x c Hx Hc. unfold u64_shl. rewrite Z.shiftl_mul_pow2 by lia. apply wrap_id.
    assert (2 ^ c <= 2 ^ 15) by (apply Z.pow_le_mono_r; lia).
    assert (0 < 2 ^ c) by (apply Z.pow_pos_nonneg; lia).
    change (2 ^ 15) with 32768 in *. unfold is_uint. change (2 ^ 64) with 18446744073709551616. nia. }
  destruct (Z.eqb_spec ((b * 1024 + s) / 1024) 0) as [H0|Hne].
  - assert (b = 0 /\ s < 1024) as [Hb0 Hs1024] by (Z.to_euclidean_division_equations; lia).
    unfold u64_saturating_sub. rewrite H0, Hb0. simpl Z.max.
    replace ((0 * 1024 + s) mod 1024 + 1024 - 1024) with s
      by (Z.to_euclidean_division_equations; lia).
    by rewrite Hshl by lia.
  - destruct (Z.eq_dec b 0) as [Hb0|Hb0].
    + assert (1024 <= s) by (rewrite Hb0 in Hne; Z.to_euclidean_division_equations; lia).
      unfold u64_saturating_sub.
      replace ((b * 1024 + s) / 1024) with 1 by (Z.to_euclidean_division_equations; lia).
      replace ((b * 1024 + s) mod 1024 + 1024) with s by (Z.to_euclidean_division_equations; lia).
      rewrite Hb0. by rewrite Hshl by lia.
    + specialize (Hs' ltac:(lia)). unfold u64_saturating_sub.
      replace ((b * 1024 + s) / 1024) with (b + 1) by (Z.to_euclidean_division_equations; lia).
      replace ((b * 1024 + s) mod 1024 + 1024) with s by (Z.to_euclidean_division_equations; lia).
      replace (Z.max 0 (b + 1 - 1)) with b by lia. by rewrite Hshl by lia.
Qed.
End Bucket.

(** The lowest value of a class is in the class. *)
Lemma log2_lowest v :
  1 <= v <= HIGHEST_US -> Z.log2 (lowest_equivalent SIGFIG v) = Z.log2 v.
Proof.
  intros Hv. unfold lowest_equivalent. rewrite half_magnitude_3.
  pose proof (bucket_range v ltac:(lia)) as Hb.
  destruct (Z.le_gt_cases (Z.log2 v) 10) as [Hl|Hl].
  - rewrite Z.max_l by lia. rewrite Z.pow_0_r, Z.div_1_r, Z.mul_1_r. done.
  - rewrite Z.max_r in Hb |- * by lia.
    rewrite <- Z.shiftr_div_pow2, <- Z.shiftl_mul_pow2 by lia.
    rewrite Z.log2_shiftl.
    + rewrite Z.log2_shiftr by lia. lia.
    + apply Z.log2_lt_cancel. rewrite Z.log2_shiftr by lia. simpl Z.log2. lia.
    + lia.
Qed.

(** A value's count is its class's. *)
Lemma index_of_equivalent v w :
  1 <= v <= HIGHEST_US -> 1 <= w <= HIGHEST_US ->
  index_of v = index_of w <-> equivalent latency_bounds v w.
Proof.
  intros Hv Hw. unfold equivalent. change (hdr_sigfig latency_bounds) with SIGFIG.
  rewrite <- !value_at_index_of by lia. split; [by intros ->|].
  rewrite !value_at_index_of by lia. intros He.
  rewrite !index_of_spec by lia.
  assert (Z.log2 v = Z.log2 w) as Hl by (rewrite <- log2_lowest, He, log2_lowest; done).
  unfold lowest_equivalent in He. rewrite half_magnitude_3, Hl in He. rewrite Hl.
  set (b := Z.max 0 (Z.log2 w - 10)) in *.
  assert (0 < 2 ^ b) by (apply Z.pow_pos_nonneg; lia). f_equal.
  by apply Z.mul_cancel_r in He; [|lia].
Qed.

Lemma latency_bounds_used : used_bounds latency_bounds.
Proof. unfold used_bounds. simpl. auto. Qed.

Lemma in_latency_bounds v : in_bounds latency_bounds v <-> 1 <= v <= HIGHEST_US.
Proof. done. Qed.

(** ** Recording a run's samples *)

(** A sample is the shard of the worker that records it and its value in
    microseconds. *)
Definition record_all (samples : list (nat * Z)) (h : AtomicHistogram) : AtomicHistogram :=
  fold_left (fun h s => AtomicHistogram_record s.1 s.2 h) samples h.
Definition record_direct {H} `{Hdr H} (samples : list (nat * Z)) (hist : H) : H :=
  fold_left (fun hist s => hdr_record' (clamp LOWEST_US HIGHEST_US s.2) hist) samples hist.

(** The index a sample is counted at, and how many samples share [index]. *)
Definition sample_index (micros : Z) : Z := index_of (clamp LOWEST_US HIGHEST_US micros).
Definition samples_at (index : Z) (samples : list (nat * Z)) : Z :=
  sum_Z ((fun s => if sample_index s.2 =? index then 1 else 0) <$> samples).
Definition count_of (index : Z) (counts : option (list Z)) : Z :=
  match counts with Some c => default 0 (c !! Z.to_nat index) | None => 0 end.
Definition total_at (index : Z) (h : AtomicHistogram) : Z :=
  sum_Z (count_of index <$> shards h).

Lemma clamp_latency micros : 1 <= clamp LOWEST_US HIGHEST_US micros <= HIGHEST_US.
Proof. by apply clamp_range. Qed.

Lemma sample_index_range micros : 0 <= sample_index micros < LEN.
Proof. apply index_of_range. pose proof (clamp_latency micros). lia. Qed.

Lemma samples_at_cons index s samples :
  samples_at index (s :: samples) =
    (if sample_index s.2 =? index then 1 else 0) + samples_at index samples.
Proof. done. Qed.

Lemma samples_at_range index samples : 0 <= samples_at index samples <= Z.of_nat (length samples).
Proof.
  induction samples as [|s samples IH]; [done|]. rewrite samples_at_cons.
  simpl length. case_match; lia.
Qed.

Lemma sum_Z_alter {A} (f : A -> Z) (g : A -> A) i (l : list A) x :
  l !! i = Some x -> sum_Z (f <$> alter g i l) = sum_Z (f <$> l) + f (g x) - f x.
Proof.
  revert i. induction l as [|y l IH]; intros [|i] Hx; simplify_eq/=.
  - lia.
  - rewrite (IH i) by done. lia.
Qed.

(** A shard counts only indices of values within the bounds. *)
Definition shard_ok (counts : list Z) : Prop :=
  length counts = Z.to_nat LEN /\
  forall j c, counts !! j = Some c ->
    is_u64 c /\ (0 < c -> exists v, 1 <= v <= HIGHEST_US /\ index_of v = Z.of_nat j).
Definition histogram_ok (h : AtomicHistogram) : Prop :=
  shards h <> [] /\ Forall (fun s => match s with Some c => shard_ok c | None => True end) (shards h).

Lemma shard_ok_empty : shard_ok empty_shard.
Proof.
  split; [apply length_replicate|]. intros j c [-> _]%lookup_replicate. split; [split; lia|lia].
Qed.

Lemma histogram_ok_new n : histogram_ok (AtomicHistogram_new n).
Proof.
  split; simpl.
  - intros H. apply (f_equal length) in H. rewrite length_replicate in H. simpl in H. lia.
  - by apply Forall_replicate.
Qed.

Lemma total_at_new index n : total_at index (AtomicHistogram_new n) = 0.
Proof.
  unfold total_at, AtomicHistogram_new. cbn [shards].
  induction (Nat.max n 1) as [|k IH]; [done|].
  simpl. exact IH.
Qed.

Lemma count_of_range index h k s :
  histogram_ok h -> shards h !! k = Some s -> 0 <= count_of index s <= total_at index h.
Proof.
  intros [_ Hok] Hs.
  assert (Forall (fun x => 0 <= x) (count_of index <$> shards h)) as Hnn.
  { apply Forall_fmap. eapply Forall_impl; [exact Hok|]. intros [c|] Hc; simpl; [|lia].
    destruct (c !! Z.to_nat index) as [x|] eqn:Hx; simpl; [|lia]. by apply Hc in Hx as [[? _] _]. }
  unfold total_at. split.
  - rewrite Forall_lookup in Hnn. apply (Hnn k). by rewrite list_lookup_fmap, Hs.
  - rewrite <- (take_drop_middle (count_of index <$> shards h) k (count_of index s))
      by (by rewrite list_lookup_fmap, Hs).
    rewrite sum_Z_app, sum_Z_cons.
    pose proof (sum_Z_nonneg _ (Forall_take _ k _ Hnn)).
    pose proof (sum_Z_nonneg _ (Forall_drop _ (S k) _ Hnn)). lia.
Qed.

(** Incrementing the count of a sample. *)
Definition bump (micros : Z) (counts : list Z) : list Z :=
  alter (fun c => u64_add c 1) (Z.to_nat (sample_index micros)) counts.

Lemma bump_lookup micros counts index :
  shard_ok counts -> default 0 (counts !! Z.to_nat (sample_index micros)) < u64_max ->
  0 <= index ->
  default 0 (bump micros counts !! Z.to_nat index) =
    default 0 (counts !! Z.to_nat index) + (if sample_index micros =? index then 1 else 0).
Proof.
  intros [Hlen Hc] Hroom Hindex. pose proof (sample_index_range micros) as Hr. unfold bump.
  destruct (Z.eqb_spec (sample_index micros) index) as [<-|Hne].
  - rewrite list_lookup_alter_eq.
    destruct (lookup_lt_is_Some_2 counts (Z.to_nat (sample_index micros))) as [c Hci]; [lia|].
    rewrite Hci in Hroom |- *. simpl in *. apply Hc in Hci as [[? ?] _].
    apply u64_add_id; unfold u64_max in *; lia.
  - rewrite list_lookup_alter_ne by lia. lia.
Qed.

Lemma bump_ok micros counts : shard_ok counts -> shard_ok (bump micros counts).
Proof.
  intros [Hlen Hok]. split; [unfold bump; by rewrite length_alter|].
  intros j x Hj. unfold bump in Hj. pose proof (sample_index_range micros).
  destruct (decide (j = Z.to_nat (sample_index micros))) as [->|Hne].
  - rewrite list_lookup_alter_eq in Hj. apply fmap_Some in Hj as (c & _ & ->).
    split; [apply u64_add_range|]. intros _. exists (clamp LOWEST_US HIGHEST_US micros).
    split; [apply clamp_latency|]. fold (sample_index micros). lia.
  - rewrite list_lookup_alter_ne in Hj by done. by apply Hok.
Qed.

Lemma default_shard_ok h i s :
  histogram_ok h -> shards h !! i = Some s -> shard_ok (default empty_shard s).
Proof.
  intros [_ Hok] Hs. rewrite Forall_lookup in Hok. specialize (Hok i s Hs).
  destruct s; [done|]. apply shard_ok_empty.
Qed.

Lemma count_of_default index s : count_of index s = default 0 (default empty_shard s !! Z.to_nat index).
Proof.
  destruct s as [c|]; [done|]. simpl.
  destruct (empty_shard !! Z.to_nat index) as [x|] eqn:E; [|done].
  by apply lookup_replicate in E as [-> _].
Qed.

Lemma histogram_ok_record shard micros h :
  histogram_ok h -> histogram_ok (AtomicHistogram_record shard micros h).
Proof.
  intros [Hne Hok]. split.
  - simpl. intros Hnil. apply (f_equal length) in Hnil. rewrite length_alter in Hnil.
    by destruct (shards h).
  - simpl. apply Forall_alter; [done|]. intros s Hs _. apply bump_ok.
    by eapply default_shard_ok; [split|].
Qed.

(** One recording adds one to the count of the sample's index. *)
Lemma record_step shard micros h :
  histogram_ok h -> (forall index, total_at index h < u64_max) ->
  histogram_ok (AtomicHistogram_record shard micros h) /\
  forall index, 0 <= index -> total_at index (AtomicHistogram_record shard micros h) =
    total_at index h + (if sample_index micros =? index then 1 else 0).
Proof.
  intros Hh Hroom. pose proof Hh as [Hne Hok].
  set (i := (shard mod length (shards h))%nat).
  assert (i < length (shards h))%nat as Hi.
  { apply Nat.mod_upper_bound. by destruct (shards h). }
  apply lookup_lt_is_Some in Hi as [s Hs].
  assert (default 0 (default empty_shard s !! Z.to_nat (sample_index micros)) < u64_max) as Hc.
  { rewrite <- count_of_default.
    pose proof (count_of_range (sample_index micros) h i s Hh Hs).
    specialize (Hroom (sample_index micros)). lia. }
  pose proof (default_shard_ok h i s Hh Hs) as Hsok.
  split.
  - by apply histogram_ok_record.
  - intros index Hindex. unfold total_at. simpl. fold i.
    rewrite (sum_Z_alter _ _ _ _ _ Hs). cbn [count_of].
    fold (sample_index micros) (bump micros (default empty_shard s)).
    rewrite bump_lookup, (count_of_default _ s) by done. lia.
Qed.

Lemma record_all_spec samples h :
  histogram_ok h ->
  (forall index, total_at index h + Z.of_nat (length samples) <= u64_max) ->
  histogram_ok (record_all samples h) /\
  forall index, 0 <= index ->
    total_at index (record_all samples h) = total_at index h + samples_at index samples.
Proof.
  revert h. induction samples as [|s samples IH]; intros h Hok Hroom.
  { split; [done|]. intros index _. unfold samples_at. simpl. lia. }
  simpl length in Hroom.
  destruct (record_step s.1 s.2 h Hok) as [Hok' Hstep].
  { intros index. specialize (Hroom index). lia. }
  destruct (IH _ Hok') as [Hok'' Hall].
  - intros index. destruct (Z.le_gt_cases 0 index).
    + rewrite Hstep by done. specialize (Hroom index). case_match; lia.
    + specialize (Hroom 0). replace (total_at index _) with (total_at 0 (AtomicHistogram_record s.1 s.2 h)).
      * rewrite Hstep by done. case_match; lia.
      * unfold total_at. f_equal. apply list_fmap_ext. intros k [c|] _; [|done]. simpl.
        by rewrite (Z2Nat.nonpos index) by lia.
  - split; [done|]. intros index Hindex.
    change (record_all (s :: samples) h) with (record_all samples (AtomicHistogram_record s.1 s.2 h)).
    rewrite Hall, Hstep, samples_at_cons by done. lia.
Qed.

(** ** Moving the counts into a histogram *)

Section AddTo.
Context {H : Type} `{HdrLaws H}.
#[local] Existing Instance hdr_equiv.

(** What the counts from [i] on hold for the class of [w]. *)
Definition contribution (i : Z) (counts : list Z) (w : Z) : Z :=
  if i <=? index_of w then default 0 (counts !! Z.to_nat (index_of w - i)) else 0.

Lemma contribution_cons i c counts w :
  contribution i (c :: counts) w =
    (if index_of w =? i then c else 0) + contribution (i + 1) counts w.
Proof.
  unfold contribution. destruct (Z.eqb_spec (index_of w) i) as [He|He].
  - rewrite He, Z.leb_refl, Z.sub_diag. simpl. rewrite (proj2 (Z.leb_gt (i + 1) i)) by lia. lia.
  - destruct (Z.leb_spec i (index_of w)), (Z.leb_spec (i + 1) (index_of w)); try lia.
    replace (Z.to_nat (index_of w - i)) with (S (Z.to_nat (index_of w - (i + 1)))) by lia. done.
Qed.

(** Recording the lowest value of a class records the class. *)
Lemma record_index_spec v c hist :
  hdr_bounds hist = latency_bounds -> 1 <= v <= HIGHEST_US -> is_u64 c ->
  hdr_bounds (hdr_record_n' (value_at (index_of v)) c hist) = latency_bounds /\
  forall w, 1 <= w <= HIGHEST_US ->
    hdr_count_at (hdr_record_n' (value_at (index_of v)) c hist) w =
      if index_of w =? index_of v then u64_saturating_add (hdr_count_at hist w) c
      else hdr_count_at hist w.
Proof.
  intros Hb Hv Hc. rewrite value_at_index_of by lia.
  pose proof (lowest_equivalent_bounds SIGFIG v ltac:(by rewrite half_magnitude_3) ltac:(lia)) as Hl.
  destruct (hdr_record_n'_spec (lowest_equivalent SIGFIG v) c hist) as [Hb' Hcount];
    [rewrite Hb; apply latency_bounds_used|rewrite Hb; apply in_latency_bounds; lia|done|].
  rewrite Hb in *. split; [done|]. intros w Hw. rewrite Hcount by done.
  assert (equivalent latency_bounds (lowest_equivalent SIGFIG v) w <-> index_of w = index_of v) as Heq.
  { rewrite index_of_equivalent by done. unfold equivalent. simpl hdr_sigfig.
    rewrite lowest_equivalent_idem by (rewrite ?half_magnitude_3; lia). split; congruence. }
  case_decide as Hd; destruct (Z.eqb_spec (index_of w) (index_of v)); naive_solver.
Qed.

(** A part of a shard whose positive counts are at indices of values in
    bounds. *)
Definition counts_ok (i : Z) (counts : list Z) : Prop :=
  forall j c, counts !! j = Some c -> 0 <= c < 2 ^ 64 /\
    (0 < c -> exists v, 1 <= v <= HIGHEST_US /\ index_of v = i + Z.of_nat j).

Lemma contribution_range i counts w : counts_ok i counts -> is_u64 (contribution i counts w).
Proof.
  intros Hok. unfold contribution. case_match; [|ulia].
  destruct (counts !! _) as [c|] eqn:E; cbn; [|ulia]. by apply Hok in E as [? _].
Qed.

Lemma add_counts_to_spec i counts hist :
  hdr_bounds hist = latency_bounds -> counts_ok i counts ->
  hdr_bounds (add_counts_to i counts hist) = latency_bounds /\
  forall w, 1 <= w <= HIGHEST_US ->
    hdr_count_at (add_counts_to i counts hist) w =
      u64_saturating_add (hdr_count_at hist w) (contribution i counts w).
Proof.
  revert i hist. induction counts as [|c counts IH]; intros i hist Hb Hok.
  { split; [done|]. intros w _. pose proof (hdr_count_at_u64 hist w).
    unfold contribution, u64_saturating_add, u64_max. simpl. case_match; ulia. }
  cbn [add_counts_to]. set (hist' := if 0 <? c then _ else hist).
  destruct (Hok 0%nat c eq_refl) as [Hc Hpos].
  assert (hdr_bounds hist' = latency_bounds /\ forall w, 1 <= w <= HIGHEST_US ->
    hdr_count_at hist' w = u64_saturating_add (hdr_count_at hist w) (if index_of w =? i then c else 0))
    as [Hb' Hc'].
  { assert (forall w, u64_saturating_add (hdr_count_at hist w) 0 = hdr_count_at hist w) as Hsat0.
    { intros w. pose proof (hdr_count_at_u64 hist w). unfold u64_saturating_add, u64_max. ulia. }
    subst hist'. destruct (Z.ltb_spec 0 c) as [Hc0|Hc0].
    - destruct (Hpos Hc0) as (v & Hv & Hvi). rewrite Z.add_0_r in Hvi. subst i.
      destruct (record_index_spec v c hist Hb Hv Hc) as [Hb' Hcount]. split; [done|].
      intros w Hw. rewrite Hcount by done. by case_match.
    - split; [done|]. intros w _. assert (c = 0) as -> by ulia. by case_match. }
  assert (counts_ok (i + 1) counts) as Hok'.
  { intros j x Hj. destruct (Hok (S j) x Hj) as [Hx Hpos']. split; [done|].
    intros Hx0. destruct (Hpos' Hx0) as (v & Hv & Hvi). exists v. lia. }
  destruct (IH (i + 1) hist' Hb' Hok') as [Hb'' Hc''].
  split; [done|]. intros w Hw. rewrite Hc'', Hc', contribution_cons by done.
  pose proof (hdr_count_at_u64 hist w). pose proof (contribution_range (i + 1) counts w Hok').
  apply u64_saturating_add_assoc; [ulia|case_match; ulia|ulia].
Qed.

Lemma shard_contribution c w :
  shard_ok c -> 1 <= w <= HIGHEST_US ->
  counts_ok 0 c /\ contribution 0 c w = default 0 (c !! Z.to_nat (index_of w)).
Proof.
  intros [_ Hok] Hw. split; [|].
  - intros j x Hj. destruct (Hok j x Hj) as [Hx Hpos]. by split.
  - unfold contribution. assert (0 <= index_of w) by (apply index_of_range; lia).
    by rewrite (proj2 (Z.leb_le _ _)), Z.sub_0_r by done.
Qed.

Lemma add_shards_spec ss hist :
  hdr_bounds hist = latency_bounds -> Forall shard_ok (omap id ss) ->
  hdr_bounds (fold_left (fun h c => add_counts_to 0 c h) (omap id ss) hist) = latency_bounds /\
  forall w, 1 <= w <= HIGHEST_US ->
    0 <= sum_Z (count_of (index_of w) <$> ss) /\
    hdr_count_at (fold_left (fun h c => add_counts_to 0 c h) (omap id ss) hist) w =
      u64_saturating_add (hdr_count_at hist w) (sum_Z (count_of (index_of w) <$> ss)).
Proof.
  revert hist. induction ss as [|[c|] ss IH]; intros hist Hb Hok.
  { split; [done|]. intros w _. pose proof (hdr_count_at_u64 hist w).
    unfold u64_saturating_add, u64_max. cbn. ulia. }
  2: { by apply IH. }
  change (omap id (Some c :: ss)) with (c :: omap id ss) in *.
  apply Forall_cons in Hok as [Hc Hok]. cbn [fold_left].
  assert (counts_ok 0 c) as Hcok.
  { apply (shard_contribution c 1); [done|unfold HIGHEST_US; lia]. }
  destruct (add_counts_to_spec 0 c hist Hb Hcok) as [Hb' Hc'].
  destruct (IH _ Hb' Hok) as [Hb'' Hc'']. split; [done|]. intros w Hw.
  destruct (Hc'' w Hw) as [Hnn Hcount]. destruct (shard_contribution c w Hc Hw) as [_ Hcontr].
  pose proof (contribution_range 0 c w Hcok) as Hcr. pose proof (hdr_count_at_u64 hist w).
  rewrite fmap_cons, sum_Z_cons. cbn [count_of]. rewrite <- Hcontr. split; [ulia|].
  rewrite Hcount, Hc' by done. apply u64_saturating_add_assoc; ulia.
Qed.

(** Moving an atomic histogram's counts adds its totals. *)
Lemma add_to_spec h hist :
  hdr_bounds hist = latency_bounds -> histogram_ok h ->
  hdr_bounds (AtomicHistogram_add_to h hist) = latency_bounds /\
  forall w, 1 <= w <= HIGHEST_US ->
    0 <= total_at (index_of w) h /\
    hdr_count_at (AtomicHistogram_add_to h hist) w =
      u64_saturating_add (hdr_count_at hist w) (total_at (index_of w) h).
Proof.
  intros Hb [_ Hok]. apply add_shards_spec; [done|].
  apply Forall_lookup. intros k c Hc%list_elem_of_lookup_2.
  apply list_elem_of_omap in Hc as ([d|] & Hd & [= ->]).
  apply list_elem_of_lookup in Hd as [j Hj]. by apply (Forall_lookup_1 _ _ _ _ Hok Hj).
Qed.

Lemma record_direct_spec samples hist :
  hdr_bounds hist = latency_bounds -> has_room hist (Z.of_nat (length samples)) ->
  hdr_bounds (record_direct samples hist) = latency_bounds /\
  forall w, 1 <= w <= HIGHEST_US ->
    hdr_count_at (record_direct samples hist) w =
      hdr_count_at hist w + samples_at (index_of w) samples.
Proof.
  revert hist. induction samples as [|s samples IH]; intros hist Hb Hroom.
  { split; [done|]. intros w _. unfold samples_at. simpl. lia. }
  unfold has_room in Hroom. rewrite Hb in Hroom. simpl length in Hroom.
  set (v := clamp LOWEST_US HIGHEST_US s.2).
  assert (1 <= v <= HIGHEST_US) as Hv by apply clamp_latency.
  destruct (hdr_record_n'_spec v 1 hist) as [Hb' Hc'];
    [rewrite Hb; apply latency_bounds_used|rewrite Hb; by apply in_latency_bounds|ulia|].
  rewrite Hb in Hb', Hc'.
  assert (forall w, 1 <= w <= HIGHEST_US -> hdr_count_at (hdr_record' v hist) w =
    hdr_count_at hist w + if sample_index s.2 =? index_of w then 1 else 0) as Hone.
  { intros w Hw. unfold hdr_record'. rewrite Hc' by done. specialize (Hroom w Hw).
    unfold sample_index. fold v. pose proof (index_of_equivalent v w Hv Hw).
    case_decide; destruct (Z.eqb_spec (index_of v) (index_of w)); try tauto; [|lia].
    unfold u64_saturating_add. lia. }
  destruct (IH (hdr_record' v hist) Hb') as [Hb'' Hc''].
  - unfold has_room, hdr_record'. rewrite Hb'. intros w Hw. fold (hdr_record' v hist).
    rewrite Hone by done. specialize (Hroom w Hw). case_match; lia.
  - split; [done|]. intros w Hw.
    change (record_direct (s :: samples) hist) with (record_direct samples (hdr_record' v hist)).
    rewrite Hc'', Hone, samples_at_cons by done. lia.
Qed.

Lemma recorder_counts n samples hist :
  hdr_bounds hist = latency_bounds -> has_room hist (Z.of_nat (length samples)) ->
  hdr_bounds (AtomicHistogram_add_to (record_all samples (AtomicHistogram_new n)) hist) = latency_bounds /\
  forall w, 1 <= w <= HIGHEST_US ->
    hdr_count_at (AtomicHistogram_add_to (record_all samples (AtomicHistogram_new n)) hist) w =
      hdr_count_at hist w + samples_at (index_of w) samples.
Proof.
  intros Hb Hroom. unfold has_room in Hroom. rewrite Hb in Hroom.
  destruct (record_all_spec samples (AtomicHistogram_new n) (histogram_ok_new n)) as [Hok Htot].
  { intros index. rewrite total_at_new.
    assert (in_bounds latency_bounds 1) as H1' by (by apply in_latency_bounds).
    specialize (Hroom 1 H1'). pose proof (hdr_count_at_u64 hist 1). ulia. }
  destruct (add_to_spec _ hist Hb Hok) as [Hb' Hc'].
  split; [exact Hb'|]. intros w Hw. destruct (Hc' w Hw) as [_ ->].
  rewrite Htot, total_at_new by (apply index_of_range; lia).
  specialize (Hroom w Hw). pose proof (samples_at_range (index_of w) samples).
  unfold u64_saturating_add. lia.
Qed.

(** C28. The histogram a run reports is the one recording every sample directly
    would have given: sharding the counts, indexing them with shifts and
    moving whole counts at the end loses and misplaces nothing, for any
    number of shards and any interleaving of the workers' recordings. *)
Theorem recorder_refines_direct n samples samples' (hist : H) :
  hdr_bounds hist = latency_bounds -> has_room hist (Z.of_nat (length samples)) ->
  samples ≡ₚ samples' ->
  AtomicHistogram_add_to (record_all samples (AtomicHistogram_new n)) hist
    ≡ record_direct samples' hist.
Proof.
  intros Hb Hroom Hperm.
  destruct (recorder_counts n samples hist Hb Hroom) as [Hb1 Hc1].
  destruct (record_direct_spec samples' hist Hb) as [Hb2 Hc2]; [by rewrite <- Hperm|].
  split; [congruence|]. rewrite Hb1. intros w Hw%in_latency_bounds.
  rewrite Hc1, Hc2 by done. f_equal. unfold samples_at. by rewrite Hperm.
Qed.

End AddTo.

(** The index computation is the crate's layout: an index within the
    allocated counts, whose value is the lowest of the class, equal for two
    values exactly when the crate counts them together. *)
Theorem index_layout v w :
  1 <= v <= HIGHEST_US -> 1 <= w <= HIGHEST_US ->
  0 <= index_of v < LEN /\
  value_at (index_of v) = lowest_equivalent SIGFIG v /\
  (index_of v = index_of w <-> equivalent latency_bounds v w).
Proof.
  intros Hv Hw. split_and!.
  1,2: apply index_of_range; lia.
  - apply value_at_index_of. lia.
  - by apply index_of_equivalent.
Qed.

Lemma index_layout_witness :
  index_of 4097 = index_of 4099 /\ value_at (index_of 4099) = 4096.
Proof.
  assert (1 <= 4097 <= HIGHEST_US) as H1 by (unfold HIGHEST_US; lia).
  assert (1 <= 4099 <= HIGHEST_US) as H2 by (unfold HIGHEST_US; lia).
  destruct (index_layout 4099 4097 H2 H1) as (_ & Hv & He). split.
  - symmetry. apply He. vm_compute. reflexivity.
  - rewrite Hv. vm_compute. reflexivity.
Defined.

Lemma recorder_refines_direct_witness :
  hdr_equiv (H := ClassHistogram)
    (AtomicHistogram_add_to (record_all [(0%nat, 100); (5%nat, 4099); (1%nat, 4097)]
       (AtomicHistogram_new 3)) (mkClassHistogram latency_bounds ∅))
    (record_direct [(5%nat, 4099); (0%nat, 100); (1%nat, 4097)]
       (mkClassHistogram latency_bounds ∅)).
Proof.
  apply (recorder_refines_direct (H := ClassHistogram) 3).
  - reflexivity.
  - intros v _. unfold hdr_count_at, ClassHistogram_Hdr, ch_count. simpl.
    rewrite lookup_empty. vm_compute. discriminate.
  - apply perm_swap.
Defined.
