(* ===== verification/Live.v ===== *)
(** * Error taxonomy and live counters (src/src/error.rs, src/src/metrics.rs)

    The categories failures are counted under, and the sharded atomic
    counters every worker updates while a run lasts.  An atomic update is one
    step on the shared state, so concurrent workers are a sequence of these
    steps; [snapshot] adds the shards up.  The section on request claims shows
    that a limit of [max] requests is never exceeded. *)

From Stdlib Require Import ZArith Lia Ascii String.
From stdpp Require Import base tactics strings numbers option gmap list.
From S2P Require Import Prelude.

Local Open Scope Z_scope.
Local Open Scope rust_scope.

(** ** Errors *)

(** An [io::Error] is its message. *)
Inductive WorkerError :=
| DnsResolutionError (message : string)
| TcpConnectError (address source : string)
| TlsHandshakeError (message : string)
| HttpUpgradeRejectedError (status : Z) (reason : string)
| ProtocolViolation (message : string)
| WriteFailed (message : string)
| ReadFailed (message : string)
| TimeoutAfter (after : Z)
| UnexpectedCloseError (code : option Z) (reason : string).

Inductive ErrorCategory :=
| DnsResolution | TcpConnect | TlsHandshake | HttpUpgradeRejected | ProtocolError
| WriteError | ReadError | Timeout | UnexpectedClose | Other | CheckFailed.

#[export] Instance ErrorCategory_eq_dec : EqDecision ErrorCategory.
Proof. solve_decision. Defined.

Definition ErrorCategory_discriminant (c : ErrorCategory) : nat :=
  match c with
  | DnsResolution => 0 | TcpConnect => 1 | TlsHandshake => 2 | HttpUpgradeRejected => 3
  | ProtocolError => 4 | WriteError => 5 | ReadError => 6 | Timeout => 7
  | UnexpectedClose => 8 | Other => 9 | CheckFailed => 10
  end.

#[export] Program Instance ErrorCategory_countable : Countable ErrorCategory := {|
  encode c := encode (ErrorCategory_discriminant c);
  decode p :=
    n ← decode p;
    [DnsResolution; TcpConnect; TlsHandshake; HttpUpgradeRejected; ProtocolError;
     WriteError; ReadError; Timeout; UnexpectedClose; Other; CheckFailed] !! n
|}.
Next Obligation. by intros []. Qed.

Definition ErrorCategory_fmt (c : ErrorCategory) : string :=
  match c with
  | DnsResolution => "DNS Resolution Failed"
  | TcpConnect => "TCP Connect Failed"
  | TlsHandshake => "TLS Handshake Failed"
  | HttpUpgradeRejected => "HTTP Upgrade Rejected"
  | ProtocolError => "Protocol Error"
  | WriteError => "Frame Write Error"
  | ReadError => "Frame Read Error"
  | Timeout => "Operation Timeout"
  | UnexpectedClose => "Unexpected Close"
  | CheckFailed => "Reply Check Failed"
  | Other => "Other Error"
  end%string.

Definition ErrorCategory_from (err : WorkerError) : ErrorCategory :=
  match err with
  | DnsResolutionError _ => DnsResolution
  | TcpConnectError _ _ => TcpConnect
  | TlsHandshakeError _ => TlsHandshake
  | HttpUpgradeRejectedError _ _ => HttpUpgradeRejected
  | ProtocolViolation _ => ProtocolError
  | WriteFailed _ => WriteError
  | ReadFailed _ => ReadError
  | TimeoutAfter _ => Timeout
  | UnexpectedCloseError _ _ => UnexpectedClose
  end.

(** What a configuration is rejected for. *)
Inductive ConfigError :=
| InvalidUrl (url message : string)
| UnsupportedScheme (scheme : string)
| InvalidDuration (text : string)
| InvalidHeader (text : string)
| ZeroConcurrency (received : Z)
| InvalidThreshold (message : string)
| InvalidAuth (message : string)
| AuthTokenCommand (message : string)
| AuthTokenRequest (message : string)
| InvalidOption (message : string)
| InvalidScenario (message : string)
| UnsupportedOption (message : string)
| DataFile (message : string)
| PayloadFile (path source : string).

Inductive WsBlastError :=
| ConfigFailure (err : ConfigError)
| WorkerFailure (err : WorkerError)
| IoFailure (message : string)
| SerializationFailure (message : string)
| MetricsFailure (message : string)
| DistributedFailure (message : string).

(** ** Counter shards *)

Record CounterShard := mkCounterShard {
  cs_active_connections : Z;
  cs_connections_established : Z;
  cs_connections_failed : Z;
  cs_reconnects : Z;
  cs_messages_sent : Z;
  cs_messages_received : Z;
  cs_bytes_sent : Z;
  cs_bytes_received : Z;
  cs_total_errors : Z;
  cs_unsolicited_frames : Z;
}.
#[export] Instance CounterShard_eta : Settable CounterShard := fun s =>
  mkCounterShard (cs_active_connections s) (cs_connections_established s)
    (cs_connections_failed s) (cs_reconnects s) (cs_messages_sent s) (cs_messages_received s)
    (cs_bytes_sent s) (cs_bytes_received s) (cs_total_errors s) (cs_unsolicited_frames s).

Definition CounterShard_default : CounterShard := mkCounterShard 0 0 0 0 0 0 0 0 0 0.

(** The names of a shard's atomics. *)
Inductive Counter :=
| active_connections | connections_established | connections_failed | reconnects
| messages_sent | messages_received | bytes_sent | bytes_received | total_errors
| unsolicited_frames.

#[export] Instance Counter_eq_dec : EqDecision Counter.
Proof. solve_decision. Defined.

Definition shard_load (c : Counter) (s : CounterShard) : Z :=
  match c with
  | active_connections => cs_active_connections s
  | connections_established => cs_connections_established s
  | connections_failed => cs_connections_failed s
  | reconnects => cs_reconnects s
  | messages_sent => cs_messages_sent s
  | messages_received => cs_messages_received s
  | bytes_sent => cs_bytes_sent s
  | bytes_received => cs_bytes_received s
  | total_errors => cs_total_errors s
  | unsolicited_frames => cs_unsolicited_frames s
  end.

(** [counter.fetch_add(n, Relaxed)]; [fetch_sub(n)] is [fetch_add(-n)]. *)
Definition shard_fetch_add (c : Counter) (n : Z) (s : CounterShard) : CounterShard :=
  let add v := v +u n in
  match c with
  | active_connections => s <| cs_active_connections ::= add |>
  | connections_established => s <| cs_connections_established ::= add |>
  | connections_failed => s <| cs_connections_failed ::= add |>
  | reconnects => s <| cs_reconnects ::= add |>
  | messages_sent => s <| cs_messages_sent ::= add |>
  | messages_received => s <| cs_messages_received ::= add |>
  | bytes_sent => s <| cs_bytes_sent ::= add |>
  | bytes_received => s <| cs_bytes_received ::= add |>
  | total_errors => s <| cs_total_errors ::= add |>
  | unsolicited_frames => s <| cs_unsolicited_frames ::= add |>
  end.

(** ** The live registry *)

Record LiveMetrics := mkLiveMetrics {
  lm_shards : list CounterShard;
  lm_next_shard : Z;
  lm_requests_claimed : Z;
}.
#[export] Instance LiveMetrics_eta : Settable LiveMetrics := fun l =>
  mkLiveMetrics (lm_shards l) (lm_next_shard l) (lm_requests_claimed l).

(** On a machine with [cores] cores; 4 when they cannot be counted. *)
Definition LiveMetrics_default (cores : option nat) : LiveMetrics :=
  mkLiveMetrics (replicate (default 4%nat cores * 2) CounterShard_default) 0 0.

Definition assign_shard (l : LiveMetrics) : nat * LiveMetrics :=
  ((Z.to_nat (lm_next_shard l) mod length (lm_shards l))%nat,
   l <| lm_next_shard ::= fun n => n +u 1 |>).

(** The update of counter [c] of shard [index]. *)
Definition live_fetch_add (index : nat) (c : Counter) (n : Z) (l : LiveMetrics) : LiveMetrics :=
  l <| lm_shards ::= alter (shard_fetch_add c n) (index mod length (lm_shards l))%nat |>.

Definition claim_request (max : Z) (l : LiveMetrics) : bool * LiveMetrics :=
  (lm_requests_claimed l <? max, l <| lm_requests_claimed ::= fun n => n +u 1 |>).

Definition requests_exhausted (max : Z) (l : LiveMetrics) : bool :=
  max <=? lm_requests_claimed l.

Record LiveSnapshot := mkLiveSnapshot {
  sn_active_connections : Z;
  sn_connections_established : Z;
  sn_connections_failed : Z;
  sn_reconnects : Z;
  sn_messages_sent : Z;
  sn_messages_received : Z;
  sn_bytes_sent : Z;
  sn_bytes_received : Z;
  sn_total_errors : Z;
  sn_unsolicited_frames : Z;
}.

Definition LiveSnapshot_default : LiveSnapshot := mkLiveSnapshot 0 0 0 0 0 0 0 0 0 0.

Definition snapshot_get (c : Counter) (s : LiveSnapshot) : Z :=
  match c with
  | active_connections => sn_active_connections s
  | connections_established => sn_connections_established s
  | connections_failed => sn_connections_failed s
  | reconnects => sn_reconnects s
  | messages_sent => sn_messages_sent s
  | messages_received => sn_messages_received s
  | bytes_sent => sn_bytes_sent s
  | bytes_received => sn_bytes_received s
  | total_errors => sn_total_errors s
  | unsolicited_frames => sn_unsolicited_frames s
  end.

Definition snapshot_add (snap : LiveSnapshot) (shard : CounterShard) : LiveSnapshot :=
  mkLiveSnapshot
    (sn_active_connections snap +u cs_active_connections shard)
    (sn_connections_established snap +u cs_connections_established shard)
    (sn_connections_failed snap +u cs_connections_failed shard)
    (sn_reconnects snap +u cs_reconnects shard)
    (sn_messages_sent snap +u cs_messages_sent shard)
    (sn_messages_received snap +u cs_messages_received shard)
    (sn_bytes_sent snap +u cs_bytes_sent shard)
    (sn_bytes_received snap +u cs_bytes_received shard)
    (sn_total_errors snap +u cs_total_errors shard)
    (sn_unsolicited_frames snap +u cs_unsolicited_frames shard).

Definition snapshot (l : LiveMetrics) : LiveSnapshot :=
  fold_left snapshot_add (lm_shards l) LiveSnapshot_default.

(** ** Error scopes *)

Inductive ErrorScope := Attempt | SentMessage.

#[export] Instance ErrorScope_eq_dec : EqDecision ErrorScope.
Proof. solve_decision. Defined.

(** ** Lemmas *)

Lemma shard_load_fetch_add c c' n s :
  shard_load c' (shard_fetch_add c n s) =
    if decide (c = c') then shard_load c s +u n else shard_load c' s.
Proof. by destruct c, c'. Qed.

Lemma snapshot_get_eq c l :
  snapshot_get c (snapshot l) = wrap 64 (sum_Z (shard_load c <$> lm_shards l)).
Proof.
  unfold snapshot. rewrite (fold_left_add snapshot_add (snapshot_get c) (shard_load c)).
  - by destruct c.
  - intros s a. by destruct c.
  - destruct c; done.
Qed.

Lemma snapshot_get_range c l : is_u64 (snapshot_get c (snapshot l)).
Proof. rewrite snapshot_get_eq. apply u64_range. Qed.

#[export] Hint Resolve snapshot_get_range : rust.

(** Changing one element of a list moves a sum of wrapped values by the
    change. *)
Lemma wrap_sum_alter {A} (f : A -> Z) (g : A -> A) n i l :
  (i < length l)%nat -> (forall a, f (g a) = f a +u n) ->
  wrap 64 (sum_Z (f <$> alter g i l)) = wrap 64 (sum_Z (f <$> l) + n).
Proof.
  intros Hi Hg. revert i Hi.
  induction l as [|a l IH]; intros [|i] Hi; cbn [length] in Hi; try lia.
  - cbn [alter list_alter]. rewrite !fmap_cons, !sum_Z_cons, Hg. unfold u64_add.
    rewrite wrap_add_l. f_equal. lia.
  - cbn [alter list_alter]. rewrite !fmap_cons, !sum_Z_cons, <- wrap_add_r.
    change (list_alter g i l) with (alter g i l). rewrite IH by lia.
    rewrite wrap_add_r. f_equal. lia.
Qed.

Lemma fmap_alter_id {A B} (f : A -> B) (g : A -> A) i (l : list A) :
  (forall a, f (g a) = f a) -> f <$> alter g i l = f <$> l.
Proof.
  intros Hg. revert i. induction l as [|a l IH]; intros [|i]; [done|done| |].
  - cbn. by rewrite Hg.
  - cbn [alter list_alter]. rewrite !fmap_cons. f_equal. apply IH.
Qed.

Lemma snapshot_fetch_add index c c' n l :
  lm_shards l <> [] ->
  snapshot_get c' (snapshot (live_fetch_add index c n l)) =
    if decide (c = c') then snapshot_get c (snapshot l) +u n else snapshot_get c' (snapshot l).
Proof.
  intros Hne. rewrite !snapshot_get_eq. unfold live_fetch_add. cbn [lm_shards set_field].
  destruct (decide (c = c')) as [<-|Hc].
  - unfold u64_add. rewrite wrap_add_l. apply wrap_sum_alter.
    + apply Nat.mod_upper_bound. by destruct (lm_shards l).
    + intros s. by rewrite shard_load_fetch_add, decide_True.
  - rewrite fmap_alter_id; [done|]. intros s. by rewrite shard_load_fetch_add, decide_False.
Qed.

Lemma live_fetch_add_shards index c n l :
  length (lm_shards (live_fetch_add index c n l)) = length (lm_shards l).
Proof. apply length_alter. Qed.

Lemma snapshot_default cores c : snapshot_get c (snapshot (LiveMetrics_default cores)) = 0.
Proof.
  rewrite snapshot_get_eq. unfold LiveMetrics_default. cbn [lm_shards].
  generalize (default 4 cores * 2)%nat as n. intros n.
  assert (sum_Z (shard_load c <$> replicate n CounterShard_default) = 0) as ->; [|done].
  induction n as [|n IH]; [done|].
  rewrite replicate_S, fmap_cons, sum_Z_cons, IH. by destruct c.
Qed.

(** ** What a sequence of updates leaves *)

(** One worker's update of one counter of its shard. *)
Record LiveUpdate := mkLiveUpdate { lu_shard : nat; lu_counter : Counter; lu_amount : Z }.

Definition apply_update (l : LiveMetrics) (u : LiveUpdate) : LiveMetrics :=
  live_fetch_add (lu_shard u) (lu_counter u) (lu_amount u) l.

Definition counter_total (c : Counter) (us : list LiveUpdate) : Z :=
  sum_Z (lu_amount <$> filter (fun u => lu_counter u = c) us).

Lemma counter_total_cons c u us :
  counter_total c (u :: us) =
    (if decide (lu_counter u = c) then lu_amount u else 0) + counter_total c us.
Proof.
  unfold counter_total. rewrite filter_cons.
  destruct (decide (lu_counter u = c)); [|done].
  by rewrite fmap_cons, sum_Z_cons.
Qed.

Lemma snapshot_updates c us l :
  lm_shards l <> [] ->
  snapshot_get c (snapshot (fold_left apply_update us l)) =
    wrap 64 (snapshot_get c (snapshot l) + counter_total c us).
Proof.
  revert l. induction us as [|u us IH]; intros l Hne.
  - cbn [fold_left]. unfold counter_total. cbn. rewrite Z.add_0_r, wrap_id; auto with rust.
  - cbn [fold_left]. rewrite IH; [|unfold apply_update; intros H%length_zero_iff_nil;
      rewrite live_fetch_add_shards in H; by destruct (lm_shards l)].
    unfold apply_update. rewrite snapshot_fetch_add by done. rewrite counter_total_cons.
    destruct (decide (lu_counter u = c)) as [->|?].
    + unfold u64_add. rewrite wrap_add_l. f_equal. lia.
    + f_equal.
Qed.

(** From the start of a run, whatever shards the workers' updates go to
    and in whatever order, a snapshot reads for every counter the sum of the
    amounts added to it (modulo 2^64), and the order does not matter. *)
Theorem snapshot_counts_updates (cores : option nat) (Hcores : cores <> Some 0%nat)
    (c : Counter) (us us' : list LiveUpdate) (Hperm : us ≡ₚ us') :
  snapshot_get c (snapshot (fold_left apply_update us (LiveMetrics_default cores))) =
    wrap 64 (counter_total c us) /\
  snapshot_get c (snapshot (fold_left apply_update us' (LiveMetrics_default cores))) =
    wrap 64 (counter_total c us).
Proof.
  assert (lm_shards (LiveMetrics_default cores) <> []) as Hne.
  { unfold LiveMetrics_default. cbn [lm_shards].
    destruct cores as [[|n]|]; [done| |done]. cbn. done. }
  rewrite !snapshot_updates, !snapshot_default by done. split; [done|].
  do 2 f_equal. unfold counter_total. by rewrite Hperm.
Qed.

Lemma snapshot_counts_updates_witness :
  let us := [mkLiveUpdate 0 messages_sent 1; mkLiveUpdate 5 bytes_sent 10;
             mkLiveUpdate 1 messages_sent 1; mkLiveUpdate 3 active_connections (-1)] in
  snapshot_get messages_sent (snapshot (fold_left apply_update us (LiveMetrics_default (Some 2%nat))))
    = 2.
Proof.
  intros us. refine (proj1 (snapshot_counts_updates (Some 2%nat) _ messages_sent us us _)).
  - done.
  - reflexivity.
Defined.

(** ** Request claims *)

(** [n] claims, by whichever workers, and how many succeeded. *)
Fixpoint claims (max : Z) (n : nat) (l : LiveMetrics) : nat * LiveMetrics :=
  match n with
  | O => (O, l)
  | S n' =>
      let (ok, l1) := claim_request max l in
      let (granted, l2) := claims max n' l1 in
      ((if ok then S granted else granted), l2)
  end.

Lemma claims_spec max n l :
  0 <= lm_requests_claimed l -> lm_requests_claimed l + Z.of_nat n < 2 ^ 64 ->
  Z.of_nat (fst (claims max n l)) =
    Z.max 0 (Z.min (Z.of_nat n) (max - lm_requests_claimed l)) /\
  lm_requests_claimed (snd (claims max n l)) = lm_requests_claimed l + Z.of_nat n.
Proof.
  revert l. induction n as [|n IH]; intros l H0 Hn; [cbn; lia|].
  cbn [claims claim_request]. set (l1 := l <| lm_requests_claimed ::= _ |>).
  assert (lm_requests_claimed l1 = lm_requests_claimed l + 1) as Hl1.
  { unfold l1. cbn. apply u64_add_id; lia. }
  destruct (IH l1) as [IH1 IH2]; [lia|lia|].
  destruct (claims max n l1) as [granted l2]. cbn [fst snd] in *.
  rewrite IH2, Hl1. split; [|lia].
  destruct (Z.ltb_spec (lm_requests_claimed l) max); lia.
Qed.

(** Out of any number of claims (fewer than 2^64) against a limit of
    [max] from a fresh registry, exactly the smaller of the two is granted,
    so a run never sends more than [max] messages; and
    [requests_exhausted] is true from the [max]-th claim on. *)
Theorem claims_bounded (cores : option nat) (max : Z) (n : nat) (Hmax : is_u64 max)
    (Hn : Z.of_nat n < 2 ^ 64) :
  let (granted, l) := claims max n (LiveMetrics_default cores) in
  Z.of_nat granted = Z.min (Z.of_nat n) max /\
  requests_exhausted max l = (max <=? Z.of_nat n).
Proof.
  pose proof (claims_spec max n (LiveMetrics_default cores)) as H. cbn in H.
  destruct H as [H1 H2]; [lia|done|].
  destruct (claims max n (LiveMetrics_default cores)) as [granted l]. cbn [fst snd] in *.
  unfold requests_exhausted. rewrite H2. split; [ulia|done].
Qed.

Lemma claims_bounded_witness :
  let (granted, l) := claims 3 5 (LiveMetrics_default None) in
  Z.of_nat granted = 3 /\ requests_exhausted 3 l = true.
Proof. apply (claims_bounded None 3 5); [split; lia|lia]. Defined.
