(* ===== verification/HumanDuration.v ===== *)
(** * Durations as a user writes them (src/src/config.rs)

    [parse_human_duration] reads every duration option and scenario field. *)

From Stdlib Require Import ZArith Lia Ascii String DecimalString Floats.SpecFloat.
From stdpp Require Import base tactics strings numbers option list.
From S2P Require Import Prelude RustStd Str Live.

Local Open Scope Z_scope.
Local Open Scope rust_scope.

Definition f64_is_sign_negative (x : f64) : bool :=
  match x with
  | S754_zero s | S754_infinity s | S754_finite s _ _ => s
  | S754_nan => false
  end.

(** [Duration::try_from_secs_f64(x)] *)
Definition try_from_secs_f64 (x : f64) : option Z :=
  match x with
  | S754_zero _ => Some 0
  | S754_finite false _ _ =>
      let d := from_secs_f64 x in if as_secs d <=? u64_max then Some d else None
  | _ => None
  end.

Definition scale_duration (value : string) (nanos_per_unit : Z) : option Z :=
  match parse_u64 value with
  | Some whole =>
      let nanos := whole * nanos_per_unit in
      let secs := nanos / NANOS_PER_SEC in
      let subsec := nanos mod NANOS_PER_SEC in
      if secs <=? u64_max then Some (secs * NANOS_PER_SEC + subsec) else None
  | None =>
      num ← parse_f64 value;
      if f64_is_sign_negative num then None
      else try_from_secs_f64 (f64_div (f64_mul num (f64_of_Z nanos_per_unit)) (f64_of_Z NANOS_PER_SEC))
  end.

Definition UNITS : list (string * Z) :=
  [("ns"%string, 1); ("us"%string, 1000); (string_of_bytes [194; 181; 115], 1000);
   ("ms"%string, 1000000); ("s"%string, 1000000000); ("m"%string, 60000000000); ("h"%string, 3600000000000)].

(** The first unit [s] ends with decides; the rest of [s] must scale. *)
Fixpoint parse_with_units (units : list (string * Z)) (s : string) : option (option Z) :=
  match units with
  | [] => None
  | (suffix, nanos_per_unit) :: units' =>
      match strip_suffix suffix s with
      | Some value => Some (scale_duration value nanos_per_unit)
      | None => parse_with_units units' s
      end
  end.

Definition parse_human_duration (s : string) : result Z WsBlastError :=
  let s := trim s in
  if decide (s = ""%string) then Err (ConfigFailure (InvalidDuration "empty duration string"))
  else
    let invalid := ConfigFailure (InvalidDuration s) in
    match parse_with_units UNITS s with
    | Some (Some d) => Ok d
    | Some None => Err invalid
    | None =>
        match parse_u64 s with
        | Some secs => Ok (from_secs secs)
        | None => Err invalid
        end
    end.

(** ** What is accepted *)

Lemma from_secs_f64_nonneg m e : 0 <= from_secs_f64 (S754_finite false m e).
Proof.
  assert (0 < NANOS_PER_SEC) by done. cbn [from_secs_f64]. case_match.
  - bool_to_prop. pose proof (Z.pow_nonneg 2 e). nia.
  - bool_to_prop. unfold round_half_even_div.
    pose proof (Z.pow_pos_nonneg 2 (- e) ltac:(lia) ltac:(lia)).
    pose proof (Z.div_pos (Zpos m * NANOS_PER_SEC) (2 ^ (- e)) ltac:(lia) ltac:(lia)).
    destruct_matches; lia.
Qed.

Lemma try_from_secs_f64_range x d : try_from_secs_f64 x = Some d -> 0 <= d <= DURATION_MAX.
Proof.
  unfold try_from_secs_f64. intros H. destruct x as [|[]| |[] m e]; simplify_eq; [done|].
  destruct_matches; [|done]. simplify_eq. bool_to_prop. pose proof (from_secs_f64_nonneg m e).
  unfold as_secs, DURATION_MAX, NANOS_PER_SEC in *. revert H Heqb.
  generalize (from_secs_f64 (S754_finite false m e)) u64_max. intros d M ??.
  Z.to_euclidean_division_equations. lia.
Qed.

Lemma scale_duration_range value k d : 0 < k -> scale_duration value k = Some d -> 0 <= d <= DURATION_MAX.
Proof.
  unfold scale_duration. intros Hk. destruct (parse_u64 value) as [n|] eqn:E.
  - case_match; [|done]. intros [= <-]. bool_to_prop. apply parse_uint_range in E.
    assert (0 <= n * k) by nia. unfold DURATION_MAX, NANOS_PER_SEC in *.
    generalize dependent u64_max. intros. Z.to_euclidean_division_equations. nia.
  - destruct (parse_f64 value) as [x|]; [|done]. cbn. case_match; [done|]. apply try_from_secs_f64_range.
Qed.

Lemma parse_human_duration_range s d : parse_human_duration s = Ok d -> 0 <= d <= DURATION_MAX.
Proof.
  unfold parse_human_duration. case_decide; [done|]. generalize (trim s). intros t.
  assert (Forall (fun u => 0 < u.2) UNITS) as Hu by (repeat constructor).
  destruct (parse_with_units UNITS t) as [[x|]|] eqn:E; [|done|].
  - intros [= ->]. induction Hu as [|[suffix k] units Hk Hu IH]; [done|]. cbn in E.
    destruct (strip_suffix suffix t); [|auto]. injection E as E. by eapply scale_duration_range in E.
  - destruct (parse_u64 t) as [n|] eqn:En; [|done]. intros [= <-]. apply parse_uint_range in En.
    unfold from_secs, DURATION_MAX, NANOS_PER_SEC. lia.
Qed.

(** ** Reading back a whole number of a unit *)

Lemma strip_suffix_app_r p t q :
  (String.length p <= String.length q)%nat ->
  strip_suffix p (t ++ q) = (fun r => t ++ r)%string <$> strip_suffix p q.
Proof.
  intros Hl. induction t as [|c t IH].
  - rewrite app_string_nil. destruct (strip_suffix p q); done.
  - rewrite app_string_cons. cbn [strip_suffix]. rewrite decide_False, IH.
    + by destruct (strip_suffix p q).
    + intros Heq. apply (f_equal String.length) in Heq. cbn in Heq. rewrite length_string_app in Heq. lia.
Qed.

Lemma strip_suffix_longer a p s : strip_suffix p s = None -> strip_suffix (a ++ p) s = None.
Proof.
  intros Hn. destruct (strip_suffix (a ++ p) s) as [t|] eqn:E; [|done].
  apply strip_suffix_Some in E. by rewrite E, <- app_string_assoc, strip_suffix_app in Hn.
Qed.

(** One unit of the table against a text of a known ending. *)
Ltac strip_known :=
  rewrite strip_suffix_app_r by (vm_compute; lia);
  match goal with |- context [strip_suffix ?p ?q] =>
    let v := eval vm_compute in (strip_suffix p q) in
    replace (strip_suffix p q) with v by (vm_compute; reflexivity)
  end; cbn [fmap option_fmap option_map].

(** After a digit, each suffix is the first unit that strips. *)
Lemma parse_with_units_digit suffix k t c :
  (suffix, k) ∈ UNITS -> is_digit c = true ->
  parse_with_units UNITS (t ++ String c suffix) = Some (scale_duration (t ++ String c "") k).
Proof.
  intros Hin Hc. unfold UNITS.
  assert (forall q, strip_suffix (String (ascii_of_byte 181) "s") (t ++ q) = None ->
    strip_suffix (string_of_bytes [194; 181; 115]) (t ++ q) = None) as Hmu.
  { intros q. apply (strip_suffix_longer (String (ascii_of_byte 194) "")). }
  repeat (apply elem_of_cons in Hin as [[= -> ->]|Hin]); [..|by apply not_elem_of_nil in Hin].
  all: destruct c as [[] [] [] [] [] [] [] []]; vm_compute in Hc; try done; clear Hc.
  all: cbn [parse_with_units]; repeat (strip_known || rewrite Hmu by (by strip_known)); reflexivity.
Qed.

Lemma parse_with_units_digits t c :
  is_digit c = true -> parse_with_units UNITS (t ++ String c "") = None.
Proof.
  intros Hc. unfold UNITS.
  assert (forall a p, strip_suffix p (t ++ String c "") = None ->
    strip_suffix (a ++ p) (t ++ String c "") = None) as Hlong by (intros; by apply strip_suffix_longer).
  assert (forall p q, strip_suffix (p ++ String q "") (t ++ String c "") = None \/ c = q) as Hlast.
  { intros p q. destruct (decide (c = q)); [by right|left]. apply Hlong.
    rewrite strip_suffix_app_r by done. cbn. rewrite decide_False by congruence. by destruct q. }
  assert (forall q, c = q -> is_digit q = true) as Hq by (by intros q <-).
  cbn [parse_with_units].
  destruct (Hlast "n"%string "s"%char) as [H1| ->]; [|done]. destruct (Hlast "u"%string "s"%char) as [H2| ->]; [|done].
  destruct (Hlast (string_of_bytes [194; 181]) "s"%char) as [H3| ->]; [|done].
  destruct (Hlast "m"%string "s"%char) as [H4| ->]; [|done]. destruct (Hlast ""%string "s"%char) as [H5| ->]; [|done].
  destruct (Hlast ""%string "m"%char) as [H6| ->]; [|done]. destruct (Hlast ""%string "h"%char) as [H7| ->]; [|done].
  change ("n" ++ "s")%string with "ns"%string in H1. change ("u" ++ "s")%string with "us"%string in H2.
  change (string_of_bytes [194; 181] ++ "s")%string with (string_of_bytes [194; 181; 115]) in H3.
  change ("m" ++ "s")%string with "ms"%string in H4. rewrite app_string_nil in H5, H6, H7.
  by rewrite H1, H2, H3, H4, H5, H6, H7.
Qed.

Lemma scale_duration_display n k :
  is_u64 n -> 0 < k ->
  scale_duration (display_u64 n) k = if n * k <=? DURATION_MAX then Some (n * k) else None.
Proof.
  intros Hn Hk. unfold scale_duration. rewrite parse_u64_display by done.
  assert (0 <= n * k) by (unfold is_uint in Hn; nia).
  replace (n * k / NANOS_PER_SEC * NANOS_PER_SEC + n * k mod NANOS_PER_SEC) with (n * k)
    by (rewrite (Z.mul_comm (_ / _)); apply Z.div_mod; done).
  replace (n * k / NANOS_PER_SEC <=? u64_max) with (n * k <=? DURATION_MAX); [done|].
  apply Bool.eq_iff_eq_true. rewrite !Z.leb_le. unfold DURATION_MAX, NANOS_PER_SEC.
  generalize (n * k) u64_max. intros. Z.to_euclidean_division_equations. lia.
Qed.

(** The suffixes end in a letter, and a text of digits and a suffix has no
    blank at either end. *)
Lemma trim_number n suffix k :
  (suffix, k) ∈ UNITS \/ suffix = ""%string ->
  trim (display_u64 n ++ suffix) = (display_u64 n ++ suffix)%string.
Proof.
  intros Hs. destruct (display_head n) as (c & s & Hd & Hc). apply digit_word in Hc.
  rewrite Hd, app_string_cons. destruct Hs as [Hin| ->].
  - assert (exists t d, suffix = (t ++ String d "")%string /\ is_word_byte (byte_of_ascii d) = true) as (t & d & -> & Hw).
    { repeat (apply elem_of_cons in Hin as [[= -> ->]|Hin]); [..|by apply not_elem_of_nil in Hin].
      - by exists "n"%string, "s"%char.
      - by exists "u"%string, "s"%char.
      - by exists (string_of_bytes [194; 181]), "s"%char.
      - by exists "m"%string, "s"%char.
      - by exists ""%string, "s"%char.
      - by exists ""%string, "m"%char.
      - by exists ""%string, "h"%char. }
    eapply (trim_word c _ d (String c (s ++ t))); [done|done|].
    by rewrite app_string_cons, app_string_assoc.
  - destruct (string_of_uint_last _ (to_uint_nonnil (Z.to_N n))) as (t & d & Ht & Hw).
    eapply (trim_word c _ d t); [done|by apply digit_word|]. rewrite <- Ht.
    change (NilEmpty.string_of_uint (N.to_uint (Z.to_N n))) with (display_u64 n).
    rewrite Hd. f_equal. clear. induction s as [|c s IH]; [done|]. by rewrite app_string_cons, IH.
Qed.

(** A whole number written with a unit is read back exactly: the text of
    a 64-bit [n] followed by a unit's suffix is a duration of [n] times that
    unit, and an error (naming the text) when that does not fit a
    [Duration]; without a suffix it is [n] seconds. *)
Theorem human_duration_roundtrip (n : Z) (suffix : string) (k : Z)
    (Hn : is_u64 n) (Hs : (suffix, k) ∈ UNITS) :
  parse_human_duration (display_u64 n ++ suffix) =
    (if n * k <=? DURATION_MAX then Ok (n * k)
     else Err (ConfigFailure (InvalidDuration (display_u64 n ++ suffix)))) /\
  parse_human_duration (display_u64 n ++ "") = Ok (n * NANOS_PER_SEC).
Proof.
  destruct (string_of_uint_last _ (to_uint_nonnil (Z.to_N n))) as (t & d & Ht & Hd).
  change (NilEmpty.string_of_uint (N.to_uint (Z.to_N n))) with (display_u64 n) in Ht.
  assert (forall s, (display_u64 n ++ s)%string <> ""%string) as Hne.
  { intros s. destruct (display_head n) as (c & u & -> & _). by rewrite app_string_cons. }
  assert (0 < k) as Hk.
  { assert (Forall (fun u => 0 < u.2) UNITS) as Hu by (repeat constructor).
    rewrite Forall_forall in Hu. apply (Hu _ Hs). }
  unfold parse_human_duration. split.
  - rewrite (trim_number n suffix k) by auto. rewrite decide_False by auto. rewrite Ht at 1.
    rewrite app_string_assoc, app_string_cons, app_string_nil, (parse_with_units_digit _ k) by done.
    rewrite <- Ht, scale_duration_display by done. by destruct (n * k <=? DURATION_MAX).
  - rewrite (trim_number n "" 1) by auto. rewrite decide_False by auto.
    assert ((display_u64 n ++ "")%string = display_u64 n) as ->.
    { generalize (display_u64 n). intros s. induction s as [|c s IH]; [done|]. by rewrite app_string_cons, IH. }
    rewrite Ht at 1. rewrite parse_with_units_digits by done. by rewrite parse_u64_display.
Qed.

Lemma human_duration_roundtrip_witness :
  parse_human_duration (display_u64 250 ++ "ms") = Ok 250000000 /\
  parse_human_duration (display_u64 u64_max ++ "h") =
    Err (ConfigFailure (InvalidDuration (display_u64 u64_max ++ "h"))).
Proof.
  split.
  - apply (human_duration_roundtrip 250 "ms" 1000000); [by vm_compute|].
    unfold UNITS. do 3 apply list_elem_of_further. apply list_elem_of_here.
  - apply (human_duration_roundtrip u64_max "h" 3600000000000); [by vm_compute|].
    unfold UNITS. do 6 apply list_elem_of_further. apply list_elem_of_here.
Defined.

Example fractional_durations :
  parse_human_duration " 1.5ms " = Ok 1500000 /\ parse_human_duration "0.5us" = Ok 500 /\
  parse_human_duration "-1s" = Err (ConfigFailure (InvalidDuration "-1s")) /\
  parse_human_duration "" = Err (ConfigFailure (InvalidDuration "empty duration string")).
Proof. vm_compute. repeat split. Qed.
