(* ===== verification/TimeSeries.v ===== *)
(** * The time series of a run (src/src/timeseries.rs)

    Counters per interval come from snapshots a sampler takes at each
    boundary, latency from an [IntervalStore] every worker hands its samples
    to.  [build] turns both into points, [append] puts scenario phases one
    after the other and [merge_parallel] adds up the machines of a
    distributed run.  [LiveState] is the state machine behind the live
    readers.  The clock is an argument: [now] is what [Instant::now()]
    returns. *)

From Stdlib Require Import ZArith Lia Ascii String.
From stdpp Require Import base tactics strings numbers option gmap sorting list.
From S2P Require Import Prelude RustStd Hdr Live.

Local Open Scope Z_scope.
Local Open Scope rust_scope.

Definition MAX_POINTS : Z := 600.
Definition INTERVAL_SIGFIG : Z := 2.

Definition div_ceil (a b : Z) : Z := (a + b - 1) / b.

Definition interval_for (duration : Z) : Z :=
  let secs := Z.max (div_ceil (as_secs duration) MAX_POINTS) 1 in
  from_secs secs.

Definition interval_bounds : HdrBounds := mkBounds 1 60000000 INTERVAL_SIGFIG.
Definition interval_histogram {H} `{Hdr H} : option H := hdr_new interval_bounds.

(** ** The store of interval histograms *)

Record IntervalStore (H : Type) := mkIntervalStore {
  is_start : Z;
  is_interval : Z;
  is_buckets : gmap Z H;
}.
Arguments mkIntervalStore {H} _ _ _.
Arguments is_start {H} _.
Arguments is_interval {H} _.
Arguments is_buckets {H} _.
#[export] Instance IntervalStore_eta {H} : Settable (IntervalStore H) := fun s =>
  mkIntervalStore (is_start s) (is_interval s) (is_buckets s).

Definition IntervalStore_new {H} (start interval : Z) : IntervalStore H :=
  mkIntervalStore start interval ∅.

(** The interval is at least a second ([interval_for]), so the division is
    one by a positive number. *)
Definition bucket_of {H} (s : IntervalStore H) (at_ : Z) : Z :=
  as_u64 (saturating_duration_since at_ (is_start s) / is_interval s).

Definition IntervalStore_bucket {H} (s : IntervalStore H) (bucket : Z) : option H :=
  is_buckets s !! bucket.
Definition IntervalStore_buckets {H} (s : IntervalStore H) : gmap Z H := is_buckets s.

Definition absorb_samples {H} `{Hdr H} (bucket : Z) (samples : list Z) (s : IntervalStore H)
  : IntervalStore H :=
  match match is_buckets s !! bucket with
        | Some hist => Some hist
        | None => interval_histogram
        end with
  | Some hist =>
      s <| is_buckets ::= <[bucket := fold_left (fun h micros => hdr_record' micros h) samples hist]> |>
  | None => s
  end.

Record IntervalLatency := mkIntervalLatency {
  il_count : Z; il_p50_us : Z; il_p90_us : Z; il_p99_us : Z; il_max_us : Z;
}.
Definition IntervalLatency_default : IntervalLatency := mkIntervalLatency 0 0 0 0 0.

Definition IntervalLatency_from_histogram {H} `{Hdr H} (hist : option H) : IntervalLatency :=
  match hist with
  | Some hist =>
      if negb (hdr_is_empty hist)
      then mkIntervalLatency (hdr_len hist)
             (hdr_value_at_quantile hist (f64_lit 50 100))
             (hdr_value_at_quantile hist (f64_lit 90 100))
             (hdr_value_at_quantile hist (f64_lit 99 100))
             (hdr_max hist)
      else IntervalLatency_default
  | None => IntervalLatency_default
  end.

Definition latency_of {H} `{Hdr H} (s : IntervalStore H) (bucket : Z) : IntervalLatency :=
  IntervalLatency_from_histogram (is_buckets s !! bucket).

(** ** A worker's samples of its current interval *)

Definition FLUSH_SAMPLES : nat := 64.

(** The store a recorder points to is the run's, passed along with it. *)
Record IntervalRecorder := mkIntervalRecorder {
  ir_bucket : Z;
  ir_samples : list Z;
}.

Definition IntervalRecorder_new : IntervalRecorder := mkIntervalRecorder 0 [].

Section Recorder.
Context {H : Type} `{Hdr H}.

Definition IntervalRecorder_flush (st : IntervalRecorder * IntervalStore H)
  : IntervalRecorder * IntervalStore H :=
  let (r, store) := st in
  match ir_samples r with
  | [] => (r, store)
  | _ :: _ => (mkIntervalRecorder (ir_bucket r) [],
               absorb_samples (ir_bucket r) (ir_samples r) store)
  end.

Definition IntervalRecorder_record (now micros : Z) (st : IntervalRecorder * IntervalStore H)
  : IntervalRecorder * IntervalStore H :=
  let bucket := bucket_of st.2 now in
  let st :=
    if bucket =? ir_bucket st.1 then st
    else let (r, store) := IntervalRecorder_flush st in
         (mkIntervalRecorder bucket (ir_samples r), store) in
  let st := (mkIntervalRecorder (ir_bucket st.1) (ir_samples st.1 ++ [micros]), st.2) in
  if decide (length (ir_samples st.1) = FLUSH_SAMPLES)
  then IntervalRecorder_flush st else st.

End Recorder.

(** ** Counter samples *)

(** The sampling task: the baseline, then one sample per tick it takes
    before the run is cancelled; a tick is the instant and the counters it
    reads. *)
Definition CounterSampler_task (start : Z) (baseline : LiveMetrics) (ticks : list (Z * LiveMetrics))
  : list (Z * LiveSnapshot) :=
  (0, snapshot baseline) ::
    ((fun t => (saturating_duration_since t.1 start, snapshot t.2)) <$> ticks).

(** [samples] is [None] when the task panicked. *)
Definition CounterSampler_finish (samples : option (list (Z * LiveSnapshot))) (live : LiveMetrics)
    (end_ : Z) : list (Z * LiveSnapshot) :=
  let samples := default [] samples in
  let end_ := match last samples with
              | None => end_
              | Some (last, _) => Z.max end_ last
              end in
  samples ++ [(end_, snapshot live)].

(** ** Points *)

Record IntervalLag := mkIntervalLag { ig_samples : Z; ig_p99_us : Z; ig_max_us : Z }.

Record TimeSeriesPoint := mkTimeSeriesPoint {
  tp_start_secs : f64;
  tp_duration_secs : f64;
  tp_active_connections : Z;
  tp_messages_sent : Z;
  tp_messages_recv : Z;
  tp_bytes_sent : Z;
  tp_bytes_recv : Z;
  tp_errors : Z;
  tp_throughput_msg_per_sec : f64;
  tp_latency : IntervalLatency;
  tp_generator_lag : option IntervalLag;
}.
#[export] Instance TimeSeriesPoint_eta : Settable TimeSeriesPoint := fun p =>
  mkTimeSeriesPoint (tp_start_secs p) (tp_duration_secs p) (tp_active_connections p)
    (tp_messages_sent p) (tp_messages_recv p) (tp_bytes_sent p) (tp_bytes_recv p) (tp_errors p)
    (tp_throughput_msg_per_sec p) (tp_latency p) (tp_generator_lag p).

Definition TimeSeriesPoint_default : TimeSeriesPoint :=
  mkTimeSeriesPoint f64_zero f64_zero 0 0 0 0 0 0 f64_zero IntervalLatency_default None.

Record TimeSeries := mkTimeSeries {
  ts_interval_secs : f64;
  ts_latency_basis : string;
  ts_points : list TimeSeriesPoint;
}.
Definition TimeSeries_default : TimeSeries := mkTimeSeries f64_zero "" [].

(** The smallest duration rates are divided by, in seconds. *)
Definition MIN_SECS : f64 := f64_lit 1 10000.

Definition throughput (sent recv : Z) (secs : f64) : f64 :=
  f64_div (f64_of_Z (Z.max sent recv)) (f64_max secs MIN_SECS).

Section Build.
Context {H : Type} `{Hdr H}.

Definition build_point (buckets : gmap Z H) (interval_nanos : Z)
    (prev_at : Z) (prev : LiveSnapshot) (duration : Z) (snap : LiveSnapshot) : TimeSeriesPoint :=
  let messages_sent := u64_saturating_sub (sn_messages_sent snap) (sn_messages_sent prev) in
  let messages_recv := u64_saturating_sub (sn_messages_received snap) (sn_messages_received prev) in
  mkTimeSeriesPoint (as_secs_f64 prev_at) (as_secs_f64 duration)
    (sn_active_connections snap) messages_sent messages_recv
    (u64_saturating_sub (sn_bytes_sent snap) (sn_bytes_sent prev))
    (u64_saturating_sub (sn_bytes_received snap) (sn_bytes_received prev))
    (u64_saturating_sub (sn_total_errors snap) (sn_total_errors prev))
    (throughput messages_sent messages_recv (as_secs_f64 duration))
    (IntervalLatency_from_histogram (buckets !! as_u64 (prev_at / interval_nanos)))
    None.

(** The loop over the samples after the baseline. *)
Fixpoint build_points (buckets : gmap Z H) (interval_nanos : Z)
    (previous : Z * LiveSnapshot) (rest : list (Z * LiveSnapshot)) : list TimeSeriesPoint :=
  match rest with
  | [] => []
  | (at_, snap) :: rest' =>
      let (prev_at, prev) := previous in
      let duration := duration_saturating_sub at_ prev_at in
      if duration =? 0 then build_points buckets interval_nanos previous rest'
      else build_point buckets interval_nanos prev_at prev duration snap ::
             build_points buckets interval_nanos (at_, snap) rest'
  end.

Definition fold_into (last tail : TimeSeriesPoint) : TimeSeriesPoint :=
  let last := last
    <| tp_duration_secs ::= fun d => f64_add d (tp_duration_secs tail) |>
    <| tp_active_connections := tp_active_connections tail |>
    <| tp_messages_sent ::= fun n => n +u tp_messages_sent tail |>
    <| tp_messages_recv ::= fun n => n +u tp_messages_recv tail |>
    <| tp_bytes_sent ::= fun n => n +u tp_bytes_sent tail |>
    <| tp_bytes_recv ::= fun n => n +u tp_bytes_recv tail |>
    <| tp_errors ::= fun n => n +u tp_errors tail |> in
  last <| tp_throughput_msg_per_sec :=
    throughput (tp_messages_sent last) (tp_messages_recv last) (tp_duration_secs last) |>.

(** Folds a last point shorter than a twentieth of the interval into the one
    before it. *)
Definition fold_sliver (interval : Z) (points : list TimeSeriesPoint) : list TimeSeriesPoint :=
  match reverse points with
  | tail :: last :: init =>
      if f64_ltb (tp_duration_secs tail) (f64_div (as_secs_f64 interval) (f64_of_Z 20))
      then reverse (fold_into last tail :: init) else points
  | _ => points
  end.

Definition build (samples : list (Z * LiveSnapshot)) (store : IntervalStore H)
    (latency_basis : string) : TimeSeries :=
  match samples with
  | [] => TimeSeries_default
  | first :: rest =>
      let interval_nanos := Z.max (is_interval store) 1 in
      mkTimeSeries (as_secs_f64 (is_interval store)) latency_basis
        (fold_sliver (is_interval store)
           (build_points (is_buckets store) interval_nanos first rest))
  end.

End Build.

Definition append (self next : TimeSeries) (offset : Z) : TimeSeries :=
  let '(interval_secs, latency_basis) :=
    match ts_points self with
    | [] => (ts_interval_secs next, ts_latency_basis next)
    | _ => (ts_interval_secs self,
            if decide (ts_latency_basis self = ts_latency_basis next)
            then ts_latency_basis self else "mixed"%string)
    end in
  let offset := as_secs_f64 offset in
  mkTimeSeries interval_secs latency_basis
    (ts_points self ++
       ((fun point => point <| tp_start_secs ::= fun s => f64_add s offset |>) <$> ts_points next)).

(** ** Machines that ran at the same time *)

Record SeriesPart (H : Type) := mkSeriesPart { sp_series : TimeSeries; sp_buckets : gmap Z H }.
Arguments mkSeriesPart {H} _ _.
Arguments sp_series {H} _.
Arguments sp_buckets {H} _.

Definition lag_worse (lag worst : IntervalLag) : bool :=
  (ig_p99_us worst <? ig_p99_us lag) ||
  ((ig_p99_us worst =? ig_p99_us lag) && (ig_max_us worst <? ig_max_us lag)).

Definition merge_lag (lag merged : option IntervalLag) : option IntervalLag :=
  match lag with
  | Some lag' =>
      match merged with
      | None => lag
      | Some worst => if lag_worse lag' worst then lag else merged
      end
  | None => merged
  end.

Definition merge_point (merged : option TimeSeriesPoint) (point : TimeSeriesPoint)
  : TimeSeriesPoint :=
  (default (TimeSeriesPoint_default <| tp_start_secs := tp_start_secs point |>) merged)
    <| tp_start_secs ::= fun s => f64_min s (tp_start_secs point) |>
    <| tp_duration_secs ::= fun d => f64_max d (tp_duration_secs point) |>
    <| tp_active_connections ::= fun n => n +u tp_active_connections point |>
    <| tp_messages_sent ::= fun n => n +u tp_messages_sent point |>
    <| tp_messages_recv ::= fun n => n +u tp_messages_recv point |>
    <| tp_bytes_sent ::= fun n => n +u tp_bytes_sent point |>
    <| tp_bytes_recv ::= fun n => n +u tp_bytes_recv point |>
    <| tp_errors ::= fun n => n +u tp_errors point |>
    <| tp_generator_lag ::= merge_lag (tp_generator_lag point) |>.

Definition series_index_of (interval_secs start_secs : f64) : Z :=
  if f64_ltb f64_zero interval_secs
  then f64_round_as_u64 (f64_div start_secs interval_secs) else 0.

Section Merge.
Context {H : Type} `{Hdr H}.

Definition merge_points (interval_secs : f64) (points : gmap Z TimeSeriesPoint)
    (part : SeriesPart H) : gmap Z TimeSeriesPoint :=
  fold_left (fun points point =>
    let k := series_index_of interval_secs (tp_start_secs point) in
    <[k := merge_point (points !! k) point]> points) (ts_points (sp_series part)) points.

Definition merge_bucket (existing : option H) (hist : H) : H :=
  match existing with Some existing => hdr_add' existing hist | None => hist end.

Definition merge_buckets (histograms : gmap Z H) (part : SeriesPart H) : gmap Z H :=
  fold_left (fun hs e => <[e.1 := merge_bucket (hs !! e.1) e.2]> hs)
    (btree_entries (sp_buckets part)) histograms.

Definition finish_point (histograms : gmap Z H) (e : Z * TimeSeriesPoint) : TimeSeriesPoint :=
  let (index, point) := e in
  point
    <| tp_throughput_msg_per_sec :=
         throughput (tp_messages_sent point) (tp_messages_recv point) (tp_duration_secs point) |>
    <| tp_latency := IntervalLatency_from_histogram (histograms !! index) |>.

Definition has_points (part : SeriesPart H) : bool :=
  match ts_points (sp_series part) with [] => false | _ => true end.

Definition merge_parallel (parts : list (SeriesPart H)) : TimeSeries :=
  match List.find has_points parts with
  | None => match parts with part :: _ => sp_series part | [] => TimeSeries_default end
  | Some first =>
      let interval_secs := ts_interval_secs (sp_series first) in
      let points := fold_left (merge_points interval_secs) parts ∅ in
      let histograms := fold_left merge_buckets parts ∅ in
      mkTimeSeries interval_secs (ts_latency_basis (sp_series first))
        (finish_point histograms <$> btree_entries points)
  end.

End Merge.

(** ** Properties of the interval length *)

(** The interval is the smallest whole number of seconds (at least one)
    of which [MAX_POINTS] cover the whole seconds of the run, so no run has
    more than [MAX_POINTS] full intervals. *)
Theorem interval_for_least (d : Z) (Hd : 0 <= d) :
  exists s, interval_for d = from_secs s /\ 1 <= s /\
    as_secs d <= s * MAX_POINTS /\
    (forall s', 1 <= s' < s -> s' * MAX_POINTS < as_secs d) /\
    d / interval_for d <= MAX_POINTS.
Proof.
  unfold interval_for. set (s := Z.max (div_ceil (as_secs d) MAX_POINTS) 1).
  assert (0 <= as_secs d) as Hs by (unfold as_secs, NANOS_PER_SEC; Z.to_euclidean_division_equations; lia).
  assert (as_secs d <= s * MAX_POINTS /\ (forall s', 1 <= s' < s -> s' * MAX_POINTS < as_secs d)) as [H1 H2].
  { unfold s, div_ceil, MAX_POINTS. split; intros; Z.to_euclidean_division_equations; lia. }
  assert (1 <= s) as H3 by lia.
  exists s. split_and!; [done|done|done|exact H2|].
  unfold from_secs. apply Z.lt_succ_r, Z.div_lt_upper_bound; [unfold NANOS_PER_SEC; lia|].
  assert (d < (as_secs d + 1) * NANOS_PER_SEC) as H4
    by (unfold as_secs, NANOS_PER_SEC; Z.to_euclidean_division_equations; lia).
  unfold MAX_POINTS, NANOS_PER_SEC in *. nia.
Qed.

Lemma interval_for_least_witness : interval_for (from_secs 601) / NANOS_PER_SEC = 2.
Proof.
  destruct (interval_for_least (from_secs 601)) as (s & -> & H1 & H2 & H3 & _); [done|].
  unfold from_secs. rewrite Z.div_mul by done.
  assert (s = 1 \/ s = 2 \/ 2 < s) as [->|[->|Hs]] by lia; [|reflexivity|].
  - exfalso. revert H2. vm_compute. auto.
  - specialize (H3 2 ltac:(lia)). vm_compute in H3. discriminate.
Defined.

(** ** Every sample reaches its interval *)

Inductive IntervalEvent :=
| RecordAt (worker : nat) (now micros : Z)
| FlushWorker (worker : nat).

Section Recording.
Context {H : Type} `{HdrLaws H}.
#[local] Existing Instance hdr_equiv.

(** One worker's call, on every worker's recorder and the store they share. *)
Definition on_recorder (w : nat)
    (f : IntervalRecorder * IntervalStore H -> IntervalRecorder * IntervalStore H)
    (st : list IntervalRecorder * IntervalStore H) : list IntervalRecorder * IntervalStore H :=
  match st.1 !! w with
  | Some r => let (r', store') := f (r, st.2) in (<[w := r']> st.1, store')
  | None => st
  end.
Definition interval_step (st : list IntervalRecorder * IntervalStore H) (e : IntervalEvent)
  : list IntervalRecorder * IntervalStore H :=
  match e with
  | RecordAt w now micros => on_recorder w (IntervalRecorder_record now micros) st
  | FlushWorker w => on_recorder w IntervalRecorder_flush st
  end.
Definition flush_all (st : list IntervalRecorder * IntervalStore H)
  : list IntervalRecorder * IntervalStore H :=
  fold_left interval_step (FlushWorker <$> seq 0 (length st.1)) st.

(** The samples of the events whose instant falls in interval [b]. *)
Definition recorded_in (n : nat) (store : IntervalStore H) (b : Z) (es : list IntervalEvent) : list Z :=
  es ≫= fun e => match e with
    | RecordAt w now micros =>
        if decide ((w < n)%nat /\ bucket_of store now = b) then [micros] else []
    | FlushWorker _ => []
    end.

Definition event_ok (e : IntervalEvent) : Prop :=
  match e with RecordAt _ _ micros => 1 <= micros <= 60000000 | FlushWorker _ => True end.

(** The store holds exactly the samples [absorbed b] of each interval. *)
Definition holds (store : IntervalStore H) (absorbed : Z -> list Z) : Prop :=
  forall b, Forall (in_bounds interval_bounds) (absorbed b) /\
    match is_buckets store !! b with
    | None => absorbed b = []
    | Some h => hdr_bounds h = interval_bounds /\ absorbed b <> [] /\
        forall v, in_bounds interval_bounds v ->
          hdr_count_at h v = u64_saturating_add 0 (class_count interval_bounds v (absorbed b))
    end.

Lemma interval_bounds_used : used_bounds interval_bounds.
Proof. split_and!; [done|done|by left]. Qed.

Lemma holds_absorb store absorbed bucket samples :
  holds store absorbed -> samples <> [] -> Forall (in_bounds interval_bounds) samples ->
  holds (absorb_samples bucket samples store)
    (fun b => if decide (b = bucket) then absorbed b ++ samples else absorbed b).
Proof.
  intros Hh Hne Hs b. destruct (Hh b) as [Hb Hm]. case_decide as Heq; [subst b|].
  - split; [by apply Forall_app|]. unfold absorb_samples.
    destruct (is_buckets store !! bucket) as [h|].
    + destruct Hm as (Hbd & Hnil & Hc). cbn [is_buckets set_field]. rewrite lookup_insert_eq.
      destruct (hdr_record_all_spec samples h) as [Hb' Hc'];
        [rewrite Hbd; apply interval_bounds_used|by rewrite Hbd|]. rewrite Hbd in *.
      split_and!; [done|by destruct (absorbed bucket)|]. intros v Hv.
      rewrite class_count_app. fold (hdr_record_all samples h). rewrite Hc', Hc by done.
      pose proof (class_count_nonneg interval_bounds v samples).
      pose proof (class_count_nonneg interval_bounds v (absorbed bucket)).
      rewrite u64_saturating_add_assoc by lia. done.
    + destruct (hdr_new_spec interval_bounds interval_bounds_used) as (h & Hnew & Hbd & H0').
      unfold interval_histogram. rewrite Hnew. cbn [is_buckets set_field]. rewrite lookup_insert_eq.
      destruct (hdr_record_all_spec samples h) as [Hb' Hc'];
        [rewrite Hbd; apply interval_bounds_used|by rewrite Hbd|]. rewrite Hbd in *.
      rewrite Hm. split_and!; [done|done|]. intros v Hv. fold (hdr_record_all samples h).
      rewrite Hc', H0' by done. done.
  - split; [done|]. unfold absorb_samples.
    destruct (is_buckets store !! bucket); [|destruct interval_histogram; [|done]];
      cbn [is_buckets set_field]; by rewrite lookup_insert_ne.
Qed.

Lemma absorb_bucket_of bucket samples store now :
  bucket_of (absorb_samples bucket samples store) now = bucket_of store now.
Proof.
  unfold absorb_samples. destruct (is_buckets store !! bucket); [done|].
  by destruct interval_histogram.
Qed.

(** A recorder between calls: fewer than a batch, all within bounds. *)
Definition recorder_ok (r : IntervalRecorder) : Prop :=
  (length (ir_samples r) < FLUSH_SAMPLES)%nat /\ Forall (in_bounds interval_bounds) (ir_samples r).

Definition held (b : Z) (r : IntervalRecorder) : list Z :=
  if decide (ir_bucket r = b) then ir_samples r else [].

Lemma flush_spec r store absorbed :
  holds store absorbed -> Forall (in_bounds interval_bounds) (ir_samples r) ->
  let st := IntervalRecorder_flush (r, store) in
  exists absorbed', holds st.2 absorbed' /\
    (forall b, absorbed' b = absorbed b ++ held b r) /\
    ir_samples st.1 = [] /\ ir_bucket st.1 = ir_bucket r /\
    forall now, bucket_of st.2 now = bucket_of store now.
Proof.
  intros Hh Hs. unfold IntervalRecorder_flush, held. destruct (ir_samples r) as [|s ss] eqn:E.
  - exists absorbed. split_and!; [done| |done|done|done].
    intros b. case_decide; by rewrite app_nil_r.
  - eexists. split_and!; [by apply holds_absorb| |done|done|].
    + intros b. cbn beta. repeat case_decide; subst; try done. by rewrite app_nil_r.
    + intros now. apply absorb_bucket_of.
Qed.

Lemma record_spec r store absorbed now micros :
  holds store absorbed -> recorder_ok r -> 1 <= micros <= 60000000 ->
  let st := IntervalRecorder_record now micros (r, store) in
  exists absorbed', holds st.2 absorbed' /\ recorder_ok st.1 /\
    (forall b, absorbed' b ++ held b st.1 =
       (absorbed b ++ held b r) ++ if decide (bucket_of store now = b) then [micros] else []) /\
    forall now, bucket_of st.2 now = bucket_of store now.
Proof.
  intros Hh [Hlen Hs] Hm. unfold IntervalRecorder_record. cbn [fst snd].
  set (mid := if bucket_of store now =? ir_bucket r then (r, store) else _).
  assert (exists absorbed1, holds mid.2 absorbed1 /\
    Forall (in_bounds interval_bounds) (ir_samples mid.1) /\
    (length (ir_samples mid.1) < FLUSH_SAMPLES)%nat /\
    ir_bucket mid.1 = bucket_of store now /\
    (forall b, absorbed1 b ++ held b mid.1 = absorbed b ++ held b r) /\
    forall now, bucket_of mid.2 now = bucket_of store now) as (a1 & A1 & A2 & A3 & A4 & A5 & A6).
  { unfold mid. destruct (Z.eqb_spec (bucket_of store now) (ir_bucket r)) as [Heq|Hne].
    - exists absorbed. by split_and!.
    - destruct (flush_spec r store absorbed Hh Hs) as (a1 & A1 & A2 & A3 & _ & A6).
      destruct (IntervalRecorder_flush (r, store)) as [r1 store1]. cbn [fst snd] in *.
      exists a1. cbn [ir_samples ir_bucket]. rewrite A3. split_and!; try done.
      + cbn. unfold FLUSH_SAMPLES. lia.
      + intros b. unfold held at 1. cbn [ir_samples ir_bucket].
        case_decide; by rewrite A2, app_nil_r. }
  clearbody mid. destruct mid as [r1 store1]. cbn [fst snd] in *.
  set (r2 := mkIntervalRecorder _ _).
  assert (Forall (in_bounds interval_bounds) (ir_samples r2)) as Hs2.
  { apply Forall_app. split; [done|]. apply Forall_singleton. unfold in_bounds, interval_bounds. cbn. lia. }
  assert (forall b, a1 b ++ held b r2 = (absorbed b ++ held b r) ++
    if decide (bucket_of store now = b) then [micros] else []) as Hh2.
  { intros b. rewrite <- A5. unfold held, r2. cbn [ir_bucket ir_samples]. rewrite A4.
    case_decide; [by rewrite app_assoc|by rewrite !app_nil_r]. }
  case_decide as Hfull.
  - destruct (flush_spec r2 store1 a1 A1 Hs2) as (a2 & G1 & G2 & G3 & _ & G6).
    destruct (IntervalRecorder_flush (r2, store1)) as [r3 store3]. cbn [fst snd] in *.
    exists a2. split_and!; [done|split; [rewrite G3; cbn; unfold FLUSH_SAMPLES; lia|by rewrite G3]| |].
    + intros b. unfold held at 1. rewrite G3, G2, <- Hh2. case_decide; by rewrite app_nil_r.
    + intros now'. by rewrite G6, A6.
  - exists a1. split_and!; [done| |done|done]. split; [|done].
    unfold r2 in *. cbn [fst ir_samples] in *. rewrite length_app in *. cbn [length] in *. lia.
Qed.

Definition held_all (b : Z) (rs : list IntervalRecorder) : list Z := rs ≫= held b.

Lemma held_all_insert b rs w r r' extra absorbed absorbed' :
  rs !! w = Some r -> absorbed' ++ held b r' = (absorbed ++ held b r) ++ extra ->
  absorbed' ++ held_all b (<[w := r']> rs) ≡ₚ (absorbed ++ held_all b rs) ++ extra.
Proof.
  intros Hw Heq. unfold held_all.
  rewrite <- (take_drop_middle rs w r Hw) at 2.
  rewrite insert_take_drop by (by eapply lookup_lt_Some).
  rewrite !bind_app, !bind_cons.
  set (front := take w rs ≫= held b). set (back := drop (S w) rs ≫= held b).
  trans ((absorbed' ++ held b r') ++ front ++ back); [solve_Permutation|].
  rewrite Heq. solve_Permutation.
Qed.

Definition recording_invariant (n : nat) (store0 : IntervalStore H) (done : list IntervalEvent)
    (st : list IntervalRecorder * IntervalStore H) : Prop :=
  length st.1 = n /\ Forall recorder_ok st.1 /\
  (forall now, bucket_of st.2 now = bucket_of store0 now) /\
  exists absorbed, holds st.2 absorbed /\
    forall b, absorbed b ++ held_all b st.1 ≡ₚ recorded_in n store0 b done.

Lemma recorded_in_snoc n store b es e :
  recorded_in n store b (es ++ [e]) = recorded_in n store b es ++ recorded_in n store b [e].
Proof. apply bind_app. Qed.

Lemma recorded_in_flushes n store b es ws :
  recorded_in n store b (es ++ (FlushWorker <$> ws)) = recorded_in n store b es.
Proof.
  unfold recorded_in. rewrite bind_app. rewrite <- (app_nil_r (es ≫= _)) at 2. f_equal.
  induction ws as [|w ws IH]; [done|exact IH].
Qed.

Lemma interval_step_invariant n store0 done st e :
  recording_invariant n store0 done st -> event_ok e ->
  recording_invariant n store0 (done ++ [e]) (interval_step st e).
Proof.
  destruct st as [rs store]. intros (Hn & Hok & Hb & absorbed & Hh & Hp) He. cbn [fst snd] in *.
  assert (forall w now micros, rs !! w = None -> forall b,
    recorded_in n store0 b [RecordAt w now micros] = []) as Hnone.
  { intros w now micros Hw b. cbn. apply lookup_ge_None in Hw. case_decide; [lia|done]. }
  destruct e as [w now micros|w]; unfold interval_step, on_recorder; cbn [fst snd];
    destruct (rs !! w) as [r|] eqn:Hw.
  - pose proof (lookup_lt_Some _ _ _ Hw) as Hlt.
    destruct (record_spec r store absorbed now micros Hh) as (a' & A1 & A2 & A3 & A4);
      [by eapply Forall_lookup_1|done|].
    destruct (IntervalRecorder_record now micros (r, store)) as [r' store']. cbn [fst snd] in *.
    split_and!; [cbn [fst]; by rewrite length_insert|by apply Forall_insert|intros t; cbn; by rewrite A4|].
    exists a'. split; [done|]. intros b. rewrite recorded_in_snoc, <- Hp. cbn [fst].
    apply (held_all_insert b rs w r); [done|]. rewrite A3, Hb. f_equal. cbn.
    repeat case_decide; naive_solver.
  - split_and!; [done|done|done|]. exists absorbed. split; [done|]. intros b.
    by rewrite recorded_in_snoc, Hnone, app_nil_r.
  - destruct (flush_spec r store absorbed Hh) as (a' & A1 & A2 & A3 & _ & A4);
      [by eapply Forall_lookup_1 in Hok as [? ?]|].
    destruct (IntervalRecorder_flush (r, store)) as [r' store']. cbn [fst snd] in *.
    split_and!; [cbn [fst]; by rewrite length_insert| |intros t; cbn; by rewrite A4|].
    + apply Forall_insert; [done|]. split; rewrite A3; [cbn; unfold FLUSH_SAMPLES; lia|done].
    + exists a'. split; [done|]. intros b. rewrite recorded_in_snoc, <- Hp. cbn [fst].
      apply (held_all_insert b rs w r); [done|]. unfold held at 1. rewrite A3, A2.
      cbn. case_decide; by rewrite !app_nil_r.
  - split_and!; [done|done|done|]. exists absorbed. split; [done|]. intros b.
    by rewrite recorded_in_snoc, app_nil_r.
Qed.

Lemma interval_steps_invariant n store0 es done st :
  recording_invariant n store0 done st -> Forall event_ok es ->
  recording_invariant n store0 (done ++ es) (fold_left interval_step es st).
Proof.
  revert done st. induction es as [|e es IH]; intros done st Hinv Hes; [by rewrite app_nil_r|].
  apply Forall_cons in Hes as [He Hes]. cbn [fold_left].
  rewrite (cons_middle e done es), app_assoc. apply IH; [|done]. by apply interval_step_invariant.
Qed.

Lemma recording_invariant_init n start interval :
  recording_invariant n (IntervalStore_new start interval) []
    (replicate n IntervalRecorder_new, IntervalStore_new start interval).
Proof.
  split_and!; [by apply length_replicate| |done|].
  - apply Forall_replicate. split; [cbn; unfold FLUSH_SAMPLES; lia|done].
  - exists (fun _ => []). split.
    + intros b. split; [done|]. cbn. by rewrite lookup_empty.
    + intros b. cbn. unfold held_all. induction n as [|n IH]; [done|].
      cbn [replicate]. rewrite bind_cons. unfold held at 1. cbn. by case_decide.
Qed.

(** Flushing leaves a recorder empty, and touches no other. *)
Lemma flush_step_lookup st w i :
  (interval_step st (FlushWorker w)).1 !! i =
    if decide (i = w)
    then (fun r => mkIntervalRecorder (ir_bucket r) []) <$> st.1 !! i else st.1 !! i.
Proof.
  destruct st as [rs store]. unfold interval_step, on_recorder. cbn [fst snd].
  destruct (rs !! w) as [[bk ss]|] eqn:E; cbn.
  - case_decide as Hi; [subst|]; destruct ss; cbn; rewrite ?E; cbn;
      first [by rewrite list_lookup_insert_eq by (by eapply lookup_lt_Some)
            | by rewrite list_lookup_insert_ne].
  - case_decide; [subst; by rewrite E|done].
Qed.

Lemma flush_list_empty ws st i r :
  (fold_left interval_step (FlushWorker <$> ws) st).1 !! i = Some r ->
  i ∈ ws -> ir_samples r = [].
Proof.
  assert (forall ws st, (forall r, st.1 !! i = Some r -> ir_samples r = []) ->
    forall r, (fold_left interval_step (FlushWorker <$> ws) st).1 !! i = Some r -> ir_samples r = [])
    as Hkeep.
  { clear. intros ws. induction ws as [|w ws IH]; intros st Hst r; [apply Hst|].
    cbn [fmap list_fmap fold_left]. apply IH. intros r'. rewrite flush_step_lookup.
    case_decide; [|apply Hst]. by intros (r0 & _ & ->)%fmap_Some. }
  revert st. induction ws as [|w ws IH]; intros st Hr Hin; [by apply not_elem_of_nil in Hin|].
  cbn [fmap list_fmap fold_left] in Hr. apply elem_of_cons in Hin as [->|Hin]; [|by eapply IH].
  eapply Hkeep; [|exact Hr]. intros r'. rewrite flush_step_lookup, decide_True by done.
  by intros (r0 & _ & ->)%fmap_Some.
Qed.

Lemma held_all_flushed b rs : Forall (fun r => ir_samples r = []) rs -> held_all b rs = [].
Proof.
  induction 1 as [|r rs Hr Hrs IH]; [done|]. unfold held_all in *. rewrite bind_cons, IH.
  unfold held. rewrite Hr. by case_decide.
Qed.

(** C6. However many workers record, at whatever instants and in whatever
    interleaving of batches and flushes: between two calls every worker
    holds fewer than a batch of samples, and once every worker has flushed,
    each interval's histogram is the one recording that interval's samples
    directly would give, absent exactly when the interval has none. *)
Theorem interval_store_refines (start interval : Z) (n : nat) (es : list IntervalEvent)
    (Hes : Forall event_ok es) (h0 : H) (Hh0 : interval_histogram = Some h0) :
  let store0 := IntervalStore_new start interval in
  let st := fold_left interval_step es (replicate n IntervalRecorder_new, store0) in
  Forall (fun r => (length (ir_samples r) < FLUSH_SAMPLES)%nat) st.1 /\
  forall b,
    match IntervalStore_bucket (flush_all st).2 b with
    | None => recorded_in n store0 b es = []
    | Some h => recorded_in n store0 b es <> [] /\ h ≡ hdr_record_all (recorded_in n store0 b es) h0
    end.
Proof.
  intros store0 st.
  assert (recording_invariant n store0 es st) as Hinv.
  { apply (interval_steps_invariant n store0 es []); [apply recording_invariant_init|done]. }
  clearbody st. split.
  { destruct Hinv as (_ & Hok & _). eapply Forall_impl; [exact Hok|]. by intros r [? ?]. }
  intros b. unfold flush_all.
  assert (recording_invariant n store0 (es ++ (FlushWorker <$> seq 0 (length st.1)))
    (fold_left interval_step (FlushWorker <$> seq 0 (length st.1)) st)) as Hinv'.
  { apply interval_steps_invariant; [done|]. by apply Forall_fmap, Forall_true. }
  assert (Forall (fun r => ir_samples r = [])
    (fold_left interval_step (FlushWorker <$> seq 0 (length st.1)) st).1) as Hempty.
  { apply Forall_lookup. intros i r Hr. eapply flush_list_empty; [exact Hr|].
    apply elem_of_seq. apply lookup_lt_Some in Hr. destruct Hinv' as [Hl _], Hinv as [Hl' _]. lia. }
  set (st' := fold_left _ _ _) in *. clearbody st'.
  destruct Hinv' as (_ & _ & _ & absorbed & Hh & Hp). specialize (Hp b).
  rewrite held_all_flushed, app_nil_r in Hp by done.
  rewrite recorded_in_flushes in Hp. destruct (Hh b) as [Hb Hm]. unfold IntervalStore_bucket.
  destruct (is_buckets st'.2 !! b) as [h|]; [|rewrite Hm in Hp; by apply Permutation_nil_l in Hp].
  destruct Hm as (Hbd & Hne & Hc). split.
  { intros Hnil. rewrite Hnil in Hp. by apply Permutation_nil_r in Hp. }
  destruct (hdr_new_spec interval_bounds interval_bounds_used) as (h1 & Hnew & Hbd1 & Hz).
  unfold interval_histogram in Hh0. rewrite Hnew in Hh0. injection Hh0 as <-.
  destruct (hdr_record_all_spec (recorded_in n store0 b es) h1) as [Hb2 Hc2].
  { rewrite Hbd1. apply interval_bounds_used. }
  { rewrite Hbd1. by rewrite <- Hp. }
  split; [congruence|]. rewrite Hbd. intros v Hv. rewrite Hbd1 in *.
  rewrite Hc, Hc2, Hz by done. by rewrite Hp.
Qed.

End Recording.

Lemma interval_store_refines_witness :
  let es := [RecordAt 0 1500000000 700; RecordAt 1 1600000000 900; FlushWorker 0;
             RecordAt 0 2500000000 5] in
  let store0 := IntervalStore_new (H := ClassHistogram) 0 1000000000 in
  let st := fold_left interval_step es (replicate 2 IntervalRecorder_new, store0) in
  recorded_in 2 store0 1 es = [700; 900] /\
  match IntervalStore_bucket (flush_all st).2 1 with
  | None => recorded_in 2 store0 1 es = []
  | Some h => recorded_in 2 store0 1 es <> [] /\
      hdr_equiv h (hdr_record_all (recorded_in 2 store0 1 es) (mkClassHistogram interval_bounds ∅))
  end.
Proof.
  intros es store0 st. split; [reflexivity|].
  assert (Forall event_ok es) as Hes by (unfold es; repeat constructor; cbn; lia).
  exact (proj2 (interval_store_refines 0 1000000000 2 es Hes
    (mkClassHistogram interval_bounds ∅) eq_refl) 1).
Defined.

(** ** The points add up to the run *)

(** The counters a point breaks down. *)
Definition point_get (c : Counter) (p : TimeSeriesPoint) : Z :=
  match c with
  | active_connections => tp_active_connections p
  | messages_sent => tp_messages_sent p
  | messages_received => tp_messages_recv p
  | bytes_sent => tp_bytes_sent p
  | bytes_received => tp_bytes_recv p
  | total_errors => tp_errors p
  | _ => 0
  end.
Definition flow_counter (c : Counter) : Prop :=
  c ∈ [messages_sent; messages_received; bytes_sent; bytes_received; total_errors].
Definition point_sum (c : Counter) (ps : list TimeSeriesPoint) : Z := sum_Z (point_get c <$> ps).

(** Samples in time order whose counter never decreases. *)
Definition samples_ok (c : Counter) (l : list (Z * LiveSnapshot)) : Prop :=
  StronglySorted (fun a b => a.1 <= b.1 /\ snapshot_get c a.2 <= snapshot_get c b.2) l /\
  Forall (fun a => is_u64 (snapshot_get c a.2)) l.

(** The last sample that ends an interval of its own. *)
Fixpoint last_kept (previous : Z * LiveSnapshot) (rest : list (Z * LiveSnapshot))
  : Z * LiveSnapshot :=
  match rest with
  | [] => previous
  | s :: rest' => if s.1 <=? previous.1 then last_kept previous rest' else last_kept s rest'
  end.

Lemma flow_counter_cases (P : Counter -> Prop) :
  P messages_sent -> P messages_received -> P bytes_sent -> P bytes_received -> P total_errors ->
  forall c, flow_counter c -> P c.
Proof.
  intros ????? c Hc. unfold flow_counter in Hc. rewrite !elem_of_cons, elem_of_nil in Hc.
  naive_solver.
Qed.

Section Totals.
Context {H : Type} `{Hdr H}.

Lemma build_point_get c buckets nanos prev_at prev duration snap :
  flow_counter c ->
  point_get c (build_point (H := H) buckets nanos prev_at prev duration snap) =
    u64_saturating_sub (snapshot_get c snap) (snapshot_get c prev).
Proof. revert c. by apply flow_counter_cases. Qed.

Lemma samples_ok_inv c a l : samples_ok c (a :: l) ->
  samples_ok c l /\ is_u64 (snapshot_get c a.2) /\
  Forall (fun b => a.1 <= b.1 /\ snapshot_get c a.2 <= snapshot_get c b.2) l.
Proof.
  intros [Hs Hu]. apply StronglySorted_inv in Hs as [Hs Ha]. apply Forall_cons in Hu as [Hu1 Hu].
  split; [by split|done].
Qed.

Lemma samples_ok_skip c a b l : samples_ok c (a :: b :: l) -> samples_ok c (a :: l).
Proof.
  intros (H1 & H2 & H3)%samples_ok_inv. apply samples_ok_inv in H1 as ([H4 H5] & H6 & H7).
  apply Forall_cons in H3 as [_ H3]. split; by constructor.
Qed.

Lemma last_kept_ge c previous rest :
  samples_ok c (previous :: rest) ->
  snapshot_get c previous.2 <= snapshot_get c (last_kept previous rest).2 < 2 ^ 64.
Proof.
  revert previous. induction rest as [|s rest IH]; intros previous Hok.
  - apply samples_ok_inv in Hok as (_ & Hu & _). cbn. ulia.
  - cbn [last_kept]. destruct (s.1 <=? previous.1).
    + apply IH. by eapply samples_ok_skip.
    + apply samples_ok_inv in Hok as (Hok & _ & [[_ Hle] _]%Forall_cons).
      specialize (IH s Hok). lia.
Qed.

Lemma build_points_sum c (buckets : gmap Z H) nanos previous rest :
  flow_counter c -> samples_ok c (previous :: rest) ->
  point_sum c (build_points buckets nanos previous rest) =
    snapshot_get c (last_kept previous rest).2 - snapshot_get c previous.2 /\
  Forall (fun p => 0 <= point_get c p) (build_points buckets nanos previous rest).
Proof.
  intros Hc. revert previous. induction rest as [|[at_ snap] rest IH]; intros [prev_at prev] Hok.
  { cbn [build_points last_kept snd]. split; [unfold point_sum; cbn; lia|constructor]. }
  cbn [build_points last_kept fst]. unfold duration_saturating_sub.
  pose proof (samples_ok_inv _ _ _ Hok) as (Hok' & _ & [[Ht Hle] _]%Forall_cons). cbn [fst snd] in *.
  destruct (Z.leb_spec at_ prev_at) as [Hat|Hat].
  - rewrite (proj2 (Z.eqb_eq _ 0)) by lia. apply IH. by eapply samples_ok_skip.
  - rewrite (proj2 (Z.eqb_neq _ 0)) by lia. destruct (IH (at_, snap) Hok') as [IH1 IH2].
    unfold point_sum in *. rewrite fmap_cons, sum_Z_cons, IH1, build_point_get by done.
    unfold u64_saturating_sub. cbn [snd]. split; [lia|].
    constructor; [rewrite build_point_get by done; unfold u64_saturating_sub; lia|done].
Qed.

Lemma fold_into_get c last tail :
  flow_counter c -> point_get c (fold_into last tail) = point_get c last +u point_get c tail.
Proof. revert c. by apply flow_counter_cases. Qed.

Lemma fold_sliver_sum c interval ps :
  flow_counter c -> Forall (fun p => 0 <= point_get c p) ps -> point_sum c ps < 2 ^ 64 ->
  point_sum c (fold_sliver interval ps) = point_sum c ps.
Proof.
  intros Hc Hnn Hlt. unfold fold_sliver.
  destruct (reverse ps) as [|tail [|last init]] eqn:E; [done|done|].
  case_match; [|done].
  assert (ps = reverse init ++ [last; tail]) as ->.
  { rewrite <- (reverse_involutive ps), E, !reverse_cons. by rewrite <- app_assoc. }
  apply Forall_app in Hnn as [Hnn [Hp1 [Hp2 _]%Forall_cons]%Forall_cons].
  unfold point_sum in *. rewrite reverse_cons.
  rewrite !fmap_app, !sum_Z_app in *. cbn [fmap list_fmap] in *.
  rewrite !sum_Z_cons in *. rewrite fold_into_get by done.
  assert (0 <= sum_Z (point_get c <$> reverse init)).
  { apply sum_Z_nonneg, Forall_fmap, Hnn. }
  change (sum_Z []) with 0 in *. rewrite u64_add_id; lia.
Qed.

Lemma build_sum c first rest (store : IntervalStore H) basis :
  flow_counter c -> samples_ok c (first :: rest) ->
  point_sum c (ts_points (build (first :: rest) store basis)) =
    snapshot_get c (last_kept first rest).2 - snapshot_get c first.2.
Proof.
  intros Hc Hok. cbn [build ts_points].
  destruct (build_points_sum c (is_buckets store) (Z.max (is_interval store) 1) first rest Hc Hok)
    as [Hs Hnn].
  rewrite fold_sliver_sum by (done || (rewrite Hs; pose proof (last_kept_ge c first rest Hok);
    apply samples_ok_inv in Hok as (_ & ? & _); ulia)).
  done.
Qed.

Lemma last_kept_snoc previous rest s :
  Forall (fun a => a.1 < s.1) (previous :: rest) -> last_kept previous (rest ++ [s]) = s.
Proof.
  revert previous. induction rest as [|a rest IH]; intros previous Hall.
  - cbn. apply Forall_cons in Hall as [Hp _]. by rewrite (proj2 (Z.leb_gt _ _) Hp).
  - cbn. apply Forall_cons in Hall as [Hp [Ha Hall]%Forall_cons].
    case_match; apply IH; by constructor.
Qed.

(** The points of a run's series add up to what the run counted: for
    each counter, the sum over the points is the last sample's value minus
    the baseline's, with or without a folded sliver, provided the counter
    never decreases and the last sample is later than the others. *)
Theorem build_totals (c : Counter) (first : Z * LiveSnapshot) (rest : list (Z * LiveSnapshot))
    (final : Z * LiveSnapshot) (store : IntervalStore H) (basis : string)
    (Hc : flow_counter c) (Hok : samples_ok c (first :: rest ++ [final]))
    (Hlast : Forall (fun a => a.1 < final.1) (first :: rest)) :
  point_sum c (ts_points (build (first :: rest ++ [final]) store basis)) =
    snapshot_get c final.2 - snapshot_get c first.2.
Proof. rewrite build_sum by done. by rewrite last_kept_snoc. Qed.

Lemma last_kept_same previous rest s :
  (default previous (last rest)).1 = s.1 ->
  StronglySorted (fun a b : Z * LiveSnapshot => a.1 <= b.1) (previous :: rest) ->
  last_kept previous (rest ++ [s]) = last_kept previous rest.
Proof.
  revert previous. induction rest as [|a rest IH]; intros previous Hlast Hs.
  - cbn in *. by rewrite Hlast, Z.leb_refl.
  - apply StronglySorted_inv in Hs as [Hs [Hpa Hp]%Forall_cons].
    cbn [last_kept app]. destruct (Z.leb_spec a.1 previous.1).
    + apply IH.
      * destruct rest as [|b rest]; [cbn in *; lia|]. rewrite last_cons_cons in Hlast.
        destruct (last (b :: rest)) eqn:E; [exact Hlast|by apply last_None in E].
      * apply StronglySorted_inv in Hs as [Hs _]. by constructor.
    + apply IH; [|done]. destruct rest as [|b rest]; [done|]. rewrite last_cons_cons in Hlast.
      destruct (last (b :: rest)) eqn:E; [exact Hlast|by apply last_None in E].
Qed.

Definition tick_sample (start : Z) (t : Z * LiveMetrics) : Z * LiveSnapshot :=
  (saturating_duration_since t.1 start, snapshot t.2).

Lemma finish_task start baseline ticks t live end_ :
  end_ <= saturating_duration_since t.1 start ->
  CounterSampler_finish (Some (CounterSampler_task start baseline (ticks ++ [t]))) live end_ =
    (0, snapshot baseline) :: ((tick_sample start <$> ticks) ++ [tick_sample start t]) ++
      [(saturating_duration_since t.1 start, snapshot live)].
Proof.
  intros Hend. unfold CounterSampler_finish, CounterSampler_task. cbn [default from_option id].
  rewrite fmap_app. change ((fun u : Z * LiveMetrics => _) <$> [t]) with [tick_sample start t].
  fold (tick_sample start). rewrite app_comm_cons, last_snoc. cbn [tick_sample].
  by rewrite Z.max_r by done.
Qed.

(** When the run's end is not later than the sampler's last tick, the
    final snapshot gets that tick's instant and [build] skips it: what the
    workers counted after the tick is in no point of the series. *)
Theorem build_drops_simultaneous_end (c : Counter) (start : Z) (baseline live : LiveMetrics)
    (ticks : list (Z * LiveMetrics)) (t : Z * LiveMetrics) (end_ : Z)
    (store : IntervalStore H) (basis : string)
    (Hc : flow_counter c)
    (Hend : end_ <= saturating_duration_since t.1 start)
    (Hlast : Forall (fun u => saturating_duration_since u.1 start
                              < saturating_duration_since t.1 start) ticks)
    (Ht : 0 < saturating_duration_since t.1 start)
    (Hok : samples_ok c (CounterSampler_finish
       (Some (CounterSampler_task start baseline (ticks ++ [t]))) live end_)) :
  point_sum c (ts_points (build (CounterSampler_finish
      (Some (CounterSampler_task start baseline (ticks ++ [t]))) live end_) store basis)) =
    snapshot_get c (snapshot t.2) - snapshot_get c (snapshot baseline).
Proof.
  rewrite finish_task in * by done. rewrite build_sum by done.
  rewrite (last_kept_same (0, snapshot baseline)); [|by rewrite last_snoc|].
  - rewrite last_kept_snoc; [done|]. constructor; [done|]. by apply Forall_fmap.
  - destruct Hok as [Hs _]. rewrite app_comm_cons in Hs. apply StronglySorted_app in Hs as (_ & Hs & _).
    eapply StronglySorted_mono; [|exact Hs]. by intros ? ? [? ?].
Qed.

End Totals.

(** A registry whose first shard has sent [n] messages. *)
Definition live_sent (n : Z) : LiveMetrics :=
  live_fetch_add 0 messages_sent n (LiveMetrics_default (Some 1%nat)).

Ltac solve_samples_ok :=
  match goal with
  | |- samples_ok _ ?l => let l' := eval vm_compute in l in change l with l'
  end;
  split; repeat constructor; vm_compute; congruence.

Lemma build_totals_witness :
  let s0 := (0, snapshot (live_sent 2)) in
  let s1 := (1000000000, snapshot (live_sent 5)) in
  let s2 := (1000000001, snapshot (live_sent 9)) in
  point_sum messages_sent (ts_points (build (H := ClassHistogram) (s0 :: [s1] ++ [s2])
    (IntervalStore_new 0 1000000000) "rtt")) = 7.
Proof.
  intros s0 s1 s2. rewrite build_totals.
  - reflexivity.
  - unfold flow_counter. rewrite !elem_of_cons. by left.
  - solve_samples_ok.
  - repeat constructor.
Defined.

Lemma build_drops_simultaneous_end_witness :
  point_sum messages_sent (ts_points (build (H := ClassHistogram)
    (CounterSampler_finish (Some (CounterSampler_task 0 (live_sent 0)
       ([] ++ [(1000000000, live_sent 5)]))) (live_sent 9) 999999999)
    (IntervalStore_new 0 1000000000) "rtt")) = 5.
Proof.
  rewrite build_drops_simultaneous_end.
  - reflexivity.
  - unfold flow_counter. rewrite !elem_of_cons. by left.
  - vm_compute. congruence.
  - constructor.
  - reflexivity.
  - solve_samples_ok.
Defined.

(** A run of 600.5 seconds keeps one-second intervals, so its series has
    601 points, one more than [MAX_POINTS]: ticks at every full second and
    the half second at the end. *)
Theorem series_exceeds_max_points :
  let d := from_secs 600 + from_millis 500 in
  let ticks := (fun i => (from_secs (Z.of_nat i), live_sent 0)) <$> seq 1 600 in
  Z.of_nat (length (ts_points (build (H := ClassHistogram)
    (CounterSampler_finish (Some (CounterSampler_task 0 (live_sent 0) ticks)) (live_sent 0) d)
    (IntervalStore_new 0 (interval_for d)) "rtt"))) = MAX_POINTS + 1.
Proof. vm_compute. reflexivity. Qed.

(** ** Machines that ran at the same time add up *)

Section Parallel.
Context {H : Type} `{HdrLaws H}.

Lemma fold_left_bind {A B C} (f : C -> B -> C) (g : A -> list B) l c :
  fold_left (fun c a => fold_left f (g a) c) l c = fold_left f (l ≫= g) c.
Proof.
  revert c. induction l as [|a l IH]; intros c; [done|].
  cbn [fold_left]. by rewrite IH, bind_cons, fold_left_app.
Qed.

Definition summed_counter (c : Counter) : Prop := flow_counter c \/ c = active_connections.

Lemma merge_point_get c o p :
  summed_counter c ->
  point_get c (merge_point o p) = default 0 (point_get c <$> o) +u point_get c p.
Proof.
  intros [Hc| ->]; [|by destruct o]. revert c Hc. by apply flow_counter_cases; destruct o.
Qed.

Lemma merge_points_fold c l o :
  summed_counter c ->
  match fold_left (fun o p => Some (merge_point o p)) l o with
  | None => l = [] /\ o = None
  | Some q => (l = [] -> o = Some q) /\
      (l <> [] -> point_get c q = wrap 64 (default 0 (point_get c <$> o) + point_sum c l))
  end.
Proof.
  intros Hc. revert o. induction l as [|p l IH]; intros o.
  { cbn. by destruct o. }
  cbn [fold_left]. specialize (IH (Some (merge_point o p))).
  destruct (fold_left _ l _) as [q|]; [|naive_solver].
  destruct IH as [IHnil IHcons]. split; [done|]. intros _.
  unfold point_sum in *. rewrite fmap_cons, sum_Z_cons.
  destruct (decide (l = [])) as [->|Hne].
  - specialize (IHnil eq_refl) as [= <-]. rewrite merge_point_get by done.
    unfold u64_add. f_equal. cbn. lia.
  - rewrite IHcons by done.
    change (default 0 (point_get c <$> Some (merge_point o p))) with (point_get c (merge_point o p)).
    rewrite merge_point_get by done. unfold u64_add. rewrite wrap_add_l. f_equal. lia.
Qed.

(** The histogram of bucket [k], added up machine by machine. *)
Definition bucket_parts (k : Z) (parts : list (SeriesPart H)) : list H :=
  omap (fun part => sp_buckets part !! k) parts.

Lemma merge_buckets_lookup parts hs k :
  fold_left merge_buckets parts hs !! k =
    fold_left (fun o h => Some (merge_bucket o h)) (bucket_parts k parts) (hs !! k).
Proof.
  revert hs. induction parts as [|part parts IH]; intros hs; [done|].
  cbn [fold_left]. rewrite IH. unfold merge_buckets.
  rewrite (fold_insert_lookup fst (fun o e => merge_bucket o e.2)), filter_btree_entries.
  unfold bucket_parts. cbn [omap list_omap]. by destruct (sp_buckets part !! k).
Qed.

Lemma merged_histogram_counts hs h0 :
  hdr_bounds h0 = interval_bounds -> Forall (fun h => hdr_bounds h = interval_bounds) hs ->
  exists h, fold_left (fun o h => Some (merge_bucket o h)) hs (Some h0) = Some h /\
    hdr_bounds h = interval_bounds /\
    forall v, in_bounds interval_bounds v -> hdr_count_at h v =
      u64_saturating_add (hdr_count_at h0 v) (sum_Z ((fun h => hdr_count_at h v) <$> hs)).
Proof.
  revert h0. induction hs as [|h hs IH]; intros h0 Hb0 Hbs.
  { exists h0. split_and!; [done|done|]. intros v _. pose proof (hdr_count_at_u64 h0 v).
    unfold u64_saturating_add, u64_max. cbn. ulia. }
  apply Forall_cons in Hbs as [Hb Hbs]. cbn [fold_left merge_bucket].
  destruct (hdr_add'_spec h0 h) as [Hb' Hc];
    [rewrite Hb0; apply interval_bounds_used|congruence|].
  destruct (IH (hdr_add' h0 h)) as (h' & -> & Hb'' & Hc'); [congruence|done|].
  exists h'. split_and!; [done|done|]. intros v Hv. rewrite Hc', Hc by (done || by rewrite Hb0).
  rewrite fmap_cons, sum_Z_cons.
  assert (0 <= sum_Z ((fun h => hdr_count_at h v) <$> hs)).
  { apply sum_Z_nonneg, Forall_fmap, Forall_true. intros x. apply hdr_count_at_u64. }
  pose proof (hdr_count_at_u64 h0 v). pose proof (hdr_count_at_u64 h v).
  apply u64_saturating_add_assoc; ulia.
Qed.

Definition all_points (parts : list (SeriesPart H)) : list TimeSeriesPoint :=
  parts ≫= fun part => ts_points (sp_series part).

(** Merging machines adds up, interval by interval: the result has one
    point per interval index any machine has a point for, in time order; its
    counters and open connections are the sums over those points, and its
    latency is read from a histogram whose counts are the sums of the
    machines' interval histograms, not an average of percentiles. *)
Theorem merge_parallel_adds_up (parts : list (SeriesPart H)) (first : SeriesPart H)
    (Hfirst : List.find has_points parts = Some first)
    (Hbounds : Forall (fun part => map_Forall (fun _ h => hdr_bounds h = interval_bounds)
                 (sp_buckets part)) parts) :
  let idx p := series_index_of (ts_interval_secs (sp_series first)) (tp_start_secs p) in
  exists keys, StronglySorted Z.lt keys /\
    (forall k, k ∈ keys <-> exists p, p ∈ all_points parts /\ idx p = k) /\
    Forall2 (fun k q =>
      (forall c, summed_counter c -> point_get c q =
         wrap 64 (point_sum c (filter (fun p => idx p = k) (all_points parts)))) /\
      match bucket_parts k parts with
      | [] => tp_latency q = IntervalLatency_default
      | hs => exists h, tp_latency q = IntervalLatency_from_histogram (Some h) /\
          forall v, in_bounds interval_bounds v -> hdr_count_at h v =
            Z.min u64_max (sum_Z ((fun h => hdr_count_at h v) <$> hs))
      end) keys (ts_points (merge_parallel parts)).
Proof.
  intros idx. unfold merge_parallel. rewrite Hfirst. cbn [ts_points].
  set (points := fold_left (merge_points _) parts ∅).
  assert (forall k, points !! k = fold_left (fun o p => Some (merge_point o p))
    (filter (fun p => idx p = k) (all_points parts)) None) as Hlook.
  { intros k. unfold points, merge_points.
    rewrite (fold_left_bind _ (fun part => ts_points (sp_series part))).
    rewrite (fold_insert_lookup idx merge_point). by rewrite lookup_empty. }
  exists (btree_entries points).*1. split_and!.
  - apply btree_entries_sorted.
  - intros k. rewrite btree_entries_perm.
    rewrite list_elem_of_fmap. split.
    + intros ([k' q] & -> & Hin%elem_of_map_to_list). cbn. rewrite Hlook in Hin.
      destruct (filter _ _) as [|p l] eqn:E; [done|].
      assert (p ∈ p :: l) as Hp by apply list_elem_of_here.
      rewrite <- E in Hp. apply list_elem_of_filter in Hp as [? ?]. eauto.
    + intros (p & Hp & Hk). pose proof (merge_points_fold messages_sent
        (filter (fun p => idx p = k) (all_points parts)) None) as Hm.
      rewrite <- Hlook in Hm. destruct (points !! k) as [q|] eqn:E.
      * exists (k, q). split; [done|]. by apply elem_of_map_to_list.
      * assert (p ∈ filter (fun p => idx p = k) (all_points parts)) as Hin
          by by apply list_elem_of_filter.
        destruct Hm as [Hm _].
        { left. unfold flow_counter. rewrite !elem_of_cons. by left. }
        rewrite Hm in Hin. by apply not_elem_of_nil in Hin.
  - apply Forall2_fmap_l, Forall2_fmap_r, Forall_Forall2_diag, Forall_forall.
    intros [k q] Hin%elem_of_btree_entries. cbn [fst finish_point]. split.
    + intros c Hc. transitivity (point_get c q); [by destruct c|].
      pose proof (merge_points_fold c (filter (fun p => idx p = k) (all_points parts)) None Hc) as Hm.
      rewrite <- Hlook, Hin in Hm. destruct Hm as [Hnil Hm].
      destruct (filter _ _); [by specialize (Hnil eq_refl)|]. by apply Hm.
    + cbn [fst].
      change (tp_latency (finish_point (fold_left merge_buckets parts ∅) (k, q)))
        with (IntervalLatency_from_histogram (fold_left merge_buckets parts ∅ !! k)).
      rewrite merge_buckets_lookup, lookup_empty.
      assert (Forall (fun h => hdr_bounds h = interval_bounds) (bucket_parts k parts)) as Hbs.
      { apply Forall_forall. intros h (part & Hpart & Hh)%list_elem_of_omap.
        rewrite Forall_forall in Hbounds. by apply (Hbounds part Hpart k h). }
      destruct (bucket_parts k parts) as [|h hs]; [done|]. apply Forall_cons in Hbs as [Hb Hbs].
      destruct (merged_histogram_counts hs h Hb Hbs) as (h' & Hm & _ & Hc).
      cbn [fold_left merge_bucket]. rewrite Hm. exists h'. split; [done|]. intros v Hv.
      rewrite Hc by done. unfold u64_saturating_add. by rewrite fmap_cons, sum_Z_cons.
Qed.

End Parallel.

Lemma merge_parallel_adds_up_witness :
  let p n := TimeSeriesPoint_default <| tp_messages_sent := n |> in
  let part n : SeriesPart ClassHistogram := mkSeriesPart (mkTimeSeries (f64_of_Z 1) "rtt" [p n]) ∅ in
  let parts := [mkSeriesPart TimeSeries_default ∅; part 3; part 4] in
  exists q, ts_points (merge_parallel parts) = [q] /\ tp_messages_sent q = 7.
Proof.
  intros p part parts.
  assert (Forall (fun part => map_Forall (fun _ h => hdr_bounds h = interval_bounds)
    (sp_buckets part)) parts) as Hb by (repeat constructor; apply map_Forall_empty).
  destruct (merge_parallel_adds_up parts (part 3) eq_refl Hb) as (keys & _ & Hkeys & Hall).
  exists (default TimeSeriesPoint_default (head (ts_points (merge_parallel parts)))).
  split; [vm_compute; reflexivity|].
  destruct Hall as [|k q keys' qs [Hq _] _].
  - exfalso. apply (not_elem_of_nil 0), Hkeys. exists (p 3). split; [|vm_compute; reflexivity].
    vm_compute. left.
  - cbn [head default].
    assert (k = 0) as ->.
    { assert (k ∈ k :: keys') as (r & Hr & <-)%Hkeys by left. revert Hr.
      unfold all_points, parts. cbn. rewrite !elem_of_cons, elem_of_nil.
      intros [->|[->|[]]]; vm_compute; reflexivity. }
    transitivity (point_get messages_sent q); [done|]. rewrite Hq; [vm_compute; reflexivity|].
    left. unfold flow_counter. rewrite !elem_of_cons. by left.
Defined.
