(* ===== verification/LiveIntervals.v ===== *)
(** * The live time series (src/src/timeseries.rs, [LiveIntervals])

    The exporters and the TUI read the phase in progress through this state
    machine: the runner begins and ends phases, a distributed coordinator
    begins remote phases and publishes merged latencies, and [finish] freezes
    the run's clock.  A phase's store is a pointer ([Arc]) into the heap of
    stores, because workers keep adding samples to it while it is
    registered; [now] is what the monotonic clock reads. *)

From Stdlib Require Import ZArith Lia Ascii String.
From stdpp Require Import base tactics strings numbers option gmap list.
From S2P Require Import Prelude RustStd Hdr TimeSeries.

Local Open Scope Z_scope.
Local Open Scope rust_scope.

Record LivePhase := mkLivePhase {
  lp_store : nat;
  lp_basis : string;
  lp_ended : option Z;
  lp_seq : Z;
}.
#[export] Instance LivePhase_eta : Settable LivePhase := fun p =>
  mkLivePhase (lp_store p) (lp_basis p) (lp_ended p) (lp_seq p).

Record RemotePhase := mkRemotePhase {
  rp_start : Z;
  rp_interval : Z;
  rp_basis : string;
  rp_ended : option Z;
  rp_seq : Z;
  rp_latest : option (Z * IntervalLatency);
}.
#[export] Instance RemotePhase_eta : Settable RemotePhase := fun r =>
  mkRemotePhase (rp_start r) (rp_interval r) (rp_basis r) (rp_ended r) (rp_seq r) (rp_latest r).

Record LiveState := mkLiveState {
  st_run_start : option Z;
  st_finished : option Z;
  st_phase : option LivePhase;
  st_phases_begun : Z;
  st_remote : option RemotePhase;
}.
#[export] Instance LiveState_eta : Settable LiveState := fun s =>
  mkLiveState (st_run_start s) (st_finished s) (st_phase s) (st_phases_begun s) (st_remote s).

Definition LiveIntervals_new : LiveState := mkLiveState None None None 0 None.

Record PhaseClock := mkPhaseClock {
  pc_seq : Z;
  pc_elapsed : Z;
  pc_ended : bool;
  pc_interval : Z;
  pc_basis : string;
}.

Record CompletedInterval := mkCompletedInterval {
  ci_phase : Z;
  ci_index : Z;
  ci_basis : string;
  ci_latency : IntervalLatency;
}.

(** The [TryFrom] conversion fails above 64 bits and [checked_sub] below 0. *)
Definition last_completed_index (since_start interval : Z) : option Z :=
  let index := since_start / Z.max interval 1 in
  if u64_max <? index then None else if index =? 0 then None else Some (index - 1).

Section LiveIntervals.
Context {H : Type} `{Hdr H}.
(** The heap of interval stores. *)
Variable stores : nat -> IntervalStore H.

Definition begin_phase (store : nat) (basis : string) (s : LiveState) : LiveState :=
  mkLiveState
    (Some (default (is_start (stores store)) (st_run_start s)))
    (st_finished s)
    (Some (mkLivePhase store basis None (st_phases_begun s)))
    (st_phases_begun s +u 1)
    None.

Definition end_phase (elapsed : Z) (s : LiveState) : LiveState :=
  s <| st_remote ::= fmap (fun r => r <| rp_ended := Some elapsed |>) |>
    <| st_phase ::= fmap (fun p => p <| lp_ended := Some elapsed |>) |>.

Definition begin_remote_phase (start interval : Z) (basis : string) (s : LiveState) : LiveState :=
  mkLiveState
    (Some (default start (st_run_start s)))
    (st_finished s)
    None
    (st_phases_begun s +u 1)
    (Some (mkRemotePhase start interval basis None (st_phases_begun s) None)).

Definition publish_remote (index : Z) (latency : IntervalLatency) (s : LiveState) : LiveState :=
  s <| st_remote ::= fmap (fun r => r <| rp_latest := Some (index, latency) |>) |>.

Definition live_finish (now : Z) (s : LiveState) : LiveState :=
  match st_finished s with
  | None =>
      s <| st_finished := Some (match st_run_start s with
                                | None => 0
                                | Some start => saturating_duration_since now start
                                end) |>
  | Some _ => s
  end.

Definition live_elapsed (now : Z) (s : LiveState) : Z :=
  match st_finished s with
  | Some d => d
  | None => match st_run_start s with
            | Some start => saturating_duration_since now start
            | None => 0
            end
  end.

Definition phase_clock (now : Z) (s : LiveState) : option PhaseClock :=
  match st_remote s with
  | Some remote =>
      Some (mkPhaseClock (rp_seq remote)
        (default (saturating_duration_since now (rp_start remote)) (rp_ended remote))
        (bool_decide (is_Some (rp_ended remote))) (rp_interval remote) (rp_basis remote))
  | None =>
      phase ← st_phase s;
      Some (mkPhaseClock (lp_seq phase)
        (default (saturating_duration_since now (is_start (stores (lp_store phase)))) (lp_ended phase))
        (bool_decide (is_Some (lp_ended phase))) (is_interval (stores (lp_store phase)))
        (lp_basis phase))
  end.

Definition last_completed (now : Z) (s : LiveState) : option CompletedInterval :=
  match st_remote s with
  | Some remote =>
      '(index, latency) ← rp_latest remote;
      Some (mkCompletedInterval (rp_seq remote) index (rp_basis remote) latency)
  | None =>
      phase ← st_phase s;
      let store := stores (lp_store phase) in
      let since_start :=
        default (saturating_duration_since now (is_start store)) (lp_ended phase) in
      index ← last_completed_index since_start (is_interval store);
      Some (mkCompletedInterval (lp_seq phase) index (lp_basis phase) (latency_of store index))
  end.

(** ** The state machine *)

Inductive live_step (now : Z) : LiveState -> LiveState -> Prop :=
| step_begin s store basis : live_step now s (begin_phase store basis s)
| step_begin_remote s interval basis start :
    live_step now s (begin_remote_phase start interval basis s)
| step_publish s index latency : live_step now s (publish_remote index latency s)
| step_end s elapsed : 0 <= elapsed -> live_step now s (end_phase elapsed s)
| step_finish s : live_step now s (live_finish now s).

(** States reachable by steps at non-decreasing instants, with the instant
    of the last one. *)
Inductive live_reachable : Z -> LiveState -> Prop :=
| reach_new now : live_reachable now LiveIntervals_new
| reach_step now now' s s' :
    live_reachable now s -> now <= now' -> live_step now' s s' -> live_reachable now' s'.

(** At most one of the local and the remote phase is registered, it carries
    the last sequence number, and there is one as soon as the run started. *)
Definition live_invariant (s : LiveState) : Prop :=
  match st_phase s, st_remote s with
  | None, None => st_run_start s = None /\ st_phases_begun s = 0
  | Some p, None => is_Some (st_run_start s) /\ st_phases_begun s = lp_seq p +u 1 /\
      (forall d, lp_ended p = Some d -> 0 <= d)
  | None, Some r => is_Some (st_run_start s) /\ st_phases_begun s = rp_seq r +u 1 /\
      (forall d, rp_ended r = Some d -> 0 <= d)
  | Some _, Some _ => False
  end.

Lemma live_step_invariant now s s' : live_invariant s -> live_step now s s' -> live_invariant s'.
Proof.
  intros Hinv Hstep. destruct Hstep as [s store basis|s interval basis start|s index latency|s elapsed He|s];
    unfold live_invariant in *; cbn.
  - split_and!; [by eexists|done|done].
  - split_and!; [by eexists|done|done].
  - destruct (st_phase s), (st_remote s); cbn; naive_solver.
  - destruct (st_phase s), (st_remote s); cbn; naive_solver.
  - unfold live_finish. destruct (st_finished s); cbn; done.
Qed.

Lemma live_reachable_invariant now s : live_reachable now s -> live_invariant s.
Proof. induction 1; [done|by eapply live_step_invariant]. Qed.

(** In every reachable state the readers agree with the machine: there
    is a phase clock exactly when a phase has begun, its sequence number is
    that of the last phase begun, and a completed interval belongs to the
    same phase. *)
Theorem live_readers_consistent (now now' : Z) (s : LiveState) (Hs : live_reachable now s) :
  (phase_clock now' s = None <-> st_run_start s = None) /\
  (forall clock, phase_clock now' s = Some clock -> st_phases_begun s = pc_seq clock +u 1) /\
  (forall ci clock, last_completed now' s = Some ci -> phase_clock now' s = Some clock ->
     ci_phase ci = pc_seq clock /\ ci_basis ci = pc_basis clock) /\
  (last_completed now' s <> None -> phase_clock now' s <> None).
Proof.
  apply live_reachable_invariant in Hs. unfold live_invariant in Hs.
  unfold phase_clock, last_completed.
  destruct (st_phase s) as [p|], (st_remote s) as [r|]; cbn; [done| | |].
  - destruct Hs as ([x ->] & Hb & _). destruct (last_completed_index _ _); cbn; naive_solver.
  - destruct Hs as ([x ->] & Hb & _). destruct (rp_latest r) as [[]|]; cbn; naive_solver.
  - destruct Hs as [-> _]. naive_solver.
Qed.

Lemma last_completed_index_spec since interval i :
  0 <= since -> last_completed_index since interval = Some i ->
  0 <= i /\ (i + 1) * Z.max interval 1 <= since < (i + 2) * Z.max interval 1.
Proof.
  unfold last_completed_index. intros Hs.
  destruct (u64_max <? _); [done|]. destruct (Z.eqb_spec (since / Z.max interval 1) 0); [done|].
  intros [= <-]. Z.to_euclidean_division_equations. nia.
Qed.

(** The completed interval of a local phase is the last one whose end
    the phase's clock has reached: it has ended, and the next one has not. *)
Theorem last_completed_has_ended (now now' : Z) (s : LiveState) (Hs : live_reachable now s)
    (Hlocal : st_remote s = None) (ci : CompletedInterval) (clock : PhaseClock)
    (Hci : last_completed now' s = Some ci) (Hclock : phase_clock now' s = Some clock)
    (Hint : 1 <= pc_interval clock) :
  0 <= ci_index ci /\
  (ci_index ci + 1) * pc_interval clock <= pc_elapsed clock
    < (ci_index ci + 2) * pc_interval clock.
Proof.
  apply live_reachable_invariant in Hs. unfold live_invariant in Hs.
  unfold phase_clock, last_completed in *. rewrite Hlocal in *.
  destruct (st_phase s) as [p|]; cbn in *; [|done]. destruct Hs as (_ & _ & Hd).
  injection Hclock as <-. cbn [pc_elapsed pc_interval] in *.
  set (since := default _ _) in *.
  assert (0 <= since) as Hsince.
  { unfold since, saturating_duration_since. destruct (lp_ended p); cbn; [by apply Hd|lia]. }
  destruct (last_completed_index since _) as [i|] eqn:E; cbn in Hci; [|done].
  injection Hci as <-. apply last_completed_index_spec in E as [H1 H2]; [|done].
  rewrite Z.max_l in H2 by lia. done.
Qed.

Lemma live_step_finished now s s' d : live_step now s s' -> st_finished s = Some d -> st_finished s' = Some d.
Proof. intros [] Hd; cbn; try done. unfold live_finish. by rewrite Hd. Qed.

(** Once the run has finished its elapsed time is frozen: no later step
    or later instant changes it; and before, it never runs backwards. *)
Theorem live_elapsed_monotone (now now' : Z) (s s' : LiveState)
    (Hs : live_reachable now s) (Hle : now <= now') (Hstep : live_step now' s s') :
  live_elapsed now (live_finish now s) = live_elapsed now s /\
  live_elapsed now' (live_finish now s) = live_elapsed now s /\
  (is_Some (st_finished s) -> live_elapsed now' s' = live_elapsed now s) /\
  (st_finished s = None -> is_Some (st_run_start s) ->
     live_elapsed now s <= live_elapsed now' s').
Proof.
  unfold live_elapsed, live_finish, saturating_duration_since. split_and!.
  1,2: destruct (st_finished s) as [d|] eqn:E; cbn; [by rewrite E|by destruct (st_run_start s)].
  - intros [d Hd]. rewrite Hd. by rewrite (live_step_finished _ _ _ _ Hstep Hd).
  - intros Hf [start Hr]. rewrite Hf, Hr.
    destruct Hstep; cbn; rewrite ?Hf, ?Hr; cbn; try lia.
    unfold live_finish. rewrite Hf. cbn. rewrite Hr. unfold saturating_duration_since. lia.
Qed.

End LiveIntervals.

(** A run of one local phase, finished after 2.5 s. *)
Definition sample_store (_ : nat) : IntervalStore ClassHistogram :=
  IntervalStore_new 0 1000000000.
Definition sample_state : LiveState := begin_phase sample_store 0 "rtt" LiveIntervals_new.

Lemma sample_reachable : live_reachable sample_store 0 sample_state.
Proof. eapply reach_step; [apply (reach_new sample_store 0)|lia|apply step_begin]. Qed.

Lemma live_readers_consistent_witness :
  exists clock, phase_clock sample_store 2500000000 sample_state = Some clock /\
    st_phases_begun sample_state = u64_add (pc_seq clock) 1.
Proof.
  eexists. split; [reflexivity|].
  apply (proj1 (proj2 (live_readers_consistent sample_store 0 2500000000 sample_state
    sample_reachable))). reflexivity.
Defined.

Lemma last_completed_has_ended_witness :
  exists ci, last_completed sample_store 2500000000 sample_state = Some ci /\
    (ci_index ci + 1) * 1000000000 <= 2500000000 < (ci_index ci + 2) * 1000000000.
Proof.
  eexists. split; [reflexivity|].
  refine (proj2 (last_completed_has_ended sample_store 0 2500000000 sample_state sample_reachable
    eq_refl _ (mkPhaseClock 0 2500000000 false 1000000000 "rtt") eq_refl eq_refl _)).
  cbn. lia.
Defined.

Lemma live_elapsed_monotone_witness :
  live_elapsed 0 sample_state <= live_elapsed 2500000000 (end_phase 2000000000 sample_state).
Proof.
  apply (live_elapsed_monotone sample_store 0 2500000000 sample_state _ sample_reachable).
  - lia.
  - apply step_end. lia.
  - reflexivity.
  - by eexists.
Defined.
