(* ===== verification/Summaries.v ===== *)
(** * Report data (src/src/metrics.rs)

    The records a run's report is made of and the operations that build and
    add them up: latency statistics, compression, arrivals, slow replies,
    chaos counts, generator health and the list of distributed agents. *)

From Stdlib Require Import ZArith Lia Ascii String.
From stdpp Require Import base tactics strings numbers option gmap list.
From S2P Require Import Prelude RustStd Hdr.

Local Open Scope Z_scope.
Local Open Scope rust_scope.

(** ** Latency *)

Record LatencyStats := mkLatencyStats {
  l_count : Z;
  l_min_us : Z;
  l_mean_us : f64;
  l_max_us : Z;
  l_std_dev_us : f64;
  l_p50_us : Z;
  l_p75_us : Z;
  l_p90_us : Z;
  l_p95_us : Z;
  l_p99_us : Z;
  l_p999_us : Z;
  l_p9999_us : Z;
}.

Definition LatencyStats_default : LatencyStats :=
  mkLatencyStats 0 0 f64_zero 0 f64_zero 0 0 0 0 0 0 0.

Definition LatencyStats_from_histogram {H} `{Hdr H} (hist : H) : LatencyStats :=
  if hdr_is_empty hist then LatencyStats_default
  else mkLatencyStats (hdr_len hist) (hdr_min hist) (hdr_mean hist) (hdr_max hist) (hdr_stdev hist)
         (hdr_value_at_quantile hist (f64_lit 50 100))
         (hdr_value_at_quantile hist (f64_lit 75 100))
         (hdr_value_at_quantile hist (f64_lit 90 100))
         (hdr_value_at_quantile hist (f64_lit 95 100))
         (hdr_value_at_quantile hist (f64_lit 99 100))
         (hdr_value_at_quantile hist (f64_lit 999 1000))
         (hdr_value_at_quantile hist (f64_lit 9999 10000)).

Definition p50_duration (l : LatencyStats) : Z := from_micros (l_p50_us l).
Definition p95_duration (l : LatencyStats) : Z := from_micros (l_p95_us l).
Definition p99_duration (l : LatencyStats) : Z := from_micros (l_p99_us l).
Definition p999_duration (l : LatencyStats) : Z := from_micros (l_p999_us l).

(** ** Compression *)

Record CompressionSummary := mkCompressionSummary {
  cm_connections_offered : Z;
  cm_connections_negotiated : Z;
  cm_bytes_sent : Z;
  cm_wire_bytes_sent : Z;
  cm_bytes_recv : Z;
  cm_wire_bytes_recv : Z;
}.

Definition CompressionSummary_add (a b : CompressionSummary) : CompressionSummary :=
  mkCompressionSummary
    (cm_connections_offered a +u cm_connections_offered b)
    (cm_connections_negotiated a +u cm_connections_negotiated b)
    (cm_bytes_sent a +u cm_bytes_sent b)
    (cm_wire_bytes_sent a +u cm_wire_bytes_sent b)
    (cm_bytes_recv a +u cm_bytes_recv b)
    (cm_wire_bytes_recv a +u cm_wire_bytes_recv b).

Record CompressionCounts := mkCompressionCounts {
  cc_offered : Z;
  cc_negotiated : Z;
  cc_bytes_sent : Z;
  cc_wire_bytes_sent : Z;
  cc_bytes_recv : Z;
  cc_wire_bytes_recv : Z;
}.
#[export] Instance CompressionCounts_eta : Settable CompressionCounts := fun c =>
  mkCompressionCounts (cc_offered c) (cc_negotiated c) (cc_bytes_sent c) (cc_wire_bytes_sent c)
    (cc_bytes_recv c) (cc_wire_bytes_recv c).

Definition CompressionCounts_add (a b : CompressionCounts) : CompressionCounts :=
  mkCompressionCounts
    (cc_offered a +u cc_offered b)
    (cc_negotiated a +u cc_negotiated b)
    (cc_bytes_sent a +u cc_bytes_sent b)
    (cc_wire_bytes_sent a +u cc_wire_bytes_sent b)
    (cc_bytes_recv a +u cc_bytes_recv b)
    (cc_wire_bytes_recv a +u cc_wire_bytes_recv b).

Definition CompressionSummary_from (c : CompressionCounts) : CompressionSummary :=
  mkCompressionSummary (cc_offered c) (cc_negotiated c) (cc_bytes_sent c) (cc_wire_bytes_sent c)
    (cc_bytes_recv c) (cc_wire_bytes_recv c).

(** ** Arrivals *)

Record Arrivals := mkArrivals {
  ar_rate : f64;
  ar_session_duration : Z;
  ar_max_connections : option Z;
}.

Record ArrivalCounts := mkArrivalCounts {
  ac_started : Z;
  ac_skipped : Z;
  ac_peak_open : Z;
  ac_interval_peaks : list Z;
}.
#[export] Instance ArrivalCounts_eta : Settable ArrivalCounts := fun a =>
  mkArrivalCounts (ac_started a) (ac_skipped a) (ac_peak_open a) (ac_interval_peaks a).

Definition ArrivalCounts_default : ArrivalCounts := mkArrivalCounts 0 0 0 [].

(** [Vec::resize] to a length that is not shorter. *)
Definition vec_resize {A} (n : nat) (x : A) (l : list A) : list A :=
  l ++ replicate (n - length l) x.

Definition ArrivalCounts_observe (interval : nat) (open_ : Z) (a : ArrivalCounts) : ArrivalCounts :=
  let peaks :=
    if (length (ac_interval_peaks a) <=? interval)%nat
    then vec_resize (interval + 1) open_ (ac_interval_peaks a) else ac_interval_peaks a in
  a <| ac_interval_peaks := alter (fun peak => Z.max peak open_) interval peaks |>
    <| ac_peak_open ::= fun p => Z.max p open_ |>.

(** [for (all, peak) in peaks.iter_mut().zip(others) { *all += peak }] *)
Fixpoint zip_add (all others : list Z) : list Z :=
  match all, others with
  | a :: all', o :: others' => (a +u o) :: zip_add all' others'
  | _, _ => all
  end.

(** [iter().max()]. *)
Definition iter_max (l : list Z) : option Z :=
  match l with [] => None | x :: l' => Some (fold_left Z.max l' x) end.

Definition ArrivalCounts_add (self other : ArrivalCounts) : ArrivalCounts :=
  let peaks :=
    if (length (ac_interval_peaks self) <? length (ac_interval_peaks other))%nat
    then vec_resize (length (ac_interval_peaks other)) 0 (ac_interval_peaks self)
    else ac_interval_peaks self in
  let peaks := zip_add peaks (ac_interval_peaks other) in
  let peak_open := ac_peak_open self +u ac_peak_open other in
  mkArrivalCounts
    (ac_started self +u ac_started other)
    (ac_skipped self +u ac_skipped other)
    (match iter_max peaks with Some highest => Z.min peak_open highest | None => peak_open end)
    peaks.

Record ArrivalSummary := mkArrivalSummary {
  as_rate : f64;
  as_session_duration_secs : f64;
  as_max_connections : option Z;
  as_started : Z;
  as_skipped : Z;
  as_peak_open : Z;
}.

Definition ArrivalSummary_new (arrivals : Arrivals) (counts : ArrivalCounts) : ArrivalSummary :=
  mkArrivalSummary (ar_rate arrivals) (as_secs_f64 (ar_session_duration arrivals))
    (ar_max_connections arrivals) (ac_started counts) (ac_skipped counts) (ac_peak_open counts).

Definition ArrivalSummary_add_phase (self other : ArrivalSummary) : ArrivalSummary :=
  mkArrivalSummary (as_rate self) (as_session_duration_secs self) (as_max_connections self)
    (as_started self +u as_started other) (as_skipped self +u as_skipped other)
    (Z.max (as_peak_open self) (as_peak_open other)).

(** ** Slow replies *)

Record SlowReplies := mkSlowReplies {
  sr_threshold_us : Z;
  sr_count : Z;
  sr_reply_share : f64;
  sr_wait_share : f64;
}.

Definition HINT_SHARE : f64 := f64_lit 1 100.

(** The loop over the recorded values: count, slow wait, total wait. *)
Definition slow_step (threshold_us : Z) (acc : Z * Z * Z) (bucket : Z * Z) : Z * Z * Z :=
  let '(count, slow, total) := acc in
  let (value, count_at_value) := bucket in
  let wait := value * count_at_value in
  if threshold_us <? value
  then (count +u count_at_value, slow + wait, total + wait)
  else (count, slow, total + wait).

Definition SlowReplies_of {H} `{Hdr H} (rtt : H) : option SlowReplies :=
  if hdr_is_empty rtt then None
  else
    let threshold_us :=
      Z.max (u64_saturating_mul (hdr_value_at_quantile rtt (f64_lit 1 2)) 10) 10000 in
    let '(count, slow, total) := fold_left (slow_step threshold_us) (hdr_recorded rtt) (0, 0, 0) in
    if 0 <? count
    then Some (mkSlowReplies threshold_us count
                 (f64_div (f64_of_Z count) (f64_of_Z (hdr_len rtt)))
                 (f64_div (f64_of_Z slow) (f64_of_Z (Z.max total 1))))
    else None.

Definition hides_a_stall (s : SlowReplies) : bool :=
  f64_leb HINT_SHARE (sr_wait_share s) && f64_ltb (sr_reply_share s) HINT_SHARE.

(** ** Generator health *)

Record GeneratorLag := mkGeneratorLag {
  gl_probe_interval_us : Z;
  gl_samples : Z;
  gl_p50_us : Z;
  gl_p99_us : Z;
  gl_max_us : Z;
  gl_threshold_us : Z;
  gl_intervals : Z;
  gl_intervals_over_threshold : Z;
  gl_saturated : bool;
}.

Record OpenFileLimit := mkOpenFileLimit {
  of_soft_limit : Z;
  of_needed : Z;
  of_sufficient : bool;
}.

(** ** Chaos *)

Record ChaosSummary := mkChaosSummary {
  ch_seed : Z;
  ch_delayed : Z;
  ch_dropped : Z;
  ch_corrupted : Z;
  ch_closes : Z;
  ch_read_pauses : Z;
}.
#[export] Instance ChaosSummary_eta : Settable ChaosSummary := fun c =>
  mkChaosSummary (ch_seed c) (ch_delayed c) (ch_dropped c) (ch_corrupted c) (ch_closes c)
    (ch_read_pauses c).

Definition ChaosSummary_new (seed : Z) : ChaosSummary := mkChaosSummary seed 0 0 0 0 0.

Definition ChaosSummary_add (self other : ChaosSummary) : ChaosSummary :=
  mkChaosSummary (ch_seed self)
    (ch_delayed self +u ch_delayed other)
    (ch_dropped self +u ch_dropped other)
    (ch_corrupted self +u ch_corrupted other)
    (ch_closes self +u ch_closes other)
    (ch_read_pauses self +u ch_read_pauses other).

Definition add_chaos (into other : option ChaosSummary) : option ChaosSummary :=
  match into, other with
  | Some into, Some other => Some (ChaosSummary_add into other)
  | None, Some other => Some other
  | into, None => into
  end.

(** ** Distributed runs *)

Record AgentGenerator := mkAgentGenerator {
  ag_agent : string;
  ag_generator_lag : option GeneratorLag;
  ag_open_file_limit : option OpenFileLimit;
}.

Record DistributedSummary := mkDistributedSummary {
  ds_agents : list string;
  ds_lost_agents : list string;
  ds_generators : list AgentGenerator;
  ds_generator_lag_agent : option string;
  ds_open_file_limit_agent : option string;
}.

Definition saturated_agents (d : DistributedSummary) : list string :=
  ag_agent <$> filter (fun a => from_option gl_saturated false (ag_generator_lag a) = true)
    (ds_generators d).

Definition agents_short_of_files (d : DistributedSummary) : list string :=
  ag_agent <$> filter (fun a => from_option (fun l => negb (of_sufficient l)) false
                                  (ag_open_file_limit a) = true) (ds_generators d).

Record CaptureSummary := mkCaptureSummary {
  ca_path : string;
  ca_frames_written : Z;
  ca_frames_dropped : Z;
  ca_limit : Z;
}.

(** ** Peaks of an arrival-rate run *)

Definition list_max_Z (l : list Z) : Z := foldr Z.max 0 l.

(** One machine's counts after a sequence of observations. *)
Definition observe_all (obs : list (nat * Z)) : ArrivalCounts :=
  fold_left (fun a o => ArrivalCounts_observe o.1 o.2 a) obs ArrivalCounts_default.

Lemma list_max_Z_app l1 l2 : list_max_Z (l1 ++ l2) = Z.max (list_max_Z l1) (list_max_Z l2).
Proof.
  unfold list_max_Z. induction l1 as [|x l IH]; cbn; [|rewrite IH; lia].
  induction l2; cbn; lia.
Qed.

Lemma list_max_Z_replicate n x : 0 <= x -> list_max_Z (replicate n x) = if decide (n = 0%nat) then 0 else x.
Proof.
  intros Hx. unfold list_max_Z. induction n as [|n IH]; [done|]. cbn. rewrite IH.
  repeat case_decide; lia.
Qed.

Lemma list_max_Z_alter i x l :
  (i < length l)%nat -> list_max_Z (alter (fun p => Z.max p x) i l) = Z.max (list_max_Z l) x.
Proof.
  unfold list_max_Z. revert i. induction l as [|y l IH]; intros [|i] Hi; cbn [length] in Hi; try lia.
  - cbn. lia.
  - cbn [alter list_alter foldr]. change (list_alter _ i l) with (alter (fun p => Z.max p x) i l).
    rewrite IH by lia. lia.
Qed.

Lemma list_max_Z_ge l x : x ∈ l -> x <= list_max_Z l.
Proof. unfold list_max_Z. induction 1; cbn; lia. Qed.

Lemma list_max_Z_nonneg l : 0 <= list_max_Z l.
Proof. unfold list_max_Z. induction l; cbn; lia. Qed.

Lemma list_max_Z_cons x l : list_max_Z (x :: l) = Z.max x (list_max_Z l).
Proof. done. Qed.

Lemma iter_max_spec l :
  Forall (fun x => 0 <= x) l -> default 0 (iter_max l) = list_max_Z l.
Proof.
  destruct l as [|x l]; [done|]. intros [Hx Hl]%Forall_cons. cbn [iter_max default from_option id].
  assert (forall y, 0 <= y -> fold_left Z.max l y = Z.max y (list_max_Z l)) as ->; [|by rewrite list_max_Z_cons|done].
  clear x Hx. induction l as [|x l IH]; intros y Hy; [cbn; lia|].
  apply Forall_cons in Hl as [Hx Hl]. cbn [fold_left]. rewrite IH, list_max_Z_cons by (done || lia). lia.
Qed.

Definition peaks_ok (a : ArrivalCounts) : Prop :=
  ac_peak_open a = list_max_Z (ac_interval_peaks a) /\ Forall is_u64 (ac_interval_peaks a).

Lemma observe_spec i x a :
  is_u64 x -> peaks_ok a ->
  let b := ArrivalCounts_observe i x a in
  peaks_ok b /\ ac_peak_open b = Z.max (ac_peak_open a) x /\
  (forall k p, ac_interval_peaks a !! k = Some p ->
     exists p', ac_interval_peaks b !! k = Some p' /\ p <= p') /\
  (exists p, ac_interval_peaks b !! i = Some p /\ x <= p).
Proof.
  intros Hx [Hpk Hu] b.
  set (peaks := if (length (ac_interval_peaks a) <=? i)%nat
    then vec_resize (i + 1) x (ac_interval_peaks a) else ac_interval_peaks a).
  assert (ac_interval_peaks b = alter (fun p => Z.max p x) i peaks) as Hb by done.
  assert ((i < length peaks)%nat /\ Forall is_u64 peaks /\
    Z.max (list_max_Z peaks) x = Z.max (list_max_Z (ac_interval_peaks a)) x /\
    (forall k p, ac_interval_peaks a !! k = Some p -> peaks !! k = Some p)) as (Hi & Hpu & Hpm & Hpl).
  { unfold peaks. destruct (Nat.leb_spec (length (ac_interval_peaks a)) i); [|done].
    unfold vec_resize. rewrite length_app, length_replicate. split_and!; [lia| | |].
    - apply Forall_app. split; [done|]. by apply Forall_replicate.
    - rewrite list_max_Z_app, list_max_Z_replicate by ulia. case_decide; ulia.
    - intros k p Hk. by apply lookup_app_l_Some. }
  assert (forall k p, peaks !! k = Some p ->
    exists p', ac_interval_peaks b !! k = Some p' /\ p <= p' /\ (k = i -> x <= p')) as Hbl.
  { intros k p Hk. rewrite Hb. destruct (decide (k = i)) as [->|Hki].
    - exists (Z.max p x). rewrite list_lookup_alter_eq, Hk. split_and!; [done|lia|lia].
    - exists p. rewrite list_lookup_alter_ne by done. split_and!; [done|lia|done]. }
  split; [split|split_and!].
  - change (ac_peak_open b) with (Z.max (ac_peak_open a) x).
    by rewrite Hb, list_max_Z_alter, Hpk.
  - rewrite Hb. apply Forall_alter; [done|]. intros y _ Hy. ulia.
  - done.
  - intros k p Hk. destruct (Hbl k p (Hpl k p Hk)) as (p' & ? & ? & _). eauto.
  - apply lookup_lt_is_Some in Hi as [p Hp]. destruct (Hbl i p Hp) as (p' & ? & _ & ?). eauto.
Qed.

(** After any observations the peak is the highest interval peak and the
    highest observation, and an interval's peak bounds what was observed in
    it. *)
Lemma observe_all_spec obs :
  Forall (fun o => is_u64 o.2) obs ->
  peaks_ok (observe_all obs) /\ ac_peak_open (observe_all obs) = list_max_Z obs.*2 /\
  (forall i x, (i, x) ∈ obs ->
     exists p, ac_interval_peaks (observe_all obs) !! i = Some p /\ x <= p).
Proof.
  induction obs as [|[i x] obs IH] using rev_ind; intros Hobs.
  { split; [by split|split; [done|]]. intros i x Hin. by apply not_elem_of_nil in Hin. }
  apply Forall_app in Hobs as [Hobs [Hx _]%Forall_cons].
  destruct (IH Hobs) as (Hok & Hpk & Hin). unfold observe_all. rewrite fold_left_app.
  cbn [fold_left]. fold (observe_all obs). cbn [fst snd] in *.
  destruct (observe_spec i x _ Hx Hok) as (Hok' & Hpk' & Hmono & Hnew).
  split; [done|split].
  - rewrite Hpk', Hpk, fmap_app, list_max_Z_app. cbn. ulia.
  - intros k y [Hk|[= -> ->]%list_elem_of_singleton]%elem_of_app; [|done].
    destruct (Hin k y Hk) as (p & Hp & ?). destruct (Hmono k p Hp) as (p' & ? & ?).
    exists p'. split; [done|lia].
Qed.

Lemma zip_add_lookup all others i :
  zip_add all others !! i = (fun a => match others !! i with Some o => a +u o | None => a end) <$> all !! i.
Proof.
  revert others i. induction all as [|a all IH]; intros [|o others] [|i]; cbn; try done; [by destruct (all !! i)..].
Qed.

Lemma length_zip_add all others : length (zip_add all others) = length all.
Proof. revert others. induction all as [|a all IH]; intros [|o others]; cbn; congruence. Qed.

Lemma list_max_Z_le l m : 0 <= m -> Forall (fun x => x <= m) l -> list_max_Z l <= m.
Proof. intros Hm. unfold list_max_Z. induction 1; cbn; lia. Qed.

(** The peaks of one interval on two machines. *)
Definition peak_at (i : nat) (a : ArrivalCounts) : Z := default 0 (ac_interval_peaks a !! i).

Lemma arrivals_add_peaks a b :
  peaks_ok a -> peaks_ok b -> ac_peak_open a + ac_peak_open b < 2 ^ 64 ->
  let c := ArrivalCounts_add a b in
  length (ac_interval_peaks c) =
    Nat.max (length (ac_interval_peaks a)) (length (ac_interval_peaks b)) /\
  (forall i, peak_at i c = peak_at i a + peak_at i b) /\
  ac_peak_open c = list_max_Z (ac_interval_peaks c).
Proof.
  intros [Ha Hau] [Hb Hbu] Hsum c.
  set (pa := ac_interval_peaks a) in *. set (pb := ac_interval_peaks b) in *.
  set (ra := if (length pa <? length pb)%nat then vec_resize (length pb) 0 pa else pa).
  assert (ac_interval_peaks c = zip_add ra pb) as Hc by done.
  assert (length ra = Nat.max (length pa) (length pb) /\ forall i, default 0 (ra !! i) = default 0 (pa !! i))
    as [Hlen Hra].
  { unfold ra. destruct (Nat.ltb_spec (length pa) (length pb)); [|split; [lia|done]].
    unfold vec_resize. split; [rewrite length_app, length_replicate; lia|]. intros i.
    destruct (decide (i < length pa)%nat) as [Hi|Hi].
    - by rewrite lookup_app_l.
    - rewrite lookup_app_r, (lookup_ge_None_2 pa) by lia.
      destruct (replicate _ _ !! _) eqn:E; [|done]. by apply lookup_replicate in E as [-> _]. }
  assert (length (ac_interval_peaks c) = length ra) as Hlc by (rewrite Hc; apply length_zip_add).
  assert (forall i l, Forall is_u64 l -> 0 <= default 0 (l !! i) <= list_max_Z l) as Hle.
  { intros i l Hl. destruct (l !! i) as [x|] eqn:E; cbn; [|pose proof (list_max_Z_nonneg l); lia].
    split; [by eapply Forall_lookup_1 in Hl as [? ?]|]. by apply list_max_Z_ge, list_elem_of_lookup_2 with i. }
  assert (forall i, peak_at i c = peak_at i a + peak_at i b) as Hat.
  { intros i. unfold peak_at. rewrite Hc, zip_add_lookup. fold pa pb. rewrite <- Hra.
    pose proof (Hle i pa Hau). pose proof (Hle i pb Hbu). rewrite <- (Hra i) in *.
    destruct (ra !! i) as [x|] eqn:Ei; cbn [fmap option_fmap option_map default from_option id] in *.
    - destruct (pb !! i) as [y|]; cbn in *; [apply u64_add_id; lia|lia].
    - rewrite lookup_ge_None_2; [done|]. apply lookup_ge_None in Ei. lia. }
  split_and!; [lia|done|].
  assert (forall x, x ∈ ac_interval_peaks c -> 0 <= x <= ac_peak_open a + ac_peak_open b) as Hin.
  { intros x [i Hi]%list_elem_of_lookup. specialize (Hat i). unfold peak_at in Hat. rewrite Hi in Hat.
    cbn in Hat. pose proof (Hle i pa Hau). pose proof (Hle i pb Hbu). fold pa pb in Hat. lia. }
  pose proof (iter_max_spec (ac_interval_peaks c)) as Hmax.
  change (ac_peak_open c) with
    (match iter_max (ac_interval_peaks c) with
     | Some highest => Z.min (ac_peak_open a +u ac_peak_open b) highest
     | None => ac_peak_open a +u ac_peak_open b end).
  pose proof (list_max_Z_nonneg pa). pose proof (list_max_Z_nonneg pb).
  rewrite u64_add_id by lia. destruct (iter_max (ac_interval_peaks c)) as [h|] eqn:E; cbn in Hmax.
  - rewrite Hmax by (apply Forall_forall; intros x Hx; by apply Hin).
    apply Z.min_r, list_max_Z_le; [lia|]. apply Forall_forall. intros x Hx. by apply Hin.
  - destruct (ac_interval_peaks c) as [|x l] eqn:Ec; [|done]. cbn [length] in Hlc.
    destruct pa as [|], pb as [|]; cbn [length] in *; lia || (rewrite Ha, Hb; done).
Qed.

(** Two machines of an arrival-rate run: each machine's peak is the
    highest number of sessions it observed; merged, the peak of an interval
    is the sum of the machines' peaks in that interval (an interval one of
    them never reached counts 0), and the reported peak is the highest such
    sum, so peaks that came at different times are not added. *)
Theorem arrival_peaks_add (obs1 obs2 : list (nat * Z))
    (H1 : Forall (fun o => is_u64 o.2) obs1) (H2 : Forall (fun o => is_u64 o.2) obs2)
    (Hsum : list_max_Z obs1.*2 + list_max_Z obs2.*2 < 2 ^ 64) :
  let a := observe_all obs1 in
  let b := observe_all obs2 in
  let c := ArrivalCounts_add a b in
  ac_peak_open a = list_max_Z obs1.*2 /\
  (forall i x, (i, x) ∈ obs1 -> x <= peak_at i a) /\
  (forall i, peak_at i c = peak_at i a + peak_at i b) /\
  ac_peak_open c = list_max_Z (ac_interval_peaks c).
Proof.
  intros a b c. destruct (observe_all_spec obs1 H1) as (Ha & Hpa & Hin).
  destruct (observe_all_spec obs2 H2) as (Hb & Hpb & _).
  destruct (arrivals_add_peaks a b Ha Hb) as (_ & Hat & Hpk).
  { unfold a, b. lia. }
  split_and!; [done| |done|done].
  intros i x Hix. destruct (Hin i x Hix) as (p & Hp & ?). unfold peak_at, a. by rewrite Hp.
Qed.

Lemma arrival_peaks_add_witness :
  let a := observe_all [(0%nat, 3); (0%nat, 5); (1%nat, 2); (3%nat, 1)] in
  let b := observe_all [(0%nat, 1); (1%nat, 4)] in
  ac_interval_peaks (ArrivalCounts_add a b) = [6; 6; 1; 1] /\
  ac_peak_open (ArrivalCounts_add a b) = 6.
Proof.
  intros a b. split; [reflexivity|].
  assert (Forall (fun o : nat * Z => is_u64 o.2) [(0%nat, 3); (0%nat, 5); (1%nat, 2); (3%nat, 1)]) as H1
    by (repeat constructor; cbn; lia).
  assert (Forall (fun o : nat * Z => is_u64 o.2) [(0%nat, 1); (1%nat, 4)]) as H2
    by (repeat constructor; cbn; lia).
  destruct (arrival_peaks_add _ _ H1 H2) as (_ & _ & _ & Hpk); [vm_compute; reflexivity|].
  etransitivity; [exact Hpk|reflexivity].
Defined.
