(* ===== verification/Metrics.v ===== *)
(** * Worker metrics and their merge (src/src/metrics.rs)

    A worker keeps its own counters ([WorkerMetrics]) and shares three
    things with the other workers of the run ([RunShared]): the live
    counters, the latency recorders (an [Arc] each, so a heap of them) and
    the interval store.  An operation is a step on the worker and the shared
    state together.  [MetricsTotals] adds workers up, [MetricsTotals_add]
    the totals of other machines, and [MetricsTotals_finish] summarises
    them. *)

From Stdlib Require Import ZArith Lia Ascii String Floats.SpecFloat.
From stdpp Require Import base tactics strings numbers option gmap sorting list.
From S2P Require Import Prelude RustStd Hdr Histogram Live TimeSeries Summaries.

Local Open Scope Z_scope.
Local Open Scope rust_scope.

(** ** A worker's metrics *)

Record ActionCounts := mkActionCounts {
  an_sent : Z;
  an_errors : Z;
  an_sent_message_errors : Z;
}.
#[export] Instance ActionCounts_eta : Settable ActionCounts := fun a =>
  mkActionCounts (an_sent a) (an_errors a) (an_sent_message_errors a).
Definition ActionCounts_default : ActionCounts := mkActionCounts 0 0 0.

Record WorkerMetrics := mkWorkerMetrics {
  wm_latency : nat;
  wm_messages_sent : Z;
  wm_messages_recv : Z;
  wm_bytes_sent : Z;
  wm_bytes_recv : Z;
  wm_errors : gmap ErrorCategory Z;
  wm_sent_message_errors : Z;
  wm_reconnects : Z;
  wm_unsolicited_frames : Z;
  wm_interrupted : bool;
  wm_interval : option IntervalRecorder;
  wm_interval_uses_response : bool;
  wm_chaos : option ChaosSummary;
  wm_actions : list ActionCounts;
  wm_current_action : option nat;
  wm_shard : nat;
}.
#[export] Instance WorkerMetrics_eta : Settable WorkerMetrics := fun w =>
  mkWorkerMetrics (wm_latency w) (wm_messages_sent w) (wm_messages_recv w) (wm_bytes_sent w)
    (wm_bytes_recv w) (wm_errors w) (wm_sent_message_errors w) (wm_reconnects w)
    (wm_unsolicited_frames w) (wm_interrupted w) (wm_interval w) (wm_interval_uses_response w)
    (wm_chaos w) (wm_actions w) (wm_current_action w) (wm_shard w).

(** What the workers of a run share. *)
Record RunShared (H : Type) := mkRunShared {
  rs_live : LiveMetrics;
  rs_recorders : gmap nat LatencyRecorder;
  rs_store : IntervalStore H;
}.
Arguments mkRunShared {H} _ _ _.
Arguments rs_live {H} _.
Arguments rs_recorders {H} _.
Arguments rs_store {H} _.
#[export] Instance RunShared_eta {H} : Settable (RunShared H) := fun s =>
  mkRunShared (rs_live s) (rs_recorders s) (rs_store s).

(** [WorkerMetrics::with_latency]: the shard comes from the registry. *)
Definition with_latency {H} (latency : nat) (s : RunShared H) : WorkerMetrics * RunShared H :=
  let (shard, live) := assign_shard (rs_live s) in
  (mkWorkerMetrics latency 0 0 0 0 ∅ 0 0 0 false None false None [] None shard,
   s <| rs_live := live |>).

(** [WorkerMetrics::new] allocates a recorder of its own at [latency]. *)
Definition WorkerMetrics_new {H} (latency : nat) (s : RunShared H) : WorkerMetrics * RunShared H :=
  with_latency latency (s <| rs_recorders ::= <[latency := with_shards 1]> |>).

Definition with_interval (interval : option IntervalRecorder) (w : WorkerMetrics) : WorkerMetrics :=
  w <| wm_interval := interval |>.

Definition micros_of (duration : Z) : Z := clamp 1 60000000 (as_micros duration).

(** [action_counts]: the counters of the current action, updated by [f]. *)
Definition update_action (f : ActionCounts -> ActionCounts) (w : WorkerMetrics) : WorkerMetrics :=
  match wm_current_action w with
  | None => w
  | Some index =>
      w <| wm_actions ::= fun actions =>
        alter f index
          (if (length actions <=? index)%nat
           then vec_resize (index + 1) ActionCounts_default actions else actions) |>
  end.

Section Operations.
Context {H : Type} `{Hdr H}.
Local Abbreviation cell := (WorkerMetrics * RunShared H)%type.

Definition counters_add (c : Counter) (n : Z) (st : cell) : cell :=
  (st.1, st.2 <| rs_live ::= live_fetch_add (wm_shard st.1) c n |>).

Definition on_recorder_of (f : LatencyRecorder -> LatencyRecorder) (st : cell) : cell :=
  (st.1, st.2 <| rs_recorders ::= alter f (wm_latency st.1) |>).

Definition on_worker (f : WorkerMetrics -> WorkerMetrics) (st : cell) : cell := (f st.1, st.2).

(** [if let Some(interval) = self.interval.as_mut() { .. }] *)
Definition on_interval (f : IntervalRecorder * IntervalStore H -> IntervalRecorder * IntervalStore H)
    (st : cell) : cell :=
  match wm_interval st.1 with
  | None => st
  | Some r =>
      let (r', store') := f (r, rs_store st.2) in
      (st.1 <| wm_interval := Some r' |>, st.2 <| rs_store := store' |>)
  end.

Definition flush_interval (st : cell) : cell := on_interval IntervalRecorder_flush st.

Definition record_handshake_latency (duration : Z) (st : cell) : cell :=
  let micros := micros_of duration in
  let st := on_recorder_of (rec_handshake (wm_shard st.1) micros) st in
  counters_add active_connections 1 st.

Definition record_handshake (duration : Z) (st : cell) : cell :=
  counters_add connections_established 1 (record_handshake_latency duration st).

Definition record_reconnect (duration : Z) (st : cell) : cell :=
  let st := record_handshake_latency duration st in
  let st := on_worker (fun w => w <| wm_reconnects ::= fun n => n +u 1 |>) st in
  counters_add reconnects 1 st.

Definition record_error (err : ErrorCategory) (scope : ErrorScope) (st : cell) : cell :=
  let st := on_worker (fun w =>
    w <| wm_errors ::= fun errors => <[err := default 0 (errors !! err) +u 1]> errors |>) st in
  let st := on_worker (fun w =>
    if decide (scope = SentMessage)
    then w <| wm_sent_message_errors ::= fun n => n +u 1 |> else w) st in
  let st := on_worker (update_action (fun action =>
    let action := action <| an_errors ::= fun n => n +u 1 |> in
    if decide (scope = SentMessage)
    then action <| an_sent_message_errors ::= fun n => n +u 1 |> else action)) st in
  counters_add total_errors 1 st.

Definition record_connection_failed (err : ErrorCategory) (st : cell) : cell :=
  counters_add connections_failed 1 (record_error err Attempt st).

Definition record_connection_closed (st : cell) : cell :=
  counters_add active_connections (-1) st.

Definition record_message_sent (bytes : Z) (st : cell) : cell :=
  let st := on_worker (fun w => w
    <| wm_messages_sent ::= fun n => n +u 1 |>
    <| wm_bytes_sent ::= fun n => n +u bytes |>) st in
  let st := on_worker (update_action (fun action => action <| an_sent ::= fun n => n +u 1 |>)) st in
  counters_add bytes_sent bytes (counters_add messages_sent 1 st).

Definition record_message_recv (now bytes : Z) (rtt : option Z) (st : cell) : cell :=
  let st := on_worker (fun w => w
    <| wm_messages_recv ::= fun n => n +u 1 |>
    <| wm_bytes_recv ::= fun n => n +u bytes |>) st in
  let st :=
    match rtt with
    | None => st
    | Some rtt_dur =>
        let micros := micros_of rtt_dur in
        let shard := wm_shard st.1 in
        let st := on_recorder_of (rec_rtt shard micros) st in
        let st := match wm_current_action st.1 with
                  | Some action => on_recorder_of (record_action_rtt action shard micros) st
                  | None => st
                  end in
        if negb (wm_interval_uses_response st.1)
        then on_interval (IntervalRecorder_record now micros) st else st
    end in
  counters_add bytes_received bytes (counters_add messages_received 1 st).

Definition record_response_time (now duration : Z) (st : cell) : cell :=
  let micros := micros_of duration in
  let shard := wm_shard st.1 in
  let st := on_recorder_of (rec_response shard micros) st in
  let st := match wm_current_action st.1 with
            | Some action => on_recorder_of (record_action_response action shard micros) st
            | None => st
            end in
  on_interval (IntervalRecorder_record now micros) st.

Definition record_unsolicited_frames (count : Z) (st : cell) : cell :=
  if count =? 0 then st
  else
    let st := on_worker (fun w => w <| wm_unsolicited_frames ::= fun n => n +u count |>) st in
    counters_add unsolicited_frames count st.

Definition on_chaos (f : ChaosSummary -> ChaosSummary) (st : cell) : cell :=
  on_worker (fun w => w <| wm_chaos ::= fmap f |>) st.
Definition record_chaos_delayed : cell -> cell :=
  on_chaos (fun chaos => chaos <| ch_delayed ::= fun n => n +u 1 |>).
Definition record_chaos_dropped : cell -> cell :=
  on_chaos (fun chaos => chaos <| ch_dropped ::= fun n => n +u 1 |>).
Definition record_chaos_corrupted : cell -> cell :=
  on_chaos (fun chaos => chaos <| ch_corrupted ::= fun n => n +u 1 |>).
Definition record_chaos_read_pause : cell -> cell :=
  on_chaos (fun chaos => chaos <| ch_read_pauses ::= fun n => n +u 1 |>).
Definition record_chaos_close : cell -> cell :=
  on_chaos (fun chaos => chaos <| ch_closes ::= fun n => n +u 1 |>).

End Operations.

(** ** Totals *)

Record ActionTotals (H : Type) := mkActionTotals {
  at_rtt : H;
  at_response : H;
  at_counts : ActionCounts;
}.
Arguments mkActionTotals {H} _ _ _.
Arguments at_rtt {H} _.
Arguments at_response {H} _.
Arguments at_counts {H} _.
#[export] Instance ActionTotals_eta {H} : Settable (ActionTotals H) := fun a =>
  mkActionTotals (at_rtt a) (at_response a) (at_counts a).

Record MetricsTotals (H : Type) := mkMetricsTotals {
  mt_handshake : H;
  mt_rtt : H;
  mt_response : H;
  mt_messages_sent : Z;
  mt_messages_recv : Z;
  mt_bytes_sent : Z;
  mt_bytes_recv : Z;
  mt_reconnects : Z;
  mt_unsolicited_frames : Z;
  mt_sent_message_errors : Z;
  mt_interrupted : Z;
  mt_errors : gmap ErrorCategory Z;
  mt_chaos : option ChaosSummary;
  mt_absorbed : list nat;
  mt_actions : gmap string (ActionTotals H);
}.
Arguments mkMetricsTotals {H} _ _ _ _ _ _ _ _ _ _ _ _ _ _ _.
Arguments mt_handshake {H} _.
Arguments mt_rtt {H} _.
Arguments mt_response {H} _.
Arguments mt_messages_sent {H} _.
Arguments mt_messages_recv {H} _.
Arguments mt_bytes_sent {H} _.
Arguments mt_bytes_recv {H} _.
Arguments mt_reconnects {H} _.
Arguments mt_unsolicited_frames {H} _.
Arguments mt_sent_message_errors {H} _.
Arguments mt_interrupted {H} _.
Arguments mt_errors {H} _.
Arguments mt_chaos {H} _.
Arguments mt_absorbed {H} _.
Arguments mt_actions {H} _.
#[export] Instance MetricsTotals_eta {H} : Settable (MetricsTotals H) := fun t =>
  mkMetricsTotals (mt_handshake t) (mt_rtt t) (mt_response t) (mt_messages_sent t)
    (mt_messages_recv t) (mt_bytes_sent t) (mt_bytes_recv t) (mt_reconnects t)
    (mt_unsolicited_frames t) (mt_sent_message_errors t) (mt_interrupted t) (mt_errors t)
    (mt_chaos t) (mt_absorbed t) (mt_actions t).

Section Totals.
Context {H : Type} `{Hdr H}.
Local Abbreviation totals := (MetricsTotals H).

Definition metrics_latency_histogram : result H WsBlastError :=
  match latency_histogram with
  | Some h => Ok h
  | None => Err (MetricsFailure "invalid latency histogram bounds")
  end.

Definition ActionTotals_new : result (ActionTotals H) WsBlastError :=
  let? rtt := metrics_latency_histogram in
  let? response := metrics_latency_histogram in
  Ok (mkActionTotals rtt response ActionCounts_default).

Definition add_counts (counts : ActionCounts) (a : ActionTotals H) : ActionTotals H :=
  a <| at_counts ::= fun c => mkActionCounts
    (an_sent c +u an_sent counts) (an_errors c +u an_errors counts)
    (an_sent_message_errors c +u an_sent_message_errors counts) |>.

Definition MetricsTotals_new : result totals WsBlastError :=
  let? handshake := metrics_latency_histogram in
  let? rtt := metrics_latency_histogram in
  let? response := metrics_latency_histogram in
  Ok (mkMetricsTotals handshake rtt response 0 0 0 0 0 0 0 0 ∅ None [] ∅).

(** [if let Some(action) = self.action(name) { *action = f(action) }]: the
    entry is created when first needed. *)
Definition on_action (name : string) (f : ActionTotals H -> ActionTotals H) (t : totals) : totals :=
  match mt_actions t !! name with
  | Some a => t <| mt_actions ::= <[name := f a]> |>
  | None => match ActionTotals_new with
            | Ok a => t <| mt_actions ::= <[name := f a]> |>
            | Err _ => t
            end
  end.

(** [iter.enumerate()]. *)
Definition enumerate {A} (l : list A) : list (nat * A) := zip (seq 0 (length l)) l.

Definition add_recorder_action (recorder : LatencyRecorder) (t : totals) (e : nat * string) : totals :=
  let (index, name) := e in
  on_action name (fun action =>
    let (rtt, response) := add_action_to recorder index (at_rtt action) (at_response action) in
    action <| at_rtt := rtt |> <| at_response := response |>) t.

Definition add_recorder (heap : gmap nat LatencyRecorder) (latency : nat) (t : totals) : totals :=
  if decide (latency ∈ mt_absorbed t) then t
  else
    match heap !! latency with
    | None => t
    | Some recorder =>
        let '(handshake, rtt, response) :=
          LatencyRecorder_add_to recorder (mt_handshake t) (mt_rtt t) (mt_response t) in
        let t := t <| mt_handshake := handshake |> <| mt_rtt := rtt |> <| mt_response := response |> in
        let t := fold_left (add_recorder_action recorder) (enumerate (action_names recorder)) t in
        t <| mt_absorbed ::= fun absorbed => absorbed ++ [latency] |>
    end.

Definition add_worker_action (w : WorkerMetrics) (t : totals) (e : nat * string) : totals :=
  let (index, name) := e in
  match wm_actions w !! index with
  | Some counts => on_action name (add_counts counts) t
  | None => t
  end.

(** [for (category, count) in errors { *self.errors.entry(category).or_insert(0) += count }];
    additions to different entries commute, so the order of the hash map is
    immaterial. *)
Definition add_errors (into from : gmap ErrorCategory Z) : gmap ErrorCategory Z :=
  union_with (fun a b => Some (a +u b)) into from.

Definition add_worker_counts (heap : gmap nat LatencyRecorder) (w : WorkerMetrics) (t : totals) : totals :=
  let names := from_option action_names [] (heap !! wm_latency w) in
  let t := fold_left (add_worker_action w) (enumerate names) t in
  t <| mt_messages_sent ::= fun n => n +u wm_messages_sent w |>
    <| mt_messages_recv ::= fun n => n +u wm_messages_recv w |>
    <| mt_bytes_sent ::= fun n => n +u wm_bytes_sent w |>
    <| mt_bytes_recv ::= fun n => n +u wm_bytes_recv w |>
    <| mt_reconnects ::= fun n => n +u wm_reconnects w |>
    <| mt_unsolicited_frames ::= fun n => n +u wm_unsolicited_frames w |>
    <| mt_sent_message_errors ::= fun n => n +u wm_sent_message_errors w |>
    <| mt_interrupted ::= fun n => n +u Z.b2z (wm_interrupted w) |>
    <| mt_errors ::= fun errors => add_errors errors (wm_errors w) |>
    <| mt_chaos ::= fun chaos => add_chaos chaos (wm_chaos w) |>.

Definition add_worker (heap : gmap nat LatencyRecorder) (w : WorkerMetrics) (t : totals) : totals :=
  add_worker_counts heap w (add_recorder heap (wm_latency w) t).

(** The error's text does not carry the crate's debug output. *)
Definition merge_error : WsBlastError := MetricsFailure "cannot merge histograms".
Definition hdr_merge (h other : H) : result H WsBlastError :=
  match hdr_add h other with Some h' => Ok h' | None => Err merge_error end.

(** Adding the totals of one action name of another machine. *)
Definition add_action_totals (acc : result totals WsBlastError) (e : string * ActionTotals H)
  : result totals WsBlastError :=
  let (name, theirs) := e in
  let? t := acc in
  let? ours :=
    match mt_actions t !! name with
    | Some a => Ok a
    | None => match ActionTotals_new with
              | Ok a => Ok a
              | Err _ => Err (MetricsFailure "invalid latency histogram bounds")
              end
    end in
  let? rtt := hdr_merge (at_rtt ours) (at_rtt theirs) in
  let? response := hdr_merge (at_response ours) (at_response theirs) in
  Ok (t <| mt_actions ::= <[name :=
    add_counts (at_counts theirs) (mkActionTotals rtt response (at_counts ours))]> |>).

(** The entries of a [BTreeMap<String, _>], in byte order of the keys. *)
Definition name_le {V} (a b : string * V) : Prop := String.leb a.1 b.1 = true.
#[export] Instance name_le_dec {V} (a b : string * V) : Decision (name_le a b).
Proof. unfold name_le. apply _. Defined.
Definition name_entries {V} (m : gmap string V) : list (string * V) :=
  merge_sort name_le (map_to_list m).

Definition MetricsTotals_add (t other : totals) : result totals WsBlastError :=
  let? handshake := hdr_merge (mt_handshake t) (mt_handshake other) in
  let? rtt := hdr_merge (mt_rtt t) (mt_rtt other) in
  let? response := hdr_merge (mt_response t) (mt_response other) in
  let t := t
    <| mt_handshake := handshake |>
    <| mt_rtt := rtt |>
    <| mt_response := response |>
    <| mt_messages_sent ::= fun n => n +u mt_messages_sent other |>
    <| mt_messages_recv ::= fun n => n +u mt_messages_recv other |>
    <| mt_bytes_sent ::= fun n => n +u mt_bytes_sent other |>
    <| mt_bytes_recv ::= fun n => n +u mt_bytes_recv other |>
    <| mt_reconnects ::= fun n => n +u mt_reconnects other |>
    <| mt_unsolicited_frames ::= fun n => n +u mt_unsolicited_frames other |>
    <| mt_sent_message_errors ::= fun n => n +u mt_sent_message_errors other |>
    <| mt_interrupted ::= fun n => n +u mt_interrupted other |>
    <| mt_errors ::= fun errors => add_errors errors (mt_errors other) |>
    <| mt_chaos ::= fun chaos => add_chaos chaos (mt_chaos other) |> in
  fold_left add_action_totals (name_entries (mt_actions other)) (Ok t).

End Totals.

(** ** The summary *)

Record ActionMetrics := mkActionMetrics {
  am_name : string;
  am_messages_sent : Z;
  am_errors : Z;
  am_error_rate : f64;
  am_message_rtt : LatencyStats;
  am_response_time : LatencyStats;
}.

Definition f64_one : f64 := f64_of_Z 1.

(** [(errors as f64 / attempted as f64).min(1.0)], or 0 without attempts. *)
Definition error_rate_of (errors attempted : Z) : f64 :=
  if 0 <? attempted
  then f64_min (f64_div (f64_of_Z errors) (f64_of_Z attempted)) f64_one else f64_zero.

Definition ActionMetrics_of {H} `{Hdr H} (name : string) (totals : ActionTotals H) : ActionMetrics :=
  let counts := at_counts totals in
  let attempted :=
    an_sent counts +u u64_saturating_sub (an_errors counts) (an_sent_message_errors counts) in
  mkActionMetrics name (an_sent counts) (an_errors counts)
    (error_rate_of (an_errors counts) attempted)
    (LatencyStats_from_histogram (at_rtt totals))
    (LatencyStats_from_histogram (at_response totals)).

Definition ActionMetrics_latency (a : ActionMetrics) : LatencyStats :=
  if 0 <? l_count (am_response_time a) then am_response_time a else am_message_rtt a.

Record AggregatedMetrics := mkAggregatedMetrics {
  ag_total_connections_attempted : Z;
  ag_total_connections_established : Z;
  ag_total_connections_failed : Z;
  ag_total_connections_interrupted : Z;
  ag_total_connections_not_started : Z;
  ag_total_reconnects : Z;
  ag_total_unsolicited_frames : Z;
  ag_total_messages_sent : Z;
  ag_total_messages_recv : Z;
  ag_total_bytes_sent : Z;
  ag_total_bytes_recv : Z;
  ag_elapsed : Z;
  ag_throughput_msg_per_sec : f64;
  ag_throughput_bytes_per_sec : f64;
  ag_error_rate : f64;
  ag_handshake_latency : LatencyStats;
  ag_message_rtt : LatencyStats;
  ag_response_time : LatencyStats;
  ag_time_series : TimeSeries;
  ag_error_breakdown : gmap ErrorCategory Z;
  ag_capture : option CaptureSummary;
  ag_distributed : option DistributedSummary;
  ag_chaos : option ChaosSummary;
  ag_generator_lag_ : option GeneratorLag;
  ag_open_file_limit_ : option OpenFileLimit;
  ag_slow_replies : option SlowReplies;
  ag_actions : list ActionMetrics;
  ag_arrivals : option ArrivalSummary;
  ag_compression : option CompressionSummary;
}.
#[export] Instance AggregatedMetrics_eta : Settable AggregatedMetrics := fun a =>
  mkAggregatedMetrics (ag_total_connections_attempted a) (ag_total_connections_established a)
    (ag_total_connections_failed a) (ag_total_connections_interrupted a)
    (ag_total_connections_not_started a) (ag_total_reconnects a) (ag_total_unsolicited_frames a)
    (ag_total_messages_sent a) (ag_total_messages_recv a) (ag_total_bytes_sent a)
    (ag_total_bytes_recv a) (ag_elapsed a) (ag_throughput_msg_per_sec a)
    (ag_throughput_bytes_per_sec a) (ag_error_rate a) (ag_handshake_latency a) (ag_message_rtt a)
    (ag_response_time a) (ag_time_series a) (ag_error_breakdown a) (ag_capture a)
    (ag_distributed a) (ag_chaos a) (ag_generator_lag_ a) (ag_open_file_limit_ a)
    (ag_slow_replies a) (ag_actions a) (ag_arrivals a) (ag_compression a).

(** [errors.values().sum::<u64>()]. *)
Definition errors_sum (errors : gmap ErrorCategory Z) : Z :=
  fold_left u64_add (map_to_list errors).*2 0.

Definition MetricsTotals_finish {H} `{Hdr H} (t : MetricsTotals H) (elapsed attempted_conns : Z)
  : AggregatedMetrics :=
  let error_breakdown := mt_errors t in
  let total_errors := errors_sum error_breakdown in
  let attempted_ops :=
    mt_messages_sent t +u u64_saturating_sub total_errors (mt_sent_message_errors t) in
  let elapsed_secs := f64_max (as_secs_f64 elapsed) MIN_SECS in
  let established :=
    Z.min (u64_saturating_sub (hdr_len (mt_handshake t)) (mt_reconnects t)) attempted_conns in
  let interrupted := Z.min (mt_interrupted t) (u64_saturating_sub attempted_conns established) in
  let failed := u64_saturating_sub (u64_saturating_sub attempted_conns established) interrupted in
  mkAggregatedMetrics attempted_conns established failed interrupted 0
    (mt_reconnects t) (mt_unsolicited_frames t)
    (mt_messages_sent t) (mt_messages_recv t) (mt_bytes_sent t) (mt_bytes_recv t)
    elapsed
    (f64_div (f64_of_Z (Z.max (mt_messages_sent t) (mt_messages_recv t))) elapsed_secs)
    (f64_div (f64_of_Z (mt_bytes_sent t +u mt_bytes_recv t)) elapsed_secs)
    (error_rate_of total_errors attempted_ops)
    (LatencyStats_from_histogram (mt_handshake t))
    (LatencyStats_from_histogram (mt_rtt t))
    (LatencyStats_from_histogram (mt_response t))
    TimeSeries_default
    error_breakdown None None (mt_chaos t) None None
    (if hdr_is_empty (mt_response t) then SlowReplies_of (mt_rtt t) else None)
    ((fun e => ActionMetrics_of e.1 e.2) <$> name_entries (mt_actions t))
    None None.

Definition AggregatedMetrics_merge {H} `{Hdr H} (heap : gmap nat LatencyRecorder)
    (workers : list WorkerMetrics) (elapsed attempted_conns : Z)
  : result AggregatedMetrics WsBlastError :=
  let? totals := @MetricsTotals_new H _ in
  Ok (MetricsTotals_finish (fold_left (fun t w => add_worker heap w t) workers totals)
        elapsed attempted_conns).

Definition with_time_series (time_series : TimeSeries) (a : AggregatedMetrics) :=
  a <| ag_time_series := time_series |>.
Definition with_distributed (summary : DistributedSummary) (a : AggregatedMetrics) :=
  a <| ag_distributed := Some summary |>.
Definition with_generator (lag : option GeneratorLag) (limit : option OpenFileLimit)
    (a : AggregatedMetrics) :=
  a <| ag_generator_lag_ := lag |> <| ag_open_file_limit_ := limit |>.
Definition with_arrivals (arrivals : option Arrivals) (counts : option ArrivalCounts)
    (a : AggregatedMetrics) :=
  a <| ag_arrivals := arrivals ← arrivals; counts ← counts; Some (ArrivalSummary_new arrivals counts) |>.
Definition with_compression (counts : option CompressionCounts) (a : AggregatedMetrics) :=
  a <| ag_compression := CompressionSummary_from <$> counts |>.
Definition with_capture (capture : option CaptureSummary) (a : AggregatedMetrics) :=
  a <| ag_capture := capture |>.
Definition with_not_started (not_started : Z) (a : AggregatedMetrics) : AggregatedMetrics :=
  let not_started := Z.min not_started (ag_total_connections_failed a) in
  a <| ag_total_connections_failed ::= fun n => n -u not_started |>
    <| ag_total_connections_not_started := not_started |>.

(** ** The report agrees with the live counters *)

(** The operations of a worker. *)
Inductive WorkerOp :=
| OpHandshake (duration : Z)
| OpReconnect (duration : Z)
| OpConnectionFailed (err : ErrorCategory)
| OpConnectionClosed
| OpMessageSent (bytes : Z)
| OpMessageRecv (now bytes : Z) (rtt : option Z)
| OpResponseTime (now duration : Z)
| OpUnsolicited (count : Z)
| OpError (err : ErrorCategory) (scope : ErrorScope)
| OpChaosDelayed | OpChaosDropped | OpChaosCorrupted | OpChaosReadPause | OpChaosClose
| OpFlush
| OpSetAction (action : option nat).

(** The counters both the worker and the registry keep. *)
Definition mirror (c : Counter) (w : WorkerMetrics) : Z :=
  match c with
  | messages_sent => wm_messages_sent w
  | messages_received => wm_messages_recv w
  | bytes_sent => wm_bytes_sent w
  | bytes_received => wm_bytes_recv w
  | reconnects => wm_reconnects w
  | unsolicited_frames => wm_unsolicited_frames w
  | total_errors => map_sum (wm_errors w)
  | _ => 0
  end.
Definition mirrored (c : Counter) : bool :=
  match c with
  | active_connections | connections_established | connections_failed => false
  | _ => true
  end.

Section LiveAgrees.
Context {H : Type} `{Hdr H}.
Local Abbreviation cell := (WorkerMetrics * RunShared H)%type.

Definition run_op (op : WorkerOp) : cell -> cell :=
  match op with
  | OpHandshake d => record_handshake d
  | OpReconnect d => record_reconnect d
  | OpConnectionFailed err => record_connection_failed err
  | OpConnectionClosed => record_connection_closed
  | OpMessageSent bytes => record_message_sent bytes
  | OpMessageRecv now bytes rtt => record_message_recv now bytes rtt
  | OpResponseTime now d => record_response_time now d
  | OpUnsolicited count => record_unsolicited_frames count
  | OpError err scope => record_error err scope
  | OpChaosDelayed => record_chaos_delayed
  | OpChaosDropped => record_chaos_dropped
  | OpChaosCorrupted => record_chaos_corrupted
  | OpChaosReadPause => record_chaos_read_pause
  | OpChaosClose => record_chaos_close
  | OpFlush => flush_interval
  | OpSetAction action => on_worker (fun w => w <| wm_current_action := action |>)
  end.

(** One worker's operation, among all workers of the run. *)
Definition run_step (st : list WorkerMetrics * RunShared H) (e : nat * WorkerOp)
  : list WorkerMetrics * RunShared H :=
  let (i, op) := e in
  match st.1 !! i with
  | Some w => let (w', s') := run_op op (w, st.2) in (<[i := w']> st.1, s')
  | None => st
  end.

(** What an operation adds to counter [c]. *)
Definition op_amount (op : WorkerOp) (c : Counter) : Z :=
  match op, c with
  | OpReconnect _, reconnects => 1
  | OpConnectionFailed _, total_errors => 1
  | OpError _ _, total_errors => 1
  | OpMessageSent _, messages_sent => 1
  | OpMessageSent bytes, bytes_sent => bytes
  | OpMessageRecv _ _ _, messages_received => 1
  | OpMessageRecv _ bytes _, bytes_received => bytes
  | OpUnsolicited count, unsolicited_frames => count
  | _, _ => 0
  end.

(** A step moves the worker's counter by [dw] and the registry's by [dl]
    (modulo 2^64). *)
Definition moves (c : Counter) (dw dl : Z) (st st' : cell) : Prop :=
  lm_shards (rs_live st.2) <> [] ->
  lm_shards (rs_live st'.2) <> [] /\
  wrap 64 (mirror c st'.1) = wrap 64 (mirror c st.1 + dw) /\
  snapshot_get c (snapshot (rs_live st'.2)) =
    wrap 64 (snapshot_get c (snapshot (rs_live st.2)) + dl).

Lemma moves_refl c st : moves c 0 0 st st.
Proof.
  intros Hne. rewrite !Z.add_0_r. split_and!; [done|done|]. symmetry. apply wrap_id, snapshot_get_range.
Qed.

Lemma moves_trans c dw dl dw' dl' st st' st'' :
  moves c dw dl st st' -> moves c dw' dl' st' st'' -> moves c (dw + dw') (dl + dl') st st''.
Proof.
  intros M1 M2 Hne. destruct (M1 Hne) as (Hne' & W1 & L1). destruct (M2 Hne') as (Hne'' & W2 & L2).
  split_and!; [done| |].
  - by rewrite W2, <- wrap_add_l, W1, wrap_add_l, Z.add_assoc.
  - by rewrite L2, L1, wrap_add_l, Z.add_assoc.
Qed.

Lemma moves_worker c d f st :
  (forall w, wrap 64 (mirror c (f w)) = wrap 64 (mirror c w + d)) -> moves c d 0 st (on_worker f st).
Proof.
  intros Hf Hne. split_and!; [done|apply Hf|]. rewrite Z.add_0_r. symmetry.
  apply wrap_id, snapshot_get_range.
Qed.

Lemma moves_add c c' n st :
  moves c 0 (if decide (c' = c) then n else 0) st (counters_add c' n st).
Proof.
  intros Hne. unfold counters_add. cbn [fst snd rs_live set_field]. split_and!.
  - intros Hnil. apply (f_equal length) in Hnil. rewrite live_fetch_add_shards in Hnil.
    by destruct (lm_shards (rs_live st.2)).
  - by rewrite Z.add_0_r.
  - rewrite snapshot_fetch_add by done. case_decide as Hc; [by subst|].
    rewrite Z.add_0_r. symmetry. apply wrap_id, snapshot_get_range.
Qed.

Lemma moves_recorder c f st : moves c 0 0 st (on_recorder_of f st).
Proof. exact (moves_refl c st). Qed.

Lemma moves_interval c f st : moves c 0 0 st (on_interval f st).
Proof.
  unfold on_interval. destruct (wm_interval st.1) as [r|]; [|apply moves_refl].
  destruct (f (r, rs_store st.2)) as [r' store']. intros Hne.
  destruct (moves_refl c st Hne) as (H1 & H2 & H3). split_and!; [done| |exact H3].
  by destruct c.
Qed.

Lemma mirror_update_action c f w : mirror c (update_action f w) = mirror c w.
Proof. unfold update_action. destruct (wm_current_action w); by destruct c. Qed.

Lemma moves_action c f st : moves c 0 0 st (on_worker (update_action f) st).
Proof. apply moves_worker. intros w. by rewrite mirror_update_action, Z.add_0_r. Qed.

(** The last step of a composed operation. *)
Lemma moves_then c dw dl dw' dl' dw'' dl'' (f : cell -> cell) st st' :
  moves c dw' dl' st' (f st') -> moves c dw dl st st' ->
  dw'' = dw + dw' -> dl'' = dl + dl' -> moves c dw'' dl'' st (f st').
Proof. intros M2 M1 -> ->. by eapply moves_trans. Qed.

Lemma moves_error_count c err st :
  moves c (if decide (total_errors = c) then 1 else 0) 0 st
    (on_worker (fun w => w <| wm_errors ::= fun errors =>
       <[err := default 0 (errors !! err) +u 1]> errors |>) st).
Proof.
  apply moves_worker. intros w.
  destruct c; try (cbn; by rewrite Z.add_0_r).
  cbn [mirror set_field wm_errors]. rewrite decide_True, map_sum_insert by done. unfold u64_add. rewrite wrap_add_r. f_equal. lia.
Qed.

Lemma moves_error c err scope st :
  let d := if decide (total_errors = c) then 1 else 0 in
  moves c d d st (record_error err scope st).
Proof.
  intros d. unfold record_error.
  eapply moves_then; [apply moves_add| | |].
  - eapply moves_then; [apply moves_action| | |].
    + eapply moves_then; [|apply moves_error_count| |]; [|reflexivity|reflexivity].
      apply (moves_worker c 0). intros w. rewrite Z.add_0_r. case_decide; by destruct c.
    + reflexivity.
    + reflexivity.
  - unfold d. lia.
  - unfold d. lia.
Qed.

(** A field of the worker moves by [d] as [f] adds it. *)
Ltac solve_worker :=
  let w := fresh "w" in
  intros w; match goal with |- context [mirror ?c _] => destruct c end;
  cbn; unfold u64_add; rewrite ?wrap_wrap, ?Z.add_0_r; reflexivity.

Lemma moves_handshake c duration st :
  mirrored c = true -> moves c 0 0 st (record_handshake_latency duration st).
Proof.
  intros Hc. assert (active_connections <> c) as Hne by (by intros <-).
  unfold record_handshake_latency.
  eapply moves_then; [apply moves_add|apply moves_recorder|lia|]. by rewrite decide_False.
Qed.

Lemma moves_recv c now bytes rtt st :
  moves c (op_amount (OpMessageRecv now bytes rtt) c) (op_amount (OpMessageRecv now bytes rtt) c) st
    (record_message_recv now bytes rtt st).
Proof.
  unfold record_message_recv. eapply moves_then; [apply moves_add| | |].
  - eapply moves_then; [apply moves_add| | |]; [|reflexivity|reflexivity].
    set (mid := on_worker _ st).
    assert (moves c (op_amount (OpMessageRecv now bytes rtt) c) 0 st mid) as Hmid
      by (apply moves_worker; solve_worker).
    destruct rtt as [d|]; [|exact Hmid]. rewrite <- (Z.add_0_r (op_amount _ _)).
    eapply (moves_trans c _ 0 0 0); [exact Hmid|]. cbv zeta.
    case_match; [eapply (moves_then c 0 0 0 0); [apply moves_interval| |done|done]|];
      (case_match; [eapply (moves_then c 0 0 0 0); [apply moves_recorder| |done|done]|];
       apply moves_recorder).
  - lia.
  - by destruct c.
Qed.

(** Every operation moves both by the same amount. *)
Lemma op_moves_together op c st :
  mirrored c = true -> moves c (op_amount op c) (op_amount op c) st (run_op op st).
Proof.
  intros Hc.
  assert (active_connections <> c /\ connections_established <> c /\ connections_failed <> c)
    as (H1 & H2 & H3) by (by split_and!; intros <-).
  destruct op; cbn [run_op]; try (destruct c; apply moves_worker; by solve_worker).
  - unfold record_handshake. eapply moves_then; [apply moves_add|by apply moves_handshake| |].
    + by destruct c.
    + rewrite decide_False by done. by destruct c.
  - unfold record_reconnect. eapply moves_then; [apply moves_add| | |].
    + eapply (moves_then c 0 0 (op_amount (OpReconnect duration) c) 0);
        [apply moves_worker; solve_worker|by apply moves_handshake|reflexivity|reflexivity].
    + lia.
    + by destruct c.
  - unfold record_connection_failed. eapply moves_then; [apply moves_add|apply moves_error| |].
    + destruct c; reflexivity || done.
    + rewrite (decide_False (P := connections_failed = c)) by done. by destruct c.
  - unfold record_connection_closed. eapply moves_then; [apply moves_add|apply moves_refl| |].
    + by destruct c.
    + rewrite decide_False by done. by destruct c.
  - unfold record_message_sent. eapply moves_then; [apply moves_add| | |].
    + eapply moves_then; [apply moves_add| | |]; [|reflexivity|reflexivity].
      eapply (moves_then c (op_amount (OpMessageSent bytes) c) 0 0 0);
        [apply moves_action|apply moves_worker; solve_worker|reflexivity|reflexivity].
    + lia.
    + by destruct c.
  - apply moves_recv.
  - replace (op_amount _ _) with (0 + 0) by (by destruct c). unfold record_response_time.
    cbv zeta. eapply (moves_then c 0 0 0 0); [apply moves_interval| |done|done].
    case_match; [eapply (moves_then c 0 0 0 0); [apply moves_recorder| |done|done]|]; apply moves_recorder.
  - unfold record_unsolicited_frames. destruct (Z.eqb_spec count 0) as [->|Hn].
    + replace (op_amount _ _) with 0 by (by destruct c). apply moves_refl.
    + eapply (moves_then c (op_amount (OpUnsolicited count) c) 0);
        [apply moves_add|apply moves_worker; solve_worker|lia|by destruct c].
  - pose proof (moves_error c err scope st) as Hm. by destruct c.
  - replace (op_amount _ _) with 0 by (by destruct c). apply moves_interval.
Qed.

(** The sum of a counter over the workers, as the totals add it up. *)
Definition workers_sum (c : Counter) (ws : list WorkerMetrics) : Z := sum_Z (mirror c <$> ws).

Definition live_agrees (c : Counter) (st : list WorkerMetrics * RunShared H) : Prop :=
  lm_shards (rs_live st.2) <> [] /\
  snapshot_get c (snapshot (rs_live st.2)) = wrap 64 (workers_sum c st.1).

(** A step of worker [i] that moves both alike. *)
Lemma live_agrees_step c ws s i w w' s' d :
  live_agrees c (ws, s) -> ws !! i = Some w -> moves c d d (w, s) (w', s') -> live_agrees c (<[i := w']> ws, s').
Proof.
  intros [Hne Hag] Hi Hm. destruct (Hm Hne) as (Hne' & Hw & Hl). cbn [fst snd] in *. split; [done|]. cbn [fst snd].
  rewrite Hl, Hag, wrap_add_l. unfold workers_sum. rewrite (sum_Z_insert _ _ i w) by done.
  rewrite <- (wrap_add_r 64 _ (mirror c w')), Hw, wrap_add_r. f_equal. lia.
Qed.

Lemma run_step_agrees c st e : mirrored c = true -> live_agrees c st -> live_agrees c (run_step st e).
Proof.
  intros Hc Hst. destruct st as [ws s], e as [i op]. unfold run_step. cbn [fst snd].
  destruct (ws !! i) as [w|] eqn:Hi; [|done].
  pose proof (op_moves_together op c (w, s) Hc) as Hm. destruct (run_op op (w, s)) as [w' s'].
  by apply (live_agrees_step c ws s i w w' s' (op_amount op c)).
Qed.

Lemma run_steps_agree c es st :
  mirrored c = true -> live_agrees c st -> live_agrees c (fold_left run_step es st).
Proof.
  intros Hc. revert st. induction es as [|e es IH]; intros st Hst; [done|].
  cbn [fold_left]. by apply IH, run_step_agrees.
Qed.

(** The workers of a run, created one after the other. *)
Fixpoint spawn_workers (n latency : nat) (s : RunShared H) : list WorkerMetrics * RunShared H :=
  match n with
  | O => ([], s)
  | S n' =>
      let (w, s1) := with_latency latency s in
      let (ws, s2) := spawn_workers n' latency s1 in
      (w :: ws, s2)
  end.

Lemma spawn_workers_agree c n latency s :
  live_agrees c ([], s) -> live_agrees c (spawn_workers n latency s).
Proof.
  revert s. induction n as [|n IH]; intros s [Hne Hag]; [done|].
  cbn [spawn_workers with_latency assign_shard].
  match goal with |- context [spawn_workers n latency ?x] => specialize (IH x) end.
  destruct (spawn_workers _ _ _) as [ws s2]. destruct IH as [Hne' Hag']; [by split|].
  split; [done|]. cbn [fst snd] in *. rewrite Hag'. unfold workers_sum.
  rewrite fmap_cons, sum_Z_cons. by destruct c.
Qed.

(** *** The totals add the workers up *)

Definition totals_get (c : Counter) (t : MetricsTotals H) : Z :=
  match c with
  | messages_sent => mt_messages_sent t
  | messages_received => mt_messages_recv t
  | bytes_sent => mt_bytes_sent t
  | bytes_received => mt_bytes_recv t
  | reconnects => mt_reconnects t
  | unsolicited_frames => mt_unsolicited_frames t
  | total_errors => map_sum (mt_errors t)
  | _ => 0
  end.

Lemma map_sum_add_errors m1 m2 :
  wrap 64 (map_sum (add_errors m1 m2)) = wrap 64 (map_sum m1 + map_sum m2).
Proof.
  induction m2 as [|k x m2 Hk IH] using map_ind.
  { unfold add_errors. rewrite (right_id ∅ _). f_equal. cbn. unfold map_sum at 3.
    rewrite map_to_list_empty. cbn. lia. }
  assert (add_errors m1 (<[k := x]> m2) =
    <[k := match m1 !! k with Some y => y +u x | None => x end]> (add_errors m1 m2)) as ->.
  { apply map_eq. intros k'. unfold add_errors. rewrite lookup_union_with.
    destruct (decide (k' = k)) as [->|Hne].
    - rewrite !lookup_insert_eq. by destruct (m1 !! k).
    - by rewrite !lookup_insert_ne, lookup_union_with. }
  assert (default 0 (add_errors m1 m2 !! k) = default 0 (m1 !! k)) as Hd.
  { unfold add_errors. rewrite lookup_union_with, Hk. by destruct (m1 !! k). }
  rewrite !map_sum_insert, Hd, Hk. cbn [default from_option id]. rewrite Z.sub_0_r.
  assert (forall a, wrap 64 (a - default 0 (m1 !! k) +
    match m1 !! k with Some y => y +u x | None => x end) = wrap 64 (a + x)) as ->.
  { intros a. destruct (m1 !! k); cbn; [unfold u64_add; rewrite wrap_add_r|]; f_equal; lia. }
  by rewrite <- wrap_add_l, IH, wrap_add_l, Z.add_assoc.
Qed.

Lemma totals_get_on_action c name f t : totals_get c (on_action name f t) = totals_get c t.
Proof.
  unfold on_action. destruct (mt_actions t !! name); [by destruct c|].
  destruct ActionTotals_new; by destruct c.
Qed.

Lemma fold_left_keeps {A B C} (get : A -> C) (f : A -> B -> A) l a :
  (forall a b, get (f a b) = get a) -> get (fold_left f l a) = get a.
Proof. intros Hf. revert a. induction l as [|b l IH]; intros a; [done|]. cbn. by rewrite IH. Qed.

Lemma totals_get_add_recorder c heap latency t :
  totals_get c (add_recorder heap latency t) = totals_get c t.
Proof.
  unfold add_recorder. case_decide; [done|]. destruct (heap !! latency) as [r|]; [|done].
  destruct (LatencyRecorder_add_to r _ _ _) as [[h1 h2] h3].
  set (t1 := t <| mt_handshake := h1 |> <| mt_rtt := h2 |> <| mt_response := h3 |>).
  transitivity (totals_get c (fold_left (add_recorder_action r) (enumerate (action_names r)) t1)).
  - by destruct c.
  - rewrite (fold_left_keeps (totals_get c)).
    + by destruct c.
    + intros t' [i name]. apply totals_get_on_action.
Qed.

Lemma totals_get_add_worker_counts c heap w t :
  mirrored c = true ->
  wrap 64 (totals_get c (add_worker_counts heap w t)) = wrap 64 (totals_get c t + mirror c w).
Proof.
  intros Hc. unfold add_worker_counts.
  set (t1 := fold_left (add_worker_action w) _ _).
  assert (totals_get c t1 = totals_get c t) as <-.
  { unfold t1. apply (fold_left_keeps (totals_get c)).
    intros t' [i name]. unfold add_worker_action.
    destruct (wm_actions w !! i); [apply totals_get_on_action|done]. }
  destruct c; try done; cbn; try (by unfold u64_add; rewrite wrap_wrap).
  apply map_sum_add_errors.
Qed.

Lemma totals_get_add_worker c heap w t :
  mirrored c = true ->
  wrap 64 (totals_get c (add_worker heap w t)) = wrap 64 (totals_get c t + mirror c w).
Proof. intros Hc. unfold add_worker. by rewrite totals_get_add_worker_counts, totals_get_add_recorder. Qed.

Lemma totals_get_add_workers c heap ws t :
  mirrored c = true ->
  wrap 64 (totals_get c (fold_left (fun t w => add_worker heap w t) ws t)) =
    wrap 64 (totals_get c t + workers_sum c ws).
Proof.
  intros Hc. revert t. induction ws as [|w ws IH]; intros t; unfold workers_sum in *.
  - cbn. by rewrite Z.add_0_r.
  - cbn [fold_left]. rewrite IH, <- wrap_add_l, totals_get_add_worker, wrap_add_l by done.
    rewrite fmap_cons, sum_Z_cons. f_equal. lia.
Qed.

Lemma errors_sum_eq m : errors_sum m = wrap 64 (map_sum m).
Proof.
  unfold errors_sum, map_sum. pose proof (fold_left_add u64_add id id) as Hf.
  specialize (Hf (fun _ _ => eq_refl) (map_to_list m).*2 0). cbn in Hf.
  rewrite Hf by done. by rewrite list_fmap_id.
Qed.

(** What the report says of a counter. *)
Definition report_get (c : Counter) (a : AggregatedMetrics) : Z :=
  match c with
  | messages_sent => ag_total_messages_sent a
  | messages_received => ag_total_messages_recv a
  | bytes_sent => ag_total_bytes_sent a
  | bytes_received => ag_total_bytes_recv a
  | reconnects => ag_total_reconnects a
  | unsolicited_frames => ag_total_unsolicited_frames a
  | total_errors => errors_sum (ag_error_breakdown a)
  | _ => 0
  end.

Lemma totals_get_range c heap ws t :
  c <> total_errors -> is_u64 (totals_get c t) ->
  is_u64 (totals_get c (fold_left (fun t w => add_worker heap w t) ws t)).
Proof.
  intros Hc. revert t. induction ws as [|w ws IH]; intros t Ht; [done|]. cbn [fold_left].
  apply IH. destruct c; try done; apply u64_add_range.
Qed.

Lemma report_get_finish c t elapsed attempted :
  report_get c (MetricsTotals_finish t elapsed attempted) =
    if decide (c = total_errors) then wrap 64 (totals_get c t) else totals_get c t.
Proof. destruct c; try done. apply errors_sum_eq. Qed.

End LiveAgrees.

Section Report.
Context {H : Type} `{HdrLaws H}.

(** Totals of nothing: empty histograms with the latency bounds. *)
Definition fresh_hist (h : H) : Prop :=
  hdr_bounds h = latency_bounds /\ forall v, in_bounds latency_bounds v -> hdr_count_at h v = 0.

Lemma metrics_latency_histogram_ok :
  exists h, metrics_latency_histogram = Ok h /\ fresh_hist h.
Proof.
  unfold metrics_latency_histogram, latency_histogram.
  destruct (hdr_new_spec latency_bounds latency_bounds_used) as (h & -> & Hb & Hc). by exists h.
Qed.

Lemma MetricsTotals_new_ok :
  exists h, fresh_hist h /\
    MetricsTotals_new = Ok (mkMetricsTotals h h h 0 0 0 0 0 0 0 0 ∅ None [] ∅).
Proof.
  destruct metrics_latency_histogram_ok as (h & Hh & Hf). exists h. split; [done|].
  unfold MetricsTotals_new. by rewrite Hh.
Qed.

(** The final report agrees with the live counters: whatever the workers
    of a run did and in whatever interleaving, merging them succeeds and
    every counter that both keep (messages, bytes, reconnects, unsolicited
    frames and the errors of all categories) has in the report the value a
    snapshot of the live registry reads. *)
Theorem report_agrees_with_live (cores : option nat) (recorders : gmap nat LatencyRecorder)
    (store : IntervalStore H) (n latency : nat) (es : list (nat * WorkerOp))
    (elapsed attempted : Z) (c : Counter)
    (Hcores : cores <> Some 0%nat) (Hc : mirrored c = true) :
  let s0 := mkRunShared (LiveMetrics_default cores) recorders store in
  let st := fold_left run_step es (spawn_workers n latency s0) in
  exists a,
    AggregatedMetrics_merge (H := H) (rs_recorders st.2) st.1 elapsed attempted = Ok a /\
    report_get c a = snapshot_get c (snapshot (rs_live st.2)).
Proof.
  intros s0 st. destruct MetricsTotals_new_ok as (h & _ & Hnew).
  unfold AggregatedMetrics_merge. rewrite Hnew. cbn [result_bind]. eexists. split; [reflexivity|].
  rewrite report_get_finish.
  assert (live_agrees c st) as [_ ->].
  { apply run_steps_agree; [done|]. apply spawn_workers_agree. split.
    - unfold s0, LiveMetrics_default. cbn. by destruct cores as [[|]|].
    - cbn [snd s0 rs_live]. by rewrite snapshot_default. }
  set (t0 := mkMetricsTotals _ _ _ _ _ _ _ _ _ _ _ _ _ _ _).
  assert (totals_get c t0 = 0) as H0' by (destruct c; try done; cbn; unfold map_sum; by rewrite map_to_list_empty).
  pose proof (totals_get_add_workers c (rs_recorders st.2) st.1 t0 Hc) as Hsum.
  rewrite H0', Z.add_0_l in Hsum. case_decide as He; [done|].
  rewrite <- Hsum. symmetry. apply wrap_id, totals_get_range; [done|]. rewrite H0'. split; lia.
Qed.

End Report.

Lemma report_agrees_with_live_witness :
  let s0 := mkRunShared (H := ClassHistogram) (LiveMetrics_default (Some 1%nat))
    {[ 0%nat := with_shards 1 ]} (IntervalStore_new 0 1000000000) in
  let es := [(0%nat, OpMessageSent 5); (2%nat, OpError Timeout SentMessage);
             (1%nat, OpMessageSent 7); (0%nat, OpConnectionFailed TcpConnect)] in
  let st := fold_left run_step es (spawn_workers 3 0 s0) in
  exists a, AggregatedMetrics_merge (H := ClassHistogram) (rs_recorders st.2) st.1 1000000000 3 = Ok a /\
    report_get total_errors a = snapshot_get total_errors (snapshot (rs_live st.2)).
Proof.
  exact (report_agrees_with_live (Some 1%nat) {[ 0%nat := with_shards 1 ]}
    (IntervalStore_new 0 1000000000) 3 0 _ 1000000000 3 total_errors
    ltac:(discriminate) eq_refl).
Defined.

(** ** The summary of a run *)

Lemma binary_round_aux_sign sx mx ex lx :
  match binary_round_aux f64_prec f64_emax sx mx ex lx with
  | S754_zero s | S754_infinity s | S754_finite s _ _ => s = sx
  | S754_nan => True
  end.
Proof.
  unfold binary_round_aux.
  destruct (shr_fexp _ _ _ _ _) as [mrs e]. destruct (shr_fexp _ _ _ e loc_Exact) as [mrs' e'].
  destruct (shr_m mrs'); [done| |done]. by destruct (e' <=? f64_emax - f64_prec).
Qed.

(** A number whose sign is plus; never NaN. *)
Definition f64_plus (x : f64) : bool :=
  match x with
  | S754_zero false | S754_infinity false | S754_finite false _ _ => true
  | _ => false
  end.

Lemma f64_of_Z_plus n : 0 <= n -> f64_plus (f64_of_Z n) = true \/ f64_of_Z n = S754_nan.
Proof.
  intros Hn. unfold f64_of_Z, binary_normalize. destruct n as [|p|p]; [by left| |lia].
  unfold binary_round. destruct (shl_align _ _ _) as [m e].
  pose proof (binary_round_aux_sign false (Zpos m) e loc_Exact) as Hs.
  destruct (binary_round_aux _ _ _ _ _ _) as [[]|[]| |[] m' e']; auto; discriminate.
Qed.

(** A quotient of such numbers is not negative. *)
Lemma f64_div_not_neg a b :
  f64_plus a = true \/ a = S754_nan -> f64_plus b = true \/ b = S754_nan ->
  f64_plus (f64_div a b) = true \/ f64_div a b = S754_nan.
Proof.
  intros [Ha| ->]; [|intros; right; done]. intros [Hb| ->]; [|by right; destruct a].
  unfold f64_div, SFdiv.
  destruct a as [[]|[]| |[] ma ea], b as [[]|[]| |[] mb eb]; try done; auto.
  destruct (SFdiv_core_binary _ _ _ _ _ _) as [[mz ez] lz].
  pose proof (binary_round_aux_sign (xorb false false) mz ez lz) as Hs.
  destruct (binary_round_aux _ _ _ _ _ _) as [[]|[]| |[] m e]; auto; discriminate.
Qed.

Lemma SFcompare_finite_sym m1 e1 m2 e2 :
  SFcompare (S754_finite false m1 e1) (S754_finite false m2 e2) =
    CompOpp <$> SFcompare (S754_finite false m2 e2) (S754_finite false m1 e1).
Proof.
  cbn. f_equal. rewrite (Z.compare_antisym e2 e1). destruct (e2 ?= e1); cbn; try done.
  change (Pos.compare_cont Eq m1 m2) with (m1 ?= m2)%positive.
  change (Pos.compare_cont Eq m2 m1) with (m2 ?= m1)%positive. apply Pos.compare_antisym.
Qed.

(** Capped at one it is between zero and one. *)
Lemma f64_min_one_range x :
  f64_plus x = true \/ x = S754_nan ->
  f64_leb f64_zero (f64_min x f64_one) = true /\ f64_leb (f64_min x f64_one) f64_one = true.
Proof.
  intros [Hx| ->]; [|by vm_compute].
  unfold f64_min. destruct (f64_is_nan x) eqn:E; [by vm_compute|].
  change (f64_is_nan f64_one) with false. cbn [f64_is_nan]. unfold f64_ltb, SFltb.
  destruct (SFcompare f64_one x) as [[]|] eqn:Ec; unfold f64_leb, SFleb.
  all: destruct x as [[]|[]| |[] m e]; try done; split; try done.
  all: change f64_one with (S754_finite false 4503599627370496 (-52)) in *.
  all: rewrite SFcompare_finite_sym, Ec; done.
Qed.

Lemma error_rate_range errors attempted :
  0 <= errors ->
  f64_leb f64_zero (error_rate_of errors attempted) = true /\
  f64_leb (error_rate_of errors attempted) f64_one = true.
Proof.
  intros He. unfold error_rate_of. destruct (Z.ltb_spec 0 attempted); [|by vm_compute].
  apply f64_min_one_range, f64_div_not_neg; apply f64_of_Z_plus; lia.
Qed.

(** The summary of any totals: every configured slot is counted exactly
    once, as established, failed, interrupted or (after
    [with_not_started]) not started; established and interrupted slots never
    exceed what the totals recorded; and the error rate lies between 0 and
    1, with 0 when nothing was attempted. *)
Theorem finish_partitions_slots {H} `{Hdr H} (t : MetricsTotals H)
    (elapsed attempted not_started : Z)
    (Hlen : 0 <= hdr_len (mt_handshake t)) (Hre : 0 <= mt_reconnects t)
    (Hint : 0 <= mt_interrupted t) (Hatt : is_u64 attempted) (Hns : 0 <= not_started) :
  let a := with_not_started not_started (MetricsTotals_finish t elapsed attempted) in
  ag_total_connections_attempted a = attempted /\
  ag_total_connections_established a + ag_total_connections_failed a
    + ag_total_connections_interrupted a + ag_total_connections_not_started a = attempted /\
  0 <= ag_total_connections_established a <= Z.max 0 (hdr_len (mt_handshake t) - mt_reconnects t) /\
  0 <= ag_total_connections_interrupted a <= mt_interrupted t /\
  0 <= ag_total_connections_failed a /\
  0 <= ag_total_connections_not_started a <= not_started /\
  f64_leb f64_zero (ag_error_rate a) = true /\ f64_leb (ag_error_rate a) f64_one = true.
Proof.
  intros a. pose proof (error_rate_range (errors_sum (mt_errors t))
    (mt_messages_sent t +u u64_saturating_sub (errors_sum (mt_errors t)) (mt_sent_message_errors t))) as Hr.
  assert (0 <= errors_sum (mt_errors t)) as He by (rewrite errors_sum_eq; apply u64_range).
  specialize (Hr He). unfold a, with_not_started, MetricsTotals_finish. cbn.
  unfold u64_saturating_sub in *. set (established := Z.min _ attempted).
  set (interrupted := Z.min (mt_interrupted t) _).
  assert (0 <= established <= attempted) by (unfold established; ulia).
  assert (0 <= interrupted <= attempted - established) by (unfold interrupted; lia).
  unfold u64_sub. rewrite wrap_id by ulia.
  split_and!; try apply Hr; unfold established, interrupted in *; lia.
Qed.

Lemma finish_partitions_slots_witness :
  let t := mkMetricsTotals (H := ClassHistogram) (hdr_record' 5 (mkClassHistogram latency_bounds ∅))
    (mkClassHistogram latency_bounds ∅) (mkClassHistogram latency_bounds ∅)
    4 3 40 30 0 0 1 1 {[ Timeout := 1; TcpConnect := 2 ]} None [] ∅ in
  let a := with_not_started 2 (MetricsTotals_finish t 1000000000 6) in
  ag_total_connections_established a + ag_total_connections_failed a
    + ag_total_connections_interrupted a + ag_total_connections_not_started a = 6 /\
  ag_total_connections_not_started a = 2.
Proof.
  intros t a. split; [|vm_compute; reflexivity].
  apply (finish_partitions_slots t 1000000000 6 2); vm_compute; intuition congruence.
Defined.
