(* ===== verification/Merge.v ===== *)
(** * Totals of several machines (src/src/metrics.rs, [MetricsTotals::add])

    A distributed coordinator adds the totals each agent sends; the comment
    on [MetricsTotals] promises the summary a single process with every
    worker would have produced.  The theorem of this file states it: adding
    the totals of two groups of workers gives the totals of all of them
    together, up to which recorders are marked absorbed. *)

From Stdlib Require Import ZArith Lia Ascii String.
From stdpp Require Import base tactics strings numbers option gmap sorting list.
From S2P Require Import Prelude RustStd Hdr Histogram Live Summaries Metrics.

Local Open Scope Z_scope.
Local Open Scope rust_scope.

Section Merge.
Context {H : Type} `{HdrLaws H}.
#[local] Existing Instance hdr_equiv.
Local Abbreviation totals := (MetricsTotals H).

(** ** Histograms with the latency bounds *)

Definition hist_ok (h : H) : Prop := hdr_bounds h = latency_bounds.

(** Adding one histogram to another, and a recorder's counts to one, both
    add counts (with saturation). *)
Lemma hdr_add'_counts h1 h2 :
  hist_ok h1 -> hist_ok h2 ->
  hist_ok (hdr_add' h1 h2) /\ forall v, in_bounds latency_bounds v ->
    hdr_count_at (hdr_add' h1 h2) v = u64_saturating_add (hdr_count_at h1 v) (hdr_count_at h2 v).
Proof.
  unfold hist_ok. intros H1' H2'. destruct (hdr_add'_spec h1 h2) as [Hb Hc];
    [rewrite H1'; apply latency_bounds_used|congruence|].
  rewrite H1' in *. done.
Qed.

Lemma hdr_merge_ok h1 h2 : hist_ok h1 -> hist_ok h2 -> hdr_merge h1 h2 = Ok (hdr_add' h1 h2).
Proof.
  unfold hist_ok, hdr_merge, hdr_add'. intros H1' H2'.
  destruct (hdr_add_spec h1 h2) as (h & -> & _); [rewrite H1'; apply latency_bounds_used|congruence|done].
Qed.

(** An operation that adds fixed counts to a histogram. *)
Definition adds (f : H -> H) : Prop :=
  exists n : Z -> Z, (forall v, in_bounds latency_bounds v -> 0 <= n v) /\
  forall h, hist_ok h -> hist_ok (f h) /\ forall v, in_bounds latency_bounds v ->
    hdr_count_at (f h) v = u64_saturating_add (hdr_count_at h v) (n v).

Lemma adds_id : adds id.
Proof.
  exists (fun _ => 0). split; [done|]. intros h Hh. split; [done|]. intros v _.
  pose proof (hdr_count_at_u64 h v). unfold u64_saturating_add, u64_max, id. ulia.
Qed.

Lemma adds_recorder a : histogram_ok a -> adds (AtomicHistogram_add_to a).
Proof.
  intros Ha. exists (fun v => Z.max 0 (total_at (index_of v) a)). split; [lia|].
  intros h Hh. destruct (add_to_spec a h Hh Ha) as [Hb Hc]. split; [done|].
  intros v Hv%in_latency_bounds. destruct (Hc v Hv) as [Hnn ->]. f_equal. lia.
Qed.

(** Such an operation commutes with adding a histogram in front. *)
Lemma adds_merge f h1 h2 h :
  adds f -> hist_ok h1 -> hist_ok h2 -> hist_ok h -> h ≡ hdr_add' h1 h2 ->
  f h ≡ hdr_add' h1 (f h2).
Proof.
  intros (n & Hn & Hf) H1' H2' Hh [_ Hc]. unfold hist_ok in *. rewrite Hh in Hc.
  destruct (Hf h Hh) as [Hb1 Hc1]. destruct (Hf h2 H2') as [Hb2 Hc2].
  destruct (hdr_add'_counts h1 (f h2) H1' Hb2) as [Hb3 Hc3].
  destruct (hdr_add'_counts h1 h2 H1' H2') as [_ Hc4].
  split; unfold hist_ok in *; [congruence|]. rewrite Hb1. intros v Hv.
  rewrite Hc1, Hc3, Hc2, Hc, Hc4 by done.
  pose proof (hdr_count_at_u64 h1 v). pose proof (hdr_count_at_u64 h2 v). specialize (Hn v Hv).
  unfold u64_saturating_add. ulia.
Qed.

Lemma fresh_merge h0 h : fresh_hist h0 -> hist_ok h -> h ≡ hdr_add' h0 h.
Proof.
  intros [Hb0 Hc0] Hh. destruct (hdr_add'_counts h0 h Hb0 Hh) as [Hb Hc].
  unfold hist_ok in *. split; [congruence|]. rewrite Hh. intros v Hv. rewrite Hc, Hc0 by done.
  pose proof (hdr_count_at_u64 h v). unfold u64_saturating_add, u64_max. ulia.
Qed.

Lemma merge_fresh h0 h : fresh_hist h0 -> hist_ok h -> h ≡ hdr_add' h h0.
Proof.
  intros [Hb0 Hc0] Hh. destruct (hdr_add'_counts h h0 Hh Hb0) as [Hb Hc].
  unfold hist_ok in *. split; [congruence|]. rewrite Hh. intros v Hv. rewrite Hc, Hc0 by done.
  pose proof (hdr_count_at_u64 h v). unfold u64_saturating_add, u64_max. ulia.
Qed.

(** ** Named actions *)

Definition counts_u64 (c : ActionCounts) : Prop :=
  is_u64 (an_sent c) /\ is_u64 (an_errors c) /\ is_u64 (an_sent_message_errors c).
Definition action_ok (a : ActionTotals H) : Prop :=
  hist_ok (at_rtt a) /\ hist_ok (at_response a) /\ counts_u64 (at_counts a).

#[local] Instance action_equiv : Equiv (ActionTotals H) := fun a b =>
  at_rtt a ≡ at_rtt b /\ at_response a ≡ at_response b /\ at_counts a = at_counts b.

Definition merge_action (a b : ActionTotals H) : ActionTotals H :=
  add_counts (at_counts b)
    (mkActionTotals (hdr_add' (at_rtt a) (at_rtt b)) (hdr_add' (at_response a) (at_response b))
       (at_counts a)).

Definition fresh_action (a : ActionTotals H) : Prop :=
  fresh_hist (at_rtt a) /\ fresh_hist (at_response a) /\ at_counts a = ActionCounts_default.

Lemma fresh_action_ok a : fresh_action a -> action_ok a.
Proof. intros ([? _] & [? _] & Hc). split_and!; try done; rewrite Hc; done. Qed.

Lemma ActionTotals_new_ok : exists a, ActionTotals_new = Ok a /\ fresh_action a.
Proof.
  destruct metrics_latency_histogram_ok as (h & Hh & Hf). unfold ActionTotals_new. rewrite Hh.
  eexists. split; [reflexivity|]. by split_and!.
Qed.

(** An operation on an action that adds to its histograms and counts. *)
Definition counts_add (a b : ActionCounts) : ActionCounts :=
  mkActionCounts (an_sent a +u an_sent b) (an_errors a +u an_errors b)
    (an_sent_message_errors a +u an_sent_message_errors b).

Lemma counts_add_assoc a b c : counts_add (counts_add a b) c = counts_add a (counts_add b c).
Proof. unfold counts_add. cbn. by rewrite !u64_add_assoc. Qed.

Lemma counts_add_default a : counts_u64 a -> counts_add a ActionCounts_default = a.
Proof. intros (? & ? & ?). destruct a. unfold counts_add. cbn in *. by rewrite !u64_add_0_r. Qed.

Lemma counts_add_u64 a b : counts_u64 (counts_add a b).
Proof. split_and!; apply u64_add_range. Qed.

Definition adds_action (f : ActionTotals H -> ActionTotals H) : Prop :=
  exists fr fp counts, adds fr /\ adds fp /\
    forall a, action_ok a -> at_rtt (f a) = fr (at_rtt a) /\
      at_response (f a) = fp (at_response a) /\ at_counts (f a) = counts_add (at_counts a) counts.

Lemma adds_action_ok f a : adds_action f -> action_ok a -> action_ok (f a).
Proof.
  intros (fr & fp & counts & (nr & _ & Hr) & (np & _ & Hp) & Hf) Ha.
  destruct (Hf a Ha) as (Hfr & Hfp & Hfc). unfold action_ok. rewrite Hfr, Hfp, Hfc.
  destruct Ha as (? & ? & _). split; [by apply Hr|]. split; [by apply Hp|]. apply counts_add_u64.
Qed.

Lemma merge_action_ok a b : action_ok a -> action_ok b -> action_ok (merge_action a b).
Proof.
  intros (Ha1 & Ha2 & _) (Hb1 & Hb2 & _). split; [by apply hdr_add'_counts|].
  split; [by apply hdr_add'_counts|]. apply counts_add_u64.
Qed.

Lemma adds_action_merge f a b x :
  adds_action f -> action_ok a -> action_ok b -> action_ok x ->
  x ≡ merge_action a b -> f x ≡ merge_action a (f b).
Proof.
  intros (fr & fp & counts & Hr & Hp & Hf) Ha Hb Hx (He1 & He2 & He3).
  destruct (Hf b Hb) as (B1 & B2 & B3). destruct (Hf x Hx) as (X1 & X2 & X3).
  destruct Ha as (? & ? & _), Hb as (? & ? & _), Hx as (? & ? & _).
  unfold equiv, action_equiv, merge_action, add_counts. cbn.
  rewrite B1, B2, B3, X1, X2, X3, He3. split_and!; [by apply adds_merge|by apply adds_merge|].
  apply counts_add_assoc.
Qed.

Lemma merge_fresh_action a0 a : fresh_action a0 -> action_ok a -> a ≡ merge_action a a0.
Proof.
  intros (F1 & F2 & F3) (A1 & A2 & A3). unfold equiv, action_equiv, merge_action, add_counts. cbn.
  rewrite F3. split_and!; [by apply merge_fresh|by apply merge_fresh|].
  symmetry. by apply counts_add_default.
Qed.

Lemma adds_counts counts : adds_action (add_counts counts).
Proof.
  exists id, id, counts. split; [apply adds_id|]. split; [apply adds_id|]. by intros a _.
Qed.

Definition LatencyRecorder_ok (r : LatencyRecorder) : Prop :=
  histogram_ok (lr_handshake r) /\ histogram_ok (lr_rtt r) /\ histogram_ok (lr_response r) /\
  Forall (fun a => histogram_ok (al_rtt a) /\ histogram_ok (al_response a)) (lr_actions r).

Lemma adds_recorder_action r index :
  LatencyRecorder_ok r ->
  adds_action (fun action =>
    let (rtt, response) := add_action_to r index (at_rtt action) (at_response action) in
    action <| at_rtt := rtt |> <| at_response := response |>).
Proof.
  intros (_ & _ & _ & Hr).
  exists (fun h => (add_action_to r index h h).1), (fun h => (add_action_to r index h h).2),
    ActionCounts_default. unfold add_action_to.
  destruct (lr_actions r !! index) as [a|] eqn:E.
  - destruct (Forall_lookup_1 _ _ _ _ Hr E) as [H1' H2'].
    split; [by apply adds_recorder|]. split; [by apply adds_recorder|].
    intros x (_ & _ & Hx). split; [done|]. split; [done|]. cbn. by rewrite counts_add_default.
  - split; [apply adds_id|]. split; [apply adds_id|].
    intros x (_ & _ & Hx). split; [done|]. split; [done|]. cbn. by rewrite counts_add_default.
Qed.

(** ** Whole totals *)

Section Rel.
(** The empty action totals. *)
Variable a0 : ActionTotals H.
Hypothesis a0_new : ActionTotals_new = Ok a0.
Hypothesis a0_fresh : fresh_action a0.

Definition action_of (name : string) (t : totals) : ActionTotals H := default a0 (mt_actions t !! name).

Lemma on_action_lookup name f t n :
  mt_actions (on_action name f t) !! n =
    if decide (n = name) then Some (f (action_of name t)) else mt_actions t !! n.
Proof.
  unfold on_action, action_of. rewrite a0_new.
  destruct (mt_actions t !! name) as [a|] eqn:E; cbn; case_decide as Hn; subst;
    by rewrite ?lookup_insert_eq, ?lookup_insert_ne.
Qed.

Definition totals_ok (t : totals) : Prop :=
  hist_ok (mt_handshake t) /\ hist_ok (mt_rtt t) /\ hist_ok (mt_response t) /\
  forall name, action_ok (action_of name t).

(** [v] is [t] with [u] added to it. *)
Record sum_of (t u v : totals) : Prop := {
  so_u : totals_ok u;
  so_v : totals_ok v;
  so_handshake : mt_handshake v ≡ hdr_add' (mt_handshake t) (mt_handshake u);
  so_rtt : mt_rtt v ≡ hdr_add' (mt_rtt t) (mt_rtt u);
  so_response : mt_response v ≡ hdr_add' (mt_response t) (mt_response u);
  so_messages_sent : mt_messages_sent v = mt_messages_sent t +u mt_messages_sent u;
  so_messages_recv : mt_messages_recv v = mt_messages_recv t +u mt_messages_recv u;
  so_bytes_sent : mt_bytes_sent v = mt_bytes_sent t +u mt_bytes_sent u;
  so_bytes_recv : mt_bytes_recv v = mt_bytes_recv t +u mt_bytes_recv u;
  so_reconnects : mt_reconnects v = mt_reconnects t +u mt_reconnects u;
  so_unsolicited : mt_unsolicited_frames v = mt_unsolicited_frames t +u mt_unsolicited_frames u;
  so_sent_errors :
    mt_sent_message_errors v = mt_sent_message_errors t +u mt_sent_message_errors u;
  so_interrupted : mt_interrupted v = mt_interrupted t +u mt_interrupted u;
  so_errors : mt_errors v = add_errors (mt_errors t) (mt_errors u);
  so_chaos : mt_chaos v = add_chaos (mt_chaos t) (mt_chaos u);
  so_actions : forall name, action_of name v ≡ merge_action (action_of name t) (action_of name u);
  so_names : forall name, is_Some (mt_actions v !! name) <->
    is_Some (mt_actions t !! name) \/ is_Some (mt_actions u !! name);
}.

Lemma on_action_shape name f t :
  on_action name f t = t <| mt_actions := mt_actions (on_action name f t) |>.
Proof.
  unfold on_action. rewrite a0_new. by destruct (mt_actions t !! name), t.
Qed.

Lemma on_action_of name f t n :
  action_of n (on_action name f t) = if decide (n = name) then f (action_of name t) else action_of n t.
Proof. unfold action_of at 1. rewrite on_action_lookup. by case_decide. Qed.

Lemma on_action_ok name f t : adds_action f -> totals_ok t -> totals_ok (on_action name f t).
Proof.
  intros Hf (H1' & H2' & H3' & Ha). rewrite on_action_shape. split_and!; [done..|].
  intros n. change (action_ok (action_of n (on_action name f t))). rewrite on_action_of.
  case_decide; [by apply adds_action_ok|done].
Qed.

Lemma sum_of_on_action name f t u v :
  totals_ok t -> adds_action f -> sum_of t u v -> sum_of t (on_action name f u) (on_action name f v).
Proof.
  intros (_ & _ & _ & Ht) Hf S.
  pose proof (on_action_ok name f u Hf (so_u _ _ _ S)) as Hu.
  pose proof (on_action_ok name f v Hf (so_v _ _ _ S)) as Hv.
  assert (forall n, action_of n (on_action name f v) ≡
    merge_action (action_of n t) (action_of n (on_action name f u))) as Hacts.
  { intros n. rewrite !on_action_of. case_decide as Hn; [subst|apply S].
    apply adds_action_merge; [done|apply Ht|apply (so_u _ _ _ S)|apply (so_v _ _ _ S)|apply S]. }
  assert (forall n, is_Some (mt_actions (on_action name f v) !! n) <->
    is_Some (mt_actions t !! n) \/ is_Some (mt_actions (on_action name f u) !! n)) as Hnames.
  { intros n. rewrite !on_action_lookup. case_decide; [|apply S].
    split; intros _; [right|]; by eexists. }
  split; [exact Hu|exact Hv|..]; [rewrite (on_action_shape name f u), (on_action_shape name f v); cbn;
    apply S..|exact Hacts|exact Hnames].
Qed.

Lemma sum_of_fold {A} (l : list A) (step : totals -> A -> totals) t u v :
  (forall a u v, a ∈ l -> sum_of t u v -> sum_of t (step u a) (step v a)) ->
  sum_of t u v -> sum_of t (fold_left step l u) (fold_left step l v).
Proof.
  revert u v. induction l as [|a l IH]; intros u v Hstep S; [done|]. cbn [fold_left].
  apply IH; [|apply Hstep; [left|done]]. intros b u' v' Hb. apply Hstep. by right.
Qed.

Lemma sum_of_hists t u v fh fr fp :
  totals_ok t -> adds fh -> adds fr -> adds fp -> sum_of t u v ->
  let upd x := x <| mt_handshake := fh (mt_handshake x) |> <| mt_rtt := fr (mt_rtt x) |>
    <| mt_response := fp (mt_response x) |> in
  sum_of t (upd u) (upd v).
Proof.
  intros (T1 & T2 & T3 & _) Ah Ar Ap S upd.
  destruct (so_u _ _ _ S) as (U1 & U2 & U3 & U4). destruct (so_v _ _ _ S) as (V1 & V2 & V3 & V4).
  assert (forall f h, adds f -> hist_ok h -> hist_ok (f h)) as Hok.
  { intros f h (n & _ & Hf) Hh. by apply Hf. }
  split; try apply S.
  - split_and!; [by apply Hok..|exact U4].
  - split_and!; [by apply Hok..|exact V4].
  - apply adds_merge; try done. apply S.
  - apply adds_merge; try done. apply S.
  - apply adds_merge; try done. apply S.
Qed.

Lemma sum_of_add_recorder heap latency t u v :
  totals_ok t -> map_Forall (fun _ r => LatencyRecorder_ok r) heap ->
  (latency ∈ mt_absorbed u <-> latency ∈ mt_absorbed v) -> sum_of t u v ->
  sum_of t (add_recorder heap latency u) (add_recorder heap latency v).
Proof.
  intros Ht Hheap Habs S. unfold add_recorder.
  destruct (decide (latency ∈ mt_absorbed u)) as [Hin|Hin];
    [by rewrite decide_True by (by apply Habs)|].
  rewrite decide_False by (by rewrite <- Habs).
  destruct (heap !! latency) as [r|] eqn:E; [|done]. pose proof (Hheap _ _ E) as Hr.
  unfold LatencyRecorder_add_to.
  set (upd x := x
    <| mt_handshake := AtomicHistogram_add_to (lr_handshake r) (mt_handshake x) |>
    <| mt_rtt := AtomicHistogram_add_to (lr_rtt r) (mt_rtt x) |>
    <| mt_response := AtomicHistogram_add_to (lr_response r) (mt_response x) |>).
  assert (sum_of t (upd u) (upd v)) as S1.
  { destruct Hr as (R1 & R2 & R3 & _). apply (sum_of_hists t u v); try done; by apply adds_recorder. }
  apply (sum_of_fold (enumerate (action_names r)) (add_recorder_action r)) in S1.
  - split; apply S1.
  - intros [i name] u' v' _ S'. apply sum_of_on_action; [done| |done]. by apply adds_recorder_action.
Qed.

Lemma add_chaos_assoc a b c : add_chaos (add_chaos a b) c = add_chaos a (add_chaos b c).
Proof.
  destruct a, b, c; cbn; try done. unfold ChaosSummary_add. cbn. by rewrite !u64_add_assoc.
Qed.

Lemma add_errors_assoc a b c : add_errors (add_errors a b) c = add_errors a (add_errors b c).
Proof.
  unfold add_errors. apply map_eq. intros k. rewrite !lookup_union_with.
  destruct (a !! k), (b !! k), (c !! k); cbn; try done. by rewrite u64_add_assoc.
Qed.

Lemma sum_of_add_worker_counts heap w t u v :
  totals_ok t -> sum_of t u v ->
  sum_of t (add_worker_counts heap w u) (add_worker_counts heap w v).
Proof.
  intros Ht S. unfold add_worker_counts.
  apply (sum_of_fold (enumerate (from_option action_names [] (heap !! wm_latency w)))
    (add_worker_action w)) in S.
  - split; cbn; try apply S; try (rewrite <- u64_add_assoc; f_equal; apply S).
    + rewrite <- add_errors_assoc. f_equal. apply S.
    + rewrite <- add_chaos_assoc. f_equal. apply S.
  - intros [i name] u' v' _ S'. unfold add_worker_action.
    destruct (wm_actions w !! i); [|done]. apply sum_of_on_action; [done|apply adds_counts|done].
Qed.

(** *** Folding workers *)

Lemma absorbed_on_action name f t : mt_absorbed (on_action name f t) = mt_absorbed t.
Proof. by rewrite on_action_shape. Qed.

Lemma absorbed_add_worker heap w t :
  mt_absorbed (add_worker heap w t) =
    if decide (wm_latency w ∈ mt_absorbed t) then mt_absorbed t
    else match heap !! wm_latency w with
         | Some _ => mt_absorbed t ++ [wm_latency w]
         | None => mt_absorbed t
         end.
Proof.
  unfold add_worker, add_worker_counts.
  transitivity (mt_absorbed (add_recorder heap (wm_latency w) t)).
  - cbn. apply (fold_left_keeps mt_absorbed). intros t' [i name]. unfold add_worker_action.
    destruct (wm_actions w !! i); [apply absorbed_on_action|done].
  - unfold add_recorder. case_decide; [done|]. destruct (heap !! wm_latency w) as [r|]; [|done].
    destruct (LatencyRecorder_add_to r _ _ _) as [[h1 h2] h3]. cbn. f_equal.
    rewrite (fold_left_keeps mt_absorbed); [done|]. intros t' [i name]. apply absorbed_on_action.
Qed.

Definition add_workers (heap : gmap nat LatencyRecorder) (ws : list WorkerMetrics) (t : totals) : totals :=
  fold_left (fun t w => add_worker heap w t) ws t.

Lemma absorbed_add_workers heap ws t x :
  x ∈ mt_absorbed (add_workers heap ws t) -> x ∈ mt_absorbed t \/ x ∈ wm_latency <$> ws.
Proof.
  revert t. induction ws as [|w ws IH]; intros t; [by left|]. unfold add_workers. cbn [fold_left].
  intros [Hx|Hx]%IH; [|right; by right].
  rewrite absorbed_add_worker in Hx. case_decide; [by left|].
  destruct (heap !! wm_latency w); [|by left].
  apply elem_of_app in Hx as [Hx|Hx%list_elem_of_singleton]; [by left|right; subst; left].
Qed.

Lemma sum_of_add_workers heap ws t u v :
  totals_ok t -> map_Forall (fun _ r => LatencyRecorder_ok r) heap ->
  (forall w, w ∈ ws -> wm_latency w ∈ mt_absorbed t -> wm_latency w ∈ mt_absorbed u) ->
  mt_absorbed v = mt_absorbed t ++ mt_absorbed u \/ (mt_absorbed t = [] /\ u = v) ->
  sum_of t u v -> sum_of t (add_workers heap ws u) (add_workers heap ws v).
Proof.
  intros Ht Hheap. revert u v. induction ws as [|w ws IH]; intros u v Hdis Habs S; [done|].
  unfold add_workers. cbn [fold_left].
  assert (wm_latency w ∈ mt_absorbed u <-> wm_latency w ∈ mt_absorbed v) as Hiff.
  { destruct Habs as [Habs|[_ ->]]; [|done]. rewrite Habs, elem_of_app.
    split; [auto|]. intros [Hin|Hin]; [|done]. apply Hdis; [left|done]. }
  apply IH.
  - intros w' Hw' Hin. rewrite absorbed_add_worker. specialize (Hdis w' ltac:(by right) Hin).
    case_decide; [done|]. destruct (heap !! wm_latency w); [|done]. apply elem_of_app. by left.
  - destruct Habs as [Habs|[Hnil ->]]; [left|by right].
    rewrite !absorbed_add_worker. destruct (decide (wm_latency w ∈ mt_absorbed u)) as [Hin|Hin].
    + by rewrite decide_True by (by apply Hiff).
    + rewrite decide_False by (by rewrite <- Hiff).
      destruct (heap !! wm_latency w); [|done]. by rewrite Habs, app_assoc.
  - unfold add_worker. apply sum_of_add_worker_counts; [done|]. by apply sum_of_add_recorder.
Qed.

Definition counters_u64 (t : totals) : Prop :=
  is_u64 (mt_messages_sent t) /\ is_u64 (mt_messages_recv t) /\ is_u64 (mt_bytes_sent t) /\
  is_u64 (mt_bytes_recv t) /\ is_u64 (mt_reconnects t) /\ is_u64 (mt_unsolicited_frames t) /\
  is_u64 (mt_sent_message_errors t) /\ is_u64 (mt_interrupted t).

Lemma add_workers_counters_u64 heap ws t : counters_u64 t -> counters_u64 (add_workers heap ws t).
Proof.
  revert t. induction ws as [|w ws IH]; intros t Ht; [done|]. apply IH.
  split_and!; apply u64_add_range.
Qed.

(** Empty totals. *)
Definition empty_totals (t : totals) : Prop :=
  fresh_hist (mt_handshake t) /\ fresh_hist (mt_rtt t) /\ fresh_hist (mt_response t) /\
  counters_u64 t /\ mt_messages_sent t = 0 /\ mt_messages_recv t = 0 /\ mt_bytes_sent t = 0 /\
  mt_bytes_recv t = 0 /\ mt_reconnects t = 0 /\ mt_unsolicited_frames t = 0 /\
  mt_sent_message_errors t = 0 /\ mt_interrupted t = 0 /\ mt_errors t = ∅ /\
  mt_chaos t = None /\ mt_absorbed t = [] /\ mt_actions t = ∅.

Lemma sum_of_empty t e : totals_ok t -> counters_u64 t -> empty_totals e -> sum_of t e t.
Proof.
  intros (T1 & T2 & T3 & T4) (C1 & C2 & C3 & C4 & C5 & C6 & C7 & C8)
    (F1 & F2 & F3 & _ & E1 & E2 & E3 & E4 & E5 & E6 & E7 & E8 & E9 & E10 & _ & E12).
  assert (forall n, action_of n e = a0) as Ha by (intros n; unfold action_of; by rewrite E12, lookup_empty).
  split; rewrite ?E1, ?E2, ?E3, ?E4, ?E5, ?E6, ?E7, ?E8, ?E9, ?E10, ?E12, ?u64_add_0_r by done; try done.
  - split_and!; [apply F1|apply F2|apply F3|]. intros n. rewrite Ha. by apply fresh_action_ok.
  - by apply merge_fresh.
  - by apply merge_fresh.
  - by apply merge_fresh.
  - unfold add_errors. symmetry. apply (right_id ∅ _).
  - by destruct (mt_chaos t).
  - intros n. rewrite Ha. by apply merge_fresh_action.
  - intros n. rewrite lookup_empty. split; [auto|]. intros [?|[? ?]]; done.
Qed.

(** *** [MetricsTotals::add] computes the sum *)

Definition merge_entry (o : option (ActionTotals H)) (b : ActionTotals H) : ActionTotals H :=
  merge_action (default a0 o) b.

Lemma add_action_totals_fold l t :
  (forall name, action_ok (action_of name t)) -> Forall (fun e => action_ok e.2) l ->
  fold_left add_action_totals l (Ok t) =
    Ok (t <| mt_actions ::= fun m =>
      fold_left (fun m e => <[e.1 := merge_entry (m !! e.1) e.2]> m) l m |>).
Proof.
  revert t. induction l as [|[name b] l IH]; intros t Ht Hl; [by destruct t|].
  apply Forall_cons in Hl as [Hb Hl]. cbn [fold_left fst snd] in *.
  assert (add_action_totals (Ok t) (name, b) =
    Ok (t <| mt_actions ::= <[name := merge_entry (mt_actions t !! name) b]> |>)) as ->.
  { unfold add_action_totals. cbn [result_bind]. rewrite a0_new.
    assert (match mt_actions t !! name with
      | Some a => Ok (E := WsBlastError) a | None => Ok a0 end = Ok (action_of name t)) as ->
      by (unfold action_of; by destruct (mt_actions t !! name)).
    cbn [result_bind]. destruct (Ht name) as (A1 & A2 & _), Hb as (B1 & B2 & _).
    rewrite !hdr_merge_ok by done. done. }
  rewrite IH; [done| |done]. intros n. unfold action_of. cbn.
  destruct (decide (n = name)) as [->|Hn].
  - rewrite lookup_insert_eq. apply merge_action_ok; [apply Ht|done].
  - rewrite lookup_insert_ne by done. apply Ht.
Qed.

Lemma filter_name_entries {V} (m : gmap string V) k :
  filter (fun a => a.1 = k) (name_entries m) = match m !! k with Some v => [(k, v)] | None => [] end.
Proof.
  assert (name_entries m ≡ₚ map_to_list m) as Hp by apply merge_sort_Permutation.
  assert (NoDup (name_entries m).*1) as Hnd by (rewrite Hp; apply NoDup_fst_map_to_list).
  destruct (filter_key _ k Hnd) as [[-> Hn]|(v & -> & Hin)].
  - destruct (m !! k) as [v|] eqn:E; [|done]. exfalso. apply Hn. rewrite Hp.
    apply elem_of_map_to_list in E. by apply (list_elem_of_fmap_2 fst) in E.
  - rewrite Hp in Hin. apply elem_of_map_to_list in Hin. by rewrite Hin.
Qed.

Lemma MetricsTotals_add_sum t u :
  totals_ok t -> totals_ok u -> exists v, MetricsTotals_add t u = Ok v /\ sum_of t u v.
Proof.
  intros Ht Hu. pose proof Ht as (T1 & T2 & T3 & T4). pose proof Hu as (U1 & U2 & U3 & U4).
  unfold MetricsTotals_add. rewrite !hdr_merge_ok by done. cbn [result_bind].
  rewrite add_action_totals_fold; [|apply T4|].
  2: { apply Forall_forall. intros [name b] Hin. cbn.
    assert (name_entries (mt_actions u) ≡ₚ map_to_list (mt_actions u)) as Hp by apply merge_sort_Permutation.
    rewrite Hp in Hin. apply elem_of_map_to_list in Hin. specialize (U4 name).
    unfold action_of in U4. by rewrite Hin in U4. }
  eexists. split; [reflexivity|]. set (v := set_field mt_actions _ _).
  assert (forall n, mt_actions v !! n = match mt_actions u !! n with
    | Some b => Some (merge_entry (mt_actions t !! n) b) | None => mt_actions t !! n end) as Hv.
  { intros n. unfold v. cbn. rewrite (fold_insert_lookup fst (fun o e => merge_entry o e.2)).
    rewrite filter_name_entries. by destruct (mt_actions u !! n). }
  assert (forall n, action_of n v ≡ merge_action (action_of n t) (action_of n u) /\
    action_ok (action_of n v)) as Hact.
  { intros n. unfold action_of at 1 3 4. rewrite Hv. destruct (mt_actions u !! n) as [b|] eqn:E; cbn.
    - specialize (U4 n). unfold action_of in U4. rewrite E in U4.
      split; [|apply merge_action_ok; [apply T4|exact U4]].
      split_and!; reflexivity.
    - fold (action_of n t). split; [by apply merge_fresh_action|done]. }
  split; try done.
  - split_and!; [by apply hdr_add'_counts..|]. intros n. apply Hact.
  - intros n. apply Hact.
  - intros n. rewrite Hv. destruct (mt_actions u !! n) as [b|].
    + split; [right|intros _]; by eexists.
    + split; [auto|]. intros [?|[? ?]]; done.
Qed.

(** Totals that cannot be told apart, but for the recorders already
    absorbed. *)
Definition totals_equiv (v w : totals) : Prop :=
  mt_handshake v ≡ mt_handshake w /\ mt_rtt v ≡ mt_rtt w /\ mt_response v ≡ mt_response w /\
  mt_messages_sent v = mt_messages_sent w /\ mt_messages_recv v = mt_messages_recv w /\
  mt_bytes_sent v = mt_bytes_sent w /\ mt_bytes_recv v = mt_bytes_recv w /\
  mt_reconnects v = mt_reconnects w /\ mt_unsolicited_frames v = mt_unsolicited_frames w /\
  mt_sent_message_errors v = mt_sent_message_errors w /\ mt_interrupted v = mt_interrupted w /\
  mt_errors v = mt_errors w /\ mt_chaos v = mt_chaos w /\
  forall name, option_Forall2 (≡) (mt_actions v !! name) (mt_actions w !! name).

Lemma totals_equiv_refl t : totals_equiv t t.
Proof. split_and!; try done. intros name. destruct (mt_actions t !! name); constructor. split_and!; done. Qed.

Lemma sum_of_unique t u v w : sum_of t u v -> sum_of t u w -> totals_equiv v w.
Proof.
  intros V W. split_and!;
    try (etransitivity; [apply V|symmetry; apply W]).
  intros name. pose proof (so_names _ _ _ V name) as Nv. pose proof (so_names _ _ _ W name) as Nw.
  pose proof (so_actions _ _ _ V name) as (V1 & V2 & V3).
  pose proof (so_actions _ _ _ W name) as (W1 & W2 & W3). unfold action_of in *.
  destruct (mt_actions v !! name) as [a|] eqn:Ea, (mt_actions w !! name) as [b|] eqn:Eb.
  - constructor. split_and!; cbn in *; [by rewrite V1, W1|by rewrite V2, W2|by rewrite V3, W3].
  - exfalso. assert (is_Some (@None (ActionTotals H))) as [? ?]; [|done].
    apply Nw, Nv. by eexists.
  - exfalso. assert (is_Some (@None (ActionTotals H))) as [? ?]; [|done].
    apply Nv, Nw. by eexists.
  - constructor.
Qed.

End Rel.

Lemma hdr_add'_equiv_l h h' k : hist_ok h -> hist_ok h' -> hist_ok k -> h ≡ h' -> hdr_add' h k ≡ hdr_add' h' k.
Proof.
  intros Hh Hh' Hk [Hb Hc]. destruct (hdr_add'_counts h k Hh Hk) as [Hb1 Hc1].
  destruct (hdr_add'_counts h' k Hh' Hk) as [Hb2 Hc2]. unfold hist_ok in *. split; [congruence|].
  intros v Hv. rewrite Hb1 in Hv. rewrite Hc1, Hc2, Hc by congruence. done.
Qed.

(** The sum does not tell indistinguishable totals apart. *)
Lemma sum_of_equiv_l a0 t t' u v : totals_ok a0 t -> totals_ok a0 t' -> totals_equiv t t' ->
  sum_of a0 t u v -> sum_of a0 t' u v.
Proof.
  intros (K1 & K2 & K3 & K4) (L1 & L2 & L3 & L4)
    (E1 & E2 & E3 & E4 & E5 & E6 & E7 & E8 & E9 & E10 & E11 & E12 & E13 & E14) S.
  destruct (so_u _ _ _ _ S) as (U1 & U2 & U3 & U4).
  split; try apply S; rewrite <- ?E4, <- ?E5, <- ?E6, <- ?E7, <- ?E8, <- ?E9, <- ?E10, <- ?E11, <- ?E12, <- ?E13; try apply S.
  - rewrite (so_handshake _ _ _ _ S). by apply hdr_add'_equiv_l.
  - rewrite (so_rtt _ _ _ _ S). by apply hdr_add'_equiv_l.
  - rewrite (so_response _ _ _ _ S). by apply hdr_add'_equiv_l.
  - intros name. destruct (so_actions _ _ _ _ S name) as (S1 & S2 & S3). specialize (K4 name). specialize (L4 name).
    destruct (U4 name) as (U5 & U6 & U7). assert (action_of a0 name t ≡ action_of a0 name t') as (A1 & A2 & A3).
    { specialize (E14 name). unfold action_of. by destruct E14; [|split_and!]. }
    destruct K4 as (K5 & K6 & K7), L4 as (L5 & L6 & L7). unfold merge_action in *. cbn in *.
    split_and!; cbn; [rewrite S1; by apply hdr_add'_equiv_l|rewrite S2; by apply hdr_add'_equiv_l|by rewrite S3, A3].
  - intros name. rewrite (so_names _ _ _ _ S name). specialize (E14 name).
    assert (is_Some (mt_actions t !! name) <-> is_Some (mt_actions t' !! name)) as Hiff; [|tauto].
    destruct E14; split; intros [? ?]; done || by eexists.
Qed.

Lemma hdr_add'_equiv_r h k k' : hist_ok h -> hist_ok k -> hist_ok k' -> k ≡ k' -> hdr_add' h k ≡ hdr_add' h k'.
Proof.
  intros Hh Hk Hk' [Hb Hc]. destruct (hdr_add'_counts h k Hh Hk) as [Hb1 Hc1].
  destruct (hdr_add'_counts h k' Hh Hk') as [Hb2 Hc2]. unfold hist_ok in *. split; [congruence|].
  intros v Hv. rewrite Hb1 in Hv. rewrite Hc1, Hc2, Hc by congruence. done.
Qed.

Lemma sum_of_equiv_r a0 t u u' v : totals_ok a0 t -> totals_ok a0 u' -> totals_equiv u u' ->
  sum_of a0 t u v -> sum_of a0 t u' v.
Proof.
  intros (K1 & K2 & K3 & K4) L (E1 & E2 & E3 & E4 & E5 & E6 & E7 & E8 & E9 & E10 & E11 & E12 & E13 & E14) S.
  destruct (so_u _ _ _ _ S) as (U1 & U2 & U3 & U4). pose proof L as (L1 & L2 & L3 & L4).
  split; try apply S; try exact L; rewrite <- ?E4, <- ?E5, <- ?E6, <- ?E7, <- ?E8, <- ?E9, <- ?E10, <- ?E11, <- ?E12, <- ?E13; try apply S.
  - rewrite (so_handshake _ _ _ _ S). by apply hdr_add'_equiv_r.
  - rewrite (so_rtt _ _ _ _ S). by apply hdr_add'_equiv_r.
  - rewrite (so_response _ _ _ _ S). by apply hdr_add'_equiv_r.
  - intros name. destruct (so_actions _ _ _ _ S name) as (S1 & S2 & S3). specialize (K4 name). specialize (L4 name).
    destruct (U4 name) as (U5 & U6 & U7). assert (action_of a0 name u ≡ action_of a0 name u') as (A1 & A2 & A3).
    { specialize (E14 name). unfold action_of. by destruct E14; [|split_and!]. }
    destruct K4 as (K5 & K6 & K7), L4 as (L5 & L6 & L7). unfold merge_action in *. cbn in *.
    split_and!; cbn; [rewrite S1; by apply hdr_add'_equiv_r|rewrite S2; by apply hdr_add'_equiv_r|by rewrite S3, A3].
  - intros name. rewrite (so_names _ _ _ _ S name). specialize (E14 name).
    assert (is_Some (mt_actions u !! name) <-> is_Some (mt_actions u' !! name)) as Hiff; [|tauto].
    destruct E14; split; intros [? ?]; done || by eexists.
Qed.

Lemma totals_equiv_sym t u : totals_equiv t u -> totals_equiv u t.
Proof.
  intros (E1 & E2 & E3 & E4 & E5 & E6 & E7 & E8 & E9 & E10 & E11 & E12 & E13 & E14).
  split_and!; try by symmetry. intros name. destruct (E14 name) as [a b (A1 & A2 & A3)|]; constructor. split_and!; by symmetry.
Qed.

Section Groups.
Context (heap : gmap nat LatencyRecorder) (Hheap : map_Forall (fun _ r => LatencyRecorder_ok r) heap).
Context (t0 : totals) (Hnew : MetricsTotals_new = Ok t0) (a0 : ActionTotals H) (Ha0 : ActionTotals_new = Ok a0).

Lemma new_totals_empty : empty_totals t0 /\ totals_ok a0 t0 /\ fresh_action a0.
Proof.
  destruct ActionTotals_new_ok as (a0' & Ha0' & Hfresh). assert (a0' = a0) as -> by congruence.
  destruct MetricsTotals_new_ok as (h & Hh & Hnew'). rewrite Hnew' in Hnew. injection Hnew as <-.
  assert (counters_u64 (mkMetricsTotals h h h 0 0 0 0 0 0 0 0 ∅ None [] ∅)) as Hc0 by (split_and!; cbn; ulia).
  split; [by do 3 (split; [exact Hh|]); split; [exact Hc0|]; split_and!|]. split; [|done].
  split_and!; try apply Hh. intros n. unfold action_of. cbn. rewrite lookup_empty. by apply fresh_action_ok.
Qed.

Lemma group_ok ws : totals_ok a0 (add_workers heap ws t0).
Proof.
  destruct new_totals_empty as (Hempty & Hok & Hfresh).
  refine (so_u _ _ _ _ (_ : sum_of a0 t0 _ (add_workers heap ws t0))). apply (sum_of_add_workers a0 Ha0 heap ws t0 t0 t0); try done.
  - right. split; [apply Hempty|done].
  - apply sum_of_empty; [done|done|apply Hempty|done].
Qed.

(** Two groups of workers that share no recorder. *)
Lemma groups_sum ws1 ws2 : (forall w1 w2, w1 ∈ ws1 -> w2 ∈ ws2 -> wm_latency w1 <> wm_latency w2) ->
  sum_of a0 (add_workers heap ws1 t0) (add_workers heap ws2 t0) (add_workers heap (ws1 ++ ws2) t0).
Proof.
  intros Hdis. destruct new_totals_empty as (Hempty & Hok & Hfresh).
  assert (mt_absorbed t0 = []) as Habs by apply Hempty.
  replace (add_workers heap (ws1 ++ ws2) t0) with (add_workers heap ws2 (add_workers heap ws1 t0))
    by (unfold add_workers; by rewrite fold_left_app).
  apply sum_of_add_workers; [done|apply group_ok|done| | |].
  - intros w Hw Hin%(absorbed_add_workers a0 Ha0). exfalso. rewrite Habs in Hin.
    destruct Hin as [Hin|(w1 & Heq & Hw1)%list_elem_of_fmap]; [by apply not_elem_of_nil in Hin|]. by apply (Hdis w1 w).
  - left. by rewrite Habs, app_nil_r.
  - apply sum_of_empty; [done|apply group_ok|apply add_workers_counters_u64, Hempty|done].
Qed.

(** Adding totals that cannot be told from a group's to totals that cannot
    be told from those of other workers. *)
Lemma add_group past ws totals u :
  (forall w1 w2, w1 ∈ past -> w2 ∈ ws -> wm_latency w1 <> wm_latency w2) ->
  totals_ok a0 totals -> totals_equiv totals (add_workers heap past t0) ->
  totals_ok a0 u -> totals_equiv u (add_workers heap ws t0) ->
  exists v, MetricsTotals_add totals u = Ok v /\ totals_ok a0 v /\ totals_equiv v (add_workers heap (past ++ ws) t0).
Proof.
  intros Hdis Hok Heq Hu Hueq. destruct new_totals_empty as (_ & _ & Hfresh).
  destruct (MetricsTotals_add_sum a0 Ha0 Hfresh totals u Hok Hu) as (v & Hv & Hsum).
  exists v. split; [exact Hv|]. split; [exact (so_v _ _ _ _ Hsum)|]. eapply sum_of_unique.
  - eapply sum_of_equiv_l; [exact Hok|apply group_ok|exact Heq|].
    eapply sum_of_equiv_r; [exact Hok|apply group_ok|exact Hueq|exact Hsum].
  - by apply groups_sum.
Qed.
End Groups.

(** The totals of a distributed run are those of a single process: adding
    the totals of two groups of workers whose latency recorders are
    different machines' succeeds and gives, histogram by histogram (up to
    what can be observed), counter by counter, category by category and
    action by action, the totals of all the workers together, in which each
    recorder is absorbed once however many workers share it. *)
Theorem agents_add_up (heap : gmap nat LatencyRecorder) (ws1 ws2 : list WorkerMetrics)
    (Hheap : map_Forall (fun _ r => LatencyRecorder_ok r) heap)
    (Hdis : forall w1 w2, w1 ∈ ws1 -> w2 ∈ ws2 -> wm_latency w1 <> wm_latency w2)
    (t0 : totals) (Hnew : MetricsTotals_new = Ok t0) :
  exists v,
    MetricsTotals_add (add_workers heap ws1 t0) (add_workers heap ws2 t0) = Ok v /\
    totals_equiv v (add_workers heap (ws1 ++ ws2) t0).
Proof.
  destruct ActionTotals_new_ok as (a0 & Ha0 & Hfresh).
  destruct (MetricsTotals_add_sum a0 Ha0 Hfresh _ _ (group_ok heap Hheap t0 Hnew a0 Ha0 ws1) (group_ok heap Hheap t0 Hnew a0 Ha0 ws2))
    as (v & Hv & Hsum).
  exists v. split; [exact Hv|]. eapply sum_of_unique; [exact Hsum|]. by apply groups_sum.
Qed.

End Merge.

(** Two agents with a recorder each; the second has two workers. *)
Definition sample_worker (latency : nat) (sent : Z) : WorkerMetrics :=
  mkWorkerMetrics latency sent 0 0 0 {[ Timeout := 1 ]} 0 0 0 false None false None [] None 0.

Lemma agents_add_up_witness :
  let heap := {[ 0%nat := with_shards 1; 1%nat := with_shards 2 ]} in
  let t0 := mkMetricsTotals (mkClassHistogram latency_bounds ∅) (mkClassHistogram latency_bounds ∅)
    (mkClassHistogram latency_bounds ∅) 0 0 0 0 0 0 0 0 ∅ None [] ∅ in
  exists v,
    MetricsTotals_add (add_workers heap [sample_worker 0 3] t0)
      (add_workers heap [sample_worker 1 4; sample_worker 1 5] t0) = Ok v /\
    mt_messages_sent v = 12.
Proof.
  intros heap t0.
  assert (map_Forall (fun _ r => LatencyRecorder_ok r) heap) as Hheap.
  { apply map_Forall_insert_2; [|apply map_Forall_singleton]; split_and!;
      try apply histogram_ok_new; constructor. }
  assert (forall w1 w2, w1 ∈ [sample_worker 0 3] -> w2 ∈ [sample_worker 1 4; sample_worker 1 5] ->
    wm_latency w1 <> wm_latency w2) as Hdis.
  { intros w1 w2 ->%list_elem_of_singleton Hw2. rewrite !elem_of_cons, elem_of_nil in Hw2.
    destruct Hw2 as [->|[->|[]]]; done. }
  assert (MetricsTotals_new (H := ClassHistogram) = Ok t0) as Hnew by reflexivity.
  destruct (agents_add_up heap [sample_worker 0 3] [sample_worker 1 4; sample_worker 1 5]
    Hheap Hdis t0 Hnew) as (v & Hv & _ & _ & _ & Hsent & _).
  exists v. split; [exact Hv|]. rewrite Hsent. reflexivity.
Defined.
