(* ===== verification/Wire.v ===== *)
(** * WebSocket messages and UTF-8

    The message type of the [tungstenite] crate as wsblast matches on it,
    and the UTF-8 check of the standard library's [String::from_utf8].  A
    text payload is its bytes, kept in a [string]. *)

From Stdlib Require Import ZArith Lia Ascii String.
From stdpp Require Import base tactics strings numbers option list.
From S2P Require Import Prelude.

Local Open Scope Z_scope.

Record CloseFrame := mkCloseFrame { cf_code : Z; cf_reason : string }.
#[export] Instance CloseFrame_eq_dec : EqDecision CloseFrame.
Proof. solve_decision. Defined.

Inductive Message :=
| Text (text : string)
| Binary (bytes : list Z)
| Ping (data : list Z)
| Pong (data : list Z)
| Close (frame : option CloseFrame)
| Frame (bytes : list Z).
#[export] Instance Message_eq_dec : EqDecision Message.
Proof. solve_decision. Defined.

(** The payload bytes of a data message. *)
Definition payload_bytes (m : Message) : list Z :=
  match m with
  | Text text => bytes_of_string text
  | Binary bytes => bytes
  | _ => []
  end.

(** ** UTF-8, as an automaton over bytes *)

(** Where a byte sequence stands: between characters, [n] continuation bytes
    short, or after a lead byte that restricts the next one. *)
Inductive utf8_state := Ground | Continue (n : nat) | After (lo hi : Z) (n : nat).

Definition utf8_step (s : utf8_state) (b : Z) : option utf8_state :=
  let next n := match n with O => Ground | S _ => Continue n end in
  match s with
  | Ground =>
      if b <=? 127 then Some Ground
      else if (194 <=? b) && (b <=? 223) then Some (Continue 1)
      else if b =? 224 then Some (After 160 191 1)
      else if b =? 237 then Some (After 128 159 1)
      else if (225 <=? b) && (b <=? 239) then Some (Continue 2)
      else if b =? 240 then Some (After 144 191 2)
      else if b =? 244 then Some (After 128 143 2)
      else if (241 <=? b) && (b <=? 243) then Some (Continue 3)
      else None
  | Continue n => if (128 <=? b) && (b <=? 191) then Some (next (pred n)) else None
  | After lo hi n => if (lo <=? b) && (b <=? hi) then Some (next n) else None
  end.

Fixpoint utf8_run (s : utf8_state) (bytes : list Z) : option utf8_state :=
  match bytes with
  | [] => Some s
  | b :: bytes' => s' ← utf8_step s b; utf8_run s' bytes'
  end.

Definition utf8_valid (bytes : list Z) : bool :=
  match utf8_run Ground bytes with Some Ground => true | _ => false end.

(** [String::from_utf8] and [std::str::from_utf8]. *)
Definition from_utf8 (bytes : list Z) : option string :=
  if utf8_valid bytes then Some (string_of_bytes bytes) else None.

Lemma utf8_run_app s l1 l2 : utf8_run s (l1 ++ l2) = (s' ← utf8_run s l1; utf8_run s' l2).
Proof.
  revert s. induction l1 as [|b l1 IH]; intros s; [done|]. cbn.
  destruct (utf8_step s b); [apply IH|done].
Qed.

(** States an automaton started in [Ground] can reach accept no ASCII byte
    but in [Ground]. *)
Definition utf8_reachable (s : utf8_state) : Prop :=
  match s with After lo _ _ => 128 <= lo | _ => True end.

Lemma utf8_step_reachable s b s' : utf8_step s b = Some s' -> utf8_reachable s'.
Proof.
  destruct s as [|n|lo hi n]; cbn; intros H; destruct_matches; simplify_eq; done || (cbn; lia).
Qed.

Lemma utf8_run_reachable s l s' : utf8_reachable s -> utf8_run s l = Some s' -> utf8_reachable s'.
Proof.
  revert s. induction l as [|b l IH]; intros s Hs; cbn; [by intros [= <-]|].
  destruct (utf8_step s b) eqn:E; cbn; [|done]. apply IH. by eapply utf8_step_reachable.
Qed.

Lemma utf8_step_ascii s b s' :
  utf8_reachable s -> b <= 127 -> utf8_step s b = Some s' -> s = Ground /\ s' = Ground.
Proof.
  intros Hs Hb. destruct s as [|n|lo hi n]; cbn in *.
  - rewrite (proj2 (Z.leb_le b 127)) by done. by intros [= <-].
  - rewrite (proj2 (Z.leb_gt 128 b)) by lia. done.
  - rewrite (proj2 (Z.leb_gt lo b)) by lia. done.
Qed.

(** Replacing an ASCII byte of valid UTF-8 by another keeps it valid. *)
Lemma utf8_replace_ascii l1 b c l2 :
  b <= 127 -> c <= 127 -> utf8_valid (l1 ++ b :: l2) = true -> utf8_valid (l1 ++ c :: l2) = true.
Proof.
  intros Hb Hc. unfold utf8_valid. rewrite !utf8_run_app.
  destruct (utf8_run Ground l1) as [s|] eqn:E; cbn; [|done].
  destruct (utf8_step s b) as [s'|] eqn:Eb; cbn; [|done].
  destruct (utf8_step_ascii s b s') as [-> ->]; [by eapply utf8_run_reachable in E|done|done|].
  cbn. by rewrite (proj2 (Z.leb_le c 127)) by done.
Qed.

Lemma utf8_ascii l : Forall (fun b => b <= 127) l -> utf8_valid l = true.
Proof.
  intros Hl. unfold utf8_valid. assert (utf8_run Ground l = Some Ground) as ->; [|done].
  induction Hl as [|b l Hb Hl IH]; [done|]. cbn. by rewrite (proj2 (Z.leb_le b 127)) by done.
Qed.

(** Length of the payload a message carries. *)
Definition message_byte_len (msg : Message) : Z :=
  match msg with
  | Text t => Z.of_nat (String.length t)
  | Binary b => Z.of_nat (length b)
  | Ping p | Pong p => Z.of_nat (length p)
  | Close _ | Frame _ => 0
  end.
