(* ===== verification/Chaos.v ===== *)
(** * Client-side fault injection (src/src/chaos.rs)

    Every worker draws its faults from two small generators of its own:
    delays, drops, corruptions and closes from one, read pauses from the
    other.  The theorems show that corruption changes exactly one byte and
    keeps text valid UTF-8, that read pauses never shift the send decisions
    of a seeded run, and that no two agents and no two connection slots draw
    the same sequence. *)

From Stdlib Require Import ZArith Lia Ascii String.
From stdpp Require Import base tactics strings numbers option list.
From S2P Require Import Prelude RustStd Str Live HumanDuration Summaries Wire.

Local Open Scope Z_scope.
Local Open Scope rust_scope.

(** ** The generator *)

Definition splitmix64 (seed : Z) : Z :=
  let z := seed +u 0x9e3779b97f4a7c15 in
  let z := Z.lxor z (Z.shiftr z 30) *u 0xbf58476d1ce4e5b9 in
  let z := Z.lxor z (Z.shiftr z 27) *u 0x94d049bb133111eb in
  Z.lxor z (Z.shiftr z 31).

(** [XorShift64] is its state. *)
Definition XorShift64_new (seed : Z) : Z := Z.max (splitmix64 seed) 1.

Definition next_u64 (state : Z) : Z * Z :=
  let x := state in
  let x := Z.lxor x (u64_shl x 13) in
  let x := Z.lxor x (Z.shiftr x 7) in
  let x := Z.lxor x (u64_shl x 17) in
  (x, x).

Definition next_f64 (state : Z) : f64 * Z :=
  let (x, state) := next_u64 state in
  (f64_div (f64_of_Z (Z.shiftr x 11)) (f64_of_Z (2 ^ 53)), state).

(** [checked_add] fails only for the largest [u64]. *)
Definition at_most (max : Z) (state : Z) : Z * Z :=
  let (x, state) := next_u64 state in
  (if max + 1 <=? u64_max then x mod (max + 1) else x, state).

Definition agent_seed (seed : Z) (agent : Z) : Z :=
  splitmix64 (Z.lxor seed (u64_rotate_left (splitmix64 (agent +u 1)) 17)).

(** The clock's nanoseconds since the epoch, [None] before it, and the
    process id. *)
Definition time_seed (nanos : option Z) (pid : Z) : Z :=
  splitmix64 (Z.lxor (as_u64 (default 0 nanos)) (u64_rotate_left pid 32)).

(** ** Configuration *)

Inductive ChaosCloseMode := Abrupt | Graceful.
#[export] Instance ChaosCloseMode_eq_dec : EqDecision ChaosCloseMode.
Proof. solve_decision. Defined.

Record ChaosConfig := mkChaosConfig {
  cx_delay : Z;
  cx_jitter : Z;
  cx_drop_percent : f64;
  cx_corrupt_percent : f64;
  cx_close_percent : f64;
  cx_close_mode : ChaosCloseMode;
  cx_read_pause : Z;
  cx_read_jitter : Z;
  cx_seed : option Z;
}.
#[export] Instance ChaosConfig_eta : Settable ChaosConfig := fun c =>
  mkChaosConfig (cx_delay c) (cx_jitter c) (cx_drop_percent c) (cx_corrupt_percent c)
    (cx_close_percent c) (cx_close_mode c) (cx_read_pause c) (cx_read_jitter c) (cx_seed c).

Definition ChaosConfig_new : ChaosConfig :=
  mkChaosConfig 0 0 f64_zero f64_zero f64_zero Abrupt 0 0 None.
Definition with_delay (delay jitter : Z) (c : ChaosConfig) :=
  c <| cx_delay := delay |> <| cx_jitter := jitter |>.
Definition with_drop (percent : f64) (c : ChaosConfig) := c <| cx_drop_percent := percent |>.
Definition with_corrupt (percent : f64) (c : ChaosConfig) := c <| cx_corrupt_percent := percent |>.
Definition with_close (percent : f64) (mode : ChaosCloseMode) (c : ChaosConfig) :=
  c <| cx_close_percent := percent |> <| cx_close_mode := mode |>.
Definition with_read_pause (pause jitter : Z) (c : ChaosConfig) :=
  c <| cx_read_pause := pause |> <| cx_read_jitter := jitter |>.
Definition with_seed (seed : Z) (c : ChaosConfig) := c <| cx_seed := Some seed |>.

Definition f64_gt0 (x : f64) : bool := f64_ltb f64_zero x.

Definition acts_on_sends (c : ChaosConfig) : bool :=
  negb (cx_delay c =? 0) || negb (cx_jitter c =? 0) || f64_gt0 (cx_drop_percent c)
  || f64_gt0 (cx_corrupt_percent c) || f64_gt0 (cx_close_percent c).
Definition pauses_reads (c : ChaosConfig) : bool :=
  negb (cx_read_pause c =? 0) || negb (cx_read_jitter c =? 0).
Definition is_active (c : ChaosConfig) : bool := acts_on_sends c || pauses_reads c.

Definition f64_hundred : f64 := f64_of_Z 100.

(** [fmt] is the [Display] of [f64]. *)
Definition check_percent (fmt : f64 -> string) (knob : string * f64) : result unit WsBlastError :=
  let (name, value) := knob in
  if negb (f64_leb f64_zero value && f64_leb value f64_hundred)
  then Err (ConfigFailure (InvalidOption ("chaos " +:+ name +:+
         " percentage must be between 0 and 100, received " +:+ fmt value)))
  else Ok tt.

Definition ChaosConfig_validate (fmt : f64 -> string) (c : ChaosConfig) : result unit WsBlastError :=
  let? _ := result_collect (check_percent fmt)
    [("drop"%string, cx_drop_percent c); ("corrupt"%string, cx_corrupt_percent c);
     ("close"%string, cx_close_percent c)] in
  let sum := f64_add (cx_drop_percent c) (cx_corrupt_percent c) in
  if f64_ltb f64_hundred sum
  then Err (ConfigFailure (InvalidOption ("chaos drop and corrupt percentages add up to " +:+
         fmt sum +:+
         "; a send is either dropped or corrupted, so they can add up to at most 100")))
  else Ok tt.

Definition seeded (time : Z) (c : ChaosConfig) : ChaosConfig :=
  c <| cx_seed ::= fun seed => Some (default time seed) |>.

(** [DURATION[:JITTER]] *)
Definition parse_delay (raw : string) : result (Z * Z) WsBlastError :=
  let '(delay, jitter) :=
    match split_once ":"%char raw with
    | Some (delay, jitter) => (delay, Some jitter)
    | None => (raw, None)
    end in
  let? delay := parse_human_duration delay in
  let? jitter := match jitter with
                 | Some jitter => parse_human_duration jitter
                 | None => Ok 0
                 end in
  Ok (delay, jitter).

(** ** A worker's faults *)

Record SendPlan := mkSendPlan { pl_delay : Z; pl_drop : bool; pl_corrupt : bool }.
Definition SendPlan_default : SendPlan := mkSendPlan 0 false false.

Definition READ_STREAM : Z := 0x7265616470617573.

Record ChaosState := mkChaosState {
  xs_config : ChaosConfig;
  xs_rng : Z;
  xs_read_rng : Z;
}.
#[export] Instance ChaosState_eta : Settable ChaosState := fun s =>
  mkChaosState (xs_config s) (xs_rng s) (xs_read_rng s).

(** [time] is what [time_seed] would return. *)
Definition ChaosState_new (time : Z) (config : ChaosConfig) (worker_id : Z) : ChaosState :=
  let seed := default time (cx_seed config) in
  mkChaosState config
    (XorShift64_new (Z.lxor seed (splitmix64 worker_id)))
    (XorShift64_new (Z.lxor (splitmix64 (Z.lxor seed READ_STREAM)) (splitmix64 worker_id))).

Definition plan_send (s : ChaosState) : SendPlan * ChaosState :=
  let config := xs_config s in
  let '(delay, rng) :=
    if negb (cx_jitter config =? 0)
    then let (extra, rng) := at_most (Z.min (cx_jitter config) u64_max) (xs_rng s) in
         (cx_delay config + extra, rng)
    else (cx_delay config, xs_rng s) in
  let drop := cx_drop_percent config in
  let corrupt := cx_corrupt_percent config in
  if f64_gt0 drop || f64_gt0 corrupt
  then
    let (draw, rng) := next_f64 rng in
    let draw := f64_mul draw f64_hundred in
    let dropped := f64_ltb draw drop in
    (mkSendPlan delay dropped (negb dropped && f64_ltb draw (f64_add drop corrupt)),
     s <| xs_rng := rng |>)
  else (mkSendPlan delay false false, s <| xs_rng := rng |>).

Definition read_pause (s : ChaosState) : option Z * ChaosState :=
  let config := xs_config s in
  if negb (pauses_reads config) then (None, s)
  else if negb (cx_read_jitter config =? 0)
  then let (extra, rng) := at_most (Z.min (cx_read_jitter config) u64_max) (xs_read_rng s) in
       (Some (cx_read_pause config + extra), s <| xs_read_rng := rng |>)
  else (Some (cx_read_pause config), s).

Definition close_now (s : ChaosState) : option bool * ChaosState :=
  let config := xs_config s in
  if f64_leb (cx_close_percent config) f64_zero then (None, s)
  else
    let (draw, rng) := next_f64 (xs_rng s) in
    (if f64_ltb (f64_mul draw f64_hundred) (cx_close_percent config)
     then Some (bool_decide (cx_close_mode config = Graceful)) else None,
     s <| xs_rng := rng |>).

Definition other_printable (original offset : Z) : Z :=
  let base := clamp 0x20 0x7e original - 0x20 in
  0x20 + (base + 1 + offset mod 94) mod 95.

(** Two draws in order: the position, then the bit. *)
Definition flip_bit (bytes : list Z) (s : ChaosState) : list Z * ChaosState :=
  let (pos, rng) := at_most (Z.of_nat (length bytes) - 1) (xs_rng s) in
  let (bit, rng) := at_most 7 rng in
  (alter (fun b => Z.lxor b (Z.shiftl 1 bit)) (Z.to_nat pos) bytes, s <| xs_rng := rng |>).

Definition is_ascii (b : Z) : bool := b <? 128.

(** Positions of the ASCII bytes, from [i]. *)
Fixpoint ascii_positions (i : nat) (bytes : list Z) : list nat :=
  match bytes with
  | [] => []
  | b :: bytes' => (if is_ascii b then [i] else []) ++ ascii_positions (S i) bytes'
  end.

Definition corrupt (msg : Message) (s : ChaosState) : (Message * bool) * ChaosState :=
  match msg with
  | Text text =>
      let bytes := bytes_of_string text in
      let ascii := length (filter (fun b => is_ascii b = true) bytes) in
      if (ascii =? 0)%nat then
        match bytes with
        | [] => ((Text text, false), s)
        | _ => let (flipped, s) := flip_bit bytes s in ((Binary flipped, true), s)
        end
      else
        let (nth, rng) := at_most (Z.of_nat ascii - 1) (xs_rng s) in
        match ascii_positions 0 bytes !! Z.to_nat nth with
        | None => ((Text text, false), s <| xs_rng := rng |>)
        | Some pos =>
            let (offset, rng) := at_most 93 rng in
            let out := alter (fun b => other_printable b (as_u8 offset)) pos bytes in
            let s := s <| xs_rng := rng |> in
            match from_utf8 out with
            | Some corrupted => ((Text corrupted, true), s)
            | None => ((Text text, false), s)
            end
        end
  | Binary ((_ :: _) as bytes) =>
      let (flipped, s) := flip_bit bytes s in ((Binary flipped, true), s)
  | other => ((other, false), s)
  end.

(** ** Corruption changes one byte *)

Lemma next_u64_range state : is_u64 state -> is_u64 (next_u64 state).1.
Proof. intros H. unfold next_u64. cbn [fst]. auto 10 with rust zarith. Qed.

Lemma at_most_range max state :
  is_u64 state -> is_u64 max ->
  0 <= (at_most max state).1 <= max /\ (at_most max state).2 = (next_u64 state).2.
Proof.
  intros Hs Hm. unfold at_most. pose proof (next_u64_range state Hs) as Hr.
  destruct (next_u64 state) as [x rng]. cbn [fst snd] in *. split; [|done].
  destruct (Z.leb_spec (max + 1) u64_max).
  - pose proof (Z.mod_pos_bound x (max + 1)). ulia.
  - unfold u64_max in *. ulia.
Qed.

Lemma next_u64_state state : (next_u64 state).2 = (next_u64 state).1.
Proof. done. Qed.

(** [l] and [l'] differ in exactly one position, in bytes. *)
Definition one_byte_changed (l l' : list Z) : Prop :=
  exists pos b b', l !! pos = Some b /\ b <> b' /\ is_u8 b' /\ l' = <[pos := b']> l.

Lemma alter_insert {A} (f : A -> A) (i : nat) (l : list A) b : l !! i = Some b -> alter f i l = <[i := f b]> l.
Proof.
  revert i. induction l as [|x l IH]; intros [|i] Hi; simplify_eq/=; [done|].
  f_equal. by apply IH.
Qed.

Lemma flip_bit_changes bytes s :
  bytes <> [] -> Forall is_u8 bytes -> Z.of_nat (length bytes) < 2 ^ 64 -> is_u64 (xs_rng s) ->
  one_byte_changed bytes (flip_bit bytes s).1.
Proof.
  intros Hne Hu Hlen Hrng. unfold flip_bit.
  destruct (at_most_range (Z.of_nat (length bytes) - 1) (xs_rng s) Hrng) as [Hpos Hst].
  { destruct bytes; [done|]. cbn [length] in *. ulia. }
  pose proof (next_u64_range _ Hrng) as Hrng1.
  destruct (at_most _ (xs_rng s)) as [pos rng1]. cbn [fst snd] in *. subst rng1.
  rewrite next_u64_state. destruct (at_most_range 7 _ Hrng1) as [Hbit _]; [ulia|].
  destruct (at_most 7 _) as [bit rng2]. cbn [fst snd] in *.
  destruct (lookup_lt_is_Some_2 bytes (Z.to_nat pos)) as [b Hb].
  { destruct bytes; [done|]. cbn [length] in *. lia. }
  assert (is_u8 b) as Hb8 by (by eapply Forall_lookup_1).
  exists (Z.to_nat pos), b, (Z.lxor b (Z.shiftl 1 bit)). split_and!.
  - done.
  - intros Heq. assert (Z.testbit (Z.lxor b (Z.shiftl 1 bit)) bit = Z.testbit b bit) as Hbits by congruence.
    rewrite Z.lxor_spec, Z.shiftl_spec, Z.sub_diag in Hbits by lia. cbn in Hbits. by destruct (Z.testbit b bit).
  - apply lxor_range; [lia|done|]. rewrite Z.shiftl_mul_pow2, Z.mul_1_l by lia.
    assert (2 ^ bit <= 2 ^ 7) by (apply Z.pow_le_mono_r; lia).
    pose proof (Z.pow_nonneg 2 bit). unfold is_uint. change (2 ^ 8) with 256. change (2 ^ 7) with 128 in *. lia.
  - exact (alter_insert (fun b => Z.lxor b (Z.shiftl 1 bit)) _ _ _ Hb).
Qed.

Lemma other_printable_spec original offset :
  is_u8 original ->
  0x20 <= other_printable original offset <= 0x7e /\ other_printable original offset <> original.
Proof.
  intros Ho. unfold other_printable, clamp. unfold is_uint in Ho. change (2 ^ 8) with 256 in Ho.
  set (base := Z.max 32 (Z.min 126 original) - 32).
  assert (0 <= base <= 94) by lia.
  pose proof (Z.mod_pos_bound offset 94 ltac:(lia)).
  pose proof (Z.mod_pos_bound (base + 1 + offset mod 94) 95 ltac:(lia)).
  split; [lia|]. intros Heq.
  assert (base = (base + 1 + offset mod 94) mod 95) as Hb by lia.
  Z.to_euclidean_division_equations. lia.
Qed.

Lemma ascii_positions_spec i bytes k pos :
  ascii_positions i bytes !! k = Some pos ->
  (i <= pos)%nat /\ exists b, bytes !! (pos - i)%nat = Some b /\ is_ascii b = true.
Proof.
  revert i k. induction bytes as [|b bytes IH]; intros i k; [done|]. cbn [ascii_positions].
  assert (forall k, ascii_positions (S i) bytes !! k = Some pos ->
    (i <= pos)%nat /\ exists c, (b :: bytes) !! (pos - i)%nat = Some c /\ is_ascii c = true) as Hrec.
  { intros k' Hk'. apply IH in Hk' as (Hle & c & Hc & Ha). split; [lia|]. exists c.
    replace (pos - i)%nat with (S (pos - S i)) by lia. done. }
  destruct (is_ascii b) eqn:E; cbn [app]; [|by apply Hrec].
  destruct k as [|k]; cbn; [|by apply Hrec].
  intros [= <-]. split; [lia|]. exists b. by rewrite Nat.sub_diag.
Qed.

Lemma length_ascii_positions i bytes :
  length (ascii_positions i bytes) = length (filter (fun b => is_ascii b = true) bytes).
Proof.
  revert i. induction bytes as [|b bytes IH]; intros i; [done|].
  cbn [ascii_positions]. rewrite length_app, IH, filter_cons.
  destruct (is_ascii b) eqn:E; cbn; done.
Qed.

Lemma one_byte_changed_length l l' : one_byte_changed l l' -> length l' = length l.
Proof. intros (pos & b & b' & _ & _ & _ & ->). apply length_insert. Qed.

(** The corruption of a text message that has an ASCII character. *)
Lemma corrupt_text_ascii t s :
  is_u64 (xs_rng s) -> utf8_valid (bytes_of_string t) = true ->
  Z.of_nat (String.length t) < 2 ^ 64 ->
  length (filter (fun b => is_ascii b = true) (bytes_of_string t)) <> O ->
  exists t', (corrupt (Text t) s).1 = (Text t', true) /\
    one_byte_changed (bytes_of_string t) (bytes_of_string t') /\
    utf8_valid (bytes_of_string t') = true.
Proof.
  intros Hrng Hv Hlen Hascii. rewrite <- length_bytes_of_string in Hlen.
  pose proof (bytes_of_string_range t) as Hu8.
  unfold corrupt. set (bytes := bytes_of_string t) in *.
  rewrite (proj2 (Nat.eqb_neq _ 0)) by done.
  set (n := length (filter _ bytes)) in *.
  assert ((n <= length bytes)%nat) as Hn by apply length_filter.
  destruct (at_most_range (Z.of_nat n - 1) (xs_rng s) Hrng) as [Hnth Hst]; [ulia|].
  destruct (at_most _ (xs_rng s)) as [nth rng1]. cbn [fst snd] in *. subst rng1.
  destruct (lookup_lt_is_Some_2 (ascii_positions 0 bytes) (Z.to_nat nth)) as [pos Hpos].
  { rewrite length_ascii_positions. fold n. lia. }
  rewrite Hpos. destruct (ascii_positions_spec _ _ _ _ Hpos) as (_ & b & Hb & Ha).
  rewrite Nat.sub_0_r in Hb. apply Z.ltb_lt in Ha.
  destruct (at_most 93 _) as [offset rng2].
  set (c := other_printable b (as_u8 offset)).
  assert (is_u8 b) as Hb8 by (by eapply Forall_lookup_1).
  destruct (other_printable_spec b (as_u8 offset) Hb8) as [Hc Hcb]. fold c in Hc, Hcb.
  rewrite (alter_insert (fun b => other_printable b (as_u8 offset)) _ _ _ Hb). fold c.
  assert (utf8_valid (<[pos := c]> bytes) = true) as Hout.
  { rewrite insert_take_drop by (by eapply lookup_lt_Some).
    apply (utf8_replace_ascii _ b); [lia|lia|]. by rewrite take_drop_middle. }
  assert (Forall is_u8 (<[pos := c]> bytes)) as Hout8.
  { apply Forall_insert; [done|]. unfold is_uint. change (2 ^ 8) with 256. lia. }
  unfold from_utf8. rewrite Hout. exists (string_of_bytes (<[pos := c]> bytes)).
  rewrite bytes_of_string_of_bytes by done. split_and!; [done| |done].
  exists pos, b, c. split_and!; [done|congruence| |done].
  by apply (Forall_lookup_1 _ _ pos c Hout8), list_lookup_insert_eq, (lookup_lt_Some _ _ b).
Qed.

(** Corrupting a non-empty data message always changes it, by exactly one
    byte: its length stays the same, a text message that has an ASCII
    character stays a text message of valid UTF-8, and every other one
    becomes or stays a binary message. *)
Theorem corrupt_changes_one_byte (msg : Message) (s : ChaosState)
    (Hrng : is_u64 (xs_rng s))
    (Hdata : match msg with Text _ | Binary _ => True | _ => False end)
    (Hne : payload_bytes msg <> []) (Hu : Forall is_u8 (payload_bytes msg))
    (Hutf : match msg with Text t => utf8_valid (bytes_of_string t) = true | _ => True end)
    (Hlen : Z.of_nat (length (payload_bytes msg)) < 2 ^ 64) :
  let '((msg', changed), _) := corrupt msg s in
  changed = true /\ one_byte_changed (payload_bytes msg) (payload_bytes msg') /\
  length (payload_bytes msg') = length (payload_bytes msg) /\
  match msg, msg' with
  | Text t, Text t' => utf8_valid (bytes_of_string t') = true
  | Text t, Binary _ => Forall (fun b => is_ascii b = false) (bytes_of_string t)
  | Binary _, Binary _ => True
  | _, _ => False
  end.
Proof.
  destruct msg as [t|bytes|?|?|?|?]; try done; cbn [payload_bytes] in *.
  - destruct (decide (length (filter (fun b => is_ascii b = true) (bytes_of_string t)) = O)) as [H0|Hn0].
    + unfold corrupt. rewrite H0. cbn [Nat.eqb]. destruct (bytes_of_string t) as [|b bs] eqn:Eb; [done|].
      pose proof (flip_bit_changes (b :: bs) s Hne Hu Hlen Hrng) as Hflip.
      destruct (flip_bit (b :: bs) s) as [flipped s']. cbn [fst payload_bytes] in *.
      split_and!; [done|done|by apply one_byte_changed_length|].
      apply Forall_forall. intros x Hx. apply not_true_is_false. intros Ha.
      apply length_zero_iff_nil in H0. apply (not_elem_of_nil x). rewrite <- H0.
      by apply list_elem_of_filter.
    + rewrite length_bytes_of_string in Hlen.
      destruct (corrupt_text_ascii t s Hrng Hutf Hlen Hn0) as (t' & Hc & Hone & Hv).
      destruct (corrupt (Text t) s) as [[m c] s']. cbn [fst] in Hc. injection Hc as -> ->.
      cbn [payload_bytes]. split_and!; [done|done|by apply one_byte_changed_length|done].
  - unfold corrupt. destruct bytes as [|b bs]; [done|].
    pose proof (flip_bit_changes (b :: bs) s Hne Hu Hlen Hrng) as Hflip.
    destruct (flip_bit (b :: bs) s) as [flipped s']. cbn [fst payload_bytes] in *.
    split_and!; [done|done|by apply one_byte_changed_length|done].
Qed.

Lemma corrupt_changes_one_byte_witness :
  let s := ChaosState_new 0 (with_seed 7 ChaosConfig_new) 3 in
  let '((msg', changed), _) := corrupt (Text "hello") s in
  changed = true /\ length (payload_bytes msg') = 5%nat.
Proof.
  intros s.
  assert (is_u64 (xs_rng s)) as Hrng by (vm_compute; split; [discriminate|reflexivity]).
  pose proof (corrupt_changes_one_byte (Text "hello") s Hrng I ltac:(discriminate)
    (bytes_of_string_range _) eq_refl eq_refl) as Hc.
  destruct (corrupt (Text "hello") s) as [[m c] s'].
  destruct Hc as (Hc & _ & Hlen & _). split; [exact Hc|]. rewrite Hlen. reflexivity.
Defined.

(** ** Read pauses draw apart from the send decisions *)

(** What a session asks of its faults. *)
Inductive ChaosOp :=
| AskPlan | AskClose | AskReadPause | AskCorrupt (msg : Message).

Inductive ChaosAnswer :=
| Plan (plan : SendPlan) | CloseNow (graceful : option bool) | Pause (pause : option Z)
| Corrupted (msg : Message) (changed : bool).

Definition chaos_step (op : ChaosOp) (s : ChaosState) : ChaosAnswer * ChaosState :=
  match op with
  | AskPlan => let (plan, s) := plan_send s in (Plan plan, s)
  | AskClose => let (graceful, s) := close_now s in (CloseNow graceful, s)
  | AskReadPause => let (pause, s) := read_pause s in (Pause pause, s)
  | AskCorrupt msg => let '((msg, changed), s) := corrupt msg s in (Corrupted msg changed, s)
  end.

Fixpoint chaos_run (ops : list ChaosOp) (s : ChaosState) : list (ChaosOp * ChaosAnswer) * ChaosState :=
  match ops with
  | [] => ([], s)
  | op :: ops' =>
      let (answer, s) := chaos_step op s in
      let (rest, s) := chaos_run ops' s in
      ((op, answer) :: rest, s)
  end.

Definition is_read (op : ChaosOp) : bool := match op with AskReadPause => true | _ => false end.

(** What the send decisions depend on. *)
Definition send_view (s : ChaosState) : ChaosConfig * Z := (xs_config s, xs_rng s).
(** Two settings that inject the same send faults. *)
Definition same_sends (c c' : ChaosConfig) : Prop :=
  cx_delay c = cx_delay c' /\ cx_jitter c = cx_jitter c' /\
  cx_drop_percent c = cx_drop_percent c' /\ cx_corrupt_percent c = cx_corrupt_percent c' /\
  cx_close_percent c = cx_close_percent c' /\ cx_close_mode c = cx_close_mode c'.
Definition sends_agree (s s' : ChaosState) : Prop :=
  same_sends (xs_config s) (xs_config s') /\ xs_rng s = xs_rng s'.

Lemma read_pause_keeps s : xs_config (read_pause s).2 = xs_config s /\ xs_rng (read_pause s).2 = xs_rng s.
Proof.
  unfold read_pause. destruct (negb _); [done|]. destruct (negb _); [|done].
  by destruct (at_most _ _).
Qed.

Lemma flip_bit_agree bytes s s' :
  xs_rng s = xs_rng s' ->
  (flip_bit bytes s).1 = (flip_bit bytes s').1 /\
  xs_rng (flip_bit bytes s).2 = xs_rng (flip_bit bytes s').2 /\
  xs_config (flip_bit bytes s).2 = xs_config s.
Proof.
  intros Hr. unfold flip_bit. rewrite Hr. destruct (at_most _ _) as [pos rng].
  by destruct (at_most 7 rng) as [bit rng'].
Qed.

Lemma corrupt_agree msg s s' :
  xs_rng s = xs_rng s' ->
  (corrupt msg s).1 = (corrupt msg s').1 /\
  xs_rng (corrupt msg s).2 = xs_rng (corrupt msg s').2 /\
  xs_config (corrupt msg s).2 = xs_config s.
Proof.
  intros Hr. destruct msg as [t|bytes|?|?|?|?]; cbn [corrupt]; try done.
  - destruct (_ =? _)%nat.
    + destruct (bytes_of_string t) as [|b bs]; [done|].
      destruct (flip_bit_agree (b :: bs) s s' Hr) as (H1 & H2 & H3).
      destruct (flip_bit (b :: bs) s), (flip_bit (b :: bs) s'). cbn in *. by subst.
    + rewrite Hr. destruct (at_most _ _) as [nth rng]. destruct (_ !! _); [|done].
      destruct (at_most 93 rng). by destruct (from_utf8 _).
  - destruct bytes as [|b bs]; [done|].
    destruct (flip_bit_agree (b :: bs) s s' Hr) as (H1 & H2 & H3).
    destruct (flip_bit (b :: bs) s), (flip_bit (b :: bs) s'). cbn in *. by subst.
Qed.

Lemma plan_send_agree s s' :
  sends_agree s s' ->
  (plan_send s).1 = (plan_send s').1 /\ xs_rng (plan_send s).2 = xs_rng (plan_send s').2 /\
  xs_config (plan_send s).2 = xs_config s.
Proof.
  intros [(E1 & E2 & E3 & E4 & _ & _) Hr]. unfold plan_send. rewrite E1, E2, E3, E4, Hr.
  destruct (negb _); [destruct (at_most _ _)|]; (destruct (_ || _); [|done]); by destruct (next_f64 _).
Qed.

Lemma close_now_agree s s' :
  sends_agree s s' ->
  (close_now s).1 = (close_now s').1 /\ xs_rng (close_now s).2 = xs_rng (close_now s').2 /\
  xs_config (close_now s).2 = xs_config s.
Proof.
  intros [(_ & _ & _ & _ & E5 & E6) Hr]. unfold close_now. rewrite E5, E6, Hr.
  destruct (f64_leb _ _); [done|]. by destruct (next_f64 _).
Qed.

Lemma chaos_step_agree op s s' :
  is_read op = false -> sends_agree s s' ->
  (chaos_step op s).1 = (chaos_step op s').1 /\ sends_agree (chaos_step op s).2 (chaos_step op s').2.
Proof.
  intros Hop Hag. pose proof Hag as [Hc Hr].
  assert (forall t t' : ChaosState, xs_config t = xs_config s -> xs_config t' = xs_config s' ->
    xs_rng t = xs_rng t' -> sends_agree t t') as Hfin.
  { intros t t' Ht Ht' Hrr. split; [by rewrite Ht, Ht'|done]. }
  assert (sends_agree s' s) as Hag' by (destruct Hc as (? & ? & ? & ? & ? & ?); by repeat split).
  destruct op as [| | |msg]; cbn [chaos_step]; [| |done|].
  - destruct (plan_send_agree s s' Hag) as (H1 & H2 & H3), (plan_send_agree s' s Hag') as (_ & _ & H4).
    destruct (plan_send s), (plan_send s'). cbn in *. subst. split; [done|by apply Hfin].
  - destruct (close_now_agree s s' Hag) as (H1 & H2 & H3), (close_now_agree s' s Hag') as (_ & _ & H4).
    destruct (close_now s), (close_now s'). cbn in *. subst. split; [done|by apply Hfin].
  - destruct (corrupt_agree msg s s' Hr) as (H1 & H2 & H3), (corrupt_agree msg s' s (eq_sym Hr)) as (_ & _ & H4).
    destruct (corrupt msg s) as [[m c] t], (corrupt msg s') as [[m' c'] t']. cbn in *.
    injection H1 as <- <-. split; [done|by apply Hfin].
Qed.

(** Read pauses never shift the send decisions: whatever the order in
    which reads interleave with sends, the plans, corruptions and closes of
    a connection are those of the same sends without any read, and those of
    a run with the same seed and send faults but other read pauses or
    none. *)
Theorem read_pauses_keep_send_decisions (ops : list ChaosOp) (s s' : ChaosState)
    (Hagree : sends_agree s s') :
  filter (fun e => is_read e.1 = false) (chaos_run ops s).1 =
    (chaos_run (filter (fun op => is_read op = false) ops) s').1.
Proof.
  revert s s' Hagree. induction ops as [|op ops IH]; intros s s' Hag; [done|].
  cbn [chaos_run]. rewrite filter_cons. destruct (is_read op) eqn:Eop.
  - rewrite decide_False by done. destruct op; try done. cbn [chaos_step].
    destruct (read_pause_keeps s) as [Hc Hr].
    destruct (read_pause s) as [pause s1]. cbn [fst snd] in *.
    specialize (IH s1 s'). destruct (chaos_run ops s1) as [rest s2]. cbn [fst] in *.
    rewrite filter_cons, decide_False by done. apply IH.
    destruct Hag as [Hss Hrr]. split; [by rewrite Hc|by rewrite Hr].
  - rewrite decide_True by done. cbn [chaos_run].
    destruct (chaos_step_agree op s s' Eop Hag) as [Ha Hag'].
    destruct (chaos_step op s) as [a s1], (chaos_step op s') as [a' s1']. cbn [fst snd] in *. subst a'.
    specialize (IH s1 s1' Hag'). destruct (chaos_run ops s1) as [rest s2].
    destruct (chaos_run _ s1') as [rest' s2']. cbn [fst] in *.
    rewrite filter_cons, decide_True by done. by rewrite IH.
Qed.

Lemma read_pauses_keep_send_decisions_witness :
  let c := with_seed 42 (with_drop (f64_of_Z 50) ChaosConfig_new) in
  let paused := with_read_pause 1000 500 c in
  filter (fun e => is_read e.1 = false)
    (chaos_run [AskReadPause; AskPlan; AskReadPause; AskPlan] (ChaosState_new 0 paused 1)).1 =
  (chaos_run [AskPlan; AskPlan] (ChaosState_new 0 c 1)).1.
Proof.
  intros c paused.
  apply (read_pauses_keep_send_decisions [AskReadPause; AskPlan; AskReadPause; AskPlan]
    (ChaosState_new 0 paused 1) (ChaosState_new 0 c 1)).
  by repeat split.
Defined.

(** ** Sequences that differ *)

Lemma lxor_cancel a b : Z.lxor a b = 0 -> a = b.
Proof. apply Z.lxor_eq. Qed.

Lemma xor_shiftr_inj k a b :
  0 < k -> 0 <= a -> 0 <= b ->
  Z.lxor a (Z.shiftr a k) = Z.lxor b (Z.shiftr b k) -> a = b.
Proof.
  intros Hk Ha Hb Heq. apply lxor_cancel. set (d := Z.lxor a b).
  assert (0 <= d) as Hd by (by apply Z.lxor_nonneg).
  assert (d = Z.shiftr d k) as Hdk.
  { apply lxor_cancel. unfold d. rewrite Z.shiftr_lxor.
    transitivity (Z.lxor (Z.lxor a (Z.shiftr a k)) (Z.lxor b (Z.shiftr b k))).
    - apply Z.bits_inj'. intros i _. rewrite !Z.lxor_spec.
      destruct (Z.testbit a i), (Z.testbit b i), (Z.testbit (Z.shiftr a k) i), (Z.testbit (Z.shiftr b k) i); done.
    - rewrite Heq. apply Z.lxor_nilpotent. }
  rewrite Z.shiftr_div_pow2 in Hdk by lia.
  destruct (Z.eq_dec d 0) as [|Hne]; [done|].
  assert (d / 2 ^ k < d); [|lia]. apply Z.div_lt; [lia|].
  apply Z.pow_gt_1; lia.
Qed.

Lemma u64_mul_inj c cinv a b :
  wrap 64 (c * cinv) = 1 -> is_u64 a -> is_u64 b -> u64_mul a c = u64_mul b c -> a = b.
Proof.
  intros Hc Ha Hb Heq.
  assert (forall x, is_u64 x -> wrap 64 (u64_mul x c * cinv) = x) as Hinv.
  { intros x Hx. unfold u64_mul, wrap in *. rewrite Zmult_mod_idemp_l, <- Z.mul_assoc.
    rewrite <- Zmult_mod_idemp_r, Hc, Z.mul_1_r. by apply Z.mod_small. }
  rewrite <- (Hinv a), <- (Hinv b) by done. by rewrite Heq.
Qed.

Lemma u64_add_inj c a b : is_u64 a -> is_u64 b -> u64_add a c = u64_add b c -> a = b.
Proof.
  intros Ha Hb Heq. assert (forall x, is_u64 x -> wrap 64 (u64_add x c - c) = x) as Hinv.
  { intros x Hx. unfold u64_add. rewrite wrap_sub_l. rewrite Z.add_simpl_r. by apply wrap_id. }
  rewrite <- (Hinv a), <- (Hinv b) by done. by rewrite Heq.
Qed.

Lemma xor_shiftr_range a k : 0 <= k -> is_u64 a -> is_u64 (Z.lxor a (Z.shiftr a k)).
Proof. intros Hk Ha. apply lxor_range; [lia|done|]. by apply shiftr_range. Qed.

Lemma splitmix64_range z : is_u64 (splitmix64 z).
Proof.
  unfold splitmix64. cbv zeta. set (y := u64_mul _ 0x94d049bb133111eb).
  assert (is_u64 y) by apply u64_range. auto with rust zarith.
Qed.

(** [splitmix64] is a permutation of the 64-bit integers. *)
Lemma splitmix64_inj a b : is_u64 a -> is_u64 b -> splitmix64 a = splitmix64 b -> a = b.
Proof.
  intros Ha Hb. unfold splitmix64. cbv zeta. intros Heq.
  apply xor_shiftr_inj in Heq; [|lia|apply u64_range|apply u64_range].
  apply (u64_mul_inj _ 0x319642b2d24d8ec3) in Heq;
    [|vm_compute; reflexivity|apply xor_shiftr_range; [lia|apply u64_range]..].
  apply xor_shiftr_inj in Heq; [|lia|apply u64_range|apply u64_range].
  apply (u64_mul_inj _ 0x96de1b173f119089) in Heq;
    [|vm_compute; reflexivity|apply xor_shiftr_range; [lia|apply u64_range]..].
  apply xor_shiftr_inj in Heq; [|lia|apply u64_range|apply u64_range].
  by apply u64_add_inj in Heq.
Qed.

Lemma lxor_inj s a b : Z.lxor s a = Z.lxor s b -> a = b.
Proof.
  intros Heq. rewrite <- (Z.lxor_0_l a), <- (Z.lxor_0_l b), <- (Z.lxor_nilpotent s).
  by rewrite !Z.lxor_assoc, Heq.
Qed.

Lemma rotate_left_range a n : 0 < n < 64 -> is_u64 a -> is_u64 (u64_rotate_left a n).
Proof. intros Hn Ha. unfold u64_rotate_left. apply lor_range; auto with rust zarith. Qed.

Lemma rotate_left_bit a n i :
  0 < n < 64 -> is_u64 a -> 0 <= i < 64 ->
  Z.testbit (u64_rotate_left a n) ((i + n) mod 64) = Z.testbit a i.
Proof.
  intros Hn Ha Hi. unfold u64_rotate_left, u64_shl.
  rewrite Z.lor_spec, testbit_wrap by lia.
  destruct (Z_lt_dec (i + n) 64) as [Hlt|Hge].
  - rewrite Z.mod_small by lia. rewrite (proj2 (Z.ltb_lt (i + n) 64)) by lia.
    rewrite Z.shiftl_spec, Z.add_simpl_r, Z.shiftr_spec by lia. cbn [andb].
    rewrite (testbit_high 64 a (i + n + (64 - n))); [apply orb_false_r|done|lia].
  - replace ((i + n) mod 64) with (i + n - 64) by (Z.to_euclidean_division_equations; lia).
    rewrite (proj2 (Z.ltb_lt (i + n - 64) 64)) by lia.
    rewrite Z.shiftl_spec, (Z.testbit_neg_r _ (i + n - 64 - n)), Z.shiftr_spec by lia.
    cbn. f_equal. lia.
Qed.

Lemma rotate_left_inj n a b :
  0 < n < 64 -> is_u64 a -> is_u64 b -> u64_rotate_left a n = u64_rotate_left b n -> a = b.
Proof.
  intros Hn Ha Hb Heq. apply Z.bits_inj'. intros i Hi. destruct (Z_lt_dec i 64).
  - by rewrite <- (rotate_left_bit a n i), <- (rotate_left_bit b n i), Heq by (done || lia).
  - rewrite (testbit_high 64 a), (testbit_high 64 b); (done || lia).
Qed.

Lemma agent_seed_inj seed a b :
  is_u64 seed -> is_u64 a -> is_u64 b -> agent_seed seed a = agent_seed seed b -> a = b.
Proof.
  intros Hs Ha Hb Heq. unfold agent_seed in Heq.
  apply splitmix64_inj in Heq; [|apply lxor_range; [lia|done|apply rotate_left_range; [lia|apply splitmix64_range]]..].
  apply lxor_inj, rotate_left_inj in Heq; [|lia|apply splitmix64_range..].
  apply splitmix64_inj in Heq; [|apply u64_add_range..]. by apply u64_add_inj in Heq.
Qed.

(** One step of the generator never reaches the fixed point zero. *)
Lemma xor_shl_zero x k :
  0 < k -> is_u64 x -> Z.lxor x (u64_shl x k) = 0 -> x = 0.
Proof.
  intros Hk Hx Heq. apply lxor_cancel in Heq. unfold u64_shl in Heq.
  rewrite Z.shiftl_mul_pow2 in Heq by lia.
  assert (forall n : nat, x = wrap 64 (x * 2 ^ (k * Z.of_nat n))) as Hn.
  { induction n as [|n IH]; [by rewrite Z.mul_0_r, Z.mul_1_r, wrap_id|].
    rewrite Heq at 1. rewrite IH at 1. unfold wrap. rewrite Zmult_mod_idemp_l.
    rewrite <- Z.mul_assoc, <- Z.pow_add_r by lia. do 3 f_equal. lia. }
  rewrite (Hn 64%nat). unfold wrap. replace (k * Z.of_nat 64) with (64 + (k - 1) * 64) by lia.
  rewrite Z.pow_add_r, (Z.mul_comm (2 ^ 64)), Z.mul_assoc by lia. apply Z.mod_mul. done.
Qed.

Lemma next_u64_positive state : 0 < state < 2 ^ 64 -> 0 < (next_u64 state).2 < 2 ^ 64.
Proof.
  intros Hs. assert (is_u64 state) as Hu by ulia. pose proof (next_u64_range state Hu) as Hr.
  unfold next_u64 in *. cbn [fst snd] in *. set (x := Z.lxor state (u64_shl state 13)) in *.
  set (y := Z.lxor x (Z.shiftr x 7)) in *.
  assert (is_u64 x) as Hx by (unfold x; auto with rust zarith).
  assert (is_u64 y) as Hy by (unfold y; auto with rust zarith).
  destruct (Z.eq_dec (Z.lxor y (u64_shl y 17)) 0) as [H0|]; [exfalso|ulia].
  apply xor_shl_zero in H0; [|lia|done].
  assert (x = 0) as Hx0.
  { apply (xor_shiftr_inj 7); [lia|ulia|lia|]. fold y. by rewrite H0. }
  apply xor_shl_zero in Hx0; [lia|lia|done].
Qed.

(** No two agents of a distributed run draw from the same seed, the
    generators of two connection slots of one run start from different
    states (but for the one state two seeds share, since zero is replaced by
    one), and no generator ever reaches the state zero it could not leave. *)
Theorem draws_are_apart (time seed a b : Z) (config : ChaosConfig) (n : nat)
    (Hseed : cx_seed config = Some seed) (Hs : is_u64 seed) (Ha : is_u64 a) (Hb : is_u64 b)
    (Hab : a <> b) :
  agent_seed seed a <> agent_seed seed b /\
  (xs_rng (ChaosState_new time config a) = xs_rng (ChaosState_new time config b) ->
     xs_rng (ChaosState_new time config a) = 1) /\
  (xs_read_rng (ChaosState_new time config a) = xs_read_rng (ChaosState_new time config b) ->
     xs_read_rng (ChaosState_new time config a) = 1) /\
  0 < Nat.iter n (fun state => (next_u64 state).2) (xs_rng (ChaosState_new time config a)) < 2 ^ 64.
Proof.
  assert (forall s, is_u64 s -> XorShift64_new (Z.lxor s (splitmix64 a)) =
    XorShift64_new (Z.lxor s (splitmix64 b)) -> XorShift64_new (Z.lxor s (splitmix64 a)) = 1) as Hnew.
  { intros s Hs' Heq. unfold XorShift64_new in *.
    pose proof (splitmix64_range (Z.lxor s (splitmix64 a))).
    pose proof (splitmix64_range (Z.lxor s (splitmix64 b))).
    destruct (Z.eq_dec (splitmix64 (Z.lxor s (splitmix64 a))) (splitmix64 (Z.lxor s (splitmix64 b)))) as [He|He];
      [|ulia].
    exfalso. apply Hab. apply splitmix64_inj in He; [|apply lxor_range; [lia|done|apply splitmix64_range]..].
    apply lxor_inj in He. by apply splitmix64_inj in He. }
  split; [|split; [|split]].
  - intros Heq. by apply agent_seed_inj in Heq.
  - unfold ChaosState_new. rewrite Hseed. cbn. by apply Hnew.
  - unfold ChaosState_new. rewrite Hseed. cbn. apply Hnew, splitmix64_range.
  - assert (0 < xs_rng (ChaosState_new time config a) < 2 ^ 64) as H0.
    { cbn. unfold XorShift64_new. match goal with |- context [splitmix64 ?x] => pose proof (splitmix64_range x) end. ulia. }
    induction n as [|n IH]; [done|]. cbn [Nat.iter nat_rect]. by apply next_u64_positive.
Qed.

Lemma draws_are_apart_witness :
  agent_seed 42 0 <> agent_seed 42 1 /\
  0 < Nat.iter 5 (fun state => (next_u64 state).2)
    (xs_rng (ChaosState_new 0 (with_seed 42 ChaosConfig_new) 0)) < 2 ^ 64.
Proof.
  assert (forall x, 0 <= x < 100 -> is_u64 x) as Hu by (intros; ulia).
  destruct (draws_are_apart 0 42 0 1 (with_seed 42 ChaosConfig_new) 5 eq_refl
    (Hu 42 ltac:(lia)) (Hu 0 ltac:(lia)) (Hu 1 ltac:(lia)) ltac:(lia)) as (H1 & _ & _ & H2).
  split; [exact H1|exact H2].
Defined.
