(* ===== verification/Json.v ===== *)
(** * JSON values, as wsblast uses serde_json

    The variants of [serde_json::Value] are public, so they are given here; a
    number is opaque.  Parsing, printing, pointer lookup and equality are the
    library's, so they are the operations of a class. *)

From Stdlib Require Import ZArith String.
From stdpp Require Import base tactics strings numbers option list.
From S2P Require Import Prelude.

Local Open Scope Z_scope.

Inductive Value (N : Type) :=
| Null
| JBool (b : bool)
| Number (n : N)
| JString (s : string)
| Array (l : list (Value N))
| Object (m : list (string * Value N)).
Arguments Null {N}.
Arguments JBool {N} b.
Arguments Number {N} n.
Arguments JString {N} s.
Arguments Array {N} l.
Arguments Object {N} m.

(** The operations of serde_json on values with numbers of type [N]:
    [from_str] with the error's message, [to_string] (also [Display]),
    [Value::pointer], [==] and [Number::as_u64].  An [Object] lists its
    members in the map's order. *)
Class SerdeJson (N : Type) := {
  from_str : string -> result (Value N) string;
  to_string : Value N -> string;
  pointer : string -> Value N -> option (Value N);
  value_eqb : Value N -> Value N -> bool;
  as_u64 : N -> option Z;
}.

(** serde_json's documented behaviour that some theorems rely on: what a
    parsed value prints as parses to that value. *)
Class SerdeJsonLaws (N : Type) `{SerdeJson N} := {
  from_to_string : forall s v, from_str s = Ok v -> from_str (to_string v) = Ok v;
  from_to_string_text : forall s, from_str (to_string (JString s)) = Ok (JString s);
}.

(** A small instance for the witnesses: the numbers are the naturals below
    ten, the texts of scalars the only JSON, and a pointer finds nothing but
    the whole value. *)
Definition digit_text (n : Z) : string :=
  String (ascii_of_byte (48 + n)) EmptyString.

Module Scalar.

(** The string up to the quote a text ends with, a backslash before a quote
    or a backslash in it. *)
Fixpoint until_quote (s : string) : option string :=
  match s with
  | EmptyString => None
  | String c s' =>
      if byte_of_ascii c =? 34 then match s' with EmptyString => Some EmptyString | _ => None end
      else if byte_of_ascii c =? 92 then
        match s' with String d t => String d <$> until_quote t | EmptyString => None end
      else String c <$> until_quote s'
  end.

Fixpoint escape (s : string) : string :=
  match s with
  | EmptyString => EmptyString
  | String c s' =>
      if (byte_of_ascii c =? 34) || (byte_of_ascii c =? 92)
      then String (ascii_of_byte 92) (String c (escape s')) else String c (escape s')
  end.

Definition quote : string := String (ascii_of_byte 34) EmptyString.

Definition parse (s : string) : result (Value Z) string :=
  match s with
  | String c s' =>
      let b := byte_of_ascii c in
      if decide (s = "null"%string) then Ok Null
      else if decide (s = "true"%string) then Ok (JBool true)
      else if decide (s = "false"%string) then Ok (JBool false)
      else if decide (48 <= b <= 57 /\ s' = EmptyString) then Ok (Number (b - 48))
      else if decide (b = 34) then
        match until_quote s' with Some t => Ok (JString t) | None => Err "invalid string"%string end
      else Err "expected value"%string
  | EmptyString => Err "EOF while parsing a value"%string
  end.

Definition print (v : Value Z) : string :=
  match v with
  | Null => "null"
  | JBool true => "true"
  | JBool false => "false"
  | Number n => digit_text n
  | JString s => (quote ++ escape s ++ quote)%string
  | Array _ => "[]"
  | Object _ => "{}"
  end.

#[export] Instance scalar_json : SerdeJson Z := {|
  from_str := parse;
  to_string := print;
  pointer p v := if decide (p = EmptyString) then Some v else None;
  value_eqb v w :=
    match v, w with
    | Null, Null => true
    | JBool a, JBool b => Bool.eqb a b
    | Number a, Number b => a =? b
    | JString a, JString b => bool_decide (a = b)
    | _, _ => false
    end;
  as_u64 n := Some n;
|}.

Lemma until_quote_escape s : until_quote (escape s ++ quote) = Some s.
Proof.
  induction s as [|c s IH]; [done|]. cbn [escape].
  destruct (byte_of_ascii c =? 34) eqn:E; [|destruct (byte_of_ascii c =? 92) eqn:E'].
  - change (until_quote (String (ascii_of_byte 92) (String c (escape s ++ quote))) = Some (String c s)).
    cbn. by rewrite IH.
  - change (until_quote (String (ascii_of_byte 92) (String c (escape s ++ quote))) = Some (String c s)).
    cbn. by rewrite IH.
  - change (until_quote (String c (escape s ++ quote)) = Some (String c s)).
    cbn [until_quote]. by rewrite E, E', IH.
Qed.

Lemma parse_quoted t : parse (String (ascii_of_byte 34) t) =
  match until_quote t with Some t => Ok (JString t) | None => Err "invalid string"%string end.
Proof. reflexivity. Qed.

Lemma parse_print_text s : parse (print (JString s)) = Ok (JString s).
Proof.
  cbn [print]. change (quote ++ escape s ++ quote)%string with (String (ascii_of_byte 34) (escape s ++ quote)).
  by rewrite parse_quoted, until_quote_escape.
Qed.

#[export] Instance scalar_json_laws : SerdeJsonLaws Z.
Proof.
  constructor; cbn [from_str to_string scalar_json]; [|exact parse_print_text].
  intros [|c s] v; [done|]. unfold parse at 1. cbv zeta.
  repeat (case_decide; [try (intros [= <-]; reflexivity)|]); [| |done].
  - destruct H2 as [Hb ->]. intros [= <-].
    assert (c ∈ ascii_of_byte <$> [48; 49; 50; 51; 52; 53; 54; 55; 56; 57]) as Hc.
    { rewrite <- (ascii_of_byte_of_ascii c). apply list_elem_of_fmap_2.
      apply list_elem_of_In. cbn. lia. }
    cbn in Hc. repeat (apply elem_of_cons in Hc as [->|Hc]; [reflexivity|]). by apply not_elem_of_nil in Hc.
  - destruct (until_quote s); [|done]. intros [= <-]. apply parse_print_text.
Qed.

End Scalar.
