(* ===== verification/JsonText.v ===== *)
(** * A small JSON parser and printer

    A concrete [SerdeJson] for the witnesses that need objects and arrays: the
    whole JSON grammar over non-negative integers, with the escapes of quotes
    and backslashes.  No theorem about the program relies on it. *)

From Stdlib Require Import ZArith Ascii String.
From stdpp Require Import base tactics strings numbers option list.
From S2P Require Import Prelude Str Json.

Local Open Scope Z_scope.

Definition quote : string := String (ascii_of_byte 34) EmptyString.

(** A text up to its closing quote, and what follows. *)
Fixpoint text_rest (s : string) : option (string * string) :=
  match s with
  | EmptyString => None
  | String c s' =>
      if byte_of_ascii c =? 34 then Some (EmptyString, s')
      else if byte_of_ascii c =? 92 then
        match s' with
        | String d t => '(text, rest) ← text_rest t; Some (String d text, rest)
        | EmptyString => None
        end
      else '(text, rest) ← text_rest s'; Some (String c text, rest)
  end.

Fixpoint skip_spaces (s : string) : string :=
  match s with
  | String c s' => if bool_decide (byte_of_ascii c ∈ [9; 10; 13; 32]) then skip_spaces s' else s
  | EmptyString => s
  end.

(** One value and what follows; [parse_items] reads the members of an array
    up to its bracket, [parse_members] those of an object. *)
Fixpoint parse_value (fuel : nat) (s : string) : option (Value Z * string) :=
  match fuel with
  | O => None
  | S fuel =>
      let s := skip_spaces s in
      match strip_prefix "null" s with Some rest => Some (Null, rest) | None =>
      match strip_prefix "true" s with Some rest => Some (JBool true, rest) | None =>
      match strip_prefix "false" s with Some rest => Some (JBool false, rest) | None =>
      match s with
      | EmptyString => None
      | String c rest =>
          let b := byte_of_ascii c in
          if b =? 34 then '(text, rest) ← text_rest rest; Some (JString text, rest)
          else if b =? 91 then
            match strip_prefix "]" (skip_spaces rest) with
            | Some rest => Some (Array [], rest)
            | None => '(l, rest) ← parse_items fuel rest; Some (Array l, rest)
            end
          else if b =? 123 then
            match strip_prefix "}" (skip_spaces rest) with
            | Some rest => Some (Object [], rest)
            | None => '(m, rest) ← parse_members fuel rest; Some (Object m, rest)
            end
          else let (digits, rest) := take_digits s in n ← parse_u64 digits; Some (Number n, rest)
      end end end end
  end
with parse_items (fuel : nat) (s : string) : option (list (Value Z) * string) :=
  match fuel with
  | O => None
  | S fuel =>
      '(v, rest) ← parse_value fuel s;
      match strip_prefix "," (skip_spaces rest) with
      | Some rest => '(l, rest) ← parse_items fuel rest; Some (v :: l, rest)
      | None => rest ← strip_prefix "]" (skip_spaces rest); Some ([v], rest)
      end
  end
with parse_members (fuel : nat) (s : string) : option (list (string * Value Z) * string) :=
  match fuel with
  | O => None
  | S fuel =>
      rest ← strip_prefix quote (skip_spaces s);
      '(key, rest) ← text_rest rest;
      rest ← strip_prefix ":" (skip_spaces rest);
      '(v, rest) ← parse_value fuel rest;
      match strip_prefix "," (skip_spaces rest) with
      | Some rest => '(m, rest) ← parse_members fuel rest; Some ((key, v) :: m, rest)
      | None => rest ← strip_prefix "}" (skip_spaces rest); Some ([(key, v)], rest)
      end
  end.

Definition parse_json (s : string) : result (Value Z) string :=
  match parse_value (S (String.length s)) s with
  | Some (v, rest) => if decide (skip_spaces rest = ""%string) then Ok v else Err "trailing characters"%string
  | None => Err "expected value"%string
  end.

Fixpoint print_json (v : Value Z) : string :=
  match v with
  | Null => "null"
  | JBool b => if b then "true" else "false"
  | Number n => display_u64 n
  | JString s => quote +:+ Scalar.escape s +:+ quote
  | Array l => "[" +:+ String.concat "," (print_json <$> l) +:+ "]"
  | Object m => "{" +:+ String.concat "," ((fun e => quote +:+ Scalar.escape e.1 +:+ quote +:+ ":" +:+ print_json e.2) <$> m) +:+ "}"
  end%string.

Fixpoint equal_json (v w : Value Z) : bool :=
  match v, w with
  | Null, Null => true
  | JBool a, JBool b => Bool.eqb a b
  | Number a, Number b => a =? b
  | JString a, JString b => bool_decide (a = b)
  | Array l, Array k =>
      (fix go l k := match l, k with [], [] => true | x :: l, y :: k => equal_json x y && go l k | _, _ => false end) l k
  | Object l, Object k =>
      (fix go (l k : list (string * Value Z)) :=
        match l, k with
        | [], [] => true
        | (a, x) :: l, (b, y) :: k => bool_decide (a = b) && equal_json x y && go l k
        | _, _ => false
        end) l k
  | _, _ => false
  end.

Fixpoint split_slashes (fuel : nat) (s : string) : list string :=
  match fuel with
  | O => [s]
  | S fuel => match split_once "/" s with Some (a, b) => a :: split_slashes fuel b | None => [s] end
  end.
Fixpoint unescape_tildes (s : string) : string :=
  match s with
  | EmptyString => EmptyString
  | String c rest =>
      if decide (c = "~"%char) then
        match rest with
        | String d rest => String (if decide (d = "1"%char) then "/" else "~") (unescape_tildes rest)
        | EmptyString => String c EmptyString
        end
      else String c (unescape_tildes rest)
  end.
Definition child (token : string) (v : Value Z) : option (Value Z) :=
  match v with
  | Array l => n ← parse_u64 token; l !! Z.to_nat n
  | Object m => snd <$> find (fun e => bool_decide (e.1 = token)) m
  | _ => None
  end.
Definition point (p : string) (v : Value Z) : option (Value Z) :=
  if decide (p = ""%string) then Some v
  else rest ← strip_prefix "/" p;
       fold_left (fun v token => v ≫= child (unescape_tildes token)) (split_slashes (String.length rest) rest) (Some v).

Definition text_json : SerdeJson Z := {|
  from_str := parse_json;
  to_string := print_json;
  pointer := point;
  value_eqb := equal_json;
  as_u64 n := Some n;
|}.
