(* ===== verification/Url.v ===== *)
(** * URLs, as wsblast uses the [url] crate

    The crate's [Url] is a type of its own with the accessors and setters the
    code calls; what the theorems need of it is stated as laws.  [PlainUrl] is
    an instance without percent-encoding, for the witnesses. *)

From Stdlib Require Import ZArith Ascii String.
From stdpp Require Import base tactics strings numbers option list.
From S2P Require Import Prelude Str.

Local Open Scope Z_scope.

(** [Url::parse] with the error's message, [Display], [scheme], [path] and
    [set_path], [query_pairs], and the two ways the query is written:
    [query_pairs_mut().clear().extend_pairs(pairs)] and [append_pair]. *)
Class UrlOps (U : Type) := {
  url_parse : string -> result U string;
  url_text : U -> string;
  url_scheme : U -> string;
  url_path : U -> string;
  set_path : string -> U -> U;
  query_pairs : U -> list (string * string);
  set_query_pairs : list (string * string) -> U -> U;
  append_pair : string -> string -> U -> U;
}.

(** The setters' documented behaviour on the URLs of the web's special
    schemes, whose path is never opaque.  [set_path] percent-encodes; the one
    path the code sets (src/src/socketio.rs) has nothing to encode. *)
Definition web_scheme (scheme : string) : Prop := scheme = "ws"%string \/ scheme = "wss"%string.

Class UrlLaws (U : Type) `{UrlOps U} := {
  path_set_socketio : forall u, web_scheme (url_scheme u) -> url_path (set_path "/socket.io/" u) = "/socket.io/"%string;
  query_set_path : forall p u, query_pairs (set_path p u) = query_pairs u;
  scheme_set_path : forall p u, url_scheme (set_path p u) = url_scheme u;
  query_set_query : forall ps u, query_pairs (set_query_pairs ps u) = ps;
  path_set_query : forall ps u, url_path (set_query_pairs ps u) = url_path u;
  scheme_set_query : forall ps u, url_scheme (set_query_pairs ps u) = url_scheme u;
  set_query_twice : forall ps qs u, set_query_pairs ps (set_query_pairs qs u) = set_query_pairs ps u;
}.

Module Plain.

Record PlainUrl := mkPlainUrl {
  pl_scheme : string;
  pl_authority : string;
  pl_path : string;
  pl_query : list (string * string);
}.

Definition print (u : PlainUrl) : string :=
  (pl_scheme u +:+ "://" +:+ pl_authority u +:+ pl_path u +:+
   match pl_query u with
   | [] => ""
   | q => "?" +:+ String.concat "&" ((fun e => e.1 +:+ "=" +:+ e.2) <$> q)
   end)%string.

Fixpoint pairs_of (fuel : nat) (s : string) : list (string * string) :=
  match fuel with
  | O => []
  | S fuel =>
      let one s := match split_once "=" s with Some e => e | None => (s, ""%string) end in
      match split_once "&" s with
      | Some (a, b) => one a :: pairs_of fuel b
      | None => [one s]
      end
  end.

Definition parse (s : string) : result PlainUrl string :=
  match find_split "://" s with
  | None => Err "relative URL without a base"%string
  | Some (scheme, rest) =>
      let (rest, query) := match split_once "?" rest with
                           | Some (a, q) => (a, pairs_of (String.length q) q)
                           | None => (rest, [])
                           end in
      let (authority, path) := match split_once "/" rest with Some (a, p) => (a, ("/" +:+ p)%string) | None => (rest, "/"%string) end in
      Ok (mkPlainUrl scheme authority path query)
  end.

#[export] Instance plain_url : UrlOps PlainUrl := {|
  url_parse := parse;
  url_text := print;
  url_scheme := pl_scheme;
  url_path := pl_path;
  set_path p u := mkPlainUrl (pl_scheme u) (pl_authority u) p (pl_query u);
  query_pairs := pl_query;
  set_query_pairs ps u := mkPlainUrl (pl_scheme u) (pl_authority u) (pl_path u) ps;
  append_pair k v u := mkPlainUrl (pl_scheme u) (pl_authority u) (pl_path u) (pl_query u ++ [(k, v)]);
|}.

#[export] Instance plain_url_laws : UrlLaws PlainUrl.
Proof. constructor; intros; reflexivity. Qed.

End Plain.
