(* ===== verification/Libs.v ===== *)
(** * The libraries of a configuration

    What [LoadTestConfig] is made of besides the crate's own types: JSON
    values (serde_json), URLs (url) and handshake headers (http).  One class
    bundles their types and operations, a second one the documented behaviour
    that some theorems rely on. *)

From Stdlib Require Import ZArith Lia Ascii String.
From stdpp Require Import base tactics strings numbers option list.
From S2P Require Import Prelude Str Json JsonText Url.

Local Open Scope Z_scope.

(** [HeaderName::from_str], [as_str], [HeaderValue::from_str], [to_str] (of
    visible ASCII only), and of [HeaderMap]: [new], [append], [iter], [get_all]
    and [into_iter], which names only the first value of each name. *)
Class HttpOps (HN HV HM : Type) := {
  header_name : string -> option HN;
  name_text : HN -> string;
  header_value : string -> option HV;
  value_text : HV -> option string;
  map_new : HM;
  map_append : HN -> HV -> HM -> HM;
  map_iter : HM -> list (HN * HV);
  map_into_iter : HM -> list (option HN * HV);
  map_get_all : HN -> HM -> list HV;
}.

(** The entries with the name each one belongs to. *)
Fixpoint named_from {HN HV : Type} (name : option HN) (entries : list (option HN * HV)) : list (HN * HV) :=
  match entries with
  | [] => []
  | (key, value) :: entries =>
      let name := match key with Some key => Some key | None => name end in
      match name with Some n => (n, value) :: named_from name entries | None => named_from name entries end
  end.

Class Libs := {
  JN : Type;
  Url : Type;
  HeaderName : Type;
  HeaderValue : Type;
  HeaderMap : Type;
  HeaderName_eq :: EqDecision HeaderName;
  libs_json :: SerdeJson JN;
  libs_url :: UrlOps Url;
  libs_http :: HttpOps HeaderName HeaderValue HeaderMap;
}.

(** The values of one name among entries. *)
Definition values_of `{Libs} (n : HeaderName) (entries : list (HeaderName * HeaderValue)) : list HeaderValue :=
  omap (fun e => if decide (e.1 = n) then Some e.2 else None) entries.

(** A name's text is a valid name, without whitespace; a value's text is what
    it was made from; whether a text is a value is decided byte by byte; a map
    lists for every name the values appended under it, in order. *)
Class LibsLaws `{Libs} := {
  libs_json_laws :: SerdeJsonLaws JN;
  libs_url_laws :: UrlLaws Url;
  name_again : forall n, header_name (name_text n) = Some n;
  name_trimmed : forall n, trim (name_text n) = name_text n;
  value_again : forall v t, value_text v = Some t -> header_value t = Some v;
  value_of_text : forall v s t, header_value s = Some v -> value_text v = Some t -> t = s;
  get_all_new : forall n, map_get_all n map_new = [];
  get_all_append : forall n n' v m,
    map_get_all n (map_append n' v m) = map_get_all n m ++ (if decide (n' = n) then [v] else []);
  get_all_iter : forall n m, map_get_all n m = values_of n (map_iter m);
  iter_named : forall m, named_from None (map_into_iter m) = map_iter m;
}.

(** A small instance: two header names, values of printable bytes, a map as
    the list of its entries, scalar JSON and URLs without encoding. *)
Module PlainLibs.

Definition value_byte (b : Z) : bool := ((32 <=? b) && negb (b =? 127)) || (b =? 9).
Definition plain_text (s : string) : Prop := forallb value_byte (bytes_of_string s) = true.
Definition PlainValue : Type := { s : string | plain_text s }.

Definition plain_value (s : string) : option PlainValue :=
  match decide (plain_text s) with left H => Some (exist _ s H) | right _ => None end.
Definition plain_name (s : string) : option bool :=
  if decide (s = "authorization"%string) then Some true else if decide (s = "x-user"%string) then Some false else None.

#[export] Instance plain_http : HttpOps bool PlainValue (list (bool * PlainValue)) := {|
  header_name := plain_name;
  name_text n := if n then "authorization"%string else "x-user"%string;
  header_value := plain_value;
  value_text v := Some (proj1_sig v);
  map_new := [];
  map_append n v m := m ++ [(n, v)];
  map_iter m := m;
  map_into_iter m := (fun e => (Some e.1, e.2)) <$> m;
  map_get_all n m := omap (fun e => if decide (e.1 = n) then Some e.2 else None) m;
|}.

#[export] Instance plain_libs : Libs := {|
  JN := Z; Url := Plain.PlainUrl; HeaderName := bool; HeaderValue := PlainValue; HeaderMap := list (bool * PlainValue);
  libs_json := Scalar.scalar_json; libs_url := Plain.plain_url;
|}.

#[export] Instance plain_libs_laws : LibsLaws.
Proof.
  constructor; cbn.
  - exact Scalar.scalar_json_laws.
  - exact Plain.plain_url_laws.
  - by intros [].
  - by intros [].
  - intros [s Hs] t [= <-]. cbn. unfold plain_value. destruct (decide (plain_text s)) as [H|]; [|done]. do 2 f_equal. apply proof_irrel.
  - intros v s t. unfold plain_value. destruct (decide _); [|done]. by intros [= <-] [= <-].
  - done.
  - intros n n' v m. rewrite omap_app. cbn. by case_decide.
  - done.
  - intros m. induction m as [|[n v] m IH]; [done|]. cbn in *. f_equal. clear IH.
    enough (forall name, named_from name ((fun e : bool * PlainValue => (Some e.1, e.2)) <$> m) = m) as He by apply He.
    induction m as [|[n' v'] m IH]; intros name; [done|]. cbn. f_equal. apply IH.
Qed.

End PlainLibs.
