(* ===== verification/Reply.v ===== *)
(** * Replies: matching, checks and captures (src/src/check.rs, and
    [ReplyMatch] of src/src/config.rs with [reply_matches] of
    src/src/worker.rs)

    [Check] of the source is [ReplyCheck] here. *)

From Stdlib Require Import ZArith Lia Ascii String.
From stdpp Require Import base tactics strings numbers option list.
From S2P Require Import Prelude RustStd Str Live Wire Json.

Local Open Scope Z_scope.
Local Open Scope rust_scope.

(** ** Which frame answers a request *)

Inductive ReplyMatch :=
| First
| Exact
| JsonPointer (pointer : string).
#[export] Instance ReplyMatch_eq_dec : EqDecision ReplyMatch.
Proof. solve_decision. Defined.

Definition ReplyMatch_flag_value (r : ReplyMatch) : string :=
  match r with
  | First => "first"
  | Exact => "exact"
  | JsonPointer pointer => "json:" ++ pointer
  end.

Definition invalid_json_pointer (pointer : string) : ConfigError :=
  UnsupportedOption ("--match json:" ++ pointer ++ ": '" ++ pointer ++
    "' is not a valid RFC 6901 JSON pointer (use '' or '/'-separated tokens, escaping '~' as '~0' and '/' as '~1')").

(** Every [~] is followed by [0] or [1]. *)
Fixpoint tildes_escaped (s : string) : bool :=
  match s with
  | EmptyString => true
  | String c s' =>
      if decide (c = "~"%char) then
        match s' with
        | String d s'' => if decide (d = "0"%char \/ d = "1"%char) then tildes_escaped s'' else false
        | EmptyString => false
        end
      else tildes_escaped s'
  end.

Definition is_json_pointer (pointer : string) : bool :=
  if decide (pointer = ""%string) then true
  else if starts_with "/" pointer then tildes_escaped pointer else false.

Definition ReplyMatch_from_str (raw : string) : result ReplyMatch ConfigError :=
  if decide (raw = "first"%string) then Ok First
  else if decide (raw = "exact"%string) then Ok Exact
  else match strip_prefix "json:" raw with
       | Some pointer =>
           if is_json_pointer pointer then Ok (JsonPointer pointer) else Err (invalid_json_pointer pointer)
       | None => Err (UnsupportedOption
                   ("--match '" ++ raw ++ "' is not supported; use first, exact or json:<pointer>"))
       end.

Section WithJson.
Context {N : Type} `{SerdeJson N}.

(** [serde_json::from_slice]: JSON text is UTF-8. *)
Definition from_slice (data : list Z) : option (Value N) :=
  text ← from_utf8 data;
  match from_str text with Ok value => Some value | Err _ => None end.

Definition reply_matches (rule : ReplyMatch) (frame : Message) (sent : option Message) (seq : Z) : bool :=
  match rule with
  | First => true
  | Exact => bool_decide (sent = Some frame)
  | JsonPointer p =>
      match frame with
      | Text _ | Binary _ =>
          match from_slice (payload_bytes frame) with
          | None => false
          | Some value =>
              match pointer p value with
              | Some (Number number) => bool_decide (as_u64 number = Some seq)
              | Some (JString text) => bool_decide (parse_u64 text = Some seq)
              | _ => false
              end
          end
      | _ => false
      end
  end.

(** ** What a reply must hold *)

Inductive ReplyCheck :=
| Json (p : string) (equals : option (Value N))
| Contains (text : string).

Definition check_pointer (p : string) : result unit string :=
  if decide (p = ""%string) then Ok ()
  else if starts_with "/" p then Ok ()
  else Err ("'" ++ p ++ "' is not a JSON pointer: it must be empty or start with '/', such as /status")%string.

Definition check_validate (c : ReplyCheck) : result unit string :=
  match c with
  | Json p _ => check_pointer p
  | Contains text =>
      if decide (text = ""%string) then Err "contains needs the text to look for"%string else Ok ()
  end.

Definition parse_flag (spec : string) : result ReplyCheck string :=
  match strip_prefix "contains:" spec with
  | Some text =>
      if decide (text = ""%string) then Err "--expect contains: needs the text to look for"%string
      else Ok (Contains text)
  | None =>
      match strip_prefix "json:" spec with
      | None => Err ("invalid --expect '" ++ spec ++
                     "': expected json:/pointer, json:/pointer=VALUE or contains:TEXT")%string
      | Some rest =>
          let '(p, equals) :=
            match split_once "="%char rest with
            | Some (p, value) =>
                (p, Some (match from_str value with Ok v => v | Err _ => JString value end))
            | None => (rest, None)
            end in
          let check := Json p equals in
          let? _ := check_validate check in
          Ok check
      end
  end.

Definition check_flag_value (c : ReplyCheck) : string :=
  match c with
  | Json p None => "json:" ++ p
  | Json p (Some value) => "json:" ++ p ++ "=" ++ to_string value
  | Contains text => "contains:" ++ text
  end.

(** A reply frame: its text, and its JSON (the cell only caches it). *)
Definition reply_text (frame : Message) : option string :=
  match frame with
  | Text text => Some text
  | Binary bytes => from_utf8 bytes
  | _ => None
  end.

Definition reply_json (frame : Message) : option (Value N) :=
  text ← reply_text frame;
  match from_str text with Ok value => Some value | Err _ => None end.

Definition same (found expected : Value N) : bool :=
  if value_eqb found expected then true
  else
    let parses_to text other :=
      match from_str text with Ok parsed => value_eqb parsed other | Err _ => false end in
    match found, expected with
    | JString text, (Number _ | JBool _) as other => parses_to text other
    | (Number _ | JBool _) as other, JString text => parses_to text other
    | _, _ => false
    end.

Definition passes (check : ReplyCheck) (reply : Message) : bool :=
  match check with
  | Contains text =>
      match reply_text reply with Some reply => contains text reply | None => false end
  | Json p equals =>
      match json ← reply_json reply; pointer p json with
      | None => false
      | Some found => match equals with None => true | Some expected => same found expected end
      end
  end.

(** ** Captures *)

Record Capture := mkCapture { ca_var : nat; ca_pointer : string }.

Definition capture_value (c : Capture) (reply : Message) : option string :=
  json ← reply_json reply;
  found ← pointer (ca_pointer c) json;
  Some (match found with JString text => text | other => to_string other end).

(** [is_ascii_alphabetic] and [is_ascii_alphanumeric]. *)
Definition is_alphabetic (c : ascii) : bool :=
  let b := byte_of_ascii (ascii_lower c) in (97 <=? b) && (b <=? 122).
Definition var_char (c : ascii) : bool := is_alphabetic c || is_digit c || bool_decide (c = "_"%char).

Definition check_var_name (name : string) : result unit string :=
  let valid :=
    match name with
    | EmptyString => false
    | String c rest =>
        (is_alphabetic c || bool_decide (c = "_"%char)) && forallb var_char (list_ascii_of_string rest)
    end in
  if negb valid then
    Err ("'" ++ name ++ "' cannot name a variable: use letters, digits and _, starting with a letter or _")%string
  else if decide (name ∈ ["seq"; "timestamp"; "worker_id"; "data"]%string) then
    Err ("'" ++ name ++ "' is a built-in placeholder and cannot be captured")%string
  else Ok ().

(** ** Rules survive being spelled out *)

Lemma split_once_None sep s : split_once sep s = None -> sep ∉ list_ascii_of_string s.
Proof.
  induction s as [|c s IH]; cbn; [intros _; apply not_elem_of_nil|].
  case_decide as Hc; [done|]. destruct (split_once sep s) as [[]|]; [done|].
  intros _. apply not_elem_of_cons. auto.
Qed.

Lemma split_once_prefix sep a b :
  sep ∉ list_ascii_of_string a -> split_once sep (a ++ String sep b) = Some (a, b).
Proof.
  induction a as [|c a IH]; intros Hn.
  - rewrite app_string_nil. cbn. by rewrite decide_True.
  - cbn in Hn. apply not_elem_of_cons in Hn as [Hc Hn]. rewrite app_string_cons. cbn.
    rewrite decide_False by congruence. by rewrite IH.
Qed.

Lemma split_once_head sep s a b : split_once sep s = Some (a, b) -> sep ∉ list_ascii_of_string a.
Proof.
  revert a. induction s as [|c s IH]; intros a; cbn; [done|]. case_decide as Hc.
  - intros [= <- _]. apply not_elem_of_nil.
  - destruct (split_once sep s) as [[a' b']|]; cbn; [|done]. intros [= <- ->]. cbn.
    apply not_elem_of_cons. split; [congruence|by apply IH].
Qed.

Lemma no_contains_prefix p : strip_prefix "contains:" ("json:" ++ p) = None.
Proof. reflexivity. Qed.

Context `{!SerdeJsonLaws N}.

Lemma check_again spec check : parse_flag spec = Ok check ->
  check_validate check = Ok () /\ parse_flag (check_flag_value check) = Ok check.
Proof.
  unfold parse_flag at 1. destruct (strip_prefix "contains:" spec) as [text|].
  { case_decide as Ht; [done|]. intros [= <-]. cbn [check_validate]. rewrite decide_False by done.
    split; [done|]. unfold parse_flag. cbn [check_flag_value]. rewrite strip_prefix_app. by case_decide. }
  destruct (strip_prefix "json:" spec) as [rest|]; [|done].
  destruct (split_once "="%char rest) as [[p value]|] eqn:Es; cbn [check_validate].
  - intros (u & Hv & [= <-])%result_bind_Ok. destruct u. split; [done|].
    unfold parse_flag. cbn [check_flag_value]. rewrite no_contains_prefix, strip_prefix_app.
    change ("=" ++ ?s)%string with (String "="%char s).
    rewrite split_once_prefix by (by eapply split_once_head). cbn [check_validate]. rewrite Hv. cbn.
    destruct (from_str value) as [v|] eqn:Ev; [by rewrite (from_to_string value)|by rewrite from_to_string_text].
  - intros (u & Hv & [= <-])%result_bind_Ok. destruct u. split; [done|].
    unfold parse_flag. cbn [check_flag_value]. rewrite no_contains_prefix, strip_prefix_app, Es.
    cbn [check_validate]. by rewrite Hv.
Qed.

Lemma match_of_text pointer : is_json_pointer pointer = true ->
  ReplyMatch_from_str (ReplyMatch_flag_value (JsonPointer pointer)) = Ok (JsonPointer pointer).
Proof.
  intros Hp. cbn [ReplyMatch_flag_value]. unfold ReplyMatch_from_str. rewrite decide_False by done. rewrite decide_False by done.
  by rewrite strip_prefix_app, Hp.
Qed.

(** A reply rule survives being spelled out for another machine: every
    [--expect] that parses is valid, and the text written for it parses to
    the same check (in particular the value after [=] keeps its JSON type);
    every [--match] that parses is read back from the text written for it. *)
Theorem rules_roundtrip :
  (forall spec check, parse_flag spec = Ok check ->
     check_validate check = Ok () /\ parse_flag (check_flag_value check) = Ok check) /\
  (forall raw rule, ReplyMatch_from_str raw = Ok rule ->
     ReplyMatch_from_str (ReplyMatch_flag_value rule) = Ok rule).
Proof.
  split; [exact check_again|].
  intros raw rule. unfold ReplyMatch_from_str at 1.
  case_decide; [by intros [= <-]|]. case_decide; [by intros [= <-]|].
  destruct (strip_prefix "json:" raw) as [p|] eqn:Ep; [|done].
  destruct (is_json_pointer p) eqn:Ej; [|done]. intros [= <-]. by apply match_of_text.
Qed.

End WithJson.
Arguments ReplyCheck N : clear implicits.

#[local] Existing Instance Scalar.scalar_json.
#[local] Existing Instance Scalar.scalar_json_laws.

Lemma rules_roundtrip_witness :
  parse_flag (N := Z) "json:/ok=yes" = Ok (Json "/ok" (Some (JString "yes"))) /\
  parse_flag (N := Z) (check_flag_value (N := Z) (Json "/ok" (Some (JString "yes")))) =
    Ok (Json "/ok" (Some (JString "yes"))).
Proof.
  split; [reflexivity|].
  apply (proj1 (rules_roundtrip (N := Z)) "json:/ok=yes"%string). reflexivity.
Defined.

Example expect_examples :
  parse_flag (N := Z) "json:/n=7" = Ok (Json "/n" (Some (Number 7))) /\
  parse_flag (N := Z) "contains:" = Err "--expect contains: needs the text to look for"%string /\
  passes (N := Z) (Json "" (Some (JString "7"))) (Text "7") = true /\
  passes (N := Z) (Contains "b") (Text "abc") = true /\
  reply_matches (N := Z) (JsonPointer "") (Binary [55]) None 7 = true /\
  reply_matches (N := Z) Exact (Text "a") (Some (Binary [97])) 0 = false.
Proof. vm_compute. repeat split. Qed.
