(* ===== verification/Data.v ===== *)
(** * Test data files (src/src/data.rs)

    A data file is a table whose rows the connections of a run share out.
    Reading the file is the operating system's; everything from its text on
    is modelled. *)

From Stdlib Require Import ZArith Lia Ascii String.
From stdpp Require Import base tactics strings numbers option list.
From S2P Require Import Prelude RustStd Str Json.

Local Open Scope Z_scope.
Local Open Scope rust_scope.

Record DataSet := mkDataSet {
  ds_path : string;
  ds_columns : list string;
  ds_rows : list (list string);
  ds_share : option (Z * Z);
}.
#[export] Instance DataSet_eta : Settable DataSet := fun d =>
  mkDataSet (ds_path d) (ds_columns d) (ds_rows d) (ds_share d).

(** The position of the first element equal to [x]. *)
Fixpoint position (x : string) (l : list string) : option nat :=
  match l with
  | [] => None
  | y :: l' => if decide (y = x) then Some O else S <$> position x l'
  end.

Definition column (d : DataSet) (name : string) : option nat := position name (ds_columns d).

Definition row_for (d : DataSet) (worker_id : Z) : Z :=
  let global :=
    match ds_share d with
    | Some (index, agents) => u64_saturating_add (u64_saturating_mul worker_id agents) index
    | None => worker_id
    end in
  global mod Z.of_nat (length (ds_rows d)).

Definition value (d : DataSet) (row : Z) (name : string) : option string :=
  index ← column d name;
  cells ← ds_rows d !! Z.to_nat row;
  cells !! index.

Definition with_share (index agents : Z) (d : DataSet) : DataSet :=
  d <| ds_share := if 1 <? agents then Some (index, agents) else None |>.

(** ** CSV *)

Definition QUOTE : ascii := ascii_of_byte 34.
Definition LF : ascii := ascii_of_byte 10.
Definition CR : ascii := ascii_of_byte 13.

(** The parser's variables. *)
Record Csv := mkCsv {
  csv_records : list (Z * list string);
  csv_record : list string;
  csv_field : string;
  csv_quoted : bool;
  csv_field_started : bool;
  csv_line : Z;
}.
#[export] Instance Csv_eta : Settable Csv := fun s =>
  mkCsv (csv_records s) (csv_record s) (csv_field s) (csv_quoted s) (csv_field_started s) (csv_line s).

Definition push (c : ascii) (s : Csv) : Csv := s <| csv_field ::= fun f => (f ++ String c "")%string |>.

Definition end_field (s : Csv) : Csv :=
  s <| csv_record ::= fun r => r ++ [csv_field s] |> <| csv_field := ""%string |>.

Definition has_record (s : Csv) : bool :=
  csv_field_started s || negb (bool_decide (csv_field s = ""%string)) || negb (bool_decide (csv_record s = [])).

(** [records.push((line, std::mem::take(&mut record)))] *)
Definition end_record (line : Z) (s : Csv) : Csv :=
  s <| csv_records ::= fun r => r ++ [(line, csv_record s)] |> <| csv_record := [] |>.

Definition line_error (line : Z) (message : string) : string :=
  ("line " ++ display_u64 line ++ ": " ++ message)%string.

(** One character outside quotes; [next] is the one after it. *)
Definition csv_unquoted (c : ascii) (next : option ascii) (s : Csv) : result Csv string :=
  if decide (c = QUOTE) then
    if csv_field_started s then Err (line_error (csv_line s) "a quote inside an unquoted field")
    else Ok (s <| csv_quoted := true |> <| csv_field_started := true |>)
  else if decide (c = ","%char) then Ok (end_field s <| csv_field_started := false |>)
  else if decide (c = CR /\ next = Some LF) then Ok s
  else if decide (c = LF) then
    let s := s <| csv_line ::= fun n => n +u 1 |> in
    let s := if has_record s then end_record (csv_line s -u 1) (end_field s) else s in
    Ok (s <| csv_field_started := false |>)
  else Ok (push c s <| csv_field_started := true |>).

(** [while let Some(c) = chars.next()]; a doubled quote inside quotes takes
    two characters. *)
Fixpoint csv_loop (text : string) (s : Csv) : result Csv string :=
  match text with
  | EmptyString => Ok s
  | String c rest =>
      if csv_quoted s then
        if decide (c = QUOTE) then
          match rest with
          | String d rest' =>
              if decide (d = QUOTE) then csv_loop rest' (push QUOTE s)
              else csv_loop rest (s <| csv_quoted := false |>)
          | EmptyString => csv_loop rest (s <| csv_quoted := false |>)
          end
        else if decide (c = LF) then csv_loop rest (push c (s <| csv_line ::= fun n => n +u 1 |>))
        else csv_loop rest (push c s)
      else
        let? s := csv_unquoted c (match rest with String d _ => Some d | EmptyString => None end) s in
        csv_loop rest s
  end.

(** [",".join] and the like. *)
Fixpoint join (sep : string) (l : list string) : string :=
  match l with
  | [] => ""
  | [x] => x
  | x :: l' => x ++ sep ++ join sep l'
  end.

(** The columns before the [n]-th are [before]. *)
Fixpoint check_columns_from (n : Z) (before columns : list string) : result unit string :=
  match columns with
  | [] => Ok ()
  | c :: columns' =>
      if decide (trim c = ""%string) then Err ("column " ++ display_u64 (n +u 1) ++ " has no name")%string
      else if decide (c ∈ before) then Err ("column '" ++ c ++ "' appears twice")%string
      else check_columns_from (n +u 1) (before ++ [c]) columns'
  end.
Definition check_columns (columns : list string) : result unit string := check_columns_from 0 [] columns.

Definition values_for_columns (line : Z) (values columns : nat) : string :=
  line_error line (display_u64 (Z.of_nat values) ++ " values for " ++ display_u64 (Z.of_nat columns) ++ " columns").

Definition parse_csv (text : string) : result (list string * list (list string)) string :=
  let? s := csv_loop text (mkCsv [] [] "" false false 1) in
  if csv_quoted s then Err (line_error (csv_line s) "a quoted field is not closed")
  else
    let s := if has_record s then end_record (csv_line s) (end_field s) else s in
    match csv_records s with
    | [] => Err "no header row"%string
    | (_, columns) :: records =>
        let? _ := check_columns columns in
        let? rows := result_collect (fun '(line, row) =>
          if (length row =? length columns)%nat then Ok row
          else Err (values_for_columns line (length row) (length columns))) records in
        Ok (columns, rows)
    end.

(** ** JSON Lines *)

(** [text.lines()]: without the line feeds, nor a carriage return before
    one; no empty line after a final line feed. *)
Fixpoint lines_loop (text line : string) : list string :=
  match text with
  | EmptyString => if decide (line = ""%string) then [] else [line]
  | String c rest =>
      if decide (c = LF) then
        default line (strip_suffix (String CR "") line) :: lines_loop rest ""
      else lines_loop rest (line ++ String c "")
  end.
Definition lines (text : string) : list string := lines_loop text "".

Section WithJson.
Context {N : Type} `{SerdeJson N}.

Fixpoint member (key : string) (object : list (string * Value N)) : option (Value N) :=
  match object with
  | [] => None
  | (k, v) :: object' => if decide (k = key) then Some v else member key object'
  end.

Definition cell_of (line_no : Z) (object : list (string * Value N)) (c : string) : result string string :=
  match member c object with
  | Some (JString s) => Ok s
  | Some ((Number _ | JBool _) as v) => Ok (to_string v)
  | Some Null => Ok ""%string
  | _ => Err (line_error line_no ("'" ++ c ++
           "' is an array or object; values must be strings, numbers or booleans"))
  end.

(** One line: the columns the first object set, and the rows so far. *)
Definition json_line (line_no : Z) (line : string) (acc : option (list string) * list (list string))
  : result (option (list string) * list (list string)) string :=
  let '(columns, rows) := acc in
  if decide (trim line = ""%string) then Ok acc
  else
    match from_str line with
    | Err e => Err (line_error line_no e)
    | Ok (Object object) =>
        let columns := default (object.*1) columns in
        if negb (length object =? length columns)%nat
           || existsb (fun c => match member c object with None => true | Some _ => false end) columns then
          Err (line_error line_no ("the keys differ from the first line's (" ++ join ", " columns ++ ")"))
        else
          let? row := result_collect (cell_of line_no object) columns in
          Ok (Some columns, rows ++ [row])
    | Ok _ => Err (line_error line_no "expected a JSON object")
    end.

Fixpoint json_lines_loop (n : Z) (ls : list string) (acc : option (list string) * list (list string))
  : result (option (list string) * list (list string)) string :=
  match ls with
  | [] => Ok acc
  | line :: ls' => let? acc := json_line (n +u 1) line acc in json_lines_loop (n +u 1) ls' acc
  end.

Definition parse_json_lines (text : string) : result (list string * list (list string)) string :=
  let? acc := json_lines_loop 0 (lines text) (None, []) in
  match fst acc with
  | None => Err "no rows"%string
  | Some columns => let? _ := check_columns columns in Ok (columns, snd acc)
  end.

(** ** Data sets *)

Definition BOM : string := string_of_bytes [239; 187; 191].

Definition DataSet_parse (path text : string) : result DataSet string :=
  let text := default text (strip_prefix BOM text) in
  let lower := to_ascii_lowercase path in
  let json_lines := ends_with ".jsonl" lower || ends_with ".ndjson" lower || starts_with "{" (trim_start text) in
  let? table := result_map_err (fun e => path ++ ": " ++ e)%string
    (if json_lines then parse_json_lines text else parse_csv text) in
  let '(columns, rows) := table in
  if decide (rows = []) then Err (path ++ ": no rows")%string
  else Ok (mkDataSet path columns rows None).

Definition MAX_BYTES : Z := 256 * 1024 * 1024.

(** [metadata] and [content] are what the file system answers. *)
Definition DataSet_load (shown : string) (metadata : result Z string) (content : result string string)
  : result DataSet string :=
  let? size := result_map_err (fun e => shown ++ ": " ++ e)%string metadata in
  if MAX_BYTES <? size then
    Err (shown ++ ": " ++ display_u64 size ++ " bytes is more than the " ++ display_u64 MAX_BYTES ++ " a data file may have")%string
  else
    let? text := result_map_err (fun e => shown ++ ": " ++ e)%string content in
    DataSet_parse shown text.

End WithJson.

(** The first row whose length is not [n]. *)
Fixpoint bad_row (n : nat) (rows : list (list string)) : option nat :=
  match rows with
  | [] => None
  | row :: rows' => if (length row =? n)%nat then S <$> bad_row n rows' else Some O
  end.

Definition from_parts (path : string) (columns : list string) (rows : list (list string)) : result DataSet string :=
  if decide (rows = []) then Err (path ++ ": no rows")%string
  else match bad_row (length columns) rows with
       | Some n => Err (path ++ ": row " ++ display_u64 (Z.of_nat (n + 1)) ++ " has " ++
                        display_u64 (Z.of_nat (length (default [] (rows !! n)))) ++ " values for " ++
                        display_u64 (Z.of_nat (length columns)) ++ " columns")%string
       | None => Ok (mkDataSet path columns rows None)
       end.

(** ** Every connection finds its values *)

Definition well_formed (d : DataSet) : Prop :=
  ds_rows d <> [] /\ Forall (fun row => length row = length (ds_columns d)) (ds_rows d).

Lemma rows_collected {A} (f : A -> result (list string) string) (n : nat) l rows :
  (forall a row, f a = Ok row -> length row = n) ->
  result_collect f l = Ok rows -> Forall (fun row => length row = n) rows.
Proof.
  intros Hf H%result_collect_Ok. apply Forall_forall. intros row Hin.
  apply list_elem_of_lookup in Hin as [i Hi]. eapply Forall2_lookup_r in H as (a & _ & Ha); eauto.
Qed.

Lemma parse_csv_rows text columns rows :
  parse_csv text = Ok (columns, rows) -> Forall (fun row => length row = length columns) rows.
Proof.
  unfold parse_csv. intros (s & _ & H)%result_bind_Ok. destruct (csv_quoted s); [done|].
  cbv zeta in H. destruct (csv_records _) as [|[line cols] records]; [done|].
  apply result_bind_Ok in H as (u & _ & H). apply result_bind_Ok in H as (rs & Hrs & [= <- <-]).
  eapply rows_collected; [|exact Hrs]. intros [l row] row'. cbn.
  destruct (Nat.eqb_spec (length row) (length cols)); [|done]. by intros [= <-].
Qed.

Lemma parse_json_lines_rows {J : Type} `{SerdeJson J} text columns rows :
  parse_json_lines text = Ok (columns, rows) -> Forall (fun row => length row = length columns) rows.
Proof.
  unfold parse_json_lines. intros (acc & Hacc & H0)%result_bind_Ok.
  assert (forall ls n a b, json_lines_loop n ls a = Ok b ->
    (forall c, a.1 = Some c -> Forall (fun row => length row = length c) a.2) -> (a.1 = None -> a.2 = []) ->
    (forall c, b.1 = Some c -> Forall (fun row => length row = length c) b.2)) as Hloop.
  { clear. induction ls as [|line ls IH]; intros n a b Hl Ha Hn; [by injection Hl as <-|].
    cbn in Hl. apply result_bind_Ok in Hl as (a' & Ha' & Hl). eapply IH; [exact Hl|..]; clear IH Hl.
    - unfold json_line in Ha'. destruct a as [columns rows]. cbn in *. case_decide; [by injection Ha' as <-|].
      destruct (from_str line) as [[| | | | |object]|]; try done.
      cbv zeta in Ha'. destruct (_ || _); [done|]. apply result_bind_Ok in Ha' as (row & Hrow & [= <-]).
      intros c. cbn. intros [= <-]. apply Forall_app. split.
      + destruct columns as [c'|]; cbn; [by apply Ha|]. by rewrite Hn.
      + constructor; [|constructor]. apply result_collect_Ok, Forall2_length in Hrow. done.
    - unfold json_line in Ha'. destruct a as [columns rows]. cbn in *. case_decide; [by injection Ha' as <-|].
      destruct (from_str line) as [[| | | | |object]|]; try done.
      cbv zeta in Ha'. destruct (_ || _); [done|]. by apply result_bind_Ok in Ha' as (row & Hrow & [= <-]). }
  destruct (acc.1) as [cols|] eqn:E; [|done]. apply result_bind_Ok in H0 as (u & _ & [= <- <-]).
  eapply Hloop; [exact Hacc|done|done|done].
Qed.

Lemma bad_row_None n rows : bad_row n rows = None -> Forall (fun row => length row = n) rows.
Proof.
  induction rows as [|row rows IH]; [by constructor|]. cbn.
  destruct (Nat.eqb_spec (length row) n); [|done]. intros Hb. constructor; [done|].
  apply IH. by destruct (bad_row n rows).
Qed.

Lemma parsed_well_formed {J : Type} `{SerdeJson J} path text d : DataSet_parse path text = Ok d -> well_formed d.
Proof.
  unfold DataSet_parse. cbv zeta. intros ([columns rows] & Ht & Hd)%result_bind_Ok.
  case_decide as Hr; [done|]. injection Hd as <-. split; [done|]. cbn.
  destruct (_ || _) eqn:E.
  - destruct (parse_json_lines _) as [[]|] eqn:Ep; [|done]. injection Ht as -> ->.
    by eapply parse_json_lines_rows.
  - destruct (parse_csv _) as [[]|] eqn:Ep; [|done]. injection Ht as -> ->.
    by eapply parse_csv_rows.
Qed.

Lemma from_parts_well_formed path columns rows d : from_parts path columns rows = Ok d -> well_formed d.
Proof.
  unfold from_parts. case_decide as Hr; [done|]. destruct (bad_row _ _) eqn:E; [done|].
  intros [= <-]. split; [done|]. by apply bad_row_None.
Qed.

Lemma position_lookup x l i : position x l = Some i -> l !! i = Some x.
Proof.
  revert i. induction l as [|y l IH]; intros i; cbn; [done|]. case_decide.
  - intros [= <-]. by subst.
  - intros (j & Hj & ->)%fmap_Some. by apply IH.
Qed.

Lemma position_elem x l : x ∈ l -> exists i, position x l = Some i.
Proof.
  induction 1 as [l|y l x Hin IH]; cbn.
  - rewrite decide_True by done. eauto.
  - case_decide; [eauto|]. destruct IH as [i ->]. cbn. eauto.
Qed.

Lemma row_for_range d worker_id : ds_rows d <> [] -> 0 <= row_for d worker_id < Z.of_nat (length (ds_rows d)).
Proof.
  intros Hr. unfold row_for. apply Z.mod_pos_bound. destruct (ds_rows d); [done|cbn; lia].
Qed.

(** Every data set a file or a coordinator's message is read into has,
    for every connection of every share of it, a value for each of its
    columns, so a template whose columns were checked is always filled. *)
Theorem every_connection_has_values {J : Type} `{SerdeJson J} (d : DataSet)
    (Hd : (exists path text, DataSet_parse path text = Ok d) \/
          (exists path columns rows, from_parts path columns rows = Ok d))
    (index agents worker_id : Z) (name : string) (Hname : name ∈ ds_columns d) :
  let d' := with_share index agents d in
  is_Some (value d' (row_for d' worker_id) name).
Proof.
  intros d'. assert (well_formed d) as [Hr Hrows].
  { destruct Hd as [(path & text & Hd)|(path & columns & rows & Hd)];
      [by eapply parsed_well_formed|by eapply from_parts_well_formed]. }
  assert (ds_rows d' = ds_rows d /\ ds_columns d' = ds_columns d) as [Er Ec] by done.
  pose proof (row_for_range d' worker_id ltac:(by rewrite Er)) as Hrange. rewrite Er in Hrange.
  unfold value, column. rewrite Er, Ec. destruct (position_elem name (ds_columns d) Hname) as [i Hi].
  rewrite Hi. cbn. destruct (lookup_lt_is_Some_2 (ds_rows d) (Z.to_nat (row_for d' worker_id))) as [cells Hc]; [lia|].
  rewrite Hc. cbn. apply lookup_lt_is_Some_2. rewrite Forall_forall in Hrows.
  rewrite (Hrows cells) by (by eapply list_elem_of_lookup_2).
  apply position_lookup in Hi. by eapply lookup_lt_Some.
Qed.

(** The agents of a distributed run never share a row while the file has
    enough of them: two connections (whatever their agent and their number on
    it) whose position in the interleaving is below the number of rows use
    different rows; without other agents connection [n] uses row [n]. *)
Theorem rows_are_apart (d : DataSet) (agents i j v w : Z)
    (Hn : Z.of_nat (length (ds_rows d)) <= u64_max)
    (Hi : 0 <= i < agents) (Hj : 0 <= j < agents) (Hv : 0 <= v) (Hw : 0 <= w)
    (Hvi : v * agents + i < Z.of_nat (length (ds_rows d)))
    (Hwj : w * agents + j < Z.of_nat (length (ds_rows d)))
    (Hne : (i, v) <> (j, w)) :
  row_for (with_share i agents d) v = v * agents + i /\
  row_for (with_share i agents d) v <> row_for (with_share j agents d) w.
Proof.
  assert (forall i v, 0 <= i < agents -> 0 <= v -> v * agents + i < Z.of_nat (length (ds_rows d)) ->
    row_for (with_share i agents d) v = v * agents + i) as Hrow.
  { clear - Hn. intros i v Hi Hv Hlt. unfold row_for, with_share. cbn.
    destruct (Z.ltb_spec 1 agents).
    - unfold u64_saturating_mul, u64_saturating_add. rewrite !Z.min_r by nia. apply Z.mod_small. nia.
    - assert (agents = 1) as -> by lia. rewrite Z.mod_small; nia. }
  rewrite !Hrow by done. split; [done|]. intros Heq. apply Hne.
  assert (v = w) as ->; [|f_equal; lia].
  destruct (Z.lt_trichotomy v w) as [?|[?|?]]; [|done|]; exfalso; nia.
Qed.

(** ** CSV written back *)

(** A table as RFC 4180 writes it, every field in quotes. *)
Fixpoint double_quotes (f : string) : string :=
  match f with
  | EmptyString => EmptyString
  | String c f' => if decide (c = QUOTE) then String QUOTE (String QUOTE (double_quotes f')) else String c (double_quotes f')
  end.
Definition csv_field_text (f : string) : string := String QUOTE (double_quotes f ++ String QUOTE "").
Fixpoint csv_record_text (row : list string) : string :=
  match row with
  | [] => ""
  | [f] => csv_field_text f
  | f :: row' => csv_field_text f ++ String "," (csv_record_text row')
  end.
Fixpoint csv_text (records : list (list string)) : string :=
  match records with
  | [] => ""
  | row :: records' => csv_record_text row ++ String LF (csv_text records')
  end.

Definition at_field (records : list (Z * list string)) (record : list string) (line : Z) : Csv :=
  mkCsv records record "" false false line.

Definition no_quote_ahead (rest : string) : Prop :=
  match rest with String d _ => d <> QUOTE | EmptyString => True end.

Lemma csv_quoted_text f rest records record field line :
  no_quote_ahead rest ->
  exists line', csv_loop (double_quotes f ++ String QUOTE rest) (mkCsv records record field true true line) =
    csv_loop rest (mkCsv records record (field ++ f) false true line').
Proof.
  intros Hrest. revert field line. induction f as [|c f IH]; intros field line.
  - exists line. rewrite app_string_nil_r.
    cbn [double_quotes]. rewrite app_string_nil. cbn [csv_loop csv_quoted].
    rewrite decide_True by done. destruct rest as [|d rest]; [done|]. cbn in Hrest.
    by rewrite decide_False.
  - assert (forall g, (field ++ String c g)%string = ((field ++ String c "") ++ g)%string) as Happ.
    { intros g. clear. induction field as [|d field IH]; [done|]. by rewrite !app_string_cons, IH. }
    rewrite Happ. cbn [double_quotes]. destruct (decide (c = QUOTE)) as [->|Hc].
    + rewrite !app_string_cons. cbn [csv_loop csv_quoted]. rewrite !decide_True by done. apply IH.
    + rewrite app_string_cons. cbn [csv_loop csv_quoted]. rewrite decide_False by done.
      case_decide as Hlf; apply IH.
Qed.

Lemma csv_field_read f rest records record line :
  no_quote_ahead rest ->
  exists line', csv_loop (csv_field_text f ++ rest) (at_field records record line) =
    csv_loop rest (mkCsv records record f false true line').
Proof.
  intros Hrest. destruct (csv_quoted_text f rest records record "" line Hrest) as [line' Hl].
  exists line'. rewrite app_string_nil in Hl. rewrite <- Hl. unfold csv_field_text.
  rewrite app_string_cons, app_string_assoc. cbn [csv_loop csv_quoted at_field].
  unfold csv_unquoted. by rewrite decide_True.
Qed.

Lemma csv_record_read row rest records record line :
  row <> [] ->
  exists line', csv_loop (csv_record_text row ++ String LF rest) (at_field records record line) =
    csv_loop rest (at_field (records ++ [(line' -u 1, record ++ row)]) [] line').
Proof.
  revert record line. induction row as [|f row IH]; intros record line Hne; [done|].
  destruct row as [|g row].
  - cbn [csv_record_text].
    destruct (csv_field_read f (String LF rest) records record line ltac:(done)) as [line' ->].
    exists (line' +u 1). cbn [csv_loop csv_quoted]. unfold csv_unquoted.
    rewrite decide_False by done. rewrite decide_False by done. rewrite decide_False by (intros [? _]; done).
    by rewrite decide_True by done.
  - change (csv_record_text (f :: g :: row)) with (csv_field_text f ++ String "," (csv_record_text (g :: row)))%string.
    rewrite app_string_assoc, app_string_cons.
    destruct (csv_field_read f (String "," (csv_record_text (g :: row) ++ String LF rest)) records record line ltac:(done))
      as [line' ->].
    destruct (IH (record ++ [f]) line' ltac:(done)) as [line'' Hl]. exists line''.
    rewrite <- app_assoc in Hl. cbn [app] in Hl. rewrite <- Hl. cbn [csv_loop csv_quoted]. unfold csv_unquoted.
    rewrite decide_False by done. rewrite decide_True by done. done.
Qed.

Lemma csv_records_read rows records line :
  Forall (fun row => row <> []) rows ->
  exists read line', csv_loop (csv_text rows) (at_field records [] line) = Ok (at_field (records ++ read) [] line') /\
    read.*2 = rows.
Proof.
  intros Hrows. revert records line. induction Hrows as [|row rows Hrow Hrows IH]; intros records line.
  - exists [], line. by rewrite app_nil_r.
  - cbn [csv_text]. destruct (csv_record_read row (csv_text rows) records [] line Hrow) as [line' ->].
    destruct (IH (records ++ [(line' -u 1, [] ++ row)]) line') as (read & line'' & -> & Hread).
    exists ((line' -u 1, row) :: read), line''. rewrite <- app_assoc. cbn. by rewrite Hread.
Qed.

Lemma check_columns_ok n before columns :
  Forall (fun c => trim c <> ""%string) columns -> NoDup (before ++ columns) ->
  check_columns_from n before columns = Ok ().
Proof.
  revert n before. induction columns as [|c columns IH]; intros n before Hblank Hnd; [done|].
  cbn. inversion_clear Hblank. rewrite decide_False by done. rewrite decide_False.
  - apply IH; [done|]. by rewrite <- app_assoc.
  - intros Hin. apply NoDup_app in Hnd as (_ & Hd & _). apply (Hd c Hin). apply list_elem_of_here.
Qed.

(** A table written with every field in quotes and every quote doubled
    is read back exactly, whatever commas, line breaks, carriage returns,
    quotes or other characters its fields hold. *)
Theorem csv_roundtrip (columns : list string) (rows : list (list string))
    (Hc : columns <> []) (Hblank : Forall (fun c => trim c <> ""%string) columns) (Hnd : NoDup columns)
    (Hrows : Forall (fun row => length row = length columns) rows) :
  parse_csv (csv_text (columns :: rows)) = Ok (columns, rows).
Proof.
  unfold parse_csv.
  destruct (csv_records_read (columns :: rows) [] 1) as (read & line & Hread & Hr).
  { constructor; [done|]. eapply Forall_impl; [exact Hrows|]. intros row Hl ->. by destruct columns. }
  change (mkCsv [] [] "" false false 1) with (at_field [] [] 1). rewrite Hread. cbn [result_bind csv_quoted at_field].
  unfold has_record. cbn -[check_columns_from check_columns result_collect].
  destruct read as [|[l cols] read]; [done|]. cbn in Hr. injection Hr as -> Hr.
  rewrite (bool_decide_true (""%string = ""%string)) by done. cbn [negb orb csv_records at_field].
  unfold check_columns. rewrite check_columns_ok by done. cbn [result_bind].
  assert (result_collect (fun '(line, row) => if (length row =? length columns)%nat then Ok row
    else Err (values_for_columns line (length row) (length columns))) read = Ok rows) as ->; [|done].
  apply result_collect_Ok. subst rows. clear -Hrows. induction read as [|[l row] read IH]; [constructor|].
  cbn in Hrows. inversion_clear Hrows. constructor; [|by apply IH].
  by rewrite (proj2 (Nat.eqb_eq (length row) (length columns))).
Qed.

Lemma csv_roundtrip_witness :
  let note := ("a, " ++ String QUOTE (String CR (String LF "b")))%string in
  parse_csv (csv_text [["user"; "note"]; ["ada"; note]; [""; ""]]%string) =
    Ok (["user"; "note"]%string, [["ada"; note]; [""; ""]]%string).
Proof.
  intros note. apply (csv_roundtrip ["user"; "note"]%string [["ada"; note]; [""; ""]]%string).
  - done.
  - repeat (constructor; [vm_compute; done|]). constructor.
  - apply (bool_decide_unpack _). vm_compute. reflexivity.
  - repeat (constructor; [reflexivity|]). constructor.
Defined.

#[local] Existing Instance Scalar.scalar_json.

Definition three_rows : DataSet := mkDataSet "u.csv" ["id"]%string [["x"]; ["y"]; ["z"]]%string None.

Lemma every_connection_has_values_witness :
  let d' := with_share 1 2 three_rows in
  is_Some (value d' (row_for d' 12345) "id").
Proof.
  apply (every_connection_has_values (J := Z) three_rows).
  - left. exists "u.csv"%string, (csv_text [["id"]; ["x"]; ["y"]; ["z"]]%string). vm_compute. reflexivity.
  - apply list_elem_of_here.
Defined.

Lemma rows_are_apart_witness :
  row_for (with_share 0 2 three_rows) 1 = 2 /\
  row_for (with_share 0 2 three_rows) 1 <> row_for (with_share 1 2 three_rows) 0.
Proof. apply (rows_are_apart three_rows 2 0 1 1 0); [done|lia..|done|done|done]. Defined.

Example csv_examples :
  parse_csv ("a,b" ++ String LF "1,2" ++ String LF "3" ++ String LF "") = Err "line 3: 1 values for 2 columns"%string /\
  parse_csv ("a" ++ String LF (String QUOTE "x") ++ String LF "") = Err "line 3: a quoted field is not closed"%string /\
  DataSet_parse (N := Z) "x.csv" "" = Err "x.csv: no header row"%string.
Proof. vm_compute. repeat split. Qed.
