(* ===== verification/Template.v ===== *)
(** * Templates (src/src/template.rs) and payloads ([PayloadConfig] of
    src/src/config.rs)

    [Text] of the source's [Part] is [PText] here, [Data] is [PData]. *)

From Stdlib Require Import ZArith Lia Ascii String.
From stdpp Require Import base tactics strings numbers option list.
From S2P Require Import Prelude RustStd Str Wire Data.

Local Open Scope Z_scope.
Local Open Scope rust_scope.

Inductive Part :=
| PText (text : string)
| Seq
| Timestamp
| WorkerId
| PData (column : string)
| Var (index : nat).
#[export] Instance Part_eq_dec : EqDecision Part.
Proof. solve_decision. Defined.

Record Template := mkTemplate { tp_source : string; tp_parts : list Part }.

Record Values := mkValues {
  va_seq : Z;
  va_worker_id : Z;
  va_data : option (DataSet * Z);
  va_vars : list string;
}.

(** What [{{name}}] stands for, if anything. *)
Definition placeholder (vars : list string) (name : string) : option Part :=
  if decide (name = "seq"%string) then Some Seq
  else if decide (name = "timestamp"%string) then Some Timestamp
  else if decide (name = "worker_id"%string) then Some WorkerId
  else match position name vars with
       | Some index => Some (Var index)
       | None =>
           match strip_prefix "data." name with
           | Some c => if decide (c = ""%string) then None else Some (PData c)
           | None => None
           end
       end.

Definition text_parts (text : string) : list Part := if decide (text = ""%string) then [] else [PText text].

(** The [while let] loop: [text] is the literal text not yet in a part, and
    the result ends with the text after the loop.  Every round shortens
    [rest] by at least four bytes. *)
Fixpoint parse_loop (vars : list string) (fuel : nat) (text rest : string) : list Part :=
  match fuel with
  | O => text_parts (text ++ rest)
  | S fuel' =>
      match find_split "{{" rest with
      | None => text_parts (text ++ rest)
      | Some (before, opened) =>
          match find_split "}}" opened with
          | None => text_parts (text ++ rest)
          | Some (name, rest') =>
              match placeholder vars name with
              | Some part => text_parts (text ++ before) ++ part :: parse_loop vars fuel' "" rest'
              | None => parse_loop vars fuel' (text ++ before ++ "{{" ++ name ++ "}}") rest'
              end
          end
      end
  end.

Definition parse_with_vars (source : string) (vars : list string) : Template :=
  mkTemplate source (parse_loop vars (String.length source) "" source).
Definition parse (source : string) : Template := parse_with_vars source [].

Definition is_text (p : Part) : bool := match p with PText _ => true | _ => false end.
Definition is_dynamic (t : Template) : bool := existsb (fun p => negb (is_text p)) (tp_parts t).
Definition has_seq (t : Template) : bool := bool_decide (Seq ∈ tp_parts t).
Definition data_columns (t : Template) : list string :=
  omap (fun p => match p with PData c => Some c | _ => None end) (tp_parts t).

Definition check_column (data : option DataSet) (c : string) : result unit string :=
  match data with
  | None => Err ("{{data." ++ c ++ "}} needs a data file: pass --data FILE, or data: in the scenario")%string
  | Some d =>
      match column d c with
      | None => Err ("{{data." ++ c ++ "}}: " ++ ds_path d ++ " has no column '" ++ c ++ "' (columns: " ++
                     join ", " (ds_columns d) ++ ")")%string
      | Some _ => Ok ()
      end
  end.
Fixpoint check_data_columns (cs : list string) (data : option DataSet) : result unit string :=
  match cs with
  | [] => Ok ()
  | c :: cs' => let? _ := check_column data c in check_data_columns cs' data
  end.
Definition check_data (t : Template) (data : option DataSet) : result unit string :=
  check_data_columns (data_columns t) data.

(** [now_ms] is the clock's milliseconds since the epoch, 0 before it. *)
Definition render_part (now_ms : Z) (values : Values) (p : Part) : string :=
  match p with
  | PText text => text
  | Seq => display_u64 (va_seq values)
  | Timestamp => display_u64 now_ms
  | WorkerId => display_u64 (va_worker_id values)
  | PData c =>
      match va_data values with
      | Some (data, row) => default ""%string (value data row c)
      | None => ""
      end
  | Var index => default ""%string (va_vars values !! index)
  end.

Definition concat_strings (l : list string) : string := foldr String.append ""%string l.
Definition render (now_ms : Z) (t : Template) (values : Values) : string :=
  concat_strings (render_part now_ms values <$> tp_parts t).

(** ** Payloads *)

Inductive PayloadConfig :=
| StaticText (text : string)
| DynamicText (template : Template)
| BinaryPayload (bytes : list Z).

Definition from_text_with_vars (text : string) (vars : list string) : PayloadConfig :=
  let template := parse_with_vars text vars in
  if is_dynamic template then DynamicText template else StaticText (tp_source template).
Definition from_text (text : string) : PayloadConfig := from_text_with_vars text [].

Definition payload_template (p : PayloadConfig) : option Template :=
  match p with DynamicText template => Some template | _ => None end.

(** ** Nothing is lost *)

(** How a part is written in a template. *)
Definition part_source (vars : list string) (p : Part) : string :=
  match p with
  | PText text => text
  | Seq => "{{seq}}"
  | Timestamp => "{{timestamp}}"
  | WorkerId => "{{worker_id}}"
  | PData c => "{{data." ++ c ++ "}}"
  | Var index => "{{" ++ default ""%string (vars !! index) ++ "}}"
  end.

Lemma concat_strings_app a b : concat_strings (a ++ b) = (concat_strings a ++ concat_strings b)%string.
Proof.
  induction a as [|x a IH]; [done|]. unfold concat_strings in *. cbn [app foldr]. rewrite IH. by rewrite app_string_assoc.
Qed.

Lemma text_parts_source vars text : concat_strings (part_source vars <$> text_parts text) = text.
Proof. unfold text_parts. case_decide as E; [by rewrite E|]. apply app_string_nil_r. Qed.

Lemma placeholder_source vars name part :
  placeholder vars name = Some part -> part_source vars part = ("{{" ++ name ++ "}}")%string.
Proof.
  unfold placeholder. case_decide; [by intros [= <-]; subst|]. case_decide; [by intros [= <-]; subst|].
  case_decide; [by intros [= <-]; subst|].
  destruct (position name vars) as [index|] eqn:Ep.
  - intros [= <-]. cbn. apply position_lookup in Ep. by rewrite Ep.
  - destruct (strip_prefix "data." name) as [c|] eqn:Es; [|done]. case_decide; [done|]. intros [= <-].
    apply strip_prefix_Some in Es. by rewrite Es.
Qed.

Lemma parse_loop_source vars fuel text rest :
  concat_strings (part_source vars <$> parse_loop vars fuel text rest) = (text ++ rest)%string.
Proof.
  revert text rest. induction fuel as [|fuel IH]; intros text rest; cbn [parse_loop]; [apply text_parts_source|].
  destruct (find_split "{{" rest) as [[before opened]|] eqn:E1; [|apply text_parts_source].
  destruct (find_split "}}" opened) as [[name rest']|] eqn:E2; [|apply text_parts_source].
  apply find_split_Some in E1, E2. subst opened rest.
  destruct (placeholder vars name) as [part|] eqn:Ep.
  - rewrite fmap_app, concat_strings_app, text_parts_source, fmap_cons.
    change (concat_strings (?x :: ?l)) with (x ++ concat_strings l)%string.
    rewrite IH, (placeholder_source _ _ _ Ep), app_string_nil, !app_string_assoc. done.
  - by rewrite IH, !app_string_assoc.
Qed.

Lemma render_static vars now_ms values parts :
  existsb (fun p => negb (is_text p)) parts = false ->
  concat_strings (render_part now_ms values <$> parts) = concat_strings (part_source vars <$> parts).
Proof.
  induction parts as [|p parts IH]; [done|]. cbn [existsb]. intros [Hp Hps]%orb_false_elim.
  destruct p; try done. rewrite !fmap_cons.
  change (concat_strings (?x :: ?l)) with (x ++ concat_strings l)%string. by rewrite IH.
Qed.

(** Parsing a template loses and invents nothing: its parts, written
    back, are its source, whatever the source holds.  So a text without
    placeholders is sent exactly as written, both when it is rendered and as
    the cached static payload it becomes. *)
Theorem template_keeps_source (source : string) (vars : list string) :
  let t := parse_with_vars source vars in
  concat_strings (part_source vars <$> tp_parts t) = source /\
  (is_dynamic t = false -> forall now_ms values, render now_ms t values = source) /\
  from_text_with_vars source vars = (if is_dynamic t then DynamicText t else StaticText source).
Proof.
  intros t. assert (concat_strings (part_source vars <$> tp_parts t) = source) as Hs.
  { unfold t, parse_with_vars. cbn [tp_parts]. apply parse_loop_source. }
  split; [done|]. split; [|done].
  intros Hd now_ms values. unfold render. by rewrite (render_static vars) by done.
Qed.

Lemma template_keeps_source_witness :
  render 0 (parse "{{ user }} {{x}}") (mkValues 5 1 None []) = "{{ user }} {{x}}"%string.
Proof.
  exact (proj1 (proj2 (template_keeps_source "{{ user }} {{x}}" [])) eq_refl 0 (mkValues 5 1 None [])).
Defined.

(** ** Every placeholder is found *)

(** A literal text cannot itself open a placeholder, nor end in half of the
    braces that open one. *)
Definition literal (text : string) : Prop :=
  text <> ""%string /\ find_split "{{" text = None /\ ends_with "{" text = false.

Definition closes_once (name : string) : Prop := "}"%char ∉ list_ascii_of_string name.

Definition part_ok (vars : list string) (p : Part) : Prop :=
  match p with
  | PText text => literal text
  | Seq | Timestamp | WorkerId => True
  | PData c => c <> ""%string /\ closes_once c /\ ("data." ++ c)%string ∉ vars
  | Var index => exists name, position name vars = Some index /\ closes_once name /\
                   name ∉ ["seq"; "timestamp"; "worker_id"]%string
  end.

Fixpoint texts_apart (ps : list Part) : Prop :=
  match ps with
  | p :: (q :: _) as ps' => (is_text p && is_text q = false) /\ texts_apart ps'
  | _ => True
  end.

Lemma find_split_name name rest :
  closes_once name -> find_split "}}" (name ++ "}}" ++ rest) = Some (name, rest).
Proof.
  unfold closes_once. induction name as [|c name IH]; intros Hn.
  - rewrite app_string_nil. change ("}}" ++ rest)%string with (String "}" (String "}" rest)). reflexivity.
  - cbn in Hn. apply not_elem_of_cons in Hn as [Hc Hn]. rewrite app_string_cons. cbn -[String.append].
    rewrite decide_False by congruence. by rewrite IH.
Qed.

Lemma ends_with_cons p c s : ends_with p (String c s) = false -> ends_with p s = false.
Proof.
  unfold ends_with. cbn. case_decide; [done|]. by destruct (strip_suffix p s).
Qed.

Lemma find_split_literal text rest :
  find_split "{{" text = None -> ends_with "{" text = false ->
  find_split "{{" (text ++ "{{" ++ rest) = Some (text, rest).
Proof.
  induction text as [|c text IH]; intros Hf He.
  - rewrite app_string_nil. change ("{{" ++ rest)%string with (String "{" (String "{" rest)). reflexivity.
  - rewrite app_string_cons. cbn [find_split] in *.
    assert (strip_prefix "{{" (String c (text ++ "{{" ++ rest)) = None) as ->.
    { destruct (strip_prefix "{{" (String c text)) eqn:E; [done|]. cbn in *. case_decide; [|done]. subst c.
      destruct text as [|d text]; [done|]. rewrite app_string_cons. by case_decide. }
    rewrite IH; [done| |by eapply ends_with_cons].
    destruct (strip_prefix "{{" (String c text)); [done|]. by destruct (find_split "{{" text) as [[]|].
Qed.

Lemma find_split_open rest : find_split "{{" ("{{" ++ rest) = Some (""%string, rest).
Proof. change ("{{" ++ rest)%string with (String "{" (String "{" rest)). reflexivity. Qed.

Lemma placeholder_of_part vars p :
  part_ok vars p -> is_text p = false ->
  exists name, part_source vars p = ("{{" ++ name ++ "}}")%string /\ closes_once name /\ placeholder vars name = Some p.
Proof.
  assert (forall s, closes_once s \/ "}"%char ∈ list_ascii_of_string s) as Hdec
    by (intros s; destruct (decide ("}"%char ∈ list_ascii_of_string s)); auto).
  destruct p as [t| | | |c|index]; cbn; intros Hok Ht; try done.
  1: exists "seq"%string. 2: exists "timestamp"%string. 3: exists "worker_id"%string.
  1-3: split; [reflexivity|split; [apply (bool_decide_unpack _); vm_compute; reflexivity|reflexivity]].
  - destruct Hok as (Hne & Hc & Hv). exists ("data." ++ c)%string. split; [by rewrite !app_string_assoc|]. split.
    + unfold closes_once in *. change ("data." ++ c)%string with
        (String "d" (String "a" (String "t" (String "a" (String "." c))))). cbn [list_ascii_of_string].
      do 5 (apply not_elem_of_cons; split; [done|]). done.
    + unfold placeholder. rewrite !decide_False by done.
      destruct (position ("data." ++ c) vars) as [i|] eqn:Ep.
      { exfalso. apply Hv. apply position_lookup in Ep. by eapply list_elem_of_lookup_2. }
      rewrite strip_prefix_app. by rewrite decide_False.
  - destruct Hok as (name & Hp & Hc & Hb). exists name. pose proof (position_lookup _ _ _ Hp) as Hl. rewrite Hl.
    split; [done|]. split; [done|]. unfold placeholder. rewrite !not_elem_of_cons in Hb.
    destruct Hb as (?&?&?&_). by rewrite !decide_False, Hp by done.
Qed.

Lemma parse_loop_parts vars ps fuel :
  Forall (part_ok vars) ps -> texts_apart ps ->
  (String.length (concat_strings (part_source vars <$> ps)) <= fuel)%nat ->
  parse_loop vars fuel "" (concat_strings (part_source vars <$> ps)) = ps.
Proof.
  intros Hok. revert fuel. induction Hok as [|p ps Hp Hok IH]; intros fuel Hap Hf.
  { by destruct fuel. }
  assert (texts_apart ps) as Hap' by (destruct ps; [done|apply Hap]).
  rewrite fmap_cons in *. change (concat_strings (?x :: ?l)) with (x ++ concat_strings l)%string in *.
  destruct (is_text p) eqn:Et.
  - destruct p as [t| | | | |]; try done. cbn [part_source] in *. destruct Hp as (Hne & Hfind & Hend).
    destruct ps as [|q ps].
    + cbn. rewrite app_string_nil_r in *.
      assert (text_parts t = [PText t]) as Ht by (unfold text_parts; by rewrite decide_False).
      destruct fuel; cbn [parse_loop]; rewrite app_string_nil; [done|]. by rewrite Hfind.
    + destruct Hap as [Hq _]. cbn in Hq. inversion_clear Hok as [|?? Hqok Hok'].
      destruct (placeholder_of_part vars q Hqok Hq) as (name & Hs & Hc & Hph).
      rewrite fmap_cons in *. change (concat_strings (?x :: ?l)) with (x ++ concat_strings l)%string in *.
      rewrite Hs in *. rewrite !app_string_assoc in *. destruct fuel as [|fuel].
      { rewrite !length_string_app in Hf. cbn in Hf. lia. }
      cbn [parse_loop]. rewrite find_split_literal, find_split_name, Hph by done.
      rewrite app_string_nil. unfold text_parts. rewrite decide_False by done. cbn [app]. f_equal.
      specialize (IH (S fuel) Hap'). cbn [parse_loop] in IH.
      rewrite find_split_open, find_split_name, Hph in IH by done.
      cbn [app text_parts] in IH. apply IH. rewrite !length_string_app in *. cbn in *. lia.
  - destruct (placeholder_of_part vars p Hp Et) as (name & Hs & Hc & Hph).
    rewrite Hs in *. rewrite !app_string_assoc in *. destruct fuel as [|fuel]; [rewrite length_string_app in Hf; cbn in Hf; lia|].
    cbn [parse_loop]. rewrite find_split_open, find_split_name, Hph by done.
    change (text_parts ("" ++ "")) with (@nil Part). cbn [app]. f_equal. apply IH; [done|].
    rewrite !length_string_app in Hf. cbn in Hf. lia.
Qed.

(** Every placeholder of a template is found: a text put together from
    literal pieces and placeholders parses to exactly those pieces, so
    rendering it gives the pieces with every placeholder replaced by its
    value.  A literal is any non-empty text that cannot be taken for an
    opening [{{]; a variable's or column's name holds no closing brace, and a
    column reference is not also a variable's name. *)
Theorem template_finds_placeholders (vars : list string) (ps : list Part)
    (Hok : Forall (part_ok vars) ps) (Hap : texts_apart ps) (now_ms : Z) (values : Values) :
  let source := concat_strings (part_source vars <$> ps) in
  tp_parts (parse_with_vars source vars) = ps /\
  render now_ms (parse_with_vars source vars) values = concat_strings (render_part now_ms values <$> ps).
Proof.
  intros source. assert (tp_parts (parse_with_vars source vars) = ps) as Hp by (by apply parse_loop_parts).
  split; [done|]. unfold render. by rewrite Hp.
Qed.

Lemma template_finds_placeholders_witness :
  render 0 (parse_with_vars "{'id':{{seq}},'t':{{token}}{{data.user}}}" ["token"])
    (mkValues 7 3 (Some (three_rows, 0)) ["abc"]) = "{'id':7,'t':abc}"%string.
Proof.
  refine (proj2 (template_finds_placeholders ["token"%string]
    [PText "{'id':"; Seq; PText ",'t':"; Var 0; PData "user"; PText "}"] _ _ 0 _)).
  - repeat (constructor; [first [exact I
      | (split; [done|split; reflexivity])
      | (exists "token"%string; split; [reflexivity|split; apply (bool_decide_unpack _); vm_compute; reflexivity])
      | (split; [done|split; apply (bool_decide_unpack _); vm_compute; reflexivity])]|]). constructor.
  - vm_compute. done.
Defined.
