(* ===== verification/Session.v ===== *)
(** * A worker's session: state, environment and monad (src/src/worker.rs)

    A session talks to a socket, timers, the cancellation token, the clock
    and, through the shared metrics, to the other workers.  Everything it
    learns from them it learns at an await point or another observation, so
    the environment is a script: one [Obs] per observation, saying what
    happened since the last one (how much time passed, whether the run was
    cancelled, what the other workers did to the shared state) and what the
    awaited operation answers.  A computation that awaits an observation the
    script no longer has is [Stuck]: still waiting, in the state it reached.
    What the code asks without awaiting (is the token cancelled, what time is
    it, has the ticker ticked) is a [look], which never waits.

    The state keeps, besides the session's variables, the history of the
    frames that crossed the socket, the connections opened and the requests
    claimed; the code never reads it. *)

From Stdlib Require Import ZArith Lia Ascii String.
From stdpp Require Import base tactics strings numbers option gmap list.
From S2P Require Import Prelude RustStd Str Hdr Histogram Live TimeSeries Summaries Metrics Wire Chaos.

Local Open Scope Z_scope.
Local Open Scope rust_scope.

(** ** Errors of the socket *)

(** The variants of [std::io::ErrorKind] the code tells apart, with the
    error's message and whether it wraps a [rustls::Error]. *)
Inductive IoErrorKind :=
| TimedOut | ConnectionRefused | ConnectionReset | BrokenPipe | UnexpectedEof | OtherKind.
Record IoError := mkIoError { ioe_kind : IoErrorKind; ioe_message : string; ioe_rustls : bool }.

(** [tungstenite::Error]; [Http] with its status code. *)
Inductive TungsteniteError :=
| ConnectionClosed | AlreadyClosed
| IoErr (err : IoError)
| TlsErr | CapacityErr | ProtocolErr | WriteBufferFull | Utf8Err | AttackAttempt | UrlErr
| HttpErr (status : Z) | HttpFormatErr.

Inductive ErrorDirection := Connect | Write | Read.
#[export] Instance ErrorDirection_eq_dec : EqDecision ErrorDirection.
Proof. solve_decision. Defined.

Definition is_dns_resolution_error (err : IoError) : bool :=
  let message := to_ascii_lowercase (ioe_message err) in
  contains "failed to lookup address information" message
  || contains "nodename nor servname" message
  || contains "name or service not known" message
  || contains "temporary failure in name resolution" message
  || contains "no address associated with hostname" message.

Definition direction_category (direction : ErrorDirection) : ErrorCategory :=
  match direction with
  | Connect => TcpConnect
  | Write => WriteError
  | Read => ReadError
  end.

Definition is_client_error (status : Z) : bool := (400 <=? status) && (status <? 500).
Definition is_server_error (status : Z) : bool := (500 <=? status) && (status <? 600).

Definition categorize_session_error (err : TungsteniteError) (direction : ErrorDirection) : ErrorCategory :=
  match err with
  | ConnectionClosed | AlreadyClosed => UnexpectedClose
  | HttpErr status =>
      if is_client_error status || is_server_error status then HttpUpgradeRejected else ProtocolError
  | IoErr io_err =>
      if is_dns_resolution_error io_err then DnsResolution
      else if bool_decide (direction = Connect) && ioe_rustls io_err then TlsHandshake
      else match ioe_kind io_err with
           | TimedOut => Timeout
           | ConnectionRefused => TcpConnect
           | ConnectionReset | BrokenPipe | UnexpectedEof => direction_category direction
           | OtherKind => direction_category direction
           end
  | TlsErr => TlsHandshake
  | ProtocolErr => ProtocolError
  | WriteBufferFull => WriteError
  | _ => Other
  end.

Definition categorize_tungstenite_error (err : TungsteniteError) : ErrorCategory :=
  categorize_session_error err Connect.

(** ** Reconnecting *)

Inductive SessionEnd := Finished | Lost.
#[export] Instance SessionEnd_eq_dec : EqDecision SessionEnd.
Proof. solve_decision. Defined.

(** [ReconnectBackoff] is its next delay. *)
Definition BACKOFF_INITIAL : Z := from_millis 100.
Definition BACKOFF_MAX : Z := from_secs 5.
Definition ReconnectBackoff_new : Z := BACKOFF_INITIAL.
Definition backoff_reset (next : Z) : Z := BACKOFF_INITIAL.
Definition next_delay (next : Z) : Z * Z :=
  (next, Z.min (duration_saturating_mul next 2) BACKOFF_MAX).

(** ** Pacing *)

Record SendSchedule := mkSendSchedule { sc_period : Z; sc_next_due : Z }.
#[export] Instance SendSchedule_eta : Settable SendSchedule := fun s =>
  mkSendSchedule (sc_period s) (sc_next_due s).

(** On other systems than Windows. *)
Definition TIMER_SLACK : Z := from_millis 2.

Definition SendSchedule_new (now rate : Z) : option SendSchedule :=
  if 0 <? rate then Some (mkSendSchedule (from_secs_f64 (f64_div (f64_of_Z 1) (f64_of_Z rate))) now)
  else None.
Definition advance (s : SendSchedule) : SendSchedule := s <| sc_next_due ::= fun due => due + sc_period s |>.
Definition shift (delay : Z) (s : SendSchedule) : SendSchedule := s <| sc_next_due ::= fun due => due + delay |>.
Definition restart_after_pause (now : Z) (s : SendSchedule) : SendSchedule :=
  s <| sc_next_due ::= fun due => Z.max due now |>.
Definition response_time (due sent_at rtt : Z) : Z :=
  let late := saturating_duration_since sent_at due in
  rtt + duration_saturating_sub late TIMER_SLACK.

(** ** The environment *)

(** The arms of the loops' [select!]s. *)
Inductive Arm := ArmTimer | ArmPing | ArmResume | ArmRecv | ArmCancel | ArmTimeout.
#[export] Instance Arm_eq_dec : EqDecision Arm.
Proof. solve_decision. Defined.

(** What one connection attempt within the timeout gives. *)
Inductive ConnectResult :=
| Connected
| ConnectStatic (category : ErrorCategory)
| ConnectFailed (err : TungsteniteError)
| ConnectTimeout.

Record Obs (H : Type) := mkObs {
  ob_elapsed : N;
  ob_cancel : bool;
  ob_shared : RunShared H -> RunShared H;
  ob_arm : Arm;
  ob_send : option TungsteniteError;
  ob_next : option (Message + TungsteniteError);
  ob_connect : ConnectResult;
  ob_epoch_ms : Z;
}.
Arguments mkObs {H} _ _ _ _ _ _ _ _.
Arguments ob_elapsed {H} _.
Arguments ob_cancel {H} _.
Arguments ob_shared {H} _ _.
Arguments ob_arm {H} _.
Arguments ob_send {H} _.
Arguments ob_next {H} _.
Arguments ob_connect {H} _.
Arguments ob_epoch_ms {H} _.

Inductive Event :=
| Opened
| Claimed
| SentFrame (m : Message)
| ReadFrame (m : Message).

Record State (H : Type) := mkState {
  st_metrics : WorkerMetrics;
  st_shared : RunShared H;
  st_chaos : option ChaosState;
  st_vars : list string;
  st_cancelled : bool;
  st_now : Z;
  st_script : list (Obs H);
  st_history : list Event;
}.
Arguments mkState {H} _ _ _ _ _ _ _ _.
Arguments st_metrics {H} _.
Arguments st_shared {H} _.
Arguments st_chaos {H} _.
Arguments st_vars {H} _.
Arguments st_cancelled {H} _.
Arguments st_now {H} _.
Arguments st_script {H} _.
Arguments st_history {H} _.
#[export] Instance State_eta {H} : Settable (State H) := fun s =>
  mkState (st_metrics s) (st_shared s) (st_chaos s) (st_vars s) (st_cancelled s) (st_now s)
    (st_script s) (st_history s).

(** ** The monad

    [Exit r] leaves the enclosing loop (or function) with [r]: a [break] or
    [return]. *)
Inductive Outcome (R A : Type) :=
| Val (a : A)
| Exit (r : R)
| Stuck.
Arguments Val {R A} a.
Arguments Exit {R A} r.
Arguments Stuck {R A}.

Definition M (H R A : Type) : Type := State H -> Outcome R A * State H.

Definition mret {H R A} (a : A) : M H R A := fun st => (Val a, st).
Definition mexit {H R A} (r : R) : M H R A := fun st => (Exit r, st).
Definition mseq {H R A B} (m : M H R A) (f : A -> M H R B) : M H R B := fun st =>
  match m st with
  | (Val a, st') => f a st'
  | (Exit r, st') => (Exit r, st')
  | (Stuck, st') => (Stuck, st')
  end.
Notation "'let!' x := m 'in' k" := (mseq m (fun x => k))
  (at level 10, x pattern, m at level 100, k at level 200) : rust_scope.
Notation "m1 ;;; m2" := (mseq m1 (fun _ => m2)) (at level 99, m2 at level 200, right associativity) : rust_scope.

Definition gets {H R A} (f : State H -> A) : M H R A := fun st => (Val (f st), st).
Definition modify {H R} (f : State H -> State H) : M H R unit := fun st => (Val tt, f st).
Definition when {H R} (b : bool) (m : M H R unit) : M H R unit := if b then m else mret tt.

(** A function's or loop's exit is its value. *)
Definition returning {H R A} (m : M H A A) : M H R A := fun st =>
  match m st with
  | (Val a, st') | (Exit a, st') => (Val a, st')
  | (Stuck, st') => (Stuck, st')
  end.

(** [loop { .. }]: every round of the loops below observes or looks, so the
    script's length bounds the rounds that consume it.  A loop that is still
    running when the script and the fuel are used up is stuck: it waits for
    the next observation, or would go on looking. *)
Fixpoint loop {H R S} (fuel : nat) (body : S -> M H R S) (s : S) : M H R R := fun st =>
  match fuel with
  | O => (Stuck, st)
  | Datatypes.S fuel' =>
      match body s st with
      | (Val s', st') => loop fuel' body s' st'
      | (Exit r, st') => (Exit r, st')
      | (Stuck, st') => (Stuck, st')
      end
  end.
Definition forever {H R S} (body : S -> M H R S) (s : S) : M H R R := fun st =>
  loop (Datatypes.S (length (st_script st))) body s st.

(** The next observation. *)
Definition observe {H R} : M H R (Obs H) := fun st =>
  match st_script st with
  | [] => (Stuck, st)
  | ob :: script =>
      (Val ob, st <| st_script := script |>
                  <| st_now ::= fun now => now + Z.of_N (ob_elapsed ob) |>
                  <| st_cancelled ::= fun c => c || ob_cancel ob |>
                  <| st_shared ::= ob_shared ob |>)
  end.

(** A look at the world that waits for nothing: what has changed since the
    last observation is seen, if anything has.  Reading the clock, asking
    whether the token is cancelled and polling a ticker once are looks, so a
    loop that only looks goes on when the script is used up. *)
Definition look {H R} : M H R (option (Obs H)) := fun st =>
  match observe (R := R) st with
  | (Val ob, st') => (Val (Some ob), st')
  | (_, st') => (Val None, st')
  end.

Section Observations.
Context {H R : Type}.
Local Abbreviation M := (M H R).

Definition is_cancelled : M bool := look ;;; gets st_cancelled.
Definition instant_now : M Z := look ;;; gets st_now.
Definition cancel : M unit := modify (fun st => st <| st_cancelled := true |>).

(** [sink.send(msg).await] *)
Definition send (m : Message) : M (option TungsteniteError) :=
  let! ob := observe in
  match ob_send ob with
  | None => modify (fun st => st <| st_history ::= fun h => SentFrame m :: h |>) ;;; mret None
  | Some err => mret (Some err)
  end.
(** [let _ = sink.send(msg).await] *)
Definition send_ignoring (m : Message) : M unit := send m ;;; mret tt.
Definition send_close : M unit := send_ignoring (Close None).
Definition send_heartbeat : M unit := send_ignoring (Ping (bytes_of_string "hb")).

(** [stream.next().await] *)
Definition next_frame (ob : Obs H) : M (option (Message + TungsteniteError)) :=
  match ob_next ob with
  | Some (inl m) => modify (fun st => st <| st_history ::= fun h => ReadFrame m :: h |>) ;;; mret (Some (inl m))
  | other => mret other
  end.

(** A [select!] over the arms that are enabled; cancellation is ready once
    the token is cancelled.  The environment picks any ready arm; a pick
    that is not enabled is taken as the first arm. *)
Definition select (first : Arm) (others : list Arm) : M (Arm * Obs H) :=
  let! ob := observe in
  let! cancelled := gets st_cancelled in
  let arm := ob_arm ob in
  if decide (arm = ArmCancel) then
    mret ((if cancelled && bool_decide (ArmCancel ∈ first :: others) then ArmCancel else first), ob)
  else if decide (arm ∈ others) then mret (arm, ob) else mret (first, ob).

(** [select! { biased; _ = cancelled() => .., .. }] over a timeout and a
    read. *)
Definition select_biased : M (Arm * Obs H) :=
  let! ob := observe in
  let! cancelled := gets st_cancelled in
  if cancelled : bool then mret (ArmCancel, ob)
  else if decide (ob_arm ob = ArmTimeout) then mret (ArmTimeout, ob) else mret (ArmRecv, ob).

(** [select! { _ = sleep(d) => true, _ = cancelled() => false }] *)
Definition sleep_unless_cancelled : M bool :=
  let! (arm, _) := select ArmTimer [ArmCancel] in
  mret (bool_decide (arm = ArmTimer)).

(** An operation on the worker's metrics and the shared state. *)
Definition recording (f : WorkerMetrics * RunShared H -> WorkerMetrics * RunShared H) : M unit :=
  modify (fun st => let '(w, s) := f (st_metrics st, st_shared st) in
                    st <| st_metrics := w |> <| st_shared := s |>).

End Observations.

(** The program of one function: its value is what it returns. *)
Definition run_to {H A} (m : M H A A) (st : State H) : option A * State H :=
  match returning (R := Empty_set) m st with
  | (Val a, st') => (Some a, st')
  | (_, st') => (None, st')
  end.
