(* ===== verification/SocketIo.v ===== *)
(** * Socket.IO (src/src/socketio.rs)

    The settings of [--mode socketio] and the handshake URL, the packet codec,
    opening a session, the pump between the echo loop and the WebSocket, and
    the session [wsblast mock --socketio] answers with. *)

From Stdlib Require Import ZArith Lia Ascii String.
From stdpp Require Import base tactics strings numbers option gmap list.
From S2P Require Import Prelude RustStd Str Url Live Wire Json JsonText Reply Data Template Session.

Local Open Scope Z_scope.
Local Open Scope rust_scope.

(** ** Engine.IO *)

Inductive EngineIo := V3 | V4.
#[export] Instance EngineIo_eq_dec : EqDecision EngineIo.
Proof. solve_decision. Defined.

Definition engine_query (engine : EngineIo) : string := match engine with V3 => "3" | V4 => "4" end.
Definition from_version (version : Z) : option EngineIo :=
  if version =? 2 then Some V3 else if (version =? 3) || (version =? 4) then Some V4 else None.
Definition from_query (value : string) : option EngineIo :=
  if decide (value = "3"%string) then Some V3 else if decide (value = "4"%string) then Some V4 else None.
Definition wrap_binary (engine : EngineIo) (bytes : list Z) : list Z :=
  match engine with V3 => 4 :: bytes | V4 => bytes end.
Definition unwrap_binary (engine : EngineIo) (bytes : list Z) : option (list Z) :=
  match engine with
  | V3 => match bytes with b :: rest => if b =? 4 then Some rest else None | [] => None end
  | V4 => Some bytes
  end.

Definition DEFAULT_PATH : string := "/socket.io/".
Definition MAX_ATTACHMENTS : Z := 1024.
Definition RESERVED_EVENTS : list string :=
  ["connect"; "connect_error"; "disconnect"; "disconnecting"; "newListener"; "removeListener"]%string.
(** The text of a double quote. *)
Definition DQ : string := String (ascii_of_byte 34) EmptyString.
Definition PLACEHOLDER : string :=
  ("{" +:+ DQ +:+ "_placeholder" +:+ DQ +:+ ":true," +:+ DQ +:+ "num" +:+ DQ +:+ ":0}")%string.

(** ** Settings *)

Record SocketIoConfig := mkSocketIoConfig {
  so_namespace : string;
  so_event : string;
  so_auth : option Template;
  so_engine : EngineIo;
}.

Section WithJson.
Context {N : Type} `{SerdeJson N}.

Definition is_json_object (text : string) : bool :=
  match from_str text with Ok (Object _) => true | _ => false end.

Definition SocketIoConfig_validate (c : SocketIoConfig) : result unit string :=
  if negb (starts_with "/" (so_namespace c)) || contains "," (so_namespace c) then
    Err ("--sio-namespace '" +:+ so_namespace c +:+ "' must start with '/' and hold no ',', such as /chat")%string
  else if decide (so_event c = ""%string) then Err "--sio-event must not be empty"%string
  else if decide (so_event c ∈ RESERVED_EVENTS) then
    Err ("--sio-event '" +:+ so_event c +:+ "' is reserved by Socket.IO; choose another event name")%string
  else match so_auth c with
       | Some auth =>
           if negb (is_dynamic auth) && negb (is_json_object (tp_source auth)) then
             Err ("--sio-auth must be a JSON object, such as {" +:+ DQ +:+ "token" +:+ DQ +:+ ":" +:+ DQ +:+ "abc" +:+ DQ +:+ "}")%string
           else Ok tt
       | None => Ok tt
       end.

Definition auth_for (now_ms : Z) (c : SocketIoConfig) (values : Values) : option string :=
  (fun auth => render now_ms auth values) <$> so_auth c.

(** What a template gives for a row, and where the row comes from. *)
Definition row_values (data : option DataSet) (row : nat) : Values :=
  mkValues 0 (Z.of_nat row) ((fun data => (data, Z.of_nat row)) <$> data) [].
Definition row_source (data : option DataSet) (row : nat) : string :=
  match data with
  | Some data => " with row " +:+ display_u64 (Z.of_nat row + 1) +:+ " of " +:+ ds_path data
  | None => ""
  end%string.
Definition row_count (data : option DataSet) : nat :=
  match data with Some data => length (ds_rows data) | None => 1 end.

Definition check_auth (now_ms : Z) (auth : Template) (data : option DataSet) : result unit string :=
  if negb (is_dynamic auth) then Ok tt
  else
    let? _ := result_map_err (fun e => "--sio-auth: " +:+ e)%string (check_data auth data) in
    let? _ := result_collect (fun row =>
      let rendered := render now_ms auth (row_values data row) in
      if is_json_object rendered then Ok tt
      else Err ("--sio-auth must give a JSON object" +:+ row_source data row +:+ ", but gives " +:+ rendered +:+
        "; values are inserted as they are, so quote them in the template (" +:+ DQ +:+ "{{data.token}}" +:+ DQ +:+
        ") and keep quotes out of the data")%string) (seq 0 (row_count data)) in
    Ok tt.

(** ** The handshake URL *)

Section Url.
Context {U : Type} `{UrlOps U}.

(** The query of the handshake. *)
Definition eio_is (engine : EngineIo) (e : string * string) : bool := bool_decide (e.1 = "EIO"%string /\ e.2 = engine_query engine).
Definition is_transport (e : string * string) : bool := bool_decide (e.1 = "transport"%string).
Definition socketio_pairs (engine : EngineIo) (query : list (string * string)) : list (string * string) :=
  let had_eio := existsb (eio_is engine) query in
  let pairs := if had_eio then query
               else filter (fun e => e.1 <> "EIO"%string) query ++ [("EIO"%string, engine_query engine)] in
  if existsb is_transport pairs then pairs else pairs ++ [("transport"%string, "websocket"%string)].

Definition socketio_url (url : U) (engine : EngineIo) : U :=
  let url := if decide (url_path url = ""%string \/ url_path url = "/"%string) then set_path DEFAULT_PATH url else url in
  set_query_pairs (socketio_pairs engine (query_pairs url)) url.

Definition is_eio (e : string * string) : bool := bool_decide (e.1 = "EIO"%string).
Definition check_url (url : U) (engine : EngineIo) : result unit string :=
  match find is_eio (query_pairs url) with
  | Some (_, value) =>
      if decide (value = engine_query engine) then Ok tt
      else Err ("the URL asks for EIO=" +:+ value +:+ ", but the session speaks Engine.IO " +:+ engine_query engine +:+ "; " +:+
        match from_query value with
        | Some V3 => "add --sio-version 2 for a Socket.IO 2 server"
        | Some V4 => "drop --sio-version 2 for a Socket.IO 3 or later server"
        | None => "remove EIO from the URL"
        end)%string
  | None => Ok tt
  end.

Definition auth_query (url : U) (auth : string) : U :=
  match from_str auth with
  | Ok (Object fields) =>
      fold_left (fun url e => match e.2 with
                              | JString text => append_pair e.1 text url
                              | other => append_pair e.1 (to_string other) url
                              end) fields url
  | _ => url
  end.
End Url.
End WithJson.

(** ** Packets *)

Record Packet := mkPacket {
  pk_kind : Z;
  pk_attachments : Z;
  pk_namespace : string;
  pk_id : option Z;
  pk_data : string;
}.
#[export] Instance Packet_eq_dec : EqDecision Packet.
Proof. solve_decision. Defined.

(** The kinds, as the bytes they are. *)
Abbreviation CONNECT := 48.
Abbreviation DISCONNECT := 49.
Abbreviation EVENT := 50.
Abbreviation ACK := 51.
Abbreviation CONNECT_ERROR := 52.
Abbreviation BINARY_EVENT := 53.
Abbreviation BINARY_ACK := 54.

Definition is_binary (kind : Z) : bool := (kind =? BINARY_EVENT) || (kind =? BINARY_ACK).

(** The attachment count of a binary packet, and what follows its dash. *)
Definition parse_attachments (rest : string) : option (Z * string) :=
  let (count, after) := take_digits rest in
  if decide (count = ""%string) then None
  else
    after ← strip_prefix "-" after;
    n ← parse_u64 count;
    if n <=? MAX_ATTACHMENTS then Some (n, after) else None.

Definition parse_namespace (rest : string) : string * string :=
  if starts_with "/" rest then
    match split_once "," rest with Some (namespace, rest) => (namespace, rest) | None => (rest, ""%string) end
  else ("/"%string, rest).

Definition Packet_parse (text : string) : option Packet :=
  rest ← strip_prefix "4" text;
  match rest with
  | EmptyString => None
  | String c rest =>
      let kind := byte_of_ascii c in
      if negb ((CONNECT <=? kind) && (kind <=? BINARY_ACK)) then None
      else
        '(attachments, rest) ← (if is_binary kind then parse_attachments rest else Some (0, rest));
        let (namespace, rest) := parse_namespace rest in
        let (digits, data) := take_digits rest in
        Some (mkPacket kind attachments namespace
          (if decide (digits = ""%string) then None else parse_u64 digits) data)
  end.

Definition Packet_encode (p : Packet) : string :=
  ("4" +:+ String (ascii_of_byte (pk_kind p)) EmptyString +:+
   (if is_binary (pk_kind p) then display_u64 (pk_attachments p) +:+ "-" else "") +:+
   (if decide (pk_namespace p = "/"%string) then "" else pk_namespace p +:+ ",") +:+
   match pk_id p with Some id => display_u64 id | None => "" end +:+ pk_data p)%string.

(** ** A client's session *)

Section Client.
Context {N : Type} `{SerdeJson N}.
(** Whether a text is JSON at all: [from_str::<IgnoredAny>(..).is_ok()]. *)
Variable is_json : string -> bool.

Definition event_name (c : SocketIoConfig) : string := to_string (JString (so_event c)).

Definition event_packet (c : SocketIoConfig) (id : Z) (payload : string) : string :=
  let argument := if is_json payload then payload else to_string (JString payload) in
  Packet_encode (mkPacket EVENT 0 (so_namespace c) (Some id) ("[" +:+ event_name c +:+ "," +:+ argument +:+ "]")%string).

Definition binary_event_packet (c : SocketIoConfig) (id : Z) : string :=
  Packet_encode (mkPacket BINARY_EVENT 1 (so_namespace c) (Some id) ("[" +:+ event_name c +:+ "," +:+ PLACEHOLDER +:+ "]")%string).

(** Whether two parsed texts are equal, as [Option<Value>]s are. *)
Definition same_json (a b : string) : bool :=
  match from_str a, from_str b with
  | Ok v, Ok w => value_eqb v w
  | Err _, Err _ => true
  | _, _ => false
  end.

Definition binary_reply (data : string) (attachments : list (list Z)) : Message :=
  let only_attachment := (length attachments =? 1)%nat && same_json data ("[" +:+ PLACEHOLDER +:+ "]")%string in
  match last attachments with
  | Some bytes => if only_attachment then Binary bytes else Text data
  | None => Text data
  end.

(** *** Opening it *)

Record Opening := mkOpening { on_opened : bool; on_ping_every : option Z }.

(** What [open] does with one received frame: the frames it sends, and
    whether it goes on or returns. [write_ok] says whether a send succeeds. *)
Definition open_step (c : SocketIoConfig) (auth : option string) (st : Opening)
    (received : option (Message + TungsteniteError)) (write_ok : bool)
  : list Message * (Opening + result (option Z) ErrorCategory) :=
  match received with
  | Some (inl (Text text)) =>
      if negb (on_opened st) then
        match (rest ← strip_prefix "0" text; match from_str rest with Ok open => Some open | Err _ => None end) with
        | None => ([], inr (Err ProtocolError))
        | Some open =>
            let ping := match so_engine c with
                        | V3 => match (v ← (match open with Object m => member "pingInterval" m | _ => None end);
                                       match v with Number n => as_u64 n | _ => None end) with
                                | Some ms => if 0 <? ms then Ok (Some (from_millis ms)) else Err ProtocolError
                                | None => Err ProtocolError
                                end
                        | V4 => Ok (on_ping_every st)
                        end in
            match ping with
            | Err e => ([], inr (Err e))
            | Ok ping_every =>
                if decide (so_engine c = V3 /\ so_namespace c = "/"%string) then ([], inl (mkOpening true ping_every))
                else
                  let auth := match so_engine c with V3 => ""%string | V4 => default ""%string auth end in
                  let connect := Text (Packet_encode (mkPacket CONNECT 0 (so_namespace c) None auth)) in
                  if write_ok then ([connect], inl (mkOpening true ping_every)) else ([], inr (Err WriteError))
            end
        end
      else if decide (text = "2"%string) then
        if write_ok then ([Text "3"], inl st) else ([], inr (Err WriteError))
      else if decide (text = "1"%string) then ([], inr (Err UnexpectedClose))
      else
        match Packet_parse text with
        | Some packet =>
            if decide (pk_namespace packet = so_namespace c) then
              if pk_kind packet =? CONNECT then ([], inr (Ok (on_ping_every st)))
              else if (pk_kind packet =? CONNECT_ERROR) || (pk_kind packet =? DISCONNECT) then ([], inr (Err ProtocolError))
              else ([], inl st)
            else ([], inl st)
        | None => ([], inl st)
        end
  | Some (inl (Ping data)) => ((if write_ok then [Pong data] else []), inl st)
  | Some (inl (Close _)) | None => ([], inr (Err UnexpectedClose))
  | Some (inl (Binary _)) => if on_opened st then ([], inl st) else ([], inr (Err ProtocolError))
  | Some (inl _) => ([], inl st)
  | Some (inr _) => ([], inr (Err ReadError))
  end.

(** [open] over the frames that arrive; [None] is that it still waits. *)
Fixpoint open_run (c : SocketIoConfig) (auth : option string) (st : Opening)
    (received : list (option (Message + TungsteniteError) * bool))
  : list Message * option (result (option Z) ErrorCategory) :=
  match received with
  | [] => ([], None)
  | (frame, write_ok) :: received =>
      match open_step c auth st frame write_ok with
      | (sent, inl st) => let (more, r) := open_run c auth st received in (sent ++ more, r)
      | (sent, inr r) => (sent, Some r)
      end
  end.
Definition sio_open (c : SocketIoConfig) (auth : option string) := open_run c auth (mkOpening false None).

(** *** The pump *)

Record Pending := mkPending {
  pn_ack : bool;
  pn_id : option Z;
  pn_data : string;
  pn_needed : Z;
  pn_attachments : list (list Z);
}.

Record Pump := mkPump {
  pu_next_id : Z;
  pu_awaited : option Z;
  pu_pending : option Pending;
  pu_unsolicited : Z;
}.
#[export] Instance Pump_eta : Settable Pump := fun p =>
  mkPump (pu_next_id p) (pu_awaited p) (pu_pending p) (pu_unsolicited p).

(** What wakes the pump: a ping is due, a frame of the loop ([None]: its
    sender is gone) or one of the socket; with how the write it makes ends,
    and whether the loop still takes what it is passed. *)
Inductive PumpEvent :=
| PingDue (write : option TungsteniteError)
| FromLoop (frame : option Message) (write : option TungsteniteError)
| FromSocket (frame : option (Message + TungsteniteError)) (taken : bool).

(** The frames written, what the loop is passed, and whether the pump ends. *)
Record PumpOut := mkPumpOut {
  po_sent : list Message;
  po_passed : list (Message + TungsteniteError);
  po_ended : bool;
}.
Definition quiet : PumpOut := mkPumpOut [] [] false.
Definition passing (frame : Message + TungsteniteError) (ended : bool) : PumpOut := mkPumpOut [] [frame] ended.

Definition disconnect_packet (c : SocketIoConfig) : Message :=
  Text (Packet_encode (mkPacket DISCONNECT 0 (so_namespace c) None "")).

Definition count_unsolicited (p : Pump) : Pump := p <| pu_unsolicited ::= fun n => n +u 1 |>.

Definition pump_loop (c : SocketIoConfig) (frame : option Message) (write : option TungsteniteError) (p : Pump) : Pump * PumpOut :=
  let event (frames : list Message) :=
    (p <| pu_awaited := Some (pu_next_id p) |> <| pu_next_id ::= fun n => n +u 1 |>,
     match write with
     | None => mkPumpOut frames [] false
     | Some err => mkPumpOut [] [inr err] true
     end) in
  match frame with
  | None => (p, mkPumpOut [disconnect_packet c; Close None] [] true)
  | Some (Close frame) => (p, mkPumpOut [disconnect_packet c; Close frame] [] true)
  | Some (Text text) => event [Text (event_packet c (pu_next_id p) text)]
  | Some (Binary bytes) => event [Text (binary_event_packet c (pu_next_id p)); Binary (wrap_binary (so_engine c) bytes)]
  | Some other => (p, mkPumpOut [other] [] false)
  end.

(** A reply for the loop; the pump ends when the loop is gone. *)
Definition pass_reply (reply : Message) (taken : bool) (p : Pump) : Pump * PumpOut :=
  (p <| pu_awaited := None |>, if taken then passing (inl reply) false else mkPumpOut [] [] true).

Definition pump_binary (c : SocketIoConfig) (bytes : list Z) (taken : bool) (p : Pump) : Pump * PumpOut :=
  match pu_pending p, unwrap_binary (so_engine c) bytes with
  | Some packet, Some bytes =>
      let p := p <| pu_pending := None |> in
      let attachments := pn_attachments packet ++ [bytes] in
      if Z.of_nat (length attachments) <? pn_needed packet then
        (p <| pu_pending := Some (mkPending (pn_ack packet) (pn_id packet) (pn_data packet) (pn_needed packet) attachments) |>, quiet)
      else if pn_ack packet && bool_decide (is_Some (pn_id packet)) && bool_decide (pn_id packet = pu_awaited p) then
        pass_reply (binary_reply (pn_data packet) attachments) taken p
      else (count_unsolicited p, quiet)
  | _, _ => (count_unsolicited (p <| pu_pending := None |>), quiet)
  end.

Definition pump_text (c : SocketIoConfig) (text : string) (taken : bool) (p : Pump) : Pump * PumpOut :=
  let p := match pu_pending p with
           | Some _ => count_unsolicited (p <| pu_pending := None |>)
           | None => p
           end in
  if decide (text = "2"%string) then (p, mkPumpOut [Text "3"] [] false)
  else if decide (text = "1"%string) then (p, passing (inl (Close None)) true)
  else if decide (text = "3"%string \/ text = "6"%string) then (p, quiet)
  else
    match Packet_parse text with
    | Some packet =>
        if 0 <? pk_attachments packet then
          (p <| pu_pending := Some (mkPending
                ((pk_kind packet =? BINARY_ACK) && bool_decide (pk_namespace packet = so_namespace c))
                (pk_id packet) (pk_data packet) (pk_attachments packet) []) |>, quiet)
        else if decide (pk_namespace packet = so_namespace c) then
          if ((pk_kind packet =? ACK) || (pk_kind packet =? BINARY_ACK))
             && bool_decide (is_Some (pk_id packet)) && bool_decide (pk_id packet = pu_awaited p) then
            pass_reply (Text (pk_data packet)) taken p
          else if (pk_kind packet =? DISCONNECT) || (pk_kind packet =? CONNECT_ERROR) then (p, passing (inl (Close None)) true)
          else (count_unsolicited p, quiet)
        else (count_unsolicited p, quiet)
    | None => (count_unsolicited p, quiet)
    end.

Definition pump_step (c : SocketIoConfig) (e : PumpEvent) (p : Pump) : Pump * PumpOut :=
  match e with
  | PingDue None => (p, mkPumpOut [Text "2"] [] false)
  | PingDue (Some err) => (p, passing (inr err) true)
  | FromLoop frame write => pump_loop c frame write p
  | FromSocket None _ => (p, mkPumpOut [] [] true)
  | FromSocket (Some (inr err)) _ => (p, passing (inr err) true)
  | FromSocket (Some (inl (Text text))) taken => pump_text c text taken p
  | FromSocket (Some (inl (Ping data))) _ => (p, mkPumpOut [Pong data] [] false)
  | FromSocket (Some (inl (Close frame))) _ => (p, passing (inl (Close frame)) true)
  | FromSocket (Some (inl (Binary bytes))) taken => pump_binary c bytes taken p
  | FromSocket (Some (inl _)) _ => (p, quiet)
  end.

Definition pump_start : Pump := mkPump 0 None None 0.

(** The pump over what happens, until it ends. *)
Fixpoint pump_run (c : SocketIoConfig) (events : list PumpEvent) (p : Pump) : Pump * list PumpOut :=
  match events with
  | [] => (p, [])
  | e :: events =>
      let (p, out) := pump_step c e p in
      if po_ended out then (p, [out])
      else let (p, outs) := pump_run c events p in (p, out :: outs)
  end.
End Client.

(** ** The session of [wsblast mock --socketio] *)

Section Mock.
Context {N : Type} `{SerdeJson N}.

Record MockAnswer := mkMockAnswer { mk_frames : list Message; mk_event : bool }.
Record MockSession := mkMockSession {
  ms_engine : EngineIo;
  ms_waiting : option (string * Z * list (list Z));
}.
Definition MockSession_new (engine : EngineIo) : MockSession := mkMockSession engine None.

Definition control (text : string) : MockAnswer := mkMockAnswer [Text text] false.

Definition event_arguments (data : string) : string :=
  match from_str data with
  | Ok (Array (_ :: values)) => to_string (Array values)
  | _ => "[]"
  end.

Definition mock_binary (bytes : list Z) (s : MockSession) : MockSession * option MockAnswer :=
  match ms_waiting s with
  | None => (s, None)
  | Some (header, needed, attachments) =>
      let s := mkMockSession (ms_engine s) None in
      match unwrap_binary (ms_engine s) bytes with
      | None => (s, None)
      | Some bytes =>
          let attachments := attachments ++ [bytes] in
          if Z.of_nat (length attachments) <? needed then (mkMockSession (ms_engine s) (Some (header, needed, attachments)), None)
          else
            match Packet_parse header with
            | None => (s, None)
            | Some packet =>
                let first := match pk_id packet with
                             | Some id => Packet_encode (mkPacket BINARY_ACK (pk_attachments packet) (pk_namespace packet)
                                 (Some id) (event_arguments (pk_data packet)))
                             | None => header
                             end in
                (s, Some (mkMockAnswer (Text first :: (Binary ∘ wrap_binary (ms_engine s) <$> attachments)) true))
            end
      end
  end.

Definition mock_text (text sid : string) (s : MockSession) : MockSession * option MockAnswer :=
  let s := mkMockSession (ms_engine s) None in
  if decide (text = "2"%string) then (s, Some (control "3"))
  else
    match Packet_parse text with
    | None => (s, None)
    | Some packet =>
        if pk_kind packet =? CONNECT then
          let namespace := match split_once "?" (pk_namespace packet) with Some (a, _) => a | None => pk_namespace packet end in
          (s, Some (control (Packet_encode (mkPacket CONNECT 0 namespace None
            ("{" +:+ DQ +:+ "sid" +:+ DQ +:+ ":" +:+ DQ +:+ sid +:+ DQ +:+ "}")%string))))
        else if (pk_kind packet =? BINARY_EVENT) && (0 <? pk_attachments packet) then
          (mkMockSession (ms_engine s) (Some (text, pk_attachments packet, [])), None)
        else if (pk_kind packet =? EVENT) || (pk_kind packet =? BINARY_EVENT) then
          let reply := match pk_id packet with
                       | Some id => Packet_encode (mkPacket (pk_kind packet + 1) 0 (pk_namespace packet) (Some id)
                           (event_arguments (pk_data packet)))
                       | None => text
                       end in
          (s, Some (mkMockAnswer [Text reply] true))
        else (s, None)
    end.

(** [MockSession::receive]. *)
Definition mock_receive (frame : Message) (sid : string) (s : MockSession) : MockSession * option MockAnswer :=
  match frame with
  | Text text => mock_text text sid s
  | Binary bytes => mock_binary bytes s
  | _ => (s, None)
  end.

Definition mock_open (sid : string) (ping_interval_ms ping_timeout_ms : Z) (engine : EngineIo) : string :=
  ("0{" +:+ DQ +:+ "sid" +:+ DQ +:+ ":" +:+ DQ +:+ sid +:+ DQ +:+ "," +:+ DQ +:+ "upgrades" +:+ DQ +:+ ":[]," +:+ DQ +:+ "pingInterval" +:+ DQ +:+
   ":" +:+ display_u64 ping_interval_ms +:+ "," +:+ DQ +:+ "pingTimeout" +:+ DQ +:+ ":" +:+ display_u64 ping_timeout_ms +:+
   match engine with V3 => "" | V4 => "," +:+ DQ +:+ "maxPayload" +:+ DQ +:+ ":1000000" end +:+ "}")%string.

(** What the mock sends before it has received anything. *)
Definition socketio_greeting (sid : string) (interval_ms timeout_ms : Z) (engine : EngineIo) : list Message :=
  Text (mock_open sid interval_ms timeout_ms engine) :: match engine with V3 => [Text "40"] | V4 => [] end.
End Mock.

(** ** The handshake URL is settled *)

(** The query's first [EIO], if any, is the session's. *)
Definition eio_accepted (engine : EngineIo) (query : list (string * string)) : Prop :=
  forall k v, find is_eio query = Some (k, v) -> v = engine_query engine.

Lemma find_is_eio engine query k v : find is_eio query = Some (k, v) -> v = engine_query engine -> existsb (eio_is engine) query = true.
Proof.
  intros Hf ->. apply find_some in Hf as [Hin Hk]. apply existsb_exists. exists (k, engine_query engine). split; [done|].
  apply bool_decide_eq_true in Hk. unfold eio_is. by rewrite bool_decide_true.
Qed.

Lemma no_eio query : find is_eio query = None -> filter (fun e => e.1 <> "EIO"%string) query = query.
Proof.
  induction query as [|e query IH]; [done|]. cbn [find]. unfold is_eio at 1. case_bool_decide as He; [done|]. intros Hf.
  rewrite filter_cons_True by done. by rewrite IH.
Qed.

Lemma find_app_some {A} (f : A -> bool) l k x : find f l = Some x -> find f (l ++ k) = Some x.
Proof. induction l as [|a l IH]; cbn; [done|]. by destruct (f a). Qed.

Lemma socketio_pairs_settled engine query : eio_accepted engine query ->
  eio_accepted engine (socketio_pairs engine query) /\
  socketio_pairs engine (socketio_pairs engine query) = socketio_pairs engine query.
Proof.
  intros Ha. assert (exists pairs k, find is_eio pairs = Some (k, engine_query engine) /\
    socketio_pairs engine query = if existsb is_transport pairs then pairs else pairs ++ [("transport"%string, "websocket"%string)])
    as (pairs & k & Hf & ->).
  { unfold socketio_pairs. destruct (find is_eio query) as [[k v]|] eqn:E.
    - pose proof (Ha k v E) as ->. rewrite (find_is_eio engine query k _ E eq_refl). by exists query, k.
    - destruct (existsb (eio_is engine) query) eqn:Ee.
      + exfalso. apply existsb_exists in Ee as ([k v] & Hin & Hk). pose proof (find_none _ _ E _ Hin) as Hn.
        unfold eio_is, is_eio in *. apply bool_decide_eq_true in Hk as [Hk _]. apply bool_decide_eq_false in Hn. by apply Hn.
      + rewrite no_eio by done. exists (query ++ [("EIO"%string, engine_query engine)]), "EIO"%string. split; [|done].
        clear Ee Ha. induction query as [|e query IH]; [done|]. cbn in *. by destruct (is_eio e); [|apply IH]. }
  set (all := if existsb is_transport pairs then _ else _).
  assert (find is_eio all = Some (k, engine_query engine)) as Hfa by (unfold all; destruct (existsb _ _); [done|by apply find_app_some]).
  assert (existsb is_transport all = true) as Ht.
  { unfold all. destruct (existsb is_transport pairs) eqn:E; [done|]. rewrite existsb_app. cbn. by rewrite orb_true_r. }
  split; [intros k' v; rewrite Hfa; by intros [= <- <-]|].
  unfold socketio_pairs. by rewrite (find_is_eio engine all k _ Hfa eq_refl), Ht.
Qed.

(** A URL the session's settings accept is accepted again with the Socket.IO
    path and query in it, which then stay as they are. *)
Lemma socketio_url_settled {U : Type} `{UrlLaws U} (u : U) engine : web_scheme (url_scheme u) -> check_url u engine = Ok tt ->
  let url := socketio_url u engine in
  check_url url engine = Ok tt /\ socketio_url url engine = url /\ url_scheme url = url_scheme u.
Proof.
  intros Hweb Hcheck url. assert (eio_accepted engine (query_pairs u)) as Ha.
  { unfold check_url in Hcheck. intros k v Hf. rewrite Hf in Hcheck. by case_decide. }
  set (u1 := if decide (url_path u = ""%string \/ url_path u = "/"%string) then set_path DEFAULT_PATH u else u).
  assert (query_pairs u1 = query_pairs u /\ url_scheme u1 = url_scheme u /\ ~ (url_path u1 = ""%string \/ url_path u1 = "/"%string)) as (Hq & Hsch & Hp).
  { unfold u1. case_decide; [|done]. split_and!; [apply query_set_path|apply scheme_set_path|]. unfold DEFAULT_PATH. rewrite path_set_socketio by done. by intros []. }
  assert (url = set_query_pairs (socketio_pairs engine (query_pairs u)) u1) as Hurl by (unfold url, socketio_url; fold u1; by rewrite Hq).
  clearbody url. subst url. set (url := set_query_pairs _ u1). destruct (socketio_pairs_settled engine (query_pairs u) Ha) as [Ha' Hs].
  assert (query_pairs url = socketio_pairs engine (query_pairs u)) as Hqu by apply query_set_query.
  split_and!.
  - unfold check_url. rewrite Hqu. destruct (find is_eio _) as [[k v]|] eqn:E; [|done]. rewrite decide_True; [done|]. by apply (Ha' k v).
  - unfold socketio_url. rewrite decide_False by (unfold url; by rewrite path_set_query). rewrite Hqu, Hs. apply set_query_twice.
  - unfold url. by rewrite scheme_set_query.
Qed.

(** ** Packets survive the wire *)

(** A packet the codec can carry: its namespace is the default one or starts
    with a slash and holds no comma, and its data cannot be taken for an id
    or a namespace. *)
Definition head (s : string) : option ascii := match s with String c _ => Some c | EmptyString => None end.
Definition packet_ok (p : Packet) : Prop :=
  CONNECT <= pk_kind p <= BINARY_ACK /\
  (if is_binary (pk_kind p) then 0 <= pk_attachments p <= MAX_ATTACHMENTS else pk_attachments p = 0) /\
  starts_with "/" (pk_namespace p) = true /\ ","%char ∉ list_ascii_of_string (pk_namespace p) /\
  match pk_id p with Some id => is_u64 id | None => pk_namespace p = "/"%string -> head (pk_data p) <> Some "/"%char end /\
  match head (pk_data p) with Some c => is_digit c = false | None => True end.

Lemma digit_display n s : exists c t, (display_u64 n +:+ s)%string = String c t /\ is_digit c = true.
Proof. destruct (display_head n) as (c & t & -> & Hc). by exists c, (t +:+ s)%string. Qed.

Lemma take_display n s : match head s with Some c => is_digit c = false | None => True end ->
  take_digits (display_u64 n +:+ s)%string = (display_u64 n, s).
Proof. intros Hs. unfold display_u64. apply take_digits_app. by destruct s. Qed.

Lemma starts_with_app (p a b : string) : starts_with p a = true -> starts_with p (a +:+ b)%string = true.
Proof.
  unfold starts_with. destruct (strip_prefix p a) as [t|] eqn:E; [|done]. intros _. apply strip_prefix_Some in E as ->.
  by rewrite app_string_assoc, strip_prefix_app.
Qed.

Lemma parse_namespace_encoded ns rest : starts_with "/" ns = true -> ","%char ∉ list_ascii_of_string ns ->
  (ns = "/"%string -> head rest <> Some "/"%char) ->
  parse_namespace ((if decide (ns = "/"%string) then "" else ns +:+ ",") +:+ rest)%string = (ns, rest).
Proof.
  intros Hs Hc Hr. unfold parse_namespace. destruct (decide (ns = "/"%string)) as [->|Hne].
  - rewrite app_string_nil. destruct rest as [|c rest]; [done|]. specialize (Hr eq_refl). unfold starts_with. cbn [strip_prefix].
    rewrite decide_False; [done|]. intros <-. by apply Hr.
  - assert ((ns +:+ ",") +:+ rest = ns +:+ String "," rest)%string as -> by (by rewrite app_string_assoc).
    rewrite starts_with_app by done. by rewrite split_once_prefix.
Qed.

Lemma parse_attachments_encoded n rest : 0 <= n <= MAX_ATTACHMENTS ->
  parse_attachments ((display_u64 n +:+ "-") +:+ rest)%string = Some (n, rest).
Proof.
  intros Hn. unfold parse_attachments. rewrite app_string_assoc, take_display by done.
  cbv beta iota. rewrite decide_False by apply display_u64_nonempty. rewrite strip_prefix_app.
  cbn [mbind option_bind]. unfold MAX_ATTACHMENTS in Hn. rewrite parse_u64_display by ulia.
  cbn [mbind option_bind]. unfold MAX_ATTACHMENTS. by rewrite (proj2 (Z.leb_le n 1024)) by lia.
Qed.

Lemma packet_parse_encode p : packet_ok p -> Packet_parse (Packet_encode p) = Some p.
Proof.
  revert p.
  intros [kind attachments ns id data] (Hk & Ha & Hs & Hc & Hid & Hd). cbn [pk_kind pk_attachments pk_namespace pk_id pk_data] in *.
  unfold Packet_parse, Packet_encode. cbn [pk_kind pk_attachments pk_namespace pk_id pk_data].
  rewrite strip_prefix_app. cbn [mbind option_bind]. rewrite app_string_cons, app_string_nil. cbv beta iota zeta.
  rewrite byte_of_ascii_of_byte by ulia.
  rewrite (proj2 (Z.leb_le CONNECT kind)), (proj2 (Z.leb_le kind BINARY_ACK)) by lia. cbn [negb andb].
  assert (Hrest : forall rest, take_digits rest = (match id with Some id => display_u64 id | None => "" end, data)%string ->
    (let (digits, data0) := take_digits rest in
     Some (mkPacket kind attachments ns (if decide (digits = ""%string) then None else parse_u64 digits) data0)) =
    Some (mkPacket kind attachments ns id data)).
  { intros rest ->. destruct id as [id|]; [|done]. rewrite decide_False by apply display_u64_nonempty. by rewrite parse_u64_display. }
  assert (Hns : parse_namespace ((if decide (ns = "/"%string) then "" else ns +:+ ",") +:+
      match id with Some id => display_u64 id | None => "" end +:+ data)%string =
    (ns, (match id with Some id => display_u64 id | None => "" end +:+ data)%string)).
  { apply parse_namespace_encoded; [done|done|]. intros E. destruct id as [id|]; [|by apply Hid].
    destruct (digit_display id data) as (c & t & -> & Hdig). cbn. intros [= ->]. done. }
  assert (Hdig : take_digits (match id with Some id => display_u64 id | None => "" end +:+ data) =
    (match id with Some id => display_u64 id | None => "" end, data)%string).
  { destruct id as [id|]; [by apply take_display|]. rewrite app_string_nil. apply take_digits_none. by destruct data. }
  destruct (is_binary kind).
  + rewrite parse_attachments_encoded by done. cbn [mbind option_bind]. rewrite Hns. by apply Hrest.
  + rewrite app_string_nil. cbn [mbind option_bind]. rewrite Hns, Ha in *. by apply Hrest.
Qed.

Lemma packet_parse_bounds text p : Packet_parse text = Some p ->
  0 <= pk_attachments p <= MAX_ATTACHMENTS /\ (is_binary (pk_kind p) = false -> pk_attachments p = 0).
Proof.
  revert text p.
  intros text p. unfold Packet_parse. destruct (strip_prefix "4" text) as [[|c rest]|]; cbn [mbind option_bind]; try done.
  destruct (negb _); [done|]. destruct (is_binary (byte_of_ascii c)) eqn:Eb.
  + unfold parse_attachments. destruct (take_digits rest) as [count after]. case_decide; [done|].
    destruct (strip_prefix "-" after) as [after'|]; cbn; [|done]. destruct (parse_u64 count) as [n|] eqn:En; cbn; [|done].
    destruct (Z.leb_spec n MAX_ATTACHMENTS); [|done]. cbn. destruct (parse_namespace after') as [ns rest'].
    destruct (take_digits rest') as [digits data]. intros [= <-]. cbn. rewrite Eb. split; [|done]. split; [|done].
    by apply parse_uint_range in En as [? _].
  + cbn [mbind option_bind]. destruct (parse_namespace rest) as [ns rest']. destruct (take_digits rest') as [digits data]. intros [= <-]. cbn.
    rewrite Eb. split; [unfold MAX_ATTACHMENTS; lia|done].
Qed.

(** Packets survive the wire: what [Packet::encode] writes for a packet
    with a usable namespace, [Packet::parse] reads back as that packet, kind,
    attachment count, namespace, acknowledgement id and data; and whatever
    text a peer sends, a packet that is read announces at most 1,024
    attachments, and none unless it is a binary one. *)
Theorem packet_roundtrip :
  (forall p, packet_ok p -> Packet_parse (Packet_encode p) = Some p) /\
  (forall text p, Packet_parse text = Some p ->
     0 <= pk_attachments p <= MAX_ATTACHMENTS /\ (is_binary (pk_kind p) = false -> pk_attachments p = 0)).
Proof. split; [apply packet_parse_encode|apply packet_parse_bounds]. Qed.

Lemma packet_roundtrip_witness : let p := mkPacket BINARY_ACK 3 "/chat" (Some 12) "[1]" in
  Packet_encode p = "463-/chat,12[1]"%string /\ Packet_parse "463-/chat,12[1]" = Some p.
Proof.
  split; [reflexivity|]. apply (proj1 packet_roundtrip (mkPacket BINARY_ACK 3 "/chat" (Some 12) "[1]")).
  split_and!; cbn; try done.
  intros Hin. repeat (apply elem_of_cons in Hin as [Hin|Hin]; [discriminate Hin|]). by apply not_elem_of_nil in Hin.
Defined.

(** ** What a session relies on the JSON library for *)

Section Sessions.
Context {N : Type} `{SerdeJson N}.
Variable is_json : string -> bool.
Variable c : SocketIoConfig.
Hypothesis Hvalid : SocketIoConfig_validate c = Ok tt.

Definition event_data (payload : string) : string :=
  ("[" +:+ event_name c +:+ "," +:+ (if is_json payload then payload else to_string (JString payload)) +:+ "]")%string.
Definition binary_data : string := ("[" +:+ event_name c +:+ "," +:+ PLACEHOLDER +:+ "]")%string.

(** The library reads an event's data as an array of its name and argument,
    and prints an array with its bracket first; the reply is then the array
    of the argument, or the attachment of a binary event. *)
Definition event_reads (frame reply : Message) : Prop :=
  match frame with
  | Text payload => exists name v, from_str (event_data payload) = Ok (Array [name; v]) /\
      head (to_string (Array [v])) = Some "["%char /\ reply = Text (to_string (Array [v]))
  | Binary bytes => (exists name v, from_str binary_data = Ok (Array [name; v]) /\
      head (to_string (Array [v])) = Some "["%char /\ same_json (to_string (Array [v])) ("[" +:+ PLACEHOLDER +:+ "]")%string = true) /\
      reply = Binary bytes
  | _ => False
  end.

(** The mock's answers to what the pump writes, and what the loop is passed
    when the pump reads them. *)
Fixpoint mock_answers (sid : string) (frames : list Message) (s : MockSession) : MockSession * list Message :=
  match frames with
  | [] => (s, [])
  | frame :: frames =>
      let (s, answer) := mock_receive frame sid s in
      let (s, more) := mock_answers sid frames s in
      (s, match answer with Some a => mk_frames a | None => [] end ++ more)
  end.
Definition exchange (sid : string) (frame : Message) (p : Pump) (s : MockSession)
  : Pump * MockSession * list (Message + TungsteniteError) :=
  let (p, out) := pump_step is_json c (FromLoop (Some frame) None) p in
  let (s, answers) := mock_answers sid (po_sent out) s in
  let (p, outs) := pump_run is_json c ((fun frame => FromSocket (Some (inl frame)) true) <$> answers) p in
  (p, s, concat (po_passed <$> outs)).

Lemma valid_namespace : starts_with "/" (so_namespace c) = true /\ ","%char ∉ list_ascii_of_string (so_namespace c).
Proof.
  unfold SocketIoConfig_validate in Hvalid. destruct (starts_with "/" (so_namespace c)); [|done].
  destruct (contains "," (so_namespace c)) eqn:E; [done|]. split; [done|by apply contains_char].
Qed.

Lemma session_packet kind attachments id data : CONNECT <= kind <= BINARY_ACK ->
  (if is_binary kind then 0 <= attachments <= MAX_ATTACHMENTS else attachments = 0) ->
  is_u64 id -> head data = Some "["%char ->
  Packet_parse (Packet_encode (mkPacket kind attachments (so_namespace c) (Some id) data)) =
    Some (mkPacket kind attachments (so_namespace c) (Some id) data).
Proof.
  intros Hk Ha Hid Hd. destruct valid_namespace as [Hs Hc]. apply packet_parse_encode.
  split_and!; cbn; [lia|lia|done|done|done|done|by rewrite Hd].
Qed.

Lemma mock_text_packet sid s text p : Packet_parse text = Some p -> text <> "2"%string ->
  mock_text text sid s =
    let s := mkMockSession (ms_engine s) None in
    if pk_kind p =? CONNECT then
      let namespace := match split_once "?" (pk_namespace p) with Some (a, _) => a | None => pk_namespace p end in
      (s, Some (control (Packet_encode (mkPacket CONNECT 0 namespace None
        ("{" +:+ DQ +:+ "sid" +:+ DQ +:+ ":" +:+ DQ +:+ sid +:+ DQ +:+ "}")%string))))
    else if (pk_kind p =? BINARY_EVENT) && (0 <? pk_attachments p) then
      (mkMockSession (ms_engine s) (Some (text, pk_attachments p, [])), None)
    else if (pk_kind p =? EVENT) || (pk_kind p =? BINARY_EVENT) then
      let reply := match pk_id p with
                   | Some id => Packet_encode (mkPacket (pk_kind p + 1) 0 (pk_namespace p) (Some id) (event_arguments (pk_data p)))
                   | None => text
                   end in
      (s, Some (mkMockAnswer [Text reply] true))
    else (s, None).
Proof. intros Hp Hne. unfold mock_text. rewrite decide_False by done. by rewrite Hp. Qed.

Lemma unwrap_wrap engine bytes : unwrap_binary engine (wrap_binary engine bytes) = Some bytes.
Proof. by destruct engine. Qed.

(** What the pump makes of a packet that is not an Engine.IO one. *)
Lemma pump_text_packet text taken packet p : Packet_parse text = Some packet -> String.length text <> 1%nat -> pu_pending p = None ->
  pump_text c text taken p =
    if 0 <? pk_attachments packet then
      (p <| pu_pending := Some (mkPending
            ((pk_kind packet =? BINARY_ACK) && bool_decide (pk_namespace packet = so_namespace c))
            (pk_id packet) (pk_data packet) (pk_attachments packet) []) |>, quiet)
    else if decide (pk_namespace packet = so_namespace c) then
      if ((pk_kind packet =? ACK) || (pk_kind packet =? BINARY_ACK))
         && bool_decide (is_Some (pk_id packet)) && bool_decide (pk_id packet = pu_awaited p) then
        pass_reply (Text (pk_data packet)) taken p
      else if (pk_kind packet =? DISCONNECT) || (pk_kind packet =? CONNECT_ERROR) then (p, passing (inl (Close None)) true)
      else (count_unsolicited p, quiet)
    else (count_unsolicited p, quiet).
Proof.
  intros Hp Hl Hn. unfold pump_text. rewrite Hn.
  rewrite !decide_False by (first [by intros ->|by intros [->| ->]]). by rewrite Hp.
Qed.

Lemma encode_long p : (1 < String.length (Packet_encode p))%nat.
Proof. unfold Packet_encode. rewrite length_string_app, length_string_app. cbn [String.length]. lia. Qed.

Lemma pump_text_ack id data taken p : is_u64 id -> head data = Some "["%char -> pu_pending p = None -> pu_awaited p = Some id ->
  pump_text c (Packet_encode (mkPacket ACK 0 (so_namespace c) (Some id) data)) taken p = pass_reply (Text data) taken p.
Proof.
  intros Hid Hd Hn Ha. pose proof (encode_long (mkPacket ACK 0 (so_namespace c) (Some id) data)).
  rewrite (pump_text_packet _ _ _ _ (session_packet ACK 0 id data ltac:(lia) eq_refl Hid Hd)) by (lia || done).
  cbn [pk_attachments pk_namespace pk_kind pk_id pk_data]. rewrite decide_True by done. rewrite Ha.
  by rewrite !bool_decide_true by done.
Qed.

(** One text event and its acknowledgement. *)
Lemma exchange_text sid payload reply p s : is_u64 (pu_next_id p) -> pu_pending p = None ->
  event_reads (Text payload) reply ->
  exchange sid (Text payload) p s =
    (p <| pu_next_id ::= fun n => n +u 1 |> <| pu_awaited := None |>, mkMockSession (ms_engine s) None, [inl reply]).
Proof.
  intros Hid Hp (name & v & Hj & Hh & ->). unfold exchange. cbn [pump_step pump_loop po_sent mock_answers mock_receive].
  unfold event_packet. fold (event_data payload). pose proof (encode_long (mkPacket EVENT 0 (so_namespace c) (Some (pu_next_id p)) (event_data payload))).
  rewrite (mock_text_packet _ _ _ _ (session_packet EVENT 0 (pu_next_id p) (event_data payload) ltac:(lia) eq_refl Hid eq_refl))
    by (intros E; rewrite E in H0; cbn in H0; lia).
  cbn [pk_kind pk_attachments pk_namespace pk_id pk_data Z.eqb Pos.eqb andb orb mk_frames app]. unfold event_arguments. rewrite Hj.
  change (EVENT + 1) with ACK. cbn [fmap list_fmap pump_run pump_step].
  rewrite (pump_text_ack (pu_next_id p)) by done. cbn. by destruct p.
Qed.

(** One binary event and its acknowledgement. *)
Lemma exchange_binary sid bytes reply p s : is_u64 (pu_next_id p) -> pu_pending p = None -> ms_engine s = so_engine c ->
  event_reads (Binary bytes) reply ->
  exchange sid (Binary bytes) p s =
    (p <| pu_next_id ::= fun n => n +u 1 |> <| pu_awaited := None |>, mkMockSession (ms_engine s) None, [inl reply]).
Proof.
  intros Hid Hp Hs ((name & v & Hj & Hh & Hsame) & ->). destruct p as [next awaited pending unsolicited]. cbn in Hid, Hp. subst pending. unfold exchange.
  cbn [pump_step pump_loop po_sent mock_answers mock_receive]. unfold binary_event_packet. fold binary_data.
  set (event := mkPacket BINARY_EVENT 1 (so_namespace c) (Some next) binary_data).
  pose proof (encode_long event) as Hl.
  assert (Packet_parse (Packet_encode event) = Some event) as He by (apply session_packet; [lia|cbn; unfold MAX_ATTACHMENTS; lia|done|done]).
  rewrite (mock_text_packet _ _ _ _ He) by (intros E; rewrite E in Hl; cbn in Hl; lia).
  cbn [event pk_kind pk_attachments pk_namespace pk_id pk_data Z.eqb Z.ltb Z.compare Pos.eqb andb orb mk_frames app].
  unfold mock_binary. cbn [ms_waiting ms_engine]. rewrite Hs, unwrap_wrap. cbn [app length]. rewrite He. cbn [pk_id pk_attachments pk_namespace pk_data event]. unfold event_arguments. rewrite Hj.
  set (data := to_string (Array [v])) in *. set (ack := mkPacket BINARY_ACK 1 (so_namespace c) (Some next) data).
  assert (Packet_parse (Packet_encode ack) = Some ack) as Ha by (apply session_packet; [lia|cbn; unfold MAX_ATTACHMENTS; lia|done|done]).
  pose proof (encode_long ack) as Hl'. change (Z.of_nat 1 <? 1) with false. cbv iota beta zeta. cbn [fmap list_fmap pump_run pump_step mk_frames app].
  rewrite (pump_text_packet _ _ _ _ Ha) by (lia || done).
  cbn [ack pk_attachments pk_namespace pk_kind pk_id pk_data Z.ltb Z.compare]. rewrite bool_decide_true by done. cbn [po_ended quiet pump_run pump_step compose].
  unfold pump_binary. cbn [pu_pending set_field pn_attachments]. rewrite unwrap_wrap.
  cbn [app length]. change (Z.of_nat 1 <? 1) with false. cbn [pn_needed pn_ack pn_id pn_data pu_awaited Z.eqb Pos.eqb andb].
  rewrite !bool_decide_true by done. cbn. unfold binary_reply. cbn. by rewrite Hsame.
Qed.

Fixpoint exchanges (sid : string) (frames : list Message) (p : Pump) (s : MockSession)
  : Pump * MockSession * list (Message + TungsteniteError) :=
  match frames with
  | [] => (p, s, [])
  | frame :: frames =>
      let '(p, s, passed) := exchange sid frame p s in
      let '(p, s, more) := exchanges sid frames p s in (p, s, passed ++ more)
  end.

Lemma exchanges_reply sid frames replies p s : is_u64 (pu_next_id p) -> pu_pending p = None -> ms_engine s = so_engine c ->
  Forall2 event_reads frames replies ->
  exists p' s', exchanges sid frames p s = (p', s', inl <$> replies) /\ pu_pending p' = None /\
    pu_unsolicited p' = pu_unsolicited p /\ (frames <> [] -> pu_awaited p' = None) /\ ms_engine s' = so_engine c.
Proof.
  intros Hid Hp Hs Hall. revert p s Hid Hp Hs. induction Hall as [|frame reply frames replies Hr Hall IH]; intros p s Hid Hp Hs.
  { by exists p, s. }
  assert (exchange sid frame p s =
    (p <| pu_next_id ::= fun n => n +u 1 |> <| pu_awaited := None |>, mkMockSession (ms_engine s) None, [inl reply])) as Hx.
  { destruct frame; try done; [by apply exchange_text|by apply exchange_binary]. }
  destruct (IH (p <| pu_next_id ::= fun n => n +u 1 |> <| pu_awaited := None |>) (mkMockSession (ms_engine s) None))
    as (p' & s' & He & Hp' & Hu & Ha & Hs'); [apply u64_add_range|done|done|].
  exists p', s'. cbn [exchanges]. rewrite Hx, He. split_and!; try done. intros _.
  destruct frames; [|by apply Ha]. inversion Hall; subst. cbn in He. by injection He as <- <-.
Qed.

(** *** Opening a session with the mock *)

(** The server's connect packet. *)
Lemma server_connect sid : Packet_parse (Packet_encode (mkPacket CONNECT 0 (so_namespace c) None
    ("{" +:+ DQ +:+ "sid" +:+ DQ +:+ ":" +:+ DQ +:+ sid +:+ DQ +:+ "}")%string)) =
  Some (mkPacket CONNECT 0 (so_namespace c) None ("{" +:+ DQ +:+ "sid" +:+ DQ +:+ ":" +:+ DQ +:+ sid +:+ DQ +:+ "}")%string).
Proof. destruct (valid_namespace) as [Hs Hc]. apply packet_parse_encode. by split_and!. Qed.

Definition auth_ok (auth : string) : Prop :=
  match head auth with Some ch => is_digit ch = false /\ ch <> "/"%char | None => True end.

Lemma client_connect auth : auth_ok auth ->
  Packet_parse (Packet_encode (mkPacket CONNECT 0 (so_namespace c) None auth)) = Some (mkPacket CONNECT 0 (so_namespace c) None auth).
Proof.
  intros Ha. destruct (valid_namespace) as [Hs Hc]. unfold auth_ok in Ha. apply packet_parse_encode.
  split_and!; cbn; try done; destruct (head auth); try done; [|by destruct Ha]. intros _ [= ->]. by destruct Ha.
Qed.

Definition arriving (frames : list Message) : list (option (Message + TungsteniteError) * bool) :=
  (fun frame => (Some (inl frame), true)) <$> frames.

Lemma opened_step auth text packet st : Packet_parse text = Some packet -> String.length text <> 1%nat ->
  open_step c auth (mkOpening true st) (Some (inl (Text text))) true =
    if decide (pk_namespace packet = so_namespace c) then
      if pk_kind packet =? CONNECT then ([], inr (Ok st))
      else if (pk_kind packet =? CONNECT_ERROR) || (pk_kind packet =? DISCONNECT) then ([], inr (Err ProtocolError))
      else ([], inl (mkOpening true st))
    else ([], inl (mkOpening true st)).
Proof.
  intros Hp Hl. cbn [open_step on_opened negb]. rewrite !decide_False by (by intros ->). rewrite Hp. cbn [on_ping_every]. by destruct packet.
Qed.

(** What the library reads in the open packet's body. *)
Definition open_reads (sid : string) (interval_ms timeout_ms : Z) : Prop :=
  exists body v, strip_prefix "0" (mock_open sid interval_ms timeout_ms (so_engine c)) = Some body /\ from_str body = Ok v /\
    (so_engine c = V3 -> exists m n, v = Object m /\ member "pingInterval" m = Some (Number n) /\ as_u64 n = Some interval_ms).

(** The interval an opened session pings at. *)
Definition session_pings (interval_ms : Z) : option Z :=
  match so_engine c with V3 => Some (from_millis interval_ms) | V4 => None end.

Lemma opening_step sid interval_ms timeout_ms auth : 0 < interval_ms -> open_reads sid interval_ms timeout_ms ->
  open_step c auth (mkOpening false None) (Some (inl (Text (mock_open sid interval_ms timeout_ms (so_engine c))))) true =
    if decide (so_engine c = V3 /\ so_namespace c = "/"%string) then ([], inl (mkOpening true (session_pings interval_ms)))
    else ([Text (Packet_encode (mkPacket CONNECT 0 (so_namespace c) None
            (match so_engine c with V3 => ""%string | V4 => default ""%string auth end)))],
          inl (mkOpening true (session_pings interval_ms))).
Proof.
  intros Hpos (body & v & Hbody & Hv & Hping). unfold open_step, session_pings. cbn [on_opened negb].
  rewrite Hbody. cbn [mbind option_bind]. rewrite Hv. destruct (so_engine c) eqn:E; cbn [on_ping_every].
  - destruct (Hping eq_refl) as (m & n & -> & Hm & Hn). rewrite Hm. cbn [mbind option_bind]. rewrite Hn.
    rewrite (proj2 (Z.ltb_lt 0 interval_ms)) by done. by case_decide.
  - by case_decide.
Qed.

(** The server's answer to the client's connect packet. *)
Definition connect_answer (sid : string) : string := Packet_encode (mkPacket CONNECT 0 (so_namespace c) None
  ("{" +:+ DQ +:+ "sid" +:+ DQ +:+ ":" +:+ DQ +:+ sid +:+ DQ +:+ "}")%string).

Lemma mock_connects sid data : "?"%char ∉ list_ascii_of_string (so_namespace c) -> auth_ok data ->
  mock_receive (Text (Packet_encode (mkPacket CONNECT 0 (so_namespace c) None data))) sid (MockSession_new (so_engine c)) =
    (MockSession_new (so_engine c), Some (control (connect_answer sid))).
Proof.
  intros Hq Hd. cbn [mock_receive]. pose proof (encode_long (mkPacket CONNECT 0 (so_namespace c) None data)) as Hl.
  erewrite mock_text_packet; [|by apply client_connect|intros E; rewrite E in Hl; cbn in Hl; lia].
  cbn [pk_kind pk_namespace Z.eqb Pos.eqb]. destruct (split_once "?" (so_namespace c)) as [[a b]|] eqn:E; [|done].
  exfalso. apply Hq. apply split_once_Some in E. rewrite E. clear. induction a as [|d a IH]; [apply list_elem_of_here|by apply list_elem_of_further].
Qed.

Lemma client_connects sid auth st :
  open_step c auth (mkOpening true st) (Some (inl (Text (connect_answer sid)))) true = ([], inr (Ok st)).
Proof.
  rewrite (opened_step _ _ _ _ (server_connect sid)).
  - cbn [pk_namespace pk_kind]. by rewrite decide_True.
  - pose proof (encode_long (mkPacket CONNECT 0 (so_namespace c) None ("{" +:+ DQ +:+ "sid" +:+ DQ +:+ ":" +:+ DQ +:+ sid +:+ DQ +:+ "}")%string)). lia.
Qed.

(** A Socket.IO 2 server joins the client to the default namespace. *)
Lemma default_connects auth st : open_step c auth (mkOpening true st) (Some (inl (Text "40"))) true =
  ([], if decide (so_namespace c = "/"%string) then inr (Ok st) else inl (mkOpening true st)).
Proof.
  rewrite (opened_step _ _ (mkPacket CONNECT 0 "/" None "")) by done. cbn [pk_namespace pk_kind].
  destruct (decide (so_namespace c = "/"%string)) as [->|Hne]; [done|]. by rewrite decide_False by congruence.
Qed.

Lemma session_opens sid interval_ms timeout_ms auth : 0 < interval_ms -> auth_ok (default ""%string auth) ->
  "?"%char ∉ list_ascii_of_string (so_namespace c) -> open_reads sid interval_ms timeout_ms ->
  let greeting := socketio_greeting sid interval_ms timeout_ms (so_engine c) in
  let sent := (sio_open c auth (arriving greeting)).1 in
  exists s answers, mock_answers sid sent (MockSession_new (so_engine c)) = (s, answers) /\
    ms_engine s = so_engine c /\
    (sio_open c auth (arriving (greeting ++ answers))).2 = Some (Ok (session_pings interval_ms)).
Proof.
  intros Hpos Hauth Hq Hreads. unfold sio_open, arriving, socketio_greeting.
  cbn [app fmap list_fmap open_run]. pose proof (opening_step sid interval_ms timeout_ms auth Hpos Hreads) as Hfirst. setoid_rewrite Hfirst.
  destruct (decide (so_engine c = V3 /\ so_namespace c = "/"%string)) as [[E3 Ens]|Hne].
  - exists (MockSession_new (so_engine c)), []. rewrite E3. cbn [fmap list_fmap open_run app]. rewrite default_connects, decide_True by done. done.
  - destruct (so_engine c) eqn:E; cbn [fmap list_fmap open_run app fst snd].
    + setoid_rewrite default_connects. rewrite decide_False by naive_solver. cbn [open_run app fst snd mock_answers].
      rewrite <- E, mock_connects by done. eexists _, _. split; [reflexivity|]. split; [done|].
      cbn [control mk_frames app fmap list_fmap open_run]. by rewrite client_connects.
    + cbn [open_run app fst snd mock_answers]. rewrite <- E, mock_connects by done. eexists _, _. split; [reflexivity|]. split; [done|].
      cbn [control mk_frames app fmap list_fmap open_run]. by rewrite client_connects.
Qed.
End Sessions.

(** C25. A Socket.IO session against the mock server opens and answers every
    event. For settings that pass validation, on a namespace without a query
    (the mock drops the query and would answer on another namespace), the
    client's [open] on the mock's greeting and on its answers to what the
    client sends ends successfully, with the server's ping interval for
    Engine.IO 3 and none for Engine.IO 4; and data frames sent into the
    channel one at a time, each after the reply to the one before, then come
    back in order, each as the acknowledgement of its own event: a text frame
    as the array of its payload, a binary one as its bytes.  Nothing is
    counted as unsolicited and nothing is left waiting. *)
Theorem socketio_session_answers {N : Type} `{SerdeJson N} (is_json : string -> bool) (c : SocketIoConfig) (sid : string)
    (interval_ms timeout_ms : Z) (auth : option string) (frames replies : list Message)
    (Hvalid : SocketIoConfig_validate c = Ok tt) (Hns : "?"%char ∉ list_ascii_of_string (so_namespace c))
    (Hpos : 0 < interval_ms) (Hauth : auth_ok (default ""%string auth))
    (Hopen : open_reads c sid interval_ms timeout_ms) (Hframes : Forall2 (event_reads is_json c) frames replies) :
  let greeting := socketio_greeting sid interval_ms timeout_ms (so_engine c) in
  let sent := (sio_open c auth (arriving greeting)).1 in
  exists session answers, mock_answers sid sent (MockSession_new (so_engine c)) = (session, answers) /\
    (sio_open c auth (arriving (greeting ++ answers))).2 = Some (Ok (session_pings c interval_ms)) /\
    exists p session', exchanges is_json c sid frames pump_start session = (p, session', inl <$> replies) /\
      pu_unsolicited p = 0 /\ pu_pending p = None /\ (frames <> [] -> pu_awaited p = None).
Proof.
  intros greeting sent. destruct (session_opens is_json c Hvalid sid interval_ms timeout_ms auth Hpos Hauth Hns Hopen) as (s & answers & Hs & He & Ho).
  exists s, answers. split_and!; [done|done|].
  destruct (exchanges_reply is_json c Hvalid sid frames replies pump_start s) as (p & s' & Hx & Hp & Hu & Ha & _); [done|done|done|done|].
  by exists p, s'.
Qed.

Definition echo_config : SocketIoConfig := mkSocketIoConfig "/chat" "say" None V3.

(** Two events on a namespace of a Socket.IO 2 server: a JSON text and a
    binary frame. *)
Lemma socketio_session_answers_witness :
  let session := (sio_open (H := text_json) echo_config None (arriving (socketio_greeting "s" 25000 20000 V3))).1 in
  session <> [] /\
  exists s p s', exchanges (H := text_json) (fun s => result_is_ok (parse_json s)) echo_config "s" [Text "[1]"; Binary [7]] pump_start s =
    (p, s', [inl (Text "[[1]]"); inl (Binary [7])]).
Proof.
  intros session.
  destruct (socketio_session_answers (H := text_json) (fun s => result_is_ok (parse_json s)) echo_config "s" 25000 20000 None
    [Text "[1]"; Binary [7]] [Text "[[1]]"; Binary [7]]) as (s & answers & Hs & Ho & p & s' & Hx & _).
  - reflexivity.
  - cbn. intros Hin. repeat (apply elem_of_cons in Hin as [Hin|Hin]; [discriminate Hin|]). by apply not_elem_of_nil in Hin.
  - reflexivity.
  - done.
  - eexists _, _. split; [reflexivity|]. split; [vm_compute; reflexivity|]. intros _. eexists _, _. split; [reflexivity|]. split; vm_compute; reflexivity.
  - repeat constructor.
    + eexists _, _. split; [vm_compute; reflexivity|]. split; vm_compute; reflexivity.
    + eexists _, _. split; [vm_compute; reflexivity|]. split; vm_compute; reflexivity.
  - split; [vm_compute; discriminate|]. by exists s, p, s'.
Defined.

(** ** Replies answer the event they are passed for *)

Inductive Traffic := SentEvent (id : Z) | PassedReply (id : option Z).

Section Safety.
Context {N : Type} `{SerdeJson N}.
Variable is_json : string -> bool.
Variable c : SocketIoConfig.

(** The acknowledgement id of what the socket delivered. *)
Definition answered (e : PumpEvent) (p : Pump) : option Z :=
  match e with
  | FromSocket (Some (inl (Text text))) _ => packet ← Packet_parse text; pk_id packet
  | FromSocket (Some (inl (Binary _))) _ => pending ← pu_pending p; pn_id pending
  | _ => None
  end.

(** The events a step emits, and the data frames it passes to the loop. *)
Definition traffic (e : PumpEvent) (p : Pump) : list Traffic :=
  match e with
  | FromLoop (Some (Text _ | Binary _)) _ => [SentEvent (pu_next_id p)]
  | _ => omap (fun f => match f with inl (Text _ | Binary _) => Some (PassedReply (answered e p)) | _ => None end)
           (po_passed (pump_step is_json c e p).2)
  end.
Fixpoint run_traffic (events : list PumpEvent) (p : Pump) : list Traffic :=
  match events with
  | [] => []
  | e :: events =>
      let (p', out) := pump_step is_json c e p in
      traffic e p ++ if po_ended out then [] else run_traffic events p'
  end.

(** The cases in which nothing is passed and the awaited id stays. *)
Local Ltac keeps_awaited := split; [done|left; split; [done|by left]].

(** How one step moves the awaited id. *)
Lemma pump_step_traffic e p : let p' := (pump_step is_json c e p).1 in
  (traffic e p = [SentEvent (pu_next_id p)] /\ pu_awaited p' = Some (pu_next_id p) /\ pu_next_id p' = pu_next_id p +u 1) \/
  (pu_next_id p' = pu_next_id p /\
   ((traffic e p = [] /\ (pu_awaited p' = pu_awaited p \/ pu_awaited p' = None)) \/
    (exists id, traffic e p = [PassedReply (Some id)] /\ pu_awaited p = Some id /\ pu_awaited p' = None))).
Proof.
  intros p'. subst p'. destruct e as [[err|]|frame write|[[frame|err]|] taken]; try (right; keeps_awaited).
  - destruct frame as [[]|]; try (right; keeps_awaited); left; done.
  - destruct frame; try (right; keeps_awaited); right; cbn [traffic pump_step].
    + unfold pump_text. set (p1 := match pu_pending p with Some _ => _ | None => _ end).
      assert (pu_next_id p1 = pu_next_id p /\ pu_awaited p1 = pu_awaited p) as [Hn Ha] by (unfold p1; by destruct (pu_pending p)).
      repeat (case_decide; [cbn; rewrite Hn, Ha; keeps_awaited|]).
      destruct (Packet_parse text) as [packet|] eqn:Ep; [|cbn; rewrite Hn, Ha; keeps_awaited].
      destruct (0 <? pk_attachments packet); [cbn; rewrite Hn, Ha; keeps_awaited|].
      case_decide; [|cbn; rewrite Hn, Ha; keeps_awaited].
      destruct (_ && bool_decide (is_Some _) && bool_decide (pk_id packet = pu_awaited p1)) eqn:E.
      * apply andb_prop in E as [[_ Hs]%andb_prop Haw]. apply bool_decide_eq_true in Hs as [id Hid]. apply bool_decide_eq_true in Haw.
        unfold pass_reply. destruct taken; cbn -[Packet_parse]; rewrite Hn; (split; [done|]).
        -- right. exists id. rewrite ?Ep. cbn. rewrite ?Hid. split; [done|]. split; [congruence|done].
        -- left. split; [done|by right].
      * destruct ((pk_kind packet =? DISCONNECT) || (pk_kind packet =? CONNECT_ERROR)); cbn; rewrite Hn, Ha; (keeps_awaited).
    + unfold pump_binary. destruct (pu_pending p) as [packet|] eqn:Ep; [|cbn; keeps_awaited].
      destruct (unwrap_binary _ _) as [bytes'|]; [|cbn; keeps_awaited].
      destruct (_ <? _); [cbn; keeps_awaited|].
      destruct (_ && bool_decide (is_Some _) && _) eqn:E; [|cbn; keeps_awaited].
      apply andb_prop in E as [[_ Hs]%andb_prop Haw]. apply bool_decide_eq_true in Hs as [id Hid]. apply bool_decide_eq_true in Haw.
      cbn in Haw. unfold pass_reply. destruct taken; cbn; (split; [done|]); [|left; split; [done|by right]].
      right. exists id. rewrite ?Ep. cbn. rewrite ?Hid. split; [|split; [congruence|done]].
      unfold binary_reply. destruct (last _); [|done]. by destruct (_ && _).
Qed.

(** The awaited id is that of the last event, if nothing answered it yet. *)
Lemma run_traffic_ordered events p past : (forall id, pu_awaited p = Some id -> last past = Some (SentEvent id)) ->
  forall l1 oid l2, run_traffic events p = l1 ++ PassedReply oid :: l2 ->
    exists id, oid = Some id /\ last (past ++ l1) = Some (SentEvent id).
Proof.
  revert p past. induction events as [|e events IH]; intros p past Hpast l1 oid l2; cbn [run_traffic]; [by destruct l1|].
  pose proof (pump_step_traffic e p) as Hstep. destruct (pump_step is_json c e p) as [p' out]. cbn [fst] in Hstep.
  assert (Hgo : forall past', (forall id, pu_awaited p' = Some id -> last past' = Some (SentEvent id)) ->
    forall l1, (if po_ended out then [] else run_traffic events p') = l1 ++ PassedReply oid :: l2 ->
      exists id, oid = Some id /\ last (past' ++ l1) = Some (SentEvent id)).
  { intros past' Hp' k. destruct (po_ended out); [by destruct k|]. by apply IH. }
  destruct Hstep as [(-> & Ha & _)|(_ & [(-> & Ha)|(id & -> & Ha & Ha')])]; cbn [app].
  - destruct l1 as [|x l1]; [done|]. cbn. intros [= <- Hr]. destruct (Hgo (past ++ [SentEvent (pu_next_id p)])) with l1 as (id & -> & Hl); [|done|].
    + intros id Hid. rewrite last_snoc. congruence.
    + exists id. split; [done|]. by rewrite <- app_assoc in Hl.
  - apply Hgo. intros id Hid. destruct Ha as [Ha|Ha]; rewrite Ha in Hid; [by apply Hpast|done].
  - destruct l1 as [|x l1]; cbn.
    + intros [= <- _]. exists id. split; [done|]. rewrite app_nil_r. by apply Hpast.
    + intros [= <- Hr]. destruct (Hgo (past ++ [PassedReply (Some id)])) with l1 as (id' & -> & Hl); [|done|].
      * intros id'. by rewrite Ha'.
      * exists id'. split; [done|]. by rewrite <- app_assoc in Hl.
Qed.

(** A reply the echo loop gets is the acknowledgement of the event it
    just sent. Whatever the server sends and whenever, each data frame the
    pump passes to the loop was an acknowledgement that names an event's id,
    and that event is the very last thing that crossed the channel before it:
    no event is answered twice, none is answered late, after the next one
    was sent, and no frame the server emits on its own is taken for a
    reply. *)
Theorem replies_follow_their_event (events : list PumpEvent) (before after : list Traffic) (answer : option Z)
    (Hrun : run_traffic events pump_start = before ++ PassedReply answer :: after) :
  exists id earlier, answer = Some id /\ before = earlier ++ [SentEvent id].
Proof.
  destruct (run_traffic_ordered events pump_start [] (fun id Hid => ltac:(done)) before answer after Hrun) as (id & -> & Hl).
  cbn in Hl. apply last_Some in Hl as [earlier ->]. by exists id, earlier.
Qed.
End Safety.

(** The server acknowledges the first event after the second was sent, emits
    an event of its own, and then acknowledges the second. *)
Lemma replies_follow_their_event_witness :
  exists id earlier, Some 1 = Some id /\ [SentEvent 0; SentEvent 1] = earlier ++ [SentEvent id].
Proof.
  apply (replies_follow_their_event (H := text_json) (fun s => result_is_ok (parse_json s)) (mkSocketIoConfig "/" "say" None V4)
    [FromLoop (Some (Text "1")) None; FromLoop (Some (Text "2")) None; FromSocket (Some (inl (Text "430[1]"))) true;
     FromSocket (Some (inl (Text "42[]"))) true; FromSocket (Some (inl (Text "431[2]"))) true] _ [] (Some 1)).
  reflexivity.
Defined.
