(* ===== verification/Worker.v ===== *)
(** * The worker's session loops (src/src/worker.rs)

    One Definition per loop body and per method, in the order of the source;
    a loop's local variables are the state its rounds pass on.  A [break] of
    a session loop is followed only by [self.session_end()], so a round
    leaves with that value. *)

From Stdlib Require Import ZArith Lia Ascii String.
From stdpp Require Import base tactics strings numbers option gmap list.
From S2P Require Import Prelude RustStd Str Hdr Histogram Live TimeSeries Summaries Metrics Wire Chaos Json.
From S2P Require Import Reply Data Template Session.

Local Open Scope Z_scope.
Local Open Scope rust_scope.

(** ** Configuration (src/src/cli.rs, src/src/config.rs) *)

Inductive TestMode := Echo | Stream | Listen | GraphQLWS | SocketIo.
#[export] Instance TestMode_eq_dec : EqDecision TestMode.
Proof. solve_decision. Defined.

Definition awaits_replies (mode : TestMode) : bool :=
  match mode with
  | Echo => true
  | SocketIo => true
  | _ => false
  end.

Inductive ScenarioAction (N : Type) :=
| ActSend (payload : option PayloadConfig) (count : Z) (expect : option (ReplyCheck N))
    (captures : list Capture) (name : option nat)
| ActWait (duration : Z)
| ActPing (interval : Z)
| ActClose (code : Z) (reason : string).
Arguments ActSend {N} _ _ _ _ _.
Arguments ActWait {N} _.
Arguments ActPing {N} _.
Arguments ActClose {N} _ _.

(** The fields of a [ScenarioPhase] its workers read. *)
Record ScenarioPhase (N : Type) := mkScenarioPhase {
  ph_think_time : Z;
  ph_actions : list (ScenarioAction N);
  ph_vars : list string;
}.
Arguments mkScenarioPhase {N} _ _ _.
Arguments ph_think_time {N} _.
Arguments ph_actions {N} _.
Arguments ph_vars {N} _.

Record GraphQLWSConfig (N : Type) := mkGraphQLWSConfig {
  gc_operation_name : option string;
  gc_operation : string;
  gc_variables : option (Value N);
  gc_extensions : option (Value N);
}.
Arguments mkGraphQLWSConfig {N} _ _ _ _.
Arguments gc_operation_name {N} _.
Arguments gc_operation {N} _.
Arguments gc_variables {N} _.
Arguments gc_extensions {N} _.

Record GraphQLWSStartPayload (N : Type) := mkGraphQLWSStartPayload {
  gs_query : string;
  gs_operation_name : option string;
  gs_variables : option (Value N);
  gs_extensions : option (Value N);
}.
Arguments mkGraphQLWSStartPayload {N} _ _ _ _.

Inductive GraphQLWSMessage (N : Type) :=
| ConnectionInit (payload : option (Value N))
| ConnectionAck
| ConnectionError (payload : option (Value N))
| ConnectionKeepAlive
| ConnectionTerminate
| GPing
| GPong
| Start (id : string) (payload : GraphQLWSStartPayload N)
| Stop (id : string)
| Subscribe (id : string) (payload : GraphQLWSStartPayload N)
| GData (id : string) (payload : Value N)
| Next (id : string) (payload : Value N)
| GError (id : string) (payload : list (Value N))
| Complete (id : string).
Arguments ConnectionInit {N} _.
Arguments ConnectionAck {N}.
Arguments ConnectionError {N} _.
Arguments ConnectionKeepAlive {N}.
Arguments ConnectionTerminate {N}.
Arguments GPing {N}.
Arguments GPong {N}.
Arguments Start {N} _ _.
Arguments Stop {N} _.
Arguments Subscribe {N} _ _.
Arguments GData {N} _ _.
Arguments Next {N} _ _.
Arguments GError {N} _ _.
Arguments Complete {N} _.

(** serde's derived [from_str] and [to_string] of [GraphQLWSMessage]. *)
Class GraphQLCodec (N : Type) := {
  gql_from_str : string -> option (GraphQLWSMessage N);
  gql_to_string : GraphQLWSMessage N -> option string;
}.

(** The fields of a [LoadTestConfig] a worker reads. *)
Record LoadTestConfig (N : Type) := mkLoadTestConfig {
  cf_max_requests : option Z;
  cf_rate_per_conn : Z;
  cf_payload : PayloadConfig;
  cf_data : option DataSet;
  cf_subprotocol : option string;
  cf_mode : TestMode;
  cf_ping_interval : Z;
  cf_graphql_ws : option (GraphQLWSConfig N);
  cf_no_reconnect : bool;
  cf_reply_match : ReplyMatch;
  cf_expect : option (ReplyCheck N);
  cf_chaos : option ChaosConfig;
}.
Arguments mkLoadTestConfig {N} _ _ _ _ _ _ _ _ _ _ _ _.
Arguments cf_max_requests {N} _.
Arguments cf_rate_per_conn {N} _.
Arguments cf_payload {N} _.
Arguments cf_data {N} _.
Arguments cf_subprotocol {N} _.
Arguments cf_mode {N} _.
Arguments cf_ping_interval {N} _.
Arguments cf_graphql_ws {N} _.
Arguments cf_no_reconnect {N} _.
Arguments cf_reply_match {N} _.
Arguments cf_expect {N} _.
Arguments cf_chaos {N} _.

(** How waiting for a reply ends, with the frames that were not the reply. *)
Inductive ReplyOutcome :=
| GotReply (reply : Message)
| ServerClosed
| ReplyError (category : ErrorCategory)
| ReplyTimeout
| ReplyCancelled.

Section Worker.
Context {H : Type} `{Hdr H} {N : Type} `{SerdeJson N} `{GraphQLCodec N}.
Variable config : LoadTestConfig N.
Variable scenario : option (ScenarioPhase N).
Variable worker_id : Z.

Local Abbreviation Session := (M H SessionEnd).

(** [WorkerSession::new]: the session's first state. *)
Definition WorkerSession_new (time : Z) (metrics : WorkerMetrics) (shared : RunShared H)
    (cancelled : bool) (now : Z) (script : list (Obs H)) : State H :=
  let '(chaos, metrics) :=
    match cf_chaos config with
    | Some chaos =>
        (Some (ChaosState_new time chaos worker_id),
         metrics <| wm_chaos := Some (ChaosSummary_new (default 0 (cx_seed chaos))) |>)
    | None => (None, metrics)
    end in
  mkState metrics shared chaos [] cancelled now script [].

(** ** Small methods *)

Definition session_end {R} : M H R SessionEnd :=
  let! cancelled := is_cancelled in
  mret (if cancelled then Finished else Lost).

Definition break_session {A} : Session A := let! e := session_end in mexit e.

Definition close_and_break {A} : Session A := send_close ;;; break_session.

Definition max_requests_reached : Session bool :=
  match cf_max_requests config with
  | None => mret false
  | Some max => gets (fun st => requests_exhausted max (rs_live (st_shared st)))
  end.

Definition claim_send : Session bool :=
  match cf_max_requests config with
  | None => mret true
  | Some max => fun st =>
      let (granted, live) := claim_request max (rs_live (st_shared st)) in
      (Val granted, st <| st_shared ::= fun s => s <| rs_live := live |> |>
                       <| st_history ::= fun h => if granted then Claimed :: h else h |>)
  end.

(** Claims a send, or ends the run and the session. *)
Definition claim_or_stop : Session unit :=
  let! granted := claim_send in
  when (negb granted) (cancel ;;; close_and_break).

Definition apply_think_time : Session bool :=
  match scenario with
  | None => mret true
  | Some phase => if ph_think_time phase =? 0 then mret true else sleep_unless_cancelled
  end.

Definition retain_for_exact_match (msg : Message) : option Message :=
  if decide (cf_reply_match config = Exact) then Some msg else None.

Definition keepalive : bool := 0 <? cf_ping_interval config.
Definition ping_arm : list Arm := if keepalive then [ArmPing] else [].

(** *** Fault injection *)

Definition chaos_plan : Session SendPlan := fun st =>
  match st_chaos st with
  | Some chaos => let (plan, chaos) := plan_send chaos in (Val plan, st <| st_chaos := Some chaos |>)
  | None => (Val SendPlan_default, st)
  end.

Definition chaos_delay : Session bool := recording record_chaos_delayed ;;; sleep_unless_cancelled.

Definition chaos_read_pause {R} : M H R (option Z) := fun st =>
  match st_chaos st with
  | Some chaos =>
      let (pause, chaos) := read_pause chaos in
      let st := st <| st_chaos := Some chaos |> in
      match pause with
      | Some pause => (recording record_chaos_read_pause ;;; mret (Some pause)) st
      | None => (Val None, st)
      end
  | None => (Val None, st)
  end.

Definition chaos_pause : Session bool := sleep_unless_cancelled.

Definition chaos_corrupt (msg : Message) (corrupted : bool) : Session (Message * bool) := fun st =>
  match st_chaos st with
  | Some chaos =>
      if corrupted then
        let '((msg, changed), chaos) := corrupt msg chaos in
        let st := st <| st_chaos := Some chaos |> in
        (when changed (recording record_chaos_corrupted) ;;; mret (msg, changed)) st
      else (Val (msg, false), st)
  | None => (Val (msg, false), st)
  end.

Definition chaos_close_now : Session (option bool) := fun st =>
  match st_chaos st with
  | Some chaos => let (close, chaos) := close_now chaos in (Val close, st <| st_chaos := Some chaos |>)
  | None => (Val None, st)
  end.

Definition chaos_close {A} (graceful : bool) : Session A :=
  recording record_chaos_close ;;;
  when graceful (send_ignoring (Close (Some (mkCloseFrame 1001 "wsblast chaos close")))) ;;;
  break_session.

(** [if let Some(graceful) = self.chaos_close_now() { return self.chaos_close(..) }] *)
Definition maybe_chaos_close : Session unit :=
  let! close := chaos_close_now in
  match close with
  | Some graceful => chaos_close graceful
  | None => mret tt
  end.

(** *** Payloads and replies *)

Definition template_values (seq : Z) (vars : list string) : Values :=
  mkValues seq worker_id ((fun data => (data, row_for data worker_id)) <$> cf_data config) vars.

Definition render_message (payload : PayloadConfig) (seq : Z) : Session Message :=
  match payload with
  | BinaryPayload bytes => mret (Binary bytes)
  | StaticText text => mret (Text text)
  | DynamicText template =>
      let! ob := observe in
      let! vars := gets st_vars in
      mret (Text (render (ob_epoch_ms ob) template (template_values seq vars)))
  end.

Definition render_payload (seq : Z) : Session Message := render_message (cf_payload config) seq.

(** One capture: the variable is set, or the check has failed. *)
Definition apply_capture (reply : Message) (acc : bool * list string) (c : Capture) : bool * list string :=
  let (passed, vars) := acc in
  match capture_value (N := N) c reply, vars !! ca_var c with
  | Some value, Some _ => (passed, <[ca_var c := value]> vars)
  | _, _ => (false, vars)
  end.

Definition opt_passes (check : option (ReplyCheck N)) (reply : Message) : bool :=
  match check with None => true | Some check => passes check reply end.

Definition check_reply (reply : Message) (expect : option (ReplyCheck N)) (captures : list Capture) : Session unit :=
  match cf_expect config, expect, captures with
  | None, None, [] => mret tt
  | _, _, _ =>
      let passed := opt_passes (cf_expect config) reply && opt_passes expect reply in
      let! vars := gets st_vars in
      let '(passed, vars) := fold_left (apply_capture reply) captures (passed, vars) in
      modify (fun st => st <| st_vars := vars |>) ;;;
      when (negb passed) (recording (record_error CheckFailed SentMessage))
  end.

Definition is_data_frame (m : Message) : bool := match m with Text _ | Binary _ => true | _ => false end.

(** The rule the frames are matched with. *)
Definition reply_rule (corrupted : bool) : ReplyMatch :=
  match cf_reply_match config with
  | JsonPointer _ as rule => if corrupted then First else rule
  | rule => rule
  end.

(** One frame: the reply, another frame to wait for, or the end. *)
Definition await_round (sent : option Message) (seq : Z) (corrupted : bool) (unsolicited : Z)
  : M H (ReplyOutcome * Z) Z :=
  let! (arm, ob) := select_biased in
  match arm with
  | ArmCancel => mexit (ReplyCancelled, unsolicited)
  | ArmTimeout => mexit (ReplyTimeout, unsolicited)
  | _ =>
      let! next := next_frame ob in
      match next with
      | None => mexit (ReplyError UnexpectedClose, unsolicited)
      | Some (inr e) => mexit (ReplyError (categorize_session_error e Read), unsolicited)
      | Some (inl (Close _)) => mexit (ServerClosed, unsolicited)
      | Some (inl (Ping data)) => send_ignoring (Pong data) ;;; mret unsolicited
      | Some (inl (Pong _ | Frame _)) => mret unsolicited
      | Some (inl frame) =>
          if reply_matches (reply_rule corrupted) frame sent seq
          then mexit (GotReply frame, unsolicited) else mret (unsolicited +u 1)
      end
  end.

Definition await_reply (sent : option Message) (seq : Z) (corrupted : bool) : Session (ReplyOutcome * Z) :=
  returning (forever (await_round sent seq corrupted) 0).

(** [SendSchedule::new] reads the clock. *)
Definition new_schedule (rate : Z) : Session (option SendSchedule) :=
  let! now := instant_now in mret (SendSchedule_new now rate).

Definition restart_schedule (schedule : option SendSchedule) : Session (option SendSchedule) :=
  match schedule with
  | None => mret None
  | Some s => let! now := instant_now in mret (Some (restart_after_pause now s))
  end.

(** A read pause between a reply and the next send: the schedule with it. *)
Definition pause_after_reply (schedule : option SendSchedule) : Session (option SendSchedule) :=
  let! pause := chaos_read_pause in
  match pause with
  | None => mret schedule
  | Some pause =>
      let! ok := chaos_pause in
      when (negb ok) close_and_break ;;;
      mret (shift pause <$> schedule)
  end.

(** A delay before a send: the schedule and the due time with it. *)
Definition delay_send (plan : SendPlan) (schedule : option SendSchedule) (due : option Z)
  : Session (option SendSchedule * option Z) :=
  if pl_delay plan =? 0 then mret (schedule, due)
  else
    let! ok := chaos_delay in
    when (negb ok) close_and_break ;;;
    mret (shift (pl_delay plan) <$> schedule, (fun due => due + pl_delay plan) <$> due).

(** *** Echo mode *)

(** Keepalive ticks that land while waiting for the pacing slot only send a
    ping. *)
Definition wait_round (_ : unit) : M H bool unit :=
  let! (arm, _) := select ArmTimer (ping_arm ++ [ArmCancel]) in
  match arm with
  | ArmPing => send_heartbeat
  | ArmCancel => send_close ;;; mexit false
  | _ => mexit true
  end.
Definition wait_for_slot : Session unit :=
  let! ok := returning (forever wait_round tt) in
  when (negb ok) break_session.

(** The keepalive ticker is only polled once. *)
Definition poll_keepalive : Session unit :=
  when keepalive (let! ob := look in when (bool_decide (ob_arm <$> ob = Some ArmPing)) send_heartbeat).

(** [select! { res = sink.send(msg) => .., _ = cancelled() => .. }] *)
Definition send_unless_cancelled (msg : Message) : Session unit :=
  let! (arm, ob) := select ArmTimer [ArmCancel] in
  if decide (arm = ArmCancel) then close_and_break
  else match ob_send ob with
       | Some err =>
           recording (record_error (categorize_session_error err Write) Attempt) ;;; break_session
       | None =>
           modify (fun st => st <| st_history ::= fun h => SentFrame msg :: h |>) ;;;
           recording (record_message_sent (message_byte_len msg))
       end.

(** What a reply of a request does, errors and all; false when the session
    is over. *)
Definition record_reply (outcome : ReplyOutcome) (received : Message -> Session unit) : Session unit :=
  match outcome with
  | ReplyCancelled => close_and_break
  | GotReply reply => received reply
  | ServerClosed => break_session
  | ReplyError cat => recording (record_error cat SentMessage) ;;; break_session
  | ReplyTimeout => recording (record_error Timeout SentMessage) ;;; break_session
  end.

Definition record_reply_metrics (reply : Message) (corrupted : bool) (expect : option (ReplyCheck N))
    (captures : list Capture) (due : option Z) (start_time : Z) : Session unit :=
  let! received_at := instant_now in
  let rtt := saturating_duration_since received_at start_time in
  recording (record_message_recv received_at (message_byte_len reply) (Some rtt)) ;;;
  when (negb corrupted) (check_reply reply expect captures) ;;;
  match due with
  | Some due => recording (record_response_time received_at (response_time due start_time rtt))
  | None => mret tt
  end.

Definition think_time_zero : bool :=
  match scenario with None => true | Some phase => ph_think_time phase =? 0 end.

Definition echo_round (record_response : bool) (s : Z * option SendSchedule)
  : Session (Z * option SendSchedule) :=
  let (seq, schedule) := s in
  let! cancelled := is_cancelled in
  when cancelled close_and_break ;;;
  let due := sc_next_due <$> schedule in
  match due with Some _ => wait_for_slot | None => poll_keepalive end ;;;
  claim_or_stop ;;;
  let! plan := chaos_plan in
  if pl_drop plan then
    recording record_chaos_dropped ;;; mret (seq +u 1, advance <$> schedule)
  else
    let! (schedule, due) := delay_send plan schedule due in
    let! msg := render_payload seq in
    let! (msg, corrupted) := chaos_corrupt msg (pl_corrupt plan) in
    let sent := retain_for_exact_match msg in
    let! start_time := instant_now in
    send_unless_cancelled msg ;;;
    let! (outcome, unsolicited) := await_reply sent seq corrupted in
    recording (record_unsolicited_frames unsolicited) ;;;
    record_reply outcome (fun reply =>
      record_reply_metrics reply corrupted None [] (if record_response then due else None) start_time ;;;
      maybe_chaos_close) ;;;
    let schedule := advance <$> schedule in
    let! schedule := pause_after_reply schedule in
    let! ok := apply_think_time in
    when (negb ok) close_and_break ;;;
    let! schedule := if record_response then mret schedule else restart_schedule schedule in
    mret (seq +u 1, schedule).

Definition run_echo_loop : Session SessionEnd :=
  let! schedule := new_schedule (cf_rate_per_conn config) in
  let record_response := think_time_zero in
  modify (fun st => st <| st_metrics ::= fun w =>
    w <| wm_interval_uses_response := bool_decide (is_Some schedule) && record_response |> |>) ;;;
  forever (echo_round record_response) (0, schedule).

(** *** Stream and listen mode *)

(** A frame of the reading arm: the end of the read pause it starts. *)
Definition incoming_frame (ob : Obs H) : Session (option Z) :=
  let! next := next_frame ob in
  match next with
  | Some (inl ((Text _ | Binary _) as m)) =>
      let! now := gets st_now in
      recording (record_message_recv now (message_byte_len m) None) ;;;
      let! pause := chaos_read_pause in
      let! now := gets st_now in
      mret ((fun p => now + p) <$> pause)
  | Some (inl (Ping data)) => send_ignoring (Pong data) ;;; mret None
  | Some (inl (Close _)) | None => break_session
  | Some (inr e) =>
      recording (record_error (categorize_session_error e Read) Attempt) ;;; break_session
  | Some (inl _) => mret None
  end.

(** The arms that read, depending on whether the reading is paused. *)
Definition read_arm (read_resume : option Z) : Arm :=
  match read_resume with Some _ => ArmResume | None => ArmRecv end.

Definition send_data (msg : Message) : Session unit :=
  let! res := send msg in
  match res with
  | Some err => recording (record_error (categorize_session_error err Write) Attempt) ;;; break_session
  | None => recording (record_message_sent (message_byte_len msg))
  end.

(** The ticker's arm. *)
Definition stream_send (seq : Z) : Session Z :=
  claim_or_stop ;;;
  let! plan := chaos_plan in
  if pl_drop plan then recording record_chaos_dropped ;;; mret (seq +u 1)
  else
    let! _ := delay_send plan None None in
    let! msg := render_payload seq in
    let! (msg, _) := chaos_corrupt msg (pl_corrupt plan) in
    send_data msg ;;;
    maybe_chaos_close ;;;
    let! ok := apply_think_time in
    when (negb ok) close_and_break ;;;
    mret (seq +u 1).

Definition stream_round (s : Z * option Z) : Session (Z * option Z) :=
  let (seq, read_resume) := s in
  let! (arm, ob) := select ArmTimer (ping_arm ++ [read_arm read_resume; ArmCancel]) in
  match arm with
  | ArmPing => send_heartbeat ;;; mret (seq, read_resume)
  | ArmResume => mret (seq, None)
  | ArmRecv => let! read_resume := incoming_frame ob in mret (seq, read_resume)
  | ArmCancel => close_and_break
  | _ => let! seq := stream_send seq in mret (seq, read_resume)
  end.

Definition run_stream_loop : Session SessionEnd := forever stream_round (0, None).

Definition listen_round (read_resume : option Z) : Session (option Z) :=
  let! (arm, ob) := select (read_arm read_resume) (ping_arm ++ [ArmCancel]) in
  match arm with
  | ArmPing => send_heartbeat ;;; mret read_resume
  | ArmResume => mret None
  | ArmCancel => close_and_break
  | _ => incoming_frame ob
  end.

Definition run_listen_loop : Session SessionEnd := forever listen_round None.

(** *** Action scripts *)

(** [for _ in 0..count] and [for action in &actions]. *)
Fixpoint for_n {R S} (n : nat) (body : S -> M H R S) (s : S) : M H R S :=
  match n with
  | O => mret s
  | Datatypes.S n' => let! s := body s in for_n n' body s
  end.
Fixpoint for_each {R A S} (l : list A) (body : A -> S -> M H R S) (s : S) : M H R S :=
  match l with
  | [] => mret s
  | a :: l' => let! s := body a s in for_each l' body s
  end.

Definition set_action (name : option nat) : Session unit :=
  modify (fun st => st <| st_metrics ::= fun w => w <| wm_current_action := name |> |>).

(** What a script paces its sends with: a schedule in echo mode, a ticker in
    the other modes. *)
Definition wait_for_pace (schedule : option SendSchedule) (ticker : bool) : Session unit :=
  match schedule with
  | Some _ => let! ok := sleep_unless_cancelled in when (negb ok) close_and_break
  | None => when ticker (let! ok := sleep_unless_cancelled in when (negb ok) close_and_break)
  end.

(** One send of a [Send] action. *)
Definition action_send (ticker : bool) (payload : option PayloadConfig) (expect : option (ReplyCheck N))
    (captures : list Capture) (s : Z * option SendSchedule) : Session (Z * option SendSchedule) :=
  let (seq, schedule) := s in
  let! cancelled := is_cancelled in
  when cancelled close_and_break ;;;
  let due := sc_next_due <$> schedule in
  wait_for_pace schedule ticker ;;;
  claim_or_stop ;;;
  let! plan := chaos_plan in
  if pl_drop plan then
    recording record_chaos_dropped ;;; mret (seq +u 1, advance <$> schedule)
  else
    let! (schedule, due) := delay_send plan schedule due in
    let! msg := render_message (default (cf_payload config) payload) seq in
    let! (msg, corrupted) := chaos_corrupt msg (pl_corrupt plan) in
    let sent := retain_for_exact_match msg in
    let! start_time := instant_now in
    send_data msg ;;;
    let! schedule :=
      (if awaits_replies (cf_mode config) then
         let! (outcome, unsolicited) := await_reply sent seq corrupted in
         recording (record_unsolicited_frames unsolicited) ;;;
         record_reply outcome (fun reply => record_reply_metrics reply corrupted expect captures due start_time) ;;;
         pause_after_reply schedule
       else mret schedule) in
    maybe_chaos_close ;;;
    mret (seq +u 1, advance <$> schedule).

Definition run_action (phase : ScenarioPhase N) (ticker : bool) (action : ScenarioAction N)
    (s : Z * option SendSchedule) : Session (Z * option SendSchedule) :=
  let! cancelled := is_cancelled in
  let! exhausted := max_requests_reached in
  when (cancelled || exhausted) (when exhausted cancel ;;; close_and_break) ;;;
  match action with
  | ActSend payload count expect captures name =>
      set_action name ;;;
      let! s := for_n (Z.to_nat count) (action_send ticker payload expect captures) s in
      set_action None ;;;
      let! ok := apply_think_time in
      when (negb ok) close_and_break ;;;
      let (seq, schedule) := s : Z * option SendSchedule in
      let! schedule := if ph_think_time phase =? 0 then mret schedule else restart_schedule schedule in
      mret (seq, schedule)
  | ActWait _ =>
      let! ok := sleep_unless_cancelled in
      when (negb ok) close_and_break ;;;
      let (seq, schedule) := s in
      let! schedule := restart_schedule schedule in
      mret (seq, schedule)
  | ActPing _ =>
      let! res := send (Ping (bytes_of_string "hb")) in
      match res with
      | Some err => recording (record_error (categorize_session_error err Write) Attempt) ;;; break_session
      | None => mret tt
      end ;;;
      let! ok := sleep_unless_cancelled in
      when (negb ok) close_and_break ;;;
      let (seq, schedule) := s in
      let! schedule := restart_schedule schedule in
      mret (seq, schedule)
  | ActClose code reason =>
      send_ignoring (Close (Some (mkCloseFrame code reason))) ;;; mexit Finished
  end.

Definition script_round (phase : ScenarioPhase N) (ticker : bool) (s : Z * option SendSchedule)
  : Session (Z * option SendSchedule) :=
  let! cancelled := is_cancelled in
  when cancelled close_and_break ;;;
  for_each (ph_actions phase) (run_action phase ticker) s.

Definition run_action_loop (phase : ScenarioPhase N) : Session SessionEnd :=
  modify (fun st => st <| st_vars := replicate (length (ph_vars phase)) ""%string |>) ;;;
  let echo := awaits_replies (cf_mode config) in
  let! schedule := if echo then new_schedule (cf_rate_per_conn config) else mret None in
  let ticker := negb echo && (0 <? cf_rate_per_conn config) in
  modify (fun st => st <| st_metrics ::= fun w => w <| wm_interval_uses_response := bool_decide (is_Some schedule) |> |>) ;;;
  forever (script_round phase ticker) (0, schedule).

(** *** GraphQL subscriptions *)

Definition protocol_failure {A} : Session A :=
  recording (record_error ProtocolError Attempt) ;;; mexit Finished.

Definition pong_reply {R} : M H R unit :=
  match gql_to_string GPong with
  | Some json => send_ignoring (Text json)
  | None => mret tt
  end.

(** Waiting for [connection_ack]; its exit is whether it came, or the end of
    the session. *)
Definition sent_failure {A} (category : ErrorCategory) : M H (SessionEnd + unit) A :=
  recording (record_error category SentMessage) ;;; let! e := session_end in mexit (inl e).

Definition ack_round (_ : unit) : M H (SessionEnd + unit) unit :=
  let! (arm, ob) := select ArmTimeout (ping_arm ++ [ArmRecv; ArmCancel]) in
  match arm with
  | ArmCancel => send_close ;;; let! e := session_end in mexit (inl e)
  | ArmPing => send_heartbeat
  | ArmRecv =>
      let! next := next_frame ob in
      match next with
      | Some (inl (Text text)) =>
          match gql_from_str text with
          | Some ConnectionAck => mexit (inr tt)
          | Some (ConnectionError _) => sent_failure ProtocolError
          | Some GPing => pong_reply
          | _ => mret tt
          end
      | Some (inl (Close _)) | None => sent_failure UnexpectedClose
      | Some (inr e) => sent_failure (categorize_session_error e Read)
      | Some (inl _) => mret tt
      end
  | _ => sent_failure Timeout
  end.

(** The subscription's loop; its exit is [(cancelled, complete)]. *)
Definition subscription_round (read_resume : option Z) : M H (bool * bool) (option Z) :=
  let! (arm, ob) := select (read_arm read_resume) (ping_arm ++ [ArmCancel]) in
  match arm with
  | ArmCancel => mexit (true, false)
  | ArmPing => send_heartbeat ;;; mret read_resume
  | ArmResume => mret None
  | _ =>
      let! next := next_frame ob in
      match next with
      | Some (inl (Text text)) =>
          match gql_from_str text with
          | Some (GData _ _ | Next _ _) =>
              let! now := gets st_now in
              recording (record_message_recv now (Z.of_nat (String.length text)) None) ;;;
              let! pause := chaos_read_pause in
              let! now := gets st_now in
              mret ((fun p => now + p) <$> pause)
          | Some (GError _ _ | ConnectionError _) =>
              recording (record_error ProtocolError Attempt) ;;; mret None
          | Some (Complete _) => mexit (false, true)
          | Some GPing => pong_reply ;;; mret None
          | _ => mret None
          end
      | Some (inl (Close _)) | None => mexit (false, false)
      | Some (inr e) =>
          recording (record_error (categorize_session_error e Read) Attempt) ;;; mexit (false, false)
      | Some (inl _) => mret None
      end
  end.

(** Sends a message that counts as sent. *)
Definition gql_send (msg : GraphQLWSMessage N) : Session unit :=
  match gql_to_string msg with
  | None => protocol_failure
  | Some json => send_data (Text json)
  end.

Definition run_graphql_ws_loop : Session SessionEnd :=
  match cf_graphql_ws config with
  | None => protocol_failure
  | Some graphql_config =>
      let legacy_protocol :=
        match cf_subprotocol config with Some value => eq_ignore_ascii_case value "graphql-ws" | None => false end in
      gql_send (ConnectionInit None) ;;;
      let! acked := returning (forever ack_round tt) in
      match acked with
      | inl e => mret e
      | inr _ =>
          let start_payload := mkGraphQLWSStartPayload (gc_operation graphql_config)
            (gc_operation_name graphql_config) (gc_variables graphql_config) (gc_extensions graphql_config) in
          let subscription_id := ("wsblast-sub-" ++ display_u64 worker_id)%string in
          gql_send (if legacy_protocol then Start subscription_id start_payload
                    else Subscribe subscription_id start_payload) ;;;
          let! (cancelled, subscription_complete) := returning (forever subscription_round None) in
          match gql_to_string (if legacy_protocol then Stop subscription_id else Complete subscription_id) with
          | None => protocol_failure
          | Some stop_json =>
              send_ignoring (Text stop_json) ;;;
              if cancelled : bool then send_close ;;; mret Finished
              else if negb subscription_complete then
                recording (record_error UnexpectedClose Attempt) ;;; session_end
              else mret Finished
          end
      end
  end.

(** ** Connections *)

Inductive Handshake := HsOpen | HsFailed | HsStop.

(** [run_socketio] is the Socket.IO session. *)
Definition mode_loop (run_socketio : Session SessionEnd) : Session SessionEnd :=
  if decide (cf_mode config = SocketIo) then run_socketio
  else
    let by_mode :=
      match cf_mode config with
      | Echo => run_echo_loop
      | Stream => run_stream_loop
      | Listen => run_listen_loop
      | GraphQLWS => run_graphql_ws_loop
      | SocketIo => mret Lost
      end in
    match scenario with
    | Some phase => if decide (ph_actions phase = []) then by_mode else run_action_loop phase
    | None => by_mode
    end.

Definition handshake (connected_before : bool) : M H unit Handshake :=
  modify (fun st => st <| st_metrics ::= fun w => w <| wm_current_action := None |> |>) ;;;
  let! handshake_start := instant_now in
  let! (arm, ob) := select_biased in
  if decide (arm = ArmCancel) then
    modify (fun st => st <| st_metrics ::= fun w =>
      if negb connected_before && bool_decide (wm_errors w = ∅)
      then w <| wm_interrupted := true |> else w |>) ;;;
    mret HsStop
  else
    match ob_connect ob with
    | Connected =>
        modify (fun st => st <| st_history ::= fun h => Opened :: h |>) ;;;
        let! now := gets st_now in
        let elapsed := saturating_duration_since now handshake_start in
        recording (if connected_before then record_reconnect elapsed else record_handshake elapsed) ;;;
        mret HsOpen
    | ConnectStatic cat => recording (record_connection_failed cat) ;;; mret HsStop
    | ConnectFailed err =>
        recording (record_connection_failed (categorize_tungstenite_error err)) ;;; mret HsFailed
    | ConnectTimeout => recording (record_connection_failed Timeout) ;;; mret HsFailed
    end.

(** One round of [run]: a connection and its session, then the wait before
    the next attempt. *)
Definition run_round (session : Session SessionEnd) (s : bool * Z) : M H unit (bool * Z) :=
  let (connected_before, backoff) := s in
  let! hs := handshake connected_before in
  match hs with
  | HsStop => mexit tt
  | HsOpen => let! e := returning session in
              recording record_connection_closed ;;;
              when (bool_decide (e = Finished)) (mexit tt)
  | HsFailed => mret tt
  end ;;;
  let (connected_before, backoff) :=
    match hs with HsOpen => (true, backoff_reset backoff) | _ => (connected_before, backoff) end in
  let! cancelled := is_cancelled in
  when (cf_no_reconnect config || cancelled) (mexit tt) ;;;
  let (_, backoff) := next_delay backoff in
  let! ok := sleep_unless_cancelled in
  when (negb ok) (mexit tt) ;;;
  mret (connected_before, backoff).

(** [handshake_request] is the error of building the handshake request, if
    it fails. *)
Definition run (session : Session SessionEnd) (handshake_request : option ErrorCategory) : M H unit unit :=
  match handshake_request with
  | Some cat => recording (record_connection_failed cat)
  | None => returning (forever (run_round session) (false, ReconnectBackoff_new))
  end.

End Worker.
