(* ===== verification/Accounting.v ===== *)
(** * What a session counts

    A small program logic for the sessions of Worker.v, and what follows for
    the numbers a worker reports: every frame it counts crossed the socket,
    and every error counted against a message belongs to a message of its
    own. *)

From Stdlib Require Import ZArith Lia Ascii String.
From stdpp Require Import base tactics strings numbers option gmap list.
From S2P Require Import Prelude RustStd Str Hdr Histogram Live TimeSeries Summaries Metrics Wire Chaos Json.
From S2P Require Import Reply Data Template Session Worker.

Local Open Scope Z_scope.
Local Open Scope rust_scope.

(** ** Counters of a worker's metrics *)

(** The last one: the errors of failed checks. *)
Record Counts := mkCounts { n_sent : Z; n_recv : Z; n_unsolicited : Z; n_sent_errors : Z; n_checks : Z }.
#[export] Instance Counts_eta : Settable Counts := fun c =>
  mkCounts (n_sent c) (n_recv c) (n_unsolicited c) (n_sent_errors c) (n_checks c).

Definition counts (w : WorkerMetrics) : Counts :=
  mkCounts (wm_messages_sent w) (wm_messages_recv w) (wm_unsolicited_frames w) (wm_sent_message_errors w)
    (default 0 (wm_errors w !! CheckFailed)).

Section Operations.
Context {H : Type} `{Hdr H}.
Local Abbreviation cell := (WorkerMetrics * RunShared H)%type.
Implicit Types st : cell.

Lemma counts_on_recorder f st : counts (on_recorder_of f st).1 = counts st.1.
Proof. done. Qed.

Lemma counts_on_interval f st : counts (on_interval f st).1 = counts st.1.
Proof. unfold on_interval. destruct (wm_interval st.1); [|done]. by destruct (f _). Qed.

Lemma counts_counters_add c n st : counts (counters_add c n st).1 = counts st.1.
Proof. done. Qed.

Lemma counts_update_action f w : counts (update_action f w) = counts w.
Proof. unfold update_action. by destruct (wm_current_action w). Qed.

Lemma counts_on_chaos f st : counts (on_chaos f st).1 = counts st.1.
Proof. done. Qed.

Lemma counts_message_sent bytes st :
  counts (record_message_sent bytes st).1 = (counts st.1) <| n_sent ::= fun n => n +u 1 |>.
Proof.
  unfold record_message_sent. rewrite !counts_counters_add. cbn [fst on_worker]. by rewrite counts_update_action.
Qed.

Lemma counts_message_recv now bytes rtt st :
  counts (record_message_recv now bytes rtt st).1 = (counts st.1) <| n_recv ::= fun n => n +u 1 |>.
Proof.
  unfold record_message_recv. rewrite !counts_counters_add. destruct rtt as [rtt|]; [|done].
  cbv zeta. destruct_matches; rewrite ?counts_on_interval, ?counts_on_recorder; done.
Qed.

Lemma counts_response_time now duration st : counts (record_response_time now duration st).1 = counts st.1.
Proof.
  unfold record_response_time. cbv zeta. rewrite counts_on_interval.
  destruct_matches; by rewrite !counts_on_recorder.
Qed.

Lemma counts_unsolicited count st :
  is_u64 (wm_unsolicited_frames st.1) ->
  counts (record_unsolicited_frames count st).1 = (counts st.1) <| n_unsolicited ::= fun n => n +u count |>.
Proof.
  intros Hu. unfold record_unsolicited_frames. destruct (Z.eqb_spec count 0) as [->|]; [|by rewrite counts_counters_add].
  unfold counts. cbn. by rewrite u64_add_0_r.
Qed.

Lemma counts_error cat scope st :
  counts (record_error cat scope st).1 =
    (if decide (cat = CheckFailed) then fun c => c <| n_checks ::= fun n => n +u 1 |> else id)
      (if decide (scope = SentMessage) then (counts st.1) <| n_sent_errors ::= fun n => n +u 1 |> else counts st.1).
Proof.
  unfold record_error. rewrite counts_counters_add. cbn [fst on_worker]. rewrite counts_update_action.
  destruct (decide (cat = CheckFailed)) as [->|]; case_decide; unfold counts; cbn;
    by rewrite ?lookup_insert_eq, ?lookup_insert_ne by done.
Qed.

End Operations.

(** ** The logic *)

Definition frames (f : Event -> bool) (h : list Event) : Z := Z.of_nat (length (List.filter f h)).
Definition sent_data (e : Event) : bool := match e with SentFrame m => is_data_frame m | _ => false end.
Definition read_data (e : Event) : bool := match e with ReadFrame m => is_data_frame m | _ => false end.
Definition is_close_frame (m : Message) : bool := match m with Close _ => true | _ => false end.
Definition read_close (e : Event) : bool := match e with ReadFrame m => is_close_frame m | _ => false end.

(** What a session has done since it started: data frames sent and read,
    what its metrics counted, the Close frames it read, and whether it saw
    the run cancelled. *)
Record Acct := mkAcct {
  a_out : Z;
  a_in : Z;
  a_counts : Counts;
  a_closed : Z;
  a_cancelled : bool;
}.
#[export] Instance Acct_eta : Settable Acct := fun a =>
  mkAcct (a_out a) (a_in a) (a_counts a) (a_closed a) (a_cancelled a).
Definition Acct_zero : Acct := mkAcct 0 0 (mkCounts 0 0 0 0 0) 0 false.

Section Logic.
Context {H : Type} `{Hdr H}.

(** [st] is what [st0] became while [a] was done; the metrics count modulo
    2^64. *)
Variable st0 : State H.

Definition counted (get : Counts -> Z) (st : State H) (a : Acct) : Prop :=
  get (counts (st_metrics st)) = wrap 64 (get (counts (st_metrics st0)) + get (a_counts a)).

Definition tracks (st : State H) (a : Acct) : Prop :=
  (counted n_sent st a /\ counted n_recv st a) /\
  (counted n_unsolicited st a /\ counted n_sent_errors st a /\ counted n_checks st a) /\
  frames sent_data (st_history st) = frames sent_data (st_history st0) + a_out a /\
  frames read_data (st_history st) = frames read_data (st_history st0) + a_in a /\
  frames read_close (st_history st) = frames read_close (st_history st0) + a_closed a /\
  (a_cancelled a = true -> st_cancelled st = true).

(** Started in a state that tracks [a], [m] ends with a value for which [Q],
    exits with one for which [X], or is stuck where [E] holds. *)
Definition wp {R A} (m : M H R A) (Q : A -> Acct -> Prop) (X : R -> Acct -> Prop) (E : Acct -> Prop)
    (a : Acct) : Prop :=
  forall st, tracks st a ->
  match m st with
  | (Val x, st') => exists a', tracks st' a' /\ Q x a'
  | (Exit r, st') => exists a', tracks st' a' /\ X r a'
  | (Stuck, st') => exists a', tracks st' a' /\ E a'
  end.

Implicit Types a : Acct.

Lemma wp_ret {R A} (x : A) Q (X : R -> Acct -> Prop) E a : Q x a -> wp (mret x) Q X E a.
Proof. intros HQ st Ht. exists a. auto. Qed.

Lemma wp_exit {R A} r (Q : A -> Acct -> Prop) (X : R -> Acct -> Prop) E a : X r a -> wp (mexit r) Q X E a.
Proof. intros HQ st Ht. exists a. auto. Qed.

Lemma wp_seq {R A B} (m : M H R A) (f : A -> M H R B) Q X E a :
  wp m (fun x a' => wp (f x) Q X E a') X E a -> wp (mseq m f) Q X E a.
Proof.
  intros Hm st Ht. specialize (Hm st Ht). unfold mseq. destruct (m st) as [[x|r|] st']; [|done..].
  destruct Hm as (a' & Ht' & Hf). exact (Hf st' Ht').
Qed.

Lemma wp_mono {R A} (m : M H R A) Q Q' X X' (E E' : Acct -> Prop) a :
  wp m Q X E a -> (forall x a, Q x a -> Q' x a) -> (forall r a, X r a -> X' r a) -> (forall a, E a -> E' a) ->
  wp m Q' X' E' a.
Proof.
  intros Hm HQ HX HE st Ht. specialize (Hm st Ht). destruct (m st) as [[x|r|] st']; naive_solver.
Qed.

Lemma wp_when {R} (b : bool) (m : M H R unit) Q X E a :
  (b = true -> wp m Q X E a) -> (b = false -> Q tt a) -> wp (when b m) Q X E a.
Proof. intros Ht Hf. destruct b; [by apply Ht|apply wp_ret; by apply Hf]. Qed.

Lemma wp_gets {R A} (f : State H -> A) Q (X : R -> Acct -> Prop) E a : (forall x, Q x a) -> wp (gets f) Q X E a.
Proof. intros HQ st Ht. exists a. auto. Qed.

Lemma wp_observe {R} Q (X : R -> Acct -> Prop) (E : Acct -> Prop) a :
  E a -> (forall ob, Q ob a) -> wp observe Q X E a.
Proof.
  intros HE HQ st Ht. unfold observe. destruct (st_script st) as [|ob script]; exists a; [auto|].
  split; [|done]. destruct Ht as (H1 & H2 & H3 & H4 & H5 & H6). do 5 (split; [done|]).
  intros Hc. cbn. by rewrite H6.
Qed.

(** Seeing that the run is cancelled. *)
Lemma wp_gets_cancelled {R} Q (X : R -> Acct -> Prop) E a :
  Q true (a <| a_cancelled := true |>) -> Q false a -> wp (gets st_cancelled) Q X E a.
Proof.
  intros Ht Hf st (H1 & H2 & H3 & H4 & H5 & H6). unfold gets. destruct (st_cancelled st) eqn:Hc.
  - exists (a <| a_cancelled := true |>). split; [|done]. do 5 (split; [done|]). by intros _.
  - exists a. split; [|done]. do 5 (split; [done|]). intros Ha. rewrite Hc. auto.
Qed.

(** An update that leaves the tracked parts alone. *)
Definition unmoved (st st' : State H) : Prop :=
  counts (st_metrics st') = counts (st_metrics st) /\
  frames sent_data (st_history st') = frames sent_data (st_history st) /\
  frames read_data (st_history st') = frames read_data (st_history st) /\
  frames read_close (st_history st') = frames read_close (st_history st) /\
  (st_cancelled st = true -> st_cancelled st' = true).
Lemma wp_frame {R A} (m : M H R A) Q (X : R -> Acct -> Prop) E a :
  (forall st, exists x st', m st = (Val x, st') /\ unmoved st st') ->
  (forall x, Q x a) -> wp m Q X E a.
Proof.
  intros Hm HQ st Ht. destruct (Hm st) as (x & st' & -> & Hc & Ho & Hi & Hcl & Hx). exists a. split; [|done].
  unfold tracks, counted in *. rewrite Hc, Ho, Hi, Hcl. naive_solver.
Qed.

Lemma wp_returning {R A} (m : M H A A) Q (X : R -> Acct -> Prop) E a :
  wp m Q Q E a -> wp (returning m) Q X E a.
Proof. intros Hm st Ht. specialize (Hm st Ht). unfold returning. by destruct (m st) as [[x|r|] st']. Qed.

Lemma wp_loop {R S} (I : S -> Acct -> Prop) (body : S -> M H R S) Q X (E : Acct -> Prop) :
  (forall s a, I s a -> wp (body s) I X E a) -> (forall s a, I s a -> E a) ->
  forall fuel s a, I s a -> wp (loop fuel body s) Q X E a.
Proof.
  intros Hbody HE. induction fuel as [|fuel IH]; intros s a HI st Ht; cbn [loop]; [exists a; eauto|].
  specialize (Hbody s a HI st Ht). destruct (body s st) as [[s'|r|] st']; [|done..].
  destruct Hbody as (a' & Ht' & HI'). exact (IH s' a' HI' st' Ht').
Qed.

Lemma wp_forever {R S} (I : S -> Acct -> Prop) (body : S -> M H R S) s Q X (E : Acct -> Prop) a :
  (forall s a, I s a -> wp (body s) I X E a) -> (forall s a, I s a -> E a) -> I s a ->
  wp (forever body s) Q X E a.
Proof. intros Hbody HE HI st. by apply (wp_loop I). Qed.

(** *** Recording *)

(** Each counter [c] goes up by [d]'s. *)
Definition bump (d c : Counts) : Counts :=
  mkCounts (n_sent c + n_sent d) (n_recv c + n_recv d) (n_unsolicited c + n_unsolicited d)
    (n_sent_errors c + n_sent_errors d) (n_checks c + n_checks d).
Definition wrap_counts (c : Counts) : Counts :=
  mkCounts (wrap 64 (n_sent c)) (wrap 64 (n_recv c)) (wrap 64 (n_unsolicited c)) (wrap 64 (n_sent_errors c))
    (wrap 64 (n_checks c)).

Lemma wp_bump {R} f d Q (X : R -> Acct -> Prop) E a :
  (forall w s, wrap_counts (counts w) = counts w -> counts (f (w, s)).1 = wrap_counts (bump d (counts w))) ->
  Q tt (a <| a_counts ::= bump d |>) -> wp (recording f) Q X E a.
Proof.
  intros Hf HQ st Ht. unfold recording, modify.
  destruct (f (st_metrics st, st_shared st)) as [w s] eqn:Ef.
  exists (a <| a_counts ::= bump d |>). split; [|done].
  destruct Ht as ((H1 & H2) & (H3 & H4 & H4') & H5 & H6 & H7 & H8). unfold counted in *.
  assert (counts w = wrap_counts (bump d (counts (st_metrics st)))) as Hw.
  { rewrite <- Hf with (s := st_shared st); [by rewrite Ef|]. unfold wrap_counts.
    rewrite H1, H2, H3, H4, H4', !wrap_wrap, <- H1, <- H2, <- H3, <- H4, <- H4'. by destruct (counts (st_metrics st)). }
  unfold tracks, counted. cbn [st_metrics st_history st_cancelled set_field a_counts a_out a_in a_closed a_cancelled]. rewrite Hw.
  cbn [wrap_counts bump n_sent n_recv n_unsolicited n_sent_errors n_checks].
  rewrite H1, H2, H3, H4, H4', !wrap_add_l, !Z.add_assoc. done.
Qed.

Lemma counts_bumped (c d c' : Counts) :
  wrap_counts c = c ->
  c' = mkCounts (n_sent c +u n_sent d) (n_recv c +u n_recv d) (n_unsolicited c +u n_unsolicited d)
         (n_sent_errors c +u n_sent_errors d) (n_checks c +u n_checks d) -> c' = wrap_counts (bump d c).
Proof. intros _ ->. done. Qed.

Lemma wrapped_range c : wrap_counts c = c ->
  is_u64 (n_sent c) /\ is_u64 (n_recv c) /\ is_u64 (n_unsolicited c) /\ is_u64 (n_sent_errors c) /\ is_u64 (n_checks c).
Proof. intros <-. cbn. auto 6 using u64_range. Qed.

Lemma wp_record_sent {R} bytes Q (X : R -> Acct -> Prop) E a :
  Q tt (a <| a_counts ::= bump (mkCounts 1 0 0 0 0) |>) -> wp (recording (record_message_sent bytes)) Q X E a.
Proof.
  apply wp_bump. intros w s Hc. apply counts_bumped; [done|]. rewrite counts_message_sent.
  apply wrapped_range in Hc as (?&?&?&?&?). cbn in *. by rewrite !u64_add_0_r.
Qed.

Lemma wp_record_recv {R} now bytes rtt Q (X : R -> Acct -> Prop) E a :
  Q tt (a <| a_counts ::= bump (mkCounts 0 1 0 0 0) |>) -> wp (recording (record_message_recv now bytes rtt)) Q X E a.
Proof.
  apply wp_bump. intros w s Hc. apply counts_bumped; [done|]. rewrite counts_message_recv.
  apply wrapped_range in Hc as (?&?&?&?&?). cbn in *. by rewrite !u64_add_0_r.
Qed.

Lemma wp_record_unsolicited {R} count Q (X : R -> Acct -> Prop) E a :
  Q tt (a <| a_counts ::= bump (mkCounts 0 0 count 0 0) |>) -> wp (recording (record_unsolicited_frames count)) Q X E a.
Proof.
  apply wp_bump. intros w s Hc. apply counts_bumped; [done|].
  apply wrapped_range in Hc as (?&?&?&?&?). rewrite counts_unsolicited by done. cbn in *. by rewrite !u64_add_0_r.
Qed.

Lemma wp_record_error {R} cat scope Q (X : R -> Acct -> Prop) E a :
  Q tt (a <| a_counts ::= bump (mkCounts 0 0 0 (if decide (scope = SentMessage) then 1 else 0)
                                  (if decide (cat = CheckFailed) then 1 else 0)) |>) ->
  wp (recording (record_error cat scope)) Q X E a.
Proof.
  apply wp_bump. intros w s Hc. apply counts_bumped; [done|]. rewrite counts_error.
  apply wrapped_range in Hc as (?&?&?&?&?). repeat case_decide; cbn in *; by rewrite !u64_add_0_r.
Qed.

Lemma wp_sent_error {R} cat Q (X : R -> Acct -> Prop) E a :
  cat <> CheckFailed -> Q tt (a <| a_counts ::= bump (mkCounts 0 0 0 1 0) |>) ->
  wp (recording (record_error cat SentMessage)) Q X E a.
Proof. intros Hcat HQ. apply wp_record_error. by rewrite (decide_False (P := cat = CheckFailed)) by done. Qed.

Lemma wp_check_error {R} Q (X : R -> Acct -> Prop) E a :
  Q tt (a <| a_counts ::= bump (mkCounts 0 0 0 1 1) |>) -> wp (recording (record_error CheckFailed SentMessage)) Q X E a.
Proof. intros HQ. apply wp_record_error. exact HQ. Qed.

Lemma bump_0 c : bump (mkCounts 0 0 0 0 0) c = c.
Proof. destruct c. unfold bump. cbn. by rewrite !Z.add_0_r. Qed.

Lemma wp_attempt_error {R} cat Q (X : R -> Acct -> Prop) E a :
  cat <> CheckFailed -> Q tt a -> wp (recording (record_error cat Attempt)) Q X E a.
Proof.
  intros Hcat HQ. apply wp_record_error. rewrite (decide_False (P := cat = CheckFailed)) by done.
  destruct a as [o i c cl ca]. cbn [set_field].
  change (if decide (Attempt = SentMessage) is left _ then 1 else 0) with 0. by rewrite bump_0.
Qed.

(** *** The socket *)

Definition count_if (b : bool) : Z := if b then 1 else 0.

Lemma frames_cons f e h : frames f (e :: h) = count_if (f e) + frames f h.
Proof. unfold frames, count_if. cbn. destruct (f e); cbn [length]; lia. Qed.

Lemma wp_sent_frame {R} m Q (X : R -> Acct -> Prop) E a :
  Q tt (a <| a_out ::= fun n => n + count_if (is_data_frame m) |>) ->
  wp (modify (fun st => st <| st_history ::= fun h => SentFrame m :: h |>)) Q X E a.
Proof.
  intros HQ st (H1 & H2 & H3 & H4 & H5 & H6). eexists. split; [|exact HQ]. split; [exact H1|]. split; [exact H2|].
  cbn [st_history st_cancelled set_field a_out a_in a_closed a_cancelled modify].
  rewrite !frames_cons. cbn [sent_data read_data read_close].
  change (count_if false) with 0. repeat split; lia || done.
Qed.

(** Reading [m]. *)
Definition read_of (m : Message) (a : Acct) : Acct :=
  a <| a_in ::= fun n => n + count_if (is_data_frame m) |> <| a_closed ::= fun n => n + count_if (is_close_frame m) |>.

Lemma wp_read_frame {R} m Q (X : R -> Acct -> Prop) E a :
  Q tt (read_of m a) ->
  wp (modify (fun st => st <| st_history ::= fun h => ReadFrame m :: h |>)) Q X E a.
Proof.
  intros HQ st (H1 & H2 & H3 & H4 & H5 & H6). eexists. split; [|exact HQ]. split; [exact H1|]. split; [exact H2|].
  cbn [st_history st_cancelled set_field read_of a_out a_in a_closed a_cancelled modify].
  rewrite !frames_cons. cbn [sent_data read_data read_close].
  change (count_if false) with 0. repeat split; lia || done.
Qed.

(** *** Computations that count nothing *)

Class Quiet {R A} (m : M H R A) :=
  quiet : forall Q X (E : Acct -> Prop) a,
    E a -> (forall x, Q x a) -> (forall r, X r a) -> wp m Q X E a.

(** Computations that count nothing and never exit. *)
Class Silent {R A} (m : M H R A) :=
  silent : forall Q (X : R -> Acct -> Prop) (E : Acct -> Prop) a, E a -> (forall x, Q x a) -> wp m Q X E a.

#[export] Instance silent_quiet {R A} (m : M H R A) : Silent m -> Quiet m | 10.
Proof. intros Hm Q X E a HE HQ _. by apply Hm. Qed.

#[export] Instance silent_ret {R A} (x : A) : Silent (R := R) (mret x).
Proof. intros Q X E a _ HQ. by apply wp_ret. Qed.
#[export] Instance silent_seq {R A B} (m : M H R A) (f : A -> M H R B) :
  Silent m -> (forall x, Silent (f x)) -> Silent (mseq m f).
Proof. intros Hm Hf Q X E a HE HQ. apply wp_seq, Hm; [done|]. intros x. by apply Hf. Qed.
#[export] Instance silent_when {R} b (m : M H R unit) : Silent m -> Silent (when b m).
Proof. intros Hm Q X E a HE HQ. apply wp_when; [intros _; by apply Hm|auto]. Qed.
#[export] Instance silent_gets {R A} (f : State H -> A) : Silent (R := R) (gets f).
Proof. intros Q X E a _ HQ. by apply wp_gets. Qed.
#[export] Instance silent_observe {R} : Silent (R := R) observe.
Proof. intros Q X E a HE HQ. by apply wp_observe. Qed.
#[export] Instance silent_look {R} : Silent (R := R) look.
Proof.
  intros Q X E a HE HQ st Ht.
  pose proof (wp_observe (R := R) (fun _ a' => a' = a) (fun _ _ => False) (fun a' => a' = a) a eq_refl (fun _ => eq_refl) st Ht) as Ho.
  unfold look. destruct (observe st) as [[x|r|] st']; [|by destruct Ho as (?&?&[])|];
    destruct Ho as (a' & Ht' & ->); exists a; auto.
Qed.
#[export] Instance silent_returning {R A} (m : M H A A) : Quiet m -> Silent (R := R) (returning m).
Proof. intros Hm Q X E a HE HQ. apply wp_returning. by apply Hm. Qed.
#[export] Instance silent_if {R A} (b : bool) (m1 m2 : M H R A) : Silent m1 -> Silent m2 -> Silent (if b then m1 else m2).
Proof. by destruct b. Qed.

#[export] Instance quiet_exit {R A} r : Quiet (R := R) (A := A) (mexit r).
Proof. intros Q X E a _ _ HX. by apply wp_exit. Qed.
#[export] Instance quiet_seq {R A B} (m : M H R A) (f : A -> M H R B) :
  Quiet m -> (forall x, Quiet (f x)) -> Quiet (mseq m f) | 5.
Proof. intros Hm Hf Q X E a HE HQ HX. apply wp_seq, Hm; [done| |done]. intros x. by apply Hf. Qed.
#[export] Instance quiet_when {R} b (m : M H R unit) : Quiet m -> Quiet (when b m) | 5.
Proof. intros Hm Q X E a HE HQ HX. apply wp_when; [intros _; by apply Hm|auto]. Qed.
#[export] Instance quiet_forever {R S} (body : S -> M H R S) s : (forall s, Quiet (body s)) -> Quiet (forever body s).
Proof.
  intros Hb Q X E a HE HQ HX. apply (wp_forever (fun _ a' => a' = a)); [|by intros ?? ->|done].
  intros s' a' ->. by apply Hb.
Qed.
#[export] Instance quiet_if {R A} (b : bool) (m1 m2 : M H R A) : Quiet m1 -> Quiet m2 -> Quiet (if b then m1 else m2) | 5.
Proof. by destruct b. Qed.

Lemma wp_quiet {R A B} (m : M H R A) (f : A -> M H R B) `{!Quiet m} Q X (E : Acct -> Prop) a :
  E a -> (forall r, X r a) -> (forall x, wp (f x) Q X E a) -> wp (mseq m f) Q X E a.
Proof. intros HE HX Hf. apply wp_seq, quiet; auto. Qed.
Lemma wp_silent {R A B} (m : M H R A) (f : A -> M H R B) `{!Silent m} Q X (E : Acct -> Prop) a :
  E a -> (forall x, wp (f x) Q X E a) -> wp (mseq m f) Q X E a.
Proof. intros HE Hf. apply wp_seq, silent; auto. Qed.

Lemma silent_frame {R A} (m : M H R A) :
  (forall st, exists x st', m st = (Val x, st') /\ unmoved st st') -> Silent m.
Proof. intros Hm Q X E a _ HQ. by apply wp_frame. Qed.

Lemma silent_recording {R} f : (forall c, counts (f c).1 = counts c.1) -> Silent (R := R) (recording f).
Proof.
  intros Hf. apply silent_frame. intros st. unfold recording, modify.
  pose proof (Hf (st_metrics st, st_shared st)) as Hc. destruct (f _) as [w s]. by eexists _, _.
Qed.

Lemma wp_send {R} m Q (X : R -> Acct -> Prop) (E : Acct -> Prop) a :
  E a -> (forall err, Q (Some err) a) -> Q None (a <| a_out ::= fun n => n + count_if (is_data_frame m) |>) ->
  wp (send m) Q X E a.
Proof.
  intros HE Herr HQ. unfold send. apply wp_seq, wp_observe; [done|]. intros ob.
  destruct (ob_send ob); [by apply wp_ret|]. apply wp_seq, wp_sent_frame, wp_ret, HQ.
Qed.

Lemma acct_out_0 a : a <| a_out ::= fun n => n + 0 |> = a.
Proof. destruct a. cbn. by rewrite Z.add_0_r. Qed.

Lemma silent_send {R} m : is_data_frame m = false -> Silent (R := R) (send m).
Proof.
  intros Hm Q X E a HE HQ. apply wp_send; [done|done|]. rewrite Hm. change (count_if false) with 0.
  by rewrite acct_out_0.
Qed.

Lemma wp_next_frame {R} ob Q (X : R -> Acct -> Prop) (E : Acct -> Prop) a :
  (forall o, (forall m, o <> Some (inl m)) -> Q o a) ->
  (forall m, Q (Some (inl m)) (read_of m a)) ->
  wp (next_frame ob) Q X E a.
Proof.
  intros Ho Hm. unfold next_frame. destruct (ob_next ob) as [[m|e]|].
  - apply wp_seq, wp_read_frame, wp_ret, Hm.
  - apply wp_ret. by apply Ho.
  - apply wp_ret. by apply Ho.
Qed.

End Logic.

(** ** The sessions *)

#[export] Hint Mode Quiet - - - - ! : typeclass_instances.
#[export] Hint Mode Silent - - - - ! : typeclass_instances.

Section Sessions.
Context {H : Type} `{Hdr H} {N : Type} `{SerdeJson N} `{GraphQLCodec N}.
Variable config : LoadTestConfig N.
Variable scenario : option (ScenarioPhase N).
Variable worker_id : Z.
Variable st0 : State H.


#[local] Instance silent_cancel {R} : Silent st0 (R := R) cancel.
Proof. apply silent_frame. intros st. by eexists _, _. Qed.
#[local] Instance silent_is_cancelled {R} : Silent st0 (R := R) is_cancelled.
Proof. unfold is_cancelled. apply _. Qed.
#[local] Instance silent_instant_now {R} : Silent st0 (R := R) instant_now.
Proof. unfold instant_now. apply _. Qed.
#[local] Instance silent_send_ignoring {R} m : is_data_frame m = false -> Silent st0 (R := R) (send_ignoring m).
Proof. intros Hm. unfold send_ignoring. apply silent_seq; [by apply silent_send|apply _]. Qed.
#[local] Hint Extern 1 (is_data_frame _ = false) => reflexivity : typeclass_instances.
#[local] Instance silent_send_close {R} : Silent st0 (R := R) send_close.
Proof. by apply silent_send_ignoring. Qed.
#[local] Instance silent_send_heartbeat {R} : Silent st0 (R := R) send_heartbeat.
Proof. by apply silent_send_ignoring. Qed.
#[local] Instance silent_session_end {R} : Silent st0 (R := R) session_end.
Proof. unfold session_end. apply _. Qed.
#[local] Instance quiet_break_session {A} : Quiet st0 (A := A) break_session.
Proof. unfold break_session. apply _. Qed.
#[local] Instance quiet_close_and_break {A} : Quiet st0 (A := A) close_and_break.
Proof. unfold close_and_break. apply _. Qed.
#[local] Instance silent_select {R} first others : Silent st0 (R := R) (select first others).
Proof. unfold select. apply silent_seq; [apply _|]. intros ob. apply silent_seq; [apply _|]. intros c. repeat case_decide; apply _. Qed.
#[local] Instance silent_select_biased {R} : Silent st0 (R := R) select_biased.
Proof. unfold select_biased. apply silent_seq; [apply _|]. intros ob. apply silent_seq; [apply _|]. intros []; [apply _|]. case_decide; apply _. Qed.
#[local] Instance silent_sleep {R} : Silent st0 (R := R) sleep_unless_cancelled.
Proof. unfold sleep_unless_cancelled. apply silent_seq; [apply _|]. intros []. apply _. Qed.

#[local] Instance silent_claim_send : Silent st0 (claim_send config).
Proof.
  unfold claim_send. destruct (cf_max_requests config) as [max|]; [|apply _].
  apply silent_frame. intros st. destruct (claim_request max _) as [[] live]; eexists _, _; (split; [reflexivity|]);
    cbn [st_metrics st_history set_field]; rewrite ?frames_cons; done.
Qed.
#[local] Instance quiet_claim_or_stop : Quiet st0 (claim_or_stop config).
Proof. unfold claim_or_stop. apply _. Qed.
#[local] Instance silent_max_requests_reached : Silent st0 (max_requests_reached config).
Proof. unfold max_requests_reached. destruct (cf_max_requests config); apply _. Qed.
#[local] Instance silent_think : Silent st0 (apply_think_time scenario).
Proof. unfold apply_think_time. destruct scenario; apply _. Qed.

#[local] Instance silent_chaos_plan : Silent st0 chaos_plan.
Proof.
  apply silent_frame. intros st. unfold chaos_plan. destruct (st_chaos st); [|by eexists _, _].
  destruct (plan_send _). by eexists _, _.
Qed.
#[local] Instance silent_chaos_close_now : Silent st0 chaos_close_now.
Proof.
  apply silent_frame. intros st. unfold chaos_close_now. destruct (st_chaos st); [|by eexists _, _].
  destruct (close_now _). by eexists _, _.
Qed.
#[local] Instance silent_on_chaos {R} f : Silent st0 (R := R) (recording (on_chaos f)).
Proof. by apply silent_recording. Qed.
#[local] Instance silent_chaos_delay : Silent st0 chaos_delay.
Proof. unfold chaos_delay. apply silent_seq; [apply silent_on_chaos|apply _]. Qed.
#[local] Instance silent_chaos_read_pause {R} : Silent st0 (R := R) chaos_read_pause.
Proof.
  apply silent_frame. intros st. unfold chaos_read_pause. destruct (st_chaos st); [|by eexists _, _].
  destruct (read_pause _) as [[p|] ch]; by eexists _, _.
Qed.
#[local] Instance silent_chaos_corrupt m b : Silent st0 (chaos_corrupt m b).
Proof.
  apply silent_frame. intros st. unfold chaos_corrupt. destruct (st_chaos st); [|by eexists _, _].
  destruct b; [|by eexists _, _]. destruct (corrupt m _) as [[m' []] ch]; by eexists _, _.
Qed.
#[local] Instance quiet_chaos_close {A} graceful : Quiet st0 (chaos_close (A := A) graceful).
Proof.
  unfold chaos_close. apply quiet_seq; [apply silent_quiet, silent_on_chaos|]. intros _. apply _.
Qed.
#[local] Instance quiet_maybe_chaos_close : Quiet st0 maybe_chaos_close.
Proof. unfold maybe_chaos_close. apply quiet_seq; [apply _|]. intros []; apply _. Qed.
#[local] Instance silent_dropped {R} : Silent st0 (R := R) (recording record_chaos_dropped).
Proof. apply silent_on_chaos. Qed.

#[local] Instance silent_render p seq : Silent st0 (render_message config worker_id p seq).
Proof. unfold render_message. destruct p; apply _. Qed.
#[local] Instance silent_new_schedule rate : Silent st0 (new_schedule rate).
Proof. unfold new_schedule. apply _. Qed.
#[local] Instance silent_restart s : Silent st0 (restart_schedule s).
Proof. unfold restart_schedule. destruct s; apply _. Qed.
#[local] Instance quiet_pause s : Quiet st0 (pause_after_reply s).
Proof. unfold pause_after_reply. apply quiet_seq; [apply _|]. intros []; unfold chaos_pause; apply _. Qed.
#[local] Instance quiet_delay plan s due : Quiet st0 (delay_send plan s due).
Proof. unfold delay_send. apply _. Qed.
#[local] Instance quiet_wait_round u : Quiet st0 (wait_round config u).
Proof. unfold wait_round. apply quiet_seq; [apply _|]. intros [[] ob]; apply _. Qed.
#[local] Instance quiet_wait_for_slot : Quiet st0 (wait_for_slot config).
Proof. unfold wait_for_slot. apply _. Qed.
#[local] Instance quiet_poll : Quiet st0 (poll_keepalive config).
Proof. unfold poll_keepalive. apply _. Qed.
#[local] Instance quiet_pace s t : Quiet st0 (wait_for_pace s t).
Proof. unfold wait_for_pace. destruct s; apply _. Qed.
#[local] Instance silent_response {R} now d : Silent st0 (R := R) (recording (record_response_time now d)).
Proof. apply silent_recording. intros c. apply counts_response_time. Qed.

Lemma silent_metrics {R} f : (forall w, counts (f w) = counts w) ->
  Silent st0 (R := R) (modify (fun st => st <| st_metrics ::= f |>)).
Proof. intros Hf. apply silent_frame. intros st. eexists _, _. split; [reflexivity|]. unfold unmoved. cbn. by rewrite Hf. Qed.
#[local] Instance silent_set_action name : Silent st0 (set_action name).
Proof. by apply silent_metrics. Qed.
#[local] Instance silent_vars {R} vars : Silent st0 (R := R) (modify (fun st => st <| st_vars := vars |>)).
Proof. apply silent_frame. intros st. by eexists _, _. Qed.

Lemma category_not_check e d : categorize_session_error e d <> CheckFailed.
Proof.
  unfold categorize_session_error, direction_category.
  destruct e as [| |io| | | | | | | | |]; destruct_matches; done.
Qed.
Hint Resolve category_not_check : core.

(** *** What holds between two observations, and at the end of a round *)

(** [waiting]: at every moment.  A failed check is the check of a reply, and
    an error beyond the failed checks belongs to a message without a reply;
    only echo sessions count errors against messages or unsolicited
    frames. *)
Definition waiting (echo : bool) (a : Acct) : Prop :=
  let c := a_counts a in
  a_out a = n_sent c /\ 0 <= a_closed a /\ 0 <= n_sent c /\ 0 <= n_recv c /\
  if echo then
    n_recv c <= n_sent c <= n_recv c + 1 /\ 0 <= n_checks c <= n_recv c /\
    n_checks c <= n_sent_errors c <= n_checks c + (n_sent c - n_recv c)
  else n_sent_errors c = 0 /\ n_checks c = 0 /\ n_unsolicited c = 0.
Definition read_counted (a : Acct) : Prop :=
  wrap 64 (a_in a) = wrap 64 (n_recv (a_counts a) + n_unsolicited (a_counts a)).
(** At the end of a round: every message has its reply. *)
Definition balanced (echo : bool) (a : Acct) : Prop :=
  waiting echo a /\ (echo = true -> n_recv (a_counts a) = n_sent (a_counts a)) /\ read_counted a.
(** At the end of the session: a message without a reply is an error, or the
    server closed the session, or the run is cancelled. *)
Definition over (echo : bool) (a : Acct) : Prop :=
  waiting echo a /\
  (echo = true -> n_recv (a_counts a) < n_sent (a_counts a) -> n_sent_errors (a_counts a) = n_checks (a_counts a) ->
     0 < a_closed a \/ a_cancelled a = true) /\ read_counted a.

Lemma balanced_waiting echo a : balanced echo a -> waiting echo a.
Proof. by intros [? _]. Qed.
Lemma balanced_over echo a : balanced echo a -> over echo a.
Proof. intros (Hw & Hr & Hi). split; [done|]. split; [|done]. intros He. specialize (Hr He). lia. Qed.
Lemma over_waiting echo a : over echo a -> waiting echo a.
Proof. by intros [? _]. Qed.
Hint Resolve balanced_waiting balanced_over over_waiting : core.

Lemma wrap_add_congr a b c d : wrap 64 a = wrap 64 b -> wrap 64 c = wrap 64 d -> wrap 64 (a + c) = wrap 64 (b + d).
Proof. intros Ha Hb. by rewrite <- wrap_add_l, <- wrap_add_r, Ha, Hb, wrap_add_l, wrap_add_r. Qed.

(** After a message was sent: it has no reply and no error yet. *)
Definition in_flight (a : Acct) : Prop :=
  waiting true a /\ n_recv (a_counts a) + 1 = n_sent (a_counts a) /\
  n_sent_errors (a_counts a) = n_checks (a_counts a) /\ read_counted a.

(** [k] data frames have been read, and nothing else was counted. *)
Definition reads (k : Z) (a a' : Acct) : Prop :=
  a_out a' = a_out a /\ a_counts a' = a_counts a /\ a_in a' = a_in a + k /\ a_closed a <= a_closed a'.

Lemma reads_0 a : reads 0 a a.
Proof. unfold reads. repeat split; lia || done. Qed.
Lemma reads_of k a a' m : reads k a a' -> reads (k + count_if (is_data_frame m)) a (read_of m a').
Proof.
  unfold reads, read_of. destruct a' as [o i c cl ca]. cbn. intros (-> & -> & -> & ?).
  repeat split; [lia|]. destruct (is_close_frame m); cbn; lia.
Qed.
Lemma reads_waiting echo k a a' : reads k a a' -> waiting echo a -> waiting echo a'.
Proof. unfold reads, waiting. intros (-> & -> & _ & ?) (? & ? & ? & ? & ?). repeat split; lia || done. Qed.

Lemma in_flight_waiting k a a' : in_flight a -> reads k a a' -> waiting true a'.
Proof. intros [Hw _] Hr. by eapply reads_waiting. Qed.

Definition got (o : ReplyOutcome) : Z := match o with GotReply _ => 1 | _ => 0 end.

(** What a reply that did not come tells. *)
Definition outcome_told (o : ReplyOutcome) (a a' : Acct) : Prop :=
  match o with
  | ServerClosed => a_closed a < a_closed a'
  | ReplyCancelled => a_cancelled a' = true
  | ReplyError cat => cat <> CheckFailed
  | _ => True
  end.

Lemma wp_select_biased {R} Q (X : R -> Acct -> Prop) (E : Acct -> Prop) a :
  E a -> (forall ob, Q (ArmCancel, ob) (a <| a_cancelled := true |>)) ->
  (forall arm ob, arm <> ArmCancel -> Q (arm, ob) a) ->
  wp st0 select_biased Q X E a.
Proof.
  intros HE Hc HQ. unfold select_biased. apply wp_seq, wp_observe; [done|]. intros ob.
  apply wp_seq, wp_gets_cancelled; [by apply wp_ret|]. case_decide; apply wp_ret; by apply HQ.
Qed.

Lemma wp_await_reply sent seq corrupted Q X (E : Acct -> Prop) a :
  (forall k a', reads k a a' -> E a') ->
  (forall o u k a', reads k a a' -> wrap 64 k = wrap 64 (u + got o) -> outcome_told o a a' -> Q (o, u) a') ->
  wp st0 (await_reply config sent seq corrupted) Q X E a.
Proof.
  intros HE HQ. unfold await_reply. apply wp_returning.
  set (I u a' := exists k, reads k a a' /\ wrap 64 k = wrap 64 u).
  apply (wp_forever _ I); [|intros u a' (k & Hr & _); by eapply HE|exists 0; split; [apply reads_0|done]].
  intros u a1 (k & Hr & Hk). unfold await_round.
  assert (forall o a', reads k a a' -> got o = 0 -> outcome_told o a a' -> Q (o, u) a') as Hexit.
  { intros o a' Hr' Ho Ht. eapply HQ; [exact Hr'|by rewrite Ho, Z.add_0_r|done]. }
  assert (reads k a (a1 <| a_cancelled := true |>)) as Hr1 by exact Hr.
  apply wp_seq, wp_select_biased; [by eapply HE|intros ob; by apply wp_exit, Hexit|].
  intros arm ob Harm. destruct arm; try done; try (by apply wp_exit, Hexit).
  all: apply wp_seq, wp_next_frame;
    [intros [[m|e]|] Hm; [by destruct (Hm m)|apply wp_exit, Hexit; [done|done|exact (category_not_check _ _)]|by apply wp_exit, Hexit]|].
  all: intros m; pose proof (reads_of k a a1 m Hr) as Hm.
  all: assert (is_data_frame m = false -> reads k a (read_of m a1)) as Hm0
      by (intros Hd; rewrite Hd in Hm; unfold count_if in Hm; by rewrite Z.add_0_r in Hm).
  all: assert (is_data_frame m = false -> I u (read_of m a1)) as Hnext by (intros Hd; exists k; auto).
  all: assert (is_data_frame m = true -> wp st0 (R := ReplyOutcome * Z)
      (if reply_matches (reply_rule config corrupted) m sent seq then mexit (GotReply m, u) else mret (u +u 1))
      I (fun r => Q r) E (read_of m a1)) as Hdata.
  1, 3, 5, 7: intros Hd; rewrite Hd in Hm; unfold count_if in Hm; destruct (reply_matches _ _ _ _);
      [apply wp_exit; eapply HQ; [exact Hm|by apply wrap_add_congr|done]
      |apply wp_ret; exists (k + 1); split; [done|]; unfold u64_add; rewrite wrap_wrap; by apply wrap_add_congr].
  all: destruct m as [t|b|d|d|c|f]; try (by apply Hdata); try (by apply wp_ret, Hnext).
  all: try (apply wp_silent; [apply _|by eapply HE; apply Hm0|intros _; by apply wp_ret, Hnext]).
  all: apply wp_exit, Hexit; [by apply Hm0|done|].
  all: cbn; destruct Hr as (_ & _ & _ & ?); unfold count_if; lia.
Qed.

(** *** One request *)

(** A computation whose result is known to satisfy [P]. *)
Lemma wp_silent_with {R A B} (m : M H R A) (f : A -> M H R B) `{Hsil : !Silent st0 m} (P : A -> Prop) Q X (E : Acct -> Prop) a :
  (forall st x st', m st = (Val x, st') -> P x) -> E a -> (forall x, P x -> wp st0 (f x) Q X E a) ->
  wp st0 (mseq m f) Q X E a.
Proof.
  intros HP HE Hf. apply wp_seq. intros st Ht.
  pose proof (Hsil (fun _ a' => a' = a) (fun _ a' => a' = a) (fun a' => a' = a) a eq_refl
    (fun _ => eq_refl) st Ht) as Hm.
  pose proof (Hsil (fun _ _ => True) (fun _ _ => False) (fun _ => True) a I (fun _ => I) st Ht) as Hn.
  destruct (m st) as [[x|r|] st'] eqn:Em.
  - destruct Hm as (a' & Ht' & ->). exists a. split; [done|]. apply Hf. by eapply HP.
  - by destruct Hn as (a' & _ & []).
  - destruct Hm as (a' & Ht' & ->). by exists a.
Qed.

Lemma render_data payload seq (st : State H) m st' :
  render_message config worker_id payload seq st = (Val m, st') -> is_data_frame m = true.
Proof.
  unfold render_message. destruct payload; [by intros [= <- _]| |by intros [= <- _]].
  unfold mseq, observe. destruct (st_script st); [done|]. by intros [= <- _].
Qed.

Lemma corrupt_data m s : is_data_frame (corrupt m s).1.1 = is_data_frame m.
Proof. unfold corrupt, flip_bit. destruct m; cbn [is_data_frame]; destruct_matches; done. Qed.

Lemma chaos_corrupt_data m b (st : State H) m' b' st' :
  chaos_corrupt m b st = (Val (m', b'), st') -> is_data_frame m = true -> is_data_frame m' = true.
Proof.
  unfold chaos_corrupt. destruct (st_chaos st) as [ch|]; [|by intros [= -> _ _]].
  destruct b; [|by intros [= -> _ _]]. pose proof (corrupt_data m ch) as Hc.
  destruct (corrupt m ch) as [[m1 changed] ch']. cbn in Hc.
  destruct changed; cbn; unfold recording, modify, mret; try match goal with |- context [record_chaos_corrupted ?c] => destruct (record_chaos_corrupted c) end;
    intros [= -> _ _] ?; congruence.
Qed.

(** Answered, with room for a failed check. *)
Definition answered (a : Acct) : Prop :=
  waiting true a /\ n_recv (a_counts a) = n_sent (a_counts a) /\
  n_sent_errors (a_counts a) = n_checks (a_counts a) /\ n_checks (a_counts a) < n_recv (a_counts a) /\ read_counted a.

Lemma answered_balanced a : answered a -> balanced true a.
Proof. intros (?&?&?&?&?). by split. Qed.

(** The reply has arrived but is not yet counted. *)
Definition arrived (a : Acct) : Prop :=
  let c := a_counts a in
  waiting true a /\ n_recv c + 1 = n_sent c /\ n_sent_errors c = n_checks c /\
  wrap 64 (a_in a) = wrap 64 (n_recv c + n_unsolicited c + 1).

(** The numbers of a concrete account. *)
Ltac account := unfold in_flight, arrived, answered, balanced, over, waiting, read_counted, reads in *;
  repeat match goal with a : Acct |- _ => destruct a as [? ? [? ? ? ? ?] ? ?] end; cbn in *;
  intros; rewrite ?Z.add_0_r in *; destruct_and?; repeat split; try lia; try done.

Lemma sent_in_flight a : balanced true a ->
  in_flight (a <| a_out ::= fun n => n + 1 |> <| a_counts ::= bump (mkCounts 1 0 0 0 0) |>).
Proof. intros (Hw & Hr & Hi). specialize (Hr eq_refl). account. Qed.

(** What is known when the reply, or its absence, and the unsolicited frames
    have been counted. *)
Definition told (o : ReplyOutcome) (a : Acct) : Prop :=
  match o with
  | GotReply _ => arrived a
  | ServerClosed => in_flight a /\ 0 < a_closed a
  | ReplyCancelled => in_flight a /\ a_cancelled a = true
  | ReplyError cat => in_flight a /\ cat <> CheckFailed
  | ReplyTimeout => in_flight a
  end.

Lemma reply_accounted a a1 o u k :
  in_flight a -> reads k a a1 -> wrap 64 k = wrap 64 (u + got o) -> outcome_told o a a1 ->
  told o (a1 <| a_counts ::= bump (mkCounts 0 0 u 0 0) |>).
Proof.
  intros Hf Hr Hk Ho. assert (0 <= a_closed a) as Hcl by apply Hf.
  assert (waiting true a1) as Hw by (by eapply in_flight_waiting).
  destruct Hr as (Hout & Hc & Hin & Hle). destruct Hf as (_ & Hn & He & Hi). unfold read_counted in Hi.
  rewrite <- Hc in Hn, He, Hi. pose proof (wrap_add_congr _ _ _ _ Hi Hk) as Hs. rewrite <- Hin in Hs. clear Hin Hi Hk Hout Hc.
  assert (forall n, n = got o -> wrap 64 (a_in a1) = wrap 64 (n_recv (a_counts a1) + (n_unsolicited (a_counts a1) + u) + n)) as Hs'
    by (intros n ->; rewrite Hs; f_equal; lia).
  clear Hs. destruct o; cbn [told got outcome_told] in *; specialize (Hs' _ eq_refl); repeat split; account.
Qed.

Lemma wp_check_reply reply expect captures Q X E a :
  answered a -> (forall a', balanced true a' -> Q tt a') ->
  wp st0 (check_reply config reply expect captures) Q X E a.
Proof.
  intros Ha HQ. assert (Q tt a) as Hq by (by apply HQ, answered_balanced).
  assert (forall passed, wp st0 (when (negb passed) (recording (record_error CheckFailed SentMessage))) Q X E a) as Hfin.
  { intros passed. apply wp_when; [|done]. intros _. apply wp_check_error, HQ. account. }
  assert (forall vars, wp st0 (let '(passed, vars) := fold_left (apply_capture reply) captures
     (opt_passes (cf_expect config) reply && opt_passes expect reply, vars) in
     modify (fun st => st <| st_vars := vars |>) ;;;
     when (negb passed) (recording (record_error CheckFailed SentMessage))) Q X E a) as Hrest.
  { intros vars. destruct (fold_left _ _ _) as [passed vars'].
    apply wp_seq. apply wp_frame; [|intros _; apply Hfin]. intros st. by eexists _, _. }
  unfold check_reply. destruct (cf_expect config), expect, captures; try (by apply wp_ret);
    apply wp_seq, wp_gets; exact Hrest.
Qed.

Lemma wp_reply_metrics reply corrupted expect captures due start_time Q X (E : Acct -> Prop) a :
  arrived a -> (forall a, waiting true a -> E a) -> (forall a', balanced true a' -> Q tt a') ->
  wp st0 (record_reply_metrics config reply corrupted expect captures due start_time) Q X E a.
Proof.
  intros Ha HE HQ. unfold record_reply_metrics.
  apply wp_silent; [apply _|by apply HE, Ha|]. intros now.
  apply wp_seq, wp_record_recv. set (a1 := set_field a_counts _ a).
  assert (answered a1) as Ha1.
  { destruct Ha as (Hw & Hn & He & Hi).
    assert (wrap 64 (a_in a) = wrap 64 (n_recv (a_counts a) + 1 + n_unsolicited (a_counts a))) as Hi'
      by (rewrite Hi; f_equal; lia). clear Hi. subst a1. account. }
  apply wp_seq. assert (forall a', balanced true a' -> wp st0
    match due with
    | Some due => recording (record_response_time now (response_time due start_time
                    (saturating_duration_since now start_time)))
    | None => mret tt
    end Q X E a') as Hrest.
  { intros a' Hb. destruct due; [|by apply wp_ret, HQ]. refine (silent_response now _ Q X E a' _ _); [by apply HE, balanced_waiting|]. intros []. by apply HQ. }
  apply wp_when; intros _; [|by apply Hrest, answered_balanced]. by apply wp_check_reply.
Qed.

Lemma wp_record_reply o received Q X (E : Acct -> Prop) a :
  told o a ->
  (forall a, waiting true a -> E a) -> (forall r a, over true a -> X r a) ->
  (forall reply, arrived a -> wp st0 (received reply) Q X E a) ->
  wp st0 (record_reply o received) Q X E a.
Proof.
  intros Ha HE HX Hrec. unfold record_reply.
  assert (forall a r, in_flight a -> 0 < a_closed a \/ a_cancelled a = true -> X r a) as HX'.
  { clear Ha. intros a' r (Hw & Hf) Ho. apply HX. split; [done|]. by split; [|apply Hf]. }
  assert (in_flight a -> E a) as HE' by (intros Hf; by apply HE, Hf).
  assert (forall cat, cat <> CheckFailed -> in_flight a -> wp st0 (A := unit)
    (recording (record_error cat SentMessage) ;;; break_session) Q X E a) as Herr.
  { intros cat Hcat Hf. apply wp_seq, wp_sent_error; [done|]. set (a1 := set_field a_counts _ a).
    assert (over true a1) as Hb by (subst a1; account).
    unfold break_session.
    apply wp_silent; [apply _|by apply HE, over_waiting|]. intros e. by apply wp_exit, HX. }
  destruct o as [reply| |cat| |]; cbn [told] in Ha; [by apply Hrec| |by apply Herr; apply Ha|by apply Herr|].
  - unfold break_session. apply wp_silent; [apply _|by apply HE', Ha|]. intros e. apply wp_exit, HX'; [apply Ha|left; apply Ha].
  - unfold close_and_break. apply wp_silent; [apply _|by apply HE', Ha|]. intros _.
    unfold break_session. apply wp_silent; [apply _|by apply HE', Ha|]. intros e. apply wp_exit, HX'; [apply Ha|right; apply Ha].
Qed.

(** *** Rounds

    Every round keeps [balanced], and leaves the session [over]; between its
    observations [waiting] holds. *)

Definition keeps {R A} (echo : bool) (m : M H R A) : Prop :=
  forall a, balanced echo a ->
  wp st0 m (fun _ => balanced echo) (fun _ => over echo) (waiting echo) a.

Lemma keeps_quiet {R A} echo (m : M H R A) : Quiet st0 m -> keeps echo m.
Proof. intros Hm a Ha. apply Hm; auto. Qed.

Lemma keeps_seq {R A B} echo (m : M H R A) (f : A -> M H R B) :
  keeps echo m -> (forall x, keeps echo (f x)) -> keeps echo (mseq m f).
Proof. intros Hm Hf a Ha. apply wp_seq. eapply wp_mono; [by apply Hm| |auto|auto]. intros x a'. apply Hf. Qed.

Lemma keeps_when {R} echo b (m : M H R unit) : keeps echo m -> keeps echo (when b m).
Proof. intros Hm a Ha. apply wp_when; [intros _; by apply Hm|auto]. Qed.

Lemma keeps_forever {R S} echo (body : S -> M H R S) s : (forall s, keeps echo (body s)) -> keeps echo (forever body s).
Proof.
  intros Hb a Ha. apply (wp_forever _ (fun _ => balanced echo)); [|auto|done]. intros s' a' Ha'. by apply Hb.
Qed.

Lemma keeps_for_n {R S} echo n (body : S -> M H R S) s : (forall s, keeps echo (body s)) -> keeps echo (for_n n body s).
Proof.
  intros Hb. revert s. induction n as [|n IH]; intros s; [apply keeps_quiet; cbn; apply _|].
  cbn [for_n]. apply keeps_seq; [apply Hb|apply IH].
Qed.

Lemma keeps_for_each {R A S} echo (l : list A) (body : A -> S -> M H R S) s :
  (forall a s, keeps echo (body a s)) -> keeps echo (for_each l body s).
Proof.
  intros Hb. revert s. induction l as [|x l IH]; intros s; [apply keeps_quiet; cbn; apply _|].
  cbn [for_each]. apply keeps_seq; [apply Hb|apply IH].
Qed.

Lemma wp_break {A} (Q : A -> Acct -> Prop) X (E : Acct -> Prop) a :
  E a -> (forall r, X r a) -> wp st0 break_session Q X E a.
Proof. intros HE HX. unfold break_session. apply wp_silent; [apply _|done|]. intros e. by apply wp_exit. Qed.

Lemma wp_close_break {A} (Q : A -> Acct -> Prop) X (E : Acct -> Prop) a :
  E a -> (forall r, X r a) -> wp st0 close_and_break Q X E a.
Proof. intros HE HX. unfold close_and_break. apply wp_silent; [apply _|done|]. intros _. by apply wp_break. Qed.

(** A failed send is an error of no message. *)
Lemma wp_write_failed {A} cat Q (E : Acct -> Prop) echo a :
  cat <> CheckFailed -> balanced echo a -> (forall a, waiting echo a -> E a) ->
  wp st0 (A := A) (recording (record_error cat Attempt) ;;; break_session) Q (fun _ => over echo) E a.
Proof.
  intros Hcat Ha HE. apply wp_seq, wp_attempt_error; [done|]. apply wp_break; auto.
Qed.

Lemma wp_sent {R} msg (Q : unit -> Acct -> Prop) (X : R -> Acct -> Prop) E a :
  is_data_frame msg = true ->
  Q tt (a <| a_out ::= fun n => n + 1 |> <| a_counts ::= bump (mkCounts 1 0 0 0 0) |>) ->
  wp st0 (modify (fun st => st <| st_history ::= fun h => SentFrame msg :: h |>) ;;;
     recording (record_message_sent (message_byte_len msg))) Q X E a.
Proof. intros Hm HQ. apply wp_seq, wp_sent_frame. rewrite Hm. apply wp_record_sent, HQ. Qed.

(** One data send: from [balanced] to a message in flight. *)
Lemma wp_send_unless_cancelled msg (Q : unit -> Acct -> Prop) a :
  is_data_frame msg = true -> balanced true a -> (forall a', in_flight a' -> Q tt a') ->
  wp st0 (send_unless_cancelled msg) Q (fun _ => over true) (waiting true) a.
Proof.
  intros Hm Ha HQ. unfold send_unless_cancelled. apply wp_silent; [apply _|auto|]. intros [arm ob].
  case_decide; [apply wp_close_break; auto|].
  destruct (ob_send ob); [by apply wp_write_failed|].
  apply wp_sent; [done|]. by apply HQ, sent_in_flight.
Qed.

(** In echo mode a message in flight; in the others a round's end. *)
Definition sent_one (echo : bool) (a : Acct) : Prop := if echo then in_flight a else balanced false a.

Lemma wp_send_data msg echo (Q : unit -> Acct -> Prop) a :
  is_data_frame msg = true -> balanced echo a ->
  (forall a', sent_one echo a' -> Q tt a') ->
  wp st0 (send_data msg) Q (fun _ => over echo) (waiting echo) a.
Proof.
  intros Hm Ha HQ. unfold send_data. apply wp_seq, wp_send; [auto| |].
  - intros err. by apply wp_write_failed.
  - rewrite Hm. apply wp_record_sent, HQ. destruct echo; [by apply sent_in_flight|].
    unfold sent_one. destruct Ha as (Hw & _ & Hi). account.
Qed.

(** The reply of an echo request, from the message in flight on. *)
Lemma wp_await_and_record {A} sent seq corrupted (received : Message -> M H SessionEnd unit)
    (rest : M H SessionEnd A) a :
  in_flight a ->
  (forall reply a', arrived a' ->
     wp st0 (received reply) (fun _ => balanced true) (fun _ => over true) (waiting true) a') ->
  keeps true rest ->
  wp st0 (let! (outcome, unsolicited) := await_reply config sent seq corrupted in
          recording (record_unsolicited_frames unsolicited) ;;;
          record_reply outcome received ;;; rest)
    (fun _ => balanced true) (fun _ => over true) (waiting true) a.
Proof.
  intros Ha Hrec Hk. apply wp_seq, wp_await_reply; [intros k a1; by apply in_flight_waiting|].
  intros o u n a1 Hr Hn Ho. apply wp_seq, wp_record_unsolicited.
  pose proof (reply_accounted a a1 o u n Ha Hr Hn Ho) as Ht.
  apply wp_seq, wp_record_reply; [done|auto|auto|]. intros reply Harr.
  eapply wp_mono; [by apply Hrec| |auto|auto]. intros [] a' Ha'. by apply Hk.
Qed.

Lemma wp_received {A} reply corrupted expect captures due start_time (after : M H SessionEnd A) a :
  keeps true after -> arrived a ->
  wp st0 (record_reply_metrics config reply corrupted expect captures due start_time ;;; after)
    (fun _ => balanced true) (fun _ => over true) (waiting true) a.
Proof. intros Hafter Ha. apply wp_seq, wp_reply_metrics; [done|auto|]. intros a' Ha'. by apply Hafter. Qed.

Lemma keeps_echo_round record_response s : keeps true (echo_round config scenario worker_id record_response s).
Proof.
  intros a Ha. unfold echo_round. destruct s as [seq schedule].
  apply wp_silent; [apply _|auto|]. intros cancelled. apply wp_quiet; [apply _|auto|auto|]. intros _.
  apply wp_quiet; [destruct (sc_next_due <$> schedule); apply _|auto|auto|]. intros _.
  apply wp_quiet; [apply _|auto|auto|]. intros _. apply wp_silent; [apply _|auto|]. intros plan.
  destruct (pl_drop plan); [apply keeps_quiet; [apply _|done]|].
  apply wp_quiet; [apply _|auto|auto|]. intros [schedule' due].
  apply (wp_silent_with _ _ (fun m => is_data_frame m = true)); [apply render_data|auto|]. intros m0 Hm0.
  apply (wp_silent_with _ _ (fun m => is_data_frame m.1 = true)); [|auto|].
  { intros st [m b] st' Hc. by eapply chaos_corrupt_data. }
  intros [msg corrupted] Hmsg. apply wp_silent; [apply _|auto|]. intros start_time.
  apply wp_seq, wp_send_unless_cancelled; [done|done|]. intros a' Ha'.
  apply wp_await_and_record; [done| |].
  - intros reply a'' Ha''. apply wp_received; [|done]. apply keeps_quiet, _.
  - apply keeps_quiet. apply quiet_seq; [apply _|]. intros s'. apply quiet_seq; [apply _|]. intros ok.
    apply quiet_seq; [apply _|]. intros _. apply quiet_seq; [destruct record_response; apply _|]. intros s''. apply _.
Qed.

Lemma keeps_run_echo_loop : keeps true (run_echo_loop config scenario worker_id).
Proof.
  unfold run_echo_loop. apply keeps_seq; [apply keeps_quiet, _|]. intros schedule.
  apply keeps_seq; [apply keeps_quiet, silent_quiet; by apply silent_metrics|]. intros _.
  apply keeps_forever. intros s. apply keeps_echo_round.
Qed.

Lemma keeps_incoming ob : keeps false (incoming_frame ob).
Proof.
  intros a Ha. unfold incoming_frame. apply wp_seq, wp_next_frame.
  - intros [[m|e]|] Hm; [by destruct (Hm m)| |apply wp_break; auto]. by apply wp_write_failed.
  - intros m. assert (is_data_frame m = false -> balanced false (read_of m a)) as Hother.
    { intros Hd. unfold read_of. rewrite Hd. destruct Ha as (Hw & _ & Hi). destruct (is_close_frame m); unfold count_if; account. }
    assert (is_data_frame m = true -> forall now n, wp st0 (R := SessionEnd) (recording (record_message_recv now n None) ;;;
        let! pause := chaos_read_pause in let! now := gets st_now in
        mret ((fun p => now + p) <$> pause)) (fun _ => balanced false) (fun _ => over false) (waiting false)
        (read_of m a)) as Hdata.
    { intros Hd now n. apply wp_seq, wp_record_recv.
      assert (balanced false ((read_of m a) <| a_counts ::= bump (mkCounts 0 1 0 0 0) |>)) as Hb.
      { unfold read_of. rewrite Hd. destruct Ha as (Hw & _ & Hi). unfold read_counted in Hi.
        pose proof (wrap_add_congr _ _ 1 1 Hi eq_refl) as Hi'.
        replace (n_recv (a_counts a) + n_unsolicited (a_counts a) + 1)
          with (n_recv (a_counts a) + 1 + n_unsolicited (a_counts a)) in Hi' by lia. clear Hi Hother.
        destruct (is_close_frame m); unfold count_if; account. }
      apply (keeps_quiet (A := option Z)); [apply _|done]. }
    destruct m as [t|b|d|d|c|f].
    + apply wp_seq, wp_gets. intros now. by apply Hdata.
    + apply wp_seq, wp_gets. intros now. by apply Hdata.
    + apply (keeps_quiet (A := option Z)); [apply _|by apply Hother].
    + by apply wp_ret, Hother.
    + apply wp_break; [|intros _]; auto.
    + by apply wp_ret, Hother.
Qed.

Lemma keeps_stream_round s : keeps false (stream_round config scenario worker_id s).
Proof.
  destruct s as [seq read_resume]. unfold stream_round.
  apply keeps_seq; [apply keeps_quiet, _|]. intros [arm ob].
  assert (keeps false (let! seq := stream_send config scenario worker_id seq in
    mret (seq, read_resume))) as Hsend.
  { apply keeps_seq; [|intros x; apply keeps_quiet, _]. intros a Ha. unfold stream_send.
    apply wp_quiet; [apply _|auto|auto|]. intros _. apply wp_silent; [apply _|auto|]. intros plan.
    destruct (pl_drop plan); [apply (keeps_quiet (A := Z)); [apply _|done]|].
    apply wp_quiet; [apply _|auto|auto|]. intros _.
    apply (wp_silent_with _ _ (fun m => is_data_frame m = true)); [apply render_data|auto|]. intros m0 Hm0.
    apply (wp_silent_with _ _ (fun m => is_data_frame m.1 = true)); [|auto|].
    { intros st [m b] st' Hc. by eapply chaos_corrupt_data. }
    intros [msg b] Hmsg. apply wp_seq, wp_send_data; [done|done|]. intros a' Ha'.
    apply (keeps_quiet (A := Z)); [|done]. apply _. }
  destruct arm; try exact Hsend.
  - apply keeps_quiet, _.
  - apply keeps_quiet, _.
  - apply keeps_seq; [apply keeps_incoming|]. intros r. apply keeps_quiet, _.
  - apply keeps_quiet, _.
Qed.

Lemma keeps_listen_round r : keeps false (listen_round config r).
Proof.
  unfold listen_round. apply keeps_seq; [apply keeps_quiet, _|].
  intros [[] ob]; try (apply keeps_quiet, _); apply keeps_incoming.
Qed.

Lemma keeps_action_send ticker payload expect captures s :
  keeps (awaits_replies (cf_mode config)) (action_send config worker_id ticker payload expect captures s).
Proof.
  intros a Ha. destruct s as [seq schedule]. unfold action_send.
  apply wp_silent; [apply _|auto|]. intros cancelled. apply wp_quiet; [apply _|auto|auto|]. intros _.
  apply wp_quiet; [apply _|auto|auto|]. intros _. apply wp_quiet; [apply _|auto|auto|]. intros _.
  apply wp_silent; [apply _|auto|]. intros plan.
  destruct (pl_drop plan); [apply keeps_quiet; [apply _|done]|].
  apply wp_quiet; [apply _|auto|auto|]. intros [schedule' due].
  apply (wp_silent_with _ _ (fun m => is_data_frame m = true)); [apply render_data|auto|]. intros m0 Hm0.
  apply (wp_silent_with _ _ (fun m => is_data_frame m.1 = true)); [|auto|].
  { intros st [m b] st' Hc. by eapply chaos_corrupt_data. }
  intros [msg corrupted] Hmsg. apply wp_silent; [apply _|auto|]. intros start_time.
  apply wp_seq, wp_send_data; [done|done|]. intros a' Ha'.
  assert (forall s', keeps (awaits_replies (cf_mode config)) (maybe_chaos_close (H := H) ;;;
    mret (seq +u 1, advance <$> s' : option SendSchedule))) as Hrest by (intros; apply keeps_quiet, _).
  destruct (awaits_replies (cf_mode config)).
  - apply wp_seq. eapply wp_mono; [apply wp_await_and_record; [exact Ha'| |]|intros x a'' Ha''; by apply Hrest|auto|auto].
    + intros reply a'' Ha''. apply wp_reply_metrics; [done|auto|auto].
    + apply keeps_quiet, _.
  - apply wp_seq, wp_ret. by apply Hrest.
Qed.

Lemma keeps_run_action phase ticker action s :
  keeps (awaits_replies (cf_mode config)) (run_action config scenario worker_id phase ticker action s).
Proof.
  unfold run_action. do 2 (apply keeps_seq; [apply keeps_quiet, _|intros ?]).
  apply keeps_seq; [apply keeps_quiet, _|]. intros _. destruct action as [payload count expect captures name|d|d|code reason].
  - apply keeps_seq; [apply keeps_quiet, _|]. intros _.
    apply keeps_seq; [apply keeps_for_n; intros s'; apply keeps_action_send|]. intros s'.
    apply keeps_quiet. apply quiet_seq; [apply _|]. intros _. apply quiet_seq; [apply _|]. intros ok.
    apply quiet_seq; [apply _|]. intros _. destruct s' as [seq schedule]. apply _.
  - apply keeps_quiet. apply quiet_seq; [apply _|]. intros ok. apply quiet_seq; [apply _|]. intros _.
    destruct s as [seq schedule]. apply _.
  - apply keeps_seq; [apply keeps_quiet, silent_quiet; by apply silent_send|]. intros res.
    apply keeps_seq; [destruct res; [intros a Ha; by apply wp_write_failed|apply keeps_quiet, _]|]. intros _.
    apply keeps_quiet. apply quiet_seq; [apply _|]. intros ok. apply quiet_seq; [apply _|]. intros _.
    destruct s as [seq schedule]. apply _.
  - apply keeps_quiet, _.
Qed.

Lemma keeps_run_action_loop phase :
  keeps (awaits_replies (cf_mode config)) (run_action_loop config scenario worker_id phase).
Proof.
  unfold run_action_loop. apply keeps_seq; [apply keeps_quiet, _|]. intros _. cbv zeta.
  apply keeps_seq; [apply keeps_quiet; destruct (awaits_replies _); apply _|]. intros schedule.
  apply keeps_seq; [apply keeps_quiet, silent_quiet; by apply silent_metrics|]. intros _.
  apply keeps_forever. intros s. unfold script_round. do 2 (apply keeps_seq; [apply keeps_quiet, _|intros ?]).
  apply keeps_for_each. intros action s'. apply keeps_run_action.
Qed.

(** *** A GraphQL subscription *)

(** Errors counted against messages, with [spare] messages to spare. *)
Definition covered (spare : Z) (a : Acct) : Prop :=
  let c := a_counts a in 0 <= n_sent_errors c /\ n_sent_errors c + spare <= n_sent c <= a_out a.

Lemma covered_mono k a : 0 <= k -> covered k a -> covered 0 a.
Proof. unfold covered. lia. Qed.
Hint Extern 1 (covered 0 _) => (eapply covered_mono; [|eassumption]; lia) : core.

Definition covers {R A} (k : Z) (m : M H R A) : Prop :=
  forall a, covered k a -> wp st0 m (fun _ => covered k) (fun _ => covered 0) (covered 0) a.

Lemma covers_seq {R A B} k (m : M H R A) (f : A -> M H R B) :
  covers k m -> (forall x, covers k (f x)) -> covers k (mseq m f).
Proof. intros Hm Hf a Ha. apply wp_seq. eapply wp_mono; [by apply Hm| |auto|auto]. intros x a'. apply Hf. Qed.
Lemma covers_quiet {R A} k (m : M H R A) : 0 <= k -> Quiet st0 m -> covers k m.
Proof. intros Hk Hm a Ha. apply Hm; eauto using covered_mono. Qed.

Lemma gql_send_covered {msg} (Q : unit -> Acct -> Prop) k a :
  0 <= k -> covered k a -> (forall a', covered (k + 1) a' -> Q tt a') ->
  wp st0 (gql_send msg) Q (fun _ => covered 0) (covered 0) a.
Proof.
  intros Hk Ha HQ. unfold gql_send. destruct (gql_to_string msg) as [json|].
  - unfold send_data. apply wp_seq, wp_send; [eauto using covered_mono| |].
    + intros err. apply wp_seq, wp_attempt_error; [done|]. apply wp_break; eauto using covered_mono.
    + apply wp_record_sent, HQ. revert Ha. unfold covered. destruct a as [o i [c1 c2 c3 c4 c5] cl ca]. cbn. lia.
  - unfold protocol_failure. apply wp_seq, wp_attempt_error; [done|]. apply wp_exit. eauto using covered_mono.
Qed.

Lemma covered_out k a b : covered k a -> covered k (a <| a_out ::= fun i => i + count_if b |>).
Proof. unfold covered, count_if. destruct a as [o i [c1 c2 c3 c4 c5] cl ca], b; cbn; lia. Qed.

Lemma wp_text {R} json (Q : unit -> Acct -> Prop) (X : R -> Acct -> Prop) (E : Acct -> Prop) k a :
  covered k a -> (forall a', covered k a' -> E a') -> (forall a', covered k a' -> Q tt a') ->
  wp st0 (send_ignoring (Text json)) Q X E a.
Proof.
  intros Ha HE HQ. unfold send_ignoring. apply wp_seq, wp_send; [by apply HE|intros err; by apply wp_ret, HQ|].
  apply wp_ret, HQ. by apply covered_out.
Qed.

Lemma wp_pong {R} (Q : unit -> Acct -> Prop) (X : R -> Acct -> Prop) (E : Acct -> Prop) k a :
  covered k a -> (forall a', covered k a' -> E a') -> (forall a', covered k a' -> Q tt a') ->
  wp st0 pong_reply Q X E a.
Proof.
  intros Ha HE HQ. unfold pong_reply. destruct (gql_to_string GPong); [|by apply wp_ret, HQ]. by apply (wp_text _ _ _ _ k).
Qed.

Definition ack_end (r : SessionEnd + unit) (a : Acct) : Prop :=
  match r with inl _ => covered 0 a | inr _ => covered 1 a end.

Lemma ack_covered a :
  covered 1 a ->
  wp st0 (R := SessionEnd) (returning (forever (ack_round config) tt)) ack_end (fun _ => covered 0) (covered 0) a.
Proof.
  intros Ha. apply wp_returning, (wp_forever _ (fun _ => covered 1)); [|auto|done]. clear a Ha.
  intros u a Ha. unfold ack_round. apply wp_silent; [apply _|auto|]. intros [arm ob].
  assert (forall cat a, cat <> CheckFailed -> covered 1 a ->
    wp st0 (A := unit) (sent_failure cat) (fun _ => covered 1) ack_end (covered 0) a) as Hfail.
  { clear. intros cat a Hcat Ha. unfold sent_failure. apply wp_seq, wp_sent_error; [done|].
    assert (covered 0 (a <| a_counts ::= bump (mkCounts 0 0 0 1 0) |>)).
    { revert Ha. unfold covered. destruct a as [o i [c1 c2 c3 c4 c5] cl ca]. cbn. lia. }
    apply wp_silent; [apply _|done|]. intros e. by apply wp_exit. }
  destruct arm; try (by apply Hfail).
  - eapply wp_mono; [eapply (silent_send_heartbeat (fun _ => covered 1) (fun _ _ => False) (covered 1)); auto|..]; auto. done.
  - apply wp_seq, wp_next_frame.
    + intros [[m|e]|] Hm; [by destruct (Hm m)|by apply Hfail|by apply Hfail].
    + intros m. set (a1 := read_of m a). assert (covered 1 a1) as Ha1 by done. clearbody a1.
      destruct m as [text|b|d|d|c|f]; try (by apply wp_ret); [|by apply Hfail].
      destruct (gql_from_str text) as [[]|]; try (by apply wp_ret).
      * by apply wp_exit.
      * by apply Hfail.
      * apply (wp_pong _ _ _ 1); auto.
  - apply wp_silent; [apply _|auto|]. intros _. apply wp_silent; [apply _|auto|]. intros e. apply wp_exit. cbn. auto.
Qed.

Lemma subscription_covered k a :
  0 <= k -> covered k a ->
  wp st0 (R := SessionEnd) (returning (forever (subscription_round config) None)) (fun _ => covered k) (fun _ => covered 0) (covered k) a.
Proof.
  intros Hk Ha. apply wp_returning, (wp_forever _ (fun _ => covered k)); [|auto|done]. clear a Ha.
  intros r a Ha. unfold subscription_round. apply wp_silent; [apply _|auto|]. intros [arm ob].
  assert (forall (m : M H (bool * bool) (option Z)), Quiet st0 m ->
    wp st0 m (fun _ => covered k) (fun _ => covered k) (covered k) a) as Hq by (intros m Hm; apply Hm; auto).
  assert (wp st0 (R := bool * bool) (let! next := next_frame ob in
    match next with
    | Some (inl (Text text)) =>
        match gql_from_str text with
        | Some (GData _ _ | Next _ _) =>
            let! now := gets st_now in
            recording (record_message_recv now (Z.of_nat (String.length text)) None) ;;;
            let! pause := chaos_read_pause in
            let! now := gets st_now in
            mret ((fun p => now + p) <$> pause)
        | Some (GError _ _ | ConnectionError _) =>
            recording (record_error ProtocolError Attempt) ;;; mret None
        | Some (Complete _) => mexit (false, true)
        | Some GPing => pong_reply ;;; mret None
        | _ => mret None
        end
    | Some (inl (Close _)) | None => mexit (false, false)
    | Some (inr e) =>
        recording (record_error (categorize_session_error e Read) Attempt) ;;; mexit (false, false)
    | Some (inl _) => mret None
    end) (fun _ => covered k) (fun _ => covered k) (covered k) a) as Hread.
  { apply wp_seq, wp_next_frame.
    - intros [[m|e]|] Hm; [by destruct (Hm m)|by apply wp_seq, wp_attempt_error, wp_exit|by apply wp_exit].
    - intros m. set (a1 := read_of m a). assert (covered k a1) as Ha1 by done. clearbody a1.
      assert (forall text, wp st0 (R := bool * bool) (let! now := gets st_now in
            recording (record_message_recv now (Z.of_nat (String.length text)) None) ;;;
            let! pause := chaos_read_pause in
            let! now := gets st_now in
            mret ((fun p => now + p) <$> pause)) (fun _ => covered k) (fun _ => covered k) (covered k) a1) as Hrecv.
      { intros text. apply wp_seq, wp_gets. intros now. apply wp_seq, wp_record_recv.
        set (a2 := set_field a_counts _ a1). assert (covered k a2) as Ha2.
        { revert Ha1. unfold covered, a2. destruct a1 as [o i [c1 c2 c3 c4 c5] cl ca]. cbn. lia. }
        apply wp_silent; [apply _|done|]. intros pause. apply wp_seq, wp_gets. intros now'. by apply wp_ret. }
      destruct m as [text|b|d|d|c|f]; try (by apply wp_ret); [|by apply wp_exit].
      destruct (gql_from_str text) as [[]|]; try (by apply wp_ret); try apply Hrecv;
        try (by apply wp_seq, wp_attempt_error, wp_ret); try (by apply wp_exit).
      apply wp_seq, (wp_pong _ _ _ k); [done|auto|]. intros a' Ha'. by apply wp_ret. }
  destruct arm; try exact Hread; apply Hq, _.
Qed.

Lemma covers_graphql : covers 0 (run_graphql_ws_loop config worker_id).
Proof.
  intros a Ha. unfold run_graphql_ws_loop. destruct (cf_graphql_ws config) as [g|];
    [|by apply wp_seq, wp_attempt_error, wp_exit].
  apply wp_seq, (gql_send_covered _ 0); [done|done|]. intros a1 Ha1.
  apply wp_seq. eapply wp_mono; [by apply ack_covered| |auto|auto]. intros [e|[]] a2 Ha2; [by apply wp_ret|].
  apply wp_seq, (gql_send_covered _ 1); [lia|done|]. intros a3 Ha3.
  apply wp_seq. eapply wp_mono; [apply (subscription_covered (1 + 1)); [lia|done]| |auto|auto].
  intros [cancelled complete] a4 Ha4.
  destruct (gql_to_string _) as [stop|]; [|apply wp_seq, wp_attempt_error; [done|]; apply wp_exit; auto].
  apply wp_seq, (wp_text _ _ _ _ (1 + 1)); [done|auto|]. intros a5 Ha5.
  destruct cancelled; [apply wp_silent; [apply _|auto|]; intros _; apply wp_ret; auto|].
  destruct (negb complete); [|apply wp_ret; auto]. apply wp_seq, wp_attempt_error; [done|].
  refine (silent_session_end (fun _ => covered 0) _ (covered 0) a5 _ _); auto.
Qed.

Lemma keeps_mode_loop socketio :
  cf_mode config <> SocketIo -> cf_mode config <> GraphQLWS ->
  keeps (awaits_replies (cf_mode config)) (mode_loop config scenario worker_id socketio).
Proof.
  intros Hs Hg. unfold mode_loop. rewrite decide_False by done.
  assert (keeps (awaits_replies (cf_mode config)) match cf_mode config with
    | Echo => run_echo_loop config scenario worker_id
    | Stream => run_stream_loop config scenario worker_id
    | Listen => run_listen_loop config
    | GraphQLWS => run_graphql_ws_loop config worker_id
    | SocketIo => mret Lost
    end) as Hmode.
  { destruct (cf_mode config); try done; cbn [awaits_replies].
    - apply keeps_run_echo_loop.
    - apply keeps_forever. intros s. apply keeps_stream_round.
    - apply keeps_forever. intros r. apply keeps_listen_round. }
  destruct scenario as [phase|] eqn:Es; [|exact Hmode].
  case_decide; [exact Hmode|]. rewrite <- Es. apply keeps_run_action_loop.
Qed.

End Sessions.

(** ** What a worker reports of a session *)

Definition counts_ok (w : WorkerMetrics) : Prop := wrap_counts (counts w) = counts w.

Section Report.
Context {H : Type} `{Hdr H} {N : Type} `{SerdeJson N} `{GraphQLCodec N}.

Lemma tracks_start (st : State H) : counts_ok (st_metrics st) -> tracks st st Acct_zero.
Proof.
  unfold counts_ok, wrap_counts. intros Hc. unfold tracks, counted, Acct_zero. cbn [a_counts a_out a_in a_closed a_cancelled].
  destruct (counts (st_metrics st)) as [c1 c2 c3 c4 c5]. cbn in *. injection Hc as C1 C2 C3 C4 C5.
  rewrite !Z.add_0_r. by rewrite C1, C2, C3, C4, C5.
Qed.

(** What [d] adds to the counters of [w]. *)
Definition added (w : WorkerMetrics) (d : Counts) : Counts :=
  mkCounts (wm_messages_sent w +u n_sent d) (wm_messages_recv w +u n_recv d)
    (wm_unsolicited_frames w +u n_unsolicited d) (wm_sent_message_errors w +u n_sent_errors d)
    (default 0 (wm_errors w !! CheckFailed) +u n_checks d).

Lemma tracks_added (st st' : State H) a : tracks st st' a ->
  counts (st_metrics st') = added (st_metrics st) (a_counts a) /\
  frames sent_data (st_history st') = frames sent_data (st_history st) + a_out a /\
  frames read_data (st_history st') - frames read_data (st_history st) = a_in a /\
  frames read_close (st_history st') = frames read_close (st_history st) + a_closed a /\
  (a_cancelled a = true -> st_cancelled st' = true).
Proof.
  intros ((H1'&H2')&(H3&H4&H5)&H6&H7&H8&H9). unfold counted, added in *.
  split; [|split; [done|split; [lia|done]]]. destruct (counts (st_metrics st')). cbn in *. by subst.
Qed.

Lemma session_tracked (config : LoadTestConfig N) scenario worker_id socketio (st : State H) :
  cf_mode config <> SocketIo -> cf_mode config <> GraphQLWS -> counts_ok (st_metrics st) ->
  let '(outcome, st') := mode_loop config scenario worker_id socketio st in
  exists a, tracks st st' a /\ waiting (awaits_replies (cf_mode config)) a /\
    (outcome <> Stuck -> over (awaits_replies (cf_mode config)) a).
Proof.
  intros Hs Hg Hc. pose proof (keeps_mode_loop config scenario worker_id st socketio Hs Hg Acct_zero) as Hk.
  assert (balanced (awaits_replies (cf_mode config)) Acct_zero) as Hz
    by (destruct (awaits_replies _); repeat split; cbn; lia || done).
  specialize (Hk Hz st (tracks_start st Hc)). clear Hz.
  destruct (mode_loop config scenario worker_id socketio st) as [outcome st'].
  destruct outcome as [v|v|]; destruct Hk as (a0 & Ht & Ha); exists a0; (split; [done|split; [|try done]]);
    eauto using balanced_waiting, balanced_over, over_waiting.
Qed.

(** C4. The numbers a worker reports are those of the frames that crossed
    its socket.  In every echo, stream and listen session and every action
    script in these modes, from any state, with any chaos settings and
    whatever the server, the timers, the other workers and the cancellation
    do, at each moment the session waits for something and when it ends:
    [messages_sent] has grown by exactly the data frames handed to the socket
    without an error, and no error was counted against a message that was not
    sent.

    In echo mode every message sent has been answered except perhaps the
    last, the [check_failed] errors are those of answered messages, and there
    is one more error against a message only when the last one has no reply.
    When the session has ended and its last message has no reply, that is an
    error counted against it, or the server sent a Close frame, or the run is
    cancelled.  In the other modes no error is counted against a message and
    no frame as unsolicited.

    At the end of a session every data frame read is counted, either as a
    received message or as an unsolicited frame.  (The counters are 64-bit
    and wrap; [added] says by how much they grew.) *)
Theorem session_accounts (config : LoadTestConfig N) (scenario : option (ScenarioPhase N)) (worker_id : Z)
    (socketio : M H SessionEnd SessionEnd) (st : State H)
    (Hs : cf_mode config <> SocketIo) (Hg : cf_mode config <> GraphQLWS) (Hc : counts_ok (st_metrics st)) :
  let '(outcome, st') := mode_loop config scenario worker_id socketio st in
  exists sent recv unsolicited errors checks,
    counts (st_metrics st') = added (st_metrics st) (mkCounts sent recv unsolicited errors checks) /\
    frames sent_data (st_history st') = frames sent_data (st_history st) + sent /\ 0 <= recv /\
    (if awaits_replies (cf_mode config) then
       recv <= sent <= recv + 1 /\ 0 <= checks <= recv /\ checks <= errors <= checks + (sent - recv) /\
       (outcome <> Stuck -> recv < sent ->
          errors = checks + 1 \/ frames read_close (st_history st) < frames read_close (st_history st') \/
          st_cancelled st' = true)
     else errors = 0 /\ checks = 0 /\ unsolicited = 0) /\
    (outcome <> Stuck ->
     wrap 64 (frames read_data (st_history st') - frames read_data (st_history st)) = wrap 64 (recv + unsolicited)).
Proof.
  pose proof (session_tracked config scenario worker_id socketio st Hs Hg Hc) as Hk.
  destruct (mode_loop config scenario worker_id socketio st) as [outcome st'].
  destruct Hk as (a & Ht & Hw & Hover). destruct (tracks_added st st' a Ht) as (Hcounts & Hout & Hin & Hclosed & Hcan).
  exists (n_sent (a_counts a)), (n_recv (a_counts a)), (n_unsolicited (a_counts a)), (n_sent_errors (a_counts a)), (n_checks (a_counts a)).
  split; [by rewrite Hcounts; destruct (a_counts a)|]. destruct Hw as (Ho & Hcl & Hns & Hnr & Hecho).
  split; [lia|]. split; [done|]. split; [|intros Hne; rewrite Hin; apply (Hover Hne)].
  destruct (awaits_replies (cf_mode config)); [|done]. destruct Hecho as (Hr & Hch & He). do 3 (split; [done|]).
  intros Hne Hlt. destruct (Hover Hne) as (_ & Hend & _). specialize (Hend eq_refl Hlt).
  destruct (decide (n_sent_errors (a_counts a) = n_checks (a_counts a))) as [Heq|]; [|left; lia].
  destruct (Hend Heq) as [?|?]; [right; left; lia|right; right; by apply Hcan].
Qed.

End Report.

(** A GraphQL subscription counts at most one error against each message
    it counts as sent ([connection_init] and the subscription), and counts
    no message that was not handed to the socket, in every state it waits in
    and when it ends. *)
Theorem graphql_errors_covered `{Hdr H} {N : Type} `{SerdeJson N} `{GraphQLCodec N} (config : LoadTestConfig N)
    (worker_id : Z) (st : State H) (Hc : counts_ok (st_metrics st)) :
  let '(outcome, st') := run_graphql_ws_loop config worker_id st in
  exists sent errors,
    wm_messages_sent (st_metrics st') = wm_messages_sent (st_metrics st) +u sent /\
    wm_sent_message_errors (st_metrics st') = wm_sent_message_errors (st_metrics st) +u errors /\
    0 <= errors <= sent /\
    sent <= frames sent_data (st_history st') - frames sent_data (st_history st).
Proof.
  pose proof (covers_graphql config worker_id st Acct_zero ltac:(repeat split; cbn; lia) st (tracks_start st Hc)) as Hk.
  destruct (run_graphql_ws_loop config worker_id st) as [outcome st'].
  assert (exists a, tracks st st' a /\ covered 0 a) as (a & ((H1'&_)&(_&H4&_)&H5&_) & Hcov)
    by (destruct outcome; exact Hk).
  exists (n_sent (a_counts a)), (n_sent_errors (a_counts a)). unfold counted, covered in *. cbn in *.
  split; [exact H1'|]. split; [exact H4|]. lia.
Qed.

(** ** A session on a concrete script *)

#[local] Existing Instance Scalar.scalar_json.

Definition no_graphql : GraphQLCodec Z := {|
  gql_from_str _ := None;
  gql_to_string _ := Some "{}"%string;
|}.
#[local] Existing Instance no_graphql.

Module Demo.

Definition shared : RunShared ClassHistogram :=
  mkRunShared (LiveMetrics_default (Some 1%nat)) {[ 0%nat := with_shards 1 ]} (IntervalStore_new 0 1000000000).
Definition metrics : WorkerMetrics := (with_latency 0 shared).1.

(** An echo test of the text [hi], one request at a time. *)
Definition config : LoadTestConfig Z :=
  mkLoadTestConfig None 0 (StaticText "hi") None None Echo 0 None false First None None.

(** A GraphQL subscription. *)
Definition gql_config : LoadTestConfig Z :=
  mkLoadTestConfig None 0 (StaticText "hi") None None GraphQLWS 0
    (Some (mkGraphQLWSConfig None "subscription { ticks }" None None)) false First None None.

(** A millisecond later the server has sent [m]; [cancel] cancels the
    run. *)
Definition observation (cancel : bool) (m : Message) : Obs ClassHistogram :=
  mkObs 1000000 cancel id ArmRecv None (Some (inl m)) Connected 0.

Definition start (script : list (Obs ClassHistogram)) : State ClassHistogram :=
  WorkerSession_new config 0 0 metrics shared false 0 script.

(** One request and its reply, then the run ends. *)
Definition script : list (Obs ClassHistogram) :=
  replicate 6 (observation false (Text "hi")) ++ replicate 3 (observation true (Text "hi")).

Definition result := run_echo_loop config None 0 (start script).

Example session_ends : fst result = Exit Finished.
Proof. vm_compute. reflexivity. Qed.
Example session_counts : counts (st_metrics (snd result)) = mkCounts 1 1 0 0 0.
Proof. vm_compute. reflexivity. Qed.
Example session_frames : List.rev (st_history (snd result)) =
  [SentFrame (Text "hi"); ReadFrame (Text "hi"); SentFrame (Close None)].
Proof. vm_compute. reflexivity. Qed.

(** One request whose reply does not come in time. *)
Definition unanswered : list (Obs ClassHistogram) :=
  replicate 4 (observation false (Text "hi")) ++ replicate 2 (mkObs 1000000 false id ArmTimeout None None Connected 0).

Example unanswered_counts :
  let '(outcome, st') := run_echo_loop config None 0 (start unanswered) in
  outcome = Exit Lost /\ counts (st_metrics st') = mkCounts 1 0 0 1 0.
Proof. vm_compute. split; reflexivity. Qed.

End Demo.

Lemma session_accounts_witness :
  let '(outcome, st') := mode_loop Demo.config None 0 (mret Lost) (Demo.start Demo.script) in
  exists sent recv unsolicited errors checks,
    counts (st_metrics st') = added Demo.metrics (mkCounts sent recv unsolicited errors checks) /\
    frames sent_data (st_history st') = sent /\ 0 <= recv /\ recv <= sent <= recv + 1.
Proof.
  pose proof (session_accounts Demo.config None 0 (mret Lost) (Demo.start Demo.script)
    ltac:(discriminate) ltac:(discriminate) eq_refl) as H0.
  destruct (mode_loop _ _ _ _ _) as [o st']. destruct H0 as (sent & recv & unsolicited & errors & checks & H1 & H2 & H3 & H4 & _).
  exists sent, recv, unsolicited, errors, checks. split; [exact H1|]. split; [exact H2|]. split; [exact H3|]. apply H4.
Defined.

Lemma graphql_errors_covered_witness :
  let '(outcome, st') := run_graphql_ws_loop Demo.gql_config 0 (Demo.start Demo.script) in
  exists sent errors, wm_messages_sent (st_metrics st') = 0 +u sent /\
    wm_sent_message_errors (st_metrics st') = 0 +u errors /\ 0 <= errors <= sent.
Proof.
  pose proof (graphql_errors_covered Demo.gql_config 0 (Demo.start Demo.script) eq_refl) as H0.
  destruct (run_graphql_ws_loop _ _ _) as [o st']. destruct H0 as (sent & errors & H1 & H2 & H3 & _).
  exists sent, errors. split; [exact H1|]. split; [exact H2|exact H3].
Defined.
