(* ===== verification/Lifecycle.v ===== *)
(** * The life of a connection slot

    Request claims against [--requests], the outcome a slot reports, the
    reconnect backoff and the response time of paced requests
    (src/src/worker.rs). *)

From Stdlib Require Import ZArith Lia Ascii String.
From stdpp Require Import base tactics strings numbers option gmap list.
From S2P Require Import Prelude RustStd Str Hdr Histogram Live TimeSeries Summaries Metrics Wire Chaos Json.
From S2P Require Import Reply Data Template Session Worker Accounting.

Local Open Scope Z_scope.
Local Open Scope rust_scope.

(** ** Backoff and pacing *)

Fixpoint backoff_delays (n : nat) (next : Z) : list Z :=
  match n with
  | O => []
  | S n' => let (delay, next) := next_delay next in delay :: backoff_delays n' next
  end.

Lemma next_delay_eq next : 0 <= next <= BACKOFF_MAX -> next_delay next = (next, Z.min (2 * next) BACKOFF_MAX).
Proof.
  intros Hn. unfold next_delay, duration_saturating_mul. f_equal.
  assert (2 * BACKOFF_MAX <= DURATION_MAX) by (vm_compute; done). lia.
Qed.

Lemma backoff_delays_lookup n i next :
  0 <= next <= BACKOFF_MAX -> (i < n)%nat ->
  backoff_delays n next !! i = Some (Z.min (next * 2 ^ Z.of_nat i) BACKOFF_MAX).
Proof.
  revert i next. induction n as [|n IH]; intros i next Hn Hi; [lia|].
  cbn [backoff_delays]. rewrite next_delay_eq by done. destruct i as [|i].
  - cbn. f_equal. lia.
  - cbn [lookup list_lookup]. change (list_lookup i ?l) with (l !! i).
    rewrite IH by lia. f_equal. rewrite Nat2Z.inj_succ, Z.pow_succ_r by lia.
    pose proof (Z.pow_pos_nonneg 2 (Z.of_nat i)). nia.
Qed.

(** The wait before the [i]-th attempt after a start or a successful
    handshake is 100 ms doubled [i] times, but never more than 5 s. *)
Theorem backoff_doubles_to_cap (n i : nat) (next : Z) (Hi : (i < n)%nat) :
  backoff_delays n ReconnectBackoff_new !! i = Some (Z.min (from_millis 100 * 2 ^ Z.of_nat i) (from_secs 5)) /\
  backoff_delays n (backoff_reset next) !! i = Some (Z.min (from_millis 100 * 2 ^ Z.of_nat i) (from_secs 5)).
Proof. split; (apply backoff_delays_lookup; [by vm_compute|done]). Qed.

Lemma backoff_doubles_to_cap_witness :
  backoff_delays 8 ReconnectBackoff_new !! 6%nat = Some (Z.min (from_millis 100 * 2 ^ Z.of_nat 6) (from_secs 5)).
Proof. exact (proj1 (backoff_doubles_to_cap 8 6 0 ltac:(lia))). Defined.

Example backoff_first_eight : as_millis <$> backoff_delays 8 ReconnectBackoff_new =
  [100; 200; 400; 800; 1600; 3200; 5000; 5000].
Proof. vm_compute. reflexivity. Qed.

(** What moves a session's schedule between its start and a request. *)
Inductive ScheduleStep := Advance | Shift (delay : Z).
Definition schedule_step (s : SendSchedule) (step : ScheduleStep) : SendSchedule :=
  match step with Advance => advance s | Shift delay => shift delay s end.
Definition slots (steps : list ScheduleStep) : Z :=
  Z.of_nat (length (List.filter (fun s => match s with Advance => true | Shift _ => false end) steps)).
Definition pauses (steps : list ScheduleStep) : Z :=
  sum_Z ((fun s => match s with Advance => 0 | Shift d => d end) <$> steps).

Lemma schedule_steps_due steps s :
  sc_period (fold_left schedule_step steps s) = sc_period s /\
  sc_next_due (fold_left schedule_step steps s) = sc_next_due s + slots steps * sc_period s + pauses steps.
Proof.
  revert s. induction steps as [|step steps IH]; intros s.
  - unfold slots, pauses, sum_Z. cbn. lia.
  - cbn [fold_left]. destruct (IH (schedule_step s step)) as [-> ->]. unfold slots, pauses.
    rewrite fmap_cons, sum_Z_cons. destruct step; cbn [schedule_step advance shift List.filter length sc_next_due sc_period set_field];
      (split; [done|]); [rewrite Nat2Z.inj_succ|]; lia.
Qed.

(** Response times are measured from a fixed schedule, so a slow reply
    cannot hide the requests it held back: request [n] of a paced session is
    due [n] periods after the session's start, moved only by the pauses taken
    on purpose; a request sent within the timer's slack of its due time
    reports its round trip, and one sent later reports the time from its due
    time (plus the slack) to its reply, which is never less. *)
Theorem response_time_from_schedule (now rate : Z) (s : SendSchedule) (steps : list ScheduleStep) (sent_at rtt : Z)
    (Hs : SendSchedule_new now rate = Some s) :
  let due := sc_next_due (fold_left schedule_step steps s) in
  due = now + slots steps * sc_period s + pauses steps /\
  response_time due sent_at rtt =
    (if sent_at <=? due + TIMER_SLACK then rtt else sent_at + rtt - (due + TIMER_SLACK)) /\
  rtt <= response_time due sent_at rtt.
Proof.
  cbv zeta. destruct (schedule_steps_due steps s) as [_ ->].
  assert (sc_next_due s = now) as ->.
  { unfold SendSchedule_new in Hs. destruct (0 <? rate); [|done]. by injection Hs as <-. }
  split; [done|]. unfold response_time, duration_saturating_sub, saturating_duration_since.
  assert (0 <= TIMER_SLACK) by done. generalize dependent TIMER_SLACK. intros slack Hslack.
  destruct (Z.leb_spec sent_at (now + slots steps * sc_period s + pauses steps + slack)); lia.
Qed.

Lemma response_time_from_schedule_witness :
  exists s, SendSchedule_new 0 10 = Some s /\
    response_time (sc_next_due (fold_left schedule_step [Advance; Shift 5000000; Advance] s)) 305000000 1000000 = 99000000.
Proof.
  eexists. split; [reflexivity|].
  eapply eq_trans;
    [exact (proj1 (proj2 (response_time_from_schedule 0 10 _ [Advance; Shift 5000000; Advance] 305000000 1000000 eq_refl)))
    |vm_compute; reflexivity].
Defined.

(** ** What sessions keep

    The parts of the state that only a claim, a handshake or another worker
    changes; a session's own errors only make its error map non-empty. *)

Record Slot := mkSlot {
  v_claimed : Z;
  v_granted : Z;
  v_opened : Z;
  v_reconnects : Z;
  v_interrupted : bool;
  v_clean : bool;
  v_cancelled : bool;
}.
#[export] Instance Slot_eta : Settable Slot := fun v =>
  mkSlot (v_claimed v) (v_granted v) (v_opened v) (v_reconnects v) (v_interrupted v) (v_clean v) (v_cancelled v).

Definition claimed_event (e : Event) : bool := match e with Claimed => true | _ => false end.
Definition opened_event (e : Event) : bool := match e with Opened => true | _ => false end.
Definition claimed_of {H} (s : RunShared H) : Z := lm_requests_claimed (rs_live s).

Definition view {H} (st : State H) : Slot :=
  mkSlot (claimed_of (st_shared st)) (frames claimed_event (st_history st)) (frames opened_event (st_history st))
    (wm_reconnects (st_metrics st)) (wm_interrupted (st_metrics st)) (bool_decide (wm_errors (st_metrics st) = ∅))
    (st_cancelled st).

Section Keeping.
Context {H : Type} `{Hdr H}.

(** Which observations the environment may make. *)
Variable allowed : Obs H -> Prop.

Definition holds (P : Slot -> Prop) (st : State H) : Prop := P (view st) /\ Forall allowed (st_script st).

(** [P] survives what others do to the claims, cancellation and errors. *)
Class Stable (P : Slot -> Prop) := {
  stable_obs : forall ob s v, allowed ob -> P (v <| v_claimed := claimed_of s |>) ->
    P (v <| v_claimed := claimed_of (ob_shared ob s) |>);
  stable_cancel : forall v, P v -> P (v <| v_cancelled := true |>);
  stable_error : forall v, P v -> P (v <| v_clean := false |>);
}.

#[export] Instance stable_and (P Q : Slot -> Prop) : Stable P -> Stable Q -> Stable (fun v => P v /\ Q v).
Proof.
  intros HP HQ. split.
  - intros ob s v Hob [H1 H2]. split; by apply stable_obs.
  - intros v [H1 H2]. split; by apply stable_cancel.
  - intros v [H1 H2]. split; by apply stable_error.
Qed.

(** Ends with [K], exits with [J]. *)
Definition kept {R A} (K J : Slot -> Prop) (m : M H R A) : Prop := forall st, holds K st ->
  match m st with
  | (Val _, st') => holds K st'
  | (_, st') => holds J st'
  end.

Class Kept {R A} (K J : Slot -> Prop) (m : M H R A) := is_kept : kept K J m.

Context (K J : Slot -> Prop) `{!Stable K} `{!Stable J} (HKJ : forall v, K v -> J v).

Lemma holds_weaken st : holds K st -> holds J st.
Proof. intros [HK HF]. split; [by apply HKJ|done]. Qed.

#[export] Instance kept_weaken {R A} (m : M H R A) : Kept K K m -> Kept K J m | 20.
Proof. intros Hm st HI. specialize (Hm st HI). destruct (m st) as [[x|r|] st']; [done|by apply holds_weaken..]. Qed.

End Keeping.

Section Combinators.
Context {H : Type} `{Hdr H} (allowed : Obs H -> Prop) (K J : Slot -> Prop) `{!Stable allowed K} `{!Stable allowed J}.
Hypothesis HKJ : forall v, K v -> J v.
Local Abbreviation Kept := (Kept allowed).

#[export] Instance kept_ret {R A} (x : A) : Kept K K (mret (R := R) x).
Proof. by intros st HI. Qed.
#[export] Instance kept_exit {R A} (r : R) : Kept K K (mexit (A := A) r).
Proof. by intros st HI. Qed.
#[export] Instance kept_gets {R A} (f : State H -> A) : Kept K K (gets (R := R) f).
Proof. by intros st HI. Qed.
#[export] Instance kept_seq {R A B} (m : M H R A) (f : A -> M H R B) :
  Kept K J m -> (forall x, Kept K J (f x)) -> Kept K J (mseq m f) | 5.
Proof.
  intros Hm Hf st HI. specialize (Hm st HI). unfold mseq. destruct (m st) as [[x|r|] st']; [|done..].
  exact (Hf x st' Hm).
Qed.
#[export] Instance kept_when {R} b (m : M H R unit) : Kept K J m -> Kept K J (when b m) | 5.
Proof. intros Hm. destruct b; [exact Hm|]. by intros st HI. Qed.
#[export] Instance kept_if {R A} (b : bool) (m1 m2 : M H R A) : Kept K J m1 -> Kept K J m2 -> Kept K J (if b then m1 else m2) | 5.
Proof. by destruct b. Qed.
#[export] Instance kept_returning {R A} (m : M H A A) : Kept K K m -> Kept K K (returning (R := R) m).
Proof. intros Hm st HI. specialize (Hm st HI). unfold returning. by destruct (m st) as [[x|r|] st']. Qed.
Lemma kept_loop {R S} (body : S -> M H R S) : (forall s, Kept K J (body s)) -> forall fuel s, Kept K J (loop fuel body s).
Proof.
  intros Hb. induction fuel as [|fuel IH]; intros s st HI; cbn [loop].
  - destruct HI as [HK HF]. split; [by apply HKJ|done].
  - specialize (Hb s st HI). destruct (body s st) as [[x|r|] st']; [|done..]. exact (IH x st' Hb).
Qed.
#[export] Instance kept_forever {R S} (body : S -> M H R S) s : (forall s, Kept K J (body s)) -> Kept K J (forever body s) | 5.
Proof. intros Hb st HI. by apply kept_loop. Qed.
#[export] Instance kept_for_n {R S} n (body : S -> M H R S) s : (forall s, Kept K J (body s)) -> Kept K J (for_n n body s) | 5.
Proof.
  intros Hb. revert s. induction n as [|n IH]; intros s; cbn [for_n]; [by intros st HI|].
  apply kept_seq; [apply Hb|apply IH].
Qed.
#[export] Instance kept_for_each {R A S} (l : list A) (body : A -> S -> M H R S) s :
  (forall a s, Kept K J (body a s)) -> Kept K J (for_each l body s) | 5.
Proof.
  intros Hb. revert s. induction l as [|a l IH]; intros s; cbn [for_each]; [by intros st HI|].
  apply kept_seq; [apply Hb|apply IH].
Qed.

#[export] Instance kept_observe {R} : Kept K K (observe (R := R)).
Proof.
  intros st [HK HF]. unfold observe. destruct (st_script st) as [|ob script] eqn:E; [split; [exact HK|rewrite E; constructor]|].
  apply Forall_cons in HF as [Hob HF']. split; [|exact HF'].
  assert (K ((view st) <| v_claimed := claimed_of (ob_shared ob (st_shared st)) |>)) as HK'
    by (apply (stable_obs allowed ob (st_shared st) (view st) Hob); exact HK).
  assert (view (st <| st_script := script |> <| st_now ::= fun now => now + Z.of_N (ob_elapsed ob) |>
      <| st_cancelled ::= fun c => c || ob_cancel ob |> <| st_shared ::= ob_shared ob |>)
    = (if ob_cancel ob then fun v => v <| v_cancelled := true |> else id)
        ((view st) <| v_claimed := claimed_of (ob_shared ob (st_shared st)) |>)) as ->.
  { unfold view. cbn. destruct (st_cancelled st), (ob_cancel ob); done. }
  destruct (ob_cancel ob); [|exact HK']. by apply (stable_cancel allowed).
Qed.
#[export] Instance kept_look {R} : Kept K K (look (R := R)).
Proof. intros st HI. pose proof (kept_observe (R := R) st HI) as Ho. unfold look. by destruct (observe st) as [[x|r|] st']. Qed.

(** An update that leaves the view alone, or makes it less clean. *)
Lemma kept_view {R A} (m : M H R A) :
  (forall st, exists x st', m st = (Val x, st') /\ st_script st' = st_script st /\
     (view st' = view st \/ view st' = (view st) <| v_clean := false |> \/
      view st' = (view st) <| v_cancelled := true |>)) -> Kept K K m.
Proof.
  intros Hm st [HK HF]. destruct (Hm st) as (x & st' & -> & Hs & [Hv|[Hv|Hv]]); (split; [rewrite Hv|by rewrite Hs]);
    [done|by apply (stable_error allowed)|by apply (stable_cancel allowed)].
Qed.

End Combinators.

(** ** The operations on the metrics *)

Section Recording.
Context {H : Type} `{Hdr H}.

(** The worker's part of the view, and the claims. *)
Definition cell_view (c : WorkerMetrics * RunShared H) : Z * Z * bool * gmap ErrorCategory Z :=
  (claimed_of c.2, wm_reconnects c.1, wm_interrupted c.1, wm_errors c.1).

Lemma cell_view_add c n st : cell_view (counters_add c n st) = cell_view st.
Proof. done. Qed.
Lemma cell_view_recorder f st : cell_view (on_recorder_of f st) = cell_view st.
Proof. done. Qed.
Lemma cell_view_interval f st : cell_view (on_interval f st) = cell_view st.
Proof. unfold on_interval. destruct (wm_interval st.1); [|done]. by destruct (f _). Qed.
Lemma cell_view_action f st : cell_view (on_worker (update_action f) st) = cell_view st.
Proof. unfold cell_view, on_worker, update_action. cbn. by destruct (wm_current_action st.1). Qed.
Lemma cell_view_chaos f st : cell_view (on_chaos f st) = cell_view st.
Proof. done. Qed.

Lemma cell_view_message_sent bytes st : cell_view (record_message_sent bytes st) = cell_view st.
Proof. unfold record_message_sent. by rewrite !cell_view_add, cell_view_action. Qed.
Lemma cell_view_message_recv now bytes rtt st : cell_view (record_message_recv now bytes rtt st) = cell_view st.
Proof.
  unfold record_message_recv. rewrite !cell_view_add. destruct rtt; [|done].
  cbv zeta. destruct_matches; rewrite ?cell_view_interval, ?cell_view_recorder; done.
Qed.
Lemma cell_view_response now d st : cell_view (record_response_time now d st) = cell_view st.
Proof. unfold record_response_time. cbv zeta. rewrite cell_view_interval. destruct_matches; by rewrite !cell_view_recorder. Qed.
Lemma cell_view_unsolicited n st : cell_view (record_unsolicited_frames n st) = cell_view st.
Proof. unfold record_unsolicited_frames. by destruct (n =? 0). Qed.
Lemma cell_view_closed st : cell_view (record_connection_closed st) = cell_view st.
Proof. done. Qed.
Lemma cell_view_handshake d st : cell_view (record_handshake d st) = cell_view st.
Proof. done. Qed.
Lemma cell_view_reconnect d st :
  cell_view (record_reconnect d st) = (claimed_of st.2, wm_reconnects st.1 +u 1, wm_interrupted st.1, wm_errors st.1).
Proof. done. Qed.

Lemma cell_view_error cat scope st :
  exists n, cell_view (record_error cat scope st) = (claimed_of st.2, wm_reconnects st.1, wm_interrupted st.1, <[cat := n]> (wm_errors st.1)).
Proof.
  unfold record_error. rewrite cell_view_add, cell_view_action. eexists. unfold cell_view. cbn.
  destruct (decide (scope = SentMessage)); reflexivity.
Qed.
Lemma cell_view_failed cat st :
  exists n, cell_view (record_connection_failed cat st) = (claimed_of st.2, wm_reconnects st.1, wm_interrupted st.1, <[cat := n]> (wm_errors st.1)).
Proof. unfold record_connection_failed. rewrite cell_view_add. apply cell_view_error. Qed.

Lemma recording_view {R} f (st : State H) :
  exists st', recording (R := R) f st = (Val tt, st') /\ st_script st' = st_script st /\
    (st_history st' = st_history st /\ st_cancelled st' = st_cancelled st) /\ cell_view (st_metrics st', st_shared st') = cell_view (f (st_metrics st, st_shared st)).
Proof. unfold recording, modify. destruct (f _) as [w s] eqn:E. eexists. repeat split. Qed.

Lemma view_of_cell (st st' : State H) :
  st_history st' = st_history st -> st_cancelled st' = st_cancelled st ->
  cell_view (st_metrics st', st_shared st') = cell_view (st_metrics st, st_shared st) -> view st' = view st.
Proof. unfold view, cell_view. cbn. intros -> -> [= -> -> -> ->]. done. Qed.

End Recording.

(** ** Every session keeps what its claims keep *)

Section Sessions.
Context {H : Type} `{Hdr H} {N : Type} `{SerdeJson N} `{GraphQLCodec N}.
Variable config : LoadTestConfig N.
Variable scenario : option (ScenarioPhase N).
Variable worker_id : Z.
Variable allowed : Obs H -> Prop.
Context (K J : Slot -> Prop) `{!Stable allowed K} `{!Stable allowed J}.
Hypothesis HKJ : forall v, K v -> J v.
Local Abbreviation Kept := (Kept allowed).
Context {Hclaim : Kept K J (claim_or_stop config)}.

#[local] Instance weaken {R A} (m : M H R A) : Kept K K m -> Kept K J m | 20.
Proof. apply kept_weaken, HKJ. Qed.
#[local] Instance forever_same {R S} (body : S -> M H R S) s : (forall s, Kept K K (body s)) -> Kept K K (forever body s).
Proof. apply kept_forever. auto. Qed.
#[local] Instance forever_exit {R S} (body : S -> M H R S) s : (forall s, Kept K J (body s)) -> Kept K J (forever body s) | 5.
Proof. by apply kept_forever. Qed.

Local Ltac frame := apply (kept_view allowed K); intros st; eexists _, _; split; [reflexivity|split; [done|by left]].

Lemma kept_recording {R} f : (forall c, cell_view (f c) = cell_view c) -> Kept K K (recording (R := R) f).
Proof.
  intros Hf. apply (kept_view allowed K). intros st. destruct (recording_view (R := R) f st) as (st' & Hr & Hs & (Hh & Hcc) & Hc).
  exists tt, st'. split; [done|]. split; [done|]. left. apply view_of_cell; [done|done|]. by rewrite Hc, Hf.
Qed.
#[local] Instance kept_error {R} cat scope : Kept K K (recording (R := R) (record_error cat scope)).
Proof.
  apply (kept_view allowed K). intros st. destruct (recording_view (R := R) (record_error cat scope) st) as (st' & Hr & Hs & (Hh & Hcc) & Hc).
  exists tt, st'. split; [done|]. split; [done|]. right. left.
  destruct (cell_view_error cat scope (st_metrics st, st_shared st)) as [n Hn]. rewrite Hn in Hc.
  unfold view. unfold cell_view in Hc. cbn in Hc. injection Hc as -> -> -> ->. rewrite Hh, Hcc. cbn.
  f_equal. apply bool_decide_eq_false. apply insert_non_empty.
Qed.
#[local] Instance kept_rec_sent {R} b : Kept K K (recording (R := R) (record_message_sent b)).
Proof. apply kept_recording. intros c. apply cell_view_message_sent. Qed.
#[local] Instance kept_rec_recv {R} n b r : Kept K K (recording (R := R) (record_message_recv n b r)).
Proof. apply kept_recording. intros c. apply cell_view_message_recv. Qed.
#[local] Instance kept_rec_response {R} n d : Kept K K (recording (R := R) (record_response_time n d)).
Proof. apply kept_recording. intros c. apply cell_view_response. Qed.
#[local] Instance kept_rec_unsolicited {R} n : Kept K K (recording (R := R) (record_unsolicited_frames n)).
Proof. apply kept_recording. intros c. apply cell_view_unsolicited. Qed.
#[local] Instance kept_rec_chaos {R} f : Kept K K (recording (R := R) (on_chaos f)).
Proof. by apply kept_recording. Qed.
#[local] Instance kept_dropped {R} : Kept K K (recording (R := R) record_chaos_dropped).
Proof. by apply kept_recording. Qed.
#[local] Instance kept_delayed {R} : Kept K K (recording (R := R) record_chaos_delayed).
Proof. by apply kept_recording. Qed.
#[local] Instance kept_closed {R} : Kept K K (recording (R := R) record_chaos_close).
Proof. by apply kept_recording. Qed.

#[local] Instance kept_cancel {R} : Kept K K (cancel (R := R)).
Proof. apply (kept_view allowed K). intros st; eexists _, _; split; [reflexivity|split; [done|by right; right]]. Qed.
#[local] Instance kept_vars {R} f : Kept K K (modify (R := R) (fun st => st <| st_vars := f st |>)).
Proof. frame. Qed.
#[local] Instance kept_interval_flag {R} b :
  Kept K K (modify (R := R) (fun st => st <| st_metrics ::= fun w => w <| wm_interval_uses_response := b |> |>)).
Proof. frame. Qed.
#[local] Instance kept_action {R} a :
  Kept K K (modify (R := R) (fun st => st <| st_metrics ::= fun w => w <| wm_current_action := a |> |>)).
Proof. frame. Qed.
#[local] Instance kept_sent_frame {R} m : Kept K K (modify (R := R) (fun st => st <| st_history ::= fun h => SentFrame m :: h |>)).
Proof. frame. Qed.
#[local] Instance kept_read_frame {R} m : Kept K K (modify (R := R) (fun st => st <| st_history ::= fun h => ReadFrame m :: h |>)).
Proof. frame. Qed.

Local Ltac kept := repeat (apply kept_seq; [try apply _|intros ?]); try apply _.

#[local] Instance kept_send {R} m : Kept K K (send (R := R) m).
Proof. unfold send. apply kept_seq; [apply _|]. intros ob. destruct (ob_send ob); apply _. Qed.
#[local] Instance kept_send_ignoring {R} m : Kept K K (send_ignoring (R := R) m).
Proof. unfold send_ignoring. apply _. Qed.
#[local] Instance kept_send_close {R} : Kept K K (send_close (R := R)).
Proof. unfold send_close. apply _. Qed.
#[local] Instance kept_heartbeat {R} : Kept K K (send_heartbeat (R := R)).
Proof. unfold send_heartbeat. apply _. Qed.
#[local] Instance kept_next_frame {R} ob : Kept K K (next_frame (R := R) ob).
Proof. unfold next_frame. destruct (ob_next ob) as [[]|]; apply _. Qed.
#[local] Instance kept_is_cancelled {R} : Kept K K (is_cancelled (R := R)).
Proof. unfold is_cancelled. apply _. Qed.
#[local] Instance kept_instant_now {R} : Kept K K (instant_now (R := R)).
Proof. unfold instant_now. apply _. Qed.
#[local] Instance kept_session_end {R} : Kept K K (session_end (R := R)).
Proof. unfold session_end. apply _. Qed.
#[local] Instance kept_break {A} : Kept K K (break_session (A := A)).
Proof. unfold break_session. apply _. Qed.
#[local] Instance kept_close_break {A} : Kept K K (close_and_break (A := A)).
Proof. unfold close_and_break. apply _. Qed.
#[local] Instance kept_select {R} first others : Kept K K (select (R := R) first others).
Proof. unfold select. apply kept_seq; [apply _|]. intros ob. apply kept_seq; [apply _|]. intros c. repeat case_decide; apply _. Qed.
#[local] Instance kept_select_biased {R} : Kept K K (select_biased (R := R)).
Proof. unfold select_biased. apply kept_seq; [apply _|]. intros ob. apply kept_seq; [apply _|]. intros []; [apply _|]. case_decide; apply _. Qed.
#[local] Instance kept_sleep {R} : Kept K K (sleep_unless_cancelled (R := R)).
Proof. unfold sleep_unless_cancelled. apply kept_seq; [apply _|]. intros []. apply _. Qed.

#[local] Instance kept_reached : Kept K K (max_requests_reached config).
Proof. unfold max_requests_reached. destruct (cf_max_requests config); apply _. Qed.
#[local] Instance kept_think : Kept K K (apply_think_time scenario).
Proof. unfold apply_think_time. destruct scenario; apply _. Qed.
#[local] Instance kept_chaos_plan : Kept K K chaos_plan.
Proof.
  apply (kept_view allowed K). intros st. unfold chaos_plan. destruct (st_chaos st); [destruct (plan_send _)|];
    (eexists _, _; split; [reflexivity|split; [done|by left]]).
Qed.
#[local] Instance kept_close_now : Kept K K chaos_close_now.
Proof.
  apply (kept_view allowed K). intros st. unfold chaos_close_now. destruct (st_chaos st); [destruct (close_now _)|];
    (eexists _, _; split; [reflexivity|split; [done|by left]]).
Qed.
#[local] Instance kept_read_pause {R} : Kept K K (chaos_read_pause (R := R)).
Proof.
  apply (kept_view allowed K). intros st. unfold chaos_read_pause.
  destruct (st_chaos st); [destruct (read_pause _) as [[p|] ch]|];
    (eexists _, _; split; [reflexivity|split; [done|by left]]).
Qed.
#[local] Instance kept_chaos_corrupt m b : Kept K K (chaos_corrupt m b).
Proof.
  apply (kept_view allowed K). intros st. unfold chaos_corrupt.
  destruct (st_chaos st); [destruct b; [destruct (corrupt m _) as [[m' []] ch]|]|];
    (eexists _, _; split; [reflexivity|split; [done|by left]]).
Qed.
#[local] Instance kept_chaos_delay : Kept K K chaos_delay.
Proof. unfold chaos_delay. apply _. Qed.
#[local] Instance kept_chaos_close {A} g : Kept K K (chaos_close (A := A) g).
Proof. unfold chaos_close. apply _. Qed.
#[local] Instance kept_maybe_close : Kept K K maybe_chaos_close.
Proof. unfold maybe_chaos_close. apply kept_seq; [apply _|]. intros []; apply _. Qed.
#[local] Instance kept_render p seq : Kept K K (render_message config worker_id p seq).
Proof. unfold render_message. destruct p; apply _. Qed.
#[local] Instance kept_new_schedule rate : Kept K K (new_schedule rate).
Proof. unfold new_schedule. apply _. Qed.
#[local] Instance kept_restart s : Kept K K (restart_schedule s).
Proof. unfold restart_schedule. destruct s; apply _. Qed.
#[local] Instance kept_pause s : Kept K K (pause_after_reply s).
Proof. unfold pause_after_reply, chaos_pause. apply kept_seq; [apply _|]. intros []; apply _. Qed.
#[local] Instance kept_delay plan s due : Kept K K (delay_send plan s due).
Proof. unfold delay_send. apply _. Qed.
#[local] Instance kept_wait_round u : Kept K K (wait_round config u).
Proof. unfold wait_round. apply kept_seq; [apply _|]. intros [[] ob]; apply _. Qed.
#[local] Instance kept_wait_for_slot : Kept K K (wait_for_slot config).
Proof. unfold wait_for_slot. apply _. Qed.
#[local] Instance kept_poll : Kept K K (poll_keepalive config).
Proof. unfold poll_keepalive. apply _. Qed.
#[local] Instance kept_pace s t : Kept K K (wait_for_pace s t).
Proof. unfold wait_for_pace. destruct s; apply _. Qed.
#[local] Instance kept_pong {R} : Kept K K (pong_reply (R := R)).
Proof. unfold pong_reply. destruct (gql_to_string _); apply _. Qed.

#[local] Instance kept_await_round sent seq c u : Kept K K (await_round config sent seq c u).
Proof.
  unfold await_round. apply kept_seq; [apply _|]. intros [[] ob]; try apply _;
    (apply kept_seq; [apply _|]; intros [[[]|]|]; try apply _).
Qed.
#[local] Instance kept_await_reply sent seq c : Kept K K (await_reply config sent seq c).
Proof. unfold await_reply. apply _. Qed.
#[local] Instance kept_check reply e cs : Kept K K (check_reply config reply e cs).
Proof.
  unfold check_reply. destruct (cf_expect config), e, cs; try apply _;
    (apply kept_seq; [apply _|]; intros vars; destruct (fold_left _ _ _) as [p vs]; apply _).
Qed.
#[local] Instance kept_reply_metrics reply c e cs due t : Kept K K (record_reply_metrics config reply c e cs due t).
Proof.
  unfold record_reply_metrics. apply kept_seq; [apply _|]. intros now. apply kept_seq; [apply _|]. intros _.
  apply kept_seq; [apply _|]. intros _. destruct due; apply _.
Qed.
#[local] Instance kept_record_reply o f : (forall m, Kept K K (f m)) -> Kept K K (record_reply o f).
Proof. intros Hf. unfold record_reply. destruct o; apply _. Qed.
#[local] Instance kept_send_or_stop msg : Kept K K (send_unless_cancelled msg).
Proof.
  unfold send_unless_cancelled. apply kept_seq; [apply _|]. intros [arm ob]. case_decide; [apply _|].
  destruct (ob_send ob); apply _.
Qed.
#[local] Instance kept_send_data msg : Kept K K (send_data msg).
Proof. unfold send_data. apply kept_seq; [apply _|]. intros []; apply _. Qed.

#[local] Instance kept_echo_round r s : Kept K J (echo_round config scenario worker_id r s).
Proof.
  destruct s as [seq schedule]. unfold echo_round. apply kept_seq; [apply _|]. intros c.
  apply kept_seq; [apply _|]. intros _. apply kept_seq; [destruct (sc_next_due <$> schedule); apply _|]. intros _.
  apply kept_seq; [apply _|]. intros _. apply kept_seq; [apply _|]. intros plan.
  destruct (pl_drop plan); [apply _|]. apply kept_seq; [apply _|]. intros [sch due].
  apply kept_seq; [unfold render_payload; apply _|]. intros m. apply kept_seq; [apply _|]. intros [m' c'].
  apply kept_seq; [apply _|]. intros t. apply kept_seq; [apply _|]. intros _. apply kept_seq; [apply _|]. intros [o u].
  apply kept_seq; [apply _|]. intros _. apply kept_seq; [apply _|]. intros _. apply kept_seq; [apply _|]. intros sch'.
  apply kept_seq; [apply _|]. intros ok. apply kept_seq; [apply _|]. intros _.
  apply kept_seq; [destruct r; apply _|]. intros sch''. apply _.
Qed.
#[local] Instance kept_run_echo : Kept K J (run_echo_loop config scenario worker_id).
Proof. unfold run_echo_loop. apply _. Qed.

#[local] Instance kept_incoming ob : Kept K K (incoming_frame ob).
Proof.
  unfold incoming_frame. apply kept_seq; [apply _|]. intros [[[]|]|]; try apply _.
Qed.
#[local] Instance kept_stream_send seq : Kept K J (stream_send config scenario worker_id seq).
Proof.
  unfold stream_send, render_payload. apply kept_seq; [apply _|]. intros _. apply kept_seq; [apply _|]. intros plan.
  destruct (pl_drop plan); [apply _|]. apply kept_seq; [apply _|]. intros _. apply kept_seq; [apply _|]. intros m.
  apply kept_seq; [apply _|]. intros [m' c]. apply _.
Qed.
#[local] Instance kept_stream_round s : Kept K J (stream_round config scenario worker_id s).
Proof. destruct s. unfold stream_round. apply kept_seq; [apply _|]. intros [[] ob]; apply _. Qed.
#[local] Instance kept_listen_round s : Kept K K (listen_round config s).
Proof. unfold listen_round. apply kept_seq; [apply _|]. intros [[] ob]; apply _. Qed.

#[local] Instance kept_set_action a : Kept K K (set_action a).
Proof. unfold set_action. apply _. Qed.
#[local] Instance kept_action_send t p e cs s : Kept K J (action_send config worker_id t p e cs s).
Proof.
  destruct s as [seq schedule]. unfold action_send. apply kept_seq; [apply _|]. intros c.
  apply kept_seq; [apply _|]. intros _. apply kept_seq; [apply _|]. intros _. apply kept_seq; [apply _|]. intros _.
  apply kept_seq; [apply _|]. intros plan. destruct (pl_drop plan); [apply _|]. apply kept_seq; [apply _|]. intros [sch due].
  apply kept_seq; [apply _|]. intros m. apply kept_seq; [apply _|]. intros [m' c'].
  apply kept_seq; [apply _|]. intros start. apply kept_seq; [apply _|]. intros _.
  apply kept_seq; [destruct (awaits_replies _); [|apply _]|].
  - apply kept_seq; [apply _|]. intros [o u]. apply _.
  - intros sch'. apply _.
Qed.
#[local] Instance kept_run_action phase t a s : Kept K J (run_action config scenario worker_id phase t a s).
Proof.
  unfold run_action. apply kept_seq; [apply _|]. intros c. apply kept_seq; [apply _|]. intros ex.
  apply kept_seq; [apply _|]. intros _. destruct a as [p n e cs name|d|i|code reason].
  - apply kept_seq; [apply _|]. intros _. apply kept_seq; [apply _|]. intros [seq sch].
    apply kept_seq; [apply _|]. intros _. apply kept_seq; [apply _|]. intros ok. apply kept_seq; [apply _|]. intros _.
    apply kept_seq; [destruct (_ =? 0); apply _|]. intros sch'. apply _.
  - apply kept_seq; [apply _|]. intros ok. apply kept_seq; [apply _|]. intros _. destruct s. apply _.
  - apply kept_seq; [apply _|]. intros res. apply kept_seq; [destruct res; apply _|]. intros _.
    apply kept_seq; [apply _|]. intros ok. apply kept_seq; [apply _|]. intros _. destruct s. apply _.
  - apply _.
Qed.
#[local] Instance kept_run_action_loop phase : Kept K J (run_action_loop config scenario worker_id phase).
Proof.
  unfold run_action_loop. apply kept_seq; [exact (kept_weaken _ K J HKJ _ (kept_vars (fun _ => replicate (length (ph_vars phase)) ""%string)))|].
  intros _. apply kept_seq; [destruct (awaits_replies _); apply _|]. intros sch. apply kept_seq; [apply _|]. intros _.
  unfold script_round. apply _.
Qed.

#[local] Instance kept_failure {A} : Kept K K (protocol_failure (A := A)).
Proof. unfold protocol_failure. apply _. Qed.
#[local] Instance kept_sent_failure {A} c : Kept K K (sent_failure (A := A) c).
Proof. unfold sent_failure. apply _. Qed.
#[local] Instance kept_ack_round u : Kept K K (ack_round config u).
Proof.
  unfold ack_round. apply kept_seq; [apply _|]. intros [[] ob]; try apply _.
  apply kept_seq; [apply _|]. intros [[[]|]|]; try apply _. destruct (gql_from_str _) as [[]|]; apply _.
Qed.
#[local] Instance kept_subscription_round r : Kept K K (subscription_round config r).
Proof.
  unfold subscription_round. apply kept_seq; [apply _|]. intros [[] ob]; try apply _;
    (apply kept_seq; [apply _|]; intros [[[]|]|]; try apply _; destruct (gql_from_str _) as [[]|]; apply _).
Qed.
#[local] Instance kept_gql_send m : Kept K K (gql_send m).
Proof. unfold gql_send. destruct (gql_to_string m); apply _. Qed.
#[local] Instance kept_graphql : Kept K K (run_graphql_ws_loop config worker_id).
Proof.
  unfold run_graphql_ws_loop. destruct (cf_graphql_ws config); [|apply _]. cbv zeta.
  apply kept_seq; [apply _|]. intros _. apply kept_seq; [apply _|]. intros [e|_]; [apply _|].
  apply kept_seq; [apply _|]. intros _. apply kept_seq; [apply _|]. intros [c done].
  destruct (gql_to_string _); [|apply _]. apply _.
Qed.

Lemma kept_mode_loop socketio : (cf_mode config = SocketIo -> Kept K J socketio) ->
  Kept K J (mode_loop config scenario worker_id socketio).
Proof.
  intros Hs. unfold mode_loop. case_decide as Hm; [by apply Hs|].
  assert (Kept K J match cf_mode config with
    | Echo => run_echo_loop config scenario worker_id
    | Stream => run_stream_loop config scenario worker_id
    | Listen => run_listen_loop config
    | GraphQLWS => run_graphql_ws_loop config worker_id
    | SocketIo => mret Lost
    end) by (unfold run_stream_loop, run_listen_loop; destruct (cf_mode config); apply _).
  cbv zeta. destruct scenario as [phase|] eqn:E; [|done]. rewrite <- E in *. case_decide; [done|apply _].
Qed.

End Sessions.

(** ** Reasoning about one step at a time *)

Section Ends.
Context {H : Type} `{Hdr H}.

Definition ends {R A} (m : M H R A) (Q : A -> State H -> Prop) (X : R -> State H -> Prop) (E : State H -> Prop)
    (st : State H) : Prop :=
  match m st with
  | (Val x, st') => Q x st'
  | (Exit r, st') => X r st'
  | (Stuck, st') => E st'
  end.

Lemma ends_seq {R A B} (m : M H R A) (f : A -> M H R B) Q X E st :
  ends m (fun x st' => ends (f x) Q X E st') X E st -> ends (mseq m f) Q X E st.
Proof. unfold ends, mseq. by destruct (m st) as [[x|r|] st']. Qed.
Lemma ends_when {R} b (m : M H R unit) (Q : unit -> State H -> Prop) X E st :
  (b = true -> ends m Q X E st) -> (b = false -> Q tt st) -> ends (when b m) Q X E st.
Proof. destruct b; [intros Hm _; by apply Hm|intros _ HQ; by apply HQ]. Qed.
Lemma ends_returning {R A} (m : M H A A) (Q : A -> State H -> Prop) (X : R -> State H -> Prop) E st :
  ends m Q Q E st -> ends (returning m) Q X E st.
Proof. unfold ends, returning. by destruct (m st) as [[x|r|] st']. Qed.
Lemma ends_mono {R A} (m : M H R A) (Q Q' : A -> State H -> Prop) (X X' : R -> State H -> Prop) (E E' : State H -> Prop) st :
  ends m Q X E st -> (forall x st', Q x st' -> Q' x st') -> (forall r st', X r st' -> X' r st') ->
  (forall st', E st' -> E' st') -> ends m Q' X' E' st.
Proof. unfold ends. intros Hm HQ HX HE. destruct (m st) as [[x|r|] st']; auto. Qed.

(** A loop: [I] before every round. *)
Lemma ends_forever {R S} (body : S -> M H R S) (I : S -> State H -> Prop) X (E : State H -> Prop) s st :
  (forall s st, I s st -> E st) -> (forall s st, I s st -> ends (body s) I X E st) ->
  I s st -> forall Q, ends (forever body s) Q X E st.
Proof.
  intros HE Hb HI Q. unfold forever, ends. generalize (Datatypes.S (length (st_script st))). intros fuel.
  revert s st HI. induction fuel as [|fuel IH]; intros s st HI; cbn [loop]; [by apply (HE s)|].
  specialize (Hb s st HI). unfold ends in Hb. destruct (body s st) as [[s'|r|] st']; [by apply IH|done..].
Qed.

Lemma ends_kept {R A} allowed (K J : Slot -> Prop) (m : M H R A) (Q : A -> State H -> Prop) (X : R -> State H -> Prop)
    (E : State H -> Prop) st :
  Kept allowed K J m -> holds allowed K st ->
  (forall x st', holds allowed K st' -> Q x st') -> (forall r st', holds allowed J st' -> X r st') ->
  (forall st', holds allowed J st' -> E st') -> ends m Q X E st.
Proof. intros Hm Hst HQ HX HE. specialize (Hm st Hst). unfold ends. destruct (m st) as [[x|r|] st']; auto. Qed.

Lemma ends_close_break {A} allowed (K : Slot -> Prop) `{!Stable allowed K} st :
  holds allowed K st -> ends (close_and_break (A := A)) (fun _ _ => False) (fun _ => holds allowed K) (holds allowed K) st.
Proof.
  intros Hst. unfold close_and_break, break_session. apply ends_seq.
  eapply (ends_kept allowed K K); [apply kept_send_close, _|done| |done|done]. intros _ st1 H1.
  apply ends_seq. eapply (ends_kept allowed K K); [apply kept_session_end, _|done| |done|done]. by intros e st2 H2.
Qed.

(** An operation on the metrics, by what it does to the view. *)
Lemma ends_recording {R} f (Q : unit -> State H -> Prop) (X : R -> State H -> Prop) E st :
  (forall st', st_script st' = st_script st -> st_history st' = st_history st -> st_cancelled st' = st_cancelled st ->
     cell_view (st_metrics st', st_shared st') = cell_view (f (st_metrics st, st_shared st)) -> Q tt st') ->
  ends (recording (R := R) f) Q X E st.
Proof.
  intros HQ. unfold ends. destruct (recording_view (R := R) f st) as (st' & -> & Hs & (Hh & Hc) & Hv). by apply HQ.
Qed.

End Ends.

(** ** Request claims *)

Section Claims.
Context {H : Type} `{Hdr H} {N : Type} `{SerdeJson N} `{GraphQLCodec N}.
Variable config : LoadTestConfig N.
Variable scenario : option (ScenarioPhase N).
Variable worker_id : Z.
(** The limit, the claims taken before this worker starts and the grants its
    history already holds. *)
Context (max claimed0 granted0 : Z) (Hmax : is_u64 max) (H0' : 0 <= claimed0).

(** Other workers only claim. *)
Definition only_claims (ob : Obs H) : Prop := forall s, claimed_of s <= claimed_of (ob_shared ob s).

Definition within (v : Slot) : Prop := 0 <= v_granted v - granted0 <= Z.max 0 (max - claimed0).
Definition claiming (v : Slot) : Prop := within v /\ claimed0 + (v_granted v - granted0) <= v_claimed v.
Definition claimed_out (v : Slot) : Prop := within v /\ (v_cancelled v = true \/ claiming v).
Definition stopped (v : Slot) : Prop := within v /\ v_cancelled v = true.

#[export] Instance claiming_stable : Stable only_claims claiming.
Proof. split; [intros ob s v Hob; specialize (Hob s)|..]; unfold claiming, within; cbn; naive_solver lia. Qed.
#[export] Instance stopped_stable : Stable only_claims stopped.
Proof. split; unfold stopped, within; cbn; naive_solver. Qed.
#[export] Instance claimed_out_stable : Stable only_claims claimed_out.
Proof. split; [intros ob s v Hob; specialize (Hob s)|..]; unfold claimed_out, claiming, within; cbn; naive_solver lia. Qed.
Lemma claiming_out v : claiming v -> claimed_out v.
Proof. unfold claimed_out, claiming. tauto. Qed.
Lemma stopped_out v : stopped v -> claimed_out v.
Proof. unfold claimed_out, stopped. tauto. Qed.

Lemma kept_claim (Hc : cf_max_requests config = Some max) : Kept only_claims claiming claimed_out (claim_or_stop config).
Proof.
  intros st [HK HF]. unfold claim_or_stop, claim_send, mseq. rewrite Hc. unfold claim_request, when.
  destruct (Z.ltb_spec (lm_requests_claimed (rs_live (st_shared st))) max) as [Hlt|Hge]; cbn [negb].
  - split; [|exact HF]. destruct HK as [[Hw1 Hw2] Hk]. unfold claiming, within, view in *. cbn in *.
    rewrite frames_cons. unfold claimed_of, is_u64 in *. cbn. rewrite u64_add_id by lia. lia.
  - set (st1 := _ <| st_history ::= _ |>).
    assert (holds only_claims stopped (st1 <| st_cancelled := true |>)) as Hs
      by (split; [split; [exact (proj1 HK)|done]|exact HF]).
    apply (ends_close_break (A := unit)) in Hs; [|apply _]. unfold ends in Hs. unfold cancel, modify.
    destruct (close_and_break _) as [[x|r|] st2]; [done|..]; destruct Hs as [Hs HF2]; (split; [by apply stopped_out|done]).
Qed.

End Claims.

(** ** Connection attempts *)

Section Attempts.
Context {H : Type} `{Hdr H}.
Variable allowed : Obs H -> Prop.
Context (K : Slot -> Prop) `{!Stable allowed K}.
Local Abbreviation holds := (holds allowed).

(** What a handshake makes of a slot. *)
Definition opened (connected_before : bool) (v : Slot) : Slot :=
  v <| v_opened ::= Z.succ |> <| v_reconnects ::= fun n => if connected_before then n +u 1 else n |>.
Definition handshaken (connected_before : bool) (hs : Handshake) (v v' : Slot) : Prop :=
  match hs with
  | HsOpen => v' = opened connected_before v
  | HsFailed => v' = v <| v_clean := false |>
  | HsStop =>
      v' = v <| v_clean := false |> \/
      (if negb connected_before && v_clean v then v' = v <| v_interrupted := true |> else v' = v)
  end.

Lemma record_failed_view {R} cat (X : R -> State H -> Prop) E st :
  ends (recording (R := R) (record_connection_failed cat))
    (fun _ st' => st_script st' = st_script st /\ view st' = (view st) <| v_clean := false |>) X E st.
Proof.
  apply ends_recording. intros st' Hs Hh Hc Hv. split; [done|].
  destruct (cell_view_failed cat (st_metrics st, st_shared st)) as [n Hn]. rewrite Hn in Hv.
  unfold view, cell_view in *. cbn in *. injection Hv as -> -> -> ->. rewrite Hh, Hc. f_equal.
  apply bool_decide_eq_false, insert_non_empty.
Qed.

Lemma ends_observe {R} (X : R -> State H -> Prop) st :
  holds K st -> ends observe (fun _ => holds K) X (holds K) st.
Proof.
  intros Hst. pose proof (kept_observe allowed K (R := R) st Hst) as Hk. unfold ends, observe in *.
  by destruct (st_script st).
Qed.
Lemma ends_look {R} (X : R -> State H -> Prop) st :
  holds K st -> ends look (fun _ => holds K) X (holds K) st.
Proof.
  intros Hst. pose proof (kept_look allowed K (R := R) st Hst) as Hk. unfold ends, look in *.
  by destruct (observe st) as [[x|r|] st'].
Qed.
Lemma ends_is_cancelled {R} (X : R -> State H -> Prop) st :
  holds K st -> ends is_cancelled (fun c st' => holds K st' /\ c = st_cancelled st') X (holds K) st.
Proof.
  intros Hst. apply ends_seq. eapply ends_mono; [exact (ends_look X st Hst)| |done|done].
  intros ob st1 H1. by split.
Qed.
Lemma ends_select_biased {R} (X : R -> State H -> Prop) st :
  holds K st -> ends select_biased (fun _ => holds K) X (holds K) st.
Proof.
  intros Hst. apply ends_seq. eapply ends_mono; [exact (ends_observe X st Hst)| |done|done].
  intros ob st1 H1. unfold ends, mseq, gets. destruct (st_cancelled st1); [done|]. by case_decide.
Qed.
Lemma ends_sleep {R} (X : R -> State H -> Prop) st :
  holds K st -> ends sleep_unless_cancelled (fun _ => holds K) X (holds K) st.
Proof.
  intros Hst. apply ends_seq, ends_seq. eapply ends_mono; [exact (ends_observe X st Hst)| |done|done].
  intros ob st1 H1. unfold ends, mseq, gets. by repeat case_decide.
Qed.

Lemma handshake_view connected_before (X : unit -> State H -> Prop) st :
  holds K st ->
  ends (handshake connected_before)
    (fun hs st' => Forall allowed (st_script st') /\ exists v, K v /\ handshaken connected_before hs v (view st'))
    X (holds K) st.
Proof.
  intros Hst. unfold handshake. apply ends_seq.
  assert (holds K (st <| st_metrics ::= fun w => w <| wm_current_action := None |> |>)) as H1 by exact Hst.
  unfold ends, modify. change (ends ?m ?Q ?X ?E ?s) with (ends m Q X E s).
  apply ends_seq, ends_seq. eapply ends_mono; [exact (ends_look X _ H1)| |done|done]. clear H1. intros ob0 st0 H1.
  unfold ends at 1, gets. apply ends_seq. eapply ends_mono; [exact (ends_select_biased X _ H1)| |done|done].
  clear H1. intros [arm ob] st1 [H1 HF]. case_decide.
  { apply ends_seq. unfold ends, modify, mret. split; [exact HF|]. exists (view st1). split; [exact H1|]. right.
    unfold view. cbn. destruct (negb connected_before); cbn; [|done].
    destruct (bool_decide _) eqn:He; cbn; by rewrite He. }
  destruct (ob_connect ob) as [|cat|err|].
  - apply ends_seq. unfold ends at 1, modify. apply ends_seq. unfold ends at 1, gets. apply ends_seq.
    apply ends_recording. intros st2 Hs Hh Hc Hv. unfold ends, mret. rewrite Hs. split; [exact HF|].
    exists (view st1). split; [exact H1|]. unfold view, opened. rewrite Hh, Hc. unfold cell_view in Hv. cbn.
    assert (frames claimed_event (Opened :: st_history st1) = frames claimed_event (st_history st1)) as ->
      by (rewrite frames_cons; apply Z.add_0_l).
    assert (frames opened_event (Opened :: st_history st1) = Z.succ (frames opened_event (st_history st1))) as ->
      by (rewrite frames_cons; apply Z.add_1_l).
    destruct connected_before; cbn in Hv; by injection Hv as -> -> -> ->.
  - apply ends_seq. eapply ends_mono; [exact (record_failed_view cat X (fun _ => False) _)| |done|done].
    intros _ st2 [Hs Hv]. unfold ends, mret. rewrite Hs. split; [exact HF|]. exists (view st1). split; [exact H1|by left].
  - apply ends_seq. eapply ends_mono; [exact (record_failed_view _ X (fun _ => False) _)| |done|done].
    intros _ st2 [Hs Hv]. unfold ends, mret. rewrite Hs. split; [exact HF|]. by exists (view st1).
  - apply ends_seq. eapply ends_mono; [exact (record_failed_view _ X (fun _ => False) _)| |done|done].
    intros _ st2 [Hs Hv]. unfold ends, mret. rewrite Hs. split; [exact HF|]. by exists (view st1).
Qed.

End Attempts.

(** ** A whole run, from what its sessions keep

    [L b] is a slot between sessions, before ([b] false) or after its first
    connection, [J] what a session leaves, [W b] a slot that decides whether
    to reconnect, and [F] one that is done. *)

Section Run.
Context {H : Type} `{Hdr H} {N : Type}.
Variable config : LoadTestConfig N.
Variable session : M H SessionEnd SessionEnd.
Variable allowed : Obs H -> Prop.
Context (L W : bool -> Slot -> Prop) (J F : Slot -> Prop).
Context {HLs : forall b, Stable allowed (L b)} {HWs : forall b, Stable allowed (W b)} {HJs : Stable allowed J}.
Hypothesis open_live : forall b v, L b v -> L true (opened b v).
Hypothesis session_keeps : Kept allowed (L true) J session.
Hypothesis session_done : forall v, J v -> W true v.
Hypothesis failed_waits : forall b v, L b v -> W b (v <| v_clean := false |>).
Hypothesis waits_live : forall b v, W b v -> v_cancelled v = true \/ L b v.
Hypothesis waits_done : forall b v, W b v -> F v.
Hypothesis stop_done : forall b v v', L b v -> handshaken b HsStop v v' -> F v'.
Hypothesis live_session : forall v, L true v -> J v.
Local Abbreviation holds := (holds allowed).

Definition final (st : State H) : Prop := F (view st).
Definition pending (st : State H) : Prop := exists b, L b (view st) \/ W b (view st).

Lemma live_pending b st : holds (L b) st -> pending st.
Proof. intros [HL _]. exists b. by left. Qed.
Lemma waiting_pending b st : holds (W b) st -> pending st.
Proof. intros [HW _]. exists b. by right. Qed.

(** What follows the session or the failed attempt. *)
Lemma wait_ends b backoff st : holds (W b) st ->
  ends (let! cancelled := is_cancelled in
        when (cf_no_reconnect config || cancelled) (mexit tt) ;;;
        let (_, backoff) := next_delay backoff in
        let! ok := sleep_unless_cancelled in
        when (negb ok) (mexit tt) ;;;
        mret (b, backoff))
    (fun s => holds (L s.1)) (fun _ => final) pending st.
Proof.
  intros Hst. assert (forall st, holds (W b) st -> final st) as HF by (intros ? [HW _]; by eapply waits_done).
  apply ends_seq. eapply ends_mono; [exact (ends_is_cancelled allowed (W b) (fun _ => final) _ Hst)| |done|by apply waiting_pending].
  intros c st1 [H1 ->]. apply ends_seq, ends_when; [intros _; unfold ends, mexit; by apply HF|intros Hc].
  apply orb_false_iff in Hc as [_ Hc].
  assert (holds (fun v => L b v /\ W b v) st1) as HLW.
  { destruct H1 as [HW HA]. split; [|done]. split; [|done].
    destruct (waits_live b (view st1) HW) as [Hx|]; [unfold view in Hx; cbn in Hx; congruence|done]. }
  destruct (next_delay backoff) as [d backoff']. apply ends_seq.
  eapply ends_mono; [exact (ends_sleep allowed _ (fun _ => final) _ HLW)| |done|].
  - intros ok st2 [[HL HW] HA]. apply ends_seq, ends_when; intros _.
    + by eapply waits_done.
    + by split.
  - intros st2 [[HL _] _]. exists b. by left.
Qed.

Lemma run_round_ends b backoff st : holds (L b) st ->
  ends (run_round config session (b, backoff)) (fun s => holds (L s.1)) (fun _ => final) pending st.
Proof.
  intros Hst. unfold run_round. apply ends_seq.
  eapply ends_mono; [exact (handshake_view allowed (L b) b (fun _ => final) st Hst)| |done|by apply live_pending].
  intros hs st1 (HA & v & Hv & Hview). destruct hs; cbn in Hview.
  - apply ends_seq, ends_seq, ends_returning.
    assert (holds (L true) st1) as H1 by (split; [rewrite Hview; by apply open_live|done]).
    assert (forall (e : SessionEnd) st2, holds J st2 ->
      ends (recording record_connection_closed ;;; when (bool_decide (e = Finished)) (mexit tt))
        (fun _ => holds (W true)) (fun _ => final) pending st2) as Hafter.
    { intros e st2 [HJ HA2]. apply ends_seq, ends_recording. intros st3 Hs Hh Hc Hcell.
      rewrite cell_view_closed in Hcell. assert (view st3 = view st2) as Hv3 by by apply view_of_cell.
      apply ends_when; intros _; [unfold ends, mexit, final; rewrite Hv3; by eapply waits_done, session_done|].
      split; [rewrite Hv3; by apply session_done|by rewrite Hs]. }
    eapply (ends_mono _ (fun _ => holds J) _ (fun _ => holds J) _ (holds J)).
    + eapply ends_kept; [exact session_keeps|exact H1| |done|done].
      intros e st2 [HL HA2]. split; [by apply live_session|done].
    + intros e st2 HJ. eapply ends_mono; [exact (Hafter e st2 HJ)| |done|done].
      intros [] st3 HW. by apply wait_ends.
    + intros e st2 HJ. eapply ends_mono; [exact (Hafter e st2 HJ)| |done|done].
      intros [] st3 HW. by apply wait_ends.
    + intros st2 [HJ _]. exists true. right. by apply session_done.
  - apply ends_seq. apply wait_ends. split; [rewrite Hview; by apply failed_waits|done].
  - apply ends_seq. unfold ends, mexit. by eapply stop_done.
Qed.

Lemma run_ends handshake_request st : holds (L false) st ->
  ends (R := Empty_set) (returning (run config session handshake_request)) (fun _ => final) (fun _ _ => False) pending st.
Proof.
  intros Hst. apply ends_returning. unfold run. destruct handshake_request as [cat|].
  - eapply ends_mono; [exact (record_failed_view cat (fun _ => final) pending st)| |done|done].
    intros _ st1 [_ Hv]. unfold final. rewrite Hv. apply (waits_done false). apply failed_waits, Hst.
  - apply ends_returning. apply (ends_forever _ (fun s => holds (L s.1))); [|intros [b backoff]; apply run_round_ends|exact Hst].
    intros s st1. apply live_pending.
Qed.

End Run.

(** ** What a slot reports *)

(** Connected at least once; between attempts, never connected; done. *)
Definition established (v : Slot) : Prop :=
  0 < v_opened v /\ v_interrupted v = false /\ v_reconnects v = wrap 64 (v_opened v - 1).
Definition untried (v : Slot) : Prop := v_opened v = 0 /\ v_interrupted v = false /\ v_reconnects v = 0.
Definition live_slot (connected_before : bool) (v : Slot) : Prop :=
  if connected_before then established v else untried v.
Definition waiting_slot (connected_before : bool) (v : Slot) : Prop :=
  live_slot connected_before v /\ (connected_before = false -> v_clean v = false).
Definition settled (v : Slot) : Prop :=
  established v \/
  (v_opened v = 0 /\ v_reconnects v = 0 /\ (v_interrupted v = true <-> v_clean v = true)).

Section Outcomes.
Context {H : Type} `{Hdr H}.
Definition anything (ob : Obs H) : Prop := True.
#[local] Instance live_slot_stable b : Stable anything (live_slot b).
Proof. by destruct b; split. Qed.
#[local] Instance waiting_slot_stable b : Stable anything (waiting_slot b).
Proof. destruct b; split; unfold waiting_slot; cbn; naive_solver. Qed.
#[local] Instance established_stable : Stable anything established.
Proof. apply (live_slot_stable true). Qed.

Lemma opened_established b v : live_slot b v -> established (opened b v).
Proof.
  destruct b; intros (Ho & Hi & Hr); unfold established, opened; cbn; (split; [lia|]); (split; [done|]).
  - rewrite Hr. unfold u64_add. rewrite wrap_add_l. f_equal. lia.
  - rewrite Ho, Hr. done.
Qed.

Lemma stopped_settled b v v' : live_slot b v -> handshaken b HsStop v v' -> settled v'.
Proof.
  unfold handshaken, settled. destruct b; cbn [negb andb].
  - intros Hl [->| ->]; left; exact Hl.
  - intros (Ho & Hi & Hr) Hv. right. destruct Hv as [->|Hv]; [cbn; rewrite Hi; naive_solver|].
    destruct (v_clean v) eqn:Hc; subst v'; cbn; rewrite ?Hi, ?Hc; naive_solver.
Qed.

Lemma kept_claim_any {N} (config : LoadTestConfig N) : Kept anything established established (claim_or_stop config).
Proof.
  intros st Hst. unfold claim_or_stop. apply (ends_seq _ _ (fun _ => holds anything established)
    (fun _ => holds anything established) (holds anything established)).
  unfold ends, claim_send. destruct (cf_max_requests config) as [max|]; [|exact Hst].
  unfold claim_request. set (st1 := _ <| st_history ::= _ |>).
  assert (holds anything established st1) as H1.
  { destruct Hst as [Hv HA]. split; [|done]. unfold established, view in *. cbn in *.
    destruct (_ <? max); [rewrite frames_cons|]; exact Hv. }
  change (ends (when (negb (lm_requests_claimed (rs_live (st_shared st)) <? max)) (cancel ;;; close_and_break))
    (fun _ => holds anything established) (fun _ => holds anything established) (holds anything established) st1).
  apply ends_when; [intros _|by intros _]. apply ends_seq. unfold ends at 1, cancel, modify.
  assert (holds anything established (st1 <| st_cancelled := true |>)) as H2.
  { destruct H1 as [Hv HA]. split; [|exact HA]. unfold established, view in *. exact Hv. }
  eapply ends_mono; [exact (ends_close_break (A := unit) anything established _ H2)|done..].
Qed.

Section Theorems.
Context {N : Type} `{SerdeJson N} `{GraphQLCodec N}.
Variable config : LoadTestConfig N.
Variable scenario : option (ScenarioPhase N).
Variable worker_id : Z.
Variable socketio : M H SessionEnd SessionEnd.
Variable handshake_request : option ErrorCategory.
Hypothesis Hmode : cf_mode config <> SocketIo.

Definition worker_run (st : State H) : option unit * State H :=
  run_to (run config (mode_loop config scenario worker_id socketio) handshake_request) st.

Lemma run_to_ends (Q : State H -> Prop) (E : State H -> Prop) st :
  ends (R := Empty_set) (returning (run config (mode_loop config scenario worker_id socketio) handshake_request))
    (fun _ => Q) (fun _ _ => False) E st ->
  match worker_run st with (Some _, st') => Q st' | (None, st') => E st' end.
Proof. unfold ends, worker_run, run_to. by destruct (returning _ st) as [[x|[]|] st']. Qed.

(** C27. A worker's slot is counted once and for what it did, in every mode
    but Socket.IO, whose session is a parameter here.  Whatever the server,
    the timers and the other workers do, a worker that has returned
    either connected at least once, and then was not interrupted and reports
    one reconnect for each further connection (so connections less reconnects
    is 1), or it never connected and reports no reconnect, and is marked
    interrupted exactly when it recorded no error at all.  A worker still
    running is in the first case or never connected and not marked. *)
Theorem slot_outcome (st : State H)
    (Hopened : frames opened_event (st_history st) = 0) (Hr : wm_reconnects (st_metrics st) = 0)
    (Hi : wm_interrupted (st_metrics st) = false) :
  match worker_run st with
  | (Some _, st') => settled (view st')
  | (None, st') => established (view st') \/ untried (view st')
  end.
Proof.
  assert (holds anything (live_slot false) st) as Hst by (split; [done|by apply Forall_true]).
  pose proof (run_to_ends _ _ _ (run_ends config (mode_loop config scenario worker_id socketio) anything
    live_slot waiting_slot established settled ltac:(apply opened_established)
    ltac:(apply (kept_mode_loop config scenario worker_id anything established established); [done|apply kept_claim_any|done])
    ltac:(by split) ltac:(by intros [] v; split) ltac:(by intros b v [? _]; right)
    ltac:(by intros [] v [Hl Hc]; [left|right; destruct Hl as (?&->&?); rewrite Hc]) stopped_settled
    ltac:(done) handshake_request st Hst)) as Hrun.
  destruct (worker_run st) as [[x|] st']; [exact Hrun|].
  destruct Hrun as [[] [Hl|[Hl _]]]; [by left|by left|by right|by right].
Qed.

(** C29. [--requests] is respected in every mode but Socket.IO, whose session
    is a parameter here. However many reconnects and sessions a
    worker goes through, and however many requests the other workers claim
    meanwhile (they only ever claim more), it is never granted more requests
    than the limit still had when it started. *)
Theorem requests_respected (max : Z) (st : State H)
    (Hm : cf_max_requests config = Some max) (Hu : is_u64 max) (Hc : 0 <= claimed_of (st_shared st))
    (Henv : Forall only_claims (st_script st)) :
  0 <= frames claimed_event (st_history (worker_run st).2) - frames claimed_event (st_history st)
    <= Z.max 0 (max - claimed_of (st_shared st)).
Proof.
  set (claimed0 := claimed_of (st_shared st)) in *. set (granted0 := frames claimed_event (st_history st)).
  set (claiming := claiming max claimed0 granted0). set (out := claimed_out max claimed0 granted0).
  assert (holds only_claims claiming st) as Hst by (split; [split; unfold within, view; cbn; fold claimed0 granted0; lia|done]).
  assert (Hout : forall v, claiming v -> out v) by apply claiming_out.
  assert (Hins : forall b v, claiming v -> claiming (opened b v)) by (intros b v; by unfold opened).
  assert (Stable (H := H) only_claims claiming) as HS1 by apply claiming_stable.
  assert (Stable (H := H) only_claims out) as HS2 by apply claimed_out_stable.
  pose proof (run_to_ends _ _ _ (run_ends (N := N) (HLs := fun _ => HS1) (HWs := fun _ => HS2)
    config (mode_loop config scenario worker_id socketio) only_claims
    (fun _ => claiming) (fun _ => out) out out ltac:(intros b v; apply Hins)
    ltac:(apply (kept_mode_loop config scenario worker_id only_claims claiming out); [done|by apply kept_claim|done])
    ltac:(done) ltac:(intros b v Hv; exact (Hout v Hv)) ltac:(by intros b v [Hw Hv]) ltac:(done)
    ltac:(intros b v v' Hv Hh; unfold handshaken in Hh; apply Hout; destruct Hh as [->|Hh]; [exact Hv|];
      destruct (negb b && v_clean v); by subst v')
    Hout handshake_request st Hst)) as Hrun.
  assert (out (view (worker_run st).2)) as [Hw _]; [|exact Hw].
  destruct (worker_run st) as [[x|] st']; [exact Hrun|]. destruct Hrun as [b [Hl|Hw]]; [by apply Hout|exact Hw].
Qed.

End Theorems.
End Outcomes.

(** ** Concrete slots *)

Import Demo.
#[local] Existing Instance Scalar.scalar_json.
#[local] Existing Instance no_graphql.

Definition limited : LoadTestConfig Z :=
  mkLoadTestConfig (Some 1) 0 (StaticText "hi") None None Echo 0 None false First None None.
Local Abbreviation demo_run := (worker_run limited None 0 (mret Lost) None).

(** One request, its reply, and the end of the run by its limit. *)
Definition demo_start : State ClassHistogram := start (replicate 20 (observation false (Text "hi"))).
(** Cancelled during the first handshake. *)
Definition demo_interrupted : State ClassHistogram := start (replicate 2 (observation true (Text "hi"))).

Example demo_done : (demo_run demo_start).1 = Some tt /\
  frames claimed_event (st_history (demo_run demo_start).2) = 1 /\
  v_opened (view (demo_run demo_start).2) = 1.
Proof. vm_compute. auto. Qed.
Example demo_stopped : (demo_run demo_interrupted).1 = Some tt /\ v_interrupted (view (demo_run demo_interrupted).2) = true.
Proof. vm_compute. auto. Qed.

Lemma slot_outcome_witness :
  (demo_run demo_interrupted).1 = Some tt /\
  match demo_run demo_interrupted with
  | (Some _, st') => settled (view st')
  | (None, st') => established (view st') \/ untried (view st')
  end.
Proof.
  split; [vm_compute; reflexivity|].
  exact (slot_outcome limited None 0 (mret Lost) None ltac:(discriminate) demo_interrupted eq_refl eq_refl eq_refl).
Defined.

Lemma requests_respected_witness :
  (demo_run demo_start).1 = Some tt /\ frames claimed_event (st_history (demo_run demo_start).2) <= 1.
Proof.
  split; [vm_compute; reflexivity|].
  pose proof (requests_respected limited None 0 (mret Lost) None ltac:(discriminate) 1 demo_start eq_refl
    ltac:(by vm_compute) ltac:(by vm_compute) (Forall_replicate _ 20 (observation false (Text "hi")) (fun s => Z.le_refl _))) as Hr.
  assert (Z.max 0 (1 - claimed_of (st_shared demo_start)) = 1) as Hone by (vm_compute; reflexivity).
  assert (frames claimed_event (st_history demo_start) = 0) as Hzero by (vm_compute; reflexivity).
  rewrite Hone, Hzero, Z.sub_0_r in Hr. exact (proj2 Hr).
Defined.
