(* ===== verification/Stopping.v ===== *)
(** * Sessions end: cancellation ends a run

    [Waiting]: a computation that has not ended has used up its script, so
    [forever]'s fuel never cuts a loop short that could still observe.
    [Cost]: how many observations a computation needs after the run is
    cancelled, when the [select!]s take the cancelled arm; with that many
    left, it ends. *)

From Stdlib Require Import ZArith Lia Ascii String.
From stdpp Require Import base tactics strings numbers option gmap list.
From S2P Require Import Prelude RustStd Str Hdr Histogram Live TimeSeries Summaries Metrics Wire Chaos Json.
From S2P Require Import Reply Data Template Session Worker Accounting Lifecycle.

Local Open Scope nat_scope.
Local Open Scope rust_scope.

(** ** Waiting *)

Section Waiting.
Context {H : Type} `{Hdr H}.

Class Waiting {R A} (m : M H R A) := is_waiting : forall st,
  match m st with
  | (Stuck, st') => st_script st' = []
  | (_, st') => length (st_script st') <= length (st_script st)
  end.
(** Goes on only after an observation, as long as there are any: what only
    looks at the world is not held up when there is none left. *)
Class Moving {R A} (m : M H R A) := is_moving : forall st,
  match m st with (Val _, st') => length (st_script st') < length (st_script st) \/ st_script st' = [] | _ => True end.

#[export] Instance waiting_ret {R A} (x : A) : Waiting (mret (R := R) x).
Proof. intros st. cbn. lia. Qed.
#[export] Instance waiting_exit {R A} (r : R) : Waiting (mexit (A := A) r).
Proof. intros st. cbn. lia. Qed.
#[export] Instance waiting_gets {R A} (f : State H -> A) : Waiting (gets (R := R) f).
Proof. intros st. cbn. lia. Qed.
#[export] Instance waiting_observe {R} : Waiting (observe (R := R)).
Proof. intros st. unfold observe. destruct (st_script st) as [|ob script] eqn:E; [done|]. cbn. lia. Qed.
#[export] Instance moving_observe {R} : Moving (observe (R := R)).
Proof. intros st. unfold observe. destruct (st_script st) as [|ob script] eqn:E; [done|]. cbn. lia. Qed.
#[export] Instance waiting_look {R} : Waiting (look (R := R)).
Proof. intros st. unfold look, observe. destruct (st_script st) as [|ob script] eqn:E; cbn; [rewrite E|]; cbn; lia. Qed.
#[export] Instance moving_look {R} : Moving (look (R := R)).
Proof. intros st. unfold look, observe. destruct (st_script st) as [|ob script] eqn:E; cbn; [by right|lia]. Qed.

Lemma used_up (st st' : State H) : length (st_script st') <= length (st_script st) -> st_script st = [] -> st_script st' = [].
Proof. intros Hl E. rewrite E in Hl. apply nil_length_inv. cbn in Hl. lia. Qed.

#[export] Instance waiting_seq {R A B} (m : M H R A) (f : A -> M H R B) :
  Waiting m -> (forall x, Waiting (f x)) -> Waiting (mseq m f).
Proof.
  intros Hm Hf st. specialize (Hm st). unfold mseq. destruct (m st) as [[x|r|] st']; [|done..].
  specialize (Hf x st'). destruct (f x st') as [[y|r|] st'']; [lia|lia|done].
Qed.
Lemma moving_seq_l {R A B} (m : M H R A) (f : A -> M H R B) :
  Moving m -> (forall x, Waiting (f x)) -> Moving (mseq m f).
Proof.
  intros Hm Hf st. specialize (Hm st). unfold mseq. destruct (m st) as [[x|r|] st']; [|done..].
  specialize (Hf x st'). destruct (f x st') as [[y|r|] st'']; [|done|done].
  destruct Hm as [Hm|Hm]; [left; lia|right; by eapply used_up].
Qed.
Lemma moving_seq_r {R A B} (m : M H R A) (f : A -> M H R B) :
  Waiting m -> (forall x, Moving (f x)) -> Moving (mseq m f).
Proof.
  intros Hm Hf st. specialize (Hm st). unfold mseq. destruct (m st) as [[x|r|] st']; [|done..].
  specialize (Hf x st'). destruct (f x st') as [[y|r|] st'']; [|done|done].
  destruct Hf as [Hf|Hf]; [left; lia|by right].
Qed.
#[export] Instance waiting_when {R} b (m : M H R unit) : Waiting m -> Waiting (when b m).
Proof. destruct b; [done|]. intros _ st. cbn. lia. Qed.
#[export] Instance waiting_if {R A} (b : bool) (m1 m2 : M H R A) : Waiting m1 -> Waiting m2 -> Waiting (if b then m1 else m2).
Proof. by destruct b. Qed.
#[export] Instance waiting_returning {R A} (m : M H A A) : Waiting m -> Waiting (returning (R := R) m).
Proof. intros Hm st. specialize (Hm st). unfold returning. by destruct (m st) as [[x|r|] st']. Qed.
#[export] Instance waiting_forever {R S} (body : S -> M H R S) s :
  (forall s, Waiting (body s)) -> (forall s, Moving (body s)) -> Waiting (forever body s).
Proof.
  intros Hw Hm st. unfold forever.
  assert (forall fuel s st, length (st_script st) < fuel \/ st_script st = [] ->
    match loop fuel body s st with
    | (Stuck, st') => st_script st' = []
    | (_, st') => length (st_script st') <= length (st_script st)
    end) as Hloop; [|apply Hloop; lia].
  clear st s. induction fuel as [|fuel IH]; intros s st Hf; [destruct Hf as [?|Hf]; [lia|exact Hf]|]. cbn [loop].
  specialize (Hw s st). specialize (Hm s st). destruct (body s st) as [[s'|r|] st']; [|done..].
  specialize (IH s' st' ltac:(destruct Hm; [destruct Hf as [?|Hf]; [left; lia|right; by eapply used_up]|by right])). destruct (loop fuel body s' st') as [[x|r|] st'']; [lia|lia|done].
Qed.
#[export] Instance waiting_for_n {R S} n (body : S -> M H R S) s :
  (forall s, Waiting (body s)) -> Waiting (for_n n body s).
Proof. intros Hb. revert s. induction n as [|n IH]; intros s; cbn [for_n]; [apply _|]. apply waiting_seq; [apply Hb|apply IH]. Qed.
#[export] Instance waiting_for_each {R A S} (l : list A) (body : A -> S -> M H R S) s :
  (forall a s, Waiting (body a s)) -> Waiting (for_each l body s).
Proof. intros Hb. revert s. induction l as [|a l IH]; intros s; cbn [for_each]; [apply _|]. apply waiting_seq; [apply Hb|apply IH]. Qed.

(** A step on the state that leaves the script alone. *)
Lemma waiting_step {R A} (m : M H R A) :
  (forall st, exists x st', m st = (Val x, st') /\ st_script st' = st_script st) -> Waiting m.
Proof. intros Hm st. destruct (Hm st) as (x & st' & -> & ->). lia. Qed.

#[export] Instance waiting_recording {R} f : Waiting (recording (H := H) (R := R) f).
Proof. apply waiting_step. intros st. unfold recording, modify. destruct (f _). by eexists _, _. Qed.

End Waiting.

(** Goes through a computation down to the operations it calls. *)
Ltac waiting := cbv beta zeta;
  lazymatch goal with
  | |- Waiting (mseq _ _) => apply waiting_seq; [waiting|intros ?; waiting]
  | |- Waiting (when _ _) => apply waiting_when; waiting
  | |- Waiting (match ?x with _ => _ end) => destruct x; waiting
  | |- Waiting (modify _) => apply waiting_step; intros ?; by eexists _, _
  | |- Waiting _ => apply _
  end.

Section Operations.
Context {H : Type} `{Hdr H} {N : Type} `{SerdeJson N} `{GraphQLCodec N}.
Variable config : LoadTestConfig N.
Variable scenario : option (ScenarioPhase N).
Variable worker_id : Z.
Local Abbreviation Waiting := (Waiting (H := H)).
Local Abbreviation Moving := (Moving (H := H)).

#[export] Instance waiting_cancel {R} : Waiting (cancel (R := R)).
Proof. unfold cancel. waiting. Qed.
#[export] Instance waiting_is_cancelled {R} : Waiting (is_cancelled (R := R)).
Proof. unfold is_cancelled. waiting. Qed.
#[export] Instance moving_is_cancelled {R} : Moving (is_cancelled (R := R)).
Proof. apply moving_seq_l; apply _. Qed.
#[export] Instance waiting_instant_now {R} : Waiting (instant_now (R := R)).
Proof. unfold instant_now. waiting. Qed.
#[export] Instance waiting_send {R} m : Waiting (send (R := R) m).
Proof. unfold send. waiting. Qed.
#[export] Instance waiting_send_ignoring {R} m : Waiting (send_ignoring (R := R) m).
Proof. unfold send_ignoring. waiting. Qed.
#[export] Instance waiting_send_close {R} : Waiting (send_close (R := R)).
Proof. unfold send_close. waiting. Qed.
#[export] Instance waiting_heartbeat {R} : Waiting (send_heartbeat (R := R)).
Proof. unfold send_heartbeat. waiting. Qed.
#[export] Instance waiting_next_frame {R} ob : Waiting (next_frame (R := R) ob).
Proof. unfold next_frame. waiting. Qed.
#[export] Instance waiting_select {R} first others : Waiting (select (R := R) first others).
Proof. unfold select. waiting. Qed.
#[export] Instance moving_select {R} first others : Moving (select (R := R) first others).
Proof. apply moving_seq_l; [apply _|intros ob; waiting]. Qed.
#[export] Instance waiting_select_biased {R} : Waiting (select_biased (R := R)).
Proof. unfold select_biased. waiting. Qed.
#[export] Instance moving_select_biased {R} : Moving (select_biased (R := R)).
Proof. apply moving_seq_l; [apply _|intros ob; waiting]. Qed.
#[export] Instance waiting_sleep {R} : Waiting (sleep_unless_cancelled (R := R)).
Proof. unfold sleep_unless_cancelled. waiting. Qed.
#[export] Instance waiting_session_end {R} : Waiting (session_end (R := R)).
Proof. unfold session_end. waiting. Qed.
#[export] Instance waiting_break {A} : Waiting (break_session (A := A)).
Proof. unfold break_session. waiting. Qed.
#[export] Instance waiting_close_break {A} : Waiting (close_and_break (A := A)).
Proof. unfold close_and_break. waiting. Qed.
#[export] Instance waiting_reached : Waiting (max_requests_reached config).
Proof. unfold max_requests_reached. waiting. Qed.
#[export] Instance waiting_claim : Waiting (claim_or_stop config).
Proof.
  unfold claim_or_stop. apply waiting_seq; [|intros ?; waiting].
  apply waiting_step. intros st. unfold claim_send. destruct (cf_max_requests config); [|by eexists _, _].
  destruct (claim_request _ _). by eexists _, _.
Qed.
#[export] Instance waiting_think : Waiting (apply_think_time scenario).
Proof. unfold apply_think_time. waiting. Qed.
#[export] Instance waiting_plan : Waiting chaos_plan.
Proof. apply waiting_step. intros st. unfold chaos_plan. destruct (st_chaos st); [destruct (plan_send _)|]; by eexists _, _. Qed.
#[export] Instance waiting_close_now : Waiting chaos_close_now.
Proof. apply waiting_step. intros st. unfold chaos_close_now. destruct (st_chaos st); [destruct (close_now _)|]; by eexists _, _. Qed.
#[export] Instance waiting_read_pause {R} : Waiting (chaos_read_pause (R := R)).
Proof.
  apply waiting_step. intros st. unfold chaos_read_pause.
  destruct (st_chaos st); [destruct (read_pause _) as [[p|] ch]|]; by eexists _, _.
Qed.
#[export] Instance waiting_corrupt m b : Waiting (chaos_corrupt m b).
Proof.
  apply waiting_step. intros st. unfold chaos_corrupt.
  destruct (st_chaos st); [destruct b; [destruct (corrupt m _) as [[m' []] ch]|]|]; by eexists _, _.
Qed.
#[export] Instance waiting_delay : Waiting chaos_delay.
Proof. unfold chaos_delay. waiting. Qed.
#[export] Instance waiting_chaos_close {A} g : Waiting (chaos_close (A := A) g).
Proof. unfold chaos_close. waiting. Qed.
#[export] Instance waiting_maybe_close : Waiting maybe_chaos_close.
Proof. unfold maybe_chaos_close. waiting. Qed.
#[export] Instance waiting_render p seq : Waiting (render_message config worker_id p seq).
Proof. unfold render_message. waiting. Qed.
#[export] Instance waiting_render_payload seq : Waiting (render_payload config worker_id seq).
Proof. apply waiting_render. Qed.
#[export] Instance waiting_check reply e cs : Waiting (check_reply config reply e cs).
Proof. unfold check_reply. waiting. Qed.
#[export] Instance waiting_await_round sent seq c u : Waiting (await_round config sent seq c u).
Proof. unfold await_round. waiting. Qed.
#[export] Instance moving_await_round sent seq c u : Moving (await_round config sent seq c u).
Proof. apply moving_seq_l; [apply _|intros ?; waiting]. Qed.
#[export] Instance waiting_await_reply sent seq c : Waiting (await_reply config sent seq c).
Proof. unfold await_reply. apply _. Qed.
#[export] Instance waiting_new_schedule rate : Waiting (new_schedule rate).
Proof. unfold new_schedule. waiting. Qed.
#[export] Instance waiting_restart s : Waiting (restart_schedule s).
Proof. unfold restart_schedule. waiting. Qed.
#[export] Instance waiting_pause s : Waiting (pause_after_reply s).
Proof. unfold pause_after_reply, chaos_pause. waiting. Qed.
#[export] Instance waiting_delay_send plan s due : Waiting (delay_send plan s due).
Proof. unfold delay_send. waiting. Qed.
#[export] Instance waiting_wait_round u : Waiting (wait_round config u).
Proof. unfold wait_round. waiting. Qed.
#[export] Instance moving_wait_round u : Moving (wait_round config u).
Proof. apply moving_seq_l; [apply _|intros ?; waiting]. Qed.
#[export] Instance waiting_wait_for_slot : Waiting (wait_for_slot config).
Proof. unfold wait_for_slot. waiting. Qed.
#[export] Instance waiting_poll : Waiting (poll_keepalive config).
Proof. unfold poll_keepalive. waiting. Qed.
#[export] Instance waiting_send_or_stop m : Waiting (send_unless_cancelled m).
Proof. unfold send_unless_cancelled. waiting. Qed.
#[export] Instance waiting_reply_metrics reply c e cs due t : Waiting (record_reply_metrics config reply c e cs due t).
Proof. unfold record_reply_metrics. waiting. Qed.
#[export] Instance waiting_record_reply o f : (forall m, Waiting (f m)) -> Waiting (record_reply o f).
Proof. intros Hf. unfold record_reply. waiting. Qed.
#[export] Instance waiting_echo_round r s : Waiting (echo_round config scenario worker_id r s).
Proof. unfold echo_round. waiting. Qed.
#[export] Instance moving_echo_round r s : Moving (echo_round config scenario worker_id r s).
Proof. destruct s as [seq schedule]. apply moving_seq_l; [apply _|intros ?; waiting]. Qed.
#[export] Instance waiting_run_echo : Waiting (run_echo_loop config scenario worker_id).
Proof. unfold run_echo_loop. waiting. Qed.

#[export] Instance waiting_incoming ob : Waiting (incoming_frame ob).
Proof. unfold incoming_frame. waiting. Qed.
#[export] Instance waiting_send_data m : Waiting (send_data m).
Proof. unfold send_data. waiting. Qed.
#[export] Instance waiting_stream_send seq : Waiting (stream_send config scenario worker_id seq).
Proof. unfold stream_send. waiting. Qed.
#[export] Instance waiting_stream_round s : Waiting (stream_round config scenario worker_id s).
Proof. unfold stream_round. waiting. Qed.
#[export] Instance moving_stream_round s : Moving (stream_round config scenario worker_id s).
Proof. destruct s. apply moving_seq_l; [apply _|intros ?; waiting]. Qed.
#[export] Instance waiting_listen_round s : Waiting (listen_round config s).
Proof. unfold listen_round. waiting. Qed.
#[export] Instance moving_listen_round s : Moving (listen_round config s).
Proof. apply moving_seq_l; [apply _|intros ?; waiting]. Qed.

#[export] Instance waiting_set_action a : Waiting (set_action a).
Proof. unfold set_action. waiting. Qed.
#[export] Instance waiting_pace s t : Waiting (wait_for_pace s t).
Proof. unfold wait_for_pace. waiting. Qed.
#[export] Instance waiting_action_send t p e cs s : Waiting (action_send config worker_id t p e cs s).
Proof. unfold action_send. waiting. Qed.
#[export] Instance waiting_run_action phase t a s : Waiting (run_action config scenario worker_id phase t a s).
Proof. unfold run_action. waiting. Qed.
#[export] Instance waiting_script_round phase t s : Waiting (script_round config scenario worker_id phase t s).
Proof. unfold script_round. waiting. Qed.
#[export] Instance moving_script_round phase t s : Moving (script_round config scenario worker_id phase t s).
Proof. apply moving_seq_l; [apply _|intros ?; waiting]. Qed.
#[export] Instance waiting_run_action_loop phase : Waiting (run_action_loop config scenario worker_id phase).
Proof. unfold run_action_loop. waiting. Qed.

#[export] Instance waiting_failure {A} : Waiting (protocol_failure (A := A)).
Proof. unfold protocol_failure. waiting. Qed.
#[export] Instance waiting_pong {R} : Waiting (pong_reply (R := R)).
Proof. unfold pong_reply. waiting. Qed.
#[export] Instance waiting_sent_failure {A} c : Waiting (sent_failure (A := A) c).
Proof. unfold sent_failure. waiting. Qed.
#[export] Instance waiting_ack_round u : Waiting (ack_round config u).
Proof. unfold ack_round. waiting. Qed.
#[export] Instance moving_ack_round u : Moving (ack_round config u).
Proof. apply moving_seq_l; [apply _|intros ?; waiting]. Qed.
#[export] Instance waiting_subscription_round r : Waiting (subscription_round config r).
Proof. unfold subscription_round. waiting. Qed.
#[export] Instance moving_subscription_round r : Moving (subscription_round config r).
Proof. apply moving_seq_l; [apply _|intros ?; waiting]. Qed.
#[export] Instance waiting_gql_send m : Waiting (gql_send m).
Proof. unfold gql_send. waiting. Qed.
#[export] Instance waiting_graphql : Waiting (run_graphql_ws_loop config worker_id).
Proof. unfold run_graphql_ws_loop. waiting. Qed.

#[export] Instance waiting_mode_loop socketio : Waiting socketio -> Waiting (mode_loop config scenario worker_id socketio).
Proof.
  intros Hs. unfold mode_loop, run_stream_loop, run_listen_loop.
  destruct (decide _); [done|]. destruct scenario as [phase|] eqn:E; [rewrite <- E; destruct (decide _)|rewrite <- E]; waiting.
Qed.
#[export] Instance waiting_handshake c : Waiting (handshake (H := H) c).
Proof. unfold handshake. waiting. Qed.
#[export] Instance waiting_run_round session s : Waiting session -> Waiting (run_round config session s).
Proof. intros Hs. unfold run_round. waiting. Qed.
#[export] Instance moving_run_round session s : Waiting session -> Moving (run_round config session s).
Proof.
  intros Hs. destruct s as [c b]. apply moving_seq_l; [|intros ?; waiting].
  unfold handshake. apply moving_seq_r; [waiting|]. intros _. apply moving_seq_l; [apply moving_seq_l; apply _|intros ?; waiting].
Qed.
#[export] Instance waiting_run session hr : Waiting session -> Waiting (run config session hr).
Proof. intros Hs. unfold run. waiting. Qed.

(** A look at the token is not an await: a round of an unpaced echo session
    without keepalive and request limit whose send chaos drops does nothing
    else, and goes on to the next round even when the environment has nothing
    left to say.  With every send dropped the task never yields. *)
Lemma dropped_round_only_looks_at_the_token (record_response : bool) (seq : Z) (chaos : ChaosState) (st : State H)
    (Hchaos : st_chaos st = Some chaos) (Hdrop : pl_drop (plan_send chaos).1 = true)
    (Hrunning : st_cancelled st = false) (Hob : Forall (fun ob => ob_cancel ob = false) (st_script st))
    (Hkeep : keepalive config = false) (Hmax : cf_max_requests config = None) :
  exists st', echo_round config scenario worker_id record_response (seq, None) st = (Val ((seq +u 1)%Z, None), st') /\
    st_script st' = tail (st_script st) /\ st_history st' = st_history st /\ st_chaos st' = Some (plan_send chaos).2.
Proof.
  unfold echo_round, is_cancelled, look, poll_keepalive, claim_or_stop, claim_send, mseq, observe, gets, when.
  destruct (st_script st) as [|ob script] eqn:Hscript; [|apply Forall_cons in Hob as [Hob _]]; cbn;
    rewrite Hrunning, ?Hob, Hkeep, Hmax; cbn; unfold chaos_plan; cbn; rewrite Hchaos;
    destruct (plan_send chaos) as [plan chaos']; cbn in *; rewrite Hdrop;
    unfold recording, modify; cbn; by eexists.
Qed.

(** A worker's task that has not returned has used every observation of its
    environment: the fuel of [forever] never stops a loop that could still
    observe something. *)
Lemma worker_uses_its_environment (socketio : M H SessionEnd SessionEnd)
    (handshake_request : option ErrorCategory) (st : State H) (Hs : Waiting socketio) :
  match run_to (run config (mode_loop config scenario worker_id socketio) handshake_request) st with
  | (Some _, st') => length (st_script st') <= length (st_script st)
  | (None, st') => st_script st' = []
  end.
Proof.
  assert (Waiting (returning (R := Empty_set) (run config (mode_loop config scenario worker_id socketio) handshake_request)))
    as Hw by apply _.
  specialize (Hw st). unfold run_to. by destruct (returning _ st) as [[x|[]|] st'].
Qed.
End Operations.

(** ** Cancellation *)

(** How an exit may leave the run without the environment's help: [Finished]
    ends the worker, the other loops' exits go on. *)
Class Escape (R : Type) := escapes : R -> Prop.
#[export] Instance escape_session : Escape SessionEnd := fun e => e = Finished.
#[export] Instance escape_run : Escape unit := fun _ => True.
#[export] Instance escape_slot : Escape bool := fun _ => False.
#[export] Instance escape_reply : Escape (ReplyOutcome * Z) := fun _ => False.
#[export] Instance escape_ack : Escape (SessionEnd + unit) := fun _ => False.
#[export] Instance escape_subscription : Escape (bool * bool) := fun _ => False.

(** Taking the cancelled arm. *)
Definition eager {H} (ob : Obs H) : Prop := ob_arm ob = ArmCancel.

Section Cost.
Context {H : Type} `{Hdr H}.
(** The observations the environment makes after the one that cancels. *)
Variable patience : nat.

(** Either the run goes on, and its cancellation is ahead with [patience]
    observations after it, or it is cancelled and [n] are left. *)
Definition ready (n : nat) (st : State H) : Prop :=
  if st_cancelled st then Forall eager (st_script st) /\ n <= length (st_script st)
  else exists pre ob post, st_script st = pre ++ ob :: post /\ Forall (fun ob => ob_cancel ob = false) pre /\
    ob_cancel ob = true /\ Forall eager post /\ patience <= length post.

Class Cost (k : nat) {R A} `{Escape R} (m : M H R A) := costs : forall n st, k <= n <= patience -> ready n st ->
  match m st with
  | (Val _, st') => ready (n - k) st'
  | (Exit r, st') => escapes r \/ ready (n - k) st'
  | (Stuck, _) => False
  end.
(** Started when the run is cancelled, it exits. *)
Class Quick (k : nat) {R A} `{Escape R} (m : M H R A) := quick : forall n st, k <= n <= patience ->
  st_cancelled st = true -> ready n st ->
  match m st with (Exit r, st') => escapes r \/ ready (n - k) st' | _ => False end.
(** Never goes on. *)
Class Leaving {R A} (m : M H R A) := leaves : forall st, match m st with (Val _, _) => False | _ => True end.

Lemma ready_le n n' st : n' <= n -> ready n st -> ready n' st.
Proof. unfold ready. destruct (st_cancelled st); [|done]. intros Hn [HF Hl]. split; [done|lia]. Qed.
Lemma ready_uncancelled n n' st : st_cancelled st = false -> ready n st -> ready n' st.
Proof. unfold ready. by intros ->. Qed.
Lemma ready_length n st : n <= patience -> ready n st -> n <= length (st_script st).
Proof.
  unfold ready. intros Hn. destruct (st_cancelled st); [by intros [_ ?]|].
  intros (pre & ob & post & -> & _ & _ & _ & Hp). rewrite length_app. cbn. lia.
Qed.
(** A step that leaves the script and the cancellation alone. *)
Lemma ready_step n st st' : st_script st' = st_script st -> st_cancelled st' = st_cancelled st -> ready n st -> ready n st'.
Proof. unfold ready. by intros -> ->. Qed.

Context {R : Type} `{Escape R}.

Lemma cost_le k k' {A} (m : M H R A) : Cost k m -> k <= k' -> Cost k' m.
Proof.
  intros Hm Hk n st Hn Hst. specialize (Hm n st ltac:(lia) Hst). destruct (m st) as [[x|r|] st']; [|destruct Hm as [?|Hm]; [by left|right]|done];
    (eapply ready_le; [|exact Hm]; lia).
Qed.
Lemma quick_le k k' {A} (m : M H R A) : Quick k m -> k <= k' -> Quick k' m.
Proof.
  intros Hm Hk n st Hn Hc Hst. specialize (Hm n st ltac:(lia) Hc Hst). destruct (m st) as [[x|r|] st']; [done| |done].
  destruct Hm as [?|Hm]; [by left|right]. eapply ready_le; [|exact Hm]; lia.
Qed.

Lemma cost_step {A} (m : M H R A) :
  (forall st, exists x st', m st = (Val x, st') /\ st_script st' = st_script st /\ st_cancelled st' = st_cancelled st) ->
  Cost 0 m.
Proof.
  intros Hm n st Hn Hst. destruct (Hm st) as (x & st' & -> & Hs & Hc). rewrite Nat.sub_0_r. by apply (ready_step n st).
Qed.
#[export] Instance cost_ret {A} (x : A) : Cost 0 (mret x).
Proof. apply cost_step. intros st. by eexists _, _. Qed.
#[export] Instance cost_exit {A} (r : R) : Cost 0 (mexit (A := A) r).
Proof. intros n st Hn Hst. cbn. right. by rewrite Nat.sub_0_r. Qed.
#[export] Instance cost_gets {A} (f : State H -> A) : Cost 0 (gets f).
Proof. apply cost_step. intros st. by eexists _, _. Qed.
#[export] Instance cost_recording f : Cost 0 (recording f).
Proof. apply cost_step. intros st. unfold recording, modify. destruct (f _). by eexists _, _. Qed.

Lemma ready_running n st : st_cancelled st = false -> ready n st -> st_script st <> [].
Proof. unfold ready. intros -> (pre & ob & post & -> & _). by destruct pre. Qed.

#[export] Instance cost_observe : Cost 1 observe.
Proof.
  intros n st Hn Hst. unfold observe, ready in *.
  destruct (st_cancelled st) eqn:Hc; destruct (st_script st) as [|ob script] eqn:Hs.
  - cbn in Hst. lia.
  - cbn in *. rewrite Hc. cbn. destruct Hst as [HF Hl]. apply Forall_cons in HF as [_ HF]. split; [done|lia].
  - by destruct Hst as ([|? ?] & ob & post & ? & _).
  - cbn. rewrite Hc. cbn. destruct Hst as ([|ob0 pre] & ob1 & post & Heq & Hpre & Hob & Hpost & Hp).
    + injection Heq as -> ->. rewrite Hob. split; [done|lia].
    + injection Heq as -> ->. apply Forall_cons in Hpre as [-> Hpre]. by exists pre, ob1, post.
Qed.

#[export] Instance cost_look : Cost 1 look.
Proof.
  intros n st Hn Hst. pose proof (cost_observe n st Hn Hst) as Ho. unfold look, observe in *.
  by destruct (st_script st).
Qed.

Lemma cost_seq k k1 {A B} (m : M H R A) (f : A -> M H R B) :
  Cost k1 m -> k1 <= k -> (forall x, Cost (k - k1) (f x)) -> Cost k (mseq m f).
Proof.
  intros Hm Hk Hf n st Hn Hst. specialize (Hm n st ltac:(lia) Hst). unfold mseq.
  destruct (m st) as [[x|r|] st']; [|destruct Hm as [?|Hm]; [by left|right; by eapply ready_le; [|exact Hm]; lia]|done].
  specialize (Hf x (n - k1) st' ltac:(lia) Hm). replace (n - k1 - (k - k1)) with (n - k) in Hf by lia. exact Hf.
Qed.
Lemma cost_when k b (m : M H R unit) : Cost k m -> Cost k (when b m).
Proof. intros Hm. destruct b; [done|]. apply (cost_le 0); [apply _|lia]. Qed.
#[export] Instance cost_when_leaf k b (m : M H R unit) : Cost k m -> Cost k (when b m) := cost_when k b m.
#[export] Instance cost_if k1 k2 {A} (b : bool) (m1 m2 : M H R A) : Cost k1 m1 -> Cost k2 m2 -> Cost (k1 `max` k2) (if b then m1 else m2).
Proof. intros H1' H2'. destruct b; (eapply cost_le; [done|lia]). Qed.

Lemma cost_returning k {A} `{Escape A} (m : M H A A) :
  (forall x : A, escapes x -> False) -> Cost k m -> Cost k (returning (R := R) m).
Proof.
  intros HA Hm n st Hn Hst. specialize (Hm n st Hn Hst). unfold returning.
  destruct (m st) as [[x|r|] st']; [done| |done]. by destruct Hm as [He|Hm]; [destruct (HA r He)|].
Qed.

(** A loop whose rounds leave once the run is cancelled. *)
Lemma cost_forever kb kq {S} (body : S -> M H R S) s :
  (forall s, Waiting (body s)) -> (forall s, Moving (body s)) ->
  (forall s, Cost kb (body s)) -> (forall s, Quick kq (body s)) -> Cost (kb + kq) (forever body s).
Proof.
  intros Hw Hm Hb Hq n st Hn Hst. unfold forever. set (left := n - (kb + kq)).
  assert (forall fuel s st n', length (st_script st) < fuel -> left + (if st_cancelled st then kq else kb + kq) <= n' <= patience ->
    ready n' st ->
    match loop fuel body s st with
    | (Val _, st') => ready left st'
    | (Exit r, st') => escapes r \/ ready left st'
    | (Stuck, _) => False
    end) as Hloop; [|apply (Hloop _ s st n); [lia|destruct (st_cancelled st); lia|done]].
  clearbody left. clear s st n Hn Hst. intros fuel. induction fuel as [|fuel IH]; intros s st n Hf Hn Hst; [lia|]. cbn [loop].
  destruct (st_cancelled st) eqn:Hc.
  - specialize (Hq s n st ltac:(lia) Hc Hst). destruct (body s st) as [[x|r|] st']; [done| |done].
    destruct Hq as [?|Hq]; [by left|right]. eapply ready_le; [|exact Hq]; lia.
  - specialize (Hb s n st ltac:(lia) Hst). specialize (Hm s st).
    pose proof (ready_running n st Hc Hst) as Hne. destruct (body s st) as [[s'|r|] st']; [| |done].
    + assert (length (st_script st') < fuel).
      { destruct Hm as [Hm|Hm]; [lia|]. rewrite Hm. destruct (st_script st); [done|cbn in *; lia]. }
      destruct (st_cancelled st') eqn:Hc'.
      * apply (IH s' st' (n - kb)); [done|rewrite Hc'; lia|done].
      * apply (IH s' st' n); [done|rewrite Hc'; lia|by eapply ready_uncancelled].
    + destruct Hb as [?|Hb]; [by left|right]. eapply ready_le; [|exact Hb]; lia.
Qed.

(** [for] loops whose rounds leave once the run is cancelled. *)
Lemma cost_for_each kb kq {A S} (l : list A) (body : A -> S -> M H R S) s :
  (forall a s, Cost kb (body a s)) -> (forall a s, Quick kq (body a s)) -> Cost (kb + kq) (for_each l body s).
Proof.
  intros Hb Hq n st Hn Hst. set (left := n - (kb + kq)).
  assert (forall s st n', left + (if st_cancelled st then kq else kb + kq) <= n' <= patience -> ready n' st ->
    match for_each l body s st with
    | (Val _, st') => ready left st'
    | (Exit r, st') => escapes r \/ ready left st'
    | (Stuck, _) => False
    end) as Hloop; [|apply (Hloop s st n); [destruct (st_cancelled st); lia|done]].
  clearbody left. clear s st n Hn Hst. induction l as [|a l IH]; intros s st n Hn Hst; cbn [for_each].
  { cbn. eapply ready_le; [|done]. destruct (st_cancelled st); lia. }
  unfold mseq. destruct (st_cancelled st) eqn:Hc.
  - specialize (Hq a s n st ltac:(lia) Hc Hst). destruct (body a s st) as [[x|r|] st']; [done| |done].
    destruct Hq as [?|Hq]; [by left|right]. eapply ready_le; [|exact Hq]; lia.
  - specialize (Hb a s n st ltac:(lia) Hst). destruct (body a s st) as [[s'|r|] st']; [| |done].
    + destruct (st_cancelled st') eqn:Hc'.
      * apply (IH s' st' (n - kb)); [rewrite Hc'; lia|done].
      * apply (IH s' st' n); [rewrite Hc'; lia|by eapply ready_uncancelled].
    + destruct Hb as [?|Hb]; [by left|right]. eapply ready_le; [|exact Hb]; lia.
Qed.
Lemma for_n_each n {S} (body : S -> M H R S) s st : for_n n body s st = for_each (replicate n tt) (fun _ => body) s st.
Proof.
  revert s st. induction n as [|n IH]; intros s st; cbn [for_n for_each replicate]; [done|]. unfold mseq.
  destruct (body s st) as [[x|r|] st']; [apply IH|done..].
Qed.
Lemma cost_for_n kb kq n {S} (body : S -> M H R S) s :
  (forall s, Cost kb (body s)) -> (forall s, Quick kq (body s)) -> Cost (kb + kq) (for_n n body s).
Proof.
  intros Hb Hq m st Hm Hst. rewrite for_n_each. by apply (cost_for_each kb kq _ (fun _ => body)).
Qed.

(** Leaving. *)
#[export] Instance leaving_exit {A} (r : R) : Leaving (mexit (A := A) (H := H) r).
Proof. by intros st. Qed.
#[export] Instance leaving_seq {A B} (m : M H R A) (f : A -> M H R B) : (forall x, Leaving (f x)) -> Leaving (mseq m f).
Proof. intros Hf st. unfold mseq. destruct (m st) as [[x|r|] st']; [apply Hf|done..]. Qed.

Lemma quick_of_cost k {A} (m : M H R A) : Cost k m -> Leaving m -> Quick k m.
Proof.
  intros Hm Hl n st Hn Hc Hst. specialize (Hm n st Hn Hst). specialize (Hl st). destruct (m st) as [[x|r|] st']; done.
Qed.

(** An observation once the run is cancelled. *)
Lemma observe_ready n st : 1 <= n <= patience -> st_cancelled st = true -> ready n st ->
  exists ob st', observe (R := R) st = (Val ob, st') /\ eager ob /\ st_cancelled st' = true /\ ready (n - 1) st'.
Proof.
  intros Hn Hc Hst. pose proof (cost_observe n st Hn Hst) as Ho. unfold ready in Hst. rewrite Hc in Hst.
  unfold observe in *. destruct (st_script st) as [|ob script]; [cbn in *; lia|]. eexists _, _. split; [done|].
  split; [by destruct Hst as [[] %Forall_cons _]|]. split; [cbn; by rewrite Hc|exact Ho].
Qed.
Lemma look_ready n st : 1 <= n <= patience -> st_cancelled st = true -> ready n st ->
  exists ob st', look (R := R) st = (Val ob, st') /\ st_cancelled st' = true /\ ready (n - 1) st'.
Proof.
  intros Hn Hc Hst. destruct (observe_ready n st Hn Hc Hst) as (ob & st' & Ho & _ & Hc' & Hst').
  unfold look. rewrite Ho. by eexists _, st'.
Qed.

Lemma quick_is_cancelled k {A} (f : bool -> M H R A) : Quick k (f true) -> Quick (1 + k) (let! c := is_cancelled in f c).
Proof.
  intros Hf n st Hn Hc Hst. destruct (look_ready n st ltac:(lia) Hc Hst) as (ob & st' & Ho & Hc' & Hst').
  replace (n - (1 + k)) with (n - 1 - k) by lia. unfold is_cancelled, mseq. rewrite Ho. cbn. rewrite Hc'. specialize (Hf (n - 1) st' ltac:(lia) Hc' Hst').
  exact Hf.
Qed.
Lemma quick_select k first others {A} (f : Arm * Obs H -> M H R A) :
  ArmCancel ∈ first :: others -> (forall ob, Quick k (f (ArmCancel, ob))) -> Quick (1 + k) (let! a := select first others in f a).
Proof.
  intros Hin Hf n st Hn Hc Hst. destruct (observe_ready n st ltac:(lia) Hc Hst) as (ob & st' & Ho & He & Hc' & Hst').
  replace (n - (1 + k)) with (n - 1 - k) by lia. unfold select, mseq. rewrite Ho. cbn. rewrite Hc', He. rewrite decide_True by done. rewrite bool_decide_true by done. cbn.
  exact (Hf ob (n - 1) st' ltac:(lia) Hc' Hst').
Qed.
Lemma quick_select_biased k {A} (f : Arm * Obs H -> M H R A) :
  (forall ob, Quick k (f (ArmCancel, ob))) -> Quick (1 + k) (let! a := select_biased in f a).
Proof.
  intros Hf n st Hn Hc Hst. destruct (observe_ready n st ltac:(lia) Hc Hst) as (ob & st' & Ho & He & Hc' & Hst').
  replace (n - (1 + k)) with (n - 1 - k) by lia. unfold select_biased, mseq. rewrite Ho. cbn. rewrite Hc'.
  exact (Hf ob (n - 1) st' ltac:(lia) Hc' Hst').
Qed.
Lemma quick_when k (m : M H R unit) {B} (f : unit -> M H R B) : Quick k m -> Quick k (mseq (when true m) f).
Proof.
  intros Hm n st Hn Hc Hst. specialize (Hm n st Hn Hc Hst). unfold mseq, when. by destruct (m st) as [[x|r|] st'].
Qed.

Lemma quick_gets k {A B} (m : M H R A) (f : A -> M H R B) :
  (forall st, exists x, m st = (Val x, st)) -> (forall x, Quick k (f x)) -> Quick k (mseq m f).
Proof. intros Hm Hf n st Hn Hc Hst. unfold mseq. destruct (Hm st) as [x ->]. by apply Hf. Qed.

End Cost.

Arguments escapes {R} {_} _.

(** Goes through a computation with the observations it may still make. *)
Ltac cost_number := lazymatch goal with |- Cost _ ?k _ => let k' := eval vm_compute in k in change k with k' end.
Ltac cost := cbv beta zeta;
  lazymatch goal with
  | |- Cost _ _ (mseq _ _) => eapply cost_seq; [apply _|lia|intros ?; try cost_number; cost]
  | |- Cost _ _ (when _ _) => apply cost_when; cost
  | |- Cost _ _ (match ?x with _ => _ end) => destruct x; cost
  | |- Cost _ _ (modify _) => eapply cost_le; [apply cost_step; intros ?; by eexists _, _|lia]
  | |- Cost _ _ _ => eapply cost_le; [apply _|lia]
  end.

Section Costs.
Context {H : Type} `{Hdr H} {N : Type} `{SerdeJson N} `{GraphQLCodec N}.
Variable config : LoadTestConfig N.
Variable scenario : option (ScenarioPhase N).
Variable worker_id : Z.
Variable patience : nat.
Local Abbreviation Cost := (Cost (H := H) patience).
Local Abbreviation Quick := (Quick (H := H) patience).

#[local] Hint Extern 5 (Stopping.Cost _ _ (modify _)) =>
  (apply cost_step; intros ?; by eexists _, _) : typeclass_instances.

#[local] Instance cost_is_cancelled {R} `{Escape R} : Cost 1 (is_cancelled (R := R)).
Proof. unfold is_cancelled. cost. Qed.
#[local] Instance cost_instant_now {R} `{Escape R} : Cost 1 (instant_now (R := R)).
Proof. unfold instant_now. cost. Qed.
#[local] Instance cost_send {R} `{Escape R} m : Cost 1 (send (R := R) m).
Proof. unfold send. cost. Qed.
#[local] Instance cost_send_ignoring {R} `{Escape R} m : Cost 1 (send_ignoring (R := R) m).
Proof. unfold send_ignoring. cost. Qed.
#[local] Instance cost_send_close {R} `{Escape R} : Cost 1 (send_close (R := R)).
Proof. unfold send_close. cost. Qed.
#[local] Instance cost_heartbeat {R} `{Escape R} : Cost 1 (send_heartbeat (R := R)).
Proof. unfold send_heartbeat. cost. Qed.
#[local] Instance cost_next_frame {R} `{Escape R} ob : Cost 0 (next_frame (R := R) ob).
Proof. unfold next_frame. cost. Qed.
#[local] Instance cost_select {R} `{Escape R} first others : Cost 1 (select (R := R) first others).
Proof. unfold select. cost. Qed.
#[local] Instance cost_select_biased {R} `{Escape R} : Cost 1 (select_biased (R := R)).
Proof. unfold select_biased. cost. Qed.
#[local] Instance cost_sleep {R} `{Escape R} : Cost 1 (sleep_unless_cancelled (R := R)).
Proof. unfold sleep_unless_cancelled. cost. Qed.
#[local] Instance cost_session_end {R} `{Escape R} : Cost 1 (session_end (R := R)).
Proof. unfold session_end. cost. Qed.
#[local] Instance cost_break {A} : Cost 1 (break_session (A := A)).
Proof. unfold break_session. cost. Qed.
#[local] Instance leaving_break {A} : Leaving (break_session (H := H) (A := A)).
Proof. unfold break_session. apply _. Qed.
#[local] Instance cost_close_break {A} : Cost 2 (close_and_break (A := A)).
Proof. unfold close_and_break. cost. Qed.
#[local] Instance leaving_close_break {A} : Leaving (close_and_break (H := H) (A := A)).
Proof. unfold close_and_break. apply _. Qed.
#[local] Instance quick_close_break {A} : Quick 2 (close_and_break (A := A)).
Proof. apply quick_of_cost; apply _. Qed.

(** A session that cancels the run itself ends it. *)
Lemma close_finishes {A} (st : State H) : st_cancelled st = true -> 2 <= length (st_script st) ->
  exists st', close_and_break (A := A) st = (Exit Finished, st').
Proof.
  intros Hc Hl. unfold close_and_break, send_close, send_ignoring, send, break_session, session_end, is_cancelled, look, mseq, observe.
  destruct (st_script st) as [|ob1 [|ob2 script]] eqn:Hs; [cbn in Hl; lia..|].
  destruct (ob_send ob1); cbn; rewrite Hc; cbn; by eexists.
Qed.
Lemma cancel_finishes k {A} : 2 <= k -> Cost k (cancel ;;; close_and_break (A := A)).
Proof.
  intros Hk n st Hn Hst. pose proof (ready_length patience n st ltac:(lia) Hst).
  destruct (close_finishes (A := A) (st <| st_cancelled := true |>)) as [st' Hcl]; [done|cbn; lia|].
  unfold mseq, cancel, modify. rewrite Hcl. by left.
Qed.
#[local] Instance cost_claim : Cost 2 (claim_or_stop config).
Proof.
  unfold claim_or_stop. apply (cost_seq _ 2 0); [|lia|intros granted; apply cost_when, cancel_finishes; lia].
  apply cost_step. intros st. unfold claim_send. destruct (cf_max_requests config); [|by eexists _, _].
  destruct (claim_request _ _). by eexists _, _.
Qed.

#[local] Instance cost_reached : Cost 0 (max_requests_reached config).
Proof. unfold max_requests_reached. cost. Qed.
#[local] Instance cost_think : Cost 1 (apply_think_time scenario).
Proof. unfold apply_think_time. cost. Qed.
#[local] Instance cost_plan : Cost 0 chaos_plan.
Proof. apply cost_step. intros st. unfold chaos_plan. destruct (st_chaos st); [destruct (plan_send _)|]; by eexists _, _. Qed.
#[local] Instance cost_close_now : Cost 0 chaos_close_now.
Proof. apply cost_step. intros st. unfold chaos_close_now. destruct (st_chaos st); [destruct (close_now _)|]; by eexists _, _. Qed.
#[local] Instance cost_read_pause {R} `{Escape R} : Cost 0 (chaos_read_pause (R := R)).
Proof.
  apply cost_step. intros st. unfold chaos_read_pause.
  destruct (st_chaos st); [destruct (read_pause _) as [[p|] ch]|]; by eexists _, _.
Qed.
#[local] Instance cost_corrupt m b : Cost 0 (chaos_corrupt m b).
Proof.
  apply cost_step. intros st. unfold chaos_corrupt.
  destruct (st_chaos st); [destruct b; [destruct (corrupt m _) as [[m' []] ch]|]|]; by eexists _, _.
Qed.
#[local] Instance cost_delay : Cost 1 chaos_delay.
Proof. unfold chaos_delay. cost. Qed.
#[local] Instance cost_chaos_close {A} g : Cost 2 (chaos_close (A := A) g).
Proof. unfold chaos_close. cost. Qed.
#[local] Instance cost_maybe_close : Cost 2 maybe_chaos_close.
Proof. unfold maybe_chaos_close. cost. Qed.
#[local] Instance cost_render p seq : Cost 1 (render_message config worker_id p seq).
Proof. unfold render_message. cost. Qed.
#[local] Instance cost_render_payload seq : Cost 1 (render_payload config worker_id seq).
Proof. apply cost_render. Qed.
#[local] Instance cost_check reply e cs : Cost 0 (check_reply config reply e cs).
Proof. unfold check_reply. cost. Qed.

#[local] Instance cost_await_round sent seq c u : Cost 2 (await_round config sent seq c u).
Proof. unfold await_round. cost. Qed.
#[local] Instance quick_await_round sent seq c u : Quick 1 (await_round config sent seq c u).
Proof. apply (quick_select_biased _ 0). intros ob. apply quick_of_cost; apply _. Qed.
#[local] Instance cost_await_reply sent seq c : Cost 3 (await_reply config sent seq c).
Proof. unfold await_reply. eapply (cost_returning _ 3); [done|]. apply (cost_forever _ 2 1); apply _. Qed.
#[local] Instance cost_new_schedule rate : Cost 1 (new_schedule rate).
Proof. unfold new_schedule. cost. Qed.
#[local] Instance cost_restart s : Cost 1 (restart_schedule s).
Proof. unfold restart_schedule. cost. Qed.
#[local] Instance cost_pause s : Cost 3 (pause_after_reply s).
Proof. unfold pause_after_reply, chaos_pause. cost. Qed.
#[local] Instance cost_delay_send plan s due : Cost 3 (delay_send plan s due).
Proof. unfold delay_send. cost. Qed.

Lemma cancel_in_ping_arm first : ArmCancel ∈ first :: ping_arm config ++ [ArmCancel].
Proof. apply elem_of_cons. right. apply elem_of_app. right. by apply list_elem_of_singleton. Qed.

#[local] Instance cost_wait_round u : Cost 2 (wait_round config u).
Proof. unfold wait_round. cost. Qed.
#[local] Instance quick_wait_round u : Quick 2 (wait_round config u).
Proof. apply (quick_select _ 1); [apply cancel_in_ping_arm|]. intros ob. apply quick_of_cost; [cost|apply _]. Qed.
#[local] Instance cost_wait_for_slot : Cost 5 (wait_for_slot config).
Proof.
  unfold wait_for_slot. apply (cost_seq _ 5 4); [|lia|intros ok; cost].
  eapply (cost_returning _ 4); [done|]. apply (cost_forever _ 2 2); apply _.
Qed.
#[local] Instance cost_poll : Cost 2 (poll_keepalive config).
Proof. unfold poll_keepalive. cost. Qed.
#[local] Instance cost_send_or_stop m : Cost 3 (send_unless_cancelled m).
Proof. unfold send_unless_cancelled. cost. Qed.
#[local] Instance cost_reply_metrics reply c e cs due t : Cost 1 (record_reply_metrics config reply c e cs due t).
Proof. unfold record_reply_metrics. cost. Qed.
Lemma cost_record_reply k o f : 2 <= k -> (forall m, Cost k (f m)) -> Cost k (record_reply o f).
Proof. intros Hk Hf. unfold record_reply. destruct o; try apply Hf; (eapply cost_le; [|exact Hk]); cost. Qed.

#[local] Instance cost_echo_round r s : Cost 32 (echo_round config scenario worker_id r s).
Proof.
  destruct s as [seq schedule]. unfold echo_round. apply (cost_seq _ 32 1); [apply _|lia|intros c; cost_number].
  apply (cost_seq _ _ 2); [apply _|lia|intros _; cost_number; cbv zeta].
  apply (cost_seq _ _ 5); [destruct (sc_next_due <$> schedule); cost|lia|intros _; cost_number].
  apply (cost_seq _ _ 2); [apply _|lia|intros _; cost_number].
  eapply cost_seq; [apply _|lia|intros plan; cost_number]. destruct (pl_drop plan); [cost|].
  eapply cost_seq; [apply _|lia|intros [sch due]; cost_number].
  eapply cost_seq; [apply _|lia|intros m; cost_number]. eapply cost_seq; [apply _|lia|intros [m' c']; cost_number].
  eapply cost_seq; [apply _|lia|intros t; cost_number]. eapply cost_seq; [apply _|lia|intros _; cost_number].
  eapply cost_seq; [apply _|lia|intros [o u]; cost_number]. eapply cost_seq; [apply _|lia|intros _; cost_number].
  apply (cost_seq _ _ 3); [apply cost_record_reply; [lia|intros reply; cost]|lia|intros _; cost_number]. cost.
Qed.
#[local] Instance quick_echo_round r s : Quick 3 (echo_round config scenario worker_id r s).
Proof. destruct s. apply (quick_is_cancelled patience 2). cbv beta. apply quick_when. apply _. Qed.
#[local] Instance cost_run_echo : Cost 36 (run_echo_loop config scenario worker_id).
Proof.
  unfold run_echo_loop. apply (cost_seq _ 36 1); [apply _|lia|intros s; cost_number; cbv zeta].
  apply (cost_seq _ _ 0); [apply _|lia|intros _; cost_number]. apply (cost_forever _ 32 3); apply _.
Qed.

#[local] Instance cost_incoming ob : Cost 1 (incoming_frame ob).
Proof. unfold incoming_frame. cost. Qed.
#[local] Instance cost_send_data m : Cost 2 (send_data m).
Proof. unfold send_data. cost. Qed.
#[local] Instance cost_stream_send seq : Cost 15 (stream_send config scenario worker_id seq).
Proof. unfold stream_send. cost. Qed.
#[local] Instance cost_stream_round s : Cost 16 (stream_round config scenario worker_id s).
Proof. unfold stream_round. cost. Qed.
#[local] Instance quick_stream_round s : Quick 3 (stream_round config scenario worker_id s).
Proof.
  destruct s. apply (quick_select _ 2); [|intros ob; apply _].
  apply elem_of_cons; right; apply elem_of_app; right; apply elem_of_cons; right; by apply list_elem_of_singleton.
Qed.
#[local] Instance cost_listen_round s : Cost 3 (listen_round config s).
Proof. unfold listen_round. cost. Qed.
#[local] Instance quick_listen_round s : Quick 3 (listen_round config s).
Proof. apply (quick_select _ 2); [apply cancel_in_ping_arm|intros ob; apply _]. Qed.

#[local] Instance cost_set_action a : Cost 0 (set_action a).
Proof. unfold set_action. cost. Qed.
#[local] Instance cost_pace s t : Cost 3 (wait_for_pace s t).
Proof. unfold wait_for_pace. cost. Qed.
#[local] Instance cost_action_send t p e cs s : Cost 30 (action_send config worker_id t p e cs s).
Proof.
  destruct s as [seq schedule]. unfold action_send. do 4 (eapply cost_seq; [apply _|lia|intros ?; cost_number; cbv zeta]).
  eapply cost_seq; [apply _|lia|intros plan; cost_number]. destruct (pl_drop plan); [cost|].
  eapply cost_seq; [apply _|lia|intros [sch due]; cost_number].
  eapply cost_seq; [apply _|lia|intros m; cost_number]. eapply cost_seq; [apply _|lia|intros [m' c']; cost_number].
  do 2 (eapply cost_seq; [apply _|lia|intros ?; cost_number]).
  apply (cost_seq _ _ 9); [|lia|intros ?; cost_number; cost].
  destruct (awaits_replies _); [|cost]. eapply cost_seq; [apply _|lia|intros [o u]; cost_number].
  eapply cost_seq; [apply _|lia|intros ?; cost_number].
  apply (cost_seq _ _ 2); [apply cost_record_reply; [lia|intros reply; cost]|lia|intros _; cost_number; cost].
Qed.
#[local] Instance quick_action_send t p e cs s : Quick 3 (action_send config worker_id t p e cs s).
Proof. destruct s. apply (quick_is_cancelled patience 2). cbv beta. apply quick_when. apply _. Qed.

(** Leaving an action script, cancelled by the session itself or not. *)
Lemma cost_leave_script b1 b2 : Cost 2 (when b1 (when b2 cancel ;;; close_and_break)).
Proof. destruct b1, b2; cbn [when]; [by apply cancel_finishes|cost..]. Qed.
#[local] Instance cost_run_action phase t a s : Cost 45 (run_action config scenario worker_id phase t a s).
Proof.
  unfold run_action. do 2 (eapply cost_seq; [apply _|lia|intros ?; cost_number]).
  apply (cost_seq _ _ 2); [apply cost_leave_script|lia|intros _; cost_number].
  destruct a as [p n e cs name|d|i|code reason]; [|cost| |cost].
  - eapply cost_seq; [apply _|lia|intros _; cost_number].
    apply (cost_seq _ _ 33); [apply (cost_for_n _ 30 3); apply _|lia|intros ?; cost_number].
    do 3 (eapply cost_seq; [apply _|lia|intros ?; cost_number]). destruct x4 as [seq sch]. cost.
  - eapply cost_seq; [apply _|lia|intros res; cost_number].
    apply (cost_seq _ _ 1); [cost|lia|intros _; cost_number]. cost.
Qed.
#[local] Instance quick_run_action phase t a s : Quick 3 (run_action config scenario worker_id phase t a s).
Proof.
  apply (quick_is_cancelled patience 2). cbv beta.
  assert (forall b, Quick 2 (when b cancel ;;; close_and_break (A := unit))) as Hq.
  { intros b. apply quick_of_cost; [exact (cost_leave_script true b)|apply _]. }
  apply quick_gets; [|intros b; apply quick_when, Hq].
  intros st. unfold max_requests_reached. destruct (cf_max_requests config); by eexists.
Qed.
#[local] Instance cost_script_round phase t s : Cost 51 (script_round config scenario worker_id phase t s).
Proof.
  unfold script_round. do 2 (eapply cost_seq; [apply _|lia|intros ?; cost_number]).
  apply (cost_for_each _ 45 3); apply _.
Qed.
#[local] Instance quick_script_round phase t s : Quick 3 (script_round config scenario worker_id phase t s).
Proof. apply (quick_is_cancelled patience 2). cbv beta. apply quick_when. apply _. Qed.
#[local] Instance cost_run_action_loop phase : Cost 55 (run_action_loop config scenario worker_id phase).
Proof.
  unfold run_action_loop. eapply cost_seq; [apply _|lia|intros ?; cost_number; cbv zeta].
  apply (cost_seq _ _ 1); [cost|lia|intros ?; cost_number; cbv zeta].
  eapply cost_seq; [apply _|lia|intros ?; cost_number]. apply (cost_forever _ 51 3); apply _.
Qed.

#[local] Instance cost_failure {A} : Cost 0 (protocol_failure (A := A)).
Proof. unfold protocol_failure. cost. Qed.
#[local] Instance cost_pong {R} `{Escape R} : Cost 1 (pong_reply (R := R)).
Proof. unfold pong_reply. cost. Qed.
#[local] Instance cost_sent_failure {A} c : Cost 1 (sent_failure (A := A) c).
Proof. unfold sent_failure. cost. Qed.
#[local] Instance cost_ack_round u : Cost 3 (ack_round config u).
Proof. unfold ack_round. cost. Qed.
#[local] Instance quick_ack_round u : Quick 3 (ack_round config u).
Proof.
  apply (quick_select patience 2); [|intros ob; apply quick_of_cost; [cost|apply _]].
  apply elem_of_cons; right; apply elem_of_app; right; apply elem_of_cons; right; by apply list_elem_of_singleton.
Qed.
#[local] Instance cost_subscription_round r : Cost 2 (subscription_round config r).
Proof. unfold subscription_round. cost. Qed.
#[local] Instance quick_subscription_round r : Quick 1 (subscription_round config r).
Proof. apply (quick_select patience 0); [apply cancel_in_ping_arm|intros ob; apply quick_of_cost; [cost|apply _]]. Qed.
#[local] Instance cost_gql_send m : Cost 2 (gql_send m).
Proof. unfold gql_send. cost. Qed.
#[local] Instance cost_graphql : Cost 20 (run_graphql_ws_loop config worker_id).
Proof.
  unfold run_graphql_ws_loop. destruct (cf_graphql_ws config); [|cost]. cbv zeta.
  eapply cost_seq; [apply _|lia|intros _; cost_number].
  apply (cost_seq _ _ 6); [eapply (cost_returning _ 6); [done|]; apply (cost_forever _ 3 3); apply _|lia|].
  intros [e|_]; cost_number; [cost|]. eapply cost_seq; [apply _|lia|intros _; cost_number].
  apply (cost_seq _ _ 3); [eapply (cost_returning _ 3); [done|]; apply (cost_forever _ 2 1); apply _|lia|].
  intros [c d]. cost_number. cost.
Qed.

Lemma cost_mode_loop socketio : cf_mode config <> SocketIo ->
  Cost 55 (mode_loop config scenario worker_id socketio).
Proof.
  intros Hm. unfold mode_loop. rewrite decide_False by done. cbv zeta.
  assert (Cost 55 match cf_mode config with
    | Echo => run_echo_loop config scenario worker_id
    | Stream => run_stream_loop config scenario worker_id
    | Listen => run_listen_loop config
    | GraphQLWS => run_graphql_ws_loop config worker_id
    | SocketIo => mret Lost
    end) as Hmode.
  { destruct (cf_mode config); [cost| | |cost|done].
    - apply (cost_le _ 19); [apply (cost_forever _ 16 3); apply _|lia].
    - apply (cost_le _ 6); [apply (cost_forever _ 3 3); apply _|lia]. }
  destruct scenario as [phase|] eqn:E; [|exact Hmode]. rewrite <- E in *. case_decide; [exact Hmode|apply _].
Qed.

#[local] Instance cost_handshake c : Cost 2 (handshake c).
Proof. unfold handshake. cost. Qed.

(** The session's end is the worker's, or leads to the next attempt. *)
Lemma cost_run_session session : Waiting session -> Cost 55 session ->
  Cost 55 (let! e := returning session in
           recording record_connection_closed ;;; when (bool_decide (e = Finished)) (mexit tt)).
Proof.
  intros Hw Hs n st Hn Hst. specialize (Hs n st Hn Hst). unfold mseq, returning.
  assert (forall (e : SessionEnd) (st' : State H), e = Finished \/ ready patience (n - 55) st' ->
    match (recording record_connection_closed ;;; when (bool_decide (e = Finished)) (mexit tt)) st' with
    | (Val _, st') => ready patience (n - 55) st'
    | (Exit r, st') => escapes r \/ ready patience (n - 55) st'
    | (Stuck, _) => False
    end) as Hafter.
  { intros e st' He. unfold mseq. destruct (recording_view (R := unit) record_connection_closed st') as (st2 & -> & Hs2 & (_ & Hc2) & _).
    unfold when. case_bool_decide; [by left|]. destruct He as [?|He]; [done|]. by apply (ready_step patience _ st'). }
  destruct (session st) as [[e|e|] st']; [apply Hafter; by right| |done].
  apply Hafter. destruct Hs as [Hs|Hs]; [by left|by right].
Qed.

Lemma cost_run_round session s : Waiting session -> Cost 55 session -> Cost 60 (run_round config session s).
Proof.
  intros Hw Hs. destruct s as [c b]. unfold run_round. eapply cost_seq; [apply _|lia|intros hs; cost_number].
  apply (cost_seq _ _ 55); [|lia|intros _; cost_number; cost].
  destruct hs; [by apply cost_run_session|cost..].
Qed.
(** A cancelled handshake gives up. *)
Lemma handshake_stops c n st : 2 <= n <= patience -> st_cancelled st = true -> ready patience n st ->
  exists st', handshake (H := H) c st = (Val HsStop, st').
Proof.
  intros Hn Hc Hst. unfold handshake, instant_now, select_biased, mseq, modify, gets.
  destruct (look_ready patience (R := unit) n (st <| st_metrics ::= fun w => w <| wm_current_action := None |> |>)
    ltac:(lia) Hc Hst) as (ob & st1 & -> & Hc1 & Hst1).
  destruct (observe_ready patience (R := unit) (n - 1) st1 ltac:(lia) Hc1 Hst1) as (ob2 & st2 & -> & _ & Hc2 & _).
  rewrite Hc2. cbn. rewrite decide_True by done. by eexists.
Qed.
#[local] Instance quick_run_round session s : Quick 2 (run_round config session s).
Proof.
  destruct s as [c b]. intros n st Hn Hc Hst. destruct (handshake_stops c n st Hn Hc Hst) as [st' Hh].
  unfold run_round, mseq. rewrite Hh. by left.
Qed.

Lemma run_returns session hr st : Waiting session -> Cost 55 session -> 62 <= patience -> ready patience 62 st ->
  (run_to (run config session hr) st).1 = Some tt.
Proof.
  intros Hw Hs Hp Hst. unfold run_to. unfold run, returning. destruct hr as [cat|].
  - destruct (recording_view (R := unit) (record_connection_failed cat) st) as (st' & -> & _). done.
  - assert (Cost 62 (forever (run_round config session) (false, ReconnectBackoff_new))) as Hf
      by (apply (cost_forever _ 60 2); intros ?; [apply _|apply _|by apply cost_run_round|apply _]).
    specialize (Hf 62 st ltac:(lia) Hst). by destruct (forever _ _ st) as [[[]|[]|] st'].
Qed.
End Costs.

(** C5. Cancelling a run ends its workers. Let any mode but Socket.IO run
    against any server, timers and other workers until an observation that
    cancels the run; if from then on the [select!]s take the cancelled arm
    (the runtime picks among the ready ones), the worker has returned before
    62 more observations, wherever the cancellation found it: connecting,
    waiting to reconnect, waiting for its slot, sending, waiting for a reply,
    in a pause or in the middle of a script. *)
Theorem cancelled_worker_returns `{Hdr H} {N : Type} `{SerdeJson N} `{GraphQLCodec N}
    (config : LoadTestConfig N) (scenario : option (ScenarioPhase N)) (worker_id : Z)
    (socketio : M H SessionEnd SessionEnd) (handshake_request : option ErrorCategory)
    (st : State H) (pre post : list (Obs H)) (ob : Obs H)
    (Hmode : cf_mode config <> SocketIo)
    (Hscript : st_script st = pre ++ ob :: post) (Hrunning : st_cancelled st = false)
    (Hpre : Forall (fun ob => ob_cancel ob = false) pre) (Hcancel : ob_cancel ob = true)
    (Hpost : Forall eager post) (Henough : 62 <= length post) :
  (run_to (run config (mode_loop config scenario worker_id socketio) handshake_request) st).1 = Some tt.
Proof.
  assert (mode_loop config scenario worker_id socketio = mode_loop config scenario worker_id (mret Lost)) as ->
    by (unfold mode_loop; by rewrite !decide_False by done).
  apply (run_returns config 62); [apply _|by apply cost_mode_loop|done|].
  unfold ready. rewrite Hrunning. by exists pre, ob, post.
Qed.

(** ** A concrete cancellation *)

Import Demo.
#[local] Existing Instance Scalar.scalar_json.
#[local] Existing Instance no_graphql.

(** Ten observations of a running test, the cancellation, and what follows. *)
Definition busy : list (Obs ClassHistogram) := replicate 10 (observation false (Text "hi")).
Definition leaving : list (Obs ClassHistogram) :=
  replicate 62 (mkObs 0 false id ArmCancel None (Some (inl (Text "hi"))) Connected 0).

Lemma cancelled_worker_returns_witness :
  (run_to (run config (mode_loop config None 0 (mret Lost)) None)
    (start (busy ++ observation true (Text "hi") :: leaving))).1 = Some tt.
Proof.
  apply (cancelled_worker_returns config None 0 (mret Lost) None _ busy leaving (observation true (Text "hi")));
    [discriminate|reflexivity|reflexivity|by apply Forall_replicate|reflexivity|by apply Forall_replicate|].
  vm_compute. lia.
Defined.
