(* ===== verification/Load.v ===== *)
(** * The shape of the load (src/src/config.rs, src/src/runner.rs, src/src/distributed/protocol.rs)

    How many connections a run has open at each moment: staged profiles,
    arrival rates, the ramp, and the division of a run between agents.  The
    runner's loops are step functions on the workers they have started; when
    the timers fire and when sessions finish is the environment's choice. *)

From Stdlib Require Import ZArith Lia Ascii String Floats.SpecFloat.
From stdpp Require Import base tactics strings numbers option gmap sorting list.
From S2P Require Import Prelude RustStd Str Live HumanDuration Summaries Chaos Data.

Local Open Scope Z_scope.
Local Open Scope rust_scope.

(** ** Stages *)

Record Stage := mkStage { sg_duration : Z; sg_target : Z }.

(** [str::split(sep)]: at least one part. *)
Fixpoint split_on (sep : ascii) (s : string) : list string :=
  match s with
  | EmptyString => [EmptyString]
  | String c s' =>
      if decide (c = sep) then EmptyString :: split_on sep s'
      else match split_on sep s' with
           | part :: parts => String c part :: parts
           | [] => [String c EmptyString]
           end
  end.

Definition ok_or {A E} (err : E) (o : option A) : result A E :=
  match o with Some a => Ok a | None => Err err end.

Definition parse_stage (part : string) : result Stage WsBlastError :=
  let invalid := ConfigFailure (InvalidOption
    ("invalid stage '" ++ part ++ "': expected DURATION:CONNECTIONS, such as 30s:100")) in
  let? p := ok_or invalid (split_once ":"%char part) in
  let? target := ok_or invalid (parse_u64 (trim p.2)) in
  let? duration := parse_human_duration (trim p.1) in
  Ok (mkStage duration target).

Definition parse_list (spec : string) : result (list Stage) WsBlastError :=
  let? stages := result_collect parse_stage
    (filter (fun part => part <> ""%string) (trim <$> split_on ","%char spec)) in
  match stages with
  | [] => Err (ConfigFailure (InvalidOption
            "--stages needs at least one DURATION:CONNECTIONS stage, such as 30s:100"))
  | _ => Ok stages
  end.

(** Connections between two targets, [into] of the way through a stage of
    [duration]. *)
Definition interpolate (from target into duration : Z) : Z :=
  let progress := f64_div (as_secs_f64 into) (as_secs_f64 duration) in
  f64_round_as_u64 (f64_add (f64_of_Z from) (f64_mul (f64_sub (f64_of_Z target) (f64_of_Z from)) progress)).

(** The loop of [target_at]: [from] is the last stage's target and
    [stage_start] its end. *)
Fixpoint target_from (from stage_start : Z) (stages : list Stage) (elapsed : Z) : Z :=
  match stages with
  | [] => from
  | stage :: rest =>
      let stage_end := stage_start + sg_duration stage in
      if elapsed <? stage_end then interpolate from (sg_target stage) (elapsed - stage_start) (sg_duration stage)
      else target_from (sg_target stage) stage_end rest elapsed
  end.
Definition target_at (stages : list Stage) (elapsed : Z) : Z := target_from 0 0 stages elapsed.

Definition validate_stages (stages : list Stage) (ramp_rate : Z) : result unit WsBlastError :=
  if 0 <? ramp_rate then Err (ConfigFailure (UnsupportedOption
    "--stages sets the connection ramp itself and cannot be combined with --ramp-rate"))
  else match list_find (fun s => sg_duration s = 0) stages with
       | Some (index, _) => Err (ConfigFailure (InvalidOption ("stage " ++ display_u64 (Z.of_nat index + 1) ++
           " has a zero duration; every stage needs a duration greater than zero")))
       | None => Ok tt
       end.

(** ** Arrivals *)

Definition MAX_ARRIVAL_RATE : f64 := f64_of_Z 1000000.

(** [x.ceil()] of a finite [x], as the integer it is. *)
Definition f64_ceil (x : f64) : option Z :=
  match x with
  | S754_zero _ => Some 0
  | S754_finite s m e =>
      let m := if s then Zneg m else Zpos m in
      Some (if 0 <=? e then m * 2 ^ e else - (- m / 2 ^ (- e)))
  | _ => None
  end.

Definition expected_connections (a : Arrivals) : Z :=
  let open_ := match f64_ceil (f64_mul (ar_rate a) (as_secs_f64 (ar_session_duration a))) with
               | Some c => if 1 <=? c then Z.min c u64_max else 1
               | None => 1
               end in
  Z.max (from_option (Z.min open_) open_ (ar_max_connections a)) 1.

(** [fmt] is the [Display] of [f64]; the three names are the flags or the
    scenario keys. *)
Definition check_values (fmt : f64 -> string) (rate session max : string) (a : Arrivals) : result unit string :=
  if negb (f64_is_finite (ar_rate a) && f64_ltb f64_zero (ar_rate a) && f64_leb (ar_rate a) MAX_ARRIVAL_RATE) then
    Err (rate ++ " must be greater than zero and at most " ++ fmt MAX_ARRIVAL_RATE
           ++ " sessions per second, received " ++ fmt (ar_rate a))%string
  else if ar_session_duration a =? 0 then Err (session ++ " must be greater than zero")%string
  else if decide (ar_max_connections a = Some 0) then Err (max ++ " must be greater than zero")%string
  else Ok tt.

Definition Arrivals_validate (fmt : f64 -> string) (stages : list Stage) (ramp_rate : Z) (a : Arrivals)
  : result unit WsBlastError :=
  let? _ := result_map_err (fun e => ConfigFailure (InvalidOption e))
    (check_values fmt "--arrival-rate" "--session-duration" "--max-connections" a) in
  let conflict :=
    match stages with
    | _ :: _ => Some "--stages"%string
    | [] => if 0 <? ramp_rate then Some "--ramp-rate"%string else None
    end in
  match conflict with
  | Some flag => Err (ConfigFailure (UnsupportedOption
      ("--arrival-rate starts sessions at its own rate and cannot be combined with " ++ flag)))
  | None => Ok tt
  end.

(** ** What the builder makes of them *)

Definition validate_connections (connections : Z) : result unit WsBlastError :=
  if connections =? 0 then Err (ConfigFailure (ZeroConcurrency 0)) else Ok tt.
Definition validate_max_requests (max_requests : option Z) : result unit WsBlastError :=
  if decide (max_requests = Some 0)
  then Err (ConfigFailure (InvalidOption "requests limit (-n) must be greater than zero")) else Ok tt.

(** [iter().sum::<Duration>()], which panics ([None]) on overflow. *)
Definition duration_sum (ds : list Z) : option Z :=
  let total := sum_Z ds in if total <=? DURATION_MAX then Some total else None.

(** The settings of a [LoadTestConfig] that say how much load it makes. *)
Record Load := mkLoad {
  ld_connections : Z;
  ld_ramp_rate : Z;
  ld_duration : Z;
  ld_stages : list Stage;
  ld_arrivals : option Arrivals;
  ld_max_requests : option Z;
}.
#[export] Instance Load_eta : Settable Load := fun l =>
  mkLoad (ld_connections l) (ld_ramp_rate l) (ld_duration l) (ld_stages l) (ld_arrivals l) (ld_max_requests l).

(** The part of [LoadTestConfigBuilder::build] on these settings; [None] is
    the panic of the sum. *)
Definition build_load (fmt : f64 -> string) (l : Load) : option (result Load WsBlastError) :=
  match (match ld_arrivals l with
         | Some a => let? _ := Arrivals_validate fmt (ld_stages l) (ld_ramp_rate l) a in
                     Ok (l <| ld_connections := expected_connections a |>)
         | None => Ok l
         end) with
  | Err e => Some (Err e)
  | Ok l =>
      staged ← match ld_stages l with
               | [] => Some (Ok l)
               | stages =>
                   match validate_stages stages (ld_ramp_rate l) with
                   | Err e => Some (Err e)
                   | Ok _ =>
                       total ← duration_sum (sg_duration <$> stages);
                       Some (Ok (l <| ld_connections := default 0 (iter_max (sg_target <$> stages)) |>
                                   <| ld_duration := total |>))
                   end
               end;
      Some (let? l := staged in
            let? _ := validate_connections (ld_connections l) in
            let? _ := validate_max_requests (ld_max_requests l) in
            Ok l)
  end.

(** ** Division between agents *)

Definition split (total index agents : Z) : Z :=
  let agents := Z.max agents 1 in
  total / agents + (if index <? total mod agents then 1 else 0).

Record Share := mkShare { sh_index : Z; sh_agents : Z }.
#[export] Instance Share_eq_dec : EqDecision Share.
Proof. solve_decision. Defined.

Definition share_of (s : Share) (total : Z) : Z := split total (sh_index s) (sh_agents s).

Definition stage_target (stages : list Stage) (stage_share : option Share) (elapsed : Z) : Z :=
  let target := target_at stages elapsed in
  match stage_share with Some share => share_of share target | None => target end.

Record WireData := mkWireData {
  wd_path : string;
  wd_columns : list string;
  wd_rows : list (list string);
  wd_share : option Share;
}.

(** The settings of a [WireConfig] that differ from agent to agent; the rest
    are [from_config]'s, the same for all. *)
Record WireLoad := mkWireLoad {
  wl_load : Load;
  wl_stage_share : option Share;
  wl_data : option WireData;
  wl_chaos_seed : option Z;
}.

Definition data_to_wire (data : DataSet) : WireData :=
  mkWireData (ds_path data) (ds_columns data) (ds_rows data) None.

(** One agent's share; [chaos] is the run's chaos, if any. *)
Definition agent_share (l : Load) (data : option DataSet) (chaos : option ChaosConfig) (agents index : Z) : WireLoad :=
  let share := mkShare index agents in
  mkWireLoad
    (l <| ld_connections := share_of share (ld_connections l) |>
       <| ld_ramp_rate := split (ld_ramp_rate l) index agents |>
       <| ld_max_requests := (fun requests => split requests index agents) <$> ld_max_requests l |>
       <| ld_arrivals := (fun a => mkArrivals (f64_div (ar_rate a) (f64_of_Z agents)) (ar_session_duration a)
            (share_of share <$> ar_max_connections a)) <$> ld_arrivals l |>)
    (match ld_stages l with [] => None | _ => Some share end)
    ((fun data => let d := data_to_wire data in mkWireData (wd_path d) (wd_columns d) (wd_rows d) (Some share)) <$> data)
    ((fun chaos => agent_seed (default 0 (cx_seed chaos)) index) <$> chaos).

Definition plan (l : Load) (source_ips : list string) (data : option DataSet) (chaos : option ChaosConfig) (agents : Z)
  : result (list WireLoad) WsBlastError :=
  if agents =? 0 then Err (ConfigFailure (InvalidOption "--agents lists no agent"))
  else if negb (bool_decide (source_ips = [])) then Err (ConfigFailure (UnsupportedOption
    "--source-ip binds addresses of this machine and cannot be used with --agents; start each agent with `wsblast agent --source-ip ...` to bind that machine's addresses"))
  else
    let? _ := match a ← ld_arrivals l; ar_max_connections a with
              | Some max =>
                  if max <? agents then Err (ConfigFailure (InvalidOption (display_u64 agents ++
                    " agents cannot share --max-connections " ++ display_u64 max ++
                    ": every agent needs room for at least one session"))) else Ok tt
              | None => Ok tt
              end in
    let? _ := match ld_arrivals l with
              | None =>
                  if ld_connections l <? agents then
                    let what := match ld_stages l with
                                | [] => display_u64 (ld_connections l) ++ " connections"
                                | _ => "a highest stage target of " ++ display_u64 (ld_connections l)
                                end%string in
                    Err (ConfigFailure (InvalidOption (display_u64 agents ++ " agents cannot share " ++ what ++
                      ": every agent needs at least one connection; use fewer agents or more connections")))
                  else Ok tt
              | Some _ => Ok tt
              end in
    let? _ := match ld_max_requests l with
              | Some requests =>
                  if requests <? agents then Err (ConfigFailure (InvalidOption (display_u64 agents ++
                    " agents cannot share -n " ++ display_u64 requests ++ ": every agent needs at least one request")))
                  else Ok tt
              | None => Ok tt
              end in
    let? _ := if (0 <? ld_ramp_rate l) && (ld_ramp_rate l <? agents) then
                Err (ConfigFailure (InvalidOption (display_u64 agents ++ " agents cannot share --ramp-rate " ++
                  display_u64 (ld_ramp_rate l) ++ ": every agent needs a ramp rate of at least 1 per second")))
              else Ok tt in
    Ok (agent_share l data chaos agents ∘ Z.of_nat <$> seq 0 (Z.to_nat agents)).

Definition bad_share (s : Share) : bool := (sh_agents s =? 0) || (sh_agents s <=? sh_index s).

(** The part of [WireConfig::into_config] on these settings: the data set,
    and the load and stage share the agent runs with. *)
Definition into_data (data : option WireData) : result (option DataSet) WsBlastError :=
  match data with
  | None => Ok None
  | Some d =>
      let? set := result_map_err (fun e => ConfigFailure (DataFile e))
        (from_parts (wd_path d) (wd_columns d) (wd_rows d)) in
      match wd_share d with
      | None => Ok (Some set)
      | Some share =>
          if bad_share share then Err (ConfigFailure (InvalidOption ("invalid data share " ++
            display_u64 (sh_index share) ++ " of " ++ display_u64 (sh_agents share))))
          else Ok (Some (with_share (sh_index share) (sh_agents share) set))
      end
  end.

Definition take_stage_share (share : option Share) (l : Load) : result Load WsBlastError :=
  match share with
  | None => Ok l
  | Some share =>
      if bad_share share then Err (ConfigFailure (InvalidOption ("invalid stage share " ++
        display_u64 (sh_index share) ++ " of " ++ display_u64 (sh_agents share))))
      else match ld_stages l with
           | [] => Err (ConfigFailure (InvalidOption "a stage share needs stages"))
           | _ => Ok (l <| ld_connections ::= share_of share |>)
           end
  end.

Definition into_load (fmt : f64 -> string) (w : WireLoad)
  : option (result (Load * option Share * option DataSet) WsBlastError) :=
  match into_data (wl_data w) with
  | Err e => Some (Err e)
  | Ok data =>
      built ← build_load fmt (wl_load w);
      Some (let? l := built in
            let? l := take_stage_share (wl_stage_share w) l in
            if ld_connections l =? 0 then Err (ConfigFailure (ZeroConcurrency 0))
            else Ok (l, wl_stage_share w, data))
  end.

(** ** Facts about the division *)

Lemma split_eq total index agents : 1 <= agents ->
  split total index agents = total / agents + (if index <? total mod agents then 1 else 0).
Proof. intros Ha. unfold split. by rewrite Z.max_l by lia. Qed.

Lemma split_bounds total index agents : 1 <= agents ->
  total / agents <= split total index agents <= total / agents + 1.
Proof. intros Ha. rewrite split_eq by done. destruct (_ <? _); lia. Qed.

Lemma split_positive total index agents : 1 <= agents <= total -> 1 <= split total index agents.
Proof.
  intros Ha. pose proof (split_bounds total index agents ltac:(lia)).
  assert (1 <= total / agents) by (apply Z.div_le_lower_bound; lia). lia.
Qed.

Lemma split_nonneg total index agents : 0 <= total -> 0 <= split total index agents.
Proof.
  intros Ht. unfold split. assert (0 <= total / Z.max agents 1) by (apply Z.div_pos; lia). destruct (_ <? _); lia.
Qed.

Lemma sum_below_seq r k n : 0 <= r - Z.of_nat k ->
  sum_Z ((fun i => if Z.of_nat i <? r then 1 else 0) <$> seq k n) = Z.min (r - Z.of_nat k) (Z.of_nat n).
Proof.
  revert k. induction n as [|n IH]; intros k Hk; [cbn; lia|]. cbn [seq]. rewrite fmap_cons, sum_Z_cons.
  destruct (Z.ltb_spec (Z.of_nat k) r).
  - rewrite IH by lia. lia.
  - assert (forall j, (k <= j)%nat -> sum_Z ((fun i => if Z.of_nat i <? r then 1 else 0) <$> seq j n) = 0) as Hz.
    { clear IH. induction n as [|n IHn]; intros j Hj; [done|]. cbn [seq]. rewrite fmap_cons, sum_Z_cons, IHn by lia.
      destruct (Z.ltb_spec (Z.of_nat j) r); lia. }
    rewrite Hz by lia. lia.
Qed.

Lemma sum_Z_fmap_add {A} (f g : A -> Z) l : sum_Z ((fun x => f x + g x) <$> l) = sum_Z (f <$> l) + sum_Z (g <$> l).
Proof. induction l as [|x l IH]; [done|]. rewrite !fmap_cons, !sum_Z_cons, IH. lia. Qed.
Lemma sum_Z_const {A} (c : Z) (l : list A) : sum_Z ((fun _ => c) <$> l) = c * Z.of_nat (length l).
Proof. induction l as [|x l IH]; [cbn; lia|]. rewrite fmap_cons, sum_Z_cons, IH. cbn [length]. lia. Qed.

(** The parts add up. *)
Lemma split_sum total agents : 1 <= agents ->
  sum_Z ((fun i => split total (Z.of_nat i) agents) <$> seq 0 (Z.to_nat agents)) = total.
Proof.
  intros Ha. erewrite list_fmap_ext by (intros ? i _; by apply split_eq).
  rewrite sum_Z_fmap_add, sum_Z_const, length_seq. pose proof (Z.mod_pos_bound total agents ltac:(lia)).
  rewrite sum_below_seq by lia. pose proof (Z.div_mod total agents ltac:(lia)). lia.
Qed.

(** [plan]'s shares are those of [agent_share], after its checks. *)
Lemma plan_Ok l ips data chaos agents shares : plan l ips data chaos agents = Ok shares ->
  shares = (agent_share l data chaos agents ∘ Z.of_nat <$> seq 0 (Z.to_nat agents)) /\
  agents <> 0 /\
  (forall a max, ld_arrivals l = Some a -> ar_max_connections a = Some max -> agents <= max) /\
  (ld_arrivals l = None -> agents <= ld_connections l) /\
  (forall requests, ld_max_requests l = Some requests -> agents <= requests) /\
  (0 < ld_ramp_rate l -> agents <= ld_ramp_rate l).
Proof.
  unfold plan. destruct (Z.eqb_spec agents 0) as [|Hn]; [done|]. destruct (negb _); [done|].
  rewrite !result_bind_Ok. intros (? & H1 & H2). rewrite result_bind_Ok in H2. destruct H2 as (? & H2 & H3).
  rewrite result_bind_Ok in H3. destruct H3 as (? & H3 & H4). rewrite result_bind_Ok in H4. destruct H4 as (? & H4 & H5).
  injection H5 as <-. split; [done|]. split; [done|]. split_and!.
  - intros a max Ha Hm. rewrite Ha in H1. cbn in H1. rewrite Hm in H1. destruct (Z.ltb_spec max agents); [done|lia].
  - intros Ha. rewrite Ha in H2. destruct (Z.ltb_spec (ld_connections l) agents); [done|lia].
  - intros r Hr. rewrite Hr in H3. destruct (Z.ltb_spec r agents); [done|lia].
  - intros Hr. destruct (Z.ltb_spec 0 (ld_ramp_rate l)); [|lia].
    destruct (Z.ltb_spec (ld_ramp_rate l) agents); [done|lia].
Qed.

(** A total over the agents, agent by agent. *)
Lemma sum_over_agents (f : WireLoad -> Z) l data chaos agents :
  sum_Z (f <$> (agent_share l data chaos agents ∘ Z.of_nat <$> seq 0 (Z.to_nat agents)))
  = sum_Z ((fun i => f (agent_share l data chaos agents (Z.of_nat i))) <$> seq 0 (Z.to_nat agents)).
Proof. by rewrite <- list_fmap_compose. Qed.

Lemma stage_targets_add_up stages agents elapsed : 1 <= agents ->
  sum_Z ((fun i => stage_target stages (Some (mkShare (Z.of_nat i) agents)) elapsed) <$> seq 0 (Z.to_nat agents))
  = target_at stages elapsed.
Proof. intros Ha. unfold stage_target, share_of. cbn. by apply split_sum. Qed.

(** Agents divide a run without losing or adding load. When [plan]
    accepts a run for [agents] agents it returns one share per agent; the
    shares' connections, ramp rates, request limits and session caps add up
    to the run's, no two differ by more than one connection, no agent is
    left without a connection, a request or a session it may open, and at
    every moment of a staged run the targets of the agents add up to the
    target of the whole profile. *)
Theorem plan_divides_load (l : Load) (source_ips : list string) (data : option DataSet) (chaos : option ChaosConfig)
    (agents : Z) (shares : list WireLoad)
    (Hpos : 0 <= agents) (Hplan : plan l source_ips data chaos agents = Ok shares) :
  Z.of_nat (length shares) = agents /\
  sum_Z ((ld_connections ∘ wl_load) <$> shares) = ld_connections l /\
  sum_Z ((ld_ramp_rate ∘ wl_load) <$> shares) = ld_ramp_rate l /\
  (forall requests, ld_max_requests l = Some requests ->
     sum_Z ((default 0 ∘ ld_max_requests ∘ wl_load) <$> shares) = requests) /\
  (forall a max, ld_arrivals l = Some a -> ar_max_connections a = Some max ->
     sum_Z ((fun w => default 0 (a ← ld_arrivals (wl_load w); ar_max_connections a)) <$> shares) = max) /\
  (ld_stages l <> [] -> forall elapsed,
     sum_Z ((fun w => stage_target (ld_stages (wl_load w)) (wl_stage_share w) elapsed) <$> shares)
     = target_at (ld_stages l) elapsed) /\
  (forall w, w ∈ shares ->
     ld_connections l / agents <= ld_connections (wl_load w) <= ld_connections l / agents + 1 /\
     (ld_arrivals l = None -> 1 <= ld_connections (wl_load w)) /\
     (forall requests, ld_max_requests (wl_load w) = Some requests -> 1 <= requests) /\
     (forall a max, ld_arrivals (wl_load w) = Some a -> ar_max_connections a = Some max -> 1 <= max)).
Proof.
  destruct (plan_Ok _ _ _ _ _ _ Hplan) as (-> & Hn & Hcap & Hconn & Hreq & Hramp).
  split; [rewrite length_fmap, length_seq; lia|]. rewrite !sum_over_agents.
  split; [exact (split_sum (ld_connections l) agents ltac:(lia))|].
  split; [exact (split_sum (ld_ramp_rate l) agents ltac:(lia))|].
  split; [intros r Hr; cbn; rewrite Hr; exact (split_sum r agents ltac:(lia))|].
  split; [intros a max Ha Hm; cbn; rewrite Ha; cbn; rewrite Hm; exact (split_sum max agents ltac:(lia))|].
  split.
  - intros Hs elapsed. rewrite sum_over_agents. rewrite <- (stage_targets_add_up (ld_stages l) agents elapsed) by lia. f_equal.
    apply list_fmap_ext. intros _ i _. cbn. by destruct (ld_stages l).
  - intros w (i & -> & _)%list_elem_of_fmap. cbn. split; [apply split_bounds; lia|].
    split; [intros Ha; apply split_positive; specialize (Hconn Ha); cbn; lia|]. split.
    + intros r' Hr. destruct (ld_max_requests l) as [r|]; [|done]. injection Hr as <-. apply split_positive.
      specialize (Hreq r eq_refl). cbn. lia.
    + intros a' max' Ha Hm. destruct (ld_arrivals l) as [a|]; [|done]. injection Ha as <-. cbn in Hm.
      destruct (ar_max_connections a) as [max|] eqn:E; [|done]. injection Hm as <-. apply split_positive.
      specialize (Hcap a max eq_refl E). cbn. lia.
Qed.

(** ** An agent accepts its share *)

Lemma build_load_Ok fmt l0 l : build_load fmt l0 = Some (Ok l) -> ld_arrivals l0 = None ->
  ld_arrivals l = None /\ ld_stages l = ld_stages l0 /\ ld_ramp_rate l = ld_ramp_rate l0 /\
  ld_max_requests l = ld_max_requests l0 /\ ld_connections l <> 0 /\ ld_max_requests l <> Some 0 /\
  (ld_stages l0 = [] -> l = l0) /\
  (ld_stages l0 <> [] -> validate_stages (ld_stages l0) (ld_ramp_rate l0) = Ok tt /\
     duration_sum (sg_duration <$> ld_stages l0) = Some (ld_duration l) /\
     ld_connections l = default 0 (iter_max (sg_target <$> ld_stages l0))).
Proof.
  unfold build_load. intros Hb Ha. rewrite Ha in Hb.
  assert (exists l1, (match ld_stages l0 with
            | [] => l1 = l0
            | stages => validate_stages stages (ld_ramp_rate l0) = Ok tt /\
                exists total, duration_sum (sg_duration <$> stages) = Some total /\
                l1 = l0 <| ld_connections := default 0 (iter_max (sg_target <$> stages)) |> <| ld_duration := total |>
            end) /\
    (let? _ := validate_connections (ld_connections l1) in
     let? _ := validate_max_requests (ld_max_requests l1) in Ok l1) = Ok l) as (l1 & Hl1 & Hl).
  { destruct (ld_stages l0) as [|stage stages]; [exists l0; cbn in Hb; by injection Hb|].
    destruct (validate_stages (stage :: stages) (ld_ramp_rate l0)) as [[]|e] eqn:Hv; [|done].
    destruct (duration_sum (sg_duration <$> stage :: stages)) as [total|] eqn:Hd; [|done]. cbn in Hb.
    eexists. split; [split; [exact Hv|by exists total]|]. by injection Hb. }
  apply result_bind_Ok in Hl as (? & Hc & Hl). apply result_bind_Ok in Hl as (? & Hm & [= ->]).
  unfold validate_connections, validate_max_requests in *. destruct (Z.eqb_spec (ld_connections l) 0); [done|].
  case_decide; [done|]. destruct (ld_stages l0) as [|stage stages] eqn:Es.
  - subst l. by split_and!.
  - destruct Hl1 as (Hv & total & Ht & ->). cbn in *. split_and!; try done.
Qed.

Lemma build_load_accepts fmt l total :
  ld_arrivals l = None -> ld_max_requests l <> Some 0 ->
  (ld_stages l = [] -> ld_connections l <> 0) ->
  (ld_stages l <> [] -> validate_stages (ld_stages l) (ld_ramp_rate l) = Ok tt /\
     duration_sum (sg_duration <$> ld_stages l) = Some total /\ default 0 (iter_max (sg_target <$> ld_stages l)) <> 0) ->
  build_load fmt l = Some (Ok (match ld_stages l with
    | [] => l
    | stages => l <| ld_connections := default 0 (iter_max (sg_target <$> stages)) |> <| ld_duration := total |>
    end)).
Proof.
  intros Ha Hm Hc Hs. unfold build_load. rewrite Ha. destruct (ld_stages l) as [|stage stages] eqn:E.
  - cbn. unfold validate_connections, validate_max_requests. rewrite (proj2 (Z.eqb_neq _ _)) by auto. cbn.
    by rewrite decide_False.
  - destruct (Hs ltac:(done)) as (Hv & Hd & Hx). cbn [ld_stages]. rewrite Hv, Hd. cbn.
    unfold validate_connections, validate_max_requests. cbn. rewrite (proj2 (Z.eqb_neq _ _)) by done. cbn.
    by rewrite decide_False.
Qed.

Lemma well_formed_parts d : well_formed d ->
  from_parts (ds_path d) (ds_columns d) (ds_rows d) = Ok (d <| ds_share := None |>).
Proof.
  intros [Hr Hf]. unfold from_parts. rewrite decide_False by done.
  assert (bad_row (length (ds_columns d)) (ds_rows d) = None) as ->; [|done].
  clear Hr. induction Hf as [|row rows Hrow Hf IH]; [done|]. cbn. rewrite (proj2 (Nat.eqb_eq _ _) Hrow). by rewrite IH.
Qed.

(** A share of an accepted configuration is an accepted configuration.
    Let the builder accept a run with a connection count or stages, with a
    data set that was parsed, and let [plan] divide it. Then every agent's
    validation of the settings [plan] changed accepts its share: it runs for the same duration with the
    same stages, its part of the connections (of the highest stage target,
    for a staged run), its part of the requests, and a data set of which its
    connections use every [agents]-th row from its own. *)
Theorem agents_accept_their_shares (fmt : f64 -> string) (l0 l : Load) (source_ips : list string)
    (data : option DataSet) (chaos : option ChaosConfig) (agents : Z) (shares : list WireLoad)
    (Hramp : 0 <= ld_ramp_rate l0) (Hbuilt : build_load fmt l0 = Some (Ok l)) (Harrivals : ld_arrivals l0 = None)
    (Hdata : forall d, data = Some d -> well_formed d)
    (Hpos : 0 <= agents) (Hplan : plan l source_ips data chaos agents = Ok shares) :
  forall index w, shares !! index = Some w ->
  into_load fmt w = Some (Ok (l <| ld_connections := share_of (mkShare (Z.of_nat index) agents) (ld_connections l) |>
                                <| ld_ramp_rate := split (ld_ramp_rate l) (Z.of_nat index) agents |>
                                <| ld_max_requests := (fun r => split r (Z.of_nat index) agents) <$> ld_max_requests l |>,
                              match ld_stages l with [] => None | _ => Some (mkShare (Z.of_nat index) agents) end,
                              (fun d => with_share (Z.of_nat index) agents (d <| ds_share := None |>)) <$> data)).
Proof.
  intros index w Hw. destruct (plan_Ok _ _ _ _ _ _ Hplan) as (-> & Hn & _ & Hconn & Hreq & _).
  destruct (build_load_Ok fmt l0 l Hbuilt Harrivals) as (Ha & Hst & Hrr & Hmr & Hc0 & Hm0 & Hplain & Hstaged).
  rewrite list_lookup_fmap_Some in Hw. destruct Hw as (i & -> & Hi). apply lookup_seq in Hi as [-> Hi]. cbn [Nat.add] in *.
  specialize (Hconn Ha).
  assert (bad_share (mkShare (Z.of_nat index) agents) = false) as Hbad.
  { unfold bad_share. cbn. apply orb_false_iff. split; [by apply Z.eqb_neq|apply Z.leb_gt; lia]. }
  set (share := mkShare (Z.of_nat index) agents) in *.
  assert (1 <= share_of share (ld_connections l)) as Hpart by (apply split_positive; cbn; lia).
  unfold into_load. cbn [compose agent_share wl_data wl_load wl_stage_share]. fold share.
  replace (into_data _) with (Ok (E := WsBlastError) ((fun d => with_share (Z.of_nat index) agents (d <| ds_share := None |>)) <$> data)).
  2: { destruct data as [d|]; [|done]. cbn. by rewrite (well_formed_parts d (Hdata d eq_refl)), Hbad. }
  assert (forall r, ld_max_requests l = Some r -> 1 <= split r (Z.of_nat index) agents) as Hr.
  { intros r Hr. apply split_positive. specialize (Hreq r Hr). lia. }
  rewrite (build_load_accepts fmt _ (ld_duration l)); cbn; rewrite ?Ha; try done.
  - destruct (ld_stages l) as [|stage stages] eqn:Es; cbn.
    + rewrite (proj2 (Z.eqb_neq _ _)) by lia. repeat f_equal.
    + rewrite Hbad. cbn. destruct (Hstaged ltac:(by rewrite <- Hst)) as (_ & _ & Hc). rewrite <- Hst in Hc. cbn in Hc.
      rewrite <- Hc. by rewrite (proj2 (Z.eqb_neq _ _)) by lia.
  - destruct (ld_max_requests l) as [r|]; [|done]. cbn. specialize (Hr r eq_refl). intros [= ?]. lia.
  - intros _. lia.
  - intros Hs. rewrite Hst in Hs |- *. destruct (Hstaged Hs) as (Hv & Hd & Hc). split; [|split; [done|by rewrite <- Hc]].
    unfold validate_stages in *. destruct (Z.ltb_spec 0 (ld_ramp_rate l0)); [done|].
    assert (ld_ramp_rate l = 0) as -> by lia. rewrite split_eq by lia. rewrite Z.div_0_l, Z.mod_0_l by lia.
    destruct (Z.ltb_spec (Z.of_nat index) 0); [lia|]. exact Hv.
Qed.

(** ** Examples *)

(** Stages of 10 seconds to 7 connections and 20 seconds to 5, a limit of 11
    requests, for 3 agents. *)
Definition staged_load : Load :=
  mkLoad 0 0 0 [mkStage (from_secs 10) 7; mkStage (from_secs 20) 5] None (Some 11).
Definition staged_built : Load :=
  mkLoad 7 0 (from_secs 30) [mkStage (from_secs 10) 7; mkStage (from_secs 20) 5] None (Some 11).
Definition no_f64 (x : f64) : string := "".

Lemma plan_divides_load_witness : exists shares,
  plan staged_built [] None None 3 = Ok shares /\
  (ld_connections ∘ wl_load) <$> shares = [3; 2; 2] /\
  sum_Z ((ld_connections ∘ wl_load) <$> shares) = 7.
Proof.
  eexists. split; [reflexivity|]. split; [reflexivity|].
  refine (proj1 (proj2 (plan_divides_load staged_built [] None None 3 _ _ _))); [discriminate|reflexivity].
Defined.

Definition two_users : DataSet := mkDataSet "users.csv" ["name"%string] [["ann"%string]; ["bob"%string]] None.

Lemma agents_accept_their_shares_witness : exists w l,
  plan staged_built [] (Some two_users) None 3 = Ok w /\
  (w' ← w !! 1%nat; into_load no_f64 w') = Some (Ok l) /\ ld_connections l.1.1 = 2 /\ ld_max_requests l.1.1 = Some 4.
Proof.
  eexists. eexists (_, _, _). split; [reflexivity|]. split; [|split].
  - refine (agents_accept_their_shares no_f64 staged_load staged_built [] (Some two_users) None 3 _ _ _ _ _ _ _ 1%nat _ _);
      try reflexivity; try discriminate.
    intros d [= <-]. split; [discriminate|]. repeat constructor.
  - reflexivity.
  - reflexivity.
Defined.

(** Stages whose durations do not fit a [Duration] together pass [parse_list]
    and the checks of the stages, but summing them panics. *)
Lemma stage_durations_overflow :
  parse_list "18446744073709551615s:1,1s:1"
    = Ok [mkStage (from_secs u64_max) 1; mkStage (from_secs 1) 1] /\
  build_load no_f64 (mkLoad 1 0 1 [mkStage (from_secs u64_max) 1; mkStage (from_secs 1) 1] None None) = None.
Proof. split; vm_compute; reflexivity. Qed.
