(* ===== verification/Runner.v ===== *)
(** * The runner's loops (src/src/runner.rs)

    How a run starts its workers and collects what they counted: all at once
    or ramped, following stages, or at an arrival rate.  A worker is its id;
    when timers fire, sessions finish and the run is cancelled is the
    environment's choice. *)

From Stdlib Require Import ZArith Lia String Floats.SpecFloat.
From stdpp Require Import base tactics strings numbers option gmap sorting list.
From S2P Require Import Prelude RustStd Str Live HumanDuration Summaries Chaos Data Load.

Local Open Scope Z_scope.
Local Open Scope rust_scope.

(** ** A constant number of connections *)

(** Before each worker whether the run is cancelled, and whether it is
    during the delay after it. *)
Fixpoint ramp (spawn_delay : bool) (todo : list nat) (env : list (bool * bool)) : list nat :=
  match todo, env with
  | worker_id :: todo', (cancelled, cancelled_in_delay) :: env' =>
      if cancelled : bool then []
      else worker_id :: (if spawn_delay && cancelled_in_delay then [] else ramp spawn_delay todo' env')
  | _, _ => []
  end.
Definition not_started (total_connections : nat) (handles : list nat) : nat := total_connections - length handles.

(** ** Stages *)

(** The workers of a staged run: open, most recently opened first, and
    closed by the ramp down. *)
Record Staged := mkStaged { sd_open : list nat; sd_closed : list nat; sd_next_id : nat }.
Definition Staged_new : Staged := mkStaged [] [] 0.

(** [while open.len() < wanted { .. }] and [while open.len() > wanted { .. }];
    the fuel is the most rounds they make. *)
Fixpoint open_up_to (fuel wanted : nat) (r : Staged) : Staged :=
  match fuel with
  | O => r
  | S fuel =>
      if (length (sd_open r) <? wanted)%nat
      then open_up_to fuel wanted (mkStaged (sd_next_id r :: sd_open r) (sd_closed r) (sd_next_id r + 1))
      else r
  end.
Fixpoint close_down_to (fuel wanted : nat) (r : Staged) : Staged :=
  match fuel with
  | O => r
  | S fuel =>
      if (wanted <? length (sd_open r))%nat then
        match sd_open r with
        | [] => r
        | worker :: rest => close_down_to fuel wanted (mkStaged rest (sd_closed r ++ [worker]) (sd_next_id r))
        end
      else r
  end.

Definition stage_tick (wanted : nat) (r : Staged) : Staged :=
  let r := open_up_to wanted wanted r in
  close_down_to (length (sd_open r)) wanted r.

(** A run whose ticks came [ticks] after its start. *)
Definition run_ticks (stages : list Stage) (share : option Share) (ticks : list Z) : Staged :=
  fold_left (fun r elapsed => stage_tick (Z.to_nat (stage_target stages share elapsed)) r) ticks Staged_new.
(** The workers [run_stages] returns. *)
Definition run_stages (stages : list Stage) (share : option Share) (ticks : list Z) : list nat :=
  let r := run_ticks stages share ticks in sd_closed r ++ reverse (sd_open r).

Lemma open_up_to_spec fuel wanted r : (wanted - length (sd_open r) <= fuel)%nat ->
  exists new, open_up_to fuel wanted r = mkStaged (new ++ sd_open r) (sd_closed r) (sd_next_id r + length new) /\
    length new = (wanted - length (sd_open r))%nat /\ new ≡ₚ seq (sd_next_id r) (length new).
Proof.
  revert r. induction fuel as [|fuel IH]; intros r Hf; cbn [open_up_to].
  - exists []. cbn. rewrite Nat.add_0_r. destruct r. by split_and!; [|cbn in *; lia|].
  - destruct (Nat.ltb_spec (length (sd_open r)) wanted) as [Hlt|Hge].
    + destruct (IH (mkStaged (sd_next_id r :: sd_open r) (sd_closed r) (sd_next_id r + 1))) as (new & -> & Hl & Hp);
        [cbn; lia|]. cbn in *. exists (new ++ [sd_next_id r]). rewrite <- app_assoc, length_app. cbn.
      split; [f_equal; lia|]. split; [lia|]. rewrite Nat.add_1_r in *. cbn [seq].
      rewrite (Permutation_app_comm _ [_]). cbn. by rewrite Hp at 1.
    + exists []. cbn. rewrite Nat.add_0_r. destruct r. by split_and!; [|cbn in *; lia|].
Qed.

Lemma close_down_to_spec fuel wanted r : (length (sd_open r) - wanted <= fuel)%nat ->
  exists gone, sd_open r = gone ++ sd_open (close_down_to fuel wanted r) /\
    length gone = (length (sd_open r) - wanted)%nat /\
    sd_closed (close_down_to fuel wanted r) = sd_closed r ++ gone /\
    sd_next_id (close_down_to fuel wanted r) = sd_next_id r.
Proof.
  revert r. induction fuel as [|fuel IH]; intros r Hf; cbn [close_down_to].
  - exists []. rewrite app_nil_r. by split_and!; [|cbn; lia| |].
  - destruct (Nat.ltb_spec wanted (length (sd_open r))) as [Hlt|Hge]; [|exists []; rewrite app_nil_r; by split_and!; [|cbn; lia| |]].
    destruct (sd_open r) as [|worker rest] eqn:E; [cbn in *; lia|].
    destruct (IH (mkStaged rest (sd_closed r ++ [worker]) (sd_next_id r))) as (gone & Hg & Hl & Hc & Hn); [cbn in *; lia|].
    cbn in *. exists (worker :: gone). rewrite Hc, Hn, <- app_assoc. cbn [app]. split; [by f_equal|]. cbn [length]. split; [lia|done].
Qed.

(** One tick. *)
Lemma stage_tick_spec wanted r :
  sd_open r ++ sd_closed r ≡ₚ seq 0 (sd_next_id r) ->
  let r' := stage_tick wanted r in
  length (sd_open r') = wanted /\ sd_open r' ++ sd_closed r' ≡ₚ seq 0 (sd_next_id r') /\
  (sd_open r `suffix_of` sd_open r' /\ sd_closed r' = sd_closed r \/
   sd_open r' `suffix_of` sd_open r /\ sd_next_id r' = sd_next_id r).
Proof.
  intros Hp. unfold stage_tick. destruct (open_up_to_spec wanted wanted r ltac:(lia)) as (new & -> & Hl & Hnew).
  set (r1 := mkStaged _ _ _). destruct (close_down_to_spec (length (sd_open r1)) wanted r1 ltac:(lia)) as (gone & Hg & Hgl & Hc & Hn).
  cbv zeta. rewrite Hc, Hn. assert (length (sd_open r1) = (length new + length (sd_open r))%nat) as Hl1 by (cbn; by rewrite length_app).
  pose proof (f_equal length Hg) as Hlg. rewrite length_app in Hlg. split; [lia|]. split.
  - rewrite (Permutation_app_comm (sd_closed r1)), app_assoc, (Permutation_app_comm _ gone), <- Hg. cbn [r1 sd_open sd_closed sd_next_id].
    rewrite <- app_assoc, Hp, Permutation_app_comm, seq_app. by rewrite Hnew at 1.
  - destruct (decide (length (sd_open r) <= wanted)%nat) as [Hle|Hgt].
    + left. assert (gone = []) as -> by (apply nil_length_inv; lia). cbn [app] in Hg. rewrite <- Hg, app_nil_r. split; [by exists new|done].
    + right. assert (new = []) as -> by (apply nil_length_inv; lia). cbn [r1 sd_open sd_next_id app length] in *. split; [by exists gone|lia].
Qed.

Lemma run_ticks_sessions stages share ticks :
  let r := run_ticks stages share ticks in sd_open r ++ sd_closed r ≡ₚ seq 0 (sd_next_id r).
Proof.
  unfold run_ticks. induction ticks as [|t ticks IH] using rev_ind; [done|].
  rewrite fold_left_app. cbn [fold_left]. exact (proj1 (proj2 (stage_tick_spec _ _ IH))).
Qed.

(** C33. A staged run follows its profile. After every tick exactly as many
    workers are open as the profile (this agent's share of it) asks for at
    that moment. No tick both opens and closes: ramping down closes the most
    recently opened workers and starts none, otherwise the open workers stay
    open. When the run ends, every worker it ever started is collected
    exactly once, closed ones included. *)
Theorem staged_run_follows_profile (stages : list Stage) (share : option Share) (ticks : list Z) (elapsed : Z) :
  let before := run_ticks stages share ticks in
  let after := run_ticks stages share (ticks ++ [elapsed]) in
  length (sd_open after) = Z.to_nat (stage_target stages share elapsed) /\
  (sd_open before `suffix_of` sd_open after /\ sd_closed after = sd_closed before \/
   sd_open after `suffix_of` sd_open before /\ sd_next_id after = sd_next_id before) /\
  run_stages stages share (ticks ++ [elapsed]) ≡ₚ seq 0 (sd_next_id after).
Proof.
  cbv zeta. destruct (stage_tick_spec (Z.to_nat (stage_target stages share elapsed)) _ (run_ticks_sessions stages share ticks)) as (Hl & Hp & Hc).
  assert (run_ticks stages share (ticks ++ [elapsed])
          = stage_tick (Z.to_nat (stage_target stages share elapsed)) (run_ticks stages share ticks)) as Hstep.
  { unfold run_ticks at 1. by rewrite fold_left_app. }
  split; [by rewrite Hstep|]. split; [by rewrite Hstep|].
  unfold run_stages. rewrite reverse_Permutation, Permutation_app_comm. apply run_ticks_sessions.
Qed.

(** ** Sessions at an arrival rate

    [run_arrivals] as a state machine: a location per point where it waits
    for the environment, and one event for what the environment does there.
    Times are nanoseconds after the start. *)

(** An arrival: when it was due, when it was looked at, and the session it
    started unless it was skipped. *)
Record Arrival := mkArrival { av_due : Z; av_at : Z; av_session : option nat }.

Record ArrivalRun := mkArrivalRun {
  rn_open : list nat;
  rn_added : list nat;
  rn_lost : list nat;
  rn_counts : ArrivalCounts;
  rn_arrived : Z;
  rn_next : Z;
  rn_clock : Z;
  rn_log : list Arrival;
}.
#[export] Instance ArrivalRun_eta : Settable ArrivalRun := fun r =>
  mkArrivalRun (rn_open r) (rn_added r) (rn_lost r) (rn_counts r) (rn_arrived r) (rn_next r) (rn_clock r) (rn_log r).

Definition ArrivalRun_new : ArrivalRun := mkArrivalRun [] [] [] ArrivalCounts_default 0 0 0 [].

(** In [sleep_until]; collecting what has finished; waiting for the end;
    catching up with what is due at a given time; joining what is open. *)
Inductive ArrivalLoc := Sleeping | Collecting | AwaitingEnd | CatchingUp (now : Z) | JoiningAll | Returned | Panicked.

(** The token is cancelled; the timer fires (and the clock reads [t]); a
    session's task ends, with its metrics or by a panic; no session has
    finished (and the clock reads [t]); one round of the inner loop; no
    session is left. *)
Inductive ArrivalEvent :=
  | TokenCancelled
  | TimerFired (t : Z)
  | SessionDone (id : nat) (finished : bool)
  | NoneFinished (t : Z)
  | NextArrival
  | NoneLeft.

(** A panicked task has no metrics to add. *)
Definition collect_session (id : nat) (ok : bool) (r : ArrivalRun) : option ArrivalRun :=
  if decide (id ∈ rn_open r) then
    Some (if ok then r <| rn_open ::= filter (fun i => i <> id) |> <| rn_added ::= fun l => id :: l |>
          else r <| rn_open ::= filter (fun i => i <> id) |> <| rn_lost ::= fun l => id :: l |>)
  else None.

Section Arrivals.
(** [instant_max]: the last [Instant] the clock can represent. *)
Context (arrivals : Arrivals) (duration interval instant_max : Z).

Definition max_open : Z := default u64_max (ar_max_connections arrivals).
Definition interval_of (at_ : Z) : nat := Z.to_nat (saturating_duration_since at_ 0 / interval).
Definition open_count (r : ArrivalRun) : Z := Z.of_nat (length (rn_open r)).

(** [start + Duration::from_secs_f64(k as f64 / rate)]; [None] is a panic. *)
Definition arrival_at (k : Z) : option Z :=
  d ← try_from_secs_f64 (f64_div (f64_of_Z k) (ar_rate arrivals));
  if d <=? instant_max then Some d else None.

Definition due_now (now : Z) (r : ArrivalRun) : bool := (rn_next r <=? now) && (rn_next r <? duration).

(** The body of the inner loop: start the session or skip it, and set when
    the next one is due. *)
Definition start_or_skip (now : Z) (r : ArrivalRun) : ArrivalRun :=
  if max_open <=? open_count r
  then r <| rn_counts ::= (fun c => c <| ac_skipped ::= fun n => n +u 1 |>) |>
         <| rn_log ::= fun l => l ++ [mkArrival (rn_next r) now None] |>
  else
    let id := Z.to_nat (ac_started (rn_counts r)) in
    let r := r <| rn_open ::= (fun l => l ++ [id]) |>
               <| rn_log ::= (fun l => l ++ [mkArrival (rn_next r) now (Some id)]) |> in
    r <| rn_counts ::= fun c => ArrivalCounts_observe (interval_of now) (open_count r)
           (c <| ac_started ::= fun n => n +u 1 |>) |>.
Definition arrive (now : Z) (r : ArrivalRun) : ArrivalLoc * ArrivalRun :=
  let r := (start_or_skip now r) <| rn_arrived ::= fun n => n +u 1 |> in
  match arrival_at (rn_arrived r) with
  | Some next => (CatchingUp now, r <| rn_next := next |>)
  | None => (Panicked, r)
  end.

Definition arrival_step (e : ArrivalEvent) (s : ArrivalLoc * ArrivalRun) : option (ArrivalLoc * ArrivalRun) :=
  let (loc, r) := s in
  match loc, e with
  | Sleeping, TokenCancelled | AwaitingEnd, TokenCancelled => Some (JoiningAll, r)
  | Sleeping, TimerFired t =>
      let wake := Z.min (rn_next r) duration in
      if (wake <=? t) && (rn_clock r <=? t)
      then Some (Collecting, r <| rn_clock := t |>
             <| rn_counts ::= ArrivalCounts_observe (interval_of t) (open_count r) |>)
      else None
  | Collecting, SessionDone id ok => pair Collecting <$> collect_session id ok r
  | Collecting, NoneFinished t =>
      if rn_clock r <=? t
      then Some (if duration <=? rn_next r then AwaitingEnd else CatchingUp t, r <| rn_clock := t |>)
      else None
  | AwaitingEnd, SessionDone id ok => pair Sleeping <$> collect_session id ok r
  | CatchingUp now, NextArrival => Some (if due_now now r then arrive now r else (Sleeping, r))
  | JoiningAll, SessionDone id ok => pair JoiningAll <$> collect_session id ok r
  | JoiningAll, NoneLeft => if decide (rn_open r = []) then Some (Returned, r) else None
  | _, _ => None
  end.

Definition run_arrivals (events : list ArrivalEvent) : option (ArrivalLoc * ArrivalRun) :=
  foldl (fun s e => s ← s; arrival_step e s) (Some (Sleeping, ArrivalRun_new)) events.
End Arrivals.

(** What holds at every point of the loop, and at each of them. *)
Record arrivals_ok (arrivals : Arrivals) (duration instant_max : Z) (r : ArrivalRun) : Prop := {
  ok_sessions : rn_open r ++ rn_added r ++ rn_lost r ≡ₚ seq 0 (Z.to_nat (ac_started (rn_counts r)));
  ok_started : omap av_session (rn_log r) = seq 0 (Z.to_nat (ac_started (rn_counts r)));
  ok_counts : 0 <= ac_started (rn_counts r) /\ 0 <= ac_skipped (rn_counts r) /\
    ac_started (rn_counts r) + ac_skipped (rn_counts r) = rn_arrived r;
  ok_log : Z.of_nat (length (rn_log r)) = rn_arrived r;
  ok_open : open_count r <= ac_peak_open (rn_counts r) <= max_open arrivals;
  ok_arrivals k a : rn_log r !! k = Some a ->
    arrival_at arrivals instant_max (Z.of_nat k) = Some (av_due a) /\
    av_due a <= av_at a <= rn_clock r /\ av_due a < duration;
}.
Definition at_loc (arrivals : Arrivals) (duration instant_max : Z) (loc : ArrivalLoc) (r : ArrivalRun) : Prop :=
  (match loc with
   | Panicked => True
   | _ => arrival_at arrivals instant_max (rn_arrived r) = Some (rn_next r)
   end) /\
  (match loc with
   | Sleeping => rn_clock r < rn_next r \/ duration <= rn_next r \/ r = ArrivalRun_new
   | AwaitingEnd => duration <= rn_next r
   | CatchingUp now => now = rn_clock r
   | Returned => rn_open r = []
   | _ => True
   end).

Section ArrivalFacts.
Context (arrivals : Arrivals) (duration interval instant_max : Z).
Local Abbreviation ok := (arrivals_ok arrivals duration instant_max).
Context (Hcap : forall max, ar_max_connections arrivals = Some max -> is_u64 max).

Lemma max_open_u64 : is_u64 (max_open arrivals).
Proof using Hcap. unfold max_open. destruct (ar_max_connections arrivals) eqn:E; [exact (Hcap _ eq_refl)|done]. Qed.

Lemma arrival_at_0 : f64_is_finite (ar_rate arrivals) && f64_ltb f64_zero (ar_rate arrivals) = true ->
  0 <= instant_max -> arrival_at arrivals instant_max 0 = Some 0.
Proof using.
  intros H Hi. unfold arrival_at. destruct (ar_rate arrivals) as [[]|[]| |[] m e]; try done. cbn.
  by rewrite (proj2 (Z.leb_le _ _)).
Qed.

Lemma arrivals_ok_new : ok ArrivalRun_new.
Proof using Hcap.
  pose proof max_open_u64 as Hm. split; cbn; try done; try lia. unfold open_count, is_uint in *. cbn. lia.
Qed.

(** Moving a session from the open ones to the collected ones. *)
Lemma collect_session_ok id done_ok r r' : ok r -> collect_session id done_ok r = Some r' ->
  ok r' /\ rn_next r' = rn_next r /\ rn_arrived r' = rn_arrived r.
Proof using.
  intros [Hs Hst Hct Hlg Ho Ha] Hc. unfold collect_session in Hc. case_decide as Hid; [|done].
  assert (filter (fun i => i <> id) (rn_open r) ++ [id] ≡ₚ rn_open r) as Hp.
  { assert (NoDup (rn_open r)) as Hnd.
    { apply (NoDup_app (rn_open r) (rn_added r ++ rn_lost r)). rewrite Hs. apply NoDup_seq. }
    apply NoDup_Permutation; [|done|].
    - apply NoDup_app. split; [by apply NoDup_filter|]. split; [|apply NoDup_singleton].
      intros x [Hx _]%list_elem_of_filter ->%list_elem_of_singleton. done.
    - intros x. rewrite elem_of_app, list_elem_of_filter, list_elem_of_singleton.
      destruct (decide (x = id)) as [->|]; tauto. }
  pose proof (Permutation_length Hp) as Hlen. rewrite length_app in Hlen. cbn in Hlen.
  unfold open_count in Ho.
  assert (r' = r <| rn_open ::= filter (fun i => i <> id) |> <| rn_added ::= app (if done_ok then [id] else []) |>
                 <| rn_lost ::= app (if done_ok then [] else [id]) |>) as -> by (destruct r, done_ok; cbn in *; by simplify_eq).
  split; [|done]. split; cbn; try done; [|unfold open_count; cbn; lia].
  rewrite <- Hs. transitivity ((filter (fun i => i <> id) (rn_open r) ++ [id]) ++ rn_added r ++ rn_lost r); [|by rewrite Hp].
  rewrite <- (app_assoc _ [id]). apply Permutation_app_head. destruct done_ok; cbn; [done|]. by rewrite Permutation_middle.
Qed.

Lemma log_snoc r now o : ok r -> arrival_at arrivals instant_max (rn_arrived r) = Some (rn_next r) ->
  now = rn_clock r -> due_now duration now r = true ->
  forall k a, (rn_log r ++ [mkArrival (rn_next r) now o]) !! k = Some a ->
  arrival_at arrivals instant_max (Z.of_nat k) = Some (av_due a) /\
  av_due a <= av_at a <= rn_clock r /\ av_due a < duration.
Proof using.
  intros Hok Hn -> Hdue k a [[_ Hk]|[-> <-]]%lookup_snoc_Some; [by apply (ok_arrivals _ _ _ _ Hok)|].
  cbn. rewrite (ok_log _ _ _ _ Hok), Hn. unfold due_now in Hdue. bool_to_prop. split; [done|lia].
Qed.

Lemma start_or_skip_ok now r : ok r -> at_loc arrivals duration instant_max (CatchingUp now) r ->
  due_now duration now r = true -> rn_arrived r < u64_max ->
  ok ((start_or_skip arrivals interval now r) <| rn_arrived ::= fun n => n +u 1 |>) /\
  rn_clock (start_or_skip arrivals interval now r) = rn_clock r /\
  rn_arrived (start_or_skip arrivals interval now r) +u 1 = rn_arrived r + 1.
Proof using Hcap.
  intros Hok [Hn Hnow] Hdue Hmax. pose proof max_open_u64 as Hm.
  pose proof (log_snoc r now None Hok Hn Hnow Hdue) as Hsk.
  pose proof (fun id => log_snoc r now (Some id) Hok Hn Hnow Hdue) as Hst. destruct Hok as [Hs Ho Hct Hlg Hp Ha].
  unfold u64_max in Hmax. assert (rn_arrived r +u 1 = rn_arrived r + 1) as Har by (apply u64_add_id; lia).
  unfold start_or_skip. destruct (Z.leb_spec (max_open arrivals) (open_count r)) as [Hfull|Hroom].
  - cbn. split; [|by split]. assert (ac_skipped (rn_counts r) +u 1 = ac_skipped (rn_counts r) + 1) as Hadd by (apply u64_add_id; lia).
    split; cbn -[omap]; try done; rewrite ?Hadd, ?Har.
    + by rewrite omap_app, Ho, app_nil_r.
    + lia.
    + rewrite length_app. cbn. lia.
  - cbn. split; [|by split]. assert (ac_started (rn_counts r) +u 1 = ac_started (rn_counts r) + 1) as Hadd by (apply u64_add_id; lia).
    assert (seq 0 (Z.to_nat (ac_started (rn_counts r) + 1))
            = seq 0 (Z.to_nat (ac_started (rn_counts r))) ++ [Z.to_nat (ac_started (rn_counts r))]) as Hseq.
    { rewrite Z2Nat.inj_add, seq_app by lia. done. }
    split; cbn -[omap]; try done; rewrite ?Hadd, ?Har, ?Hseq.
    + rewrite <- Hs. by rewrite <- !app_assoc, (Permutation_app_comm [_]), <- !app_assoc.
    + by rewrite omap_app, Ho.
    + lia.
    + rewrite length_app. cbn. lia.
    + unfold open_count in *. cbn. rewrite length_app in *. cbn. lia.
    + exact (Hst _).
Qed.

(** The loop's invariant, step by step. *)
Lemma arrival_step_ok e loc loc' r r' :
  ok r -> at_loc arrivals duration instant_max loc r -> rn_arrived r < u64_max ->
  arrival_step arrivals duration interval instant_max e (loc, r) = Some (loc', r') ->
  ok r' /\ at_loc arrivals duration instant_max loc' r' /\ rn_arrived r' <= rn_arrived r + 1.
Proof using Hcap.
  intros Hok Hloc Hmax Hstep. assert (rn_arrived r <= rn_arrived r + 1) as Hle by lia.
  assert (forall t, rn_clock r <= t -> ok (r <| rn_clock := t |>)) as Hclock.
  { intros t Ht. destruct Hok as [Hs Ho Hct Hlg Hp Ha]. split; cbn; try done.
    intros k a Hk. destruct (Ha k a Hk) as (? & ? & ?). split; [done|lia]. }
  destruct loc, e; cbn in Hstep; try done.
  - injection Hstep as <- <-. split; [done|]. split; [|done]. by destruct Hloc.
  - destruct (Z.leb_spec (rn_clock r) t) as [Ht|]; [|by rewrite andb_false_r in Hstep].
    destruct (_ <=? _); [|done]. injection Hstep as <- <-. destruct Hloc as [Hn _]. split; [|done].
    destruct (Hclock t Ht) as [Hs Ho Hct Hlg Hp Ha]. split; cbn in *; try done. unfold open_count in *. cbn in *. lia.
  - destruct (collect_session id finished r) as [r1|] eqn:E; [|done]. injection Hstep as <- <-.
    destruct (collect_session_ok _ _ _ _ Hok E) as (? & Hn & Ha). rewrite Ha. split; [done|]. split; [|done].
    destruct Hloc. split; [by rewrite Ha, Hn|done].
  - destruct (Z.leb_spec (rn_clock r) t) as [Ht|]; [|done]. injection Hstep as <- <-. split; [by apply Hclock|].
    split; [|done]. destruct Hloc as [Hn _]. by destruct (Z.leb_spec duration (rn_next r)).
  - destruct Hloc as [Hn Hd]. injection Hstep as <- <-. by split.
  - destruct (collect_session id finished r) as [r1|] eqn:E; [|done]. injection Hstep as <- <-.
    destruct (collect_session_ok _ _ _ _ Hok E) as (? & Hn & Ha). rewrite Ha. split; [done|]. split; [|done].
    destruct Hloc as [? Hd]. split; [by rewrite Ha, Hn|]. right; left. by rewrite Hn.
  - destruct (due_now duration now r) eqn:Hdue.
    + destruct (start_or_skip_ok now r Hok Hloc Hdue Hmax) as (Hok' & Hc & Ha).
      unfold arrive in Hstep. cbn in Hstep. rewrite Ha in *. destruct (arrival_at _ _ _) as [next|] eqn:E.
      * injection Hstep as <- <-. split; [|split; [split; [done|cbn; rewrite Hc; by destruct Hloc]|cbn; lia]].
        destruct Hok'. cbn in *. rewrite Ha in *. by split.
      * injection Hstep as <- <-. split; [|split; [done|cbn; lia]]. destruct Hok'. cbn in *. rewrite Ha in *. by split.
    + injection Hstep as <- <-. split; [done|]. split; [|done]. destruct Hloc as [Hn Hnow]. split; [done|].
      unfold due_now in Hdue. apply andb_false_iff in Hdue as [?|?]; bool_to_prop; [left|right; left]; lia.
  - destruct (collect_session id finished r) as [r1|] eqn:E; [|done]. injection Hstep as <- <-.
    destruct (collect_session_ok _ _ _ _ Hok E) as (? & Hn & Ha). rewrite Ha. split; [done|]. split; [|done].
    destruct Hloc. split; [by rewrite Ha, Hn|done].
  - case_decide; [|done]. injection Hstep as <- <-. split; [done|]. split; [|done]. destruct Hloc. by split.
Qed.
End ArrivalFacts.

(** C7. An arrival run accounts for every arrival. After any events, of
    which there are at most [2^64 - 1]: every arrival so far either started a
    session or was skipped, arrival number [k] was due [k / rate] after the
    start, before the end of the run and not after the moment it was handled;
    sessions got the ids [0, 1, ..] in that order; every session started is
    open, added to the totals or lost to a panic, exactly one of them; no
    more than the cap are open and [peak_open] lies between the two; whenever
    the loop goes back to sleep no arrival is due, and when it has returned no
    session is open, so each one was collected. *)
Theorem arrivals_accounted (arrivals : Arrivals) (duration interval instant_max : Z)
    (events : list ArrivalEvent) (loc : ArrivalLoc) (r : ArrivalRun)
    (Hrate : f64_is_finite (ar_rate arrivals) && f64_ltb f64_zero (ar_rate arrivals) = true)
    (Hcap : forall max, ar_max_connections arrivals = Some max -> is_u64 max)
    (Hinstant : 0 <= instant_max) (Hevents : Z.of_nat (length events) <= u64_max)
    (Hrun : run_arrivals arrivals duration interval instant_max events = Some (loc, r)) :
  let started := ac_started (rn_counts r) in
  started + ac_skipped (rn_counts r) = Z.of_nat (length (rn_log r)) /\
  (forall k a, rn_log r !! k = Some a ->
     arrival_at arrivals instant_max (Z.of_nat k) = Some (av_due a) /\
     av_due a <= av_at a <= rn_clock r /\ av_due a < duration) /\
  omap av_session (rn_log r) = seq 0 (Z.to_nat started) /\
  rn_open r ++ rn_added r ++ rn_lost r ≡ₚ seq 0 (Z.to_nat started) /\
  open_count r <= ac_peak_open (rn_counts r) <= max_open arrivals /\
  (loc = Sleeping -> rn_clock r < rn_next r \/ duration <= rn_next r \/ r = ArrivalRun_new) /\
  (loc = Returned -> rn_added r ++ rn_lost r ≡ₚ seq 0 (Z.to_nat started)).
Proof.
  assert (arrivals_ok arrivals duration instant_max r /\ at_loc arrivals duration instant_max loc r /\
          rn_arrived r <= Z.of_nat (length events)) as (Hok & [_ Hloc] & _).
  { revert loc r Hrun. induction events as [|e events IH] using rev_ind; intros loc r Hrun.
    - injection Hrun as <- <-. split; [by apply arrivals_ok_new|]. split; [|done]. split; [by apply arrival_at_0|by cbn; auto].
    - rewrite length_app in *. cbn in Hevents. unfold run_arrivals in Hrun. rewrite foldl_app in Hrun. cbn [foldl] in Hrun.
      fold (run_arrivals arrivals duration interval instant_max events) in Hrun.
      destruct (run_arrivals arrivals duration interval instant_max events) as [[loc0 r0]|] eqn:E; [|done].
      destruct (IH ltac:(lia) loc0 r0 eq_refl) as (Hok & Hat & Hle). cbn [mbind option_bind] in Hrun.
      destruct (arrival_step_ok arrivals duration interval instant_max Hcap e loc0 loc r0 r Hok Hat ltac:(lia) Hrun)
        as (? & ? & ?). split; [done|]. split; [done|]. cbn. lia. }
  destruct Hok as [Hs Hst Hct Hlg Ho Ha]. cbv zeta.
  split; [lia|]. split; [exact Ha|]. split; [done|]. split; [done|]. split; [done|].
  split; intros ->; [done|]. by rewrite Hloc in Hs.
Qed.

(** Two sessions a second for one second with room for one session: the
    second arrival is skipped, the third would be due at the end. *)
Definition two_per_second : Arrivals := mkArrivals (f64_of_Z 2) (from_secs 5) (Some 1).
Definition two_arrivals : list ArrivalEvent :=
  [TimerFired 3; NoneFinished 4; NextArrival; NextArrival; TimerFired 500000007; NoneFinished 500000008;
   NextArrival; NextArrival; TimerFired 1000000001; NoneFinished 1000000002; TokenCancelled;
   SessionDone 0 true; NoneLeft].

Lemma arrivals_accounted_witness : exists r,
  run_arrivals two_per_second (from_secs 1) 100000000 (2 ^ 63) two_arrivals = Some (Returned, r) /\
  ac_started (rn_counts r) = 1 /\ ac_skipped (rn_counts r) = 1 /\ ac_interval_peaks (rn_counts r) = [1; 1; 1; 1; 1; 1; 1; 1; 1; 1; 1] /\
  ac_started (rn_counts r) + ac_skipped (rn_counts r) = Z.of_nat (length (rn_log r)).
Proof.
  destruct (run_arrivals two_per_second (from_secs 1) 100000000 (2 ^ 63) two_arrivals) as [[loc r]|] eqn:E;
    [|vm_compute in E; discriminate].
  pose proof (arrivals_accounted two_per_second (from_secs 1) 100000000 (2 ^ 63) two_arrivals loc r
    ltac:(vm_compute; reflexivity) ltac:(intros max [= <-]; split; reflexivity || discriminate)
    ltac:(discriminate) ltac:(vm_compute; discriminate) E) as [Hsum _].
  exists r. vm_compute in E. injection E as <- <-. split; [reflexivity|]. split; [reflexivity|].
  split; [reflexivity|]. split; [reflexivity|]. exact Hsum.
Defined.

(** A rate that passes [check_values] but whose second arrival is too far
    away for a [Duration]: the loop panics on computing when it is due. *)
Lemma tiny_rate_panics (fmt : f64 -> string) :
  let a := mkArrivals (f64_lit 1 (10 ^ 20)) (from_secs 1) None in
  check_values fmt "--arrival-rate" "--session-duration" "--max-connections" a = Ok tt /\
  exists r, run_arrivals a (from_secs 10) 100000000 (2 ^ 63) [TimerFired 0; NoneFinished 0; NextArrival]
            = Some (Panicked, r).
Proof. split; [reflexivity|]. eexists. vm_compute. reflexivity. Qed.
