(* ===== verification/Clock.v ===== *)
(** * Wall-clock timestamps (src/src/clock.rs) *)

From Stdlib Require Import ZArith Lia String.
From stdpp Require Import base tactics strings numbers option list.
From S2P Require Import Prelude RustStd Str.

Local Open Scope Z_scope.

(** [div_euclid] by a positive number is [Z.div], as is [/] of numbers that
    are not negative. *)
Definition civil_from_days (days : Z) : Z * Z * Z :=
  let z := days + 719468 in
  let era := z / 146097 in
  let doe := z - era * 146097 in
  let yoe := (doe - doe / 1460 + doe / 36524 - doe / 146096) / 365 in
  let doy := doe - (365 * yoe + yoe / 4 - yoe / 100) in
  let mp := (5 * doy + 2) / 153 in
  let day := doy - (153 * mp + 2) / 5 + 1 in
  let month := if mp <? 10 then mp + 3 else mp - 9 in
  let year := yoe + era * 400 + (if month <=? 2 then 1 else 0) in
  (year, month, day).

(** [{n:0width}] *)
Definition pad (width : nat) (n : Z) : string :=
  let digits := display_u64 n in
  fold_left (fun s _ => ("0" ++ s)%string) (seq 0 (width - String.length digits)) digits.

(** [since_epoch]: nanoseconds after 1970, 0 for a time before it. *)
Definition rfc3339_utc (since_epoch : Z) : string :=
  let secs := as_secs since_epoch in
  let '(year, month, day) := civil_from_days (secs / 86400) in
  let rem := secs mod 86400 in
  pad 4 year ++ "-" ++ pad 2 month ++ "-" ++ pad 2 day ++ "T" ++ pad 2 (rem / 3600) ++ ":"
  ++ pad 2 (rem mod 3600 / 60) ++ ":" ++ pad 2 (rem mod 60) ++ "." ++ pad 3 (subsec_millis since_epoch) ++ "Z".

(** ** The calendar *)

Definition leap_year (y : Z) : bool :=
  (y mod 4 =? 0) && (negb (y mod 100 =? 0) || (y mod 400 =? 0)).
Definition days_in_month (y m : Z) : Z :=
  if m =? 2 then (if leap_year y then 29 else 28)
  else if (m =? 4) || (m =? 6) || (m =? 9) || (m =? 11) then 30 else 31.
Definition next_day (date : Z * Z * Z) : Z * Z * Z :=
  let '(y, m, d) := date in
  if d <? days_in_month y m then (y, m, d + 1) else if m <? 12 then (y, m + 1, 1) else (y + 1, 1, 1).

Lemma leap_year_period k y : leap_year (y + k * 400) = leap_year y.
Proof.
  unfold leap_year. replace (k * 400) with (k * 100 * 4) at 1 by lia. rewrite Z.mod_add by lia.
  replace (k * 400) with (k * 4 * 100) at 1 by lia. rewrite Z.mod_add by lia. by rewrite Z.mod_add by lia.
Qed.

(** The steps of [civil_from_days]: the year of the era of a day of the era,
    and the month and day of a day of a year that begins in March. *)
Definition year_of_era (doe : Z) : Z := (doe - doe / 1460 + doe / 36524 - doe / 146096) / 365.
Definition year_start (yoe : Z) : Z := 365 * yoe + yoe / 4 - yoe / 100 + yoe / 400.
Definition month_day (doy : Z) : Z * Z :=
  let mp := (5 * doy + 2) / 153 in (if mp <? 10 then mp + 3 else mp - 9, doy - (153 * mp + 2) / 5 + 1).
Definition civil (era yoe doy : Z) : Z * Z * Z :=
  let (month, day) := month_day doy in (yoe + era * 400 + (if month <=? 2 then 1 else 0), month, day).
Definition year_length (yoe : Z) : Z := if leap_year (yoe + 1) then 366 else 365.

(** Checked for each year of an era: its first and last day. *)
Lemma year_of_era_ends : forallb (fun n => let y := Z.of_nat n in
  (year_of_era (year_start y) =? y) && (year_of_era (year_start (y + 1) - 1) =? y)
  && (year_start (y + 1) =? year_start y + year_length y)) (seq 0 400) = true.
Proof. vm_compute. reflexivity. Qed.

Lemma year_of_era_mono a b : 0 <= a <= b -> b < 146097 -> year_of_era a <= year_of_era b.
Proof.
  intros Hab' Hb. unfold year_of_era. apply Z.div_le_mono; [lia|]. assert (0 <= a) as Ha by lia.
  assert (forall d, 0 <= d < 146096 -> d - d / 1460 + d / 36524 - d / 146096
            <= d + 1 - (d + 1) / 1460 + (d + 1) / 36524 - (d + 1) / 146096) as Hstep.
  { intros d Hd. Z.to_euclidean_division_equations. lia. }
  assert (exists n, b = a + Z.of_nat n) as [n ->] by (exists (Z.to_nat (b - a)); lia).
  clear Hab'.
  revert Hb. induction n as [|n IH]; intros Hb; [rewrite Z.add_0_r; lia|]. specialize (IH ltac:(lia)).
  specialize (Hstep (a + Z.of_nat n) ltac:(lia)). replace (a + Z.of_nat (S n)) with (a + Z.of_nat n + 1) by lia. lia.
Qed.

(** Every day of an era is in the year [year_of_era] gives it. *)
Lemma year_of_era_spec y d : 0 <= y < 400 -> year_start y <= d < year_start (y + 1) ->
  year_of_era d = y /\ year_start (y + 1) = year_start y + year_length y.
Proof.
  intros Hy Hd. pose proof year_of_era_ends as Hall. rewrite forallb_forall in Hall.
  assert (forall y, 0 <= y < 400 -> year_of_era (year_start y) = y /\ year_of_era (year_start (y + 1) - 1) = y /\
            year_start (y + 1) = year_start y + year_length y) as Hends.
  { intros y' Hy'. specialize (Hall (Z.to_nat y') ltac:(apply in_seq; lia)). cbv zeta in Hall.
    rewrite Z2Nat.id, !andb_true_iff, !Z.eqb_eq in Hall by lia. tauto. }
  destruct (Hends y Hy) as (H1 & H2 & H3). split; [|done].
  assert (0 <= year_start y) by (unfold year_start; Z.to_euclidean_division_equations; lia).
  assert (year_start (y + 1) <= 146097) by (unfold year_start; Z.to_euclidean_division_equations; lia).
  pose proof (year_of_era_mono (year_start y) d ltac:(lia) ltac:(lia)).
  pose proof (year_of_era_mono d (year_start (y + 1) - 1) ltac:(lia) ltac:(lia)). lia.
Qed.

Lemma civil_from_days_spec era yoe doy : 0 <= yoe < 400 -> 0 <= doy < year_length yoe ->
  civil_from_days (era * 146097 + year_start yoe + doy - 719468) = civil era yoe doy.
Proof.
  intros Hy Hd. assert (year_start yoe <= year_start yoe + doy < year_start (yoe + 1)) as Hb.
  { pose proof (proj2 (year_of_era_spec yoe (year_start yoe) Hy ltac:(unfold year_start; Z.to_euclidean_division_equations; lia))). lia. }
  destruct (year_of_era_spec yoe _ Hy Hb) as [Hyo _].
  assert (0 <= year_start yoe) by (unfold year_start; Z.to_euclidean_division_equations; lia).
  assert (year_start (yoe + 1) <= 146097) by (unfold year_start; Z.to_euclidean_division_equations; lia).
  unfold civil_from_days. replace (era * 146097 + year_start yoe + doy - 719468 + 719468) with (year_start yoe + doy + era * 146097) by lia.
  rewrite Z.div_add, (Z.div_small (_ + doy)) by lia. replace (year_start yoe + doy + era * 146097 - (0 + era) * 146097) with (year_start yoe + doy) by lia.
  fold (year_of_era (year_start yoe + doy)). rewrite Hyo.
  replace (year_start yoe + doy - (365 * yoe + yoe / 4 - yoe / 100)) with doy
    by (unfold year_start; rewrite (Z.div_small yoe 400) by lia; lia).
  done.
Qed.

(** The day after a month and day: the years passed, the month and the day. *)
Definition next_month_day (leap : bool) (md : Z * Z) : Z * (Z * Z) :=
  let (m, d) := md in
  let length := if m =? 2 then (if leap then 29 else 28)
                else if (m =? 4) || (m =? 6) || (m =? 9) || (m =? 11) then 30 else 31 in
  if d <? length then (0, (m, d + 1)) else if m <? 12 then (0, (m + 1, 1)) else (1, (1, 1)).
Definition after_new_year (doy : Z) : Z := if (month_day doy).1 <=? 2 then 1 else 0.

(** Checked for each day of a year. *)
Lemma month_day_table : forallb (fun leap : bool => forallb (fun n => let doy := Z.of_nat n in
  bool_decide (next_month_day leap (month_day doy) =
    if doy + 1 <? (if leap then 366 else 365)
    then (after_new_year (doy + 1) - after_new_year doy, month_day (doy + 1)) else (0, (3, 1))))
  (seq 0 (if leap then 366 else 365)%nat)) [true; false] = true.
Proof. vm_compute. reflexivity. Qed.

Lemma month_day_succ leap doy : 0 <= doy < (if leap : bool then 366 else 365) ->
  next_month_day leap (month_day doy) =
    if doy + 1 <? (if leap then 366 else 365)
    then (after_new_year (doy + 1) - after_new_year doy, month_day (doy + 1)) else (0, (3, 1)).
Proof.
  intros Hd. pose proof month_day_table as Hall. rewrite forallb_forall in Hall.
  specialize (Hall leap ltac:(destruct leap; cbn; auto)). cbv beta in Hall. rewrite forallb_forall in Hall.
  specialize (Hall (Z.to_nat doy) ltac:(apply in_seq; destruct leap; lia)). cbv zeta in Hall.
  rewrite Z2Nat.id in Hall by lia. by apply bool_decide_eq_true in Hall.
Qed.

Lemma next_day_civil era yoe doy :
  next_day (civil era yoe doy) =
  let '(years, (m, d)) := next_month_day (leap_year (yoe + 1)) (month_day doy) in
  (yoe + era * 400 + after_new_year doy + years, m, d).
Proof.
  unfold civil, next_day, next_month_day, after_new_year, days_in_month. destruct (month_day doy) as [m d]. cbn [fst].
  destruct (Z.eqb_spec m 2) as [->|Hm].
  - cbn [Z.leb Z.compare Pos.compare Pos.compare_cont]. replace (yoe + era * 400 + 1) with (yoe + 1 + era * 400) by lia.
    rewrite leap_year_period. repeat case_match; simplify_eq; try done; do 2 f_equal; lia.
  - repeat case_match; simplify_eq; try done; do 2 f_equal; lia.
Qed.

Lemma year_start_within doe n : 0 <= doe < year_start (Z.of_nat n) ->
  exists y, 0 <= y < Z.of_nat n /\ year_start y <= doe < year_start (y + 1).
Proof.
  induction n as [|n IH]; intros Hd; [change (year_start (Z.of_nat 0)) with 0 in Hd; lia|].
  destruct (decide (doe < year_start (Z.of_nat n))) as [Hlt|Hge].
  - destruct (IH ltac:(lia)) as (y & ? & ?). exists y. lia.
  - exists (Z.of_nat n). replace (Z.of_nat (S n)) with (Z.of_nat n + 1) in Hd by lia. lia.
Qed.

Lemma civil_from_days_succ days : civil_from_days (days + 1) = next_day (civil_from_days days).
Proof.
  pose proof (Z.div_mod (days + 719468) 146097 ltac:(lia)) as Hdm.
  pose proof (Z.mod_pos_bound (days + 719468) 146097 ltac:(lia)) as Hm.
  set (era := (days + 719468) / 146097) in *. set (doe := (days + 719468) mod 146097) in *. clearbody era doe.
  destruct (year_start_within doe 400 Hm) as (yoe & Hy & Hd).
  destruct (year_of_era_spec yoe doe Hy Hd) as [_ Hlen]. remember (doe - year_start yoe) as doy eqn:Hdoy.
  replace days with (era * 146097 + year_start yoe + doy - 719468) by lia.
  rewrite civil_from_days_spec by lia. rewrite next_day_civil. unfold year_length in Hlen.
  rewrite month_day_succ by lia.
  destruct (Z.ltb_spec (doy + 1) (if leap_year (yoe + 1) then 366 else 365)) as [Hin|Hlast].
  - replace (era * 146097 + year_start yoe + doy - 719468 + 1) with (era * 146097 + year_start yoe + (doy + 1) - 719468) by lia.
    rewrite civil_from_days_spec by (unfold year_length; lia).
    unfold civil, after_new_year. destruct (month_day (doy + 1)) as [m d]. cbn [fst]. do 2 f_equal. lia.
  - assert (after_new_year doy = 1) as ->.
    { assert (doy = 364 \/ doy = 365) as [->| ->] by (destruct (leap_year (yoe + 1)); lia); reflexivity. }
    assert (doy + 1 = year_start (yoe + 1) - year_start yoe) as Hnext by (destruct (leap_year (yoe + 1)); lia).
    assert (forall y, 0 < year_length y) as Hpos by (intros y; unfold year_length; destruct (leap_year (y + 1)); lia).
    destruct (decide (yoe + 1 < 400)).
    + replace (era * 146097 + year_start yoe + doy - 719468 + 1) with (era * 146097 + year_start (yoe + 1) + 0 - 719468) by lia.
      rewrite civil_from_days_spec by (first [lia | split; [lia | apply Hpos]]). unfold civil. change (month_day 0) with (3, 1). cbn. do 2 f_equal. lia.
    + assert (yoe = 399) as -> by lia. change (year_start (399 + 1)) with 146097 in Hnext.
      replace (era * 146097 + year_start 399 + doy - 719468 + 1) with ((era + 1) * 146097 + year_start 0 + 0 - 719468)
        by (change (year_start 0) with 0; lia).
      rewrite civil_from_days_spec by (first [lia | split; [lia | apply Hpos]]). unfold civil. change (month_day 0) with (3, 1). cbn. do 2 f_equal. lia.
Qed.

(** The date of a timestamp is that of the Gregorian calendar: day [n] is
    the [n]-th day after 1970-01-01 when months have their lengths and every
    fourth year but three of four centuries is a leap year. And the time of
    day adds up: the days, hours, minutes, seconds and milliseconds printed
    are the milliseconds since the epoch. *)
Theorem timestamp_is_the_calendars (n : nat) (since_epoch : Z) :
  civil_from_days (Z.of_nat n) = Nat.iter n next_day (1970, 1, 1) /\
  (let secs := as_secs since_epoch in
   let rem := secs mod 86400 in
   (((secs / 86400 * 24 + rem / 3600) * 60 + rem mod 3600 / 60) * 60 + rem mod 60) * 1000 + subsec_millis since_epoch
   = as_millis since_epoch).
Proof.
  split.
  - induction n as [|n IH]; [reflexivity|]. rewrite Nat2Z.inj_succ, <- Z.add_1_r, civil_from_days_succ.
    change (Nat.iter (S n) next_day (1970, 1, 1)) with (next_day (Nat.iter n next_day (1970, 1, 1))). by rewrite IH.
  - cbv zeta. unfold as_secs, subsec_millis, as_millis, NANOS_PER_SEC. Z.to_euclidean_division_equations. lia.
Qed.

Example rfc3339_ex1 : rfc3339_utc (951782400005 * 1000000) = "2000-02-29T00:00:00.005Z"%string.
Proof. reflexivity. Qed.
Example rfc3339_ex2 : rfc3339_utc (4107542399999 * 1000000) = "2100-02-28T23:59:59.999Z"%string.
Proof. reflexivity. Qed.
