(* ===== verification/Slo.v ===== *)
(** * SLO gates (src/src/report.rs, src/src/config.rs, src/src/app.rs)

    The thresholds a run is checked against, the checks of a run, of a
    scenario's phases and of its named actions, and the exit code they lead
    to.  How a number or a duration is printed is an argument. *)

From Stdlib Require Import ZArith Lia String Floats.SpecFloat.
From stdpp Require Import base tactics strings numbers option list gmap.
From S2P Require Import Prelude RustStd Str Hdr Live TimeSeries Summaries Metrics Worker.

Local Open Scope Z_scope.
Local Open Scope rust_scope.

(** [{:?}] of a [Duration], [{:.n}] and [{}] of an [f64]. *)
Class Formatter := {
  debug_duration : Z -> string;
  fixed : nat -> f64 -> string;
  display_f64 : f64 -> string;
}.

(** ** Thresholds *)

Record SloThresholds := mkSloThresholds {
  max_p50 : option Z;
  max_p95 : option Z;
  max_p99 : option Z;
  max_p999 : option Z;
  max_error_rate : option f64;
  min_throughput : option f64;
  max_generator_lag : option Z;
}.

(** [Option::or] *)
Definition option_or {A} (a b : option A) : option A := match a with Some _ => a | None => b end.

Definition or_from (self fallback : SloThresholds) : SloThresholds :=
  mkSloThresholds (option_or (max_p50 self) (max_p50 fallback)) (option_or (max_p95 self) (max_p95 fallback))
    (option_or (max_p99 self) (max_p99 fallback)) (option_or (max_p999 self) (max_p999 fallback))
    (option_or (max_error_rate self) (max_error_rate fallback))
    (option_or (min_throughput self) (min_throughput fallback))
    (option_or (max_generator_lag self) (max_generator_lag fallback)).

Definition has_latency (slo : SloThresholds) : bool :=
  bool_decide (is_Some (max_p50 slo)) || bool_decide (is_Some (max_p95 slo))
  || bool_decide (is_Some (max_p99 slo)) || bool_decide (is_Some (max_p999 slo)).

Definition validate_error_rate `{Formatter} (slo : SloThresholds) : result unit WsBlastError :=
  match max_error_rate slo with
  | Some err_rate =>
      if negb (f64_leb f64_zero err_rate && f64_leb err_rate f64_one)
      then Err (ConfigFailure (InvalidThreshold
             ("max_error_rate must be between 0.0 and 1.0, received " ++ display_f64 err_rate)))
      else Ok tt
  | None => Ok tt
  end.

(** ** Checks *)

Record SloCheck := mkSloCheck { sc_name : string; sc_target : string; sc_actual : string; sc_passed : bool }.
Record SloEvaluation := mkSloEvaluation { se_passed : bool; se_checks : list SloCheck }.

(** [passed &= check.passed; checks.push(check)] *)
Definition add_check (e : SloEvaluation) (check : SloCheck) : SloEvaluation :=
  mkSloEvaluation (se_passed e && sc_passed check) (se_checks e ++ [check]).

Section Checks.
Context `{Formatter}.

Definition latency_check (name : string) (target actual samples : Z) : SloCheck :=
  if samples =? 0 then mkSloCheck name ("<= " ++ debug_duration target) "no RTT samples" false
  else mkSloCheck name ("<= " ++ debug_duration target) (debug_duration actual) (actual <=? target).

(** [for (name, target, actual) in targets] *)
Definition latency_checks (samples : Z) (targets : list (string * option Z * Z)) : list SloCheck :=
  omap (fun '(name, target, actual) => target ← target; Some (latency_check name target actual samples)) targets.

Definition percent (x : f64) : string := fixed 2 (f64_mul x (f64_of_Z 100)) ++ "%".

Definition error_rate_check (name : string) (max_err error_rate : f64) : SloCheck :=
  mkSloCheck name ("<= " ++ percent max_err) (percent error_rate) (f64_leb error_rate max_err).

Definition lag_check (max_lag : Z) (lag : option GeneratorLag) : SloCheck :=
  let target := ("<= " ++ debug_duration max_lag)%string in
  match lag with
  | Some lag => let p99 := from_micros (gl_p99_us lag) in
                mkSloCheck "Generator lag p99" target (debug_duration p99) (p99 <=? max_lag)
  | None => mkSloCheck "Generator lag p99" target "no lag samples" false
  end.

(** [stats] with the labels of its checks. *)
Definition targets_of (slo : SloThresholds) (basis : string) (stats : LatencyStats) : list (string * option Z * Z) :=
  [((basis ++ " p50")%string, max_p50 slo, p50_duration stats); ((basis ++ " p95")%string, max_p95 slo, p95_duration stats);
   ((basis ++ " p99")%string, max_p99 slo, p99_duration stats); ((basis ++ " p99.9")%string, max_p999 slo, p999_duration stats)].

(** A paced run is checked on its response times. *)
Definition gated_latency (m : AggregatedMetrics) : string * LatencyStats :=
  if 0 <? l_count (ag_response_time m) then ("Response time"%string, ag_response_time m)
  else ("Latency"%string, ag_message_rtt m).

Definition evaluate_slos (slo : SloThresholds) (m : AggregatedMetrics) : SloEvaluation :=
  let (basis, rtt) := gated_latency m in
  let e := fold_left add_check (latency_checks (l_count rtt) (targets_of slo basis rtt)) (mkSloEvaluation true []) in
  let e := match max_error_rate slo with
           | Some max_err => add_check e (error_rate_check "Error Rate" max_err (ag_error_rate m))
           | None => e
           end in
  let e := match max_generator_lag slo with
           | Some max_lag => add_check e (lag_check max_lag (ag_generator_lag_ m))
           | None => e
           end in
  match min_throughput slo with
  | Some min_tput => add_check e (mkSloCheck "Throughput (msg/s)" (">= " ++ fixed 1 min_tput)
                       (fixed 1 (ag_throughput_msg_per_sec m)) (f64_leb min_tput (ag_throughput_msg_per_sec m)))
  | None => e
  end.

(** ** Scenarios *)

Definition scenario_slo_evaluation (overall : SloEvaluation) (phases : list (string * SloEvaluation)) : SloEvaluation :=
  fold_left (fun combined '(name, evaluation) =>
    mkSloEvaluation (se_passed combined && se_passed evaluation)
      (se_checks combined ++ ((fun check => mkSloCheck (name ++ ": " ++ sc_name check) (sc_target check)
                                 (sc_actual check) (sc_passed check)) <$> se_checks evaluation)))
    phases overall.

Definition find_action (name : string) (m : AggregatedMetrics) : option ActionMetrics :=
  snd <$> list_find (fun a => am_name a = name) (ag_actions m).

Definition add_action_slo (m : AggregatedMetrics) (e : SloEvaluation) (named : string * SloThresholds) : SloEvaluation :=
  let (name, slo) := named in
  let action := find_action name m in
  let stats := from_option ActionMetrics_latency LatencyStats_default action in
  let basis := if (0 <? l_count stats) && from_option (fun a => 0 <? l_count (am_response_time a)) false action
               then "response time"%string else "latency"%string in
  let e := fold_left add_check
    (latency_checks (l_count stats) (targets_of slo ("Action " ++ name ++ ": " ++ basis) stats)) e in
  match max_error_rate slo with
  | None => e
  | Some max_err =>
      let label := ("Action " ++ name ++ ": error rate")%string in
      let seen := a ← action; if (0 <? am_messages_sent a) || (0 <? am_errors a) then Some a else None in
      add_check e (match seen with
                   | Some a => error_rate_check label max_err (am_error_rate a)
                   | None => mkSloCheck label ("<= " ++ percent max_err) "no messages" false
                   end)
  end.

Definition with_action_slos (e : SloEvaluation) (slos : list (string * SloThresholds)) (m : AggregatedMetrics)
  : SloEvaluation := fold_left (add_action_slo m) slos e.

End Checks.

(** ** Exit codes *)

Definition nothing_connected (m : AggregatedMetrics) : bool :=
  (0 <? ag_total_connections_attempted m) && (ag_total_connections_established m =? 0).

(** How a run that reported ends, and a distributed one that lost [lost]
    agents. *)
Definition exit_code (slo : SloEvaluation) (m : AggregatedMetrics) : Z :=
  if negb (se_passed slo) then 2 else if nothing_connected m then 1 else 0.
Definition distributed_exit_code (slo : SloEvaluation) (lost : nat) (m : AggregatedMetrics) : Z :=
  if negb (se_passed slo) then 2 else if negb (lost =? 0)%nat then 1 else if nothing_connected m then 1 else 0.

(** ** What the gate means *)

Definition met {A} (threshold : option A) (P : A -> Prop) : Prop := forall t, threshold = Some t -> P t.

(** Every latency threshold is met by measured latencies. *)
Definition latency_met (slo : SloThresholds) (stats : LatencyStats) : Prop :=
  met (max_p50 slo) (fun t => l_count stats <> 0 /\ p50_duration stats <= t) /\
  met (max_p95 slo) (fun t => l_count stats <> 0 /\ p95_duration stats <= t) /\
  met (max_p99 slo) (fun t => l_count stats <> 0 /\ p99_duration stats <= t) /\
  met (max_p999 slo) (fun t => l_count stats <> 0 /\ p999_duration stats <= t).

Definition slo_met (slo : SloThresholds) (m : AggregatedMetrics) : Prop :=
  latency_met slo (gated_latency m).2 /\
  met (max_error_rate slo) (fun t => f64_leb (ag_error_rate m) t = true) /\
  met (max_generator_lag slo) (fun t => exists lag, ag_generator_lag_ m = Some lag /\ from_micros (gl_p99_us lag) <= t) /\
  met (min_throughput slo) (fun t => f64_leb t (ag_throughput_msg_per_sec m) = true).

(** A named action is met when it sent something and is within its
    thresholds. *)
Definition action_met (m : AggregatedMetrics) (named : string * SloThresholds) : Prop :=
  latency_met named.2 (from_option ActionMetrics_latency LatencyStats_default (find_action named.1 m)) /\
  met (max_error_rate named.2) (fun t => exists a, find_action named.1 m = Some a /\
    (0 < am_messages_sent a \/ 0 < am_errors a) /\ f64_leb (am_error_rate a) t = true).

(** The verdict is that of the checks. *)
Definition coherent (e : SloEvaluation) : Prop := se_passed e = forallb sc_passed (se_checks e).

Lemma met_none {A} (P : A -> Prop) : met None P.
Proof. by intros t [=]. Qed.
Lemma met_some {A} (a : A) (P : A -> Prop) : met (Some a) P <-> P a.
Proof. split; [intros Hm; by apply Hm|by intros Ha t [= <-]]. Qed.

Lemma add_check_coherent e c : coherent e -> coherent (add_check e c).
Proof. unfold coherent. intros He. cbn. by rewrite forallb_app, He; cbn; rewrite andb_true_r. Qed.
Lemma add_checks_coherent cs e : coherent e -> coherent (fold_left add_check cs e).
Proof. revert e. induction cs as [|c cs IH]; intros e He; [done|]. cbn. by apply IH, add_check_coherent. Qed.
Lemma add_check_passed e c : se_passed (add_check e c) = true <-> se_passed e = true /\ sc_passed c = true.
Proof. cbn. by rewrite andb_true_iff. Qed.
Lemma add_checks_passed cs e :
  se_passed (fold_left add_check cs e) = true <-> se_passed e = true /\ Forall (fun c => sc_passed c = true) cs.
Proof.
  revert e. induction cs as [|c cs IH]; intros e; cbn [fold_left].
  - split; [by split|tauto].
  - rewrite IH, add_check_passed, Forall_cons. tauto.
Qed.
Lemma add_checks_checks cs e : se_checks (fold_left add_check cs e) = se_checks e ++ cs.
Proof.
  revert e. induction cs as [|c cs IH]; intros e; cbn [fold_left]; [by rewrite app_nil_r|]. rewrite IH. cbn. by rewrite <- app_assoc.
Qed.

Section Gate.
Context `{Formatter}.

Lemma latency_check_passed name target actual samples :
  sc_passed (latency_check name target actual samples) = true <-> samples <> 0 /\ actual <= target.
Proof. unfold latency_check. destruct (Z.eqb_spec samples 0); cbn; [naive_solver|]. rewrite Z.leb_le. tauto. Qed.

Lemma latency_checks_passed slo basis stats :
  Forall (fun c => sc_passed c = true) (latency_checks (l_count stats) (targets_of slo basis stats)) <-> latency_met slo stats.
Proof.
  assert (forall name target actual rest,
    Forall (fun c => sc_passed c = true) (latency_checks (l_count stats) ((name, target, actual) :: rest)) <->
    met target (fun t => l_count stats <> 0 /\ actual <= t) /\
    Forall (fun c => sc_passed c = true) (latency_checks (l_count stats) rest)) as Hcons.
  { intros name [t|] actual rest; cbn; [rewrite Forall_cons, latency_check_passed, met_some; done|].
    split; [intros Hr; split; [apply met_none|done]|by intros []]. }
  unfold targets_of, latency_met. rewrite !Hcons. cbn. rewrite Forall_nil. tauto.
Qed.

Lemma evaluate_slos_coherent slo m : coherent (evaluate_slos slo m).
Proof.
  unfold evaluate_slos. destruct (gated_latency m) as [basis rtt].
  repeat case_match; repeat apply add_check_coherent; by apply add_checks_coherent.
Qed.

Lemma evaluate_slos_passed slo m : se_passed (evaluate_slos slo m) = true <-> slo_met slo m.
Proof.
  unfold evaluate_slos, slo_met. destruct (gated_latency m) as [basis rtt]. cbn [snd].
  rewrite <- (latency_checks_passed slo basis rtt). set (cs := latency_checks _ _). clearbody cs.
  assert (forall e, se_passed (match max_error_rate slo with
            | Some max_err => add_check e (error_rate_check "Error Rate" max_err (ag_error_rate m))
            | None => e end) = true <->
          se_passed e = true /\ met (max_error_rate slo) (fun t => f64_leb (ag_error_rate m) t = true)) as H1.
  { intros e. destruct (max_error_rate slo); [rewrite add_check_passed, met_some; done|]. pose proof (met_none (fun t => f64_leb (ag_error_rate m) t = true)). tauto. }
  assert (forall e, se_passed (match max_generator_lag slo with
            | Some max_lag => add_check e (lag_check max_lag (ag_generator_lag_ m))
            | None => e end) = true <->
          se_passed e = true /\ met (max_generator_lag slo)
            (fun t => exists lag, ag_generator_lag_ m = Some lag /\ from_micros (gl_p99_us lag) <= t)) as H2.
  { intros e. destruct (max_generator_lag slo) as [t|].
    - rewrite add_check_passed, met_some. unfold lag_check. destruct (ag_generator_lag_ m) as [lag|]; cbn; [|naive_solver].
      rewrite Z.leb_le. naive_solver.
    - pose proof (met_none (fun t => exists lag, ag_generator_lag_ m = Some lag /\ from_micros (gl_p99_us lag) <= t)). tauto. }
  set (e0 := fold_left _ _ _). set (e1 := match max_error_rate slo with Some _ => _ | None => _ end).
  set (e2 := match max_generator_lag slo with Some _ => _ | None => _ end).
  assert (se_passed e2 = true <-> Forall (fun c => sc_passed c = true) cs /\
    met (max_error_rate slo) (fun t => f64_leb (ag_error_rate m) t = true) /\
    met (max_generator_lag slo) (fun t => exists lag, ag_generator_lag_ m = Some lag /\ from_micros (gl_p99_us lag) <= t)) as He2.
  { unfold e2. rewrite H2. unfold e1. rewrite H1. unfold e0. rewrite add_checks_passed. cbn. tauto. }
  clearbody e2. destruct (min_throughput slo) as [t|].
  - rewrite add_check_passed, met_some, He2. cbn. tauto.
  - rewrite He2. pose proof (met_none (fun t => f64_leb t (ag_throughput_msg_per_sec m) = true)). tauto.
Qed.

(** One check per threshold. *)
Definition threshold_count (slo : SloThresholds) : nat :=
  let n {A} (o : option A) := from_option (fun _ => 1%nat) 0%nat o in
  n (max_p50 slo) + n (max_p95 slo) + n (max_p99 slo) + n (max_p999 slo)
  + n (max_error_rate slo) + n (max_generator_lag slo) + n (min_throughput slo).

Lemma evaluate_slos_checks slo m : length (se_checks (evaluate_slos slo m)) = threshold_count slo.
Proof.
  unfold evaluate_slos, threshold_count. destruct (gated_latency m) as [basis rtt].
  destruct (max_error_rate slo), (max_generator_lag slo), (min_throughput slo); cbn [add_check se_checks from_option];
    rewrite ?length_app, add_checks_checks; cbn [length app se_checks];
    unfold latency_checks, targets_of; destruct (max_p50 slo), (max_p95 slo), (max_p99 slo), (max_p999 slo); reflexivity.
Qed.

(** C30. The gate of a run. It makes one check per configured threshold, and
    it passes exactly when every check passed, which is when every threshold
    is met: each latency threshold by the run's percentile, of response times
    when the run is paced, and never without a measurement; the error rate
    by the reported one; the generator lag by a measured p99; the throughput
    by the reported one. The process exits with 2 exactly when a threshold
    is missed, with 1 when they are met but no connection was established
    although some were attempted, and with 0 otherwise. *)
Theorem slo_gates (slo : SloThresholds) (m : AggregatedMetrics) :
  let e := evaluate_slos slo m in
  (se_passed e = true <-> slo_met slo m) /\
  se_passed e = forallb sc_passed (se_checks e) /\
  length (se_checks e) = threshold_count slo /\
  (exit_code e m = 2 <-> ~ slo_met slo m) /\
  (exit_code e m = 1 <-> slo_met slo m /\ nothing_connected m = true) /\
  (exit_code e m = 0 <-> slo_met slo m /\ nothing_connected m = false).
Proof.
  cbv zeta. pose proof (evaluate_slos_passed slo m) as Hp. split; [done|].
  split; [apply evaluate_slos_coherent|]. split; [apply evaluate_slos_checks|]. rewrite <- Hp.
  unfold exit_code. destruct (se_passed _), (nothing_connected m); cbn; split_and!; split; try tauto; try done;
    intros Hx; try (by destruct Hx); exfalso; by apply Hx.
Qed.

Lemma action_slo_coherent m e named : coherent e -> coherent (add_action_slo m e named).
Proof.
  destruct named as [name slo]. intros He. unfold add_action_slo. repeat case_match; repeat apply add_check_coherent;
    by apply add_checks_coherent.
Qed.

Lemma action_slo_passed m e named : se_passed (add_action_slo m e named) = true <-> se_passed e = true /\ action_met m named.
Proof.
  destruct named as [name slo]. unfold add_action_slo, action_met. cbn [fst snd].
  set (stats := from_option _ _ _). set (basis := if _ && _ then _ else _). clearbody basis.
  rewrite <- (latency_checks_passed slo ("Action " ++ name ++ ": " ++ basis) stats).
  destruct (max_error_rate slo) as [t|]; [rewrite add_check_passed, met_some|]; rewrite add_checks_passed.
  - destruct (find_action name m) as [a|]; cbn; [|naive_solver].
    destruct (Z.ltb_spec 0 (am_messages_sent a)), (Z.ltb_spec 0 (am_errors a)); cbn; try naive_solver lia.
  - pose proof (met_none (fun t => exists a, find_action name m = Some a /\
      (0 < am_messages_sent a \/ 0 < am_errors a) /\ f64_leb (am_error_rate a) t = true)). tauto.
Qed.

Lemma scenario_coherent overall phases : coherent overall -> Forall (fun p => coherent p.2) phases ->
  coherent (scenario_slo_evaluation overall phases).
Proof.
  revert overall. induction phases as [|[name e] phases IH]; intros overall Ho Hp; [done|].
  apply Forall_cons in Hp as [He Hp]. cbn. apply IH; [|done]. unfold coherent in *. cbn in *.
  rewrite forallb_app, Ho, He. f_equal.
  generalize (se_checks e). intros cs. induction cs as [|c cs IHc]; cbn; [done|]. f_equal. exact IHc.
Qed.

Lemma scenario_passed overall phases :
  se_passed (scenario_slo_evaluation overall phases) = true <->
  se_passed overall = true /\ Forall (fun p => se_passed p.2 = true) phases.
Proof.
  revert overall. induction phases as [|[name e] phases IH]; intros overall; cbn.
  - split; [by split|tauto].
  - unfold scenario_slo_evaluation in IH. rewrite IH, Forall_cons. cbn. rewrite andb_true_iff. tauto.
Qed.

Lemma with_action_slos_spec m actions e : coherent e ->
  (se_passed (with_action_slos e actions m) = true <-> se_passed e = true /\ Forall (action_met m) actions) /\
  coherent (with_action_slos e actions m).
Proof.
  unfold with_action_slos. revert e. induction actions as [|a actions IH]; intros e He; cbn [fold_left].
  - split; [|exact He]. rewrite Forall_nil. tauto.
  - destruct (IH (add_action_slo m e a) (action_slo_coherent m e a He)) as [-> ?]. split; [|done].
    rewrite action_slo_passed, Forall_cons. tauto.
Qed.

(** The gate of a scenario. Given the thresholds of the whole run (the
    flags', each unset one taken from the file), of each phase that ran and
    of the named actions, the scenario passes exactly when the merged metrics
    meet the first, every phase's metrics meet its own, and every named
    action with thresholds sent something and meets them; and its verdict is
    that of the checks it lists. *)
Theorem scenario_gates (flags file : SloThresholds) (actions : list (string * SloThresholds))
    (m : AggregatedMetrics) (phases : list (string * SloThresholds * AggregatedMetrics)) :
  let overall := evaluate_slos (or_from flags file) m in
  let verdict := with_action_slos
    (scenario_slo_evaluation overall ((fun p => (p.1.1, evaluate_slos p.1.2 p.2)) <$> phases)) actions m in
  (se_passed verdict = true <->
     slo_met (or_from flags file) m /\ Forall (fun p => slo_met p.1.2 p.2) phases /\ Forall (action_met m) actions) /\
  se_passed verdict = forallb sc_passed (se_checks verdict).
Proof.
  cbv zeta. set (s := scenario_slo_evaluation _ _).
  assert (coherent s) as Hs.
  { apply scenario_coherent; [apply evaluate_slos_coherent|]. apply Forall_fmap, Forall_true. intros p. apply evaluate_slos_coherent. }
  assert (se_passed s = true <-> slo_met (or_from flags file) m /\ Forall (fun p => slo_met p.1.2 p.2) phases) as Hp.
  { unfold s. rewrite scenario_passed, evaluate_slos_passed, Forall_fmap.
    split; intros [? Hf]; (split; [done|]); (eapply Forall_impl; [exact Hf|]); intros p; apply evaluate_slos_passed. }
  clearbody s. destruct (with_action_slos_spec m actions s Hs) as [Hq Hc]. split; [tauto|exact Hc].
Qed.
End Gate.
