(* ===== verification/Config.v ===== *)
(** * The configuration builder ([LoadTestConfigBuilder] of src/src/config.rs)

    The settings of a run as the builder collects them, everything [build]
    checks and fills in, and the configuration it returns.  [RunConfig] is the
    whole of the source's [LoadTestConfig] apart from what only the command
    line sets ([auth], [output_path], [tui]); the fields that say how much load
    a run makes are the [Load] of Load.v, and Worker.v's [LoadTestConfig] are
    the fields a worker reads. *)

From Stdlib Require Import ZArith Lia Ascii String.
From stdpp Require Import base tactics strings numbers option list.
From S2P Require Import Prelude RustStd Str Json Url Libs Live HumanDuration Summaries Metrics Wire Chaos Reply Data Template SocketIo Worker Slo Load.

Local Open Scope Z_scope.
Local Open Scope rust_scope.

Inductive OutputFormat := OutText | OutJson | OutMarkdown | OutHtml.

(** The [Debug] of a mode. *)
Definition debug_mode (mode : TestMode) : string :=
  match mode with
  | Echo => "Echo" | Stream => "Stream" | Listen => "Listen" | GraphQLWS => "GraphQLWS" | SocketIo => "SocketIo"
  end.

Definition fail {A} (e : ConfigError) : result A WsBlastError := Err (ConfigFailure e).

(** Where the data file comes from. *)
Inductive DataSource := DataPath (path : string) | Loaded (data : DataSet).

Section Config.
Context `{Libs, Formatter}.

Record GraphQLOptions := mkGraphQLOptions {
  go_operation : option string;
  go_operation_name : option string;
  go_variables : option (Value JN);
  go_extensions : option (Value JN);
}.
Record SocketIoOptions := mkSocketIoOptions {
  sp_event : option string;
  sp_namespace : option string;
  sp_auth : option string;
  sp_version : option Z;
}.

Record LoadTestConfigBuilder := mkBuilder {
  lb_target : string;
  lb_load : Load;
  lb_rate_per_conn : Z;
  lb_payload : PayloadConfig;
  lb_headers : HeaderMap;
  lb_invalid_header : option string;
  lb_data : option DataSource;
  lb_subprotocol : option string;
  lb_source_ips : list string;
  lb_compression : bool;
  lb_mode : TestMode;
  lb_connect_timeout : Z;
  lb_message_timeout : Z;
  lb_ping_interval : Z;
  lb_graphql : GraphQLOptions;
  lb_socketio : SocketIoOptions;
  lb_slo : SloThresholds;
  lb_output_format : OutputFormat;
  lb_progress : bool;
  lb_reconnect : bool;
  lb_reply_match : ReplyMatch;
  lb_expect : option string;
  lb_capture : option string;
  lb_capture_limit : Z;
  lb_chaos : option ChaosConfig;
}.
#[export] Instance LoadTestConfigBuilder_eta : Settable LoadTestConfigBuilder := fun b =>
  mkBuilder (lb_target b) (lb_load b) (lb_rate_per_conn b) (lb_payload b) (lb_headers b) (lb_invalid_header b) (lb_data b)
    (lb_subprotocol b) (lb_source_ips b) (lb_compression b) (lb_mode b) (lb_connect_timeout b) (lb_message_timeout b)
    (lb_ping_interval b) (lb_graphql b) (lb_socketio b) (lb_slo b) (lb_output_format b) (lb_progress b) (lb_reconnect b)
    (lb_reply_match b) (lb_expect b) (lb_capture b) (lb_capture_limit b) (lb_chaos b).

Definition DEFAULT_TEXT_PAYLOAD : string :=
  ("{" +:+ DQ +:+ "source" +:+ DQ +:+ ":" +:+ DQ +:+ "wsblast" +:+ DQ +:+ "," +:+ DQ +:+ "ts" +:+ DQ +:+ ":" +:+ DQ +:+ "{{timestamp}}" +:+ DQ
   +:+ "," +:+ DQ +:+ "seq" +:+ DQ +:+ ":{{seq}}}")%string.
Definition DEFAULT_CAPTURE_LIMIT : Z := 100000.
Definition no_slo : SloThresholds := mkSloThresholds None None None None None None None.

Definition builder_new (target : string) : LoadTestConfigBuilder :=
  mkBuilder target (mkLoad 50 0 (from_secs 10) [] None None) 0 (from_text DEFAULT_TEXT_PAYLOAD) map_new None None None [] false Echo
    (from_secs 5) (from_secs 5) 0 (mkGraphQLOptions None None None None) (mkSocketIoOptions None None None None) no_slo OutText
    false true First None None DEFAULT_CAPTURE_LIMIT None.

(** [header]: the first invalid one is remembered for [build]. *)
Definition header (name value : string) (b : LoadTestConfigBuilder) : LoadTestConfigBuilder :=
  match header_name (trim name), header_value (trim value) with
  | Some name, Some value => b <| lb_headers ::= map_append name value |>
  | None, _ => b <| lb_invalid_header ::= fun e => Some (default ("Invalid header name '" +:+ name +:+ "'")%string e) |>
  | _, None => b <| lb_invalid_header ::= fun e => Some (default ("Invalid header value '" +:+ value +:+ "'")%string e) |>
  end.

Record RunConfig := mkRunConfig {
  rc_target_url : Url;
  rc_load : Load;
  rc_rate_per_conn : Z;
  rc_payload : PayloadConfig;
  rc_headers : HeaderMap;
  rc_header_templates : list (HeaderName * Template);
  rc_data : option DataSet;
  rc_subprotocol : option string;
  rc_source_ips : list string;
  rc_compression : bool;
  rc_mode : TestMode;
  rc_connect_timeout : Z;
  rc_message_timeout : Z;
  rc_ping_interval : Z;
  rc_live_auth : option (HeaderName * HeaderValue);
  rc_graphql_ws : option (GraphQLWSConfig JN);
  rc_socketio : option SocketIoConfig;
  rc_slo : SloThresholds;
  rc_output_format : OutputFormat;
  rc_no_progress : bool;
  rc_no_reconnect : bool;
  rc_reply_match : ReplyMatch;
  rc_expect : option (ReplyCheck JN);
  rc_capture : option (string * Z);
  rc_stage_share : option Share;
  rc_chaos : option ChaosConfig;
}.
#[export] Instance RunConfig_eta : Settable RunConfig := fun c =>
  mkRunConfig (rc_target_url c) (rc_load c) (rc_rate_per_conn c) (rc_payload c) (rc_headers c) (rc_header_templates c) (rc_data c)
    (rc_subprotocol c) (rc_source_ips c) (rc_compression c) (rc_mode c) (rc_connect_timeout c) (rc_message_timeout c)
    (rc_ping_interval c) (rc_live_auth c) (rc_graphql_ws c) (rc_socketio c) (rc_slo c) (rc_output_format c) (rc_no_progress c)
    (rc_no_reconnect c) (rc_reply_match c) (rc_expect c) (rc_capture c) (rc_stage_share c) (rc_chaos c).

(** The part of it a worker reads. *)
Definition worker_config (c : RunConfig) : LoadTestConfig JN :=
  mkLoadTestConfig (ld_max_requests (rc_load c)) (rc_rate_per_conn c) (rc_payload c) (rc_data c) (rc_subprotocol c) (rc_mode c)
    (rc_ping_interval c) (rc_graphql_ws c) (rc_no_reconnect c) (rc_reply_match c) (rc_expect c) (rc_chaos c).

(** *** The checks, in the order of [build] *)

Definition parse_target_url (raw : string) : result Url WsBlastError :=
  match url_parse raw with
  | Err e => fail (InvalidUrl raw e)
  | Ok url =>
      if decide (url_scheme url = "ws"%string \/ url_scheme url = "wss"%string) then Ok url
      else fail (UnsupportedScheme (url_scheme url))
  end.

Definition check_match_pointer (reply_match : ReplyMatch) : result unit WsBlastError :=
  match reply_match with
  | JsonPointer pointer => if is_json_pointer pointer then Ok tt else fail (invalid_json_pointer pointer)
  | _ => Ok tt
  end.

Definition is_object (v : Value JN) : bool := match v with Object _ => true | _ => false end.
Definition check_objects (options : GraphQLOptions) : result unit WsBlastError :=
  let? _ := result_collect (fun e : string * option (Value JN) =>
    if from_option (fun v => negb (is_object v)) false e.2 then fail (InvalidOption (e.1 +:+ " must contain a JSON object")) else Ok tt)
    [("--graphql-ws-variables"%string, go_variables options); ("--graphql-ws-extensions"%string, go_extensions options)] in
  Ok tt.

Definition has_graphql_options (o : GraphQLOptions) : bool :=
  bool_decide (is_Some (go_operation o)) || bool_decide (is_Some (go_operation_name o))
  || bool_decide (is_Some (go_variables o)) || bool_decide (is_Some (go_extensions o)).
Definition validate_graphql (mode : TestMode) (options : GraphQLOptions) : result (option (GraphQLWSConfig JN)) WsBlastError :=
  if negb (bool_decide (mode = GraphQLWS)) then
    if has_graphql_options options then fail (UnsupportedOption "GraphQL WS options require --mode graphql-ws") else Ok None
  else
    match (operation ← go_operation options; if decide (trim operation = ""%string) then None else Some operation) with
    | None => fail (InvalidOption "--mode graphql-ws requires --graphql-ws-operation <QUERY>")
    | Some operation =>
        let? _ := check_objects options in
        Ok (Some (mkGraphQLWSConfig (go_operation_name options) operation (go_variables options) (go_extensions options)))
    end.

Definition has_socketio_options (o : SocketIoOptions) : bool :=
  bool_decide (is_Some (sp_event o)) || bool_decide (is_Some (sp_namespace o))
  || bool_decide (is_Some (sp_auth o)) || bool_decide (is_Some (sp_version o)).
(** [SocketIoOptions::compile] *)
Definition socketio_compile (mode : TestMode) (target : Url) (o : SocketIoOptions) : result (option SocketIoConfig) WsBlastError :=
  if negb (bool_decide (mode = SocketIo)) then
    if has_socketio_options o
    then fail (UnsupportedOption "--sio-event, --sio-namespace, --sio-auth and --sio-version require --mode socketio") else Ok None
  else
    let version := default 4 (sp_version o) in
    match from_version version with
    | None => fail (InvalidOption ("--sio-version must be 2, 3 or 4, received " +:+ display_u64 version))
    | Some engine =>
        let? _ := result_map_err (fun e => ConfigFailure (InvalidOption e)) (check_url target engine) in
        let config := mkSocketIoConfig (default "/"%string (sp_namespace o)) (default "message"%string (sp_event o))
          (parse <$> sp_auth o) engine in
        let? _ := result_map_err (fun e => ConfigFailure (InvalidOption e)) (SocketIoConfig_validate config) in
        Ok (Some config)
    end.

Definition carries_seq (payload : PayloadConfig) : bool := match payload with DynamicText template => has_seq template | _ => false end.
Definition validate_reply_match (reply_match : ReplyMatch) (mode : TestMode) (payloads : list PayloadConfig) : result unit WsBlastError :=
  match reply_match with
  | First => Ok tt
  | _ =>
      if negb (bool_decide (mode = Echo)) then
        fail (UnsupportedOption ("--match " +:+ ReplyMatch_flag_value reply_match +:+ " requires --mode echo; " +:+ debug_mode mode +:+
          " mode does not wait for replies"))
      else match reply_match with
           | JsonPointer _ =>
               if forallb carries_seq payloads then Ok tt
               else fail (UnsupportedOption ("--match " +:+ ReplyMatch_flag_value reply_match +:+
                 " needs a text payload containing the {{seq}} placeholder to compare replies against"))
           | _ => Ok tt
           end
  end.

Definition validate_latency_mode (slo : SloThresholds) (mode : TestMode) (prefix keys : string) : result unit WsBlastError :=
  if has_latency slo && negb (awaits_replies mode) then
    fail (UnsupportedOption (prefix +:+ "latency SLOs (" +:+ keys +:+ ") require --mode echo; " +:+ debug_mode mode +:+
      " mode does not measure round-trip time"))
  else Ok tt.
Definition validate_slo (slo : SloThresholds) (mode : TestMode) : result unit WsBlastError :=
  let? _ := validate_error_rate slo in
  validate_latency_mode slo mode "" "--max-p50/--max-p95/--max-p99/--max-p999".

(** The metadata and content of the file at a path. *)
Definition load_data (files : string -> result Z string * result string string) (data : option DataSource)
  : result (option DataSet) WsBlastError :=
  match data with
  | Some (DataPath path) =>
      let (metadata, content) := files path in
      let? set := result_map_err (fun e => ConfigFailure (DataFile e)) (DataSet_load path metadata content) in Ok (Some set)
  | Some (Loaded data) => Ok (Some data)
  | None => Ok None
  end.

Definition check_payload (payload : PayloadConfig) (data : option DataSet) : result unit WsBlastError :=
  match payload_template payload with
  | Some template => result_map_err (fun e => ConfigFailure (InvalidOption ("payload: " +:+ e))) (check_data template data)
  | None => Ok tt
  end.

(** A header template is filled in with every row before the run. *)
Definition check_header_rows (now_ms : Z) (name : HeaderName) (template : Template) (data : option DataSet) : result unit WsBlastError :=
  let? _ := result_collect (fun row =>
    if bool_decide (is_Some (header_value (render now_ms template (row_values data row)))) then Ok tt
    else fail (InvalidOption ("header " +:+ name_text name +:+ ": the value is not a valid HTTP header value" +:+ row_source data row)))
    (seq 0 (row_count data)) in
  Ok tt.

Definition header_template (value : HeaderValue) : option Template :=
  text ← value_text value; let template := parse text in if is_dynamic template then Some template else None.
Definition split_header_step (now_ms : Z) (data : option DataSet) (acc : HeaderMap * list (HeaderName * Template))
    (e : HeaderName * HeaderValue) : result (HeaderMap * list (HeaderName * Template)) WsBlastError :=
  let (fixed, templates) := acc in
  match header_template e.2 with
  | None => Ok (map_append e.1 e.2 fixed, templates)
  | Some template =>
      let? _ := result_map_err (fun err => ConfigFailure (InvalidOption ("header " +:+ name_text e.1 +:+ ": " +:+ err)))
        (check_data template data) in
      let? _ := check_header_rows now_ms e.1 template data in
      Ok (fixed, templates ++ [(e.1, template)])
  end.
Fixpoint split_headers_from (now_ms : Z) (data : option DataSet) (acc : HeaderMap * list (HeaderName * Template))
    (entries : list (HeaderName * HeaderValue)) : result (HeaderMap * list (HeaderName * Template)) WsBlastError :=
  match entries with
  | [] => Ok acc
  | e :: entries => let? acc := split_header_step now_ms data acc e in split_headers_from now_ms data acc entries
  end.
Definition split_header_templates (now_ms : Z) (headers : HeaderMap) (data : option DataSet)
  : result (HeaderMap * list (HeaderName * Template)) WsBlastError :=
  split_headers_from now_ms data (map_new, []) (named_from None (map_into_iter headers)).

(** Every address once, in order, each one checked by binding it. *)
Fixpoint check_source_ips (check_source_ip : string -> result unit string) (seen ips : list string) : result (list string) WsBlastError :=
  match ips with
  | [] => Ok seen
  | ip :: ips =>
      if decide (ip ∈ seen) then check_source_ips check_source_ip seen ips
      else
        let? _ := result_map_err (fun e => ConfigFailure (InvalidOption e)) (check_source_ip ip) in
        check_source_ips check_source_ip (seen ++ [ip]) ips
  end.

Definition parse_expect (expect : option string) (mode : TestMode) : result (option (ReplyCheck JN)) WsBlastError :=
  let? expect := match expect with
                 | Some spec => let? check := result_map_err (fun e => ConfigFailure (InvalidOption e)) (parse_flag spec) in Ok (Some check)
                 | None => Ok None
                 end in
  if bool_decide (is_Some expect) && negb (awaits_replies mode) then
    fail (UnsupportedOption ("--expect requires --mode echo or socketio; " +:+ debug_mode mode +:+ " mode does not wait for replies"))
  else Ok expect.

Definition validate_chaos_mode (chaos : ChaosConfig) (mode : TestMode) (has_actions : bool) (prefix : string) : result unit WsBlastError :=
  if negb (acts_on_sends chaos) then Ok tt
  else if negb (has_actions || awaits_replies mode || bool_decide (mode = Stream)) then
    fail (UnsupportedOption (prefix +:+ "chaos injection needs data sends to act on; " +:+ debug_mode mode +:+
      " mode sends none, use --mode echo or stream, or an action script (--chaos-read-pause works in every mode)"))
  else Ok tt.

Definition build_chaos (time : Z) (mode : TestMode) (chaos : option ChaosConfig) : result (option ChaosConfig) WsBlastError :=
  match chaos with
  | Some chaos =>
      let? _ := ChaosConfig_validate display_f64 chaos in
      if is_active chaos then
        let? _ := validate_chaos_mode chaos mode false "" in Ok (Some (seeded time chaos))
      else Ok None
  | None => Ok None
  end.

(** What [build] learns from outside: the clock its templates are filled in
    with, a seed, which source addresses bind, and the files. *)
Record BuildEnv := mkBuildEnv {
  be_now_ms : Z;
  be_time_seed : Z;
  be_check_source_ip : string -> result unit string;
  be_files : string -> result Z string * result string string;
}.

(** [build] after the settings of Load.v. *)
Definition build_rest (env : BuildEnv) (b : LoadTestConfigBuilder) (target_url : Url) (load : Load) : result RunConfig WsBlastError :=
  let? _ := check_match_pointer (lb_reply_match b) in
  let? graphql_ws := validate_graphql (lb_mode b) (lb_graphql b) in
  let? socketio := socketio_compile (lb_mode b) target_url (lb_socketio b) in
  let target_url := match socketio with Some sio => socketio_url target_url (so_engine sio) | None => target_url end in
  let? _ := validate_reply_match (lb_reply_match b) (lb_mode b) [lb_payload b] in
  let? _ := match lb_invalid_header b with Some message => fail (InvalidHeader message) | None => Ok tt end in
  let? _ := validate_slo (lb_slo b) (lb_mode b) in
  let? data := load_data (be_files env) (lb_data b) in
  let? _ := check_payload (lb_payload b) data in
  let? (headers, header_templates) := split_header_templates (be_now_ms env) (lb_headers b) data in
  let? _ := match (sio ← socketio; so_auth sio) with
            | Some auth => result_map_err (fun e => ConfigFailure (InvalidOption e)) (check_auth (be_now_ms env) auth data)
            | None => Ok tt
            end in
  let? source_ips := check_source_ips (be_check_source_ip env) [] (lb_source_ips b) in
  let? expect := parse_expect (lb_expect b) (lb_mode b) in
  let? chaos := build_chaos (be_time_seed env) (lb_mode b) (lb_chaos b) in
  Ok (mkRunConfig target_url load (lb_rate_per_conn b) (lb_payload b) headers header_templates data (lb_subprotocol b) source_ips
    (lb_compression b) (lb_mode b) (lb_connect_timeout b) (lb_message_timeout b) (lb_ping_interval b) None graphql_ws socketio
    (lb_slo b) (lb_output_format b) (negb (lb_progress b)) (negb (lb_reconnect b)) (lb_reply_match b) expect
    ((fun path => (path, lb_capture_limit b)) <$> lb_capture b) None chaos).

(** [build]; [None] is the panic of a sum of stage durations. *)
Definition build_config (env : BuildEnv) (b : LoadTestConfigBuilder) : option (result RunConfig WsBlastError) :=
  match parse_target_url (lb_target b) with
  | Err e => Some (Err e)
  | Ok target_url =>
      load ← build_load display_f64 (lb_load b);
      Some (let? load := load in build_rest env b target_url load)
  end.

(** [set_target] *)
Definition set_target (url : Url) (c : RunConfig) : RunConfig :=
  c <| rc_target_url := match rc_socketio c with Some sio => socketio_url url (so_engine sio) | None => url end |>.
End Config.

(** ** What [build] guarantees *)

Section Consistency.
Context `{Libs, Formatter}.

(** What each check leaves behind. *)
Definition load_ok (l : Load) : Prop :=
  ld_connections l <> 0 /\ ld_max_requests l <> Some 0 /\
  (ld_stages l <> [] -> ld_arrivals l = None /\ ld_ramp_rate l <= 0 /\ Forall (fun s => sg_duration s <> 0) (ld_stages l) /\
     ld_connections l = default 0 (iter_max (sg_target <$> ld_stages l)) /\ ld_duration l = sum_Z (sg_duration <$> ld_stages l)) /\
  (forall a, ld_arrivals l = Some a -> ld_stages l = [] /\ ld_ramp_rate l <= 0 /\ ld_connections l = expected_connections a /\
     check_values display_f64 "--arrival-rate" "--session-duration" "--max-connections" a = Ok tt).

Definition graphql_ok (c : RunConfig) : Prop :=
  match rc_graphql_ws c with
  | None => rc_mode c <> GraphQLWS
  | Some g => rc_mode c = GraphQLWS /\ trim (gc_operation g) <> ""%string /\
      (forall v, gc_variables g = Some v -> is_object v = true) /\ (forall v, gc_extensions g = Some v -> is_object v = true)
  end.

Definition socketio_ok (now_ms : Z) (c : RunConfig) : Prop :=
  match rc_socketio c with
  | None => rc_mode c <> SocketIo
  | Some sio => rc_mode c = SocketIo /\ SocketIoConfig_validate sio = Ok tt /\
      (exists u, web_scheme (url_scheme u) /\ check_url u (so_engine sio) = Ok tt /\ rc_target_url c = socketio_url u (so_engine sio)) /\
      (forall auth, so_auth sio = Some auth -> auth = parse (tp_source auth) /\ check_auth now_ms auth (rc_data c) = Ok tt)
  end.

Definition reply_ok (c : RunConfig) : Prop :=
  (rc_reply_match c <> First -> rc_mode c = Echo) /\
  (forall pointer, rc_reply_match c = JsonPointer pointer -> is_json_pointer pointer = true /\ carries_seq (rc_payload c) = true) /\
  (forall check, rc_expect c = Some check -> awaits_replies (rc_mode c) = true /\ check_validate check = Ok tt) /\
  (has_latency (rc_slo c) = true -> awaits_replies (rc_mode c) = true) /\
  (forall rate, max_error_rate (rc_slo c) = Some rate -> f64_leb f64_zero rate = true /\ f64_leb rate f64_one = true).

Definition chaos_ok (c : RunConfig) : Prop :=
  forall chaos, rc_chaos c = Some chaos -> is_active chaos = true /\ is_Some (cx_seed chaos) /\
    ChaosConfig_validate display_f64 chaos = Ok tt /\
    (acts_on_sends chaos = true -> awaits_replies (rc_mode c) = true \/ rc_mode c = Stream).

(** A header value for every connection: the templates are those of the
    headers given, and every row of the data fills them in validly. *)
Definition header_ok (now_ms : Z) (c : RunConfig) (e : HeaderName * Template) : Prop :=
  is_dynamic e.2 = true /\ e.2 = parse (tp_source e.2) /\ check_data e.2 (rc_data c) = Ok tt /\
  forall row, (row < row_count (rc_data c))%nat -> is_Some (header_value (render now_ms e.2 (row_values (rc_data c) row))).

Lemma collect_unit {A E} (f : A -> result unit E) l : (exists us, result_collect f l = Ok us) <-> Forall (fun a => f a = Ok tt) l.
Proof.
  split.
  - intros [us Hus]. apply result_collect_Ok in Hus. induction Hus as [|a [] l us Ha _ IH]; by constructor.
  - intros Hall. exists (replicate (length l) tt). apply result_collect_Ok. induction Hall; by constructor.
Qed.

Lemma check_header_rows_Ok now_ms name template data : check_header_rows now_ms name template data = Ok tt <->
  forall row, (row < row_count data)%nat -> is_Some (header_value (render now_ms template (row_values data row))).
Proof.
  unfold check_header_rows. rewrite result_bind_Ok. split.
  - intros (us & Hus & _) row Hrow. assert (exists us, result_collect (fun row =>
      if bool_decide (is_Some (header_value (render now_ms template (row_values data row)))) then Ok tt
      else fail (InvalidOption ("header " +:+ name_text name +:+ ": the value is not a valid HTTP header value" +:+ row_source data row)))
      (seq 0 (row_count data)) = Ok us) as Hall by (by exists us).
    apply collect_unit in Hall. rewrite Forall_forall in Hall. specialize (Hall row ltac:(apply elem_of_seq; lia)). by case_bool_decide.
  - intros Hall. assert (Forall (fun row => (if bool_decide (is_Some (header_value (render now_ms template (row_values data row)))) then Ok tt
      else fail (InvalidOption ("header " +:+ name_text name +:+ ": the value is not a valid HTTP header value" +:+ row_source data row))) = Ok tt)
      (seq 0 (row_count data))) as Hf.
    { apply Forall_forall. intros row Hrow%elem_of_seq. rewrite bool_decide_true; [done|]. apply Hall. lia. }
    apply collect_unit in Hf as [us Hus]. by exists us.
Qed.

Lemma parse_source_id s : tp_source (parse s) = s.
Proof. done. Qed.

Lemma header_template_Some value template : header_template value = Some template ->
  is_dynamic template = true /\ template = parse (tp_source template) /\ value_text value = Some (tp_source template).
Proof.
  unfold header_template. destruct (value_text value) as [text|]; cbn [mbind option_bind]; [|done]. destruct (is_dynamic (parse text)) eqn:E; [|done].
  intros [= <-]. by rewrite parse_source_id.
Qed.

(** The templates are the dynamic entries, checked, in order; the rest are
    appended to the fixed headers. *)
Lemma split_headers_spec now_ms data entries fixed templates r :
  split_headers_from now_ms data (fixed, templates) entries = Ok r ->
  r.1 = fold_left (fun m e => map_append e.1 e.2 m) (filter (fun e => header_template e.2 = None) entries) fixed /\
  r.2 = templates ++ omap (fun e => (fun t => (e.1, t)) <$> header_template e.2) entries /\
  Forall (fun e => forall template, header_template e.2 = Some template ->
    check_data template data = Ok tt /\ check_header_rows now_ms e.1 template data = Ok tt) entries.
Proof.
  revert fixed templates. induction entries as [|[n v] entries IH]; intros fixed templates; cbn [split_headers_from].
  { intros [= <-]. cbn. by rewrite app_nil_r. }
  intros ([fixed' templates'] & Hs & Hr)%result_bind_Ok. apply IH in Hr as (Hf & Ht & Hall). unfold split_header_step in Hs. cbn [fst snd] in Hs.
  destruct (header_template v) as [template|] eqn:E.
  - apply result_bind_Ok in Hs as ([] & Hc & Hs). apply result_bind_Ok in Hs as ([] & Hrows & [= <- <-]).
    rewrite filter_cons_False by (cbn; congruence). split; [done|]. split; [rewrite Ht, <- app_assoc; cbn; by rewrite E|].
    constructor; [|done]. cbn. intros template' [= <-]%(eq_trans (eq_sym E)). split; [|done].
    destruct (check_data template data) as [[]|]; [done|done].
  - injection Hs as <- <-. rewrite filter_cons_True by done. split; [done|]. split; [rewrite Ht; cbn; by rewrite E|].
    constructor; [|done]. cbn. intros template'. congruence.
Qed.

Lemma Arrivals_validate_Ok fmt stages ramp a : Arrivals_validate fmt stages ramp a = Ok tt ->
  check_values fmt "--arrival-rate" "--session-duration" "--max-connections" a = Ok tt /\ stages = [] /\ ramp <= 0.
Proof.
  unfold Arrivals_validate. destruct (check_values _ _ _ _ a) as [[]|]; cbn [result_bind result_map_err]; [|done]. destruct stages; [|done].
  destruct (Z.ltb_spec 0 ramp); [done|]. intros _. by split_and!.
Qed.

Lemma validate_stages_Ok stages ramp : validate_stages stages ramp = Ok tt -> ramp <= 0 /\ Forall (fun s => sg_duration s <> 0) stages.
Proof.
  unfold validate_stages. destruct (Z.ltb_spec 0 ramp); [done|]. destruct (list_find _ stages) as [[]|] eqn:E; [done|].
  intros _. split; [done|]. by apply list_find_None in E.
Qed.

Lemma build_load_consistent l0 l : build_load display_f64 l0 = Some (Ok l) -> load_ok l.
Proof.
  intros Hb. unfold build_load in Hb.
  assert (exists l1, (match ld_arrivals l0 with
            | Some a => Arrivals_validate display_f64 (ld_stages l0) (ld_ramp_rate l0) a = Ok tt /\ l1 = l0 <| ld_connections := expected_connections a |>
            | None => l1 = l0 end) /\
    (staged ← match ld_stages l1 with
              | [] => Some (Ok l1)
              | stages => match validate_stages stages (ld_ramp_rate l1) with
                          | Err e => Some (Err e)
                          | Ok _ => total ← duration_sum (sg_duration <$> stages);
                              Some (Ok (l1 <| ld_connections := default 0 (iter_max (sg_target <$> stages)) |> <| ld_duration := total |>))
                          end
              end;
     Some (let? l := staged in let? _ := validate_connections (ld_connections l) in
           let? _ := validate_max_requests (ld_max_requests l) in Ok l)) = Some (Ok l)) as (l1 & Hl1 & Hb1).
  { destruct (ld_arrivals l0) as [a|]; [|by exists l0]. destruct (Arrivals_validate _ _ _ a) as [[]|e]; [|done].
    eexists. split; [done|exact Hb]. }
  clear Hb. destruct l1 as [conn ramp dur stages arr req]. cbn [ld_stages ld_ramp_rate] in Hb1.
  assert (Hend : forall staged, (let? l := staged in let? _ := validate_connections (ld_connections l) in
    let? _ := validate_max_requests (ld_max_requests l) in Ok l) = Ok (E := WsBlastError) l -> staged = Ok l /\ ld_connections l <> 0 /\ ld_max_requests l <> Some 0).
  { intros staged (l2 & -> & Hl)%result_bind_Ok. apply result_bind_Ok in Hl as (? & Hc & Hl). apply result_bind_Ok in Hl as (? & Hm & [= ->]).
    unfold validate_connections, validate_max_requests in *. destruct (Z.eqb_spec (ld_connections l) 0); [done|]. by case_decide. }
  assert (Harr : forall a, ld_arrivals l0 = Some a -> arr = Some a /\ stages = [] /\ ramp <= 0 /\ conn = expected_connections a /\
    check_values display_f64 "--arrival-rate" "--session-duration" "--max-connections" a = Ok tt).
  { intros a Ha. rewrite Ha in Hl1. destruct Hl1 as [Hv [= -> -> -> -> -> ->]]. by apply Arrivals_validate_Ok in Hv as (? & ? & ?). }
  assert (Hnone : ld_arrivals l0 = None -> arr = None) by (intros Ha; rewrite Ha in Hl1; by subst l0).
  destruct stages as [|stage stages].
  - cbn [mbind option_bind] in Hb1. apply (inj Some) in Hb1. destruct (Hend (Ok (mkLoad conn ramp dur [] arr req)) Hb1) as ([= <-] & Hc & Hm).
    split_and!; cbn; try done. intros a Ha. cbn in Ha. destruct (ld_arrivals l0) as [a0|]; [|by rewrite Hnone in Ha].
    destruct (Harr a0 eq_refl) as (Ha' & _ & Hr & Hcn & Hcv). assert (a = a0) as -> by congruence. done.
  - destruct (validate_stages (stage :: stages) ramp) as [[]|] eqn:Hv; [|done]. apply validate_stages_Ok in Hv as [Hr Hd].
    destruct (duration_sum _) as [total|] eqn:Hs; [|done]. cbn [mbind option_bind] in Hb1. apply (inj Some) in Hb1. destruct (Hend (Ok _) Hb1) as ([= <-] & Hc & Hm).
    assert (arr = None) as -> by (destruct (ld_arrivals l0) as [a0|]; [by destruct (Harr a0 eq_refl) as (_ & ? & _)|by apply Hnone]).
    unfold duration_sum in Hs. destruct (_ <=? _); [|done]. injection Hs as <-. split_and!; cbn; try done.
Qed.

Lemma validate_graphql_Ok mode o g : validate_graphql mode o = Ok g ->
  match g with
  | None => mode <> GraphQLWS
  | Some g => mode = GraphQLWS /\ trim (gc_operation g) <> ""%string /\ go_operation o = Some (gc_operation g) /\
      go_operation_name o = gc_operation_name g /\ go_variables o = gc_variables g /\ go_extensions o = gc_extensions g /\
      check_objects o = Ok tt
  end.
Proof.
  unfold validate_graphql. case_bool_decide as Hm; cbn [negb].
  - destruct (go_operation o) as [operation|] eqn:Eo; cbn [mbind option_bind]; [|done]. case_decide; [done|].
    intros ([] & Hc & [= <-])%result_bind_Ok. by split_and!.
  - destruct (has_graphql_options o); [done|]. by intros [= <-].
Qed.

Lemma check_objects_Ok o : check_objects o = Ok tt <->
  (forall v, go_variables o = Some v -> is_object v = true) /\ (forall v, go_extensions o = Some v -> is_object v = true).
Proof.
  unfold check_objects. cbn [result_collect fst snd].
  assert (Hone : forall (v : option (Value JN)) name, (if from_option (fun v => negb (is_object v)) false v
    then fail (InvalidOption (name +:+ " must contain a JSON object")) else Ok tt) = Ok tt <-> (forall x, v = Some x -> is_object x = true)).
  { intros [v|] name; cbn; [|by split]. destruct (is_object v) eqn:E; cbn; split; try done; [by intros _ ? [= <-]|].
    intros Hx. specialize (Hx v eq_refl). congruence. }
  specialize (Hone (go_variables o) "--graphql-ws-variables"%string) as Hv. specialize (Hone (go_extensions o) "--graphql-ws-extensions"%string) as He.
  rewrite <- Hv, <- He. destruct (if from_option _ false (go_variables o) then _ else _) as [[]|]; cbn [result_bind]; [|by split; [|intros []]].
  destruct (if from_option _ false (go_extensions o) then _ else _) as [[]|]; cbn [result_bind]; [by split|by split; [|intros []]].
Qed.

Lemma socketio_compile_Ok mode target o sio : socketio_compile mode target o = Ok sio ->
  match sio with
  | None => mode <> SocketIo
  | Some sio => mode = SocketIo /\ SocketIoConfig_validate sio = Ok tt /\ check_url target (so_engine sio) = Ok tt /\
      (forall auth, so_auth sio = Some auth -> auth = parse (tp_source auth))
  end.
Proof.
  unfold socketio_compile. case_bool_decide as Hm; cbn [negb].
  - destruct (from_version _) as [engine|]; [|done]. intros ([] & Hu & Hs)%result_bind_Ok. apply result_bind_Ok in Hs as ([] & Hv & [= <-]).
    cbn [so_engine so_auth]. split_and!; try done.
    + by destruct (SocketIoConfig_validate _) as [[]|].
    + by destruct (check_url target engine) as [[]|].
    + intros auth Ha. by apply fmap_Some in Ha as (text & _ & ->).
  - destruct (has_socketio_options o); [done|]. by intros [= <-].
Qed.

Lemma validate_reply_match_Ok rule mode payload : validate_reply_match rule mode [payload] = Ok tt ->
  (rule <> First -> mode = Echo) /\ (forall pointer, rule = JsonPointer pointer -> carries_seq payload = true).
Proof.
  unfold validate_reply_match. destruct rule as [| |pointer]; [by intros|..]; (case_bool_decide as Hm; cbn [negb]; [|done]).
  - intros _. by split.
  - cbn [forallb]. rewrite andb_true_r. by destruct (carries_seq payload).
Qed.

Lemma validate_slo_Ok slo mode : validate_slo slo mode = Ok tt ->
  (has_latency slo = true -> awaits_replies mode = true) /\
  (forall rate, max_error_rate slo = Some rate -> f64_leb f64_zero rate = true /\ f64_leb rate f64_one = true).
Proof.
  unfold validate_slo. intros ([] & He & Hl)%result_bind_Ok. unfold validate_latency_mode in Hl. split.
  - intros Hh. rewrite Hh in Hl. by destruct (awaits_replies mode).
  - intros rate Hr. unfold validate_error_rate in He. rewrite Hr in He. destruct (f64_leb f64_zero rate), (f64_leb rate f64_one); done.
Qed.

Lemma parse_flag_valid spec check : parse_flag spec = Ok check -> check_validate check = Ok tt.
Proof.
  unfold parse_flag. destruct (strip_prefix "contains:" spec) as [text|].
  - case_decide; [done|]. intros [= <-]. cbn. by rewrite decide_False.
  - destruct (strip_prefix "json:" spec) as [rest|]; [|done]. destruct (split_once "="%char rest) as [[p value]|];
      intros ([] & Hv & [= <-])%result_bind_Ok; exact Hv.
Qed.

Lemma parse_expect_Ok spec mode expect : parse_expect spec mode = Ok expect ->
  forall check, expect = Some check -> awaits_replies mode = true /\ check_validate check = Ok tt /\ exists s, spec = Some s /\ parse_flag s = Ok check.
Proof.
  intros Hp check ->. unfold parse_expect in Hp. apply result_bind_Ok in Hp as (e & He & Hp).
  destruct e as [check'|]; cbn in Hp; [|done]. destruct (awaits_replies mode); [|done]. injection Hp as ->. split; [done|].
  destruct spec as [s|]; [|done]. apply result_bind_Ok in He as (c & Hc & [= ->]).
  destruct (parse_flag s) as [c'|] eqn:Es; [|done]. injection Hc as ->. split; [by apply (parse_flag_valid s)|by exists s].
Qed.

Lemma build_chaos_Ok time mode chaos r : build_chaos time mode chaos = Ok r -> forall c, r = Some c ->
  exists c0, chaos = Some c0 /\ c = seeded time c0 /\ is_active c0 = true /\ ChaosConfig_validate display_f64 c0 = Ok tt /\
    (acts_on_sends c0 = true -> awaits_replies mode = true \/ mode = Stream).
Proof.
  intros Hb c ->. destruct chaos as [c0|]; cbn in Hb; [|done]. apply result_bind_Ok in Hb as ([] & Hv & Hb).
  destruct (is_active c0) eqn:Ea; [|done]. apply result_bind_Ok in Hb as ([] & Hm & [= <-]). exists c0. split_and!; try done.
  intros Hs. unfold validate_chaos_mode in Hm. rewrite Hs in Hm. cbn in Hm. destruct (awaits_replies mode); [by left|].
  case_bool_decide; [by right|done].
Qed.

Lemma check_source_ips_Ok check ips seen r : NoDup seen -> Forall (fun ip => check ip = Ok tt) seen ->
  check_source_ips check seen ips = Ok r -> NoDup r /\ Forall (fun ip => check ip = Ok tt) r.
Proof.
  revert seen. induction ips as [|ip ips IH]; intros seen Hnd Hall; cbn; [by intros [= <-]|]. case_decide as Hin; [by apply IH|].
  intros ([] & Hc & Hr)%result_bind_Ok. apply (IH (seen ++ [ip])); [| |done].
  - apply NoDup_app. split_and!; [done| |apply NoDup_singleton]. by intros x Hx ->%list_elem_of_singleton.
  - apply Forall_app. split; [done|]. constructor; [|constructor]. by destruct (check ip) as [[]|].
Qed.

(** A configuration every worker can be started with. *)
Definition consistent (env : BuildEnv) (c : RunConfig) : Prop :=
  web_scheme (url_scheme (rc_target_url c)) /\ load_ok (rc_load c) /\ graphql_ok c /\ socketio_ok (be_now_ms env) c /\
  reply_ok c /\ chaos_ok c /\ Forall (header_ok (be_now_ms env) c) (rc_header_templates c) /\
  check_payload (rc_payload c) (rc_data c) = Ok tt /\
  NoDup (rc_source_ips c) /\ Forall (fun ip => be_check_source_ip env ip = Ok tt) (rc_source_ips c).

Lemma parse_target_web raw u : parse_target_url raw = Ok u -> web_scheme (url_scheme u).
Proof. unfold parse_target_url. destruct (url_parse raw); [|done]. case_decide as Hs; [|done]. by intros [= <-]. Qed.

Lemma seeded_same time c : is_active (seeded time c) = is_active c /\ acts_on_sends (seeded time c) = acts_on_sends c /\
  ChaosConfig_validate display_f64 (seeded time c) = ChaosConfig_validate display_f64 c.
Proof. by destruct c. Qed.

Lemma build_templates_ok now_ms data entries fixed r c : split_headers_from now_ms data (fixed, []) entries = Ok r ->
  rc_header_templates c = r.2 -> rc_data c = data -> Forall (header_ok now_ms c) (rc_header_templates c).
Proof.
  intros Hs Hr <-. destruct (split_headers_spec _ _ _ _ _ _ Hs) as (_ & Ht & Hall). rewrite Hr, Ht. clear -Hall. cbn [app].
  induction Hall as [|[n v] entries Hv _ IH]; [constructor|]. cbn. destruct (header_template v) as [template|] eqn:E; [|exact IH].
  cbn. constructor; [|exact IH]. destruct (Hv template E) as [Hd Hrows].
  apply header_template_Some in E as (Hdyn & Hp & _). by rewrite check_header_rows_Ok in Hrows.
Qed.

(** What [build_rest] asks of the pieces, and what it puts together. *)
Record built (env : BuildEnv) (b : LoadTestConfigBuilder) (u : Url) (load : Load) (c : RunConfig) : Prop := mkBuilt {
  built_pointer : check_match_pointer (lb_reply_match b) = Ok tt;
  built_graphql : validate_graphql (lb_mode b) (lb_graphql b) = Ok (rc_graphql_ws c);
  built_socketio : socketio_compile (lb_mode b) u (lb_socketio b) = Ok (rc_socketio c);
  built_reply : validate_reply_match (lb_reply_match b) (lb_mode b) [lb_payload b] = Ok tt;
  built_names : lb_invalid_header b = None;
  built_slo : validate_slo (lb_slo b) (lb_mode b) = Ok tt;
  built_data : load_data (be_files env) (lb_data b) = Ok (rc_data c);
  built_payload : check_payload (lb_payload b) (rc_data c) = Ok tt;
  built_headers : split_header_templates (be_now_ms env) (lb_headers b) (rc_data c) = Ok (rc_headers c, rc_header_templates c);
  built_auth : forall sio auth, rc_socketio c = Some sio -> so_auth sio = Some auth -> check_auth (be_now_ms env) auth (rc_data c) = Ok tt;
  built_ips : check_source_ips (be_check_source_ip env) [] (lb_source_ips b) = Ok (rc_source_ips c);
  built_expect : parse_expect (lb_expect b) (lb_mode b) = Ok (rc_expect c);
  built_chaos : build_chaos (be_time_seed env) (lb_mode b) (lb_chaos b) = Ok (rc_chaos c);
  built_fields : c = mkRunConfig (match rc_socketio c with Some sio => socketio_url u (so_engine sio) | None => u end) load
    (lb_rate_per_conn b) (lb_payload b) (rc_headers c) (rc_header_templates c) (rc_data c) (lb_subprotocol b) (rc_source_ips c)
    (lb_compression b) (lb_mode b) (lb_connect_timeout b) (lb_message_timeout b) (lb_ping_interval b) None (rc_graphql_ws c) (rc_socketio c)
    (lb_slo b) (lb_output_format b) (negb (lb_progress b)) (negb (lb_reconnect b)) (lb_reply_match b) (rc_expect c)
    ((fun path => (path, lb_capture_limit b)) <$> lb_capture b) None (rc_chaos c);
}.

Lemma result_map_err_Ok {A E F} (g : E -> F) (m : result A E) a : result_map_err g m = Ok a <-> m = Ok a.
Proof. destruct m; cbn; split; intros [=]; by subst. Qed.

Lemma build_rest_built env b u load c : build_rest env b u load = Ok c <-> built env b u load c.
Proof.
  unfold build_rest. split.
  - intros ([] & Hp & Hr)%result_bind_Ok. apply result_bind_Ok in Hr as (g & Hg & Hr). apply result_bind_Ok in Hr as (sio & Hs & Hr).
    apply result_bind_Ok in Hr as ([] & Hm & Hr). apply result_bind_Ok in Hr as ([] & Hn & Hr). apply result_bind_Ok in Hr as ([] & Hslo & Hr).
    apply result_bind_Ok in Hr as (data & Hd & Hr). apply result_bind_Ok in Hr as ([] & Hpay & Hr).
    apply result_bind_Ok in Hr as ([fixed templates] & Hh & Hr). apply result_bind_Ok in Hr as ([] & Ha & Hr).
    apply result_bind_Ok in Hr as (ips & Hip & Hr). apply result_bind_Ok in Hr as (expect & He & Hr).
    apply result_bind_Ok in Hr as (chaos & Hc & [= <-]). constructor; cbn; try done.
    + by destruct (lb_invalid_header b).
    + intros sio' auth -> Hauth. cbn in Ha. rewrite Hauth in Ha. by apply result_map_err_Ok in Ha.
  - intros [Hp Hg Hs Hm Hn Hslo Hd Hpay Hh Ha Hip He Hc Hf].
    rewrite Hp, Hg, Hs, Hm, Hn, Hslo, Hd. cbn [result_bind]. rewrite Hpay. cbn [result_bind]. rewrite Hh. cbn [result_bind].
    assert (match (sio ← rc_socketio c; so_auth sio) with
            | Some auth => result_map_err (fun e => ConfigFailure (InvalidOption e)) (check_auth (be_now_ms env) auth (rc_data c))
            | None => Ok tt
            end = Ok tt) as ->.
    { destruct (rc_socketio c) as [sio|]; [|done]. cbn. destruct (so_auth sio) as [auth|] eqn:Ea; [|done]. by rewrite (Ha sio auth). }
    cbn [result_bind]. rewrite Hip, He, Hc. cbn [result_bind]. f_equal. by rewrite <- Hf.
Qed.

Lemma build_Ok env b c : build_config env b = Some (Ok c) <-> exists u load, parse_target_url (lb_target b) = Ok u /\
  build_load display_f64 (lb_load b) = Some (Ok load) /\ built env b u load c.
Proof.
  unfold build_config. split.
  - destruct (parse_target_url _) as [u|]; [|done]. destruct (build_load _ _) as [[load|]|]; [| |done]; cbn; [|done].
    intros Hr%(inj Some)%build_rest_built. by exists u, load.
  - intros (u & load & -> & -> & Hb). cbn. f_equal. by apply build_rest_built.
Qed.

(** C20. Whatever the builder returns is a configuration that can be run: its
    target is a WebSocket URL (the Socket.IO one, when that is the mode), the
    load makes at least one connection and keeps stages, ramp and arrivals
    apart, a mode has the options it needs and only those, replies are matched
    and checked only where the mode waits for them, the thresholds and rates
    are in range, the fault injection has a seed and acts on something, every
    header template and the payload can be filled in with every row of the
    data, and each source address was checked and is listed once. *)
Theorem build_consistent (env : BuildEnv) (b : LoadTestConfigBuilder) (c : RunConfig)
  (Hlaws : UrlLaws Url) (Hbuild : build_config env b = Some (Ok c)) : consistent env c.
Proof.
  apply build_Ok in Hbuild as (u & load & Hu & Hl & Hb). apply parse_target_web in Hu. apply build_load_consistent in Hl.
  destruct Hb as [Hp Hg Hs Hm Hn Hslo Hd Hpay Hh Ha Hip He Hc Hf].
  assert (rc_mode c = lb_mode b /\ rc_payload c = lb_payload b /\ rc_load c = load /\ rc_reply_match c = lb_reply_match b /\
    rc_slo c = lb_slo b /\ rc_target_url c = match rc_socketio c with Some sio => socketio_url u (so_engine sio) | None => u end)
    as (Emode & Epay & Eload & Erule & Eslo & Eurl) by (rewrite Hf; done).
  apply socketio_compile_Ok in Hs. apply validate_graphql_Ok in Hg. apply validate_slo_Ok in Hslo as [Hlat Hrate].
  apply validate_reply_match_Ok in Hm as [Hecho Hseq].
  destruct (check_source_ips_Ok _ _ _ _ (NoDup_nil_2) (List.Forall_nil _) Hip) as [Hnd Hips].
  unfold consistent. rewrite Eload, Epay. split_and!; try done.
  - rewrite Eurl. destruct (rc_socketio c) as [sio|]; [|done]. destruct Hs as (_ & _ & Hchk & _).
    by destruct (socketio_url_settled u (so_engine sio) Hu Hchk) as (_ & _ & ->).
  - unfold graphql_ok. rewrite Emode. destruct (rc_graphql_ws c) as [g|]; [|done]. destruct Hg as (-> & Ht & _ & _ & <- & <- & Ho).
    by apply check_objects_Ok in Ho as [? ?].
  - unfold socketio_ok. rewrite Emode, Eurl. destruct (rc_socketio c) as [sio|] eqn:E; [|done]. destruct Hs as (-> & Hv & Hchk & Hparse).
    split_and!; [done..|by exists u|]. intros auth Hauth. split; [by apply Hparse|by apply (Ha sio)].
  - unfold reply_ok. rewrite Emode, Erule, Epay, Eslo. split_and!; try done.
    + intros pointer Hpt. unfold check_match_pointer in Hp. rewrite Hpt in Hp. destruct (is_json_pointer pointer) eqn:Ej; [|done].
      split; [done|by apply (Hseq pointer)].
    + intros check Hx. destruct (parse_expect_Ok _ _ _ He check Hx) as (? & ? & _). done.
  - intros chaos Hx. destruct (build_chaos_Ok _ _ _ _ Hc chaos Hx) as (c0 & _ & -> & Hact & Hv & Hmode).
    destruct (seeded_same (be_time_seed env) c0) as (-> & -> & ->). rewrite Emode. by split_and!.
  - by apply (build_templates_ok _ (rc_data c) (named_from None (map_into_iter (lb_headers b))) map_new (rc_headers c, rc_header_templates c)).
Qed.
End Consistency.

(** A builder of everything at once: a templated header and payload over two
    rows of data, a check on the replies, thresholds and faults. *)
Module Sample.
#[local] Instance no_format : Formatter :=
  {| debug_duration := fun _ => ""%string; fixed := fun _ _ => ""%string; display_f64 := fun _ => ""%string |}.
#[local] Existing Instance PlainLibs.plain_libs.
#[local] Existing Instance PlainLibs.plain_http.

Definition env : BuildEnv := mkBuildEnv 1700000000000 7 (fun ip => if decide (ip = "10.0.0.1"%string) then Ok tt else Err "cannot bind"%string)
  (fun _ => (Err "no file"%string, Err "no file"%string)).
Definition rows : DataSet := mkDataSet "rows" ["user"; "token"]%string [["ann"; "t1"]; ["bob"; "t2"]]%string None.
Definition builder : LoadTestConfigBuilder :=
  header "authorization" "Bearer {{data.token}}" (builder_new "ws://127.0.0.1:9001/feed")
    <| lb_data := Some (Loaded rows) |> <| lb_payload := from_text "{{seq}} {{data.user}}" |>
    <| lb_reply_match := JsonPointer "/seq" |> <| lb_expect := Some "contains:ok"%string |>
    <| lb_source_ips := ["10.0.0.1"; "10.0.0.1"]%string |>
    <| lb_chaos := Some (mkChaosConfig 5000000 0 f64_zero f64_zero f64_zero Graceful 0 0 None) |>.
End Sample.
#[local] Existing Instance Sample.no_format.
#[local] Existing Instance PlainLibs.plain_libs.

Lemma ok_exists {A E} (r : option (result A E)) : match r with Some (Ok _) => true | _ => false end = true -> exists a, r = Some (Ok a).
Proof. destruct r as [[a|]|]; [by exists a|done..]. Qed.

Lemma build_consistent_witness : let built := match build_config Sample.env Sample.builder with Some (Ok c) => Some c | _ => None end in
  (length ∘ rc_header_templates) <$> built = Some 1%nat /\ rc_source_ips <$> built = Some ["10.0.0.1"%string] /\
  from_option (consistent Sample.env) False built.
Proof.
  cbv zeta. split; [vm_compute; reflexivity|]. split; [vm_compute; reflexivity|].
  destruct (ok_exists (build_config Sample.env Sample.builder)) as [c E]; [vm_compute; reflexivity|]. rewrite E.
  exact (build_consistent (H := PlainLibs.plain_libs) (H0 := Sample.no_format) Sample.env Sample.builder c Plain.plain_url_laws E).
Defined.
