(* ===== verification/WireConfig.v ===== *)
(** * An agent's share of a run on the wire ([WireConfig] of src/src/distributed/protocol.rs)

    What the coordinator sends every agent and how the agent makes a run
    configuration of it.  The fields of serde's encoding are the records here;
    the fields that say how much load a run makes are the [Load] of Load.v, as
    in [RunConfig]. *)

From Stdlib Require Import ZArith Lia Ascii String.
From stdpp Require Import base tactics strings numbers option list.
From S2P Require Import Prelude RustStd Str Base64 Json Url Libs Live HumanDuration Summaries Metrics Wire Chaos Reply Data Template SocketIo Worker Slo Load Config.

Local Open Scope Z_scope.
Local Open Scope rust_scope.

Definition unsupported (message : string) : WsBlastError := ConfigFailure (UnsupportedOption message).

(** The names clap gives the values of [--mode] and [--chaos-close-mode], and
    the values it reads them and their aliases as. *)
Definition mode_name (mode : TestMode) : string :=
  match mode with
  | Echo => "echo" | Stream => "stream" | Listen => "listen" | GraphQLWS => "graphql-ws" | SocketIo => "socketio"
  end.
Definition mode_from_str (s : string) : option TestMode :=
  if decide (s = "echo"%string) then Some Echo
  else if decide (s = "stream"%string) then Some Stream
  else if decide (s = "listen"%string) then Some Listen
  else if decide (s = "graphql-ws"%string \/ s = "graph-qlws"%string) then Some GraphQLWS
  else if decide (s = "socketio"%string \/ s = "socket.io"%string) then Some SocketIo
  else None.
Definition close_mode_name (mode : ChaosCloseMode) : string :=
  match mode with Abrupt => "abrupt" | Graceful => "graceful" end.
Definition close_mode_from_str (s : string) : option ChaosCloseMode :=
  if decide (s = "abrupt"%string) then Some Abrupt else if decide (s = "graceful"%string) then Some Graceful else None.

Record WireSocketIo := mkWireSocketIo {
  wk_namespace : string;
  wk_event : string;
  wk_auth : option string;
  wk_version : Z;
}.

Inductive WirePayload := WireText (text : string) | WireBinary (base64 : string).

(** The chaos settings of one agent. *)
Record WireChaos := mkWireChaos {
  wh_delay : Z;
  wh_jitter : Z;
  wh_drop_percent : f64;
  wh_corrupt_percent : f64;
  wh_close_percent : f64;
  wh_close_mode : string;
  wh_read_pause : Z;
  wh_read_jitter : Z;
  wh_seed : Z;
}.

Definition WireChaos_new (chaos : ChaosConfig) (seed : Z) : WireChaos :=
  mkWireChaos (cx_delay chaos) (cx_jitter chaos) (cx_drop_percent chaos) (cx_corrupt_percent chaos) (cx_close_percent chaos)
    (close_mode_name (cx_close_mode chaos)) (cx_read_pause chaos) (cx_read_jitter chaos) seed.

Record WireHeader := mkWireHeader { wr_name : string; wr_value : string }.

Section Wire.
Context `{Libs, Formatter}.

Definition chaos_into_config (w : WireChaos) (mode : TestMode) (scripted : bool) : result ChaosConfig WsBlastError :=
  match close_mode_from_str (wh_close_mode w) with
  | None => Err (unsupported ("unknown chaos close mode '" +:+ wh_close_mode w +:+ "'"))
  | Some close_mode =>
      let chaos := mkChaosConfig (wh_delay w) (wh_jitter w) (wh_drop_percent w) (wh_corrupt_percent w) (wh_close_percent w)
        close_mode (wh_read_pause w) (wh_read_jitter w) (Some (wh_seed w)) in
      let? _ := ChaosConfig_validate display_f64 chaos in
      let? _ := validate_chaos_mode chaos mode scripted "" in
      Ok chaos
  end.

Inductive WireAction :=
| WireSend (payload : option WirePayload) (count : Z) (expect : option (ReplyCheck JN)) (captures : list Capture) (name : option nat)
| WireWait (duration : Z)
| WirePing (interval : Z)
| WireClose (code : Z) (reason : string).

Record WirePhase := mkWirePhase {
  wp_name : string;
  wp_think_time : Z;
  wp_actions : list WireAction;
  wp_vars : list string;
  wp_action_names : list string;
}.

Record WireGraphql := mkWireGraphql {
  wg_operation : string;
  wg_operation_name : option string;
  wg_variables : option (Value JN);
  wg_extensions : option (Value JN);
}.

(** [wc_capture] is the record limit of the agent's capture. *)
Record WireConfig := mkWireConfig {
  wc_target : string;
  wc_mode : string;
  wc_load : Load;
  wc_stage_share : option Share;
  wc_rate_per_conn : Z;
  wc_payload : WirePayload;
  wc_headers : list (string * string);
  wc_subprotocol : option string;
  wc_connect_timeout : Z;
  wc_message_timeout : Z;
  wc_ping_interval : Z;
  wc_reply_match : string;
  wc_expect : option (ReplyCheck JN);
  wc_reconnect : bool;
  wc_compression : bool;
  wc_graphql : option WireGraphql;
  wc_socketio : option WireSocketIo;
  wc_phase : option WirePhase;
  wc_capture : option (option Z);
  wc_live_auth : option WireHeader;
  wc_chaos : option WireChaos;
  wc_data : option WireData;
}.
#[export] Instance WireConfig_eta : Settable WireConfig := fun w =>
  mkWireConfig (wc_target w) (wc_mode w) (wc_load w) (wc_stage_share w) (wc_rate_per_conn w) (wc_payload w) (wc_headers w)
    (wc_subprotocol w) (wc_connect_timeout w) (wc_message_timeout w) (wc_ping_interval w) (wc_reply_match w) (wc_expect w)
    (wc_reconnect w) (wc_compression w) (wc_graphql w) (wc_socketio w) (wc_phase w) (wc_capture w) (wc_live_auth w) (wc_chaos w)
    (wc_data w).

(** ** The coordinator's side *)

Definition wire_payload (payload : PayloadConfig) : WirePayload :=
  match payload with
  | StaticText text => WireText text
  | DynamicText template => WireText (tp_source template)
  | BinaryPayload bytes => WireBinary (string_of_bytes (base64_encode bytes))
  end.

Definition not_ascii (name : HeaderName) : WsBlastError := ConfigFailure (InvalidHeader
  ("the value of header '" +:+ name_text name +:+ "' is not visible ASCII and cannot be sent to agents")).
Definition wire_header (name : HeaderName) (value : HeaderValue) : result WireHeader WsBlastError :=
  match value_text value with
  | Some value => Ok (mkWireHeader (name_text name) value)
  | None => Err (not_ascii name)
  end.

Definition wire_headers (c : RunConfig) : result (list (string * string)) WsBlastError :=
  let? fixed := result_collect (fun e =>
    match value_text e.2 with Some value => Ok (name_text e.1, value) | None => Err (not_ascii e.1) end) (map_iter (rc_headers c)) in
  Ok (fixed ++ ((fun e => (name_text e.1, tp_source e.2)) <$> rc_header_templates c)).

Definition wire_version (engine : EngineIo) : Z := match engine with V3 => 2 | V4 => 4 end.

(** [from_config]: the settings agents need, unsplit. *)
Definition from_config (c : RunConfig) : result WireConfig WsBlastError :=
  let? headers := wire_headers c in
  let? live_auth := match rc_live_auth c with
                    | Some (name, value) => let? header := wire_header name value in Ok (Some header)
                    | None => Ok None
                    end in
  Ok (mkWireConfig (url_text (rc_target_url c)) (mode_name (rc_mode c)) (rc_load c) None (rc_rate_per_conn c)
    (wire_payload (rc_payload c)) headers (rc_subprotocol c) (rc_connect_timeout c) (rc_message_timeout c) (rc_ping_interval c)
    (ReplyMatch_flag_value (rc_reply_match c)) (rc_expect c) (negb (rc_no_reconnect c)) (rc_compression c)
    ((fun g => mkWireGraphql (gc_operation g) (gc_operation_name g) (gc_variables g) (gc_extensions g)) <$> rc_graphql_ws c)
    ((fun sio => mkWireSocketIo (so_namespace sio) (so_event sio) (tp_source <$> so_auth sio) (wire_version (so_engine sio)))
       <$> rc_socketio c)
    None None live_auth None (data_to_wire <$> rc_data c)).

(** [plan]: Load.v's checks, then every agent's share of the settings that
    are divided. *)
Definition with_wire_load (base : WireConfig) (chaos : option ChaosConfig) (w : WireLoad) : WireConfig :=
  base <| wc_load := wl_load w |> <| wc_stage_share := wl_stage_share w |> <| wc_data := wl_data w |>
       <| wc_chaos := chaos ← chaos; seed ← wl_chaos_seed w; Some (WireChaos_new chaos seed) |>.
Definition plan_config (c : RunConfig) (agents : Z) : result (list WireConfig) WsBlastError :=
  let? shares := plan (rc_load c) (rc_source_ips c) (rc_data c) (rc_chaos c) agents in
  let? base := from_config c in
  Ok (with_wire_load base (rc_chaos c) <$> shares).

(** ** The agent's side *)

Definition sensitive_value (value : string) : result HeaderValue WsBlastError :=
  match header_value value with
  | Some value => Ok value
  | None => fail (InvalidHeader "the refreshed authentication header value is not a valid header value")
  end.
Definition header_parse (w : WireHeader) : result (HeaderName * HeaderValue) WsBlastError :=
  match header_name (wr_name w) with
  | Some name => let? value := sensitive_value (wr_value w) in Ok (name, value)
  | None => fail (InvalidHeader ("invalid header name '" +:+ wr_name w +:+ "'"))
  end.

Definition payload_into (payload : WirePayload) : result PayloadConfig WsBlastError :=
  match payload with
  | WireText text => Ok (from_text text)
  | WireBinary base64 =>
      match base64_decode (bytes_of_string base64) with
      | Some bytes => Ok (BinaryPayload bytes)
      | None => fail (InvalidOption "the binary payload is not valid base64")
      end
  end.

Definition scripted (w : WireConfig) : bool :=
  match wc_phase w with Some phase => negb (bool_decide (wp_actions phase = [])) | None => false end.

(** The settings [into_config] hands the builder. *)
Definition with_socketio (sio : option WireSocketIo) (b : LoadTestConfigBuilder) : LoadTestConfigBuilder :=
  match sio with
  | Some sio => b <| lb_socketio := mkSocketIoOptions (Some (wk_event sio)) (Some (wk_namespace sio)) (wk_auth sio) (Some (wk_version sio)) |>
  | None => b
  end.
Definition with_graphql (graphql : option WireGraphql) (b : LoadTestConfigBuilder) : LoadTestConfigBuilder :=
  match graphql with
  | Some g => b <| lb_graphql := mkGraphQLOptions (Some (wg_operation g)) (wg_operation_name g) (wg_variables g) (wg_extensions g) |>
  | None => b
  end.
Definition agent_settings (w : WireConfig) (mode : TestMode) (rule : ReplyMatch) (payload : PayloadConfig) : LoadTestConfigBuilder :=
  let new := builder_new (wc_target w) in
  mkBuilder (wc_target w) (wc_load w) (wc_rate_per_conn w) payload (lb_headers new) (lb_invalid_header new) (lb_data new)
    (lb_subprotocol new) (lb_source_ips new) (lb_compression new) mode (wc_connect_timeout w) (wc_message_timeout w)
    (wc_ping_interval w) (lb_graphql new) (lb_socketio new) (lb_slo new) (lb_output_format new) false (wc_reconnect w) rule
    (check_flag_value <$> wc_expect w) (lb_capture new) (lb_capture_limit new) (lb_chaos new).
Definition agent_builder (w : WireConfig) (mode : TestMode) (rule : ReplyMatch) (payload : PayloadConfig) (data : option DataSet)
  : LoadTestConfigBuilder :=
  let b := fold_left (fun b e => header e.1 e.2 b) (wc_headers w) (agent_settings w mode rule payload) in
  let b := b <| lb_data := Loaded <$> data |> <| lb_subprotocol := wc_subprotocol w |> <| lb_compression := wc_compression w |> in
  with_graphql (wc_graphql w) (with_socketio (wc_socketio w) b).

(** [into_config] after [build]: the settings the builder does not take. *)
Definition finish_config (w : WireConfig) (mode : TestMode) (c : RunConfig) : result RunConfig WsBlastError :=
  let? live_auth := match wc_live_auth w with
                    | Some header => let? live := header_parse header in Ok (Some live)
                    | None => Ok (rc_live_auth c)
                    end in
  let? chaos := match wc_chaos w with
                | Some chaos => let? chaos := chaos_into_config chaos mode (scripted w) in Ok (Some chaos)
                | None => Ok (rc_chaos c)
                end in
  let? load := take_stage_share (wc_stage_share w) (rc_load c) in
  let c := c <| rc_live_auth := live_auth |> <| rc_chaos := chaos |> <| rc_load := load |> <| rc_stage_share := wc_stage_share w |> in
  if ld_connections load =? 0 then Err (ConfigFailure (ZeroConcurrency 0)) else Ok c.

Definition into_config (env : BuildEnv) (w : WireConfig) : option (result RunConfig WsBlastError) :=
  match mode_from_str (wc_mode w) with
  | None => Some (Err (unsupported ("mode '" +:+ wc_mode w +:+ "' is not supported by this agent's build of wsblast")))
  | Some mode =>
      match (let? rule := result_map_err ConfigFailure (ReplyMatch_from_str (wc_reply_match w)) in
             let? payload := payload_into (wc_payload w) in
             let? data := into_data (wc_data w) in
             Ok (agent_builder w mode rule payload data)) with
      | Err e => Some (Err e)
      | Ok b =>
          built ← build_config env b;
          Some (let? c := built in finish_config w mode c)
      end
  end.

(** ** What survives the trip *)

Definition made_payload (p : PayloadConfig) : Prop :=
  (exists text, p = from_text text) \/ (exists bytes, p = BinaryPayload bytes /\ Forall is_u8 bytes).

Lemma payload_back p : made_payload p -> payload_into (wire_payload p) = Ok p.
Proof.
  intros [[text ->]|(bytes & -> & Hb)].
  - unfold from_text, from_text_with_vars. destruct (is_dynamic _) eqn:E; cbn [wire_payload payload_into tp_source parse_with_vars];
      unfold from_text, from_text_with_vars; by rewrite E.
  - cbn. rewrite bytes_of_string_of_bytes; [by rewrite base64_round_trip|]. by apply base64_encode_range.
Qed.

Lemma mode_back mode : mode_from_str (mode_name mode) = Some mode.
Proof. by destruct mode. Qed.

Lemma close_mode_back mode : close_mode_from_str (close_mode_name mode) = Some mode.
Proof. by destruct mode. Qed.

Lemma rule_back rule : (forall pointer, rule = JsonPointer pointer -> is_json_pointer pointer = true) ->
  ReplyMatch_from_str (ReplyMatch_flag_value rule) = Ok rule.
Proof. destruct rule as [| |pointer]; [done..|]. intros Hp. by apply match_of_text, Hp. Qed.

Lemma chaos_back c mode seed scripted : ChaosConfig_validate display_f64 c = Ok tt ->
  (acts_on_sends c = true -> awaits_replies mode = true \/ mode = Stream) ->
  chaos_into_config (WireChaos_new c seed) mode scripted = Ok (c <| cx_seed := Some seed |>).
Proof.
  intros Hv Hm. unfold chaos_into_config. cbn [WireChaos_new wh_close_mode]. rewrite close_mode_back. cbn [WireChaos_new].
  set (c' := mkChaosConfig _ _ _ _ _ _ _ _ _). assert (c' = c <| cx_seed := Some seed |>) as Hc by (by destruct c). rewrite Hc. clearbody c'.
  assert (ChaosConfig_validate display_f64 (c <| cx_seed := Some seed |>) = Ok tt) as -> by (by destruct c).
  assert (acts_on_sends (c <| cx_seed := Some seed |>) = acts_on_sends c) as Ha by (by destruct c).
  cbn [result_bind]. unfold validate_chaos_mode. rewrite Ha. destruct (acts_on_sends c); cbn [negb]; [|done].
  destruct (Hm eq_refl) as [->| ->]; cbn; by rewrite ?orb_true_r.
Qed.

(** The data an agent has: the rows of the run, with its share. *)
Definition same_rows (data data' : option DataSet) : Prop :=
  (fun d => (ds_path d, ds_columns d, ds_rows d)) <$> data = (fun d => (ds_path d, ds_columns d, ds_rows d)) <$> data'.

Lemma same_rows_check data data' t : same_rows data data' -> check_data t data = check_data t data'.
Proof.
  intros Hs. unfold check_data. induction (data_columns t) as [|c cs IH]; [done|]. cbn [check_data_columns]. rewrite IH. f_equal.
  destruct data as [[p c1 r s]|], data' as [[p' c1' r' s']|]; cbn in Hs; try done. injection Hs as -> -> ->. done.
Qed.

Lemma same_rows_render now_ms data data' t row : same_rows data data' ->
  render now_ms t (row_values data row) = render now_ms t (row_values data' row).
Proof.
  intros Hs. unfold render. f_equal. apply list_fmap_ext. intros _ p _. destruct p as [| | | |c|]; try done. cbn.
  destruct data as [[p c1 r s]|], data' as [[p' c1' r' s']|]; cbn in Hs; try done. injection Hs as -> -> ->. done.
Qed.

Lemma same_rows_count data data' : same_rows data data' -> row_count data = row_count data'.
Proof. intros Hs. destruct data as [[p c r s]|], data' as [[p' c' r' s']|]; cbn in Hs; try done. by injection Hs as -> -> ->. Qed.
End Wire.

(** ** Headers *)

Section Headers.
Context `{LibsLaws, Formatter}.
Implicit Types (e : HeaderName * HeaderValue) (es os : list (HeaderName * HeaderValue)).

Definition templates_of (n : HeaderName) (ts : list (HeaderName * Template)) : list Template :=
  omap (fun p => if decide (p.1 = n) then Some p.2 else None) ts.

Lemma values_of_app n es os : values_of n (es ++ os) = values_of n es ++ values_of n os.
Proof. apply omap_app. Qed.

Lemma elem_of_values_of n v es : v ∈ values_of n es <-> (n, v) ∈ es.
Proof.
  unfold values_of. rewrite list_elem_of_omap. split.
  - intros ([n' v'] & Hin & Hv). cbn in Hv. case_decide as Hn; [|done]. cbn in Hn. by injection Hv as ->; subst n'.
  - intros Hin. exists (n, v). split; [done|]. cbn. by rewrite decide_True.
Qed.

Lemma values_of_cons n n' v es : values_of n ((n', v) :: es) = (if decide (n' = n) then [v] else []) ++ values_of n es.
Proof. unfold values_of. cbn. by destruct (decide (n' = n)). Qed.

Lemma values_of_filter n es (P : HeaderValue -> Prop) `{forall v, Decision (P v)} `{forall e, Decision (P e.2)} :
  values_of n (filter (fun e => P e.2) es) = filter P (values_of n es).
Proof.
  induction es as [|[n' v] es IH]; [done|]. rewrite (values_of_cons n n' v es), filter_app, <- IH.
  destruct (decide (P v)) as [Hp|Hp].
  - rewrite filter_cons_True by done. rewrite values_of_cons. destruct (decide (n' = n)); [by rewrite filter_cons_True by done|done].
  - rewrite filter_cons_False by done. destruct (decide (n' = n)); [by rewrite filter_cons_False by done|done].
Qed.

Lemma templates_of_omap n es :
  templates_of n (omap (fun e => (fun t => (e.1, t)) <$> header_template e.2) es) = omap header_template (values_of n es).
Proof.
  induction es as [|[n' v] es IH]; [done|]. unfold values_of, templates_of in *. cbn.
  destruct (header_template v) as [t|] eqn:E; cbn; destruct (decide (n' = n)) as [->|Hn]; cbn; rewrite ?E; cbn;
    rewrite ?decide_True, ?(decide_False _ _ Hn) by done; cbn; try (by rewrite IH); try exact IH.
Qed.

Lemma get_all_fold n es m : map_get_all n (fold_left (fun m e => map_append e.1 e.2 m) es m) = map_get_all n m ++ values_of n es.
Proof.
  revert m. induction es as [|[n' v] es IH]; intros m; cbn [fold_left]; [by rewrite app_nil_r|]. rewrite IH, get_all_append, <- app_assoc.
  f_equal. unfold values_of. cbn. by case_decide.
Qed.

Lemma get_all_made n es : map_get_all n (fold_left (fun m e => map_append e.1 e.2 m) es map_new) = values_of n es.
Proof. by rewrite get_all_fold, get_all_new. Qed.

(** An entry and its text on the wire. *)
Definition wires e (w : string * string) : Prop :=
  exists t, value_text e.2 = Some t /\ trim t = t /\ w = (name_text e.1, t).

Lemma header_appends e w b : wires e w -> header w.1 w.2 b = b <| lb_headers ::= map_append e.1 e.2 |>.
Proof.
  intros (t & Hv & Ht & ->). unfold header. cbn [fst snd]. rewrite name_trimmed, name_again, Ht. by rewrite (value_again _ _ Hv).
Qed.

Lemma headers_append es ws b : Forall2 wires es ws ->
  fold_left (fun b w => header w.1 w.2 b) ws b = b <| lb_headers := fold_left (fun m e => map_append e.1 e.2 m) es (lb_headers b) |>.
Proof.
  intros Hw. revert b. induction Hw as [|e w es ws He _ IH]; intros b; cbn [fold_left]; [by destruct b|].
  rewrite (header_appends e w b He), IH. by destruct b.
Qed.

Lemma split_headers_accepts now_ms data entries acc :
  Forall (fun e => forall template, header_template e.2 = Some template ->
    check_data template data = Ok tt /\ check_header_rows now_ms e.1 template data = Ok tt) entries ->
  exists r, split_headers_from now_ms data acc entries = Ok r.
Proof.
  intros Hall. revert acc. induction Hall as [|[n v] entries Hv _ IH]; intros [fixed templates]; [by eexists|]. cbn [split_headers_from].
  unfold split_header_step. cbn [fst snd]. destruct (header_template v) as [template|] eqn:E; [|apply IH].
  destruct (Hv template E) as [Hd Hr]. cbn [fst snd] in Hd, Hr. rewrite Hd. cbn [result_bind result_map_err]. rewrite Hr. apply IH.
Qed.

End Headers.

(** ** An agent accepts what it is sent *)

Section Agent.
Context `{LibsLaws, Formatter}.

Lemma socketio_again mode u o sio : socketio_compile mode u o = Ok (Some sio) -> web_scheme (url_scheme u) ->
  let url := socketio_url u (so_engine sio) in
  mode = SocketIo /\ socketio_url url (so_engine sio) = url /\ web_scheme (url_scheme url) /\
  socketio_compile SocketIo url (mkSocketIoOptions (Some (so_event sio)) (Some (so_namespace sio)) (tp_source <$> so_auth sio)
    (Some (wire_version (so_engine sio)))) = Ok (Some sio).
Proof.
  intros Hc Hweb url. apply socketio_compile_Ok in Hc as (-> & Hv & Hu & Hauth).
  destruct (socketio_url_settled u (so_engine sio) Hweb Hu) as (Hu' & Hurl & Hsch). fold url in Hu', Hurl, Hsch.
  split_and!; [done|done|by rewrite Hsch|]. unfold socketio_compile. rewrite bool_decide_true by done. cbn [negb sp_version sp_namespace sp_event sp_auth default from_option id]. cbv zeta. unfold id.
  assert (from_version (wire_version (so_engine sio)) = Some (so_engine sio)) as -> by (by destruct (so_engine sio)).
  rewrite Hu'. cbn [result_map_err result_bind].
  assert (mkSocketIoConfig (so_namespace sio) (so_event sio) (parse <$> (tp_source <$> so_auth sio)) (so_engine sio) = sio) as ->.
  { destruct sio as [ns event [auth|] engine]; [|done]. cbn in *. by rewrite <- (Hauth auth). }
  by rewrite Hv.
Qed.

Lemma graphql_again mode o g : validate_graphql mode o = Ok (Some g) ->
  mode = GraphQLWS /\ validate_graphql mode (mkGraphQLOptions (Some (gc_operation g)) (gc_operation_name g) (gc_variables g) (gc_extensions g))
    = Ok (Some g).
Proof.
  intros (-> & Ht & Ho & Hn & Hv & He & Hc)%validate_graphql_Ok. split; [done|]. unfold validate_graphql.
  rewrite bool_decide_true by done. cbn [negb go_operation mbind option_bind]. rewrite decide_False by done.
  destruct o as [op name vars ext]. cbn in *. subst. unfold check_objects in *. cbn [go_variables go_extensions] in *.
  rewrite Hc. by destruct g.
Qed.

Lemma expect_again spec mode check : parse_expect spec mode = Ok (Some check) ->
  parse_expect (Some (check_flag_value check)) mode = Ok (Some check).
Proof.
  intros He. destruct (parse_expect_Ok _ _ _ He check eq_refl) as (Ha & _ & s & _ & Hp).
  unfold parse_expect. destruct (check_again s check Hp) as [_ ->]. cbn. by rewrite Ha.
Qed.

Lemma render_clock now now' t values : now = now' \/ Timestamp ∉ tp_parts t -> render now t values = render now' t values.
Proof.
  intros [->|Ht]; [done|]. unfold render. f_equal. apply list_fmap_ext. intros i p Hp. destruct p; try done.
  by apply list_elem_of_lookup_2 in Hp.
Qed.

Lemma auth_again now now' auth data data' : same_rows data data' -> now = now' \/ Timestamp ∉ tp_parts auth ->
  check_auth now auth data = Ok tt -> check_auth now' auth data' = Ok tt.
Proof.
  intros Hd Ht. unfold check_auth. destruct (negb (is_dynamic auth)); [done|]. rewrite (same_rows_check _ _ _ Hd).
  destruct (check_data auth data') as [[]|]; cbn [result_map_err result_bind]; [|done]. intros (us & Hus & _)%result_bind_Ok.
  apply result_bind_Ok. exists us. split; [|done]. apply result_collect_Ok in Hus. apply result_collect_Ok.
  rewrite <- (same_rows_count _ _ Hd). eapply Forall2_impl; [exact Hus|]. intros row [].
  cbn beta zeta. rewrite <- (same_rows_render now' _ _ _ _ Hd), <- (render_clock now now' auth) by done.
  by destruct (is_json_object _).
Qed.

Lemma header_rows_again now now' n template data data' : same_rows data data' -> now = now' \/ Timestamp ∉ tp_parts template ->
  check_header_rows now n template data = Ok tt -> check_header_rows now' n template data' = Ok tt.
Proof.
  intros Hd Ht. rewrite !check_header_rows_Ok, (same_rows_count _ _ Hd). intros Hall row Hrow.
  rewrite <- (same_rows_render now' _ _ _ _ Hd), <- (render_clock now now' template) by done. by apply Hall.
Qed.

Lemma same_share data index agents : same_rows data ((fun d => with_share index agents (d <| ds_share := None |>)) <$> data).
Proof. by destruct data as [[]|]. Qed.

(** Header values that do not change when the agent trims them. *)
Definition trimmed (es : list (HeaderName * HeaderValue)) : Prop :=
  Forall (fun e => forall t, value_text e.2 = Some t -> trim t = t) es.

Lemma trimmed_check es :
  forallb (fun e => match value_text e.2 with Some t => bool_decide (trim t = t) | None => true end) es = true -> trimmed es.
Proof.
  intros Hb. apply Forall_forall. intros e Hin t Ht. rewrite forallb_forall in Hb. apply list_elem_of_In in Hin. specialize (Hb e Hin).
  rewrite Ht in Hb. by apply bool_decide_eq_true in Hb.
Qed.

Lemma Forall2_Forall_conj {A B} (P : A -> Prop) (R : A -> B -> Prop) l k : Forall P l -> Forall2 R l k -> Forall2 (fun x y => P x /\ R x y) l k.
Proof. intros Hp Hr. induction Hr; [constructor|]. apply Forall_cons in Hp as [? ?]. by constructor; [|apply IHHr]. Qed.

Lemma fixed_wires es ws : trimmed es ->
  result_collect (fun e => match value_text e.2 with Some value => Ok (name_text e.1, value) | None => Err (not_ascii e.1) end) es = Ok ws ->
  Forall2 wires es ws.
Proof.
  intros Ht Hws%result_collect_Ok. eapply Forall2_impl; [exact (Forall2_Forall_conj _ _ _ _ Ht Hws)|].
  intros [n v] w [Htrim Hw]. cbn in *. destruct (value_text v) as [t|] eqn:E; [|done]. injection Hw as <-. exists t. by split_and!; [|apply Htrim|].
Qed.

Lemma template_wires os : trimmed os ->
  Forall2 wires (filter (fun e => header_template e.2 <> None) os)
    ((fun e => (name_text e.1, tp_source e.2)) <$> omap (fun e => (fun t => (e.1, t)) <$> header_template e.2) os).
Proof.
  intros Ht. induction Ht as [|[n v] os Htrim _ IH]; [constructor|]. cbn [omap list_omap fst snd].
  destruct (header_template v) as [t|] eqn:E.
  - rewrite filter_cons_True by (cbn; congruence). cbn. constructor; [|exact IH].
    apply header_template_Some in E as (_ & _ & Hv). exists (tp_source t). by split_and!; [|apply Htrim|].
  - rewrite filter_cons_False by (cbn; by rewrite E; auto). exact IH.
Qed.

Lemma omap_filter_values (vs : list HeaderValue) :
  omap header_template (filter (fun v => header_template v <> None) vs) = omap header_template vs.
Proof.
  induction vs as [|v vs IH]; [done|]. destruct (header_template v) as [t|] eqn:E.
  - rewrite filter_cons_True by (by rewrite E). cbn. rewrite E. cbn. by rewrite IH.
  - rewrite filter_cons_False by (rewrite E; auto). cbn. by rewrite E.
Qed.

Lemma omap_fixed_values (vs : list HeaderValue) : omap header_template (filter (fun v => header_template v = None) vs) = [].
Proof.
  induction vs as [|v vs IH]; [done|]. rewrite filter_cons. case_decide as E; [|done]. cbn. by rewrite E.
Qed.

Lemma filter_twice {A} (P Q : A -> Prop) `{forall a, Decision (P a)} `{forall a, Decision (Q a)} (l : list A) :
  (forall a, P a -> Q a) -> filter Q (filter P l) = filter P l.
Proof. intros Hpq. rewrite list_filter_filter. apply list_filter_iff. intros a. split; [by intros []|]. intros ?. split; [by apply Hpq|done]. Qed.

Lemma filter_none {A} (P Q : A -> Prop) `{forall a, Decision (P a)} `{forall a, Decision (Q a)} (l : list A) :
  (forall a, P a -> ~ Q a) -> filter Q (filter P l) = [].
Proof.
  intros Hpq. induction l as [|a l IH]; [done|]. rewrite (filter_cons P). case_decide; [|done].
  rewrite filter_cons_False by by apply Hpq. exact IH.
Qed.

(** The coordinator's headers and templates, and the entries they came from. *)
Lemma split_by_name now data m fixed templates : split_header_templates now m data = Ok (fixed, templates) ->
  (forall n, map_get_all n fixed = filter (fun v => header_template v = None) (values_of n (map_iter m))) /\
  templates = omap (fun e => (fun t => (e.1, t)) <$> header_template e.2) (map_iter m) /\
  Forall (fun e => forall template, header_template e.2 = Some template ->
    check_data template data = Ok tt /\ check_header_rows now e.1 template data = Ok tt) (map_iter m).
Proof.
  unfold split_header_templates. rewrite iter_named. intros Hs. destruct (split_headers_spec _ _ _ _ _ _ Hs) as (Hf & Ht & Hall).
  cbn in Hf, Ht. split_and!; [|exact Ht|exact Hall]. intros n. rewrite Hf, get_all_made.
  by rewrite (values_of_filter n (map_iter m) (fun v => header_template v = None)).
Qed.

Lemma fixed_entries m fixed n v : (forall n, map_get_all n fixed = filter (fun v => header_template v = None) (values_of n (map_iter m))) ->
  (n, v) ∈ map_iter fixed -> (n, v) ∈ map_iter m /\ header_template v = None.
Proof.
  intros Hf Hin. apply elem_of_values_of in Hin. rewrite <- get_all_iter, Hf in Hin. apply list_elem_of_filter in Hin as [Hn Hin].
  by apply elem_of_values_of in Hin.
Qed.

(** What the agent's map is made of, in the order it is sent. *)
Definition agent_entries (m fixed : HeaderMap) : list (HeaderName * HeaderValue) :=
  map_iter fixed ++ filter (fun e => header_template e.2 <> None) (map_iter m).

Lemma agent_values n m fixed : (forall n, map_get_all n fixed = filter (fun v => header_template v = None) (values_of n (map_iter m))) ->
  values_of n (agent_entries m fixed) = map_get_all n fixed ++ filter (fun v => header_template v <> None) (values_of n (map_iter m)).
Proof.
  intros Hf. unfold agent_entries. rewrite values_of_app, <- get_all_iter. f_equal.
  by rewrite (values_of_filter n (map_iter m) (fun v => header_template v <> None)).
Qed.

Lemma headers_again now now' data data' m fixed templates fs (b : LoadTestConfigBuilder) :
  split_header_templates now m data = Ok (fixed, templates) -> same_rows data data' ->
  Forall (fun e : HeaderName * Template => now = now' \/ Timestamp ∉ tp_parts e.2) templates -> trimmed (map_iter m) ->
  result_collect (fun e => match value_text e.2 with Some value => Ok (name_text e.1, value) | None => Err (not_ascii e.1) end)
    (map_iter fixed) = Ok fs -> lb_headers b = map_new ->
  exists m' fixed' templates',
    fold_left (fun b w => header w.1 w.2 b) (fs ++ ((fun e => (name_text e.1, tp_source e.2)) <$> templates)) b = b <| lb_headers := m' |> /\
    split_header_templates now' m' data' = Ok (fixed', templates') /\
    forall n, map_get_all n fixed' = map_get_all n fixed /\ templates_of n templates' = templates_of n templates.
Proof.
  intros Hs Hd Hclock Htrim Hfs Hb. destruct (split_by_name _ _ _ _ _ Hs) as (Hf & -> & Hall).
  set (es := agent_entries m fixed). exists (fold_left (fun m e => map_append e.1 e.2 m) es map_new).
  assert (trimmed (map_iter fixed)) as Htf.
  { apply Forall_forall. intros [n v] Hin. apply (fixed_entries m) in Hin as [Hin _]; [|done]. by apply (proj1 (Forall_forall _ _) Htrim (n, v)). }
  assert (Hm : forall n, values_of n (map_iter (fold_left (fun m e => map_append e.1 e.2 m) es map_new)) = values_of n es)
    by (intros n; by rewrite <- get_all_iter, get_all_made).
  destruct (split_headers_accepts now' data' (map_iter (fold_left (fun m e => map_append e.1 e.2 m) es map_new)) (map_new, [])) as [[fixed' templates'] Hr].
  { apply Forall_forall. intros [n v] Hin template Ht. apply elem_of_values_of in Hin. rewrite Hm in Hin. apply elem_of_values_of in Hin.
    assert ((n, v) ∈ map_iter m) as Hin'.
    { unfold es, agent_entries in Hin. apply elem_of_app in Hin as [Hin|Hin]; [by apply (fixed_entries m) in Hin as [? _]|].
      by apply list_elem_of_filter in Hin as [_ ?]. }
    rewrite Forall_forall in Hall. destruct (Hall (n, v) Hin' template Ht) as [Hc Hrows]. rewrite (same_rows_check _ _ _ Hd) in Hc. split; [done|].
    eapply header_rows_again; [exact Hd| |exact Hrows]. rewrite Forall_forall in Hclock. apply (Hclock (n, template)).
    apply list_elem_of_omap. exists (n, v). cbn in *. by rewrite Ht. }
  exists fixed', templates'. split_and!.
  - rewrite (headers_append es); [by rewrite Hb|]. apply Forall2_app; [by apply fixed_wires|by apply template_wires].
  - unfold split_header_templates. by rewrite iter_named.
  - intros n. assert (split_header_templates now' (fold_left (fun m e => map_append e.1 e.2 m) es map_new) data' = Ok (fixed', templates')) as Hs'
      by (unfold split_header_templates; by rewrite iter_named).
    destruct (split_by_name _ _ _ _ _ Hs') as (Hf' & -> & _). rewrite Hf', !templates_of_omap, Hm. unfold es.
    rewrite (agent_values n m fixed Hf), (Hf n), filter_app, omap_app, omap_fixed_values, omap_filter_values. split; [|done].
    rewrite filter_twice by done. rewrite (filter_none _ _ (values_of n (map_iter m))) by (intros v Hv; by apply Hv). apply app_nil_r.
Qed.

Lemma into_load_parts fmt w l share data : into_load fmt w = Some (Ok (l, share, data)) ->
  exists l1, into_data (wl_data w) = Ok data /\ build_load fmt (wl_load w) = Some (Ok l1) /\
    take_stage_share (wl_stage_share w) l1 = Ok l /\ ld_connections l <> 0 /\ share = wl_stage_share w.
Proof.
  unfold into_load. destruct (into_data (wl_data w)) as [d|]; [|done]. destruct (build_load fmt (wl_load w)) as [[l1|]|]; cbn; [|done..].
  destruct (take_stage_share (wl_stage_share w) l1) as [l2|] eqn:E; cbn; [|done]. destruct (Z.eqb_spec (ld_connections l2) 0); [done|].
  intros [= <- <- <-]. by exists l1.
Qed.

(** The templates a handshake fills in. *)
Definition handshake_templates (c : RunConfig) : list Template :=
  (snd <$> rc_header_templates c) ++ match (sio ← rc_socketio c; so_auth sio) with Some auth => [auth] | None => [] end.

(** What agent number [index] is to run of [c]: its part of the load and the
    data, faults of its own, and none of what stays on the coordinator. *)
Definition agent_config (c : RunConfig) (agents index : Z) : RunConfig :=
  let l := rc_load c in
  c <| rc_load := l <| ld_connections := share_of (mkShare index agents) (ld_connections l) |>
         <| ld_ramp_rate := split (ld_ramp_rate l) index agents |>
         <| ld_max_requests := (fun r => split r index agents) <$> ld_max_requests l |> |>
    <| rc_stage_share := match ld_stages l with [] => None | _ => Some (mkShare index agents) end |>
    <| rc_data := (fun d => with_share index agents (d <| ds_share := None |>)) <$> rc_data c |>
    <| rc_chaos := (fun chaos => chaos <| cx_seed := Some (agent_seed (default 0 (cx_seed chaos)) index) |>) <$> rc_chaos c |>
    <| rc_slo := no_slo |> <| rc_output_format := OutText |> <| rc_no_progress := true |> <| rc_capture := None |>.

(** The configuration up to the order of header names, which neither a header
    map nor the code fixes. *)
Definition same_run (c c' : RunConfig) : Prop :=
  c' = c <| rc_headers := rc_headers c' |> <| rc_header_templates := rc_header_templates c' |> /\
  forall n, map_get_all n (rc_headers c') = map_get_all n (rc_headers c) /\
            templates_of n (rc_header_templates c') = templates_of n (rc_header_templates c).

(** The builder the agent fills, once its headers are in a map. *)
Lemma agent_builder_headers (w : WireConfig) mode rule payload data m' :
  fold_left (fun b e => header e.1 e.2 b) (wc_headers w) (agent_settings w mode rule payload) =
    (agent_settings w mode rule payload) <| lb_headers := m' |> ->
  agent_builder w mode rule payload data =
    mkBuilder (wc_target w) (wc_load w) (wc_rate_per_conn w) payload m' None (Loaded <$> data) (wc_subprotocol w) [] (wc_compression w) mode
      (wc_connect_timeout w) (wc_message_timeout w) (wc_ping_interval w)
      match wc_graphql w with
      | Some g => mkGraphQLOptions (Some (wg_operation g)) (wg_operation_name g) (wg_variables g) (wg_extensions g)
      | None => mkGraphQLOptions None None None None
      end
      match wc_socketio w with
      | Some sio => mkSocketIoOptions (Some (wk_event sio)) (Some (wk_namespace sio)) (wk_auth sio) (Some (wk_version sio))
      | None => mkSocketIoOptions None None None None
      end no_slo OutText false (wc_reconnect w) rule (check_flag_value <$> wc_expect w) None DEFAULT_CAPTURE_LIMIT None.
Proof. intros Hm. unfold agent_builder. rewrite Hm. by destruct (wc_graphql w), (wc_socketio w). Qed.

(** The fields of a built configuration that its builder gives. *)
Lemma built_values env b u load c : built env b u load c ->
  rc_mode c = lb_mode b /\ rc_payload c = lb_payload b /\ rc_load c = load /\ rc_reply_match c = lb_reply_match b /\
  rc_rate_per_conn c = lb_rate_per_conn b /\ rc_no_reconnect c = negb (lb_reconnect b) /\
  rc_target_url c = match rc_socketio c with Some sio => socketio_url u (so_engine sio) | None => u end.
Proof. intros Hb. by rewrite (built_fields _ _ _ _ _ Hb). Qed.

(** The agent's [build], from the coordinator's. *)
Lemma agent_built env env' b u load c (w : WireConfig) l1 data' m' fixed' templates' :
  web_scheme (url_scheme u) -> built env b u load c -> same_rows (rc_data c) data' ->
  Forall (fun t => be_now_ms env = be_now_ms env' \/ Timestamp ∉ tp_parts t) (handshake_templates c) ->
  split_header_templates (be_now_ms env') m' data' = Ok (fixed', templates') ->
  wc_expect w = rc_expect c ->
  wc_graphql w = (fun g => mkWireGraphql (gc_operation g) (gc_operation_name g) (gc_variables g) (gc_extensions g)) <$> rc_graphql_ws c ->
  wc_socketio w = (fun sio => mkWireSocketIo (so_namespace sio) (so_event sio) (tp_source <$> so_auth sio) (wire_version (so_engine sio)))
       <$> rc_socketio c ->
  fold_left (fun b e => header e.1 e.2 b) (wc_headers w) (agent_settings w (rc_mode c) (rc_reply_match c) (rc_payload c)) =
    (agent_settings w (rc_mode c) (rc_reply_match c) (rc_payload c)) <| lb_headers := m' |> ->
  built env' (agent_builder w (rc_mode c) (rc_reply_match c) (rc_payload c) data') (rc_target_url c) l1
    (mkRunConfig (rc_target_url c) l1 (wc_rate_per_conn w) (rc_payload c) fixed' templates' data' (wc_subprotocol w) []
      (wc_compression w) (rc_mode c) (wc_connect_timeout w) (wc_message_timeout w) (wc_ping_interval w) None (rc_graphql_ws c)
      (rc_socketio c) no_slo OutText true (negb (wc_reconnect w)) (rc_reply_match c) (rc_expect c) None None None).
Proof.
  intros Hweb Hb Hrows Hclock Hsplit He Hg Hs Hm. rewrite (agent_builder_headers _ _ _ _ _ m' Hm).
  destruct (built_values _ _ _ _ _ Hb) as (Emode & Epay & _ & Erule & _ & _ & Eurl). destruct Hb as [Hp Hgr Hsio Hrep _ _ _ Hpay _ Hauth _ Hexp _ _].
  rewrite Hg, Hs, He. constructor; cbn -[check_payload validate_slo parse_expect validate_reply_match]; try done.
  - by rewrite Erule.
  - rewrite Emode. destruct (rc_graphql_ws c) as [g|]; cbn; [by apply graphql_again in Hgr as [_ ->]|].
    apply validate_graphql_Ok in Hgr. unfold validate_graphql. by rewrite bool_decide_false.
  - rewrite Emode, Eurl. destruct (rc_socketio c) as [sio|]; cbn; [by destruct (socketio_again _ _ _ _ Hsio Hweb) as (-> & _ & _ & ->)|].
    apply socketio_compile_Ok in Hsio. unfold socketio_compile. by rewrite bool_decide_false.
  - by rewrite Erule, Emode, Epay.
  - by destruct data'.
  - unfold check_payload in *. rewrite Epay. destruct (payload_template (lb_payload b)); [|done]. by rewrite <- (same_rows_check _ _ _ Hrows).
  - intros sio auth Hsc Ha. apply (auth_again (be_now_ms env) _ _ (rc_data c)); [done| |by apply (Hauth sio)].
    rewrite Forall_forall in Hclock. apply Hclock. unfold handshake_templates. rewrite Hsc. cbn. rewrite Ha. apply elem_of_app. right. by apply list_elem_of_singleton.
  - rewrite Emode. destruct (rc_expect c) as [check|] eqn:E; [|done]. by apply (expect_again (lb_expect b)).
  - f_equal. rewrite Eurl. destruct (rc_socketio c) as [sio|]; [|done]. by destruct (socketio_again _ _ _ _ Hsio Hweb) as (_ & -> & _).
Qed.

(** [finish_config] gives back the authentication header and the faults. *)
Lemma finish_accepts (w : WireConfig) mode c live chaos load :
  wc_live_auth w = (fun e => mkWireHeader (name_text e.1) e.2) <$> live ->
  (forall n t, live = Some (n, t) -> is_Some (header_value t)) ->
  (forall ch, chaos = Some ch -> exists wh, wc_chaos w = Some wh /\ chaos_into_config wh mode (scripted w) = Ok ch) ->
  (chaos = None -> wc_chaos w = None /\ rc_chaos c = None) -> rc_live_auth c = None ->
  take_stage_share (wc_stage_share w) (rc_load c) = Ok load -> ld_connections load <> 0 ->
  finish_config w mode c = Ok (c <| rc_live_auth := '(n, t) ← live; v ← header_value t; Some (n, v) |> <| rc_chaos := chaos |>
    <| rc_load := load |> <| rc_stage_share := wc_stage_share w |>).
Proof.
  intros Hl Hv Hc Hn Hlive Ht Hne. unfold finish_config. rewrite Hl.
  assert ((match (fun e : HeaderName * string => mkWireHeader (name_text e.1) e.2) <$> live with
           | Some header => let? live := header_parse header in Ok (Some live)
           | None => Ok (rc_live_auth c)
           end) = Ok (E := WsBlastError) ('(n, t) ← live; v ← header_value t; Some (n, v))) as ->.
  { destruct live as [[n t]|]; [|by rewrite Hlive]. cbn. unfold header_parse. cbn [wr_name wr_value]. rewrite name_again. unfold sensitive_value.
    by destruct (Hv n t eq_refl) as [v ->]. }
  cbn [result_bind].
  assert ((match wc_chaos w with
           | Some chaos => let? chaos := chaos_into_config chaos mode (scripted w) in Ok (Some chaos)
           | None => Ok (rc_chaos c)
           end) = Ok chaos) as ->.
  { destruct chaos as [ch|]; [by destruct (Hc ch eq_refl) as (wh & -> & ->)|]. by destruct (Hn eq_refl) as [-> ->]. }
  cbn [result_bind]. rewrite Ht. cbn [result_bind]. by rewrite (proj2 (Z.eqb_neq _ _) Hne).
Qed.

(** What [from_config] sends. *)
Lemma from_config_Ok c base : from_config c = Ok base -> exists fs live,
  result_collect (fun e => match value_text e.2 with Some value => Ok (name_text e.1, value) | None => Err (not_ascii e.1) end)
    (map_iter (rc_headers c)) = Ok fs /\
  rc_live_auth c = ('(n, t) ← live; v ← header_value t; Some (n, v)) /\ (forall n t, live = Some (n, t) -> is_Some (header_value t)) /\
  base = mkWireConfig (url_text (rc_target_url c)) (mode_name (rc_mode c)) (rc_load c) None (rc_rate_per_conn c)
    (wire_payload (rc_payload c)) (fs ++ ((fun e => (name_text e.1, tp_source e.2)) <$> rc_header_templates c)) (rc_subprotocol c)
    (rc_connect_timeout c) (rc_message_timeout c) (rc_ping_interval c)
    (ReplyMatch_flag_value (rc_reply_match c)) (rc_expect c) (negb (rc_no_reconnect c)) (rc_compression c)
    ((fun g => mkWireGraphql (gc_operation g) (gc_operation_name g) (gc_variables g) (gc_extensions g)) <$> rc_graphql_ws c)
    ((fun sio => mkWireSocketIo (so_namespace sio) (so_event sio) (tp_source <$> so_auth sio) (wire_version (so_engine sio)))
       <$> rc_socketio c)
    None None ((fun e => mkWireHeader (name_text e.1) e.2) <$> live) None (data_to_wire <$> rc_data c).
Proof.
  unfold from_config, wire_headers. intros (hs & Hh & Hr)%result_bind_Ok. apply result_bind_Ok in Hh as (fs & Hfs & [= <-]).
  apply result_bind_Ok in Hr as (live & Hl & [= <-]). exists fs. destruct (rc_live_auth c) as [[n v]|].
  - apply result_bind_Ok in Hl as (h & Hh & [= <-]). unfold wire_header in Hh. destruct (value_text v) as [t|] eqn:E; [|done].
    injection Hh as <-. pose proof (value_again _ _ E) as Ha. exists (Some (n, t)). split_and!; [done|cbn; by rewrite Ha| |done].
    intros ? ? [= <- <-]. by rewrite Ha.
  - injection Hl as <-. by exists None.
Qed.

Lemma chaos_consistent env b u load c chaos : built env b u load c -> rc_chaos c = Some chaos ->
  ChaosConfig_validate display_f64 chaos = Ok tt /\ (acts_on_sends chaos = true -> awaits_replies (rc_mode c) = true \/ rc_mode c = Stream).
Proof.
  intros Hb Hc. destruct (built_values _ _ _ _ _ Hb) as (Emode & _).
  destruct (build_chaos_Ok _ _ _ _ (built_chaos _ _ _ _ _ Hb) chaos Hc) as (c0 & _ & -> & _ & Hv & Hm).
  destruct (seeded_same (be_time_seed env) c0) as (_ & -> & ->). by rewrite Emode.
Qed.

Lemma plan_ips l ips data chaos agents shares : plan l ips data chaos agents = Ok shares -> ips = [].
Proof. unfold plan. destruct (agents =? 0); [done|]. by case_bool_decide. Qed.

(** C18. An agent runs what the coordinator was asked to run.  Let the builder
    make a configuration without an arrival rate, whose header values are
    trimmed (as the builder's [header] leaves them), and let it be divided
    between agents, with a refreshed credential or without.  Let the handshake
    be valid at the agent's clock too - the clocks agree, or no template of
    the handshake asks for the time - and let the [url] crate read back the
    target it prints.  Then every agent accepts its share whatever else the
    environments differ in, and what it runs is [agent_config]: the
    coordinator's configuration with the agent's part of the connections, of
    the requests, of the rows, of the ramp rate and, in a staged run, of every
    stage, a seed of its own for the faults, and the settings of the report
    (thresholds, output, progress, capture) at their defaults.  Everything
    else is the same: target, mode, payload, headers and templates of every
    name, timeouts, reply rule and check, GraphQL and Socket.IO settings,
    credential and faults. *)
Theorem agents_rebuild_the_run (env env' : BuildEnv) (b : LoadTestConfigBuilder) (c0 : RunConfig)
    (live : option (HeaderName * HeaderValue)) (agents : Z) (shares : list WireConfig)
    (Hbuilt : build_config env b = Some (Ok c0))
    (Harrivals : ld_arrivals (lb_load b) = None) (Hramp : 0 <= ld_ramp_rate (lb_load b))
    (Hpayload : made_payload (lb_payload b)) (Hdata : forall d, rc_data c0 = Some d -> well_formed d)
    (Htrimmed : trimmed (map_iter (lb_headers b)))
    (Hclock : Forall (fun t => be_now_ms env = be_now_ms env' \/ Timestamp ∉ tp_parts t) (handshake_templates c0))
    (Hurl : url_parse (url_text (rc_target_url c0)) = Ok (rc_target_url c0))
    (Hpos : 0 <= agents) (Hplan : plan_config (c0 <| rc_live_auth := live |>) agents = Ok shares) :
  forall index w, shares !! index = Some w ->
  exists c', into_config env' w = Some (Ok c') /\ same_run (agent_config (c0 <| rc_live_auth := live |>) agents (Z.of_nat index)) c'.
Proof.
  intros index w Hw. set (c := c0 <| rc_live_auth := live |>) in *. unfold plan_config in Hplan.
  apply result_bind_Ok in Hplan as (loads & Hloads & Hplan). apply result_bind_Ok in Hplan as (base & Hbase & [= <-]).
  rewrite list_lookup_fmap_Some in Hw. destruct Hw as (wl & -> & Hwl).
  apply build_Ok in Hbuilt as (u & load & Hu & Hl & Hb). apply parse_target_web in Hu.
  destruct (built_values _ _ _ _ _ Hb) as (Emode & Epay & Eload & Erule & Erate & Erec & Eurl).
  subst load. pose proof (Load.agents_accept_their_shares display_f64 (lb_load b) (rc_load c) (rc_source_ips c) (rc_data c) (rc_chaos c)
    agents loads Hramp Hl Harrivals Hdata Hpos Hloads index wl Hwl) as Hinto.
  apply into_load_parts in Hinto as (l1 & Hdata' & Hl1 & Hshare & Hne & Hsh).
  destruct (from_config_Ok _ _ Hbase) as (fs & lv & Hfs & Hlive & Hlv & ->).
  set (data' := _ <$> rc_data c) in Hdata'.
  assert (wl = agent_share (rc_load c) (rc_data c) (rc_chaos c) agents (Z.of_nat index)) as Hwle.
  { destruct (plan_Ok _ _ _ _ _ _ Hloads) as (Hws & _).
    rewrite Hws, list_lookup_fmap_Some in Hwl. destruct Hwl as (i & -> & Hi). by apply lookup_seq in Hi as [-> _]. }
  subst wl. set (w := with_wire_load _ _ _).
  pose proof (plan_ips _ _ _ _ _ _ Hloads) as Hips. assert (same_rows (rc_data c0) data') as Hrows by apply same_share.
  pose proof (built_headers _ _ _ _ _ Hb) as Hsplit.
  destruct (headers_again _ (be_now_ms env') _ data' _ _ _ fs (agent_settings w (rc_mode c0) (rc_reply_match c0) (rc_payload c0)) Hsplit Hrows)
    as (m' & fixed' & templates' & Hm & Hs' & Hsame); [|done|exact Hfs|done|].
  { apply Forall_app in Hclock as [Hclock _]. by rewrite Forall_fmap in Hclock. }
  pose proof (agent_built env env' b u (rc_load c0) c0 w l1 data' m' fixed' templates' Hu Hb Hrows Hclock Hs' eq_refl eq_refl eq_refl Hm) as Hb'.
  match type of Hb' with built _ _ _ _ ?x => set (c1 := x) in Hb' end.
  exists (c1 <| rc_live_auth := '(n, t) ← lv; v ← header_value t; Some (n, v) |>
    <| rc_chaos := rc_chaos (agent_config c agents (Z.of_nat index)) |> <| rc_load := rc_load (agent_config c agents (Z.of_nat index)) |>
    <| rc_stage_share := wc_stage_share w |>). split; [|split; [|exact Hsame]].
  - unfold into_config. change (wc_mode w) with (mode_name (rc_mode c0)). rewrite mode_back.
    change (wc_reply_match w) with (ReplyMatch_flag_value (rc_reply_match c0)). change (wc_payload w) with (wire_payload (rc_payload c0)).
    match type of Hdata' with into_data ?x = _ => change (wc_data w) with x end. rewrite rule_back, payload_back, Hdata'; [|by rewrite Epay|].
    2: { intros pointer Hp. pose proof (built_pointer _ _ _ _ _ Hb) as Hc. unfold check_match_pointer in Hc. rewrite <- Erule, Hp in Hc.
         by destruct (is_json_pointer pointer). }
    cbn [result_bind result_map_err]. rewrite (proj2 (build_Ok _ _ c1)).
    2: { exists (rc_target_url c0), l1. split; [|split; [|exact Hb']]; rewrite (agent_builder_headers _ _ _ _ _ m' Hm); [|exact Hl1].
         unfold parse_target_url. cbn [lb_target]. change (wc_target w) with (url_text (rc_target_url c0)). rewrite Hurl, decide_True; [done|].
         rewrite Eurl. destruct (rc_socketio c0) as [sio|] eqn:E; [|exact Hu].
         pose proof (built_socketio _ _ _ _ _ Hb) as Hs. rewrite E in Hs. by destruct (socketio_again _ _ _ _ Hs Hu) as (_ & _ & Hw & _). }
    cbn [mbind option_bind result_bind]. f_equal.
    apply finish_accepts.
    + done.
    + done.
    + intros ch Hch. cbn in Hch. destruct (rc_chaos c0) as [ch0|] eqn:E; [|done]. injection Hch as <-.
      destruct (chaos_consistent _ _ _ _ _ _ Hb E) as [Hv Hmode].
      exists (WireChaos_new ch0 (agent_seed (default 0 (cx_seed ch0)) (Z.of_nat index))). split; [|by apply chaos_back].
      unfold w, with_wire_load, agent_share. cbn. by rewrite E.
    + intros Hnone. assert (rc_chaos c0 = None) as E by (cbn in Hnone; by destruct (rc_chaos c0)). split; [|done].
      unfold w, with_wire_load. cbn. by rewrite E.
    + done.
    + exact Hshare.
    + exact Hne.
  - cbn in Hlive. rewrite <- Hlive. change (rc_source_ips c) with (rc_source_ips c0) in Hips. clear -Hips. unfold c1, w, data', c. clear c1 w data' c.
    destruct c0. cbn in Hips. subst. unfold agent_config, with_wire_load. cbn. by rewrite negb_involutive.
Qed.
End Agent.

(** Three agents share fifty connections and a hundred requests; the payload
    and a header are filled in from two rows, the run delays its sends and its
    credential is refreshed.  The agents' clock is another one. *)
Module SampleShare.
#[local] Existing Instance Sample.no_format.
#[local] Existing Instance PlainLibs.plain_libs.

Definition agent_env : BuildEnv := mkBuildEnv 1800000000000 9 (fun _ => Err "not asked"%string) (fun _ => (Err "no file"%string, Err "no file"%string)).
Definition builder : LoadTestConfigBuilder :=
  header "x-user" "{{data.user}}" (builder_new "ws://127.0.0.1:9001/feed")
    <| lb_load ::= fun l => l <| ld_max_requests := Some 100 |> |>
    <| lb_data := Some (Loaded Sample.rows) |> <| lb_payload := from_text "{{seq}} {{data.user}}" |>
    <| lb_reply_match := JsonPointer "/seq" |> <| lb_expect := Some "contains:ok"%string |>
    <| lb_chaos := Some (mkChaosConfig 5000000 0 f64_zero f64_zero f64_zero Graceful 0 0 None) |>.
Definition live : option (bool * PlainLibs.PlainValue) := v ← PlainLibs.plain_value "Bearer t0"; Some (true, v).
Definition shares : result (list WireConfig) WsBlastError :=
  match build_config Sample.env builder with
  | Some (Ok c) => plan_config (c <| rc_live_auth := live |>) 3
  | _ => fail (InvalidHeader "")
  end.
End SampleShare.
#[local] Existing Instance Sample.no_format.
#[local] Existing Instance PlainLibs.plain_libs.

Lemma ok_lookup {A E} (r : result (list A) E) (i : nat) : match r with Ok l => bool_decide (i < length l)%nat | _ => false end = true ->
  exists l a, r = Ok l /\ l !! i = Some a.
Proof.
  destruct r as [l|]; [|done]. intros Hi%bool_decide_eq_true. apply lookup_lt_is_Some_2 in Hi as [a Ha]. by exists l, a.
Qed.

Lemma agents_rebuild_the_run_witness : exists c0 shares w c',
  build_config Sample.env SampleShare.builder = Some (Ok c0) /\
  plan_config (c0 <| rc_live_auth := SampleShare.live |>) 3 = Ok shares /\ shares !! 1%nat = Some w /\
  into_config SampleShare.agent_env w = Some (Ok c') /\ same_run (agent_config (c0 <| rc_live_auth := SampleShare.live |>) 3 1) c'.
Proof.
  destruct (ok_exists (build_config Sample.env SampleShare.builder)) as [c0 E]; [vm_compute; reflexivity|].
  destruct (ok_lookup SampleShare.shares 1) as (shares & w & Hs & Hw); [vm_compute; reflexivity|].
  assert (match build_config Sample.env SampleShare.builder with
          | Some (Ok c) => rc_data c = Some Sample.rows /\ url_parse (url_text (rc_target_url c)) = Ok (rc_target_url c) /\
              forallb (fun t => negb (bool_decide (Timestamp ∈ tp_parts t))) (handshake_templates c) = true
          | _ => False
          end) as Hfacts by (vm_compute; auto).
  rewrite E in Hfacts. destruct Hfacts as (Hd & Hu & Ht). unfold SampleShare.shares in Hs. rewrite E in Hs.
  destruct (agents_rebuild_the_run (H0 := PlainLibs.plain_libs_laws) (H1 := Sample.no_format) Sample.env SampleShare.agent_env
    SampleShare.builder c0 SampleShare.live 3 shares E) with (index := 1%nat) (w := w) as (c' & Hc & Hsame).
  - reflexivity.
  - vm_compute; discriminate.
  - left. exists "{{seq}} {{data.user}}"%string. reflexivity.
  - intros d Hd'. rewrite Hd in Hd'. injection Hd' as <-. split; [done|]. repeat constructor.
  - apply trimmed_check. vm_compute. reflexivity.
  - apply Forall_forall. intros t Hin. right. intros Hts. rewrite forallb_forall in Ht. apply list_elem_of_In in Hin.
    specialize (Ht t Hin). by rewrite bool_decide_true in Ht.
  - exact Hu.
  - lia.
  - exact Hs.
  - exact Hw.
  - exists c0, shares, w, c'. exact (conj E (conj Hs (conj Hw (conj Hc Hsame)))).
Defined.
