(* ===== verification/Token.v ===== *)
(** * Who may use an agent (src/src/distributed/protocol.rs, agent.rs)

    The token a coordinator presents, how an agent checks it, and how the
    agent makes sure that one coordinator holds it at a time: every control
    connection is a step on the shared [busy] flag. *)

From Stdlib Require Import ZArith Lia Ascii String.
From stdpp Require Import base tactics strings numbers option gmap list.
From S2P Require Import Prelude Str Live.

Local Open Scope Z_scope.
Local Open Scope rust_scope.

(** ** Tokens *)

(** Every byte of [expected] is looked at, whatever was presented. *)
Definition token_diff (expected presented : list Z) : Z :=
  fold_left (fun diff e => let '(i, byte) := e in
      Z.lor diff (Z.lxor byte (default (255 - byte) (presented !! i))))
    (zip (seq 0 (length expected)) expected)
    (if bool_decide (length expected = length presented) then 0 else 1).
Definition tokens_match (expected presented : string) : bool :=
  token_diff (bytes_of_string expected) (bytes_of_string presented) =? 0.

Definition bearer_token (header : string) : option string :=
  '(scheme, token) ← split_once " " (trim header);
  if eq_ignore_ascii_case scheme "bearer" then
    let token := trim token in if decide (token = ""%string) then None else Some token
  else None.

Definition MIN_TOKEN_LEN : Z := 16.

(** [s.chars().count()]: the bytes that start a character. *)
Definition char_count (s : string) : Z :=
  Z.of_nat (length (filter (fun b => (b <? 128) || (192 <=? b) = true) (bytes_of_string s))).
(** The UTF-8 encodings of the control characters. *)
Definition control_chars : list string :=
  string_of_bytes <$>
    (((fun n => [Z.of_nat n]) <$> seq 0 32) ++ [[127]] ++ ((fun n => [194; Z.of_nat n]) <$> seq 128 32)).

Definition validate_token (token : string) : result unit WsBlastError :=
  if char_count token <? MIN_TOKEN_LEN then
    Err (ConfigFailure (InvalidOption ("the agent token must be at least " +:+ display_u64 MIN_TOKEN_LEN +:+
      " characters long; generate one with e.g. `openssl rand -hex 32`")%string))
  else if existsb (fun c => contains c token) (whitespace_chars ++ control_chars) then
    Err (ConfigFailure (InvalidOption "the agent token must not contain whitespace or control characters"))
  else Ok tt.

(** ** Control connections *)

Inductive Connection :=
| Handshaking (claimed : bool)
| Refused (status : Z)
| Testing
| Gone.

Record AgentShared := mkAgentShared { sh_token : string; sh_busy : bool }.
#[export] Instance AgentShared_eta : Settable AgentShared := fun s => mkAgentShared (sh_token s) (sh_busy s).

(** The token of the [Authorization] header as the agent reads it; a header
    that is missing or not visible ASCII counts as an empty token. *)
Definition presented_token (header : option string) : string := default ""%string (header ≫= bearer_token).

(** The handshake callback. *)
Definition authorize (header : option string) (s : AgentShared) : Connection * AgentShared :=
  if negb (tokens_match (sh_token s) (presented_token header)) then (Refused 401, s)
  else if sh_busy s then (Refused 409, s)
  else (Handshaking true, s <| sh_busy := true |>).

(** What happens to a control connection. *)
Inductive ControlEvent :=
| Accepted (id : nat)
| Upgrade (id : nat) (header : option string)
| HandshakeEnds (id : nat) (ok : bool)
| ShutsDown (id : nat)
| TestEnds (id : nat).

(** Dropping the guard, or clearing the flag by hand, of a connection that
    claimed the agent. *)
Definition release_claim (claimed : bool) (s : AgentShared) : AgentShared :=
  if claimed then s <| sh_busy := false |> else s.

(** One step; [None] when the connection is not at that point. *)
Definition control_step (e : ControlEvent) (st : AgentShared * gmap nat Connection) : option (AgentShared * gmap nat Connection) :=
  let (s, conns) := st in
  match e with
  | Accepted id => match conns !! id with None => Some (s, <[id := Handshaking false]> conns) | Some _ => None end
  | Upgrade id header =>
      match conns !! id with
      | Some (Handshaking false) => let (c, s) := authorize header s in Some (s, <[id := c]> conns)
      | _ => None
      end
  | HandshakeEnds id ok =>
      match conns !! id with
      | Some (Handshaking claimed) =>
          if ok then if claimed then Some (s, <[id := Testing]> conns) else None
          else Some (release_claim claimed s, <[id := Gone]> conns)
      | Some (Refused _) => if ok then None else Some (s, <[id := Gone]> conns)
      | _ => None
      end
  | ShutsDown id =>
      match conns !! id with
      | Some (Handshaking claimed) => Some (release_claim claimed s, <[id := Gone]> conns)
      | Some (Refused _) => Some (s, <[id := Gone]> conns)
      | _ => None
      end
  | TestEnds id => match conns !! id with Some Testing => Some (release_claim true s, <[id := Gone]> conns) | _ => None end
  end.

(** The agent from its start on. *)
Definition control_run (token : string) (events : list ControlEvent) : option (AgentShared * gmap nat Connection) :=
  foldl (fun st e => st ≫= control_step e) (Some (mkAgentShared token false, ∅)) events.

(** ** The token is compared as a whole *)

Lemma lor_zero a b : Z.lor a b = 0 <-> a = 0 /\ b = 0.
Proof. apply Z.lor_eq_0_iff. Qed.

Lemma token_diff_zero (expected presented : list Z) diff k :
  fold_left (fun diff e => let '(i, byte) := e in Z.lor diff (Z.lxor byte (default (255 - byte) (presented !! i))))
    (zip (seq k (length expected)) expected) diff = 0 <->
  diff = 0 /\ forall i byte, expected !! i = Some byte -> presented !! (k + i)%nat = Some byte.
Proof.
  revert diff k. induction expected as [|byte expected IH]; intros diff k.
  { cbn. split; [|by intros [? _]]. intros ->. split; [done|]. by intros i b. }
  change (zip (seq k (length (byte :: expected))) (byte :: expected)) with ((k, byte) :: zip (seq (S k) (length expected)) expected).
  cbn [fold_left]. rewrite IH, lor_zero, Z.lxor_eq_0_iff. split.
  - intros [[-> Hb] Hr]. split; [done|]. intros [|i] b Hi; cbn in Hi.
    + injection Hi as <-. rewrite Nat.add_0_r. destruct (presented !! k) as [p|]; cbn in Hb; [congruence|lia].
    + replace (k + S i)%nat with (S k + i)%nat by lia. by apply Hr.
  - intros [-> Hr]. split; [split; [done|]|].
    + specialize (Hr 0%nat byte eq_refl). rewrite Nat.add_0_r in Hr. by rewrite Hr.
    + intros i b Hi. replace (S k + i)%nat with (k + S i)%nat by lia. by apply Hr.
Qed.

Lemma tokens_match_spec expected presented : tokens_match expected presented = true <-> expected = presented.
Proof.
  unfold tokens_match, token_diff. rewrite Z.eqb_eq, token_diff_zero. split; [|intros ->; split; [by rewrite bool_decide_true|done]].
  intros [Hl Hb]. rewrite <- (string_of_bytes_of_string expected), <- (string_of_bytes_of_string presented). f_equal.
  case_bool_decide as Hlen; [|done]. apply list_eq_same_length with (length (bytes_of_string expected)); [done|done|].
  intros i x y _ Hx Hy. specialize (Hb i x Hx). cbn in Hb. congruence.
Qed.

(** *** A token survives its header *)

Lemma suffix_within (a b s w : string) :
  (a ++ b = s ++ w)%string -> (String.length w <= String.length b)%nat -> exists s', b = (s' ++ w)%string.
Proof.
  revert s. induction a as [|c a IH]; intros s Heq Hlen.
  - rewrite app_string_nil in Heq. by exists s.
  - destruct s as [|d s].
    + rewrite app_string_nil, app_string_cons in Heq. subst w. exfalso. cbn in Hlen. rewrite length_string_app in Hlen. lia.
    + rewrite !app_string_cons in Heq. injection Heq as _ Heq. by apply (IH s).
Qed.

(** What [validate_token] leaves: no whitespace, and longer than any
    whitespace character. *)
Definition clean (token : string) : Prop :=
  Forall (fun w => contains w token = false) whitespace_chars /\ (16 <= String.length token)%nat.

Lemma validate_token_clean token : validate_token token = Ok tt -> clean token.
Proof.
  unfold validate_token. destruct (Z.ltb_spec (char_count token) MIN_TOKEN_LEN) as [|Hlen]; [done|].
  destruct (existsb _ _) eqn:E; [done|]. intros _. split.
  - apply Forall_forall. intros w Hw. destruct (contains w token) eqn:Ew; [|done]. rewrite <- not_true_iff_false in E.
    destruct E. apply existsb_exists. exists w. split; [|done]. apply list_elem_of_In, elem_of_app. by left.
  - unfold char_count, MIN_TOKEN_LEN in Hlen. rewrite <- length_bytes_of_string.
    pose proof (length_filter (fun b => (b <? 128) || (192 <=? b) = true) (bytes_of_string token)). lia.
Qed.

Lemma whitespace_short w : w ∈ whitespace_chars -> (String.length w <= 3)%nat /\ w <> ""%string.
Proof.
  assert (Forall (fun w => (String.length w <= 3)%nat /\ w <> ""%string) whitespace_chars) as Hall by (vm_compute; repeat constructor; done || lia).
  rewrite Forall_forall in Hall. apply Hall.
Qed.

(** Trimming removes nothing from a text that starts with a word character,
    or with a clean token, and ends with a clean token. *)
Lemma trim_clean (a token : string) : clean token ->
  (a = ""%string \/ exists c s, a = String c s /\ is_word_byte (byte_of_ascii c) = true) ->
  trim (a +:+ token)%string = (a +:+ token)%string.
Proof.
  intros [Hc Hlen] Ha. rewrite Forall_forall in Hc. unfold trim, trim_start, trim_end.
  assert (Forall (fun w => strip_prefix w (a +:+ token)%string = None) whitespace_chars) as Hpre.
  { destruct Ha as [->|(c & s & -> & Hw)].
    - apply Forall_forall. intros w Hw. destruct (strip_prefix w ("" +:+ token)) as [s|] eqn:E; [|done].
      apply strip_prefix_Some in E. specialize (Hc w Hw). change (token = (w +:+ s)%string) in E. rewrite E, contains_prefix in Hc. done.
    - by apply strip_prefix_word. }
  assert (Forall (fun w => strip_suffix w (a +:+ token)%string = None) whitespace_chars) as Hsuf.
  { apply Forall_forall. intros w Hw. destruct (strip_suffix w (a +:+ token)) as [s|] eqn:E; [|done].
    apply strip_suffix_Some in E. destruct (whitespace_short w Hw) as [Hsh _].
    destruct (suffix_within a token s w E) as [s' Hs']; [lia|]. specialize (Hc w Hw). rewrite Hs', contains_suffix in Hc. done. }
  rewrite (trim_loop_id strip_prefix) by (by apply first_some_None). apply trim_loop_id. by apply first_some_None.
Qed.

Lemma bearer_of_clean token : clean token -> bearer_token ("Bearer " +:+ token)%string = Some token.
Proof.
  intros Hc. unfold bearer_token. rewrite (trim_clean "Bearer "%string); [|done|right; by eexists _, _].
  change (split_once " " ("Bearer " +:+ token)) with (Some ("Bearer"%string, token)). cbn [mbind option_bind].
  change (eq_ignore_ascii_case "Bearer" "bearer") with true. cbv iota.
  pose proof (trim_clean ""%string token Hc (or_introl eq_refl)) as Ht. change ("" +:+ token)%string with token in Ht. rewrite Ht. cbv zeta.
  rewrite decide_False; [done|]. intros ->. destruct Hc as [_ Hl]. cbn in Hl. lia.
Qed.

(** ** One coordinator at a time *)

(** The connection that holds the agent. *)
Definition holds_agent (c : Connection) : bool := match c with Handshaking claimed => claimed | Testing => true | _ => false end.

(** The flag is set exactly while one connection holds the agent. *)
Definition admission_ok (token : string) (st : AgentShared * gmap nat Connection) : Prop :=
  sh_token st.1 = token /\
  (if sh_busy st.1 then exists id c, st.2 !! id = Some c /\ holds_agent c = true /\
       forall id' c', st.2 !! id' = Some c' -> holds_agent c' = true -> id' = id
   else forall id c, st.2 !! id = Some c -> holds_agent c = false).

Lemma admission_quiet token s conns id c : admission_ok token (s, conns) ->
  (forall c0, conns !! id = Some c0 -> holds_agent c0 = false) -> holds_agent c = false -> admission_ok token (s, <[id := c]> conns).
Proof.
  intros [Ht Hb] Hold Hc. split; [done|]. cbn in *. destruct (sh_busy s).
  - destruct Hb as (id0 & c0 & Hi & Hh & Hu). exists id0, c0. split_and!; [|done|].
    + rewrite lookup_insert_ne; [done|]. intros ->. by rewrite (Hold c0 Hi) in Hh.
    + intros id' c' Hi' Hh'. destruct (decide (id' = id)) as [->|Hne].
      * rewrite lookup_insert_eq in Hi'. injection Hi' as <-. congruence.
      * rewrite lookup_insert_ne in Hi' by done. by apply (Hu id' c').
  - intros id' c' Hi'. destruct (decide (id' = id)) as [->|Hne].
    + rewrite lookup_insert_eq in Hi'. by injection Hi' as <-.
    + rewrite lookup_insert_ne in Hi' by done. by apply (Hb id').
Qed.

Lemma admission_release token s conns id c : admission_ok token (s, conns) -> conns !! id = Some c ->
  admission_ok token (release_claim (holds_agent c) s, <[id := Gone]> conns).
Proof.
  intros Hok Hi. destruct (holds_agent c) eqn:Hh; cbn [release_claim].
  - destruct Hok as [Ht Hb]. split; [done|]. cbn in *. destruct (sh_busy s).
    + destruct Hb as (id0 & c0 & Hi0 & Hh0 & Hu). assert (id = id0) as -> by (by apply (Hu id c)).
      intros id' c' Hi'. destruct (decide (id' = id0)) as [->|Hne]; [rewrite lookup_insert_eq in Hi'; by injection Hi' as <-|].
      rewrite lookup_insert_ne in Hi' by done. destruct (holds_agent c') eqn:E; [|done]. destruct Hne. by apply (Hu id' c').
    + by rewrite (Hb id c Hi) in Hh.
  - apply admission_quiet; [done| |done]. intros c0 Hi0. congruence.
Qed.

Lemma control_step_ok token e st st' : admission_ok token st -> control_step e st = Some st' -> admission_ok token st'.
Proof.
  destruct st as [s conns]. intros Hok Hs. destruct e as [id|id header|id ok|id|id]; cbn in Hs.
  - destruct (conns !! id) eqn:E; [done|]. injection Hs as <-. apply admission_quiet; [done| |done]. intros c0 Hi. congruence.
  - destruct (conns !! id) as [[[]| | |]|] eqn:E; try done. unfold authorize in Hs.
    destruct (negb _); [|destruct (sh_busy s) eqn:Eb]; cbn in Hs; injection Hs as <-;
      try (apply admission_quiet; [done| |done]; intros c0 Hi; by rewrite E in Hi; injection Hi as <-).
    destruct Hok as [Ht Hb]. split; [done|]. cbn in *. rewrite Eb in Hb. exists id, (Handshaking true).
    split_and!; [by rewrite lookup_insert_eq|done|]. intros id' c' Hi' Hh'. destruct (decide (id' = id)) as [|Hne]; [done|].
    rewrite lookup_insert_ne in Hi' by done. by rewrite (Hb id' c' Hi') in Hh'.
  - destruct (conns !! id) as [[claimed|status| |]|] eqn:E; try done.
    + destruct ok; [destruct claimed; [|done]|]; injection Hs as <-; [|by apply (admission_release token s conns id (Handshaking claimed))].
      destruct Hok as [Ht Hb]. split; [done|]. cbn in *. destruct (sh_busy s).
      * destruct Hb as (id0 & c0 & Hi0 & Hh0 & Hu). assert (id = id0) as -> by (by apply (Hu id _ E)).
        exists id0, Testing. split_and!; [by rewrite lookup_insert_eq|done|]. intros id' c' Hi' Hh'.
        destruct (decide (id' = id0)) as [|Hne]; [done|]. rewrite lookup_insert_ne in Hi' by done. by apply (Hu id' c').
      * specialize (Hb id _ E). done.
    + destruct ok; [done|]. injection Hs as <-. by apply (admission_release token s conns id (Refused status)).
  - destruct (conns !! id) as [[claimed|status| |]|] eqn:E; try done; injection Hs as <-.
    + by apply (admission_release token s conns id (Handshaking claimed)).
    + by apply (admission_release token s conns id (Refused status)).
  - destruct (conns !! id) as [[claimed|status| |]|] eqn:E; try done; injection Hs as <-.
    by apply (admission_release token s conns id Testing).
Qed.

Lemma control_run_ok token events st : control_run token events = Some st -> admission_ok token st.
Proof.
  unfold control_run. assert (admission_ok token (mkAgentShared token false, ∅)) as Hinit.
  { split; [done|]. intros id c Hi. cbn in Hi. by rewrite lookup_empty in Hi. }
  revert Hinit. generalize (mkAgentShared token false, ∅ : gmap nat Connection). induction events as [|e events IH]; intros st0 Hok Hrun.
  { by injection Hrun as <-. }
  cbn in Hrun. destruct (control_step e st0) as [st1|] eqn:E; cbn in Hrun.
  - apply (IH st1); [by eapply control_step_ok|done].
  - exfalso. clear - Hrun. induction events as [|e events IH]; [done|]. by apply IH.
Qed.

(** C9. An agent serves the holder of its token, one at a time. From its
    start on, whatever connections come, fail, are refused, end or are shut
    down in whatever order, at most one of them holds the agent, and the
    agent is busy exactly then. A connection that asks while nobody holds it
    is let in exactly when the token it presents is the agent's, and a
    coordinator with a valid token presents it: what arrives of the header it
    sends is either nothing or the token itself. *)
Theorem one_coordinator_at_a_time (token : string) (events : list ControlEvent) (s : AgentShared) (conns : gmap nat Connection)
    (Hrun : control_run token events = Some (s, conns)) :
  (forall id1 id2 c1 c2, conns !! id1 = Some c1 -> conns !! id2 = Some c2 ->
     holds_agent c1 = true -> holds_agent c2 = true -> id1 = id2) /\
  (sh_busy s = true <-> exists id c, conns !! id = Some c /\ holds_agent c = true) /\
  (forall header, (authorize header s).1 =
     if decide (presented_token header = token) then if sh_busy s then Refused 409 else Handshaking true else Refused 401) /\
  (forall presented header, validate_token presented = Ok tt ->
     header = None \/ header = Some ("Bearer " +:+ presented)%string ->
     presented_token header = if header then presented else ""%string).
Proof.
  pose proof (control_run_ok _ _ _ Hrun) as [Ht Hb]. cbn in Ht, Hb. split_and!.
  - intros id1 id2 c1 c2 Hi1 Hi2 Hh1 Hh2. destruct (sh_busy s).
    + destruct Hb as (id & c & _ & _ & Hu). by rewrite (Hu id1 c1 Hi1 Hh1), (Hu id2 c2 Hi2 Hh2).
    + by rewrite (Hb id1 c1 Hi1) in Hh1.
  - destruct (sh_busy s).
    + split; [|done]. intros _. destruct Hb as (id & c & Hi & Hh & _). by exists id, c.
    + split; [done|]. intros (id & c & Hi & Hh). by rewrite (Hb id c Hi) in Hh.
  - intros header. unfold authorize. rewrite Ht. destruct (decide (presented_token header = token)) as [->|Hne].
    + rewrite (proj2 (tokens_match_spec token token)) by done. cbn. by destruct (sh_busy s).
    + destruct (tokens_match token (presented_token header)) eqn:E; [|done]. apply tokens_match_spec in E. congruence.
  - intros presented header Hv [->| ->]; [done|]. unfold presented_token. cbn [mbind option_bind].
    by rewrite (bearer_of_clean presented (validate_token_clean presented Hv)).
Qed.

(** A second coordinator comes while the first one's test runs. *)
Lemma one_coordinator_at_a_time_witness :
  let token := "0123456789abcdef"%string in
  let header := Some ("Bearer " +:+ token)%string in
  exists s conns, control_run token [Accepted 0; Accepted 1; Upgrade 0 header; HandshakeEnds 0 true; Upgrade 1 header] = Some (s, conns) /\
    conns !! 0%nat = Some Testing /\ conns !! 1%nat = Some (Refused 409) /\ (authorize header s).1 = Refused 409 /\
    presented_token header = token.
Proof.
  intros token header. eexists _, _. split; [reflexivity|]. split; [reflexivity|]. split; [reflexivity|].
  match goal with |- (authorize header ?s).1 = _ /\ _ =>
    destruct (one_coordinator_at_a_time token [Accepted 0; Accepted 1; Upgrade 0 header; HandshakeEnds 0 true; Upgrade 1 header] s _ eq_refl)
      as (_ & _ & Ha & Hp) end.
  assert (presented_token header = token) as Htok by (apply (Hp token header); [reflexivity|by right]).
  split; [|exact Htok]. rewrite Ha, Htok. reflexivity.
Defined.
