(* ===== verification/Display.v ===== *)
(** * Texts of the errors (src/src/error.rs)

    What [thiserror] derives for the error types of Live: the texts a user
    reads, and a coordinator receives from an agent. *)

From Stdlib Require Import ZArith Lia String.
From stdpp Require Import base tactics strings numbers option list.
From S2P Require Import Prelude RustStd Str Live Slo.

Local Open Scope Z_scope.
Local Open Scope string_scope.

Section Display.
Context `{Formatter}.

(** [{code:?}] of an [Option<u16>]. *)
Definition debug_code (code : option Z) : string :=
  match code with Some code => "Some(" +:+ display_u64 code +:+ ")" | None => "None" end.

Definition ConfigError_fmt (err : ConfigError) : string :=
  match err with
  | InvalidUrl url message => "Invalid target URL '" +:+ url +:+ "': " +:+ message
  | UnsupportedScheme scheme =>
      "Unsupported WebSocket scheme '" +:+ scheme +:+ "': only 'ws://' and 'wss://' are supported"
  | InvalidDuration text =>
      "Invalid duration '" +:+ text +:+ "': expected a non-negative number with a unit of ns, us, ms, s, m or h (e.g. '500ms', '1.5s', '2m'), or bare integer seconds"
  | InvalidHeader text => "Invalid header format '" +:+ text +:+ "': expected 'Header-Name: value'"
  | ZeroConcurrency received => "Concurrency must be greater than zero, received " +:+ display_u64 received
  | InvalidThreshold message => "Invalid threshold specification: " +:+ message
  | InvalidAuth message => "Invalid authentication options: " +:+ message
  | AuthTokenCommand message => "Authentication token command failed: " +:+ message
  | AuthTokenRequest message => "Authentication token request failed: " +:+ message
  | InvalidOption message => "Invalid option: " +:+ message
  | InvalidScenario message => "Invalid scenario: " +:+ message
  | UnsupportedOption message => "Unsupported option combination: " +:+ message
  | DataFile message => "Data file error: " +:+ message
  | PayloadFile path source => "Payload file error at '" +:+ path +:+ "': " +:+ source
  end.

Definition WorkerError_fmt (err : WorkerError) : string :=
  match err with
  | DnsResolutionError message => "DNS resolution failed: " +:+ message
  | TcpConnectError address source => "TCP connection failed to " +:+ address +:+ ": " +:+ source
  | TlsHandshakeError message => "TLS handshake failed: " +:+ message
  | HttpUpgradeRejectedError status reason =>
      "HTTP upgrade rejected with status " +:+ display_u64 status +:+ ": " +:+ reason
  | ProtocolViolation message => "WebSocket protocol error: " +:+ message
  | WriteFailed message => "Frame write error: " +:+ message
  | ReadFailed message => "Frame read error: " +:+ message
  | TimeoutAfter after => "Operation timed out after " +:+ debug_duration after
  | UnexpectedCloseError code reason =>
      "Connection closed unexpectedly: code=" +:+ debug_code code +:+ ", reason=" +:+ reason
  end.

Definition WsBlastError_fmt (err : WsBlastError) : string :=
  match err with
  | ConfigFailure err => "Configuration error: " +:+ ConfigError_fmt err
  | WorkerFailure err => "Worker execution error: " +:+ WorkerError_fmt err
  | IoFailure message => "I/O error: " +:+ message
  | SerializationFailure message => "Serialization error: " +:+ message
  | MetricsFailure message => "Metrics initialization failed: " +:+ message
  | DistributedFailure message => "Distributed run failed: " +:+ message
  end.
End Display.
