(* ===== verification/Phases.v ===== *)
(** * Scenario files (src/src/config.rs, [WirePhase] of src/src/distributed/protocol.rs)

    A scenario as the YAML parser leaves it, how its phases are checked and
    compiled, which target and thresholds each one gets, and how a phase
    travels to an agent.  [None] is the panic of a sum of stage durations. *)

From Stdlib Require Import ZArith Lia Ascii String.
From stdpp Require Import base tactics strings numbers option gmap list.
From S2P Require Import Prelude RustStd Str Base64 Json Url Libs Live HumanDuration Summaries Metrics Wire Chaos Reply Data Template SocketIo Worker Slo Load Config WireConfig Token Display.

Local Open Scope Z_scope.
Local Open Scope rust_scope.

Definition invalid_phase (phase message : string) : ConfigError := InvalidScenario ("phase '" +:+ phase +:+ "': " +:+ message).
Definition reject {A} (phase message : string) : result A WsBlastError := fail (invalid_phase phase message).

(** ** The file *)

Record StageConfig := mkStageConfig { yg_duration : string; yg_target : Z }.
Inductive StagesConfig := Spec (spec : string) | StageList (list : list StageConfig).

Record SloConfig := mkSloConfig {
  ys_max_p50 : option string;
  ys_max_p95 : option string;
  ys_max_p99 : option string;
  ys_max_p999 : option string;
  ys_max_error_rate : option f64;
  ys_min_throughput : option f64;
  ys_max_generator_lag : option string;
}.

Record ChaosYaml := mkChaosYaml {
  yc_delay : option string;
  yc_drop : option f64;
  yc_corrupt : option f64;
  yc_close : option f64;
  yc_close_mode : option ChaosCloseMode;
  yc_read_pause : option string;
  yc_seed : option Z;
}.

Section Files.
Context {N : Type} `{SerdeJson N}.

Record ExpectConfig := mkExpectConfig { ye_json : option string; ye_equals : option (Value N); ye_contains : option string }.

(** [capture] lists a [BTreeMap]'s entries, in the order of their names. *)
Inductive ActionConfig :=
| YSend (payload : option string) (count : option Z) (expect : option ExpectConfig) (capture : option (list (string * string)))
    (name : option string) (slo : option SloConfig)
| YWait (duration : string)
| YClose (code : option Z) (reason : option string)
| YPing (interval : string).

Record PhaseConfig := mkPhaseConfig {
  yp_name : string;
  yp_target : option string;
  yp_duration : option string;
  yp_connections : option Z;
  yp_ramp_rate : option Z;
  yp_stages : option StagesConfig;
  yp_arrival_rate : option f64;
  yp_session_duration : option string;
  yp_max_connections : option Z;
  yp_rate_per_conn : Z;
  yp_payload : option string;
  yp_think_time : option string;
  yp_actions : list ActionConfig;
  yp_slo : option SloConfig;
  yp_chaos : option ChaosYaml;
}.

Record ScenarioConfig := mkScenarioConfig {
  yn_version : string;
  yn_target : option string;
  yn_name : string;
  yn_slo : option SloConfig;
  yn_data : option string;
  yn_phases : list PhaseConfig;
}.
End Files.
Arguments ExpectConfig N : clear implicits. Arguments ActionConfig N : clear implicits.
Arguments PhaseConfig N : clear implicits. Arguments ScenarioConfig N : clear implicits.

Section Scenario.
Context `{Libs, Formatter}.

(** [transpose] of a parsed option. *)
Definition optional {A B E} (f : A -> result B E) (a : option A) : result (option B) E :=
  match a with Some a => let? b := f a in Ok (Some b) | None => Ok None end.

Definition prefixed (prefix : string) (e : WsBlastError) : WsBlastError := ConfigFailure (InvalidScenario (prefix +:+ WsBlastError_fmt e)).

(** [ChaosYaml::compile] *)
Definition chaos_compile (y : ChaosYaml) (phase : string) : result ChaosConfig WsBlastError :=
  let invalid := prefixed ("phase '" +:+ phase +:+ "': chaos: ") in
  let? delay := result_map_err invalid (optional parse_delay (yc_delay y)) in
  let? read := result_map_err invalid (optional parse_delay (yc_read_pause y)) in
  let '(delay, jitter) := default (0, 0) delay in
  let '(read_pause, read_jitter) := default (0, 0) read in
  let chaos := mkChaosConfig delay jitter (default f64_zero (yc_drop y)) (default f64_zero (yc_corrupt y))
    (default f64_zero (yc_close y)) (default Abrupt (yc_close_mode y)) read_pause read_jitter (yc_seed y) in
  let? _ := result_map_err invalid (ChaosConfig_validate display_f64 chaos) in
  Ok chaos.

(** [StagesConfig::compile] *)
Definition stage_compile (phase : string) (e : nat * StageConfig) : result Stage WsBlastError :=
  let? duration := result_map_err (prefixed ("phase '" +:+ phase +:+ "': stage " +:+ display_u64 (Z.of_nat e.1 + 1) +:+ ": duration: "))
    (parse_human_duration (yg_duration e.2)) in
  Ok (mkStage duration (yg_target e.2)).
Definition stages_compile (y : StagesConfig) (phase : string) : result (list Stage) WsBlastError :=
  let? stages := match y with
                 | Spec spec =>
                     if forallb (fun part => bool_decide (trim part = ""%string)) (split_on ","%char spec) then Ok []
                     else result_map_err (prefixed ("phase '" +:+ phase +:+ "': stages: ")) (parse_list spec)
                 | StageList list => result_collect (stage_compile phase) (imap pair list)
                 end in
  match stages with
  | [] => reject phase "stages must list at least one stage, such as `{duration: 30s, target: 100}`"
  | _ =>
      match list_find (fun s => sg_duration s = 0) stages with
      | Some (index, _) => reject phase ("stage " +:+ display_u64 (Z.of_nat index + 1) +:+
          " has a zero duration; every stage needs a duration greater than zero")
      | None =>
          if forallb (fun s => sg_target s =? 0) stages
          then reject phase "every stage target is zero; at least one stage needs connections"
          else Ok stages
      end
  end.

(** [SloConfig::compile] *)
Definition slo_latency (context key : string) (raw : option string) : result (option Z) WsBlastError :=
  optional (fun raw => result_map_err (prefixed (context +:+ ": " +:+ key +:+ ": ")) (parse_human_duration raw)) raw.
Definition slo_compile (y : SloConfig) (context : string) : result SloThresholds WsBlastError :=
  let? p50 := slo_latency context "max_p50" (ys_max_p50 y) in
  let? p95 := slo_latency context "max_p95" (ys_max_p95 y) in
  let? p99 := slo_latency context "max_p99" (ys_max_p99 y) in
  let? p999 := slo_latency context "max_p999" (ys_max_p999 y) in
  let? lag := slo_latency context "max_generator_lag" (ys_max_generator_lag y) in
  let slo := mkSloThresholds p50 p95 p99 p999 (ys_max_error_rate y) (ys_min_throughput y) lag in
  let? _ := result_map_err (prefixed (context +:+ ": ")) (validate_error_rate slo) in
  Ok slo.
Definition compile_slo (slo : option SloConfig) (context : string) : result SloThresholds WsBlastError :=
  match slo with Some slo => slo_compile slo context | None => Ok no_slo end.

(** [ExpectConfig::compile] *)
Definition expect_compile (y : ExpectConfig JN) (phase : string) : result (ReplyCheck JN) WsBlastError :=
  let? check := match ye_json y, ye_equals y, ye_contains y with
                | Some pointer, equals, None => Ok (Json pointer equals)
                | None, None, Some text => Ok (Contains text)
                | None, Some _, _ => reject phase "expect: equals needs json: a pointer to compare"
                | _, _, _ => reject phase "expect needs either json (with an optional equals) or contains"
                end in
  let? _ := result_map_err (fun e => ConfigFailure (invalid_phase phase ("expect: " +:+ e))) (check_validate check) in
  Ok check.

(** ** Compiling a phase *)

(** The [ScenarioPhase] of the source; [worker_phase] is what its workers
    read of it. *)
Record CompiledPhase := mkCompiledPhase {
  cp_name : string;
  cp_target : option Url;
  cp_duration : Z;
  cp_connections : Z;
  cp_ramp_rate : Z;
  cp_rate_per_conn : Z;
  cp_payload : option PayloadConfig;
  cp_think_time : Z;
  cp_actions : list (ScenarioAction JN);
  cp_vars : list string;
  cp_action_names : list string;
  cp_slo : SloThresholds;
  cp_stages : list Stage;
  cp_arrivals : option Arrivals;
  cp_chaos : option ChaosConfig;
}.
Definition worker_phase (p : CompiledPhase) : ScenarioPhase JN := mkScenarioPhase (cp_think_time p) (cp_actions p) (cp_vars p).

(** The keys that are set, of those that exclude each other. *)
Definition set_keys (keys : list (string * bool)) : list string := fst <$> filter (fun e => e.2 = true) keys.

Definition compile_arrivals (phase : PhaseConfig JN) : result (option Arrivals) WsBlastError :=
  match yp_arrival_rate phase with
  | None =>
      if bool_decide (is_Some (yp_session_duration phase)) || bool_decide (is_Some (yp_max_connections phase))
      then reject (yp_name phase) "`session_duration` and `max_connections` need `arrival_rate`"
      else Ok None
  | Some rate =>
      match set_keys [("`connections`"%string, bool_decide (is_Some (yp_connections phase)));
                      ("`ramp_rate`"%string, bool_decide (is_Some (yp_ramp_rate phase)));
                      ("`stages`"%string, bool_decide (is_Some (yp_stages phase)))] with
      | [] =>
          match yp_session_duration phase with
          | None => reject (yp_name phase) "`arrival_rate` needs `session_duration`, how long each session stays connected"
          | Some session =>
              let? session := result_map_err (prefixed ("phase '" +:+ yp_name phase +:+ "': session_duration: "))
                (parse_human_duration session) in
              let arrivals := mkArrivals rate session (yp_max_connections phase) in
              let? _ := result_map_err (fun e => ConfigFailure (invalid_phase (yp_name phase) e))
                (check_values display_f64 "arrival_rate" "session_duration" "max_connections" arrivals) in
              Ok (Some arrivals)
          end
      | mixed => reject (yp_name phase) ("`arrival_rate` cannot be combined with " +:+ join ", " mixed +:+
          "; the arrival rate sets how many sessions are open")
      end
  end.

(** How many connections, for how long, with which ramp and stages. *)
Definition positive_duration (name raw : string) : result Z WsBlastError :=
  let? duration := result_map_err (prefixed ("phase '" +:+ name +:+ "': ")) (parse_human_duration raw) in
  if duration =? 0 then reject name "duration must be greater than zero" else Ok duration.
Definition missing {A} (phase key : string) : result A WsBlastError :=
  reject phase ("missing field `" +:+ key +:+ "`; give `connections` and `duration`, or `stages`").
Definition arrival_sizing (phase : PhaseConfig JN) (arrivals : Arrivals) : result (Z * Z * Z * list Stage) WsBlastError :=
  match yp_duration phase with
  | None => reject (yp_name phase) "missing field `duration`; `arrival_rate` starts sessions for `duration`"
  | Some raw => let? duration := positive_duration (yp_name phase) raw in Ok (expected_connections arrivals, duration, 0, [])
  end.
Definition staged_sizing (phase : PhaseConfig JN) (stages : StagesConfig) : option (result (Z * Z * Z * list Stage) WsBlastError) :=
  match set_keys [("`connections`"%string, bool_decide (is_Some (yp_connections phase)));
                  ("`duration`"%string, bool_decide (is_Some (yp_duration phase)));
                  ("`ramp_rate`"%string, bool_decide (is_Some (yp_ramp_rate phase)))] with
  | [] =>
      match stages_compile stages (yp_name phase) with
      | Err e => Some (Err e)
      | Ok stages =>
          duration ← duration_sum (sg_duration <$> stages);
          Some (Ok (default 0 (iter_max (sg_target <$> stages)), duration, 0, stages))
      end
  | mixed => Some (reject (yp_name phase) ("`stages` cannot be combined with " +:+ join ", " mixed +:+
      "; the stages set the connection count, the duration and the ramp"))
  end.
Definition plain_sizing (phase : PhaseConfig JN) : result (Z * Z * Z * list Stage) WsBlastError :=
  match yp_connections phase, yp_duration phase with
  | None, _ => missing (yp_name phase) "connections"
  | _, None => missing (yp_name phase) "duration"
  | Some connections, Some raw =>
      if connections =? 0 then reject (yp_name phase) "connections must be greater than zero"
      else let? duration := positive_duration (yp_name phase) raw in Ok (connections, duration, default 0 (yp_ramp_rate phase), [])
  end.
Definition sizing (phase : PhaseConfig JN) (arrivals : option Arrivals) : option (result (Z * Z * Z * list Stage) WsBlastError) :=
  match arrivals, yp_stages phase with
  | Some arrivals, _ => Some (arrival_sizing phase arrivals)
  | None, Some stages => staged_sizing phase stages
  | None, None => Some (plain_sizing phase)
  end.

(** [phase_vars] and [phase_action_names]: each name once, in order. *)
Definition add_name (names : list string) (name : string) : list string := if decide (name ∈ names) then names else names ++ [name].

Fixpoint capture_vars (phase : string) (vars : list string) (captures : list (string * string)) : result (list string) WsBlastError :=
  match captures with
  | [] => Ok vars
  | (name, _) :: captures =>
      let? _ := result_map_err (fun e => ConfigFailure (invalid_phase phase ("capture: " +:+ e))) (check_var_name name) in
      capture_vars phase (add_name vars name) captures
  end.
Fixpoint phase_vars (phase : string) (vars : list string) (actions : list (ActionConfig JN)) : result (list string) WsBlastError :=
  match actions with
  | [] => Ok vars
  | YSend _ _ _ (Some captures) _ _ :: actions => let? vars := capture_vars phase vars captures in phase_vars phase vars actions
  | _ :: actions => phase_vars phase vars actions
  end.

Definition MAX_ACTION_NAME : Z := 64.
Definition bad_action_name (name : string) : bool :=
  bool_decide (trim name = ""%string) || (MAX_ACTION_NAME <? Z.of_nat (String.length name))
  || existsb (fun c => contains c name) control_chars.
Fixpoint phase_action_names (phase : string) (names : list string) (actions : list (ActionConfig JN)) : result (list string) WsBlastError :=
  match actions with
  | [] => Ok names
  | YSend _ _ _ _ (Some name) _ :: actions =>
      if bad_action_name name then reject phase ("action name '" +:+ name +:+ "' must be 1 to " +:+ display_u64 MAX_ACTION_NAME +:+
        " characters, without control characters")
      else phase_action_names phase (add_name names name) actions
  | YSend _ _ _ _ None (Some _) :: actions =>
      reject phase "slo on an action needs a name: the thresholds are checked on the named action's messages"
  | _ :: actions => phase_action_names phase names actions
  end.

(** The close codes an endpoint may send. *)
Definition is_sendable_close_code (code : Z) : bool :=
  ((1000 <=? code) && (code <=? 1003)) || ((1007 <=? code) && (code <=? 1014)) || ((3000 <=? code) && (code <=? 4999)).
Definition validate_close_code (code : Z) : result Z WsBlastError :=
  if is_sendable_close_code code then Ok code
  else fail (InvalidScenario ("close code " +:+ display_u64 code +:+ " cannot be sent; use 1000-1003, 1007-1014 or 3000-4999")).

(** [ScenarioAction::compile] *)
Definition compile_capture (phase : string) (vars : list string) (e : string * string) : result Capture WsBlastError :=
  let? _ := result_map_err (fun err => ConfigFailure (invalid_phase phase ("capture " +:+ e.1 +:+ ": " +:+ err))) (check_pointer e.2) in
  Ok (mkCapture (default O (position e.1 vars)) e.2).
Definition action_duration (phase what raw zero : string) : result Z WsBlastError :=
  let? duration := result_map_err (prefixed ("phase '" +:+ phase +:+ "': " +:+ what +:+ " action: ")) (parse_human_duration raw) in
  if duration =? 0 then reject phase zero else Ok duration.
Definition action_compile (phase : string) (vars action_names : list string) (action : ActionConfig JN) : result (ScenarioAction JN) WsBlastError :=
  match action with
  | YSend payload count expect capture name _ =>
      let count := default 1 count in
      if count =? 0 then reject phase "send action count must be greater than zero"
      else
        let? captures := result_collect (compile_capture phase vars) (default [] capture) in
        let? expect := optional (fun expect => expect_compile expect phase) expect in
        Ok (ActSend ((fun payload => from_text_with_vars payload vars) <$> payload) count expect captures
          (name ← name; position name action_names))
  | YWait duration =>
      let? duration := action_duration phase "wait" duration "wait action duration must be greater than zero" in Ok (ActWait duration)
  | YPing interval =>
      let? interval := action_duration phase "ping" interval "ping action interval must be greater than zero" in Ok (ActPing interval)
  | YClose code reason =>
      let? code := validate_close_code (default 1000 code) in Ok (ActClose code (default ""%string reason))
  end.

(** [ScenarioPhase::compile] after the sizing. *)
Definition compile_rest (phase : PhaseConfig JN) (arrivals : option Arrivals) (size : Z * Z * Z * list Stage)
  : result CompiledPhase WsBlastError :=
  let name := yp_name phase in
  let '(connections, duration, ramp_rate, stages) := size in
  let? think_time := result_map_err (prefixed ("phase '" +:+ name +:+ "': think_time: ")) (optional parse_human_duration (yp_think_time phase)) in
  let? vars := phase_vars name [] (yp_actions phase) in
  let? action_names := phase_action_names name [] (yp_actions phase) in
  let? actions := result_collect (action_compile name vars action_names) (yp_actions phase) in
  let? target := optional parse_target_url (yp_target phase) in
  let? slo := compile_slo (yp_slo phase) ("phase '" +:+ name +:+ "': slo") in
  let? chaos := optional (fun chaos => chaos_compile chaos name) (yp_chaos phase) in
  Ok (mkCompiledPhase name target duration connections ramp_rate (yp_rate_per_conn phase)
    ((fun payload => from_text_with_vars payload vars) <$> yp_payload phase) (default 0 think_time) actions vars action_names slo stages
    arrivals chaos).
Definition compile_phase (phase : PhaseConfig JN) : option (result CompiledPhase WsBlastError) :=
  match compile_arrivals phase with
  | Err e => Some (Err e)
  | Ok arrivals =>
      size ← sizing phase arrivals;
      Some (let? size := size in compile_rest phase arrivals size)
  end.

(** ** The scenario *)

(** A [collect] of steps that may panic. *)
Fixpoint collect_all {A B} (f : A -> option (result B WsBlastError)) (l : list A) : option (result (list B) WsBlastError) :=
  match l with
  | [] => Some (Ok [])
  | a :: l =>
      b ← f a;
      match b with
      | Err e => Some (Err e)
      | Ok b => bs ← collect_all f l; Some (let? bs := bs in Ok (b :: bs))
      end
  end.

Definition scenario_slo (c : ScenarioConfig JN) : result SloThresholds WsBlastError := compile_slo (yn_slo c) "slo".

(** [selected_phase] and [compile]. *)
Definition selected_phase (c : ScenarioConfig JN) (name : option string) : result (PhaseConfig JN) WsBlastError :=
  match name with
  | Some name =>
      match find (fun p => bool_decide (yp_name p = name)) (yn_phases c) with
      | Some p => Ok p
      | None => fail (InvalidScenario ("phase '" +:+ name +:+ "' not found; available phases: " +:+ join ", " (yp_name <$> yn_phases c)))
      end
  | None => match yn_phases c with p :: _ => Ok p | [] => fail (InvalidScenario "scenario must define at least one phase") end
  end.
Definition running (c : ScenarioConfig JN) (selected : option string) : result (list (PhaseConfig JN)) WsBlastError :=
  match selected with Some _ => let? p := selected_phase c selected in Ok [p] | None => Ok (yn_phases c) end.
Definition compile (c : ScenarioConfig JN) (selected : option string) : option (result (list CompiledPhase) WsBlastError) :=
  match running c selected with
  | Err e => Some (Err e)
  | Ok phases => collect_all compile_phase phases
  end.

(** The checks of [validate] on one phase, with the names seen before it. *)
Fixpoint validate_names (seen : list string) (phases : list (PhaseConfig JN)) : option (result unit WsBlastError) :=
  match phases with
  | [] => Some (Ok tt)
  | p :: phases =>
      if decide (trim (yp_name p) = ""%string) then Some (fail (InvalidScenario "phase name must not be empty"))
      else if decide (yp_name p ∈ seen) then Some (fail (InvalidScenario ("duplicate phase name '" +:+ yp_name p +:+ "'")))
      else
        compiled ← compile_phase p;
        match compiled with
        | Err e => Some (Err e)
        | Ok _ => validate_names (yp_name p :: seen) phases
        end
  end.
Definition scenario_validate (c : ScenarioConfig JN) : option (result unit WsBlastError) :=
  match (let? _ := if decide (yn_version c = "1.0"%string) then Ok tt
                   else fail (InvalidScenario ("unsupported version '" +:+ yn_version c +:+ "', expected '1.0'")) in
         let? _ := if decide (trim (yn_name c) = ""%string) then fail (InvalidScenario "metadata.name must not be empty") else Ok tt in
         let? _ := optional parse_target_url (yn_target c) in
         let? _ := scenario_slo c in
         if decide (yn_phases c = []) then fail (InvalidScenario "scenario must define at least one phase") else Ok tt) with
  | Err e => Some (Err e)
  | Ok _ => validate_names [] (yn_phases c)
  end.

(** [resolve_phase_targets]: the command line's URL, the phase's, the
    scenario's. *)
Definition phase_target (c : ScenarioConfig JN) (cli_url : option string) (p : PhaseConfig JN) : result Url WsBlastError :=
  match option_or cli_url (option_or (yp_target p) (yn_target c)) with
  | Some raw => parse_target_url raw
  | None => reject (yp_name p)
      "no target URL; set `target` on this phase or at the top level of the scenario, or pass a URL on the command line"
  end.
Definition resolve_phase_targets (c : ScenarioConfig JN) (cli_url selected : option string) : result (list Url) WsBlastError :=
  let? phases := running c selected in
  result_collect (phase_target c cli_url) phases.

(** [action_slos]: the thresholds of the named actions a selected phase
    sends. *)
Definition action_slo_step (phase : string) (slos : list (string * SloThresholds)) (action : ActionConfig JN)
  : result (list (string * SloThresholds)) WsBlastError :=
  match action with
  | YSend _ _ _ _ (Some name) (Some slo) =>
      let context := "phase '" +:+ phase +:+ "': action '" +:+ name +:+ "': slo" in
      if bool_decide (is_Some (ys_min_throughput slo)) || bool_decide (is_Some (ys_max_generator_lag slo)) then
        fail (InvalidScenario (context +:+ ": an action SLO takes max_p50, max_p95, max_p99, max_p999 and max_error_rate; min_throughput and max_generator_lag apply to a phase or the scenario"))
      else if decide (name ∈ slos.*1) then
        fail (InvalidScenario (context +:+ ": action '" +:+ name +:+ "' already has an slo; give it one, on any of its actions"))
      else let? slo := slo_compile slo context in Ok (slos ++ [(name, slo)])
  | _ => Ok slos
  end.
Fixpoint collect_slos (slos : list (string * SloThresholds)) (actions : list (string * ActionConfig JN))
  : result (list (string * SloThresholds)) WsBlastError :=
  match actions with
  | [] => Ok slos
  | (phase, action) :: actions => let? slos := action_slo_step phase slos action in collect_slos slos actions
  end.
Definition scenario_actions (c : ScenarioConfig JN) : list (string * ActionConfig JN) :=
  p ← yn_phases c; (fun action => (yp_name p, action)) <$> yp_actions p.
Definition action_slos (c : ScenarioConfig JN) (selected : option string) : option (result (list (string * SloThresholds)) WsBlastError) :=
  match collect_slos [] (scenario_actions c) with
  | Err e => Some (Err e)
  | Ok slos =>
      running ← compile c selected;
      Some (let? running := running in
            Ok (filter (fun e => existsb (fun phase => bool_decide (e.1 ∈ cp_action_names phase)) running = true) slos))
  end.

Definition SLO_LATENCY_KEYS : string := "max_p50/max_p95/max_p99/max_p999".

(** [validate_slo_mode]; action SLOs need their names, phases their chaos. *)
Definition action_slo_mode (mode : TestMode) (e : string * SloThresholds) : result unit WsBlastError :=
  validate_latency_mode e.2 mode ("action '" +:+ e.1 +:+ "': slo: ") SLO_LATENCY_KEYS.
Definition phase_mode (mode : TestMode) (p : CompiledPhase) : result unit WsBlastError :=
  let? _ := validate_latency_mode (cp_slo p) mode ("phase '" +:+ cp_name p +:+ "': slo: ") SLO_LATENCY_KEYS in
  match cp_chaos p with
  | Some chaos =>
      if is_active chaos
      then validate_chaos_mode chaos mode (negb (bool_decide (cp_actions p = []))) ("phase '" +:+ cp_name p +:+ "': ")
      else Ok tt
  | None => Ok tt
  end.
Definition validate_slo_mode (c : ScenarioConfig JN) (mode : TestMode) (selected : option string) : option (result unit WsBlastError) :=
  match (let? slo := scenario_slo c in validate_latency_mode slo mode "slo: " SLO_LATENCY_KEYS) with
  | Err e => Some (Err e)
  | Ok _ =>
      slos ← action_slos c selected;
      phases ← compile c selected;
      Some (let? slos := slos in
            let? _ := result_collect (action_slo_mode mode) slos in
            let? phases := phases in
            let? _ := result_collect (phase_mode mode) phases in
            Ok tt)
  end.

(** [validate_phases]: what the phases send, against the run's mode, data and
    reply rule. *)
Definition checks_replies (p : CompiledPhase) : bool :=
  existsb (fun action => match action with
    | ActSend _ _ expect captures _ => bool_decide (is_Some expect) || negb (bool_decide (captures = []))
    | _ => false end) (cp_actions p).
Definition phase_payloads (p : CompiledPhase) (payload : PayloadConfig) : list PayloadConfig :=
  let phase_payload := default payload (cp_payload p) in
  phase_payload :: omap (fun action => match action with
    | ActSend payload _ _ _ _ => Some (default phase_payload payload)
    | _ => None end) (cp_actions p).
Definition validate_phase (c : RunConfig) (p : CompiledPhase) : result unit WsBlastError :=
  let? _ := if checks_replies p && negb (awaits_replies (rc_mode c)) then
              reject (cp_name p) ("expect and capture need --mode echo or socketio; " +:+ debug_mode (rc_mode c) +:+ " mode does not wait for replies")
            else Ok tt in
  let payloads := phase_payloads p (rc_payload c) in
  let? _ := result_collect (fun template =>
    result_map_err (fun e => ConfigFailure (invalid_phase (cp_name p) ("payload: " +:+ e))) (check_data template (rc_data c)))
    (omap payload_template payloads) in
  validate_reply_match (rc_reply_match c) (rc_mode c) payloads.
Definition validate_phases (phases : list CompiledPhase) (c : RunConfig) : result unit WsBlastError :=
  let? _ := result_collect (validate_phase c) phases in Ok tt.

(** ** A phase on the wire *)

Definition wire_action (action : ScenarioAction JN) : WireAction :=
  match action with
  | ActSend payload count expect captures name => WireSend (wire_payload <$> payload) count expect captures name
  | ActWait duration => WireWait duration
  | ActPing interval => WirePing interval
  | ActClose code reason => WireClose code reason
  end.
Definition from_phase (p : CompiledPhase) : WirePhase :=
  mkWirePhase (cp_name p) (cp_think_time p) (wire_action <$> cp_actions p) (cp_vars p) (cp_action_names p).

Definition payload_from_wire (payload : WirePayload) (vars : list string) : result PayloadConfig WsBlastError :=
  match payload with
  | WireText text => Ok (from_text_with_vars text vars)
  | WireBinary base64 =>
      match base64_decode (bytes_of_string base64) with
      | Some bytes => Ok (BinaryPayload bytes)
      | None => fail (InvalidOption "a binary payload is not valid base64")
      end
  end.

Definition into_scenario_action (w : WirePhase) (action : WireAction) : result (ScenarioAction JN) WsBlastError :=
  match action with
  | WireSend payload count expect captures name =>
      if match name with Some name => (length (wp_action_names w) <=? name)%nat | None => false end
      then reject (wp_name w) "an action names an unknown action name"
      else if count =? 0 then reject (wp_name w) "send action count must be greater than zero"
      else
        let? _ := match expect with
                  | Some check => result_map_err (fun e => ConfigFailure (invalid_phase (wp_name w) ("expect: " +:+ e))) (check_validate check)
                  | None => Ok tt
                  end in
        match list_find (fun c => (length (wp_vars w) <= ca_var c)%nat) captures with
        | Some (_, c) => reject (wp_name w) ("capture into variable " +:+ display_u64 (Z.of_nat (ca_var c)) +:+ " of " +:+
            display_u64 (Z.of_nat (length (wp_vars w))))
        | None =>
            let? payload := optional (fun payload => payload_from_wire payload (wp_vars w)) payload in
            Ok (ActSend payload count expect captures name)
        end
  | WireWait duration =>
      if duration =? 0 then reject (wp_name w) "wait action duration must be greater than zero" else Ok (ActWait duration)
  | WirePing interval =>
      if interval =? 0 then reject (wp_name w) "ping action interval must be greater than zero" else Ok (ActPing interval)
  | WireClose code reason => let? code := validate_close_code code in Ok (ActClose code reason)
  end.

(** The share's payload, parsed again with the phase's variables. *)
Definition phase_payload (vars : list string) (payload : PayloadConfig) : PayloadConfig :=
  match payload with
  | StaticText text => if decide (vars = []) then payload else from_text_with_vars text vars
  | DynamicText template => if decide (vars = []) then payload else from_text_with_vars (tp_source template) vars
  | BinaryPayload _ => payload
  end.

Definition no_chaos : ChaosConfig := mkChaosConfig 0 0 f64_zero f64_zero f64_zero Abrupt 0 0 None.

Definition into_phase (w : WirePhase) (c : RunConfig) : result CompiledPhase WsBlastError :=
  let? _ := result_collect (fun name =>
    result_map_err (fun e => ConfigFailure (invalid_phase (wp_name w) ("capture: " +:+ e))) (check_var_name name)) (wp_vars w) in
  let? actions := result_collect (into_scenario_action w) (wp_actions w) in
  Ok (mkCompiledPhase (wp_name w) None (ld_duration (rc_load c)) (ld_connections (rc_load c)) (ld_ramp_rate (rc_load c))
    (rc_rate_per_conn c) (Some (phase_payload (wp_vars w) (rc_payload c))) (wp_think_time w) actions (wp_vars w) (wp_action_names w)
    no_slo (ld_stages (rc_load c)) (ld_arrivals (rc_load c)) (Some (default no_chaos (rc_chaos c)))).
End Scenario.

(** ** What a compiled phase can be relied on for *)

Section Compiled.
Context `{Libs, Formatter}.

Definition action_ok (vars names : list string) (action : ScenarioAction JN) : Prop :=
  match action with
  | ActSend payload count expect captures name =>
      count <> 0 /\ (forall check, expect = Some check -> check_validate check = Ok tt) /\
      Forall (fun c => (ca_var c < length vars)%nat /\ check_pointer (ca_pointer c) = Ok tt) captures /\
      (forall n, name = Some n -> (n < length names)%nat) /\
      (forall p, payload = Some p -> exists text, p = from_text_with_vars text vars)
  | ActWait duration => duration <> 0
  | ActPing interval => interval <> 0
  | ActClose code _ => is_sendable_close_code code = true
  end.

Definition phase_load (p : CompiledPhase) : Load :=
  mkLoad (cp_connections p) (cp_ramp_rate p) (cp_duration p) (cp_stages p) (cp_arrivals p) None.

Definition phase_ok (p : CompiledPhase) : Prop :=
  load_ok (phase_load p) /\ (cp_stages p = [] -> cp_duration p <> 0) /\
  NoDup (cp_vars p) /\ Forall (fun name => check_var_name name = Ok tt) (cp_vars p) /\
  NoDup (cp_action_names p) /\ Forall (fun name => bad_action_name name = false) (cp_action_names p) /\
  Forall (action_ok (cp_vars p) (cp_action_names p)) (cp_actions p) /\
  (forall payload, cp_payload p = Some payload -> exists text, payload = from_text_with_vars text (cp_vars p)) /\
  (forall u, cp_target p = Some u -> web_scheme (url_scheme u)) /\
  (forall rate, max_error_rate (cp_slo p) = Some rate -> f64_leb f64_zero rate = true /\ f64_leb rate f64_one = true) /\
  (forall chaos, cp_chaos p = Some chaos -> ChaosConfig_validate display_f64 chaos = Ok tt).

Lemma optional_Ok {A B E} (f : A -> result B E) a b : optional f a = Ok b <->
  match a, b with Some a, Some b => f a = Ok b | None, None => True | _, _ => False end.
Proof.
  destruct a as [a|]; cbn.
  - rewrite result_bind_Ok. split; [by intros (x & Hx & [= <-])|]. destruct b as [b|]; [|done]. intros Hb. by exists b.
  - destruct b; by split.
Qed.

Lemma check_values_names fmt r s m r' s' m' a : check_values fmt r s m a = Ok tt -> check_values fmt r' s' m' a = Ok tt.
Proof.
  unfold check_values. destruct (negb _); [done|]. destruct (_ =? 0); [done|]. by case_decide.
Qed.

(** *** Names *)

Lemma add_name_spec names name : NoDup names -> NoDup (add_name names name) /\ name ∈ add_name names name /\ names ⊆ add_name names name.
Proof.
  intros Hn. unfold add_name. case_decide as Hin; [done|]. split_and!.
  - apply NoDup_app. split_and!; [done| |apply NoDup_singleton]. by intros x Hx ->%list_elem_of_singleton.
  - apply elem_of_app. right. by apply list_elem_of_singleton.
  - intros x Hx. apply elem_of_app. by left.
Qed.

Lemma add_name_Forall (P : string -> Prop) names name : Forall P names -> P name -> Forall P (add_name names name).
Proof. intros Hf Hp. unfold add_name. case_decide; [done|]. apply Forall_app. split; [done|by constructor]. Qed.

Definition names_ok (P : string -> Prop) (names : list string) : Prop := NoDup names /\ Forall P names.

Lemma capture_vars_Ok phase vars captures r : capture_vars phase vars captures = Ok r -> names_ok (fun n => check_var_name n = Ok tt) vars ->
  names_ok (fun n => check_var_name n = Ok tt) r /\ vars ⊆ r /\ Forall (fun e => e.1 ∈ r) captures.
Proof.
  revert vars. induction captures as [|[name pointer] captures IH]; intros vars; cbn [capture_vars]; [by intros [= <-]|].
  intros ([] & Hc & Hr)%result_bind_Ok [Hn Hf]. apply result_map_err_Ok in Hc. destruct (add_name_spec vars name Hn) as (Hn' & Hin & Hsub).
  destruct (IH _ Hr) as (Hok & Hsub' & Hall); [split; [done|by apply add_name_Forall]|].
  split_and!; [done|by etrans|]. constructor; [by apply Hsub'|done].
Qed.

Definition captures_of (action : ActionConfig JN) : list (string * string) :=
  match action with YSend _ _ _ captures _ _ => default [] captures | _ => [] end.
Definition name_of (action : ActionConfig JN) : option string :=
  match action with YSend _ _ _ _ name _ => name | _ => None end.

Lemma phase_vars_Ok phase vars actions r : phase_vars phase vars actions = Ok r -> names_ok (fun n => check_var_name n = Ok tt) vars ->
  names_ok (fun n => check_var_name n = Ok tt) r /\ vars ⊆ r /\ Forall (fun a => Forall (fun e => e.1 ∈ r) (captures_of a)) actions.
Proof.
  revert vars. induction actions as [|action actions IH]; intros vars; cbn [phase_vars]; [by intros [= <-]|].
  destruct action as [payload count expect [captures|] name slo|d|code reason|i].
  1: { intros (vars' & Hc & Hr)%result_bind_Ok Hok. destruct (capture_vars_Ok _ _ _ _ Hc Hok) as (Hok' & Hsub & Hall).
       destruct (IH _ Hr Hok') as (Hokr & Hsub' & Hallr). split_and!; [done|by etrans|]. constructor; [|done].
       eapply Forall_impl; [exact Hall|]. intros e He. by apply Hsub'. }
  all: intros Hr Hok; destruct (IH _ Hr Hok) as (? & ? & ?); split_and!; [done|done|]; by constructor.
Qed.

Lemma phase_names_Ok phase names actions r : phase_action_names phase names actions = Ok r -> names_ok (fun n => bad_action_name n = false) names ->
  names_ok (fun n => bad_action_name n = false) r /\ names ⊆ r.
Proof.
  revert names. induction actions as [|action actions IH]; intros names; cbn [phase_action_names]; [by intros [= <-]|].
  destruct action as [payload count expect captures [name|] [slo|]|d|code reason|i].
  1,2: destruct (bad_action_name name) eqn:Eb; [done|]; intros Hr [Hn Hf]; destruct (add_name_spec names name Hn) as (Hn' & _ & Hsub);
    destruct (IH _ Hr) as [Hok Hsub']; [split; [done|by apply add_name_Forall]|]; split; [done|by etrans].
  1: done.
  all: by apply IH.
Qed.

(** *** Actions *)

Lemma position_lt x l i : position x l = Some i -> (i < length l)%nat.
Proof. intros Hp%position_lookup. by apply lookup_lt_Some in Hp. Qed.

Lemma expect_compile_Ok y phase check : expect_compile y phase = Ok check -> check_validate check = Ok tt.
Proof.
  unfold expect_compile. intros (check' & _ & Hc)%result_bind_Ok. apply result_bind_Ok in Hc as ([] & Hv & [= <-]). by apply result_map_err_Ok in Hv.
Qed.

Lemma captures_compiled phase vars captures r : result_collect (compile_capture phase vars) captures = Ok r ->
  Forall (fun e : string * string => e.1 ∈ vars) captures ->
  Forall (fun c => (ca_var c < length vars)%nat /\ check_pointer (ca_pointer c) = Ok tt) r.
Proof.
  intros Hr%result_collect_Ok Hin. induction Hr as [|[name p] c captures r Hc _ IH]; [constructor|]. apply Forall_cons in Hin as [Hn Hin].
  constructor; [|by apply IH]. apply result_bind_Ok in Hc as ([] & Hp & [= <-]). apply result_map_err_Ok in Hp. cbn in *.
  destruct (position_elem _ _ Hn) as [i Hi]. rewrite Hi. split; [by apply position_lt in Hi|done].
Qed.

Lemma action_compiled phase vars names action r : action_compile phase vars names action = Ok r ->
  Forall (fun e => e.1 ∈ vars) (captures_of action) -> action_ok vars names r.
Proof.
  intros Hr Hin. destruct action as [payload count expect capture name slo|d|code reason|i]; cbn [action_compile] in Hr.
  - destruct (Z.eqb_spec (default 1 count) 0) as [|Hc]; [done|]. apply result_bind_Ok in Hr as (captures & Hcap & Hr).
    apply result_bind_Ok in Hr as (check & He & [= <-]). cbn. split_and!.
    + done.
    + intros c ->. destruct expect as [y|]; [|done]. apply (proj1 (optional_Ok _ _ _)) in He. by apply expect_compile_Ok in He.
    + by apply (captures_compiled phase _ (captures_of (YSend payload count expect capture name slo))).
    + intros n Hn. destruct name as [name|]; [|done]. cbn in Hn. by apply position_lt in Hn.
    + intros p Hp. apply fmap_Some in Hp as (text & _ & ->). by exists text.
  - apply result_bind_Ok in Hr as (x & Hx & [= <-]). unfold action_duration in Hx. apply result_bind_Ok in Hx as (y & _ & Hx).
    cbn. destruct (Z.eqb_spec y 0); [done|]. by injection Hx as <-.
  - apply result_bind_Ok in Hr as (x & Hx & [= <-]). unfold validate_close_code in Hx. cbn.
    destruct (is_sendable_close_code _) eqn:E; [|done]. by injection Hx as <-.
  - apply result_bind_Ok in Hr as (x & Hx & [= <-]). unfold action_duration in Hx. apply result_bind_Ok in Hx as (y & _ & Hx).
    cbn. destruct (Z.eqb_spec y 0); [done|]. by injection Hx as <-.
Qed.

Lemma actions_compiled phase vars names actions r : result_collect (action_compile phase vars names) actions = Ok r ->
  Forall (fun a => Forall (fun e => e.1 ∈ vars) (captures_of a)) actions -> Forall (action_ok vars names) r.
Proof.
  intros Hr%result_collect_Ok Hin. induction Hr as [|a b actions r Ha _ IH]; [constructor|]. apply Forall_cons in Hin as [Hn Hin].
  constructor; [by apply (action_compiled phase _ _ a)|by apply IH].
Qed.

(** *** Sizing *)

(** Targets and counts are [usize]s. *)
Definition stages_typed (y : StagesConfig) : Prop := match y with Spec _ => True | StageList l => Forall (fun s => 0 <= yg_target s) l end.

Lemma stage_compiled_target phase l r : result_collect (stage_compile phase) l = Ok r -> Forall (fun e : nat * StageConfig => 0 <= yg_target e.2) l ->
  Forall (fun s => 0 <= sg_target s) r.
Proof.
  intros Hr%result_collect_Ok Hl. induction Hr as [|e s l r He _ IH]; [constructor|]. apply Forall_cons in Hl as [Ht Hl].
  constructor; [|by apply IH]. by apply result_bind_Ok in He as (d & _ & [= <-]).
Qed.

Lemma imap_pair_Forall {A} (P : A -> Prop) (l : list A) : Forall P l -> Forall (fun e : nat * A => P e.2) (imap pair l).
Proof.
  intros Hl. apply Forall_lookup. intros i [n a] Hi. rewrite list_lookup_imap in Hi. apply fmap_Some in Hi as (a' & Ha & [= -> ->]).
  by apply (Forall_lookup_1 _ _ _ _ Hl Ha).
Qed.

Lemma parse_list_targets spec r : parse_list spec = Ok r -> Forall (fun s => 0 <= sg_target s) r.
Proof.
  unfold parse_list. intros (stages & Hs & Hr)%result_bind_Ok. assert (stages = r) as -> by (destruct stages; [done|by injection Hr]).
  apply result_collect_Ok in Hs. clear Hr. induction Hs as [|part s parts r Hp _ IH]; [constructor|]. constructor; [|done].
  unfold parse_stage in Hp. apply result_bind_Ok in Hp as (p & _ & Hp). apply result_bind_Ok in Hp as (t & Ht & Hp).
  apply result_bind_Ok in Hp as (d & _ & [= <-]). cbn. destruct (parse_u64 (trim p.2)) as [n|] eqn:E; [|done]. injection Ht as <-.
  apply parse_uint_range in E. lia.
Qed.

Lemma stages_compiled y phase r : stages_compile y phase = Ok r -> stages_typed y ->
  r <> [] /\ Forall (fun s => sg_duration s <> 0) r /\ default 0 (iter_max (sg_target <$> r)) <> 0.
Proof.
  unfold stages_compile. intros (stages & Hs & Hr)%result_bind_Ok Ht.
  assert (Forall (fun s => 0 <= sg_target s) stages) as Hpos.
  { destruct y as [spec|l].
    - destruct (forallb _ _); [by injection Hs as <-|]. apply result_map_err_Ok in Hs. by apply (parse_list_targets spec).
    - apply (stage_compiled_target phase (imap pair l)); [done|]. by apply (imap_pair_Forall (fun s => 0 <= yg_target s)). }
  destruct stages as [|s stages]; [done|]. destruct (list_find _ _) as [[]|] eqn:Ef; [done|].
  destruct (forallb (fun s => sg_target s =? 0) (s :: stages)) eqn:Ez; [done|]. injection Hr as <-.
  split_and!; [done|by apply list_find_None in Ef|]. rewrite iter_max_spec by by apply Forall_fmap.
  intros Hm. apply not_true_iff_false in Ez. apply Ez. apply forallb_forall. intros x Hx%list_elem_of_In.
  rewrite Forall_forall in Hpos. specialize (Hpos x Hx). apply Z.eqb_eq.
  assert (sg_target x <= list_max_Z (sg_target <$> s :: stages)); [|lia]. apply list_max_Z_ge. by apply list_elem_of_fmap_2.
Qed.

Definition phase_typed (y : PhaseConfig JN) : Prop := forall stages, yp_stages y = Some stages -> stages_typed stages.

(** The load a sizing gives, with the arrivals it was made for. *)
Definition sized (arrivals : option Arrivals) (size : Z * Z * Z * list Stage) : Load :=
  let '(connections, duration, ramp_rate, stages) := size in mkLoad connections ramp_rate duration stages arrivals None.

Lemma positive_duration_Ok name raw d : positive_duration name raw = Ok d -> d <> 0.
Proof.
  unfold positive_duration. intros (d' & _ & Hd)%result_bind_Ok. destruct (Z.eqb_spec d' 0); [done|]. by injection Hd as <-.
Qed.

Lemma expected_positive a : expected_connections a <> 0.
Proof. unfold expected_connections. lia. Qed.

Lemma arrivals_compiled y a : compile_arrivals y = Ok (Some a) ->
  check_values display_f64 "--arrival-rate" "--session-duration" "--max-connections" a = Ok tt.
Proof.
  unfold compile_arrivals. destruct (yp_arrival_rate y) as [rate|]; [|by destruct (_ || _)].
  destruct (set_keys _); [|done]. destruct (yp_session_duration y) as [session|]; [|done].
  intros (d & _ & Hr)%result_bind_Ok. apply result_bind_Ok in Hr as ([] & Hc & [= <-]). apply result_map_err_Ok in Hc.
  by apply (check_values_names _ _ _ _ _ _ _ _ Hc).
Qed.

Lemma sizing_Ok y arrivals size : compile_arrivals y = Ok arrivals -> sizing y arrivals = Some (Ok size) -> phase_typed y ->
  load_ok (sized arrivals size) /\ (size.2 = [] -> size.1.1.2 <> 0).
Proof.
  intros Ha Hs Hty. unfold sizing in Hs. destruct arrivals as [a|]; [|destruct (yp_stages y) as [stages|] eqn:Est].
  - apply (inj Some) in Hs. unfold arrival_sizing in Hs. destruct (yp_duration y) as [raw|]; [|done].
    apply result_bind_Ok in Hs as (d & Hd & [= <-]). apply positive_duration_Ok in Hd. apply arrivals_compiled in Ha.
    split; [|done]. split_and!; cbn; try done; [apply expected_positive|]. by intros a' [= <-].
  - unfold staged_sizing in Hs. destruct (set_keys _); [|done]. destruct (stages_compile stages (yp_name y)) as [l|] eqn:El; [|done].
    destruct (duration_sum (sg_duration <$> l)) as [total|] eqn:Et; [|done]. cbn in Hs. injection Hs as <-.
    destruct (stages_compiled _ _ _ El (Hty _ Est)) as (Hne & Hd & Hm). cbn. split; [|by destruct l].
    unfold duration_sum in Et. destruct (_ <=? _); [|done]. injection Et as <-. by split_and!.
  - apply (inj Some) in Hs. unfold plain_sizing in Hs. destruct (yp_connections y) as [n|]; [|done].
    destruct (yp_duration y) as [raw|]; [|done]. destruct (Z.eqb_spec n 0); [done|].
    apply result_bind_Ok in Hs as (d & Hd & [= <-]). apply positive_duration_Ok in Hd. split; [|done]. by split_and!; cbn.
Qed.

Lemma slo_compiled slo context r : compile_slo slo context = Ok r ->
  forall rate, max_error_rate r = Some rate -> f64_leb f64_zero rate = true /\ f64_leb rate f64_one = true.
Proof.
  intros Hr rate Hrate. unfold compile_slo in Hr. destruct slo as [y|]; [|by injection Hr as <-]. unfold slo_compile in Hr.
  do 5 (apply result_bind_Ok in Hr as (? & _ & Hr)). apply result_bind_Ok in Hr as ([] & Hv & [= <-]). apply result_map_err_Ok in Hv.
  unfold validate_error_rate in Hv. rewrite Hrate in Hv. destruct (f64_leb f64_zero rate), (f64_leb rate f64_one); done.
Qed.

Lemma chaos_compiled y phase c : chaos_compile y phase = Ok c -> ChaosConfig_validate display_f64 c = Ok tt.
Proof.
  unfold chaos_compile. intros (d & _ & Hr)%result_bind_Ok. apply result_bind_Ok in Hr as (r & _ & Hr).
  destruct (default (0, 0) d), (default (0, 0) r). apply result_bind_Ok in Hr as ([] & Hv & [= <-]). by apply result_map_err_Ok in Hv.
Qed.

Lemma compiled_phase_ok y p : compile_phase y = Some (Ok p) -> phase_typed y -> phase_ok p /\ cp_name p = yp_name y.
Proof.
  unfold compile_phase. destruct (compile_arrivals y) as [arrivals|] eqn:Ea; [|done].
  destruct (sizing y arrivals) as [[size|]|] eqn:Es; [|done..]. intros Hr%(inj Some) Hty. cbn [result_bind] in Hr.
  destruct (sizing_Ok y arrivals size Ea Es Hty) as [Hl Hd]. unfold compile_rest in Hr. destruct size as [[[connections duration] ramp] stages].
  apply result_bind_Ok in Hr as (think & _ & Hr). apply result_bind_Ok in Hr as (vars & Hv & Hr).
  apply result_bind_Ok in Hr as (names & Hn & Hr). apply result_bind_Ok in Hr as (actions & Hact & Hr).
  apply result_bind_Ok in Hr as (target & Ht & Hr). apply result_bind_Ok in Hr as (slo & Hslo & Hr).
  apply result_bind_Ok in Hr as (chaos & Hch & [= <-]).
  destruct (phase_vars_Ok _ _ _ _ Hv) as ([Hnd Hall] & _ & Hcap); [by split; [apply NoDup_nil_2|]|].
  destruct (phase_names_Ok _ _ _ _ Hn) as [[Hnn Hna] _]; [by split; [apply NoDup_nil_2|]|].
  split; [|done]. unfold phase_ok; cbn. split_and!; try done.
  - by apply (actions_compiled _ _ _ _ _ Hact).
  - intros payload Hp. apply fmap_Some in Hp as (text & _ & ->). by exists text.
  - intros u Hu. subst target. destruct (yp_target y) as [raw|]; [|by apply (proj1 (optional_Ok _ _ _)) in Ht].
    apply (proj1 (optional_Ok _ _ _)) in Ht. by apply parse_target_web in Ht.
  - exact (slo_compiled _ _ _ Hslo).
  - intros c Hc. subst chaos. destruct (yp_chaos y) as [z|]; apply (proj1 (optional_Ok _ _ _)) in Hch; [|done]. by apply chaos_compiled in Hch.
Qed.

Lemma validate_names_Ok seen phases : validate_names seen phases = Some (Ok tt) ->
  exists ps, collect_all compile_phase phases = Some (Ok ps) /\ Forall2 (fun y p => compile_phase y = Some (Ok p)) phases ps /\
    NoDup (yp_name <$> phases) /\ Forall (fun y => yp_name y ∉ seen) phases.
Proof.
  revert seen. induction phases as [|y phases IH]; intros seen; cbn [validate_names collect_all].
  { intros _. exists []. split_and!; [done|constructor|constructor|constructor]. }
  case_decide; [done|]. case_decide as Hseen; [done|]. destruct (compile_phase y) as [[p|]|] eqn:Ec; [|done..]. cbn [mbind option_bind].
  intros Hv. destruct (IH _ Hv) as (ps & Hps & Hall & Hnd & Hfresh). exists (p :: ps). rewrite Hps. cbn. split_and!; [done|by constructor| |].
  - constructor; [|done]. intros Hin. apply list_elem_of_fmap in Hin as (y' & Hy & Hin). rewrite Forall_forall in Hfresh.
    apply (Hfresh y' Hin). rewrite Hy. by apply list_elem_of_here.
  - constructor; [done|]. eapply Forall_impl; [exact Hfresh|]. intros y' Hn Hin. apply Hn. by apply list_elem_of_further.
Qed.

Lemma compiled_names phases ps : Forall2 (fun y p => compile_phase y = Some (Ok p)) phases ps -> Forall phase_typed phases ->
  cp_name <$> ps = yp_name <$> phases /\ Forall phase_ok ps.
Proof.
  intros Hall Hty. induction Hall as [|y p phases ps Hc _ IH]; [by split|]. apply Forall_cons in Hty as [Ht Hty].
  destruct (compiled_phase_ok y p Hc Ht) as [Hok Hn]. destruct (IH Hty) as [Hns Hoks]. split; [cbn; by rewrite Hn, Hns|by constructor].
Qed.

Lemma find_phase name phases ps : Forall2 (fun y p => compile_phase y = Some (Ok p)) phases ps -> cp_name <$> ps = yp_name <$> phases ->
  match find (fun p => bool_decide (yp_name p = name)) phases with
  | Some y => exists p, compile_phase y = Some (Ok p) /\ p ∈ ps /\ cp_name p = name
  | None => name ∉ cp_name <$> ps
  end.
Proof.
  intros Hall. induction Hall as [|y p phases ps Hc _ IH]; cbn [find]; [intros _; by apply not_elem_of_nil|].
  cbn [fmap list_fmap]. intros [= Hn Hns]. case_bool_decide as Hd.
  - exists p. split; [done|]. split; [by apply list_elem_of_here|congruence].
  - specialize (IH Hns). destruct (find _ phases) as [y'|].
    + destruct IH as (p' & ? & ? & ?). exists p'. split; [done|]. split; [by apply list_elem_of_further|done].
    + rewrite not_elem_of_cons. split; [congruence|done].
Qed.

(** C19. A scenario that passes its validation can be run.  Every phase
    compiles, in order, under a name of its own; a compiled phase has a load
    the builder would accept (a staged, an arrival-rate or a plain one, never
    a mix), variables and action names that are valid and listed once,
    captures and names that point into those lists, counts, durations and
    close codes that can be sent, templates parsed with the phase's
    variables, and thresholds and faults in range.  [--phase] picks exactly
    the phase of that name and is refused for any other. *)
Theorem scenario_compiles (c : ScenarioConfig JN)
    (Htyped : Forall phase_typed (yn_phases c)) (Hvalid : scenario_validate c = Some (Ok tt)) :
  exists phases, compile c None = Some (Ok phases) /\ phases <> [] /\ cp_name <$> phases = yp_name <$> yn_phases c /\
    NoDup (cp_name <$> phases) /\ Forall phase_ok phases /\
    forall name,
      if decide (name ∈ cp_name <$> phases)
      then exists p, compile c (Some name) = Some (Ok [p]) /\ p ∈ phases /\ cp_name p = name
      else exists e, compile c (Some name) = Some (Err e).
Proof.
  unfold scenario_validate in Hvalid.
  match type of Hvalid with match ?r with _ => _ end = _ => destruct r as [[]|] eqn:Eh; [|done] end.
  assert (yn_phases c <> []) as Hne.
  { do 4 (apply result_bind_Ok in Eh as (? & _ & Eh)). by case_decide. }
  destruct (validate_names_Ok _ _ Hvalid) as (ps & Hps & Hall & Hnd & _). destruct (compiled_names _ _ Hall Htyped) as [Hn Hok].
  exists ps. split_and!; [exact Hps| |done|by rewrite Hn|done|].
  - intros ->. apply Forall2_nil_inv_r in Hall. done.
  - intros name. pose proof (find_phase name _ _ Hall Hn) as Hf. unfold compile, running, selected_phase.
    destruct (find _ (yn_phases c)) as [y|].
    + destruct Hf as (p & Hc & Hin & Hname). rewrite decide_True by (rewrite <- Hname; by apply list_elem_of_fmap_2). exists p.
      cbn. rewrite Hc. cbn. done.
    + rewrite decide_False by done. by eexists.
Qed.

(** *** Phases on the wire *)

Lemma from_text_source text vars : wire_payload (from_text_with_vars text vars) = WireText text.
Proof. unfold from_text_with_vars. by destruct (is_dynamic _). Qed.

Lemma phase_payload_back text vars : phase_payload vars (from_text text) = from_text_with_vars text vars.
Proof.
  unfold from_text, from_text_with_vars at 1. destruct (is_dynamic (parse_with_vars text [])) eqn:E; cbn [phase_payload tp_source parse_with_vars];
    case_decide as Hv; try done; rewrite Hv; unfold from_text_with_vars; by rewrite E.
Qed.

Lemma list_find_none {A} (P : A -> Prop) `{forall a, Decision (P a)} l : Forall (fun a => ~ P a) l -> list_find P l = None.
Proof. by rewrite list_find_None. Qed.

Lemma action_back (p : CompiledPhase) action : action_ok (cp_vars p) (cp_action_names p) action ->
  into_scenario_action (from_phase p) (wire_action action) = Ok action.
Proof.
  destruct action as [payload count expect captures name|d|i|code reason]; cbn [action_ok wire_action into_scenario_action from_phase wp_vars wp_action_names].
  - intros (Hc & He & Hcap & Hn & Hp).
    assert (match name with Some name => (length (cp_action_names p) <=? name)%nat | None => false end = false) as ->.
    { destruct name as [n|]; [|done]. apply Nat.leb_gt. by apply Hn. }
    rewrite (proj2 (Z.eqb_neq _ _) Hc).
    assert (match expect with
            | Some check => result_map_err (fun e => ConfigFailure (invalid_phase (wp_name (from_phase p)) ("expect: " +:+ e))) (check_validate check)
            | None => Ok tt
            end = Ok tt) as ->.
    { destruct expect as [check|]; [|done]. by rewrite (He check). }
    cbn [result_bind]. rewrite list_find_none by (eapply Forall_impl; [exact Hcap|]; cbn; intros c [Hv _]; lia).
    assert (optional (fun payload => payload_from_wire payload (cp_vars p)) (wire_payload <$> payload) = Ok payload) as ->; [|done].
    destruct payload as [pl|]; [|done]. destruct (Hp pl eq_refl) as [text ->]. cbn. by rewrite from_text_source.
  - intros Hd. by rewrite (proj2 (Z.eqb_neq _ _) Hd).
  - intros Hd. by rewrite (proj2 (Z.eqb_neq _ _) Hd).
  - intros Hd. unfold validate_close_code. by rewrite Hd.
Qed.

Lemma actions_back (p : CompiledPhase) actions : Forall (action_ok (cp_vars p) (cp_action_names p)) actions ->
  result_collect (into_scenario_action (from_phase p)) (wire_action <$> actions) = Ok actions.
Proof. intros Hall. induction Hall as [|a l Ha _ IH]; [done|]. cbn [fmap list_fmap result_collect]. by rewrite (action_back p a Ha), IH. Qed.

(** What an agent's workers index a phase's lists with. *)
Definition indexed (vars names : nat) (action : ScenarioAction JN) : Prop :=
  match action with
  | ActSend _ count _ captures name =>
      count <> 0 /\ Forall (fun c => (ca_var c < vars)%nat) captures /\ (forall n, name = Some n -> (n < names)%nat)
  | ActWait duration => duration <> 0
  | ActPing interval => interval <> 0
  | ActClose code _ => is_sendable_close_code code = true
  end.

Lemma into_scenario_action_indexed w action r : into_scenario_action w action = Ok r -> indexed (length (wp_vars w)) (length (wp_action_names w)) r.
Proof.
  destruct action as [payload count expect captures name|d|i|code reason]; cbn [into_scenario_action]; intros Hr.
  - destruct (match name with Some name => _ | None => false end) eqn:En; [done|]. destruct (Z.eqb_spec count 0); [done|].
    apply result_bind_Ok in Hr as ([] & _ & Hr). destruct (list_find _ captures) as [[]|] eqn:Ef; [done|].
    apply result_bind_Ok in Hr as (pl & _ & [= <-]). apply list_find_None in Ef. cbn. split_and!; [done| |].
    + eapply Forall_impl; [exact Ef|]. cbn. intros c Hc. lia.
    + intros n' ->. by apply Nat.leb_gt in En.
  - destruct (Z.eqb_spec d 0); [done|]. by injection Hr as <-.
  - destruct (Z.eqb_spec i 0); [done|]. by injection Hr as <-.
  - apply result_bind_Ok in Hr as (x & Hx & [= <-]). unfold validate_close_code in Hx. cbn.
    destruct (is_sendable_close_code code) eqn:E; [|done]. by injection Hx as <-.
Qed.

(** A scenario phase reaches the agents' workers unchanged: an agent
    accepts every compiled phase with the share it travels in, and its
    workers run the same actions with the same variables, names and think
    time; the connections, duration, ramp and stages are the share's, the
    payload is parsed with the phase's variables again although the share's
    was parsed without them, and the faults are the share's, or none.  Of any
    phase an agent accepts, from whatever coordinator, the captures and names
    point into its lists. *)
Theorem phases_reach_agents :
  (forall (y : PhaseConfig JN) (p : CompiledPhase) (c : RunConfig), phase_typed y -> compile_phase y = Some (Ok p) ->
     exists p', into_phase (from_phase p) c = Ok p' /\ worker_phase p' = worker_phase p /\ cp_name p' = cp_name p /\
       cp_action_names p' = cp_action_names p /\ phase_load p' = (rc_load c) <| ld_max_requests := None |> /\
       cp_rate_per_conn p' = rc_rate_per_conn c /\ cp_chaos p' = Some (default no_chaos (rc_chaos c)) /\
       forall payload, cp_payload p = Some payload -> payload_into (wire_payload payload) = Ok (rc_payload c) ->
         cp_payload p' = Some payload) /\
  (forall (w : WirePhase) (c : RunConfig) (p' : CompiledPhase), into_phase w c = Ok p' ->
     Forall (indexed (length (cp_vars p')) (length (cp_action_names p'))) (cp_actions p') /\
     Forall (fun name => check_var_name name = Ok tt) (cp_vars p')).
Proof.
  split.
  - intros y p c Hty Hc. destruct (compiled_phase_ok y p Hc Hty) as [(_ & _ & _ & Hvars & _ & _ & Hact & Hpay & _) _].
    unfold into_phase. cbn [from_phase wp_vars wp_name wp_actions wp_action_names wp_think_time].
    assert (exists us, result_collect (fun name => result_map_err (fun e => ConfigFailure (invalid_phase (cp_name p) ("capture: " +:+ e)))
      (check_var_name name)) (cp_vars p) = Ok us) as [us ->].
    { apply collect_unit. eapply Forall_impl; [exact Hvars|]. intros name Hn. by rewrite Hn. }
    cbn [result_bind]. rewrite actions_back by done. cbn [result_bind]. eexists. split; [done|].
    repeat (split; [by try destruct (rc_load c)|]). intros payload Hp Hw. destruct (Hpay payload Hp) as [text ->].
    rewrite from_text_source in Hw. cbn in Hw. injection Hw as Hw. cbn. rewrite <- Hw. by rewrite phase_payload_back.
  - intros w c p' Hr. unfold into_phase in Hr. apply result_bind_Ok in Hr as (us & Hus & Hr). apply result_bind_Ok in Hr as (actions & Ha & [= <-]).
    cbn. split.
    + apply result_collect_Ok in Ha. induction Ha as [|a r l l' Ha _ IH]; [constructor|]. constructor; [by apply (into_scenario_action_indexed w a)|done].
    + assert (exists us, result_collect (fun name => result_map_err (fun e => ConfigFailure (invalid_phase (wp_name w) ("capture: " +:+ e)))
        (check_var_name name)) (wp_vars w) = Ok us) as Hx by by exists us. apply collect_unit in Hx.
      eapply Forall_impl; [exact Hx|]. intros name Hn. by apply result_map_err_Ok in Hn.
Qed.
End Compiled.

(** A warm-up, then a staged phase whose second message uses what the first
    one's reply held. *)
Module SampleScenario.
#[local] Existing Instance Sample.no_format.
#[local] Existing Instance PlainLibs.plain_libs.

Definition warmup : PhaseConfig JN :=
  mkPhaseConfig "warmup" None (Some "5s"%string) (Some 10) (Some 5) None None None None 0 None None [] None None.
Definition orders : PhaseConfig JN :=
  mkPhaseConfig "orders" (Some "ws://127.0.0.1:9002/orders"%string) None None None (Some (Spec "30s:100, 10s:0")) None None None 5
    (Some "{{seq}} {{id}}"%string) (Some "250ms"%string)
    [YSend (Some "new"%string) None (Some (mkExpectConfig None None (Some "id"%string))) (Some [("id", "/order/id")]%string) (Some "order"%string)
       (Some (mkSloConfig (Some "20ms"%string) None None None None None None));
     YWait "1s"; YSend (Some "cancel {{id}}"%string) (Some 2) None None (Some "cancel"%string) None; YClose None (Some "bye"%string)]
    None (Some (mkChaosYaml (Some "5ms:2ms"%string) None None None None None None)).
Definition config : ScenarioConfig JN :=
  mkScenarioConfig "1.0" (Some "wss://example.org"%string) "orders" None None [warmup; orders].
Definition share : option (result RunConfig WsBlastError) :=
  build_config Sample.env ((builder_new "ws://127.0.0.1:9002/orders") <| lb_payload := from_text "{{seq}} {{id}}" |>).
End SampleScenario.
#[local] Existing Instance Sample.no_format.
#[local] Existing Instance PlainLibs.plain_libs.

Lemma scenario_compiles_witness : exists phases, compile SampleScenario.config None = Some (Ok phases) /\
  cp_name <$> phases = ["warmup"; "orders"]%string /\ Forall phase_ok phases /\
  (cp_vars <$> phases, cp_action_names <$> phases, cp_connections <$> phases) = ([[]; ["id"]]%string, [[]; ["order"; "cancel"]]%string, [10; 100]).
Proof.
  destruct (scenario_compiles (H := PlainLibs.plain_libs) (H0 := Sample.no_format) SampleScenario.config) as (phases & Hc & _ & Hn & _ & Hok & _).
  - repeat constructor; intros stages; cbn; [discriminate|]. intros [= <-]. exact I.
  - vm_compute. reflexivity.
  - exists phases. split; [exact Hc|]. split; [exact Hn|]. split; [exact Hok|].
    assert (match compile SampleScenario.config None with
            | Some (Ok ps) => (cp_vars <$> ps, cp_action_names <$> ps, cp_connections <$> ps) =
                ([[]; ["id"]]%string, [[]; ["order"; "cancel"]]%string, [10; 100])
            | _ => False end) as Hv by (vm_compute; reflexivity). rewrite Hc in Hv. exact Hv.
Defined.

Lemma phases_reach_agents_witness : exists p c p', compile_phase SampleScenario.orders = Some (Ok p) /\ SampleScenario.share = Some (Ok c) /\
  into_phase (from_phase p) c = Ok p' /\ worker_phase p' = worker_phase p /\ cp_payload p' = cp_payload p /\
  option_map wire_payload (cp_payload p') = Some (WireText "{{seq}} {{id}}").
Proof.
  destruct (ok_exists (compile_phase SampleScenario.orders)) as [p Hp]; [vm_compute; reflexivity|].
  destruct (ok_exists SampleScenario.share) as [c Hc]; [vm_compute; reflexivity|].
  assert (match compile_phase SampleScenario.orders with
          | Some (Ok p) => cp_payload p = Some (from_text_with_vars "{{seq}} {{id}}" ["id"%string])
          | _ => False end) as Hpay by (vm_compute; reflexivity).
  rewrite Hp in Hpay.
  assert (match SampleScenario.share with Some (Ok c) => rc_payload c = from_text "{{seq}} {{id}}" | _ => False end) as Hrc by (vm_compute; reflexivity).
  rewrite Hc in Hrc.
  destruct (proj1 (phases_reach_agents (H := PlainLibs.plain_libs) (H0 := Sample.no_format)) SampleScenario.orders p c)
    as (p' & Hin & Hw & _ & _ & _ & _ & _ & Hpl).
  - intros stages. cbn. intros [= <-]. exact I.
  - exact Hp.
  - assert (cp_payload p' = cp_payload p) as He.
    { rewrite Hpay. apply Hpl; [exact Hpay|]. rewrite Hrc. vm_compute. reflexivity. }
    exists p, c, p'. rewrite He, Hpay. exact (conj Hp (conj Hc (conj Hin (conj Hw (conj eq_refl eq_refl))))).
Defined.

(** The limit on action names counts bytes: forty characters of two bytes
    each are too long. *)
Definition long_name : string := string_of_bytes (concat (replicate 40 [195; 169])).
Lemma action_names_are_measured_in_bytes : char_count long_name = 40 /\ bad_action_name long_name = true /\
  bad_action_name (string_of_bytes (concat (replicate 40 [101]))) = false.
Proof. vm_compute. split; [|split]; reflexivity. Qed.
