(* ===== verification/Compare.v ===== *)
(** * Comparing two reports (src/src/report.rs, src/src/series_compare.rs, src/src/app.rs)

    The metrics of a report by name, the metrics derived from its time
    series, and which of them changed beyond a threshold, in which
    direction. *)

From Stdlib Require Import ZArith Lia Ascii String Floats.SpecFloat.
From stdpp Require Import base tactics strings numbers option gmap sorting list fin_map_dom.
From S2P Require Import Prelude RustStd Str Hdr Live HumanDuration TimeSeries Summaries Metrics.

Local Open Scope Z_scope.
Local Open Scope rust_scope.

(** ** The window of a comparison *)

Record CompareWindow := mkCompareWindow { cw_start : option Z; cw_end : option Z }.

Definition EDGE_SLACK : f64 := f64_lit 1 20.
Definition SERIES_PREFIX : string := "series.".

(** [debug] is [{:?}] of a string. *)
Definition CompareWindow_parse (debug : string -> string) (value : string) : result CompareWindow WsBlastError :=
  let invalid reason := ConfigFailure (InvalidOption ("--compare-window " ++ debug value ++ ": " ++ reason)) in
  match find_split ".." (trim value) with
  | None => Err (invalid "expected START..END, for example 10s..50s, 10s.. or ..50s")
  | Some (start, end_) =>
      let side (text name : string) : result (option Z) WsBlastError :=
        let text := trim text in
        if decide (text = ""%string) then Ok None
        else result_map_err (fun _ => invalid (name +:+ " " +:+ debug text +:+
               " is not a non-negative duration such as 10s or 500ms"))
               (let? d := parse_human_duration text in Ok (Some d)) in
      let? start := side start "start"%string in
      let? end_ := side end_ "end"%string in
      match start, end_ with
      | None, None => Err (invalid "give a start, an end or both, for example 10s..50s")
      | start, Some e =>
          if e <=? default 0 start then Err (invalid "the start must be before the end")
          else Ok (mkCompareWindow start (Some e))
      | start, None => Ok (mkCompareWindow start None)
      end
  end.

Definition start_secs (w : CompareWindow) : f64 := from_option as_secs_f64 f64_zero (cw_start w).
Definition end_secs (w : CompareWindow) : f64 := from_option as_secs_f64 f64_infinity (cw_end w).

Definition window_contains (w : CompareWindow) (point : TimeSeriesPoint) (slack : f64) : bool :=
  f64_leb (f64_sub (start_secs w) slack) (tp_start_secs point)
  && f64_leb (f64_add (tp_start_secs point) (tp_duration_secs point)) (f64_add (end_secs w) slack).

Definition window_points (series : TimeSeries) (window : option CompareWindow) : list TimeSeriesPoint :=
  let slack := f64_mul (f64_max (ts_interval_secs series) f64_zero) EDGE_SLACK in
  filter (fun point => from_option (fun w => window_contains w point slack) true window = true) (ts_points series).

(** ** Metrics of a time series *)

Record SeriesSummary := mkSeriesSummary {
  ss_points : nat;
  ss_throughput_mean : option f64;
  ss_throughput_cv : option f64;
  ss_p99_median_us : option f64;
  ss_p99_worst_us : option f64;
  ss_error_intervals : Z;
  ss_max_interval_errors : Z;
}.

(** [iter().sum::<f64>()]; the sum of nothing is only compared with zero. *)
Definition f64_sum (xs : list f64) : f64 := fold_left f64_add xs (S754_zero true).

Definition median (p99s : list Z) : option f64 :=
  match length p99s with
  | O => None
  | n => if (n mod 2 =? 1)%nat then f64_of_Z <$> p99s !! (n / 2)%nat
         else a ← p99s !! (n / 2 - 1)%nat; b ← p99s !! (n / 2)%nat;
              Some (f64_div (f64_add (f64_of_Z a) (f64_of_Z b)) (f64_of_Z 2))
  end.

Definition SeriesSummary_of (series : TimeSeries) (window : option CompareWindow) : SeriesSummary :=
  let points := window_points series window in
  let min_full := f64_mul (ts_interval_secs series) (f64_sub f64_one EDGE_SLACK) in
  let full := (fun p => (tp_throughput_msg_per_sec p, tp_duration_secs p)) <$>
    filter (fun p => f64_leb min_full (tp_duration_secs p) && f64_ltb f64_zero (tp_duration_secs p) = true) points in
  let total_secs := f64_sum full.*2 in
  let throughput_mean :=
    if f64_ltb f64_zero total_secs
    then Some (f64_div (f64_sum ((fun '(rate, secs) => f64_mul rate secs) <$> full)) total_secs) else None in
  let throughput_cv :=
    mean ← throughput_mean;
    if f64_ltb f64_zero mean && (2 <=? length full)%nat then
      let square x := f64_mul x x in
      let variance := f64_div (f64_sum ((fun '(rate, secs) => f64_mul secs (square (f64_sub rate mean))) <$> full)) total_secs in
      Some (f64_div (f64_sqrt variance) mean)
    else None in
  let p99s := merge_sort Z.le
    ((fun p => il_p99_us (tp_latency p)) <$> filter (fun p => 0 < il_count (tp_latency p)) points) in
  mkSeriesSummary (length points) throughput_mean throughput_cv (median p99s) (f64_of_Z <$> last p99s)
    (Z.of_nat (length (filter (fun p => 0 < tp_errors p) points)))
    (default 0 (iter_max (tp_errors <$> points))).

Definition insert_some (name : string) (value : option f64) (map : gmap string f64) : gmap string f64 :=
  match value with Some value => <[ (SERIES_PREFIX ++ name)%string := value ]> map | None => map end.
Definition insert_into (s : SeriesSummary) (map : gmap string f64) : gmap string f64 :=
  if (ss_points s =? 0)%nat then map
  else
    let map := insert_some "throughput_mean" (ss_throughput_mean s) map in
    let map := insert_some "throughput_cv" (ss_throughput_cv s) map in
    let map := insert_some "p99_median_us" (ss_p99_median_us s) map in
    let map := insert_some "p99_worst_us" (ss_p99_worst_us s) map in
    let map := insert_some "error_intervals" (Some (f64_of_Z (ss_error_intervals s))) map in
    insert_some "max_interval_errors" (Some (f64_of_Z (ss_max_interval_errors s))) map.

Definition series_higher_is_better (metric : string) : bool := bool_decide (metric = "series.throughput_mean"%string).

(** ** Metrics of a report *)

(** The [serde] name of a category. *)
Definition ErrorCategory_serde (c : ErrorCategory) : string :=
  match c with
  | DnsResolution => "dns_resolution" | TcpConnect => "tcp_connect" | TlsHandshake => "tls_handshake"
  | HttpUpgradeRejected => "http_upgrade_rejected" | ProtocolError => "protocol_error" | WriteError => "write_error"
  | ReadError => "read_error" | Timeout => "timeout" | UnexpectedClose => "unexpected_close" | Other => "other"
  | CheckFailed => "check_failed"
  end.

Definition insert_all (entries : list (string * f64)) (map : gmap string f64) : gmap string f64 :=
  fold_left (fun map '(name, value) => <[name := value]> map) entries map.

Definition percentiles (prefix : string) (l : LatencyStats) : list (string * f64) :=
  [((prefix ++ ".p50_us")%string, f64_of_Z (l_p50_us l)); ((prefix ++ ".p95_us")%string, f64_of_Z (l_p95_us l));
   ((prefix ++ ".p99_us")%string, f64_of_Z (l_p99_us l)); ((prefix ++ ".p999_us")%string, f64_of_Z (l_p999_us l))].

Definition metrics_to_map (m : AggregatedMetrics) : gmap string f64 :=
  let map := insert_all
    [("total_connections_attempted"%string, f64_of_Z (ag_total_connections_attempted m));
     ("total_connections_established"%string, f64_of_Z (ag_total_connections_established m));
     ("total_connections_failed"%string, f64_of_Z (ag_total_connections_failed m));
     ("total_messages_sent"%string, f64_of_Z (ag_total_messages_sent m));
     ("total_messages_recv"%string, f64_of_Z (ag_total_messages_recv m));
     ("total_bytes_sent"%string, f64_of_Z (ag_total_bytes_sent m));
     ("total_bytes_recv"%string, f64_of_Z (ag_total_bytes_recv m));
     ("throughput_msg_per_sec"%string, ag_throughput_msg_per_sec m);
     ("throughput_bytes_per_sec"%string, ag_throughput_bytes_per_sec m);
     ("error_rate"%string, ag_error_rate m)] ∅ in
  let map := insert_all ((fun '(category, count) => (("errors." ++ ErrorCategory_serde category)%string, f64_of_Z count))
    <$> map_to_list (ag_error_breakdown m)) map in
  let map := insert_all (percentiles "handshake_latency" (ag_handshake_latency m)) map in
  let map := insert_all (percentiles "message_rtt" (ag_message_rtt m)) map in
  if 0 <? l_count (ag_response_time m) then insert_all (percentiles "response_time" (ag_response_time m)) map else map.

(** ** Scoring *)

Inductive MetricDirection := HigherIsBetter | LowerIsBetter | Neutral.
#[export] Instance MetricDirection_eq_dec : EqDecision MetricDirection.
Proof. solve_decision. Defined.

Definition metric_direction (metric : string) : MetricDirection :=
  if decide (metric = "total_connections_attempted"%string) then Neutral
  else if decide (metric = "total_connections_failed"%string \/ metric = "error_rate"%string) then LowerIsBetter
  else if starts_with "errors." metric then LowerIsBetter
  else if starts_with SERIES_PREFIX metric then
    if series_higher_is_better metric then HigherIsBetter else LowerIsBetter
  else if starts_with "handshake_latency." metric || starts_with "message_rtt." metric || starts_with "response_time." metric
  then LowerIsBetter
  else HigherIsBetter.
Definition higher_is_better (metric : string) : bool := bool_decide (metric_direction metric = HigherIsBetter).

Inductive ChangeOutcome := OutcomeRegression | OutcomeImprovement | WithinThreshold.
#[export] Instance ChangeOutcome_eq_dec : EqDecision ChangeOutcome.
Proof. solve_decision. Defined.

(** [ComparedMetric]; without the last two fields, [Regression] and
    [Improvement]. *)
Record Change := mkChange { ch_metric : string; ch_baseline : f64; ch_current : f64; ch_pct_change : f64 }.
Record ComparedMetric := mkComparedMetric { cm_change : Change; cm_higher_is_better : bool; cm_outcome : ChangeOutcome }.

Definition f64_opp : f64 -> f64 := SFopp.
Definition f64_eqb : f64 -> f64 -> bool := SFeqb.

Definition pct_change_of (baseline_val current_val : f64) : f64 :=
  if f64_eqb baseline_val f64_zero then f64_of_Z 100
  else f64_mul (f64_div (f64_sub current_val baseline_val) baseline_val) (f64_of_Z 100).

Definition outcome_of (direction : MetricDirection) (threshold pct_change : f64) : ChangeOutcome :=
  let '(regressed, improved) :=
    match direction with
    | HigherIsBetter => (f64_ltb pct_change (f64_opp threshold), f64_ltb threshold pct_change)
    | LowerIsBetter => (f64_ltb threshold pct_change, f64_ltb pct_change (f64_opp threshold))
    | Neutral => (false, false)
    end in
  if regressed : bool then OutcomeRegression else if improved : bool then OutcomeImprovement else WithinThreshold.

(** Whether a metric is left out when only one report has it. *)
Definition needs_both (metric : string) : bool := starts_with "response_time." metric || starts_with SERIES_PREFIX metric.

(** One round of the loop; [None] is a [continue]. *)
Definition compare_metric (baseline current : gmap string f64) (threshold : f64) (metric : string) : option ComparedMetric :=
  let direction := metric_direction metric in
  if decide (direction = Neutral) then None
  else if needs_both metric && negb (bool_decide (is_Some (baseline !! metric)) && bool_decide (is_Some (current !! metric)))
  then None
  else
    let baseline_val := default f64_zero (baseline !! metric) in
    let current_val := default f64_zero (current !! metric) in
    if f64_eqb baseline_val f64_zero && f64_eqb current_val f64_zero then None
    else
      let pct_change := pct_change_of baseline_val current_val in
      Some (mkComparedMetric (mkChange metric baseline_val current_val pct_change)
              (bool_decide (direction = HigherIsBetter)) (outcome_of direction threshold pct_change)).

Record BaselineComparison := mkBaselineComparison {
  bc_regressions : list Change;
  bc_improvements : list Change;
  bc_series_compared : bool;
  bc_compared : list ComparedMetric;
}.

(** The keys of both maps in order. *)
Definition metric_names (baseline current : gmap string f64) : list string :=
  merge_sort String.le (elements (dom baseline ∪ dom current)).

Definition changes_with (outcome : ChangeOutcome) (compared : list ComparedMetric) : list Change :=
  cm_change <$> filter (fun c => cm_outcome c = outcome) compared.

Definition has_series (map : gmap string f64) : bool :=
  existsb (starts_with SERIES_PREFIX) (map_to_list map).*1.

(** The map of a report with its series metrics. *)
Definition scored_map (m : AggregatedMetrics) (window : option CompareWindow) : gmap string f64 :=
  insert_into (SeriesSummary_of (ag_time_series m) window) (metrics_to_map m).

Definition compare_metrics_in (baseline current : AggregatedMetrics) (threshold : f64) (window : option CompareWindow)
  : BaselineComparison :=
  let baseline_map := scored_map baseline window in
  let current_map := scored_map current window in
  let compared := omap (compare_metric baseline_map current_map threshold) (metric_names baseline_map current_map) in
  mkBaselineComparison (changes_with OutcomeRegression compared) (changes_with OutcomeImprovement compared)
    (has_series baseline_map && has_series current_map) compared.

(** A window must hold an interval of the report's series; [shown] is the
    window as printed and [covered] the end of the series. *)
Definition check_window_covers (shown path covered : string) (window : CompareWindow) (m : AggregatedMetrics)
  : result unit WsBlastError :=
  let error (reason : string) : result unit WsBlastError :=
    Err (ConfigFailure (InvalidOption ("--compare-window " +:+ shown +:+ ": " +:+ path +:+ " " +:+ reason))) in
  if decide (ts_points (ag_time_series m) = [])
  then error "has no time series (reports from wsblast 0.2.0 and earlier have none)"
  else if decide (window_points (ag_time_series m) (Some window) = [])
  then error ("has no interval inside the window (its time series covers 0s.." +:+ covered +:+ "s)")
  else Ok tt.

(** What [--compare] does with two reports it has read; [shown], [covered]
    and [printed] are the texts of its messages. *)
Definition compare_reports (debug : string -> string) (shown : CompareWindow -> string)
    (covered : AggregatedMetrics -> string) (printed : string) (threshold : f64) (window : option string)
    (baseline current : string * AggregatedMetrics) : result BaselineComparison WsBlastError :=
  if negb (f64_is_finite threshold) || f64_ltb threshold f64_zero
  then Err (ConfigFailure (InvalidThreshold
         ("--compare-threshold must be a finite non-negative percentage, received " ++ printed)))
  else
    let? window := match window with
                   | Some value => let? w := CompareWindow_parse debug value in Ok (Some w)
                   | None => Ok None
                   end in
    let? _ := match window with
              | Some w =>
                  let? _ := check_window_covers (shown w) baseline.1 (covered baseline.2) w baseline.2 in
                  check_window_covers (shown w) current.1 (covered current.2) w current.2
              | None => Ok tt
              end in
    Ok (compare_metrics_in baseline.2 current.2 threshold window).

(** How [--compare] ends. *)
Definition compare_exit_code (fail_on_regression : bool) (comparison : BaselineComparison) : Z :=
  if fail_on_regression && negb (bool_decide (bc_regressions comparison = [])) then 2 else 0.

(** ** What a comparison reports *)

Lemma elem_of_metric_names a b name : name ∈ metric_names a b <-> is_Some (a !! name) \/ is_Some (b !! name).
Proof. unfold metric_names. by rewrite merge_sort_Permutation, elem_of_elements, elem_of_union, !elem_of_dom. Qed.
Lemma metric_names_NoDup a b : NoDup (metric_names a b).
Proof. unfold metric_names. rewrite merge_sort_Permutation. apply NoDup_elements. Qed.
Lemma metric_names_sorted a b : Sorted String.le (metric_names a b).
Proof. apply Sorted_merge_sort, _. Qed.

(** The metrics whose worse direction is up, those that have none, and the
    rest; the metrics compared only when both reports have them. *)
Definition named_in (areas : list string) (name : string) : Prop := exists area rest, area ∈ areas /\ name = (area +:+ rest)%string.
Definition worse_up (name : string) : Prop :=
  name ∈ ["total_connections_failed"; "error_rate"]%string \/
  named_in ["errors."; "handshake_latency."; "message_rtt."; "response_time."; "series."]%string name /\ name <> "series.throughput_mean"%string.
Definition undirected (name : string) : Prop := name = "total_connections_attempted"%string.
Definition worse_down (name : string) : Prop := ~ worse_up name /\ ~ undirected name.

(** A metric is scored when it has a direction, is in one of the reports (in
    both, if it must be), and is not zero in both. *)
Definition scored (baseline current : gmap string f64) (name : string) : Prop :=
  ~ undirected name /\
  (is_Some (baseline !! name) \/ is_Some (current !! name)) /\
  (named_in ["response_time."; "series."]%string name -> is_Some (baseline !! name) /\ is_Some (current !! name)) /\
  ~ (f64_eqb (default f64_zero (baseline !! name)) f64_zero = true /\
     f64_eqb (default f64_zero (current !! name)) f64_zero = true).
(** How a scored metric is reported: its values, 0 where a report lacks it,
    and the change in percent, 100 from a zero. *)
Definition reported_change (baseline current : gmap string f64) (name : string) (change : Change) : Prop :=
  let b := default f64_zero (baseline !! name) in
  let c := default f64_zero (current !! name) in
  ch_metric change = name /\ ch_baseline change = b /\ ch_current change = c /\
  (f64_eqb b f64_zero = true /\ ch_pct_change change = f64_of_Z 100 \/
   f64_eqb b f64_zero = false /\ ch_pct_change change = f64_mul (f64_div (f64_sub c b) b) (f64_of_Z 100)).
(** A change past the threshold for the worse and for the better. *)
Definition got_worse (name : string) (threshold pct : f64) : Prop :=
  worse_up name /\ f64_ltb threshold pct = true \/ worse_down name /\ f64_ltb pct (f64_opp threshold) = true.
Definition got_better (name : string) (threshold pct : f64) : Prop :=
  worse_up name /\ f64_ltb pct (f64_opp threshold) = true \/ worse_down name /\ f64_ltb threshold pct = true.

Lemma named_in_cons area areas name : named_in (area :: areas) name <-> starts_with area name = true \/ named_in areas name.
Proof. unfold named_in. rewrite starts_with_rest. set_solver. Qed.
Lemma named_in_nil name : named_in [] name <-> False.
Proof. unfold named_in. set_solver. Qed.
Lemma needs_both_spec name : needs_both name = true <-> named_in ["response_time."; "series."]%string name.
Proof. unfold needs_both. rewrite orb_true_iff, !named_in_cons, named_in_nil. unfold SERIES_PREFIX. naive_solver. Qed.
Lemma worse_up_spec name : worse_up name <-> name ∈ ["total_connections_failed"; "error_rate"]%string \/
  (starts_with "errors." name = true \/ starts_with "handshake_latency." name = true \/ starts_with "message_rtt." name = true \/
   starts_with "response_time." name = true \/ starts_with "series." name = true \/ False) /\ name <> "series.throughput_mean"%string.
Proof. unfold worse_up. by rewrite !named_in_cons, named_in_nil. Qed.
Lemma metric_direction_spec name :
  match metric_direction name with Neutral => undirected name | LowerIsBetter => worse_up name | HigherIsBetter => worse_down name end.
Proof.
  unfold metric_direction, worse_down, undirected. destruct (decide (name = _)) as [->|Hna]; [done|].
  destruct (decide (_ \/ _)) as [Hd|Hd]; [left; set_solver|]. pose proof (worse_up_spec name) as Hw.
  unfold SERIES_PREFIX, series_higher_is_better.
  assert (name ∉ ["total_connections_failed"; "error_rate"]%string) as Hnin by set_solver. clear Hd.
  destruct (decide (name = "series.throughput_mean"%string)) as [->|Hm]; [unfold undirected in *; cbn -[not] in *; naive_solver|].
  rewrite bool_decide_false by done.
  destruct (starts_with "errors." name), (starts_with "series." name), (starts_with "handshake_latency." name),
    (starts_with "message_rtt." name), (starts_with "response_time." name); cbn; intuition congruence.
Qed.
Lemma neutral_spec name : metric_direction name = Neutral <-> undirected name.
Proof. split; [intros E; pose proof (metric_direction_spec name) as Hd; rewrite E in Hd; exact Hd|]. unfold undirected. by intros ->. Qed.

(** What is reported of a scored metric. *)
Definition scored_entry (baseline current : gmap string f64) (threshold : f64) (name : string) : ComparedMetric :=
  let b := default f64_zero (baseline !! name) in
  let c := default f64_zero (current !! name) in
  mkComparedMetric (mkChange name b c (pct_change_of b c)) (higher_is_better name)
    (outcome_of (metric_direction name) threshold (pct_change_of b c)).

Lemma compare_metric_Some baseline current threshold name entry : name ∈ metric_names baseline current ->
  compare_metric baseline current threshold name = Some entry <->
  scored baseline current name /\ entry = scored_entry baseline current threshold name.
Proof.
  rewrite elem_of_metric_names. intros Hin. unfold compare_metric, scored, scored_entry, higher_is_better.
  rewrite <- neutral_spec, <- needs_both_spec. case_decide as Hd; [naive_solver|].
  destruct (needs_both name); cbn [andb].
  - destruct (bool_decide_reflect (is_Some (baseline !! name))), (bool_decide_reflect (is_Some (current !! name)));
      cbn [andb negb]; try (split; [done|]; intros [(_ & _ & Hn & _) _]; exfalso; by destruct (Hn eq_refl)).
    destruct (f64_eqb (default f64_zero (baseline !! name)) f64_zero), (f64_eqb (default f64_zero (current !! name)) f64_zero);
      cbn [andb]; naive_solver.
  - destruct (f64_eqb (default f64_zero (baseline !! name)) f64_zero), (f64_eqb (default f64_zero (current !! name)) f64_zero);
      cbn [andb]; naive_solver.
Qed.

Lemma scored_entry_reported b c threshold name : reported_change b c name (cm_change (scored_entry b c threshold name)).
Proof. unfold reported_change, scored_entry, pct_change_of. cbn. split_and!; [done..|]. destruct (f64_eqb _ _); auto. Qed.
Lemma reported_change_unique b c name x y : reported_change b c name x -> reported_change b c name y -> x = y.
Proof. destruct x, y. unfold reported_change. cbn. intros (-> & -> & -> & Hp) (-> & -> & -> & Hq). f_equal. naive_solver congruence. Qed.
Lemma outcome_spec b c threshold name : scored b c name ->
  let entry := scored_entry b c threshold name in
  (cm_outcome entry = OutcomeRegression <-> got_worse name threshold (ch_pct_change (cm_change entry))) /\
  (cm_outcome entry = OutcomeImprovement <->
   got_better name threshold (ch_pct_change (cm_change entry)) /\ ~ got_worse name threshold (ch_pct_change (cm_change entry))).
Proof.
  intros [Hn _]. unfold scored_entry, outcome_of, got_worse, got_better. cbn. generalize (pct_change_of (default f64_zero (b !! name)) (default f64_zero (c !! name))). intros p.
  pose proof (metric_direction_spec name) as Hd. destruct (metric_direction name); [| |done]; cbn in Hd.
  - assert (~ worse_up name) by apply Hd. destruct (f64_ltb p _), (f64_ltb threshold p); naive_solver.
  - assert (~ worse_down name) by (intros [? _]; auto). destruct (f64_ltb p _), (f64_ltb threshold p); naive_solver.
Qed.

(** C32. A comparison scores every metric once and by its own direction. The
    metrics it scores are, each once and in name order, those of either
    report that have a direction and are not zero in both (response times
    and time-series metrics only when both reports have them). A metric
    whose worse direction is up is a regression exactly when it grew by more
    than the threshold, one whose worse direction is down exactly when it
    shrank by more, and an improvement exactly when it changed by more the
    other way (and is no regression, which only a negative threshold could
    make it); the regressions and the improvements are all of the scored
    metrics with that outcome, with their values in both reports and the
    change in percent, and with [--fail-on-regression] the exit code is 2
    exactly when there is a regression. *)
Theorem comparison_scores_every_metric (baseline current : AggregatedMetrics) (threshold : f64)
    (window : option CompareWindow) :
  let b := scored_map baseline window in
  let c := scored_map current window in
  let comparison := compare_metrics_in baseline current threshold window in
  let names := ch_metric ∘ cm_change <$> bc_compared comparison in
  NoDup names /\ (exists others, Sorted String.le others /\ names `sublist_of` others) /\
  (forall name, name ∈ names <-> scored b c name) /\
  (forall change, change ∈ bc_regressions comparison <-> exists name, scored b c name /\
     reported_change b c name change /\ got_worse name threshold (ch_pct_change change)) /\
  (forall change, change ∈ bc_improvements comparison <-> exists name, scored b c name /\
     reported_change b c name change /\ got_better name threshold (ch_pct_change change) /\
     ~ got_worse name threshold (ch_pct_change change)) /\
  (compare_exit_code true comparison = 2 <-> exists change, change ∈ bc_regressions comparison).
Proof.
  cbv zeta. set (b := scored_map baseline window). set (c := scored_map current window).
  unfold compare_metrics_in. fold b c. clearbody b c. cbn [bc_compared bc_regressions bc_improvements].
  set (compared := omap (compare_metric b c threshold) (metric_names b c)).
  assert (forall entry, entry ∈ compared <-> exists name, scored b c name /\ entry = scored_entry b c threshold name) as Hin.
  { intros entry. unfold compared. rewrite list_elem_of_omap. split.
    - intros (name & Hn & He). exists name. by apply compare_metric_Some.
    - intros (name & Hs & ->). exists name. assert (name ∈ metric_names b c) as Hn by (apply elem_of_metric_names, Hs).
      split; [done|]. by apply compare_metric_Some. }
  assert (ch_metric ∘ cm_change <$> compared `sublist_of` metric_names b c) as Hsub.
  { unfold compared. assert (Forall (fun n => n ∈ metric_names b c) (metric_names b c)) as Hall by (by apply Forall_forall).
    revert Hall. generalize (metric_names b c) at 2 3 4. intros l Hl. induction Hl as [|name l Hn Hl IH]; [done|].
    cbn. destruct (compare_metric b c threshold name) as [e|] eqn:E; cbn; [|by constructor].
    apply compare_metric_Some in E as [_ ->]; [|done]. cbn. by constructor. }
  assert (forall outcome change, change ∈ changes_with outcome compared <-> exists name, scored b c name /\
            change = cm_change (scored_entry b c threshold name) /\ cm_outcome (scored_entry b c threshold name) = outcome) as Hch.
  { intros outcome change. unfold changes_with. rewrite list_elem_of_fmap. setoid_rewrite list_elem_of_filter.
    setoid_rewrite Hin. split; [intros (? & -> & <- & name & Hs & ->); by exists name|].
    intros (name & Hs & -> & Ho). exists (scored_entry b c threshold name). split; [done|]. split; [done|]. by exists name. }
  split; [eapply sublist_NoDup; [apply metric_names_NoDup|exact Hsub]|].
  split; [exists (metric_names b c); split; [apply metric_names_sorted|exact Hsub]|].
  split.
  { intros name. rewrite list_elem_of_fmap. setoid_rewrite Hin. split; [intros (? & -> & n & Hs & ->); exact Hs|].
    intros Hs. exists (scored_entry b c threshold name). split; [done|]. by exists name. }
  assert (forall outcome (P : string -> Change -> Prop),
    (forall name, scored b c name -> cm_outcome (scored_entry b c threshold name) = outcome <-> P name (cm_change (scored_entry b c threshold name))) ->
    forall change, change ∈ changes_with outcome compared <-> exists name, scored b c name /\ reported_change b c name change /\ P name change) as Hout.
  { intros outcome P HP change. rewrite Hch. split; intros (name & Hs & Hr & Ho); exists name; (split; [done|]).
    - subst change. split; [apply scored_entry_reported|by apply HP].
    - rewrite (reported_change_unique b c name _ _ Hr (scored_entry_reported b c threshold name)) in *. split; [done|]. by apply HP. }
  split; [apply (Hout OutcomeRegression (fun n ch => got_worse n threshold (ch_pct_change ch))); intros name Hs; apply (outcome_spec b c threshold name Hs)|].
  split; [apply (Hout OutcomeImprovement (fun n ch => got_better n threshold (ch_pct_change ch) /\ ~ got_worse n threshold (ch_pct_change ch)));
    intros name Hs; apply (outcome_spec b c threshold name Hs)|].
  unfold compare_exit_code. cbn. destruct (changes_with OutcomeRegression compared) as [|ch chs]; cbn.
  - split; [done|]. intros [? Hc]. by apply not_elem_of_nil in Hc.
  - split; [intros _; exists ch; left|done].
Qed.

(** ** A report compared with itself *)

Lemma f64_sub_self x : f64_sub x x = f64_zero \/ f64_sub x x = S754_nan.
Proof.
  destruct x as [[]|[]| |s m e]; cbn; auto. left. unfold f64_sub, SFsub.
  by rewrite Z.sub_diag.
Qed.

Lemma pct_change_self x : f64_eqb x f64_zero = false -> exists y, pct_change_of x x = y /\ (y = S754_nan \/ exists s, y = S754_zero s).
Proof.
  intros Hx. unfold pct_change_of. rewrite Hx. eexists. split; [done|]. destruct (f64_sub_self x) as [->| ->].
  - destruct x as [[]|[]| |[] m e]; try done; cbn; eauto.
  - left. by destruct x.
Qed.

Lemma outcome_self direction threshold x : f64_is_finite threshold = true -> f64_ltb threshold f64_zero = false ->
  f64_eqb x f64_zero = false -> outcome_of direction threshold (pct_change_of x x) = WithinThreshold.
Proof.
  intros Hf Ht Hx. destruct (pct_change_self x Hx) as (y & -> & Hy).
  assert (f64_ltb y (f64_opp threshold) = false /\ f64_ltb threshold y = false) as [H1 H2].
  { destruct Hy as [->|[s ->]]; destruct threshold as [[]|[]| |[] m e]; try done; by destruct s. }
  unfold outcome_of. rewrite H1, H2. by destruct direction.
Qed.

(** The series metrics of a window that holds a point. *)
Lemma has_series_points m window : window_points (ag_time_series m) window <> [] -> has_series (scored_map m window) = true.
Proof.
  intros Hp. unfold has_series, scored_map, insert_into, SeriesSummary_of. cbn [ss_points].
  destruct (window_points (ag_time_series m) window) as [|p ps] eqn:E; [done|]. cbn [length Nat.eqb].
  apply existsb_exists. exists "series.max_interval_errors"%string. split; [|done].
  apply list_elem_of_In, list_elem_of_fmap.
  eexists (_, _). split; [reflexivity|]. apply elem_of_map_to_list, lookup_insert_eq.
Qed.

(** [--compare] of a report with itself, whatever the report holds (also
    infinite or undefined numbers), finds no regression and no improvement
    and exits with 0. And a window never hides the time series: when it is
    given and the comparison is made, it holds an interval of both reports
    and their time-series metrics were compared. *)
Theorem compare_is_sound (debug : string -> string) (shown : CompareWindow -> string)
    (covered : AggregatedMetrics -> string) (printed : string) (threshold : f64) (window : option string)
    (baseline current : string * AggregatedMetrics) (comparison : BaselineComparison)
    (Hrun : compare_reports debug shown covered printed threshold window baseline current = Ok comparison) :
  (baseline.2 = current.2 ->
     bc_regressions comparison = [] /\ bc_improvements comparison = [] /\ compare_exit_code true comparison = 0) /\
  (is_Some window -> bc_series_compared comparison = true).
Proof.
  unfold compare_reports in Hrun. destruct (f64_is_finite threshold) eqn:Hf; [|done].
  destruct (f64_ltb threshold f64_zero) eqn:Ht; [done|]. cbn [negb orb] in Hrun.
  apply result_bind_Ok in Hrun as (w & Hw & Hrun). apply result_bind_Ok in Hrun as (? & Hcov & [= <-]). split.
  - intros <-. set (b := scored_map baseline.2 w).
    assert (forall outcome, outcome <> WithinThreshold ->
              changes_with outcome (omap (compare_metric b b threshold) (metric_names b b)) = []) as Hnone.
    { intros outcome Ho. apply elem_of_nil_inv. intros change (entry & -> & [<- Hin]%list_elem_of_filter)%list_elem_of_fmap.
      apply list_elem_of_omap in Hin as (name & Hn & He).
      apply compare_metric_Some in He as [(_ & _ & _ & Hz) ->]; [|done]. apply Ho. unfold scored_entry. cbn.
      apply outcome_self; [done|done|]. by destruct (f64_eqb _ _); [exfalso; apply Hz|]. }
    unfold compare_metrics_in, compare_exit_code. fold b. cbn. by rewrite !Hnone.
  - intros [value ->]. apply result_bind_Ok in Hw as (w' & _ & [= <-]).
    apply result_bind_Ok in Hcov as (? & Hb & Hc). cbn.
    assert (forall shown path cov m u, check_window_covers shown path cov w' m = Ok u -> has_series (scored_map m (Some w')) = true) as Hs.
    { intros ????? Hk. unfold check_window_covers in Hk. apply has_series_points. by repeat case_decide. }
    by rewrite (Hs _ _ _ _ _ Hb), (Hs _ _ _ _ _ Hc).
Qed.

(** A report of [recv] replies in one second. *)
Definition one_second (recv errors : Z) : AggregatedMetrics :=
  mkAggregatedMetrics 2 2 0 0 0 0 0 recv recv 10 10 (from_secs 1) (f64_of_Z recv) (f64_of_Z 10)
    (f64_lit errors 100) LatencyStats_default LatencyStats_default LatencyStats_default
    (mkTimeSeries f64_one "rtt" [mkTimeSeriesPoint f64_zero f64_one 2 recv recv 10 10 errors (f64_of_Z recv)
       IntervalLatency_default None])
    (if 0 <? errors then {[ Timeout := errors ]} else ∅) None None None None None None [] None None.

Example one_regression :
  let c := compare_metrics_in (one_second 100 0) (one_second 105 3) (f64_of_Z 10) None in
  ch_metric <$> bc_regressions c
    = ["error_rate"%string; "errors.timeout"%string; "series.error_intervals"%string; "series.max_interval_errors"%string] /\
  bc_improvements c = [] /\ compare_exit_code true c = 2.
Proof. vm_compute. repeat split. Qed.

Lemma compare_is_sound_witness : exists comparison,
  compare_reports id (fun _ => "0.5s.."%string) (fun _ => "1.000"%string) "10" (f64_of_Z 10) (Some "..2s"%string)
    ("a.json"%string, one_second 100 3) ("b.json"%string, one_second 100 3) = Ok comparison /\
  bc_regressions comparison = [] /\ bc_series_compared comparison = true.
Proof.
  destruct (compare_reports id (fun _ => "0.5s.."%string) (fun _ => "1.000"%string) "10" (f64_of_Z 10) (Some "..2s"%string)
    ("a.json"%string, one_second 100 3) ("b.json"%string, one_second 100 3)) as [comparison|e] eqn:E;
    [|vm_compute in E; discriminate].
  exists comparison. split; [reflexivity|].
  destruct (compare_is_sound _ _ _ _ _ _ _ _ _ E) as [Hq Hs]. split; [apply (Hq eq_refl)|apply Hs; by eexists].
Defined.
