(* ===== verification/Lag.v ===== *)
(** * The load generator's own lag (src/src/lag.rs)

    A probe sleeps on the run's runtime and measures how late it wakes; the
    lag of each time-series interval and of the whole run tell whether the
    generator was the bottleneck. *)

From Stdlib Require Import ZArith Lia String Floats.SpecFloat.
From stdpp Require Import base tactics strings numbers option gmap sorting list.
From S2P Require Import Prelude RustStd Hdr TimeSeries Summaries.

Local Open Scope Z_scope.
Local Open Scope rust_scope.

Definition PROBE_PERIOD : Z := from_millis 10.
(** [windows]: [cfg!(windows)]. *)
Definition DEFAULT_THRESHOLD (windows : bool) : Z := if windows then from_millis 36 else from_millis 20.
Definition INTERVAL_SHARE_PERCENT : Z := 10.
Definition MIN_LATE_IN_RUN : Z := 3.
Definition MIN_LATE_IN_INTERVAL : Z := 2.
Definition threshold_us (windows : bool) : Z := as_micros (DEFAULT_THRESHOLD windows).

Definition lag_bounds : HdrBounds := mkBounds 1 60000000 2.
Definition lag_histogram {H} `{Hdr H} : option H := hdr_new lag_bounds.

(** ** One run *)

Record LagRecord (H : Type) := mkLagRecord {
  lr_start : Z;
  lr_interval : Z;
  lr_hist : option H;
  lr_intervals : gmap Z IntervalLag;
  lr_intervals_over : Z;
  lr_current : list Z;
  lr_current_index : Z;
}.
Arguments mkLagRecord {H}. Arguments lr_start {H}. Arguments lr_interval {H}. Arguments lr_hist {H}.
Arguments lr_intervals {H}. Arguments lr_intervals_over {H}. Arguments lr_current {H}. Arguments lr_current_index {H}.
#[export] Instance LagRecord_eta {H} : Settable (LagRecord H) := fun r =>
  mkLagRecord (lr_start r) (lr_interval r) (lr_hist r) (lr_intervals r) (lr_intervals_over r) (lr_current r)
    (lr_current_index r).

Record LagTotals (H : Type) := mkLagTotals {
  lt_hist : option H;
  lt_intervals : Z;
  lt_intervals_over : Z;
  lt_threshold_us : option Z;
}.
Arguments mkLagTotals {H}. Arguments lt_hist {H}. Arguments lt_intervals {H}. Arguments lt_intervals_over {H}.
Arguments lt_threshold_us {H}.

Section Lag.
Context {H : Type} `{Hdr H} (windows : bool).

Definition LagRecord_new (start interval : Z) : LagRecord H :=
  mkLagRecord start (Z.max interval (from_millis 1)) lag_histogram ∅ 0 [] 0.

(** The samples of an interval, sorted: their p99, how many are late, and
    what is kept of them. *)
Definition rank99 (n : nat) : nat := Z.to_nat (Z.max (div_ceil (Z.of_nat n * 99) 100) 1 - 1).
Definition p99_of (sorted : list Z) : Z := default 0 (sorted !! rank99 (length sorted)).
Definition late_in (samples : list Z) : Z := Z.of_nat (length (filter (fun us => threshold_us windows < us) samples)).
Definition over_threshold (sorted : list Z) : bool :=
  (threshold_us windows <? p99_of sorted) && (MIN_LATE_IN_INTERVAL <=? late_in sorted).
Definition interval_lag (sorted : list Z) : IntervalLag :=
  mkIntervalLag (Z.of_nat (length sorted)) (p99_of sorted) (default 0 (last sorted)).

Definition close_interval (r : LagRecord H) : LagRecord H :=
  match lr_current r with
  | [] => r
  | current =>
      let current := merge_sort Z.le current in
      (if over_threshold current then r <| lr_intervals_over ::= fun n => n +u 1 |> else r)
        <| lr_intervals ::= insert (lr_current_index r) (interval_lag current) |> <| lr_current := [] |>
  end.

Definition lag_index (r : LagRecord H) (due : Z) : Z :=
  as_u64 (saturating_duration_since due (lr_start r) / lr_interval r).

Definition lag_record (due lag : Z) (r : LagRecord H) : LagRecord H :=
  let micros := clamp 1 60000000 (as_micros lag) in
  let r := r <| lr_hist ::= fmap (hdr_record' micros) |> in
  let index := lag_index r due in
  let r := if index =? lr_current_index r then r else (close_interval r) <| lr_current_index := index |> in
  r <| lr_current ::= fun l => l ++ [micros] |>.

(** The probe's task: the times it woke at, each at or after its deadline. *)
Fixpoint probe_loop (wakes : list Z) (deadline : Z) (r : LagRecord H) : LagRecord H :=
  match wakes with
  | [] => close_interval r
  | woke :: wakes =>
      probe_loop wakes (woke + PROBE_PERIOD) (lag_record deadline (saturating_duration_since woke deadline) r)
  end.
Definition probe (start interval spawned : Z) (wakes : list Z) : LagRecord H :=
  probe_loop wakes (spawned + PROBE_PERIOD) (LagRecord_new start interval).
(** [finish]: [None] is a probe whose task panicked. *)
Definition probe_finish (now : Z) (task : option (LagRecord H)) : LagRecord H :=
  default (LagRecord_new now (from_secs 1)) task.

(** [x.round().max(0.0) as u64] is [f64_round_as_u64]. *)
Definition attach (r : LagRecord H) (series : TimeSeries) : TimeSeries :=
  let interval := as_secs_f64 (lr_interval r) in
  mkTimeSeries (ts_interval_secs series) (ts_latency_basis series)
    ((fun point => point <| tp_generator_lag :=
        lr_intervals r !! f64_round_as_u64 (f64_div (tp_start_secs point) interval) |>) <$> ts_points series).

Definition lag_totals (r : LagRecord H) : LagTotals H :=
  mkLagTotals (lr_hist r) (Z.of_nat (size (lr_intervals r))) (lr_intervals_over r) None.

(** ** Totals *)

Definition LagTotals_default : LagTotals H := mkLagTotals None 0 0 None.
Definition lag_parts (t : LagTotals H) : option H * Z * Z * Z :=
  (lt_hist t, lt_intervals t, lt_intervals_over t, default (threshold_us windows) (lt_threshold_us t)).
Definition lag_from_parts (hist : H) (intervals intervals_over threshold : Z) : LagTotals H :=
  mkLagTotals (Some hist) intervals intervals_over (Some threshold).

Definition LagTotals_add (self other : LagTotals H) : LagTotals H :=
  mkLagTotals
    (match lt_hist self, lt_hist other with
     | Some hist, Some other => Some (hdr_add' hist other)
     | None, Some other => Some other
     | hist, None => hist
     end)
    (lt_intervals self +u lt_intervals other) (lt_intervals_over self +u lt_intervals_over other)
    (match lt_threshold_us self with Some t => Some t | None => lt_threshold_us other end).

Definition lag_summary (t : LagTotals H) : option GeneratorLag :=
  hist ← lt_hist t;
  if hdr_is_empty hist then None
  else
    let threshold := default (threshold_us windows) (lt_threshold_us t) in
    let p99 := hdr_value_at_quantile hist (f64_lit 99 100) in
    let late := hdr_len hist -u hdr_count_between hist 1 threshold in
    let p99_over := (threshold <? p99) && (MIN_LATE_IN_RUN <=? late) in
    let share_over := (0 <? lt_intervals_over t)
      && (lt_intervals t *u INTERVAL_SHARE_PERCENT <=? lt_intervals_over t *u 100) in
    Some (mkGeneratorLag (as_micros PROBE_PERIOD) (hdr_len hist) (hdr_value_at_quantile hist (f64_lit 50 100)) p99
            (hdr_max hist) threshold (lt_intervals t) (lt_intervals_over t) (p99_over || share_over)).
End Lag.

(** ** What a probe measures, interval by interval *)

Section Probe.
Context {H : Type} `{Hdr H} (windows : bool).

(** Every wake-up's interval and lag. *)
Fixpoint probe_lags (start interval deadline : Z) (wakes : list Z) : list (Z * Z) :=
  match wakes with
  | [] => []
  | woke :: wakes =>
      (saturating_duration_since deadline start / interval, clamp 1 60000000 (as_micros (woke - deadline)))
      :: probe_lags start interval (woke + PROBE_PERIOD) wakes
  end.
(** The lags of one interval, sorted, and what is reported of them. *)
Definition lags_in (i : Z) (lags : list (Z * Z)) : list Z := (filter (fun l => l.1 = i) lags).*2.
Definition sorted_in (i : Z) (lags : list (Z * Z)) : list Z := merge_sort Z.le (lags_in i lags).
Definition summarised (i : Z) (lags : list (Z * Z)) : option IntervalLag :=
  match lags_in i lags with [] => None | _ => Some (interval_lag (sorted_in i lags)) end.
Definition over_count (lags : list (Z * Z)) (intervals : gmap Z IntervalLag) : Z :=
  Z.of_nat (size (filter (fun e => over_threshold windows (sorted_in e.1 lags) = true) intervals)).

Lemma lags_in_snoc i lags l : lags_in i (lags ++ [l]) = lags_in i lags ++ (if decide (l.1 = i) then [l.2] else []).
Proof. unfold lags_in. rewrite filter_app, fmap_app. f_equal. cbn. by case_decide. Qed.

(** With the interval of [lr_current_index] open, or after closing it. *)
Record recorded (lags : list (Z * Z)) (open_ : bool) (r : LagRecord H) : Prop := {
  rd_current : lr_current r = if open_ then lags_in (lr_current_index r) lags else [];
  rd_intervals i : lr_intervals r !! i = if open_ && (i =? lr_current_index r) then None else summarised i lags;
  rd_over : lr_intervals_over r = over_count lags (lr_intervals r);
  rd_past l : l ∈ lags -> l.1 <= lr_current_index r;
  rd_size : (size (lr_intervals r) + length (lr_current r) <= length lags)%nat;
}.

Lemma over_count_insert lags i lag intervals : intervals !! i = None ->
  over_count lags (<[i := lag]> intervals)
  = over_count lags intervals + (if over_threshold windows (sorted_in i lags) then 1 else 0).
Proof using.
  intros Hi. unfold over_count. rewrite map_filter_insert. cbn [fst].
  destruct (over_threshold windows (sorted_in i lags)) eqn:E.
  - rewrite decide_True by done. rewrite map_size_insert_None; [lia|]. apply map_lookup_filter_None. by left.
  - rewrite decide_False by done. rewrite delete_id by done. lia.
Qed.

Lemma over_count_le lags intervals : over_count lags intervals <= Z.of_nat (size intervals).
Proof using. unfold over_count. apply inj_le, map_size_filter. Qed.

Lemma close_interval_recorded lags r : recorded lags true r -> Z.of_nat (length lags) <= u64_max ->
  recorded lags false (close_interval windows r) /\
  lr_start (close_interval windows r) = lr_start r /\ lr_interval (close_interval windows r) = lr_interval r /\
  lr_current_index (close_interval windows r) = lr_current_index r.
Proof using.
  intros [Hc Hi Ho Hp Hs] Hlen. unfold close_interval. destruct (lr_current r) as [|us current] eqn:E.
  - split; [|done]. split; [done| |done|done|by rewrite E].
    intros i. rewrite Hi. cbn [andb]. destruct (Z.eqb_spec i (lr_current_index r)) as [->|]; [|done].
    unfold summarised. by rewrite <- Hc.
  - assert (lr_intervals r !! lr_current_index r = None) as Hnone by (rewrite Hi, Z.eqb_refl; done).
    assert (summarised (lr_current_index r) lags = Some (interval_lag (merge_sort Z.le (us :: current)))) as Hsum.
    { unfold summarised, sorted_in. by rewrite <- Hc. }
    pose proof (over_count_le lags (lr_intervals r)) as Hle. cbn [length] in Hs.
    assert (0 <= over_count lags (lr_intervals r)) as Hge by (unfold over_count; lia).
    set (r1 := if over_threshold _ _ then _ else _).
    assert (lr_start r1 = lr_start r /\ lr_interval r1 = lr_interval r /\ lr_current_index r1 = lr_current_index r /\
            lr_intervals r1 = lr_intervals r /\
            lr_intervals_over r1 = over_count lags (lr_intervals r)
              + (if over_threshold windows (merge_sort Z.le (us :: current)) then 1 else 0)) as (H1 & H2 & H3 & H4 & H5).
    { unfold r1. destruct (over_threshold _ _); cbn; rewrite Ho; split_and!; try done; [|lia].
      apply u64_add_id; unfold u64_max in *; lia. }
    clearbody r1. cbn. rewrite H1, H2, H3. split; [|done]. split; cbn; rewrite ?H3, ?H4; try done.
    + intros i. destruct (decide (i = lr_current_index r)) as [->|Hne].
      * by rewrite lookup_insert_eq.
      * rewrite lookup_insert_ne by done. rewrite Hi. cbn [andb]. by rewrite (proj2 (Z.eqb_neq _ _)).
    + rewrite H5, over_count_insert by done. unfold sorted_in. by rewrite <- Hc.
    + rewrite map_size_insert_None by done. lia.
Qed.

Lemma lag_record_recorded lags due lag r : recorded lags true r -> Z.of_nat (length lags) < u64_max ->
  lr_current_index r <= lag_index r due ->
  recorded (lags ++ [(lag_index r due, clamp 1 60000000 (as_micros lag))]) true (lag_record windows due lag r) /\
  lr_start (lag_record windows due lag r) = lr_start r /\ lr_interval (lag_record windows due lag r) = lr_interval r /\
  lr_current_index (lag_record windows due lag r) = lag_index r due.
Proof using.
  intros Hr Hlen Hdue. unfold lag_record. set (us := clamp _ _ _). clearbody us.
  set (r0 := r <| lr_hist ::= _ |>). assert (recorded lags true r0) as Hr0 by (destruct Hr; by split).
  assert (lr_start r0 = lr_start r /\ lr_interval r0 = lr_interval r /\ lr_current_index r0 = lr_current_index r) as (E1 & E2 & E3) by done.
  assert (lag_index r0 due = lag_index r due) as E4 by done. clearbody r0. rewrite E4.
  set (r1 := if _ =? _ then _ else _).
  assert (lr_start r1 = lr_start r /\ lr_interval r1 = lr_interval r /\ lr_current_index r1 = lag_index r due /\
          recorded lags true r1) as (F1 & F2 & F3 & [Hc Hi Ho Hp Hs]).
  { unfold r1. destruct (Z.eqb_spec (lag_index r due) (lr_current_index r0)) as [Heq|Hne]; [by rewrite E1, E2|].
    destruct (close_interval_recorded lags r0 Hr0 ltac:(lia)) as ([Hc Hi Ho Hp Hs] & G1 & G2 & G3). cbn.
    rewrite G1, G2. split_and!; try done.
    assert (forall l, l ∈ lags -> l.1 < lag_index r due) as Hlt by (intros l Hl; specialize (Hp l Hl); lia).
    assert (lags_in (lag_index r due) lags = []) as Hnil.
    { unfold lags_in. apply elem_of_nil_inv. intros x (l & -> & [Hl1 Hl]%list_elem_of_filter)%list_elem_of_fmap. specialize (Hlt l Hl). lia. }
    split; cbn; try done.
    - by rewrite Hc, Hnil.
    - intros i. rewrite Hi. cbn. destruct (Z.eqb_spec i (lag_index r due)) as [->|]; [|done]. unfold summarised. by rewrite Hnil.
    - intros l Hl. specialize (Hlt l Hl). lia. }
  clearbody r1. cbn. rewrite F1, F2, F3. split; [|done].
  assert (forall i, i <> lag_index r due -> lags_in i (lags ++ [(lag_index r due, us)]) = lags_in i lags) as Hold.
  { intros i Hne. rewrite lags_in_snoc. cbn. rewrite decide_False by done. apply app_nil_r. }
  split; cbn; rewrite ?F3.
  - rewrite Hc, F3, lags_in_snoc. cbn. by rewrite decide_True.
  - intros i. rewrite Hi, F3. destruct (Z.eqb_spec i (lag_index r due)) as [|Hne]; [done|]. cbn. unfold summarised, sorted_in. by rewrite Hold.
  - rewrite Ho. unfold over_count. do 2 f_equal. apply map_filter_ext. intros i x Hx. cbn.
    assert (i <> lag_index r due) as Hne by (intros ->; by rewrite Hi, F3, Z.eqb_refl in Hx).
    unfold sorted_in. by rewrite Hold.
  - intros l [Hl| ->%list_elem_of_singleton]%elem_of_app; [|done]. rewrite <- F3. by apply Hp.
  - rewrite !length_app. cbn. lia.
Qed.

(** Every wake-up is at or after the deadline the one before it set. *)
Fixpoint wakes_after (deadline : Z) (wakes : list Z) : Prop :=
  match wakes with [] => True | woke :: wakes => deadline <= woke /\ wakes_after (woke + PROBE_PERIOD) wakes end.

Lemma probe_loop_recorded start interval wakes deadline lags (r : LagRecord H) :
  0 < interval -> lr_start r = start -> lr_interval r = interval -> recorded lags true r ->
  wakes_after deadline wakes -> lr_current_index r <= saturating_duration_since deadline start / interval ->
  deadline - start < 2 ^ 64 -> Forall (fun woke => woke + PROBE_PERIOD - start < 2 ^ 64) wakes ->
  Z.of_nat (length lags + length wakes) <= u64_max ->
  recorded (lags ++ probe_lags start interval deadline wakes) false (probe_loop windows wakes deadline r).
Proof using.
  revert deadline lags r. induction wakes as [|woke wakes IH]; intros deadline lags r Hi Hs Hv Hr Hw Hx Hd Hf Hl; cbn in *.
  - rewrite app_nil_r. apply (close_interval_recorded lags r Hr). lia.
  - destruct Hw as [Hwoke Hw]. apply Forall_cons in Hf as [Hf0 Hf].
    assert (lag_index r deadline = saturating_duration_since deadline start / interval) as Hidx.
    { unfold lag_index. rewrite Hs, Hv. apply wrap_id. unfold saturating_duration_since. split; [apply Z.div_pos; lia|].
      apply Z.div_lt_upper_bound; [lia|]. nia. }
    destruct (lag_record_recorded lags deadline (saturating_duration_since woke deadline) r Hr ltac:(lia) ltac:(lia))
      as (Hr' & Hs' & Hv' & Hx'). rewrite Hidx in Hr', Hx'.
    replace (saturating_duration_since woke deadline) with (woke - deadline) in * by (unfold saturating_duration_since; lia).
    rewrite cons_middle, app_assoc. apply IH; try done; try congruence; try lia.
    + rewrite Hx'. apply Z.div_le_mono; [lia|]. unfold saturating_duration_since, PROBE_PERIOD, from_millis in *. lia.
    + rewrite length_app. cbn. lia.
Qed.

(** The probe's record tells each interval of the run apart. When the
    probe wakes at or after each deadline, an interval has an entry exactly
    when a sleep was due in it, with the number of its wake-ups, the 99th
    percentile by nearest rank and
    the largest of their lags; the intervals over the threshold are those
    whose p99 exceeds it with at least two late wake-ups; and the run is
    flagged as saturated whenever they are at least a tenth of them. *)
Theorem probe_tells_intervals_apart (start interval spawned : Z) (wakes : list Z)
    (Hwakes : wakes_after (spawned + PROBE_PERIOD) wakes) (Hspawned : spawned + PROBE_PERIOD - start < 2 ^ 64)
    (Htimes : Forall (fun woke => woke + PROBE_PERIOD - start < 2 ^ 64) wakes)
    (Hmany : Z.of_nat (length wakes) * 100 <= u64_max) :
  let r : LagRecord H := probe windows start interval spawned wakes in
  let lags := probe_lags start (Z.max interval (from_millis 1)) (spawned + PROBE_PERIOD) wakes in
  (forall i, lr_intervals r !! i = summarised i lags) /\
  lr_intervals_over r = over_count lags (lr_intervals r) /\
  (forall g, lag_summary windows (lag_totals r) = Some g ->
     gl_intervals g = Z.of_nat (size (lr_intervals r)) /\
     (0 < over_count lags (lr_intervals r) -> gl_intervals g <= 10 * over_count lags (lr_intervals r) ->
      gl_saturated g = true)).
Proof using.
  cbv zeta. set (interval' := Z.max interval (from_millis 1)).
  assert (0 < interval') as Hi by (unfold interval', from_millis; lia).
  destruct (probe_loop_recorded start interval' wakes (spawned + PROBE_PERIOD) [] (LagRecord_new start interval)
    Hi eq_refl eq_refl) as [_ Hint Hover _ Hsize]; try done.
  { split; try done.
    - intros i. cbn. rewrite lookup_empty. by case_match.
    - intros l Hl. by apply not_elem_of_nil in Hl. }
  { cbn. apply Z.div_pos; [unfold saturating_duration_since; lia|done]. }
  { unfold u64_max in *. cbn. lia. }
  fold (probe windows start interval spawned wakes : LagRecord H) in *. cbn [app] in *.
  assert (length (probe_lags start interval' (spawned + PROBE_PERIOD) wakes) = length wakes) as Hlen.
  { clear. generalize (spawned + PROBE_PERIOD) as d. induction wakes as [|w wakes IH]; intros d; cbn; [done|]. by rewrite IH. }
  rewrite Hlen in Hsize. split; [exact Hint|]. split; [exact Hover|].
  intros g Hg. unfold lag_summary, lag_totals in Hg. cbn [lt_hist lt_intervals lt_intervals_over lt_threshold_us] in Hg.
  destruct (lr_hist _) as [hist|]; [|done]. cbn [mbind option_bind] in Hg. destruct (hdr_is_empty hist); [done|].
  injection Hg as <-. cbn [gl_intervals gl_saturated]. split; [done|]. intros Hpos Htenth. apply orb_true_iff. right.
  rewrite Hover in *. set (over := over_count _ _) in *. set (n := Z.of_nat (size _)) in *.
  assert (over <= n) as Hle by apply over_count_le. assert (n <= Z.of_nat (length wakes)) as Hn by (unfold n; lia).
  unfold u64_max in Hmany. unfold u64_mul, INTERVAL_SHARE_PERCENT. rewrite !wrap_id by (unfold is_uint; lia).
  apply andb_true_iff. split; [by apply Z.ltb_lt|apply Z.leb_le; lia].
Qed.
End Probe.

(** Three wake-ups on time, then three 60 ms late in the second interval. *)
Definition six_wakes : list Z :=
  from_millis <$> [10; 20; 30; 1000; 1070; 1140].

Lemma probe_tells_intervals_apart_witness :
  let r : LagRecord ClassHistogram := probe false 0 (from_secs 1) 0 six_wakes in
  lr_intervals r !! 1 = Some (mkIntervalLag 2 60000 60000) /\ lr_intervals_over r = 1.
Proof.
  destruct (probe_tells_intervals_apart (H := ClassHistogram) false 0 (from_secs 1) 0 six_wakes) as (Hi & Ho & _).
  - vm_compute. repeat split; discriminate.
  - reflexivity.
  - repeat constructor.
  - vm_compute. discriminate.
  - cbv zeta. rewrite Hi, Ho. split; vm_compute; reflexivity.
Defined.
