(* ===== verification/WireResult.v ===== *)
(** * Results on the wire (src/src/distributed/protocol.rs)

    How an agent packs its totals, its time series and its generator lag for
    the coordinator and how the coordinator rebuilds them: a histogram
    travels as its recorded values. *)

From Stdlib Require Import ZArith Lia String.
From stdpp Require Import base tactics strings numbers option gmap sorting list.
From S2P Require Import Prelude RustStd Str Hdr Histogram Live TimeSeries Summaries Metrics Merge Slo Display Lag.

Local Open Scope Z_scope.
Local Open Scope rust_scope.

(** [(value, count)] for every bucket with a count. *)
Definition Sparse : Type := list (Z * Z).

Record WireActionTotals := mkWireActionTotals {
  wa_name : string;
  wa_sent : Z;
  wa_errors : Z;
  wa_sent_message_errors : Z;
  wa_rtt : Sparse;
  wa_response : Sparse;
}.
Record WireTotals := mkWireTotals {
  wt_messages_sent : Z;
  wt_messages_recv : Z;
  wt_bytes_sent : Z;
  wt_bytes_recv : Z;
  wt_reconnects : Z;
  wt_unsolicited_frames : Z;
  wt_sent_message_errors : Z;
  wt_interrupted : Z;
  wt_errors : gmap ErrorCategory Z;
  wt_handshake : Sparse;
  wt_rtt : Sparse;
  wt_response : Sparse;
  wt_chaos : option ChaosSummary;
  wt_actions : list WireActionTotals;
}.
Record WireInterval := mkWireInterval { wi_index : Z; wi_values : Sparse }.
Record WireLag := mkWireLag {
  wl_values : Sparse;
  wl_intervals : Z;
  wl_intervals_over : Z;
  wl_threshold_us : Z;
}.
Record WireResult := mkWireResult {
  wr_elapsed : Z;
  wr_started_at_unix_ms : Z;
  wr_connections : Z;
  wr_not_started : Z;
  wr_totals : WireTotals;
  wr_time_series : TimeSeries;
  wr_intervals : list WireInterval;
  wr_capture_dropped : option Z;
  wr_generator_lag : option WireLag;
  wr_open_file_limit : option OpenFileLimit;
  wr_arrivals : option ArrivalCounts;
  wr_compression : option CompressionCounts;
}.
Record AgentResult (H : Type) := mkAgentResult {
  ar_elapsed : Z;
  ar_started_at_unix_ms : Z;
  ar_connections : Z;
  ar_not_started : Z;
  ar_totals : MetricsTotals H;
  ar_series : SeriesPart H;
  ar_capture_dropped : option Z;
  ar_lag : LagTotals H;
  ar_open_file_limit : option OpenFileLimit;
  ar_arrivals : option ArrivalCounts;
  ar_compression : option CompressionCounts;
}.
Arguments mkAgentResult {H}. Arguments ar_elapsed {H}. Arguments ar_started_at_unix_ms {H}. Arguments ar_connections {H}.
Arguments ar_not_started {H}. Arguments ar_totals {H}. Arguments ar_series {H}. Arguments ar_capture_dropped {H}.
Arguments ar_lag {H}. Arguments ar_open_file_limit {H}. Arguments ar_arrivals {H}. Arguments ar_compression {H}.

(** The counts of a result that do not come from the workers. *)
Record ResultMeta (H : Type) := mkResultMeta {
  rm_elapsed : Z;
  rm_started_at_unix_ms : Z;
  rm_connections : Z;
  rm_not_started : Z;
  rm_capture_dropped : option Z;
  rm_lag : LagTotals H;
  rm_open_file_limit : option OpenFileLimit;
  rm_arrivals : option ArrivalCounts;
  rm_compression : option CompressionCounts;
}.
Arguments mkResultMeta {H}. Arguments rm_elapsed {H}. Arguments rm_started_at_unix_ms {H}. Arguments rm_connections {H}.
Arguments rm_not_started {H}. Arguments rm_capture_dropped {H}. Arguments rm_lag {H}.
Arguments rm_open_file_limit {H}. Arguments rm_arrivals {H}. Arguments rm_compression {H}.

Section Codec.
Context {H : Type} `{Hdr H, Formatter} (windows : bool).
(** [{e:?}] of the crate's [RecordError]. *)
Context (record_error : string).

Definition to_sparse (hist : H) : Sparse := hdr_recorded hist.

Definition out_of_range (value : Z) : string :=
  ("histogram value " +:+ display_u64 value +:+ " out of range: " +:+ record_error)%string.
Fixpoint from_sparse (sparse : Sparse) (empty : H) : result H string :=
  match sparse with
  | [] => Ok empty
  | (value, count) :: sparse =>
      match hdr_record_n value count empty with
      | Some h => from_sparse sparse h
      | None => Err (out_of_range value)
      end
  end.

Definition WireActionTotals_from (e : string * ActionTotals H) : WireActionTotals :=
  let (name, action) := e in
  mkWireActionTotals name (an_sent (at_counts action)) (an_errors (at_counts action))
    (an_sent_message_errors (at_counts action)) (to_sparse (at_rtt action)) (to_sparse (at_response action)).

Definition WireTotals_from (totals : MetricsTotals H) : WireTotals :=
  mkWireTotals (mt_messages_sent totals) (mt_messages_recv totals) (mt_bytes_sent totals) (mt_bytes_recv totals)
    (mt_reconnects totals) (mt_unsolicited_frames totals) (mt_sent_message_errors totals) (mt_interrupted totals)
    (mt_errors totals) (to_sparse (mt_handshake totals)) (to_sparse (mt_rtt totals)) (to_sparse (mt_response totals))
    (mt_chaos totals) (WireActionTotals_from <$> name_entries (mt_actions totals)).

(** [MetricsTotals::empty_histogram().map_err(|e| e.to_string())] *)
Definition wire_empty : result H string := result_map_err WsBlastError_fmt metrics_latency_histogram.
(** [from_sparse(&sparse, empty()?)?] *)
Definition decode_hist (sparse : Sparse) : result H string :=
  let? empty := wire_empty in from_sparse sparse empty.

Definition into_action (action : WireActionTotals) : result (string * ActionTotals H) string :=
  let? rtt := decode_hist (wa_rtt action) in
  let? response := decode_hist (wa_response action) in
  Ok (wa_name action, mkActionTotals rtt response
        (mkActionCounts (wa_sent action) (wa_errors action) (wa_sent_message_errors action))).

(** [collect] into a map: of two actions with one name the last stays. *)
Definition into_totals (w : WireTotals) : result (MetricsTotals H) string :=
  let? handshake := decode_hist (wt_handshake w) in
  let? rtt := decode_hist (wt_rtt w) in
  let? response := decode_hist (wt_response w) in
  let? actions := result_collect into_action (wt_actions w) in
  Ok (mkMetricsTotals handshake rtt response (wt_messages_sent w) (wt_messages_recv w) (wt_bytes_sent w)
        (wt_bytes_recv w) (wt_reconnects w) (wt_unsolicited_frames w) (wt_sent_message_errors w)
        (wt_interrupted w) (wt_errors w) (wt_chaos w) []
        (fold_left (fun m e => <[e.1 := e.2]> m) actions ∅)).

Definition WireLag_new (lag : LagTotals H) : option WireLag :=
  let '(hist, intervals, intervals_over, threshold_us) := lag_parts windows lag in
  hist ← hist;
  Some (mkWireLag (to_sparse hist) intervals intervals_over threshold_us).
Definition WireLag_decode (w : WireLag) : result (LagTotals H) string :=
  match lag_histogram with
  | None => Err "cannot create a lag histogram"%string
  | Some empty =>
      let? hist := from_sparse (wl_values w) empty in
      Ok (lag_from_parts hist (wl_intervals w) (wl_intervals_over w) (wl_threshold_us w))
  end.

Definition WireResult_new (totals : MetricsTotals H) (outcome_meta : ResultMeta H) (time_series : TimeSeries)
    (buckets : gmap Z H) : WireResult :=
  mkWireResult (rm_elapsed outcome_meta) (rm_started_at_unix_ms outcome_meta) (rm_connections outcome_meta)
    (rm_not_started outcome_meta) (WireTotals_from totals) time_series
    ((fun e => mkWireInterval e.1 (to_sparse e.2)) <$> btree_entries buckets)
    (rm_capture_dropped outcome_meta) (WireLag_new (rm_lag outcome_meta)) (rm_open_file_limit outcome_meta)
    (rm_arrivals outcome_meta) (rm_compression outcome_meta).

Definition decode_interval (acc : result (gmap Z H) string) (interval : WireInterval) : result (gmap Z H) string :=
  let? buckets := acc in
  match interval_histogram with
  | None => Err "cannot create an interval histogram"%string
  | Some empty => let? hist := from_sparse (wi_values interval) empty in Ok (<[wi_index interval := hist]> buckets)
  end.
Definition WireResult_decode (w : WireResult) : result (AgentResult H) string :=
  let? buckets := fold_left decode_interval (wr_intervals w) (Ok ∅) in
  let? totals := into_totals (wr_totals w) in
  let? lag := match wr_generator_lag w with Some lag => WireLag_decode lag | None => Ok LagTotals_default end in
  Ok (mkAgentResult (wr_elapsed w) (wr_started_at_unix_ms w) (wr_connections w) (wr_not_started w) totals
        (mkSeriesPart (wr_time_series w) buckets) (wr_capture_dropped w) lag (wr_open_file_limit w)
        (wr_arrivals w) (wr_compression w)).
End Codec.

(** ** What arrives is what was sent *)

(** How many recordings of [w]'s class a list of values carries. *)
Definition sparse_count (b : HdrBounds) (w : Z) (l : Sparse) : Z :=
  sum_Z ((fun p => if decide (equivalent b p.1 w) then p.2 else 0) <$> l).

Lemma sparse_count_none b w l : Forall (fun p => ~ equivalent b p.1 w) l -> sparse_count b w l = 0.
Proof.
  unfold sparse_count. induction 1 as [|p l Hp _ IH]; [done|]. rewrite fmap_cons, sum_Z_cons, IH. by rewrite decide_False.
Qed.

Lemma sparse_count_elem b w l p :
  NoDup ((fun p => lowest_equivalent (hdr_sigfig b) p.1) <$> l) -> p ∈ l -> equivalent b p.1 w -> sparse_count b w l = p.2.
Proof.
  intros Hnd Hp He. induction Hp as [p l|p q l Hp IH]; rewrite fmap_cons in Hnd; apply NoDup_cons in Hnd as [Hni Hnd].
  - unfold sparse_count. rewrite fmap_cons, sum_Z_cons. fold (sparse_count b w l). rewrite decide_True by done.
    rewrite sparse_count_none; [lia|]. apply Forall_forall. intros q Hq Heq. apply Hni.
    apply list_elem_of_fmap. exists q. split; [|done]. unfold equivalent in *. congruence.
  - unfold sparse_count. rewrite fmap_cons, sum_Z_cons. fold (sparse_count b w l). rewrite IH by done.
    rewrite decide_False; [lia|]. intros Heq. apply Hni. apply list_elem_of_fmap. exists p. split; [|done].
    unfold equivalent in *. congruence.
Qed.

(** Inserting lists of related entries into related maps. *)
Lemma fold_insert_related `{Countable K} {A B} (S : A -> B -> Prop) (l : list (K * A)) (l' : list (K * B)) (m : gmap K A) (m' : gmap K B) :
  Forall2 (fun e e' => e.1 = e'.1 /\ S e.2 e'.2) l l' -> (forall k, option_Forall2 S (m !! k) (m' !! k)) ->
  forall k, option_Forall2 S (fold_left (fun m e => <[e.1 := e.2]> m) l m !! k)
                             (fold_left (fun m e => <[e.1 := e.2]> m) l' m' !! k).
Proof.
  intros Hl. revert m m'. induction Hl as [|[k1 a] [k2 b] l l' [Hk Hab] _ IH]; intros m m' Hm; [done|].
  cbn [fold_left fst snd] in *. subst k2. apply IH. intros k. destruct (decide (k1 = k)) as [->|Hne].
  - rewrite !lookup_insert_eq. by constructor.
  - by rewrite !lookup_insert_ne.
Qed.

Lemma fold_insert_entries `{Countable K} {A} (l : list (K * A)) (m : gmap K A) :
  (forall k, filter (fun e => e.1 = k) l = match m !! k with Some a => [(k, a)] | None => [] end) ->
  fold_left (fun m e => <[e.1 := e.2]> m) l ∅ = m.
Proof.
  intros Hl. apply map_eq. intros k. rewrite (fold_insert_lookup fst (fun _ e => e.2)), Hl, lookup_empty.
  by destruct (m !! k).
Qed.

Section RoundTrip.
Context {H : Type} `{HdrIterLaws H, Formatter} (windows : bool) (record_error : string).
#[local] Existing Instance hdr_equiv.
#[local] Existing Instance action_equiv.

Lemma from_sparse_spec (l : Sparse) (e : H) :
  used_bounds (hdr_bounds e) -> Forall (fun p => fits (hdr_bounds e) p.1 /\ is_u64 p.2) l ->
  exists h, from_sparse record_error l e = Ok h /\ hdr_bounds h = hdr_bounds e /\
    forall w, in_bounds (hdr_bounds e) w ->
      hdr_count_at h w = u64_saturating_add (hdr_count_at e w) (sparse_count (hdr_bounds e) w l).
Proof.
  revert e. induction l as [|[v n] l IH]; intros e Hb Hl.
  - exists e. split_and!; [done|done|]. intros w _. unfold sparse_count. cbn. pose proof (hdr_count_at_u64 e w).
    unfold u64_saturating_add, u64_max. ulia.
  - apply Forall_cons in Hl as [[Hv Hn] Hl]. cbn [fst snd] in Hv, Hn.
    destruct (hdr_record_n_fits v n e Hb Hv Hn) as (e1 & He1 & Hb1 & Hc1). cbn [from_sparse]. rewrite He1.
    destruct (IH e1) as (h & Hh & Hbh & Hch); [by rewrite Hb1|by rewrite Hb1|]. rewrite Hb1 in Hch.
    exists h. split_and!; [done|congruence|]. intros w Hw. rewrite Hch, Hc1 by done.
    unfold sparse_count. rewrite fmap_cons, sum_Z_cons. fold (sparse_count (hdr_bounds e) w l). cbn [fst snd].
    assert (0 <= sparse_count (hdr_bounds e) w l) as Hnn.
    { apply sum_Z_nonneg, Forall_fmap. eapply Forall_impl; [exact Hl|]. intros p [_ ?]. cbn. case_decide; ulia. }
    pose proof (hdr_count_at_u64 e w). case_decide; [|f_equal; lia]. rewrite u64_saturating_add_assoc by ulia. done.
Qed.

(** Recorded into an empty histogram of its bounds, what a histogram
    iterates is a histogram that cannot be told from it. *)
Lemma sparse_roundtrip (h e : H) :
  used_bounds (hdr_bounds h) -> hdr_new (hdr_bounds h) = Some e ->
  exists h', from_sparse record_error (to_sparse h) e = Ok h' /\ hdr_bounds h' = hdr_bounds h /\ h' ≡ h.
Proof.
  intros Hb He. destruct (hdr_new_spec (H := H) _ Hb) as (e' & He' & Hbe & Hce). assert (e' = e) as -> by congruence.
  unfold to_sparse. destruct (from_sparse_spec (hdr_recorded h) e) as (h' & Hh' & Hb' & Hc'); [by rewrite Hbe| |].
  { rewrite Hbe. eapply Forall_impl; [exact (hdr_recorded_fits h Hb)|]. intros p [(v & Hv & Heq) Hp]. split; [by exists v|].
    rewrite (Hp v) by done. apply hdr_count_at_u64. }
  exists h'. rewrite Hbe in *. split_and!; [done|done|]. split; [done|]. rewrite Hb'. intros w Hw. rewrite Hc', Hce by done.
  assert (sparse_count (hdr_bounds h) w (hdr_recorded h) = hdr_count_at h w) as ->.
  { destruct (decide (Exists (fun p => equivalent (hdr_bounds h) p.1 w) (hdr_recorded h))) as [Hex|Hno].
    - apply Exists_exists in Hex as (p & Hp & Heq). rewrite (sparse_count_elem _ _ _ p); [|by apply hdr_recorded_distinct|done|done].
      pose proof (hdr_recorded_fits h Hb) as Hf. rewrite Forall_forall in Hf. by apply (proj2 (Hf p Hp)).
    - rewrite sparse_count_none.
      + destruct (Z.eq_dec (hdr_count_at h w) 0) as [|Hne]; [done|]. destruct Hno.
        destruct (hdr_recorded_complete h w Hb Hw Hne) as (p & Hp & Heq). apply Exists_exists. by exists p.
      + by apply Forall_Exists_neg. }
  pose proof (hdr_count_at_u64 h w). unfold u64_saturating_add, u64_max. ulia.
Qed.

Lemma decode_hist_roundtrip (h : H) : hist_ok h ->
  exists h', decode_hist record_error (to_sparse h) = Ok h' /\ hist_ok h' /\ h' ≡ h.
Proof.
  unfold hist_ok. intros Hh. destruct (metrics_latency_histogram_ok (H := H)) as (e & He & Hfe).
  assert (hdr_new (hdr_bounds h) = Some e) as Hnew.
  { rewrite Hh. unfold metrics_latency_histogram, latency_histogram in He. destruct (hdr_new latency_bounds); congruence. }
  destruct (sparse_roundtrip h e) as (h' & Hh' & Hb & Heq); [rewrite Hh; apply latency_bounds_used|done|].
  exists h'. unfold decode_hist, wire_empty. rewrite He. cbn. split_and!; [done|congruence|done].
Qed.

(** An action of the totals, sent and decoded. *)
Lemma action_roundtrip (e : string * ActionTotals H) : action_ok e.2 ->
  exists b : ActionTotals H, into_action record_error (WireActionTotals_from e) = Ok (e.1, b) /\ action_ok b /\ b ≡ e.2.
Proof.
  destruct e as [name a]. intros (H1' & H2' & H3'). cbn [fst snd] in *.
  destruct (decode_hist_roundtrip _ H1') as (rtt & Hr & Hr1 & Hr2). destruct (decode_hist_roundtrip _ H2') as (response & Hs & Hs1 & Hs2).
  unfold into_action, WireActionTotals_from. cbn [wa_rtt wa_response wa_name wa_sent wa_errors wa_sent_message_errors].
  rewrite Hr, Hs. cbn [result_bind]. eexists. split; [reflexivity|]. split; [split_and!; [done|done|apply H3'..]|].
  split_and!; [done|done|]. cbn. by destruct (at_counts a).
Qed.

Lemma actions_roundtrip (m : gmap string (ActionTotals H)) : map_Forall (fun _ => action_ok) m ->
  exists l : list (string * ActionTotals H), result_collect (into_action record_error) (WireActionTotals_from <$> name_entries m) = Ok l /\
    let m' : gmap string (ActionTotals H) := fold_left (fun m e => <[e.1 := e.2]> m) l ∅ in
    forall name, option_Forall2 (fun b a => action_ok b /\ b ≡ a) (m' !! name) (m !! name).
Proof.
  intros Hm. assert (name_entries m ≡ₚ map_to_list m) as Hp by apply merge_sort_Permutation.
  assert (Forall (fun e => action_ok e.2) (name_entries m)) as Hok.
  { apply Forall_forall. intros [name a] Hin. rewrite Hp in Hin. cbn. apply elem_of_map_to_list in Hin. by apply Hm in Hin. }
  assert (exists l : list (string * ActionTotals H), Forall2 (fun w e => into_action record_error w = Ok e) (WireActionTotals_from <$> name_entries m) l /\
    Forall2 (fun (e e' : string * ActionTotals H) => e.1 = e'.1 /\ action_ok e.2 /\ e.2 ≡ e'.2) l (name_entries m)) as (l & Hl & Hrel).
  { clear Hp. induction Hok as [|e es He _ (l & Hl & Hrel)]; [by exists []|].
    destruct (action_roundtrip e He) as (b & Hb & Hbok & Hbeq). exists ((e.1, b) :: l). split; by constructor. }
  exists l. split; [by apply result_collect_Ok|]. cbv zeta. intros name.
  rewrite <- (fold_insert_entries (name_entries m) m) by apply filter_name_entries.
  apply (fold_insert_related (fun b a => action_ok b /\ b ≡ a)); [done|]. intros k. rewrite !lookup_empty. constructor.
Qed.

(** The totals, sent and decoded. *)
Lemma totals_roundtrip (a0 : ActionTotals H) (t : MetricsTotals H) :
  action_ok a0 -> totals_ok a0 t ->
  exists t', into_totals record_error (WireTotals_from t) = Ok t' /\ totals_ok a0 t' /\ totals_equiv t' t /\ mt_absorbed t' = [].
Proof.
  intros Ha0 (T1 & T2 & T3 & T4).
  destruct (decode_hist_roundtrip _ T1) as (h1 & E1 & O1 & Q1). destruct (decode_hist_roundtrip _ T2) as (h2 & E2 & O2 & Q2).
  destruct (decode_hist_roundtrip _ T3) as (h3 & E3 & O3 & Q3).
  destruct (actions_roundtrip (mt_actions t)) as (l & Hl & Hact).
  { intros name a Ha. specialize (T4 name). unfold action_of in T4. by rewrite Ha in T4. }
  unfold into_totals, WireTotals_from. cbn [wt_handshake wt_rtt wt_response wt_actions]. rewrite E1, E2, E3, Hl. cbn [result_bind].
  eexists. split; [reflexivity|]. split; [|split; [|done]].
  - split_and!; [done..|]. intros name. unfold action_of. cbn. by destruct (Hact name) as [b a [Hb _]|].
  - split_and!; try done. intros name. cbn. destruct (Hact name) as [b a [_ Hb]|]; by constructor.
Qed.

(** The interval histograms, sent and decoded. *)
Lemma buckets_roundtrip (buckets : gmap Z H) : map_Forall (fun _ h => hdr_bounds h = interval_bounds) buckets ->
  exists m, fold_left (decode_interval record_error)
      ((fun e => mkWireInterval e.1 (to_sparse e.2)) <$> btree_entries buckets) (Ok ∅) = Ok m /\
    forall k, option_Forall2 (fun h' h : H => hdr_bounds h' = interval_bounds /\ h' ≡ h) (m !! k) (buckets !! k).
Proof.
  intros Hm. destruct (hdr_new_spec (H := H) interval_bounds interval_bounds_used) as (e & He & _).
  assert (Forall (fun e : Z * H => hdr_bounds e.2 = interval_bounds) (btree_entries buckets)) as Hok.
  { apply Forall_forall. intros [k h] Hin%elem_of_btree_entries. by apply (Hm k). }
  assert (forall (es : list (Z * H)) (m1 m2 : gmap Z H), Forall (fun e => hdr_bounds e.2 = interval_bounds) es ->
    (forall k, option_Forall2 (fun h' h : H => hdr_bounds h' = interval_bounds /\ h' ≡ h) (m1 !! k) (m2 !! k)) ->
    exists m, fold_left (decode_interval record_error)
        ((fun e => mkWireInterval e.1 (to_sparse e.2)) <$> es) (Ok m1) = Ok m /\
      forall k, option_Forall2 (fun h' h : H => hdr_bounds h' = interval_bounds /\ h' ≡ h) (m !! k)
        (fold_left (fun m e => <[e.1 := e.2]> m) es m2 !! k)) as Hgen.
  2: { destruct (Hgen (btree_entries buckets) ∅ ∅ Hok) as (m & Hd & Hk); [intros k; rewrite lookup_empty; constructor|].
    exists m. split; [exact Hd|]. intros k. specialize (Hk k).
    by rewrite (fold_insert_entries (btree_entries buckets) buckets) in Hk by apply filter_btree_entries. }
  clear Hok Hm buckets. intros es m1 m2 Hok. revert m1 m2.
  induction Hok as [|[k h] es Hh _ IH]; intros m1 m2 Hm; [by exists m1|]. cbn [fmap list_fmap fold_left fst snd] in *.
  destruct (sparse_roundtrip h e) as (h' & Hh' & Hb & Heq); [rewrite Hh; apply interval_bounds_used|by rewrite Hh|].
  unfold decode_interval at 2. cbn [result_bind wi_values wi_index]. unfold interval_histogram. rewrite He, Hh'. cbn [result_bind].
  apply IH. intros k'. destruct (decide (k = k')) as [->|Hne].
  - rewrite !lookup_insert_eq. constructor. split; [congruence|done].
  - by rewrite !lookup_insert_ne.
Qed.

(** The generator's lag; an agent whose probe has no histogram sends
    nothing. *)
Definition lag_received (sent received : LagTotals H) : Prop :=
  match lt_hist sent with
  | None => received = LagTotals_default
  | Some h => exists h', h' ≡ h /\ received =
      mkLagTotals (Some h') (lt_intervals sent) (lt_intervals_over sent) (Some (default (threshold_us windows) (lt_threshold_us sent)))
  end.

Lemma lag_roundtrip (lag : LagTotals H) : (forall h, lt_hist lag = Some h -> hdr_bounds h = lag_bounds) ->
  exists lag', match WireLag_new windows lag with Some w => WireLag_decode record_error w | None => Ok LagTotals_default end = Ok lag' /\
    lag_received lag lag'.
Proof.
  intros Hb. unfold WireLag_new, lag_parts, lag_received. destruct lag as [[h|] intervals over threshold]; cbn; [|by eexists].
  assert (used_bounds lag_bounds) as Hu by (split_and!; [done|done|by left]). specialize (Hb h eq_refl).
  destruct (hdr_new_spec (H := H) lag_bounds Hu) as (e & He & _).
  destruct (sparse_roundtrip h e) as (h' & Hh' & Hb' & Heq); [by rewrite Hb|by rewrite Hb|].
  unfold WireLag_decode, lag_histogram. cbn. rewrite He, Hh'. cbn. eexists. split; [reflexivity|]. by exists h'.
Qed.

(** C26. A result arrives as it was sent. When the agent's histograms have
    the bounds the program creates them with, the coordinator's decoding of
    what the agent packed never fails, and it gives the same counters, error
    counts and chaos counts, the same actions, an interval's histogram where
    the agent had one and nowhere else, the probe's lag against the agent's
    own threshold, and histograms that cannot be told from the agent's: they
    count the same at every value. *)
Theorem result_roundtrip (a0 : ActionTotals H) (totals : MetricsTotals H) (meta : ResultMeta H) (series : TimeSeries)
    (buckets : gmap Z H) (Ha0 : ActionTotals_new = Ok a0) (Htotals : totals_ok a0 totals)
    (Hbuckets : map_Forall (fun _ h => hdr_bounds h = interval_bounds) buckets)
    (Hlag : forall h, lt_hist (rm_lag meta) = Some h -> hdr_bounds h = lag_bounds) :
  exists r,
    WireResult_decode record_error (WireResult_new windows totals meta series buckets) = Ok r /\
    totals_equiv (ar_totals r) totals /\ lag_received (rm_lag meta) (ar_lag r) /\
    sp_series (ar_series r) = series /\ (forall k, option_Forall2 (≡) (sp_buckets (ar_series r) !! k) (buckets !! k)) /\
    ar_elapsed r = rm_elapsed meta /\ ar_connections r = rm_connections meta /\ ar_not_started r = rm_not_started meta /\
    ar_started_at_unix_ms r = rm_started_at_unix_ms meta /\ ar_capture_dropped r = rm_capture_dropped meta /\
    ar_open_file_limit r = rm_open_file_limit meta /\ ar_arrivals r = rm_arrivals meta /\ ar_compression r = rm_compression meta.
Proof.
  destruct ActionTotals_new_ok as (a & Ha & Hfresh). assert (a = a0) as -> by congruence.
  destruct (buckets_roundtrip buckets Hbuckets) as (m & Hm & Hmb).
  destruct (totals_roundtrip a0 totals (fresh_action_ok a0 Hfresh) Htotals) as (t & Ht & _ & Hteq & _).
  destruct (lag_roundtrip (rm_lag meta) Hlag) as (l & Hl & Hleq).
  unfold WireResult_decode, WireResult_new. cbn [wr_intervals wr_totals wr_generator_lag]. rewrite Hm, Ht. cbn [result_bind].
  rewrite Hl. cbn [result_bind]. eexists. split; [reflexivity|]. cbn. split_and!; try done.
  intros k. destruct (Hmb k) as [h' h [_ Hh]|]; by constructor.
Qed.
End RoundTrip.

(** A machine's totals with one latency, one interval and one lag. *)
#[local] Instance no_format : Formatter :=
  {| debug_duration := fun _ => ""%string; fixed := fun _ _ => ""%string; display_f64 := fun _ => ""%string |}.
Definition sample_hist (b : HdrBounds) (values : list Z) : ClassHistogram := hdr_record_all values (mkClassHistogram b ∅).
Definition sample_totals : MetricsTotals ClassHistogram :=
  let e := mkClassHistogram latency_bounds ∅ in
  mkMetricsTotals (sample_hist latency_bounds [900]) (sample_hist latency_bounds [1500; 70000; 70001]) e 4 3 40 30 0 0 0 0
    {[ Timeout := 1 ]} None [] {[ "ask"%string := mkActionTotals e (sample_hist latency_bounds [1500]) (mkActionCounts 4 1 0) ]}.
Definition sample_meta : ResultMeta ClassHistogram :=
  mkResultMeta (from_secs 10) 1700000000000 5 0 None (mkLagTotals (Some (sample_hist lag_bounds [40000])) 10 1 None) None None None.

Lemma result_roundtrip_witness :
  exists r, WireResult_decode "" (WireResult_new false sample_totals sample_meta TimeSeries_default
    {[ 3 := sample_hist interval_bounds [1500; 70000] ]}) = Ok r /\
    totals_equiv (ar_totals r) sample_totals /\ is_Some (sp_buckets (ar_series r) !! 3) /\
    hdr_count_at (mt_rtt (ar_totals r)) 70000 = 2.
Proof.
  destruct (result_roundtrip false "" (mkActionTotals (mkClassHistogram latency_bounds ∅) (mkClassHistogram latency_bounds ∅) ActionCounts_default)
    sample_totals sample_meta TimeSeries_default {[ 3 := sample_hist interval_bounds [1500; 70000] ]})
    as (r & Hr & Ht & _ & _ & Hb & _).
  - reflexivity.
  - split_and!; try done. intros name. unfold action_of. cbn.
    destruct (decide (name = "ask"%string)) as [->|Hne]; [by rewrite lookup_singleton_eq; split_and!|].
    by rewrite lookup_singleton_ne; [split_and!|].
  - by apply map_Forall_singleton.
  - by intros h [= <-].
  - exists r. split; [exact Hr|]. split; [exact Ht|]. split.
    + specialize (Hb 3). rewrite lookup_singleton_eq in Hb. destruct (sp_buckets (ar_series r) !! 3) as [h|]; [by eexists|].
      exfalso. revert Hb. generalize (sample_hist interval_bounds [1500; 70000]). intros h Hb. inversion Hb.
    + destruct Ht as (_ & [Hbd Hc] & _). rewrite Hc; [vm_compute; reflexivity|]. rewrite Hbd. split; vm_compute; discriminate.
Defined.
