(* ===== verification/Scenario.v ===== *)
(** * Scenarios (src/src/runner.rs)

    [ScenarioExecutor::run]: the phases one after another, each summarised on
    its own and added to the totals of the whole run, and the SLO gate of the
    run.  What each phase's runner returns and when the run is cancelled is
    the environment's choice. *)

From Stdlib Require Import ZArith Lia String Floats.SpecFloat.
From stdpp Require Import base tactics strings numbers option gmap sorting list.
From S2P Require Import Prelude RustStd Str Hdr Histogram Live TimeSeries Summaries Metrics Merge Load Slo Lag.

Local Open Scope Z_scope.
Local Open Scope rust_scope.

(** What the executor uses of a [ScenarioPhase]. *)
Record PlannedPhase := mkPlannedPhase {
  pp_name : string;
  pp_target : string;
  pp_connections : Z;
  pp_stages : list Stage;
  pp_arrivals : option Arrivals;
  pp_slo : SloThresholds;
}.

Record RunOutcome (H : Type) := mkRunOutcome {
  ro_totals : MetricsTotals H;
  ro_arrivals : option ArrivalCounts;
  ro_compression : option CompressionCounts;
  ro_elapsed : Z;
  ro_connections : Z;
  ro_not_started : Z;
  ro_started_at : Z;
  ro_time_series : TimeSeries;
  ro_capture : option CaptureSummary;
  ro_lag : LagTotals H;
}.
Arguments mkRunOutcome {H}. Arguments ro_totals {H}. Arguments ro_arrivals {H}. Arguments ro_compression {H}.
Arguments ro_elapsed {H}. Arguments ro_connections {H}. Arguments ro_not_started {H}. Arguments ro_started_at {H}.
Arguments ro_time_series {H}. Arguments ro_capture {H}. Arguments ro_lag {H}.

Record PhaseTarget := mkPhaseTarget { pt_phase : string; pt_target_url : string }.
Record PhaseResult := mkPhaseResult {
  pr_name : string;
  pr_target_url : string;
  pr_connections : Z;
  pr_stages : list Stage;
  pr_metrics : AggregatedMetrics;
  pr_slo : SloEvaluation;
}.
Record ScenarioOutcome := mkScenarioOutcome {
  sn_metrics : AggregatedMetrics;
  sn_phase_targets : list PhaseTarget;
  sn_phases : list PhaseResult;
  sn_slo : SloEvaluation;
}.
Definition passed (o : ScenarioOutcome) : bool := se_passed (sn_slo o).

(** [rlimit]: the soft limit, [None] when it cannot be read. *)
Definition open_file_limit (rlimit : option Z) (required_conns : Z) : option OpenFileLimit :=
  soft_limit ← rlimit;
  let needed := u64_saturating_add required_conns 64 in
  Some (mkOpenFileLimit soft_limit needed (needed <=? soft_limit)).

(** The mutable variables of [run]. *)
Record ScenarioState (H : Type) := mkScenarioState {
  sx_totals : MetricsTotals H;
  sx_phase_results : list PhaseResult;
  sx_total_elapsed : Z;
  sx_total_connections : Z;
  sx_total_not_started : Z;
  sx_time_series : TimeSeries;
  sx_lag : LagTotals H;
  sx_largest_phase : Z;
  sx_arrivals : option ArrivalSummary;
  sx_compression : option CompressionSummary;
  sx_phase_targets : list PhaseTarget;
}.
Arguments mkScenarioState {H}. Arguments sx_totals {H}. Arguments sx_phase_results {H}. Arguments sx_total_elapsed {H}.
Arguments sx_total_connections {H}. Arguments sx_total_not_started {H}. Arguments sx_time_series {H}.
Arguments sx_lag {H}. Arguments sx_largest_phase {H}. Arguments sx_arrivals {H}. Arguments sx_compression {H}.
Arguments sx_phase_targets {H}.

Section Executor.
Context {H : Type} `{Hdr H, Formatter} (windows : bool) (rlimit : option Z).

Definition ScenarioState_new (totals : MetricsTotals H) : ScenarioState H :=
  mkScenarioState totals [] 0 0 0 TimeSeries_default LagTotals_default 0 None None [].

Definition CompressionSummary_default : CompressionSummary := mkCompressionSummary 0 0 0 0 0 0.

(** A phase's own metrics, with its share of what the executor attaches. *)
Definition phase_metrics (phase : PlannedPhase) (outcome : RunOutcome H) : AggregatedMetrics :=
  with_generator (lag_summary windows (ro_lag outcome)) (open_file_limit rlimit (pp_connections phase))
    (with_compression (ro_compression outcome)
       (with_arrivals (pp_arrivals phase) (ro_arrivals outcome)
          (with_time_series (ro_time_series outcome)
             (with_not_started (ro_not_started outcome)
                (MetricsTotals_finish (ro_totals outcome) (ro_elapsed outcome) (ro_connections outcome)))))).

(** One round of the loop. *)
Definition run_phase (scenario_start : Z) (phase : PlannedPhase) (outcome : RunOutcome H) (s : ScenarioState H)
  : result (ScenarioState H) WsBlastError :=
  let? totals := MetricsTotals_add (sx_totals s) (ro_totals outcome) in
  let metrics := phase_metrics phase outcome in
  Ok (mkScenarioState totals
    (sx_phase_results s ++ [mkPhaseResult (pp_name phase) (pp_target phase) (pp_connections phase) (pp_stages phase)
                              metrics (evaluate_slos (pp_slo phase) metrics)])
    (sx_total_elapsed s + ro_elapsed outcome)
    (sx_total_connections s +u ro_connections outcome)
    (sx_total_not_started s +u ro_not_started outcome)
    (append (sx_time_series s) (ro_time_series outcome) (saturating_duration_since (ro_started_at outcome) scenario_start))
    (LagTotals_add (sx_lag s) (ro_lag outcome))
    (Z.max (sx_largest_phase s) (pp_connections phase))
    (match ag_arrivals metrics, sx_arrivals s with
     | Some phase_arrivals, Some all => Some (ArrivalSummary_add_phase all phase_arrivals)
     | Some phase_arrivals, None => Some phase_arrivals
     | None, all => all
     end)
    (match ag_compression metrics with
     | Some phase_compression =>
         Some (CompressionSummary_add (default CompressionSummary_default (sx_compression s)) phase_compression)
     | None => sx_compression s
     end)
    (sx_phase_targets s ++ [mkPhaseTarget (pp_name phase) (pp_target phase)])).

(** For every phase whether the run is cancelled before it, and what its
    runner returns. *)
Definition PhaseEnv : Type := bool * result (RunOutcome H) WsBlastError.

Fixpoint run_phases (scenario_start : Z) (phases : list PlannedPhase) (env : list PhaseEnv) (s : ScenarioState H)
  : result (ScenarioState H) WsBlastError :=
  match phases, env with
  | phase :: phases, (cancelled, outcome) :: env =>
      if cancelled then Ok s
      else
        let? outcome := outcome in
        let? s := run_phase scenario_start phase outcome s in
        run_phases scenario_start phases env s
  | _, _ => Ok s
  end.

Definition scenario_run (flags file : SloThresholds) (action_slos : list (string * SloThresholds)) (scenario_start : Z)
    (phases : list PlannedPhase) (capture : option CaptureSummary) (env : list PhaseEnv)
  : result ScenarioOutcome WsBlastError :=
  let? totals := MetricsTotals_new in
  let? s := run_phases scenario_start phases env (ScenarioState_new totals) in
  let metrics :=
    with_generator (lag_summary windows (sx_lag s)) (open_file_limit rlimit (sx_largest_phase s))
      (with_capture capture
         (with_time_series (sx_time_series s)
            (with_not_started (sx_total_not_started s)
               (MetricsTotals_finish (sx_totals s) (sx_total_elapsed s) (sx_total_connections s))))) in
  let metrics := metrics <| ag_arrivals := sx_arrivals s |> <| ag_compression := sx_compression s |> in
  let overall := evaluate_slos (or_from flags file) metrics in
  let slo := scenario_slo_evaluation overall ((fun p => (pr_name p, pr_slo p)) <$> sx_phase_results s) in
  let slo := with_action_slos slo action_slos metrics in
  Ok (mkScenarioOutcome metrics (sx_phase_targets s) (sx_phase_results s) slo).
End Executor.

(** ** A scenario's report *)

Section Report.
Context {H : Type} `{HdrLaws H, Formatter} (windows : bool) (rlimit : option Z).

(** The phases that ran, with what their runners returned. *)
Fixpoint executed (phases : list PlannedPhase) (env : list (@PhaseEnv H)) : list (PlannedPhase * RunOutcome H) :=
  match phases, env with
  | phase :: phases, (false, Ok outcome) :: env => (phase, outcome) :: executed phases env
  | _, _ => []
  end.

Definition phase_result (run : PlannedPhase * RunOutcome H) : PhaseResult :=
  let metrics := phase_metrics windows rlimit run.1 run.2 in
  mkPhaseResult (pp_name run.1) (pp_target run.1) (pp_connections run.1) (pp_stages run.1) metrics
    (evaluate_slos (pp_slo run.1) metrics).

Definition sum_u64 (l : list Z) : Z := fold_left u64_add l 0.

(** No two groups of workers share a recorder. *)
Definition apart (groups : list (list WorkerMetrics)) : Prop :=
  forall i j g1 g2 w1 w2, i <> j -> groups !! i = Some g1 -> groups !! j = Some g2 -> w1 ∈ g1 -> w2 ∈ g2 ->
  wm_latency w1 <> wm_latency w2.

Lemma apart_shift past ws groups : apart (past :: ws :: groups) -> apart ((past ++ ws) :: groups).
Proof using.
  intros Ha i j g1 g2 w1 w2 Hij Hi Hj H1' H2'.
  destruct i as [|i], j as [|j]; [done| | |].
  - injection Hi as <-. apply elem_of_app in H1' as [H1'|H1'].
    + by apply (Ha 0%nat (S (S j)) past g2).
    + by apply (Ha 1%nat (S (S j)) ws g2).
  - injection Hj as <-. apply elem_of_app in H2' as [H2'|H2'].
    + by apply (Ha (S (S i)) 0%nat g1 past).
    + by apply (Ha (S (S i)) 1%nat g1 ws).
  - apply (Ha (S (S i)) (S (S j)) g1 g2); [congruence|done..].
Qed.

Section Phases.
Context (heap : gmap nat LatencyRecorder) (Hheap : map_Forall (fun _ r => LatencyRecorder_ok r) heap).
Context (t0 : MetricsTotals H) (Hnew : MetricsTotals_new = Ok t0).

Lemma run_phases_spec (a0 : ActionTotals H) (Ha0 : ActionTotals_new = Ok a0)
    scenario_start phases env groups past (s : ScenarioState H) :
  Forall (fun e : PhaseEnv => exists o, e.2 = Ok o) env ->
  Forall2 (fun r ws => ro_totals r.2 = add_workers heap ws t0) (executed phases env) groups ->
  apart (past :: groups) -> totals_ok a0 (sx_totals s) -> totals_equiv (sx_totals s) (add_workers heap past t0) ->
  exists s', run_phases windows rlimit scenario_start phases env s = Ok s' /\
    totals_equiv (sx_totals s') (add_workers heap (past ++ concat groups) t0) /\
    sx_phase_results s' = sx_phase_results s ++ (phase_result <$> executed phases env) /\
    sx_phase_targets s' = sx_phase_targets s
      ++ ((fun r => mkPhaseTarget (pp_name r.1) (pp_target r.1)) <$> executed phases env) /\
    sx_total_elapsed s' = sx_total_elapsed s + sum_Z ((ro_elapsed ∘ snd) <$> executed phases env) /\
    sx_total_connections s' = fold_left u64_add ((ro_connections ∘ snd) <$> executed phases env) (sx_total_connections s).
Proof.
  revert env groups past s. induction phases as [|phase phases IH]; intros env groups past s Henv Hg Hapart Hok Heq.
  { inversion Hg; subst. exists s. cbn. rewrite !app_nil_r. split_and!; try done; cbn; lia. }
  destruct env as [|[[] outcome] env].
  - inversion Hg; subst. exists s. cbn. rewrite !app_nil_r. split_and!; try done; cbn; lia.
  - inversion Hg; subst. exists s. cbn. rewrite !app_nil_r. split_and!; try done; cbn; lia.
  - apply Forall_cons in Henv as [[o Ho] Henv]. cbn in Ho. subst outcome. cbn [executed] in Hg.
    inversion Hg as [|? ws ? groups' Hws Hg']; subst. cbn in Hws.
    destruct (add_group heap Hheap t0 Hnew a0 Ha0 past ws (sx_totals s) (add_workers heap ws t0)) as (v & Hv & Hvok & Hveq);
      [|done|done|by apply group_ok|apply totals_equiv_refl|].
    { intros w1 w2 Hw1 Hw2. by apply (Hapart 0%nat 1%nat past ws). }
    cbn [run_phases result_bind]. unfold run_phase. rewrite Hws, Hv. cbn [result_bind].
    edestruct (IH env groups' (past ++ ws)) as (s' & Hrun & Ht & Hr & Hp & He & Hc);
      [exact Henv|exact Hg'|by apply apart_shift| | |].
    3: { exists s'. rewrite Hrun. split; [done|]. cbn [concat]. rewrite app_assoc. split; [done|].
      cbn [sx_phase_results sx_phase_targets sx_total_elapsed sx_total_connections] in *. cbn [executed]. rewrite !fmap_cons.
      rewrite Hr, Hp, He, Hc, sum_Z_cons. cbn. rewrite <- !app_assoc. split_and!; try done. lia. }
    + exact Hvok.
    + exact Hveq.
Qed.
End Phases.

(** C3. A scenario reports its phases as one run. When no phase's runner
    fails and every phase's totals are those of its own workers, the
    executor returns, and the phases it lists are those before the first
    cancellation, each with the metrics and the verdict of its own workers.
    The metrics of the whole run are those of totals that cannot be told
    from the totals of all the workers of all these phases, each recorder
    absorbed once, over the sum of the phases' run times and connections;
    and the run passes exactly when these metrics meet the thresholds of the
    flags and the file, every listed phase meets its own and every named
    action meets its own. *)
Theorem scenario_reports_one_run (heap : gmap nat LatencyRecorder) (t0 : MetricsTotals H)
    (flags file : SloThresholds) (action_slos : list (string * SloThresholds)) (scenario_start : Z)
    (phases : list PlannedPhase) (capture : option CaptureSummary) (env : list PhaseEnv) (groups : list (list WorkerMetrics))
    (Hheap : map_Forall (fun _ r => LatencyRecorder_ok r) heap) (Hnew : MetricsTotals_new = Ok t0)
    (Henv : Forall (fun e : PhaseEnv => exists o, e.2 = Ok o) env)
    (Hworkers : Forall2 (fun r ws => ro_totals r.2 = add_workers heap ws t0) (executed phases env) groups)
    (Hapart : apart groups) :
  let runs := executed phases env in
  exists out totals limit lag arrivals compression series not_started,
    scenario_run windows rlimit flags file action_slos scenario_start phases capture env = Ok out /\
    totals_equiv totals (add_workers heap (concat groups) t0) /\
    sn_phases out = (phase_result <$> runs) /\
    sn_phase_targets out = ((fun r => mkPhaseTarget (pp_name r.1) (pp_target r.1)) <$> runs) /\
    (let m := with_generator lag limit (with_capture capture (with_time_series series (with_not_started not_started
       (MetricsTotals_finish totals (sum_Z ((ro_elapsed ∘ snd) <$> runs)) (sum_u64 ((ro_connections ∘ snd) <$> runs)))))) in
     sn_metrics out = m <| ag_arrivals := arrivals |> <| ag_compression := compression |>) /\
    (passed out = true <->
       slo_met (or_from flags file) (sn_metrics out) /\
       Forall (fun r => slo_met (pp_slo r.1) (phase_metrics windows rlimit r.1 r.2)) runs /\
       Forall (action_met (sn_metrics out)) action_slos).
Proof.
  cbv zeta. destruct ActionTotals_new_ok as (a0 & Ha0 & _).
  destruct (run_phases_spec heap Hheap t0 Hnew a0 Ha0 scenario_start phases env groups [] (ScenarioState_new t0))
    as (s & Hrun & Ht & Hr & Hp & He & Hc); [done|done| | | |].
  { intros i j g1 g2 w1 w2 Hij Hi Hj. destruct i as [|i], j as [|j]; [done| | |].
    - injection Hi as <-. intros Hw. by apply not_elem_of_nil in Hw.
    - injection Hj as <-. intros _ Hw. by apply not_elem_of_nil in Hw.
    - apply (Hapart i j g1 g2); [congruence|done..]. }
  { apply (new_totals_empty t0 Hnew a0 Ha0). }
  { by apply totals_equiv_refl. }
  unfold scenario_run. rewrite Hnew. cbn [result_bind]. rewrite Hrun. cbn [result_bind].
  do 8 eexists. split; [reflexivity|].
  cbn [app ScenarioState_new sx_phase_results sx_phase_targets sx_total_elapsed sx_total_connections] in Ht, Hr, Hp, He, Hc. cbn [sn_phases sn_phase_targets sn_metrics passed sn_slo].
  split; [exact Ht|]. split; [exact Hr|]. split; [exact Hp|]. split; [by rewrite He, Hc|].
  set (m := set_field ag_compression _ _). set (e := scenario_slo_evaluation _ _).
  assert (coherent e) as Hcoh.
  { apply scenario_coherent; [apply evaluate_slos_coherent|]. rewrite Hr. cbn [app]. rewrite !Forall_fmap. apply Forall_true.
    intros r. cbn. apply evaluate_slos_coherent. }
  unfold passed. cbn [sn_slo]. rewrite (proj1 (with_action_slos_spec m action_slos e Hcoh)). unfold e.
  rewrite scenario_passed, evaluate_slos_passed, Hr. cbn [app]. rewrite !Forall_fmap.
  assert (Forall ((fun p : string * SloEvaluation => se_passed p.2 = true) ∘ (fun p => (pr_name p, pr_slo p)) ∘ phase_result)
            (executed phases env) <->
          Forall (fun r => slo_met (pp_slo r.1) (phase_metrics windows rlimit r.1 r.2)) (executed phases env)) as Hiff.
  { split; intros Hf; (eapply Forall_impl; [exact Hf|]); intros r; cbn; apply evaluate_slos_passed. }
  rewrite Hiff. tauto.
Qed.
End Report.

(** Two phases of a worker each; the run is cancelled before the third. *)
#[local] Instance no_format : Formatter :=
  {| debug_duration := fun _ => ""%string; fixed := fun _ _ => ""%string; display_f64 := fun _ => ""%string |}.
Definition no_slo : SloThresholds := mkSloThresholds None None None None None None None.
Definition planned (name : string) : PlannedPhase := mkPlannedPhase name "ws://a" 1 [] None no_slo.
Definition outcome_of_totals (totals : MetricsTotals ClassHistogram) : RunOutcome ClassHistogram :=
  mkRunOutcome totals None None (from_secs 1) 1 0 0 TimeSeries_default None LagTotals_default.

Lemma scenario_reports_one_run_witness :
  let heap := {[ 0%nat := with_shards 1; 1%nat := with_shards 2 ]} in
  let t0 := mkMetricsTotals (mkClassHistogram latency_bounds ∅) (mkClassHistogram latency_bounds ∅)
    (mkClassHistogram latency_bounds ∅) 0 0 0 0 0 0 0 0 ∅ None [] ∅ in
  let outcome ws := Ok (outcome_of_totals (add_workers heap ws t0)) in
  exists out,
    scenario_run false None no_slo no_slo [] 0 [planned "warmup"; planned "spike"; planned "cooldown"] None
      [(false, outcome [sample_worker 0 3]); (false, outcome [sample_worker 1 4]); (true, outcome [])] = Ok out /\
    ag_total_messages_sent (sn_metrics out) = 7 /\ pt_phase <$> sn_phase_targets out = ["warmup"%string; "spike"%string].
Proof.
  intros heap t0 outcome.
  assert (map_Forall (fun _ r => LatencyRecorder_ok r) heap) as Hheap.
  { apply map_Forall_insert_2; [|apply map_Forall_singleton]; split_and!;
      try apply histogram_ok_new; constructor. }
  assert (MetricsTotals_new (H := ClassHistogram) = Ok t0) as Hnew by reflexivity.
  destruct (scenario_reports_one_run false None heap t0 no_slo no_slo [] 0
    [planned "warmup"; planned "spike"; planned "cooldown"] None
    [(false, outcome [sample_worker 0 3]); (false, outcome [sample_worker 1 4]); (true, outcome [])]
    [[sample_worker 0 3]; [sample_worker 1 4]] Hheap Hnew) as (out & v & ? & ? & ? & ? & ? & ? & Hrun & Hv & _ & Ht & Hm & _).
  - repeat constructor; by eexists.
  - repeat constructor.
  - intros i j g1 g2 w1 w2 Hij Hi Hj Hw1 Hw2. destruct i as [|[|i]], j as [|[|j]]; try done; cbn in Hi, Hj;
      injection Hi as <-; injection Hj as <-; apply list_elem_of_singleton in Hw1 as ->, Hw2 as ->; done.
  - exists out. split; [exact Hrun|]. rewrite Ht. split; [|reflexivity].
    rewrite Hm. cbn. destruct Hv as (_ & _ & _ & -> & _). reflexivity.
Defined.
