(* ===== verification/Health.v ===== *)
(** * Generator health of a distributed run (src/src/distributed/coordinator.rs)

    Lag does not add up across machines: the run reports the agent whose
    generator lagged most and the one with the fewest file descriptors to
    spare. *)

From Stdlib Require Import ZArith Lia String.
From stdpp Require Import base tactics strings numbers option list.
From S2P Require Import Prelude RustStd Summaries Metrics.

Local Open Scope Z_scope.

(** ** Generator health *)

Record GeneratorHealth := mkGeneratorHealth {
  gh_lag : option (string * GeneratorLag);
  gh_files : option (string * OpenFileLimit);
}.

(** [(own.p99_us, own.max_us) > (worst.p99_us, worst.max_us)] *)
Definition lags_more (own worst : GeneratorLag) : bool :=
  (gl_p99_us worst <? gl_p99_us own) || ((gl_p99_us worst =? gl_p99_us own) && (gl_max_us worst <? gl_max_us own)).
(** In 128 bits: the difference of two [u64] does not overflow. *)
Definition headroom (limit : OpenFileLimit) : Z := of_soft_limit limit - of_needed limit.

Definition health_step (h : GeneratorHealth) (agent : AgentGenerator) : GeneratorHealth :=
  mkGeneratorHealth
    (match ag_generator_lag agent with
     | Some own => match gh_lag h with
                   | Some (_, worst) => if lags_more own worst then Some (ag_agent agent, own) else gh_lag h
                   | None => Some (ag_agent agent, own)
                   end
     | None => gh_lag h
     end)
    (match ag_open_file_limit agent with
     | Some own => match gh_files h with
                   | Some (_, tightest) => if headroom own <? headroom tightest then Some (ag_agent agent, own) else gh_files h
                   | None => Some (ag_agent agent, own)
                   end
     | None => gh_files h
     end).

Definition set_saturated (saturated : bool) (l : GeneratorLag) : GeneratorLag :=
  mkGeneratorLag (gl_probe_interval_us l) (gl_samples l) (gl_p50_us l) (gl_p99_us l) (gl_max_us l) (gl_threshold_us l)
    (gl_intervals l) (gl_intervals_over_threshold l) saturated.
Definition agent_saturated (agent : AgentGenerator) : bool := from_option gl_saturated false (ag_generator_lag agent).

Definition GeneratorHealth_of (generators : list AgentGenerator) : GeneratorHealth :=
  let h := fold_left health_step generators (mkGeneratorHealth None None) in
  mkGeneratorHealth ((fun w => (w.1, set_saturated (existsb agent_saturated generators) w.2)) <$> gh_lag h) (gh_files h).
Definition GeneratorHealth_apply (h : GeneratorHealth) (metrics : AggregatedMetrics) : AggregatedMetrics :=
  with_generator (snd <$> gh_lag h) (snd <$> gh_files h) metrics.

(** ** The worst agent *)

(** The agent kept so far is the worst so far. *)
Definition worst_lag (l : list AgentGenerator) (o : option (string * GeneratorLag)) : Prop :=
  match o with
  | None => forall a, a ∈ l -> ag_generator_lag a = None
  | Some (name, worst) =>
      (exists a, a ∈ l /\ ag_agent a = name /\ ag_generator_lag a = Some worst) /\
      forall a own, a ∈ l -> ag_generator_lag a = Some own -> lags_more own worst = false
  end.
Definition tightest_files (l : list AgentGenerator) (o : option (string * OpenFileLimit)) : Prop :=
  match o with
  | None => forall a, a ∈ l -> ag_open_file_limit a = None
  | Some (name, tightest) =>
      (exists a, a ∈ l /\ ag_agent a = name /\ ag_open_file_limit a = Some tightest) /\
      forall a own, a ∈ l -> ag_open_file_limit a = Some own -> headroom tightest <= headroom own
  end.

Lemma lags_more_trans a b c : lags_more a b = false -> lags_more c b = true -> lags_more a c = false.
Proof. unfold lags_more. rewrite !orb_false_iff, !orb_true_iff, !andb_false_iff, !andb_true_iff. lia. Qed.
Lemma lags_more_irrefl a : lags_more a a = false.
Proof. unfold lags_more. lia. Qed.

Lemma health_step_lag l h a : worst_lag l (gh_lag h) -> worst_lag (l ++ [a]) (gh_lag (health_step h a)).
Proof.
  intros Hl. unfold health_step. cbn [gh_lag].
  destruct (ag_generator_lag a) as [own|] eqn:Ea.
  - assert (forall name worst, (forall b l', b ∈ l -> ag_generator_lag b = Some l' -> lags_more l' worst = false) ->
      lags_more own worst = false -> (exists b, b ∈ l ++ [a] /\ ag_agent b = name /\ ag_generator_lag b = Some worst) ->
      worst_lag (l ++ [a]) (Some (name, worst))) as Hmk.
    { intros name worst Hall Hown Hex. split; [done|]. intros b l' [Hb| ->%list_elem_of_singleton]%elem_of_app Hl'; [by eapply Hall|].
      congruence. }
    assert (exists b, b ∈ l ++ [a] /\ ag_agent b = ag_agent a /\ ag_generator_lag b = Some own) as Hself
      by (exists a; split; [apply elem_of_app; right; by apply list_elem_of_singleton|done]).
    destruct (gh_lag h) as [[name worst]|].
    + destruct Hl as [(b & Hb & Hn & Hw) Hall]. destruct (lags_more own worst) eqn:E.
      * apply Hmk; [|apply lags_more_irrefl|done]. intros c l' Hc Hl'. eapply lags_more_trans; [by eapply Hall|done].
      * apply Hmk; [done|done|]. exists b. split; [apply elem_of_app; by left|done].
    + apply Hmk; [|apply lags_more_irrefl|done]. intros c l' Hc Hl'. specialize (Hl c Hc). congruence.
  - destruct (gh_lag h) as [[name worst]|].
    + destruct Hl as [(b & Hb & Hn & Hw) Hall]. split; [exists b; split; [apply elem_of_app; by left|done]|].
      intros c l' [Hc| ->%list_elem_of_singleton]%elem_of_app Hl'; [by eapply Hall|congruence].
    + intros c [Hc| ->%list_elem_of_singleton]%elem_of_app; [by apply Hl|done].
Qed.

Lemma health_step_files l h a : tightest_files l (gh_files h) -> tightest_files (l ++ [a]) (gh_files (health_step h a)).
Proof.
  intros Hl. unfold health_step. cbn [gh_files].
  destruct (ag_open_file_limit a) as [own|] eqn:Ea.
  - assert (forall name tightest, (forall b l', b ∈ l -> ag_open_file_limit b = Some l' -> headroom tightest <= headroom l') ->
      headroom tightest <= headroom own -> (exists b, b ∈ l ++ [a] /\ ag_agent b = name /\ ag_open_file_limit b = Some tightest) ->
      tightest_files (l ++ [a]) (Some (name, tightest))) as Hmk.
    { intros name tightest Hall Hown Hex. split; [done|]. intros b l' [Hb| ->%list_elem_of_singleton]%elem_of_app Hl'; [by eapply Hall|].
      congruence. }
    assert (exists b, b ∈ l ++ [a] /\ ag_agent b = ag_agent a /\ ag_open_file_limit b = Some own) as Hself
      by (exists a; split; [apply elem_of_app; right; by apply list_elem_of_singleton|done]).
    destruct (gh_files h) as [[name tightest]|].
    + destruct Hl as [(b & Hb & Hn & Hw) Hall]. destruct (Z.ltb_spec (headroom own) (headroom tightest)).
      * apply Hmk; [|lia|done]. intros c l' Hc Hl'. specialize (Hall c l' Hc Hl'). lia.
      * apply Hmk; [done|done|]. exists b. split; [apply elem_of_app; by left|done].
    + apply Hmk; [|lia|done]. intros c l' Hc Hl'. specialize (Hl c Hc). congruence.
  - destruct (gh_files h) as [[name tightest]|].
    + destruct Hl as [(b & Hb & Hn & Hw) Hall]. split; [exists b; split; [apply elem_of_app; by left|done]|].
      intros c l' [Hc| ->%list_elem_of_singleton]%elem_of_app Hl'; [by eapply Hall|congruence].
    + intros c [Hc| ->%list_elem_of_singleton]%elem_of_app; [by apply Hl|done].
Qed.

Lemma health_fold generators :
  let h := fold_left health_step generators (mkGeneratorHealth None None) in
  worst_lag generators (gh_lag h) /\ tightest_files generators (gh_files h).
Proof.
  induction generators as [|a l IH] using rev_ind; [by split; intros a Ha%not_elem_of_nil|].
  rewrite fold_left_app. cbn [fold_left]. destruct IH as [IH1 IH2]. split; [by apply health_step_lag|by apply health_step_files].
Qed.

(** One slow generator shows. The run reports the lag of one of its
    agents, when any agent measured one, and that lag is within a limit
    exactly when every agent's is; it is saturated exactly when some agent's
    generator was. Likewise the file descriptors: the reported limit leaves
    the fewest to spare, so it suffices exactly when every agent's does. *)
Theorem worst_generator_reported (generators : list AgentGenerator) :
  let health := GeneratorHealth_of generators in
  (is_Some (gh_lag health) <-> exists a, a ∈ generators /\ is_Some (ag_generator_lag a)) /\
  (forall name lag, gh_lag health = Some (name, lag) ->
     (exists a own, a ∈ generators /\ ag_agent a = name /\ ag_generator_lag a = Some own /\
        gl_p99_us lag = gl_p99_us own /\ gl_max_us lag = gl_max_us own) /\
     (forall limit, gl_p99_us lag <= limit <->
        forall a own, a ∈ generators -> ag_generator_lag a = Some own -> gl_p99_us own <= limit) /\
     (gl_saturated lag = true <-> exists a own, a ∈ generators /\ ag_generator_lag a = Some own /\ gl_saturated own = true)) /\
  (is_Some (gh_files health) <-> exists a, a ∈ generators /\ is_Some (ag_open_file_limit a)) /\
  (forall name files, gh_files health = Some (name, files) ->
     (exists a, a ∈ generators /\ ag_agent a = name /\ ag_open_file_limit a = Some files) /\
     (of_needed files <= of_soft_limit files <->
        forall a own, a ∈ generators -> ag_open_file_limit a = Some own -> of_needed own <= of_soft_limit own)).
Proof.
  cbv zeta. unfold GeneratorHealth_of. destruct (health_fold generators) as [Hlag Hfiles]. revert Hlag Hfiles.
  generalize (fold_left health_step generators (mkGeneratorHealth None None)). intros [o f] Hlag Hfiles. cbn in *. split_and!.
  - rewrite fmap_is_Some. destruct o as [[name worst]|].
    + destruct Hlag as [(a & Ha & _ & Hw) _]. split; [intros _; exists a; split; [done|by eexists]|by eexists].
    + split; [by intros [? ?]|]. intros (a & Ha & [own Hown]). specialize (Hlag a Ha). congruence.
  - intros name lag ([name' worst] & -> & [= -> ->])%fmap_Some. destruct Hlag as [(a & Ha & Hn & Hw) Hall]. split_and!.
    + by exists a, worst.
    + intros limit. cbn. split; [|intros Hl; by apply (Hl a)]. intros Hl b own Hb Hown. specialize (Hall b own Hb Hown).
      unfold lags_more in Hall. lia.
    + cbn. rewrite existsb_exists. unfold agent_saturated. split.
      * intros (b & Hb%list_elem_of_In & Hs). destruct (ag_generator_lag b) as [own|] eqn:E; [|done]. by exists b, own.
      * intros (b & own & Hb & Hown & Hs). exists b. split; [by apply list_elem_of_In|]. by rewrite Hown.
  - destruct f as [[name tightest]|].
    + destruct Hfiles as [(a & Ha & _ & Hw) _]. split; [intros _; exists a; split; [done|by eexists]|by eexists].
    + split; [by intros [? ?]|]. intros (a & Ha & [own Hown]). specialize (Hfiles a Ha). congruence.
  - intros name files ->. destruct Hfiles as [(a & Ha & Hn & Hw) Hall]. split; [by exists a|]. split; [|intros Hl; by apply (Hl a)].
    intros Hl b own Hb Hown. specialize (Hall b own Hb Hown). unfold headroom in Hall. lia.
Qed.

