(* ===== verification/Coordinator.v ===== *)
(** * The coordinator (src/src/distributed/coordinator.rs)

    What a coordinator makes of its agents' parts: the outcome of every
    agent, the merged metrics of a phase and of a scenario, the generator
    health of the run, the live counters, and which agents stay in the run
    from one phase to the next.  What the agents answer, and when, is the
    environment's choice. *)

From Stdlib Require Import ZArith Lia String Floats.SpecFloat.
From stdpp Require Import base tactics strings numbers option gmap sorting list.
From S2P Require Import Prelude RustStd Str Hdr Histogram Live TimeSeries LiveIntervals Summaries Metrics Merge Chaos Data Load Slo Display Lag WireResult Scenario Health.

Local Open Scope Z_scope.
Local Open Scope rust_scope.

(** ** Live counters *)

Record WireSnapshot := mkWireSnapshot {
  ws_active_connections : Z;
  ws_connections_established : Z;
  ws_connections_failed : Z;
  ws_reconnects : Z;
  ws_messages_sent : Z;
  ws_messages_received : Z;
  ws_bytes_sent : Z;
  ws_bytes_received : Z;
  ws_total_errors : Z;
  ws_unsolicited_frames : Z;
}.
#[export] Instance WireSnapshot_eta : Settable WireSnapshot := fun s =>
  mkWireSnapshot (ws_active_connections s) (ws_connections_established s) (ws_connections_failed s) (ws_reconnects s)
    (ws_messages_sent s) (ws_messages_received s) (ws_bytes_sent s) (ws_bytes_received s) (ws_total_errors s)
    (ws_unsolicited_frames s).
Definition WireSnapshot_default : WireSnapshot := mkWireSnapshot 0 0 0 0 0 0 0 0 0 0.
Definition WireSnapshot_from (snap : LiveSnapshot) : WireSnapshot :=
  mkWireSnapshot (sn_active_connections snap) (sn_connections_established snap) (sn_connections_failed snap)
    (sn_reconnects snap) (sn_messages_sent snap) (sn_messages_received snap) (sn_bytes_sent snap)
    (sn_bytes_received snap) (sn_total_errors snap) (sn_unsolicited_frames snap).
Definition WireSnapshot_add (self other : WireSnapshot) : WireSnapshot :=
  mkWireSnapshot
    (ws_active_connections self +u ws_active_connections other)
    (ws_connections_established self +u ws_connections_established other)
    (ws_connections_failed self +u ws_connections_failed other)
    (ws_reconnects self +u ws_reconnects other)
    (ws_messages_sent self +u ws_messages_sent other)
    (ws_messages_received self +u ws_messages_received other)
    (ws_bytes_sent self +u ws_bytes_sent other)
    (ws_bytes_received self +u ws_bytes_received other)
    (ws_total_errors self +u ws_total_errors other)
    (ws_unsolicited_frames self +u ws_unsolicited_frames other).

(** The latest live state an agent reported. *)
Record AgentLive (H : Type) := mkAgentLive { al_snapshot : WireSnapshot; al_intervals : gmap Z H }.
Arguments mkAgentLive {H}. Arguments al_snapshot {H}. Arguments al_intervals {H}.
#[export] Instance AgentLive_eta {H} : Settable (AgentLive H) := fun a => mkAgentLive (al_snapshot a) (al_intervals a).
Definition AgentLive_default {H} : AgentLive H := mkAgentLive WireSnapshot_default ∅.

(** [counter.store(value)] on every counter of [self.live.shard(0)]. *)
Definition store_snapshot (sum : WireSnapshot) (l : LiveMetrics) : LiveMetrics :=
  l <| lm_shards ::= alter (fun _ => mkCounterShard (ws_active_connections sum) (ws_connections_established sum)
        (ws_connections_failed sum) (ws_reconnects sum) (ws_messages_sent sum) (ws_messages_received sum)
        (ws_bytes_sent sum) (ws_bytes_received sum) (ws_total_errors sum) (ws_unsolicited_frames sum)) 0%nat |>.

Definition EXPORT_LAG : Z := from_secs 1.

(** ** One phase *)

Record AgentOutcome := mkAgentOutcome {
  ao_address : string;
  ao_metrics : option AggregatedMetrics;
  ao_error : option string;
  ao_started_at_unix_ms : option Z;
}.

(** What became of one agent in a phase. *)
Inductive AgentPart (H : Type) :=
| PartAbsent
| PartFinished (result : AgentResult H)
| PartLost (reason : string).
Arguments PartAbsent {H}. Arguments PartFinished {H}. Arguments PartLost {H}.

Record PhaseRun (H : Type) := mkPhaseRun {
  ph_start : Z;
  ph_parts : list (AgentPart H);
  ph_last_result : option Z;
  ph_chaos_seed : option Z;
}.
Arguments mkPhaseRun {H}. Arguments ph_start {H}. Arguments ph_parts {H}. Arguments ph_last_result {H}. Arguments ph_chaos_seed {H}.

Definition agent_generator (agent : AgentOutcome) : option AgentGenerator :=
  metrics ← ao_metrics agent;
  Some (mkAgentGenerator (ao_address agent) (ag_generator_lag_ metrics) (ag_open_file_limit_ metrics)).
Definition is_lost (agent : AgentOutcome) : bool := match ao_metrics agent with Some _ => false | None => true end.
Definition lost_agents (agents : list AgentOutcome) : list AgentOutcome := filter (fun a => is_lost a = true) agents.

Definition summary (agents : list AgentOutcome) : DistributedSummary * GeneratorHealth :=
  let generators := omap agent_generator agents in
  let health := GeneratorHealth_of generators in
  (mkDistributedSummary (ao_address <$> agents) (ao_address <$> lost_agents agents) generators
     (fst <$> gh_lag health) (fst <$> gh_files health), health).

(** The mutable variables of [merge_phase]. *)
Record MergeState (H : Type) := mkMergeState {
  ms_totals : MetricsTotals H;
  ms_arrivals : option ArrivalCounts;
  ms_compression : option CompressionCounts;
  ms_connections : Z;
  ms_not_started : Z;
  ms_parts : list (SeriesPart H);
  ms_agents : list AgentOutcome;
}.
Arguments mkMergeState {H}. Arguments ms_totals {H}. Arguments ms_arrivals {H}. Arguments ms_compression {H}.
Arguments ms_connections {H}. Arguments ms_not_started {H}. Arguments ms_parts {H}. Arguments ms_agents {H}.
#[export] Instance MergeState_eta {H} : Settable (MergeState H) := fun s =>
  mkMergeState (ms_totals s) (ms_arrivals s) (ms_compression s) (ms_connections s) (ms_not_started s) (ms_parts s) (ms_agents s).

Definition CompressionCounts_default : CompressionCounts := mkCompressionCounts 0 0 0 0 0 0.

(** [if let (Some(chaos), Some(seed)) = (metrics.chaos.as_mut(), seed) { chaos.seed = seed }] *)
Definition seed_chaos (seed : option Z) (metrics : AggregatedMetrics) : AggregatedMetrics :=
  match seed with
  | Some seed => metrics <| ag_chaos ::= fmap (fun chaos => chaos <| ch_seed := seed |>) |>
  | None => metrics
  end.

(** One agent's results added up over the phases of a scenario. *)
Record AgentTotals (H : Type) := mkAgentTotals {
  gt_totals : MetricsTotals H;
  gt_elapsed : Z;
  gt_connections : Z;
  gt_not_started : Z;
  gt_series : TimeSeries;
  gt_lag : LagTotals H;
  gt_open_file_limit : option OpenFileLimit;
}.
Arguments mkAgentTotals {H}. Arguments gt_totals {H}. Arguments gt_elapsed {H}. Arguments gt_connections {H}.
Arguments gt_not_started {H}. Arguments gt_series {H}. Arguments gt_lag {H}. Arguments gt_open_file_limit {H}.

(** The mutable variables of [merge_scenario]. *)
Record ScenarioMerge (H : Type) := mkScenarioMerge {
  sm_totals : MetricsTotals H;
  sm_elapsed : Z;
  sm_connections : Z;
  sm_not_started : Z;
  sm_time_series : TimeSeries;
  sm_phase_results : list PhaseResult;
  sm_phase_targets : list PhaseTarget;
  sm_phase_agents : list (list AgentOutcome);
  sm_per_agent : list (option (AgentTotals H));
  sm_started_at : list (option Z);
  sm_chaos_seed : option Z;
  sm_arrivals : option ArrivalSummary;
  sm_compression : option CompressionSummary;
}.
Arguments mkScenarioMerge {H}. Arguments sm_totals {H}. Arguments sm_elapsed {H}. Arguments sm_connections {H}.
Arguments sm_not_started {H}. Arguments sm_time_series {H}. Arguments sm_phase_results {H}. Arguments sm_phase_targets {H}.
Arguments sm_phase_agents {H}. Arguments sm_per_agent {H}. Arguments sm_started_at {H}. Arguments sm_chaos_seed {H}.
Arguments sm_arrivals {H}. Arguments sm_compression {H}.
#[export] Instance ScenarioMerge_eta {H} : Settable (ScenarioMerge H) := fun s =>
  mkScenarioMerge (sm_totals s) (sm_elapsed s) (sm_connections s) (sm_not_started s) (sm_time_series s) (sm_phase_results s)
    (sm_phase_targets s) (sm_phase_agents s) (sm_per_agent s) (sm_started_at s) (sm_chaos_seed s) (sm_arrivals s) (sm_compression s).

Record DistributedScenarioOutcome := mkDistributedScenarioOutcome {
  do_scenario : ScenarioOutcome;
  do_agents : list AgentOutcome;
  do_phases : list (list AgentOutcome);
}.

Section Merging.
Context {H : Type} `{Hdr H, Formatter} (windows : bool).

(** The agent's own metrics. *)
Definition own_metrics (r : AgentResult H) : AggregatedMetrics :=
  with_generator (lag_summary windows (ar_lag r)) (ar_open_file_limit r)
    (with_time_series (sp_series (ar_series r))
       (with_not_started (ar_not_started r) (MetricsTotals_finish (ar_totals r) (ar_elapsed r) (ar_connections r)))).

Definition agent_outcome (e : string * AgentPart H) : AgentOutcome :=
  match e.2 with
  | PartFinished r => mkAgentOutcome e.1 (Some (own_metrics r)) None (Some (ar_started_at_unix_ms r))
  | PartLost reason => mkAgentOutcome e.1 None (Some reason) None
  | PartAbsent => mkAgentOutcome e.1 None (Some "lost in an earlier phase"%string) None
  end.

Definition merge_part (acc : result (MergeState H) WsBlastError) (e : string * AgentPart H) : result (MergeState H) WsBlastError :=
  let? s := acc in
  match e.2 with
  | PartFinished r =>
      let? totals := MetricsTotals_add (ms_totals s) (ar_totals r) in
      Ok (mkMergeState totals
        (match ar_arrivals r with
         | Some counts => Some (ArrivalCounts_add (default ArrivalCounts_default (ms_arrivals s)) counts)
         | None => ms_arrivals s
         end)
        (match ar_compression r with
         | Some counts => Some (CompressionCounts_add (default CompressionCounts_default (ms_compression s)) counts)
         | None => ms_compression s
         end)
        (ms_connections s +u ar_connections r) (ms_not_started s +u ar_not_started r)
        (ms_parts s ++ [ar_series r]) (ms_agents s ++ [agent_outcome e]))
  | _ => Ok (s <| ms_agents ::= fun agents => agents ++ [agent_outcome e] |>)
  end.

(** [reasons.join("; ")] *)
Definition agent_reason (agent : AgentOutcome) : string :=
  ("agent " +:+ ao_address agent +:+ ": " +:+ default "lost" (ao_error agent))%string.
Definition nothing_to_report (reasons : list string) : WsBlastError :=
  DistributedFailure ("every agent was lost, so there is nothing to report: " +:+ String.concat "; " reasons)%string.

Definition merge_phase (addresses : list string) (run : PhaseRun H) (arrivals : option Arrivals)
  : result (AggregatedMetrics * list AgentOutcome) WsBlastError :=
  let? totals := MetricsTotals_new in
  let? s := fold_left merge_part (zip addresses (ph_parts run)) (Ok (mkMergeState totals None None 0 0 [] [])) in
  match ph_last_result run with
  | None => Err (nothing_to_report (agent_reason <$> ms_agents s))
  | Some last_result =>
      let elapsed := saturating_duration_since last_result (ph_start run) in
      let metrics := with_compression (ms_compression s) (with_arrivals arrivals (ms_arrivals s)
        (with_time_series (merge_parallel (ms_parts s))
           (with_not_started (ms_not_started s) (MetricsTotals_finish (ms_totals s) elapsed (ms_connections s))))) in
      let metrics := seed_chaos (ph_chaos_seed run) metrics in
      let (summary, health) := summary (ms_agents s) in
      Ok (with_distributed summary (GeneratorHealth_apply health metrics), ms_agents s)
  end.

(** The histograms several agents have of one interval. *)
Definition merged_interval (bucket : Z) (intervals : list (gmap Z H)) : option H :=
  fold_left (fun merged m =>
    match m !! bucket with Some hist => Some (merge_bucket merged hist) | None => merged end) intervals None.

Definition final_latency (run : PhaseRun H) (elapsed interval : Z) : option (Z * IntervalLatency) :=
  bucket ← last_completed_index elapsed interval;
  Some (bucket, IntervalLatency_from_histogram (merged_interval bucket
    (omap (fun part => match part with PartFinished r => Some (sp_buckets (ar_series r)) | _ => None end) (ph_parts run)))).

(** [publish_live]: the sum, the registry it is stored in, and what the live
    readers are given. *)
Definition publish_live (agents : list (AgentLive H)) (since_start interval : Z) (live : LiveMetrics)
  : WireSnapshot * LiveMetrics * option (Z * IntervalLatency) :=
  let sum := fold_left WireSnapshot_add (al_snapshot <$> agents) WireSnapshot_default in
  (sum, store_snapshot sum live,
   bucket ← last_completed_index (duration_saturating_sub since_start EXPORT_LAG) interval;
   Some (bucket, IntervalLatency_from_histogram (merged_interval bucket (al_intervals <$> agents)))).

(** ** A scenario *)

(** [per_agent[slot]] after one more result. *)
Definition add_agent_phase (offset : Z) (r : AgentResult H) (own : option (AgentTotals H))
  : result (AgentTotals H) WsBlastError :=
  let? own := match own with
              | Some own => Ok own
              | None => let? totals := MetricsTotals_new in
                        Ok (mkAgentTotals totals 0 0 0 TimeSeries_default LagTotals_default None)
              end in
  let? totals := MetricsTotals_add (gt_totals own) (ar_totals r) in
  Ok (mkAgentTotals totals (gt_elapsed own + ar_elapsed r) (gt_connections own +u ar_connections r)
        (gt_not_started own +u ar_not_started r) (append (gt_series own) (sp_series (ar_series r)) offset)
        (LagTotals_add (gt_lag own) (ar_lag r))
        (match ar_open_file_limit r with
         | Some limit =>
             match gt_open_file_limit own with
             | Some largest => if of_needed largest <? of_needed limit then Some limit else Some largest
             | None => Some limit
             end
         | None => gt_open_file_limit own
         end)).

(** One agent's part of a phase, by slot; there is a slot for every part. *)
Definition add_slot (offset : Z) (acc : result (ScenarioMerge H) WsBlastError) (e : nat * AgentPart H)
  : result (ScenarioMerge H) WsBlastError :=
  let? s := acc in
  match e.2 with
  | PartFinished r =>
      let? totals := MetricsTotals_add (sm_totals s) (ar_totals r) in
      let? own := add_agent_phase offset r (mjoin (sm_per_agent s !! e.1)) in
      Ok (s <| sm_totals := totals |>
            <| sm_started_at ::= alter (fun at_ => Some (default (ar_started_at_unix_ms r) at_)) e.1 |>
            <| sm_per_agent ::= <[e.1 := Some own]> |>)
  | _ => Ok s
  end.

Definition merge_run (addresses : list string) (scenario_start : Z) (acc : result (ScenarioMerge H) WsBlastError)
    (e : PlannedPhase * PhaseRun H) : result (ScenarioMerge H) WsBlastError :=
  let? s := acc in
  let (phase, run) := e in
  let? (metrics, agents) := merge_phase addresses run (pp_arrivals phase) in
  let offset := saturating_duration_since (ph_start run) scenario_start in
  let s := s
    <| sm_arrivals ::= fun all =>
         match ag_arrivals metrics, all with
         | Some phase_arrivals, Some all => Some (ArrivalSummary_add_phase all phase_arrivals)
         | Some phase_arrivals, None => Some phase_arrivals
         | None, all => all
         end |>
    <| sm_compression ::= fun all =>
         match ag_compression metrics with
         | Some phase_compression => Some (CompressionSummary_add (default CompressionSummary_default all) phase_compression)
         | None => all
         end |>
    <| sm_chaos_seed ::= fun seed => match seed with None => ch_seed <$> ag_chaos metrics | _ => seed end |> in
  let? s := fold_left (add_slot offset) (enumerate (ph_parts run)) (Ok s) in
  Ok (s <| sm_elapsed ::= fun e => e + ag_elapsed metrics |>
        <| sm_connections ::= fun n => n +u ag_total_connections_attempted metrics |>
        <| sm_not_started ::= fun n => n +u ag_total_connections_not_started metrics |>
        <| sm_time_series ::= fun series => append series (ag_time_series metrics) offset |>
        <| sm_phase_targets ::= fun l => l ++ [mkPhaseTarget (pp_name phase) (pp_target phase)] |>
        <| sm_phase_results ::= fun l => l ++ [mkPhaseResult (pp_name phase) (pp_target phase) (pp_connections phase)
             (pp_stages phase) metrics (evaluate_slos (pp_slo phase) metrics)] |>
        <| sm_phase_agents ::= fun l => l ++ [agents] |>).

(** An agent over the whole scenario; one lost in any phase has no
    metrics. *)
Definition scenario_agent (lost : list (option string)) (s : ScenarioMerge H) (e : nat * string) : AgentOutcome :=
  let started_at := mjoin (sm_started_at s !! e.1) in
  match mjoin (lost !! e.1), mjoin (sm_per_agent s !! e.1) with
  | None, Some own =>
      mkAgentOutcome e.2 (Some
        (with_generator (lag_summary windows (gt_lag own)) (gt_open_file_limit own)
           (with_time_series (gt_series own)
              (with_not_started (gt_not_started own)
                 (MetricsTotals_finish (gt_totals own) (gt_elapsed own) (gt_connections own)))))) None started_at
  | reason, _ => mkAgentOutcome e.2 None (Some (default "lost"%string reason)) started_at
  end.

(** [now]: the clock, when no phase ran. *)
Definition merge_scenario (addresses : list string) (flags file : SloThresholds) (action_slos : list (string * SloThresholds))
    (runs : list (PlannedPhase * PhaseRun H)) (lost : list (option string)) (capture : option CaptureSummary) (now : Z)
  : result DistributedScenarioOutcome WsBlastError :=
  let scenario_start := match runs with (_, run) :: _ => ph_start run | [] => now end in
  let? totals := MetricsTotals_new in
  let empty := mkScenarioMerge totals 0 0 0 TimeSeries_default [] [] [] (replicate (length addresses) None)
    (replicate (length addresses) None) None None None in
  let? s := fold_left (merge_run addresses scenario_start) runs (Ok empty) in
  let agents := scenario_agent lost s <$> enumerate addresses in
  let (summary, health) := summary agents in
  let metrics := with_distributed summary (GeneratorHealth_apply health
    (with_capture capture (with_time_series (sm_time_series s) (with_not_started (sm_not_started s)
       (MetricsTotals_finish (sm_totals s) (sm_elapsed s) (sm_connections s)))))) in
  let metrics := metrics <| ag_arrivals := sm_arrivals s |> <| ag_compression := sm_compression s |> in
  let metrics := seed_chaos (sm_chaos_seed s) metrics in
  let overall := evaluate_slos (or_from flags file) metrics in
  let slo := scenario_slo_evaluation overall ((fun p => (pr_name p, pr_slo p)) <$> sm_phase_results s) in
  let slo := with_action_slos slo action_slos metrics in
  Ok (mkDistributedScenarioOutcome (mkScenarioOutcome metrics (sm_phase_targets s) (sm_phase_results s) slo) agents
        (sm_phase_agents s)).
End Merging.

(** ** The run across its phases *)

(** One agent of the session: whether its control connection is open, why it
    was lost, and what it last reported. *)
Record Slot (H : Type) := mkSlot { sl_link : bool; sl_lost : option string; sl_live : AgentLive H }.
Arguments mkSlot {H}. Arguments sl_link {H}. Arguments sl_lost {H}. Arguments sl_live {H}.

(** One phase as it is run; [sp_name] only in a scenario. *)
Record PhaseSpec := mkPhaseSpec {
  sp_name : option string;
  sp_load : Load;
  sp_source_ips : list string;
  sp_data : option DataSet;
  sp_chaos : option ChaosConfig;
}.
Definition chaos_seed (spec : PhaseSpec) : option Z := chaos ← sp_chaos spec; cx_seed chaos.

(** What happens in a phase: whether the run is cancelled before every agent
    answered, the answers to [prepare] by slot, the moment of the start, and
    what every control task returns: whether it keeps its connection, the
    result with its time or the reason, and the live state it left. *)
Record PhaseEvents (H : Type) := mkPhaseEvents {
  pe_cancelled : bool;
  pe_prepared : list (result unit string);
  pe_start : Z;
  pe_followed : list (bool * result (WireResult * Z) string * AgentLive H);
}.
Arguments mkPhaseEvents {H}. Arguments pe_cancelled {H}. Arguments pe_prepared {H}. Arguments pe_start {H}. Arguments pe_followed {H}.

Definition interrupted : WsBlastError := DistributedFailure "interrupted before the agents started; nothing was run".
Definition nothing_was_run (failures : list string) : WsBlastError :=
  DistributedFailure (String.concat "; " failures +:+ "; nothing was run")%string.

(** [failures]: [agent NAME: reason] for every failure. *)
Definition failures {A} (addresses : list string) (results : list (option (result A string))) : list string :=
  omap (fun e => match e.2 with Some (Err reason) => Some ("agent " +:+ e.1 +:+ ": " +:+ reason)%string | _ => None end)
    (zip addresses results).

Section Session.
Context {H : Type} `{Hdr H, Formatter} (windows : bool) (record_error : string).

(** [open]: [connects] is what [connect] returned for every agent. *)
Definition open_session (addresses : list string) (cancelled : bool) (connects : list (result unit string))
  : result (list (Slot H)) WsBlastError :=
  if cancelled then Err interrupted
  else match failures addresses (Some <$> connects) with
       | [] => Ok ((fun _ => mkSlot true None AgentLive_default) <$> connects)
       | failures => Err (nothing_was_run failures)
       end.

Definition phase_reason (spec : PhaseSpec) (reason : string) : string :=
  match sp_name spec with Some name => "phase '" +:+ name +:+ "': " +:+ reason | None => reason end%string.

(** The barrier: an agent without a connection takes no part. *)
Definition prepare_slot (spec : PhaseSpec) (e : Slot H * result unit string) : Slot H * AgentPart H :=
  let (slot, answer) := e in
  if sl_link slot then
    match answer with
    | Ok _ => (slot, PartAbsent)
    | Err reason => let reason := phase_reason spec reason in (mkSlot false (Some reason) (sl_live slot), PartLost reason)
    end
  else (slot, PartAbsent).

(** After the control tasks: the slot, its part and when its result came. *)
Definition follow_slot (spec : PhaseSpec) (e : Slot H * AgentPart H * (bool * result (WireResult * Z) string * AgentLive H))
  : Slot H * AgentPart H * option (Z * Z) :=
  let '(slot, part, (kept, outcome, live)) := e in
  if sl_link slot then
    match (let? (wire, at_) := outcome in let? r := WireResult_decode record_error wire in Ok (r, at_)) with
    | Ok (r, at_) => (mkSlot kept (sl_lost slot) live, PartFinished r, Some (at_, default 0 (ar_capture_dropped r)))
    | Err reason =>
        let reason := phase_reason spec reason in
        (mkSlot false (Some reason) (live <| al_snapshot ::= fun s => s <| ws_active_connections := 0 |> |>),
         PartLost reason, None)
    end
  else (slot, part, None).

Definition later (last : option Z) (at_ : Z) : option Z :=
  match last with Some last => Some (Z.max last at_) | None => Some at_ end.

(** [Coordinator::run_phase]: the phase, the slots after it and the records the agents
    dropped. *)
Definition coordinator_phase (addresses : list string) (spec : PhaseSpec) (first : bool) (ev : PhaseEvents H)
    (slots : list (Slot H)) (dropped : Z) : result (option (PhaseRun H) * list (Slot H) * Z) WsBlastError :=
  let? _ := plan (sp_load spec) (sp_source_ips spec) (sp_data spec) (sp_chaos spec) (Z.of_nat (length addresses)) in
  if pe_cancelled ev then if first then Err interrupted else Ok (None, slots, dropped)
  else
    let prepared := zip slots (pe_prepared ev) in
    let answers := (fun e : Slot H * result unit string => if sl_link e.1 then Some e.2 else None) <$> prepared in
    match (if first then failures addresses answers else []) with
    | (_ :: _) as failures => Err (nothing_was_run failures)
    | [] =>
        let prepared := prepare_slot spec <$> prepared in
        if forallb (fun e : Slot H * AgentPart H => negb (sl_link e.1)) prepared then
          Ok (Some (mkPhaseRun (pe_start ev) prepared.*2 None (chaos_seed spec)), prepared.*1, dropped)
        else
          let followed := follow_slot spec <$> zip prepared (pe_followed ev) in
          let results := omap snd followed in
          Ok (Some (mkPhaseRun (pe_start ev) followed.*1.*2 (fold_left later results.*1 None) (chaos_seed spec)),
              followed.*1.*1, fold_left u64_add results.*2 dropped)
    end.

(** [Coordinator::run]: one test. *)
Definition coordinator_run (addresses : list string) (spec : PhaseSpec) (arrivals : option Arrivals) (cancelled : bool)
    (connects : list (result unit string)) (ev : PhaseEvents H) (capture : option CaptureSummary)
  : result (AggregatedMetrics * list AgentOutcome) WsBlastError :=
  let? slots := open_session addresses cancelled connects in
  let? (phase, _, _) := coordinator_phase addresses spec true ev slots 0 in
  match phase with
  | None => Err interrupted
  | Some phase =>
      let? (metrics, agents) := merge_phase windows addresses phase arrivals in
      Ok (with_capture capture metrics, agents)
  end.

Definition part_finished (part : AgentPart H) : bool := match part with PartFinished _ => true | _ => false end.

(** The phases of a scenario; every phase comes with whether the run is
    cancelled before it. *)
Fixpoint scenario_phases (addresses : list string) (first : bool) (phases : list (PlannedPhase * PhaseSpec))
    (events : list (bool * PhaseEvents H)) (slots : list (Slot H)) (dropped : Z) (runs : list (PlannedPhase * PhaseRun H))
  : result (list (PlannedPhase * PhaseRun H) * list (Slot H) * Z) WsBlastError :=
  match phases, events with
  | (phase, spec) :: phases, (cancelled, ev) :: events =>
      if cancelled || forallb (fun slot => negb (sl_link slot)) slots then Ok (runs, slots, dropped)
      else
        let? (ran, slots, dropped) := coordinator_phase addresses spec first ev slots dropped in
        match ran with
        | None => Ok (runs, slots, dropped)
        | Some ran =>
            let runs := if existsb part_finished (ph_parts ran) then runs ++ [(phase, ran)] else runs in
            scenario_phases addresses false phases events slots dropped runs
        end
  | _, _ => Ok (runs, slots, dropped)
  end.

Definition slot_reason (e : string * option string) : string :=
  ("agent " +:+ e.1 +:+ ": " +:+ default "lost" e.2)%string.

Definition run_scenario (addresses : list string) (flags file : SloThresholds) (action_slos : list (string * SloThresholds))
    (phases : list (PlannedPhase * PhaseSpec)) (cancelled : bool) (connects : list (result unit string))
    (events : list (bool * PhaseEvents H)) (capture : option CaptureSummary) (now : Z)
  : result DistributedScenarioOutcome WsBlastError :=
  let? slots := open_session addresses cancelled connects in
  let? (runs, slots, _) := scenario_phases addresses true phases events slots 0 [] in
  let lost := sl_lost <$> slots in
  match runs with
  | [] => if forallb (fun reason : option string => match reason with None => true | Some _ => false end) lost then Err interrupted
          else Err (nothing_to_report (slot_reason <$> zip addresses lost))
  | _ => merge_scenario windows addresses flags file action_slos runs lost capture now
  end.
End Session.

(** ** The merged report *)

Section Report.
Context {H : Type} `{HdrIterLaws H, Formatter} (windows : bool) (record_error : string).
#[local] Existing Instance hdr_equiv.

Definition finished (parts : list (AgentPart H)) : list (AgentResult H) :=
  omap (fun part => match part with PartFinished r => Some r | _ => None end) parts.

Lemma finished_app l1 l2 : finished (l1 ++ l2) = finished l1 ++ finished l2.
Proof using. apply omap_app. Qed.

(** The result of an agent whose workers were [ws], as the coordinator
    decoded it. *)
Definition agent_reports (heap : gmap nat LatencyRecorder) (t0 : MetricsTotals H) (r : AgentResult H) (ws : list WorkerMetrics) : Prop :=
  exists agent_windows meta series buckets,
    WireResult_decode record_error (WireResult_new agent_windows (add_workers heap ws t0) meta series buckets) = Ok r.

Section Parts.
Context (heap : gmap nat LatencyRecorder) (Hheap : map_Forall (fun _ r => LatencyRecorder_ok r) heap).
Context (t0 : MetricsTotals H) (Hnew : MetricsTotals_new = Ok t0).
Context (a0 : ActionTotals H) (Ha0 : ActionTotals_new = Ok a0).

Lemma reported_totals r ws : agent_reports heap t0 r ws ->
  totals_ok a0 (ar_totals r) /\ totals_equiv (ar_totals r) (add_workers heap ws t0).
Proof.
  intros (w & meta & series & buckets & Hr). destruct (new_totals_empty t0 Hnew a0 Ha0) as (_ & _ & Hfresh).
  destruct (totals_roundtrip record_error a0 (add_workers heap ws t0) (fresh_action_ok a0 Hfresh) (group_ok heap Hheap t0 Hnew a0 Ha0 ws))
    as (t & Ht & Hok & Heq & _).
  unfold WireResult_decode, WireResult_new in Hr. cbn [wr_intervals wr_totals wr_generator_lag] in Hr.
  apply result_bind_Ok in Hr as (m & _ & Hr). rewrite Ht in Hr. cbn [result_bind] in Hr.
  apply result_bind_Ok in Hr as (l & _ & [= <-]). done.
Qed.

Lemma merge_parts_spec (l : list (string * AgentPart H)) groups past (s : MergeState H) :
  Forall2 (agent_reports heap t0) (finished l.*2) groups -> apart (past :: groups) ->
  totals_ok a0 (ms_totals s) -> totals_equiv (ms_totals s) (add_workers heap past t0) ->
  exists s', fold_left (merge_part windows) l (Ok s) = Ok s' /\
    totals_ok a0 (ms_totals s') /\ totals_equiv (ms_totals s') (add_workers heap (past ++ concat groups) t0) /\
    ms_agents s' = ms_agents s ++ (agent_outcome windows <$> l) /\
    ms_connections s' = fold_left u64_add (ar_connections <$> finished l.*2) (ms_connections s) /\
    ms_not_started s' = fold_left u64_add (ar_not_started <$> finished l.*2) (ms_not_started s) /\
    ms_parts s' = ms_parts s ++ (ar_series <$> finished l.*2).
Proof.
  revert groups past s. induction l as [|[address part] l IH]; intros groups past s Hg Hapart Hok Heq.
  { inversion Hg; subst. exists s. cbn. rewrite !app_nil_r. by split_and!. }
  destruct part as [|r|reason]; cbn [fmap list_fmap snd] in *.
  - destruct (IH groups past (s <| ms_agents ::= fun agents => agents ++ [agent_outcome windows (address, PartAbsent)] |>))
      as (s' & E & R1 & R2 & R3 & R4 & R5 & R6); try done.
    exists s'. split; [exact E|]. rewrite R3, R4, R5, R6. cbn. rewrite <- app_assoc. by split_and!.
  - inversion Hg as [|? ws ? groups' Hws Hg']; subst. destruct (reported_totals r ws Hws) as [Hrok Hreq].
    destruct (add_group heap Hheap t0 Hnew a0 Ha0 past ws (ms_totals s) (ar_totals r)) as (v & Hv & Hvok & Hveq); try done.
    { intros w1 w2 Hw1 Hw2. by apply (Hapart 0%nat 1%nat past ws). }
    cbn [fold_left]. unfold merge_part at 2. cbn [result_bind snd]. rewrite Hv. cbn [result_bind].
    edestruct (IH groups' (past ++ ws)) as (s' & E & R1 & R2 & R3 & R4 & R5 & R6); [exact Hg'|by apply apart_shift| | |].
    3: { exists s'. split; [exact E|]. rewrite R3, R4, R5, R6.
      change (finished (PartFinished r :: l.*2)) with (r :: finished l.*2). cbn [concat]. rewrite app_assoc.
      split; [exact R1|]. split; [exact R2|]. cbn. by rewrite <- !app_assoc. }
    + exact Hvok.
    + exact Hveq.
  - destruct (IH groups past (s <| ms_agents ::= fun agents => agents ++ [agent_outcome windows (address, PartLost reason)] |>))
      as (s' & E & R1 & R2 & R3 & R4 & R5 & R6); try done.
    exists s'. split; [exact E|]. rewrite R3, R4, R5, R6. cbn. rewrite <- app_assoc. by split_and!.
Qed.
End Parts.

(** The totals of nobody's workers, in front. *)
Lemma apart_nil groups : apart groups -> apart ([] :: groups).
Proof using.
  intros Hapart i j g1 g2 w1 w2 Hij Hi Hj. destruct i as [|i], j as [|j]; [done| | |].
  - injection Hi as <-. intros Hw. by apply not_elem_of_nil in Hw.
  - injection Hj as <-. intros _ Hw. by apply not_elem_of_nil in Hw.
  - apply (Hapart i j g1 g2); [congruence|done..].
Qed.

(** The merged metrics of a phase, from the totals of the whole cluster. *)
Definition cluster_metrics (run : PhaseRun H) (last_result : Z) (agents : list AgentOutcome) (totals : MetricsTotals H)
    (arrivals : option Arrivals) (counts : option ArrivalCounts) (compression : option CompressionCounts) : AggregatedMetrics :=
  let results := finished (ph_parts run) in
  with_distributed (summary agents).1 (GeneratorHealth_apply (summary agents).2
    (seed_chaos (ph_chaos_seed run) (with_compression compression (with_arrivals arrivals counts
       (with_time_series (merge_parallel (ar_series <$> results))
          (with_not_started (sum_u64 (ar_not_started <$> results))
             (MetricsTotals_finish totals (saturating_duration_since last_result (ph_start run))
                (sum_u64 (ar_connections <$> results))))))))).

Lemma lost_agents_spec (l : list (string * AgentPart H)) :
  ao_address <$> lost_agents (agent_outcome windows <$> l) = (filter (fun e => part_finished e.2 = false) l).*1.
Proof using.
  unfold lost_agents. induction l as [|[address part] l IH]; [done|]. cbn [fmap list_fmap].
  rewrite !filter_cons. destruct part; cbn [part_finished agent_outcome is_lost ao_metrics snd fst]; cbn;
    repeat (first [rewrite decide_True by done|rewrite decide_False by done]); cbn; by rewrite <- IH.
Qed.

(** The lemma behind the reports of a single run and of a phase. *)
Lemma merge_phase_spec (heap : gmap nat LatencyRecorder) (t0 : MetricsTotals H) (addresses : list string) (run : PhaseRun H)
    (arrivals : option Arrivals) (groups : list (list WorkerMetrics)) (last_result : Z) :
  map_Forall (fun _ r => LatencyRecorder_ok r) heap -> MetricsTotals_new = Ok t0 ->
  length addresses = length (ph_parts run) -> ph_last_result run = Some last_result ->
  Forall2 (agent_reports heap t0) (finished (ph_parts run)) groups -> apart groups ->
  let agents := agent_outcome windows <$> zip addresses (ph_parts run) in
  exists totals counts compression,
    totals_equiv totals (add_workers heap (concat groups) t0) /\
    merge_phase windows addresses run arrivals =
      Ok (cluster_metrics run last_result agents totals arrivals counts compression, agents).
Proof.
  intros Hheap Hnew Hlen Hlast Hg Hapart agents. destruct ActionTotals_new_ok as (a0 & Ha0 & _).
  unfold merge_phase. rewrite Hnew. cbn [result_bind].
  destruct (merge_parts_spec heap Hheap t0 Hnew a0 Ha0 (zip addresses (ph_parts run)) groups []
    (mkMergeState t0 None None 0 0 [] [])) as (s & Hs & _ & Heq & Ha & Hc & Hn & Hp).
  - by rewrite snd_zip by lia.
  - by apply apart_nil.
  - apply (new_totals_empty t0 Hnew a0 Ha0).
  - by apply totals_equiv_refl.
  - rewrite Hs. cbn [result_bind]. rewrite Hlast. cbn [app] in Heq.
    rewrite snd_zip in Hc, Hn, Hp by lia. cbn [ms_agents ms_connections ms_not_started ms_parts app] in *.
    exists (ms_totals s), (ms_arrivals s), (ms_compression s). split; [exact Heq|].
    unfold cluster_metrics, sum_u64. rewrite Ha, Hc, Hn, Hp. fold agents. by destruct (summary agents).
Qed.

(** A distributed run reports its machines as one. When every agent
    that finished packed the totals of its own workers, and the coordinator
    decoded what it received, the merge succeeds and lists every agent, in
    the order given and with its own metrics; the agents lost are those
    without a result, and the merged metrics are those of totals that cannot
    be told from the totals of all the workers of these agents, each
    recorder absorbed once, over the time from the start to the last result
    and the sum of the agents' connections. *)
Theorem distributed_run_reports_all_workers (heap : gmap nat LatencyRecorder) (t0 : MetricsTotals H) (addresses : list string)
    (run : PhaseRun H) (arrivals : option Arrivals) (groups : list (list WorkerMetrics)) (last_result : Z)
    (Hheap : map_Forall (fun _ r => LatencyRecorder_ok r) heap) (Hnew : MetricsTotals_new = Ok t0)
    (Hlen : length addresses = length (ph_parts run)) (Hlast : ph_last_result run = Some last_result)
    (Hreports : Forall2 (agent_reports heap t0) (finished (ph_parts run)) groups) (Hapart : apart groups) :
  let agents := agent_outcome windows <$> zip addresses (ph_parts run) in
  exists metrics totals counts compression,
    merge_phase windows addresses run arrivals = Ok (metrics, agents) /\
    totals_equiv totals (add_workers heap (concat groups) t0) /\
    metrics = cluster_metrics run last_result agents totals arrivals counts compression /\
    ag_total_messages_sent metrics = mt_messages_sent (add_workers heap (concat groups) t0) /\
    ds_agents <$> ag_distributed metrics = Some addresses /\
    ds_lost_agents <$> ag_distributed metrics =
      Some (filter (fun e : string * AgentPart H => part_finished e.2 = false) (zip addresses (ph_parts run))).*1.
Proof.
  intros agents. destruct (merge_phase_spec heap t0 addresses run arrivals groups last_result)
    as (totals & counts & compression & Heq & Hm); try done. fold agents in Hm.
  exists (cluster_metrics run last_result agents totals arrivals counts compression), totals, counts, compression.
  split; [exact Hm|]. split; [exact Heq|]. split; [done|]. split.
  - unfold cluster_metrics. destruct (ph_chaos_seed run); apply Heq.
  - unfold cluster_metrics. cbn. split; f_equal; [|by apply lost_agents_spec]. unfold agents. rewrite <- list_fmap_compose.
    rewrite <- (fst_zip addresses (ph_parts run)) at 2 by lia. apply list_fmap_ext. by intros _ [address []] _.
Qed.
End Report.

(** Two agents that finish and one that is lost. *)
#[local] Instance no_format : Formatter :=
  {| debug_duration := fun _ => ""%string; fixed := fun _ _ => ""%string; display_f64 := fun _ => ""%string |}.
Definition two_recorders : gmap nat LatencyRecorder := {[ 0%nat := with_shards 1; 1%nat := with_shards 2 ]}.
Definition no_totals : MetricsTotals ClassHistogram :=
  let e := mkClassHistogram latency_bounds ∅ in mkMetricsTotals e e e 0 0 0 0 0 0 0 0 ∅ None [] ∅.
Definition no_result : AgentResult ClassHistogram :=
  mkAgentResult 0 0 0 0 no_totals (mkSeriesPart TimeSeries_default ∅) None LagTotals_default None None None.
Definition sample_result (ws : list WorkerMetrics) : AgentResult ClassHistogram :=
  match WireResult_decode "" (WireResult_new false (add_workers two_recorders ws no_totals) sample_meta TimeSeries_default ∅) with
  | Ok r => r | Err _ => no_result end.
Definition sample_run : PhaseRun ClassHistogram :=
  mkPhaseRun 0 [PartFinished (sample_result [sample_worker 0 3]); PartLost "gone"%string;
                PartFinished (sample_result [sample_worker 1 4; sample_worker 1 5])] (Some (from_secs 11)) None.

Lemma distributed_run_reports_all_workers_witness :
  exists metrics agents, merge_phase false ["a"%string; "b"%string; "c"%string] sample_run None = Ok (metrics, agents) /\
    ag_total_messages_sent metrics = 12 /\ ds_lost_agents <$> ag_distributed metrics = Some ["b"%string].
Proof.
  destruct (distributed_run_reports_all_workers false "" two_recorders no_totals ["a"%string; "b"%string; "c"%string] sample_run None
    [[sample_worker 0 3]; [sample_worker 1 4; sample_worker 1 5]] (from_secs 11))
    as (metrics & totals & counts & compression & Hm & _ & _ & Hs & _ & Hl).
  - apply map_Forall_insert_2; [|apply map_Forall_singleton]; split_and!; try apply histogram_ok_new; constructor.
  - reflexivity.
  - reflexivity.
  - reflexivity.
  - repeat constructor; exists false, sample_meta, TimeSeries_default, ∅; vm_compute; reflexivity.
  - intros i j g1 g2 w1 w2 Hij Hi Hj Hw1 Hw2.
    destruct i as [|[|i]], j as [|[|j]]; cbn in Hi, Hj; try done; injection Hi as <-; injection Hj as <-;
      repeat (apply elem_of_cons in Hw1 as [->|Hw1]; [|]); repeat (apply elem_of_cons in Hw2 as [->|Hw2]; [|]);
      try (by apply elem_of_nil in Hw1); try (by apply elem_of_nil in Hw2); done.
  - eexists metrics, _. split; [exact Hm|]. split; [rewrite Hs; reflexivity|exact Hl].
Defined.

(** ** Agents leave a run for good *)

Section Leaving.
Context {H : Type} `{Hdr H, Formatter} (record_error : string).

(** An agent without a connection was lost, and the other way round. *)
Definition slot_ok (slot : Slot H) : Prop := sl_link slot = true <-> sl_lost slot = None.

(** Every agent answers, and a control task that returns a result returns
    its connection, as [follow_agent] does. *)
Definition events_ok (n : nat) (ev : PhaseEvents H) : Prop :=
  length (pe_prepared ev) = n /\ length (pe_followed ev) = n /\
  Forall (fun f => result_is_ok f.1.2 = true -> f.1.1 = true) (pe_followed ev).

(** What a phase makes of one agent. *)
Definition phase_outcome (slot slot' : Slot H) (part : AgentPart H) : Prop :=
  slot_ok slot' /\
  match sl_lost slot with
  | Some reason => part = PartAbsent /\ sl_lost slot' = Some reason
  | None => match part with
            | PartAbsent => False
            | PartFinished _ => sl_lost slot' = None
            | PartLost reason => sl_lost slot' = Some reason
            end
  end.

Lemma prepare_slot_spec spec slot answer slot' part : slot_ok slot -> prepare_slot spec (slot, answer) = (slot', part) ->
  slot_ok slot' /\ if sl_link slot' then slot' = slot /\ part = PartAbsent else phase_outcome slot slot' part.
Proof.
  intros Hok. unfold prepare_slot. destruct (sl_link slot) eqn:E.
  - destruct answer as [[]|reason]; intros [= <- <-]; [by rewrite E|]. cbn. split; [by split|]. split; [by split|].
    destruct Hok as [-> _]; done.
  - intros [= <- <-]. rewrite E. split; [done|]. split; [done|].
    destruct (sl_lost slot) eqn:El; [done|]. destruct Hok as [_ Hok]. rewrite Hok in E by done. done.
Qed.

Lemma follow_slot_spec spec slot1 slot part f : slot_ok slot -> slot_ok slot1 ->
  (if sl_link slot1 then slot1 = slot /\ part = PartAbsent else phase_outcome slot slot1 part) ->
  (result_is_ok f.1.2 = true -> f.1.1 = true) ->
  phase_outcome slot (follow_slot record_error spec (slot1, part, f)).1.1 (follow_slot record_error spec (slot1, part, f)).1.2.
Proof.
  destruct f as [[kept outcome] live]. intros Hok Hok1 Hpart Hkept. unfold follow_slot.
  destruct (sl_link slot1) eqn:E; [|done]. destruct Hpart as [-> ->]. cbn in Hkept.
  assert (sl_lost slot = None) as Hlost by (by apply Hok).
  destruct outcome as [[wire at_]|reason]; cbn [result_bind].
  - destruct (WireResult_decode record_error wire) as [r|reason]; cbn [result_bind fst snd].
    + rewrite Hkept by done. split; [by rewrite Hlost|]. by rewrite Hlost.
    + split; [by split|]. by rewrite Hlost.
  - split; [by split|]. cbn. by rewrite Hlost.
Qed.

Lemma coordinator_phase_spec addresses spec first ev (slots : list (Slot H)) dropped run slots' dropped' :
  Forall slot_ok slots -> events_ok (length slots) ev ->
  coordinator_phase record_error addresses spec first ev slots dropped = Ok (Some run, slots', dropped') ->
  length slots' = length slots /\ length (ph_parts run) = length slots /\
  forall k slot slot' part, slots !! k = Some slot -> slots' !! k = Some slot' -> ph_parts run !! k = Some part ->
    phase_outcome slot slot' part.
Proof.
  intros Hok (Hlp & Hlf & Hkept). unfold coordinator_phase. destruct (plan _ _ _ _ _); cbn [result_bind]; [|done].
  destruct (pe_cancelled ev); [by destruct first|]. destruct (if first then _ else _); [|done].
  set (prepared := prepare_slot spec <$> zip slots (pe_prepared ev)).
  assert (length prepared = length slots) as Hlen by (unfold prepared; rewrite length_fmap, length_zip; lia).
  assert (forall k slot slot1 part, slots !! k = Some slot -> prepared !! k = Some (slot1, part) ->
    slot_ok slot /\ slot_ok slot1 /\ if sl_link slot1 then slot1 = slot /\ part = PartAbsent else phase_outcome slot slot1 part) as Hprep.
  { intros k slot slot1 part Hk Hk1. unfold prepared in Hk1. rewrite list_lookup_fmap in Hk1.
    apply fmap_Some in Hk1 as ([slot0 answer] & Hz & Heq). apply lookup_zip_Some in Hz as [Hk0 _].
    assert (slot0 = slot) as -> by congruence. eapply Forall_lookup_1 in Hok; [|exact Hk]. split; [done|].
    by apply (prepare_slot_spec spec slot answer). }
  destruct (forallb _ prepared) eqn:Eall.
  - intros [= <- <- <-]. cbn [ph_parts]. rewrite !length_fmap. split_and!; [done|done|].
    intros k slot slot' part Hk Hk' Hkp. rewrite list_lookup_fmap in Hk'. rewrite list_lookup_fmap in Hkp.
    destruct (prepared !! k) as [[slot1 part1]|] eqn:Ep; [|done]. cbn in Hk', Hkp. simplify_eq.
    destruct (Hprep k slot slot' part Hk Ep) as (_ & _ & Hp). rewrite forallb_forall in Eall.
    specialize (Eall (slot', part)). cbn in Eall. rewrite negb_true_iff in Eall.
    rewrite Eall in Hp; [done|]. apply list_elem_of_In. by apply list_elem_of_lookup_2 with k.
  - intros [= <- <- <-]. cbn [ph_parts]. rewrite !length_fmap, length_zip. split_and!; [lia|lia|].
    intros k slot slot' part Hk Hk' Hkp. rewrite !list_lookup_fmap in Hk'. rewrite !list_lookup_fmap in Hkp.
    destruct (zip prepared (pe_followed ev) !! k) as [[[slot1 part1] f]|] eqn:Ez; [|done]. cbn in Hk', Hkp. simplify_eq.
    apply lookup_zip_Some in Ez as [Ep Ef]. destruct (Hprep k slot slot1 part1 Hk Ep) as (Ho & Ho1 & Hp).
    apply follow_slot_spec; try done. eapply Forall_lookup_1 in Hkept; [|exact Ef]. done.
Qed.

(** One agent's parts over the phases that ran: finished until it was lost,
    and absent from then on. *)
Definition history (runs : list (PlannedPhase * PhaseRun H)) (k : nat) : list (AgentPart H) :=
  omap (fun run => ph_parts run.2 !! k) runs.
Definition left_for_good (lost : option string) (h : list (AgentPart H)) : Prop :=
  match lost with
  | None => Forall (fun part => part_finished part = true) h
  | Some reason => exists stayed m, Forall (fun part => part_finished part = true) stayed /\
      h = stayed ++ PartLost reason :: replicate m PartAbsent
  end.
(** After a phase that nobody finished the lists hold no more phases. *)
Definition left_before_end (lost : option string) (h : list (AgentPart H)) : Prop :=
  left_for_good lost h \/ Forall (fun part => part_finished part = true) h.

Lemma left_for_good_step slot slot' part h :
  phase_outcome slot slot' part -> left_for_good (sl_lost slot) h -> left_for_good (sl_lost slot') (h ++ [part]).
Proof.
  intros [_ Hout] Hh. unfold left_for_good in *. destruct (sl_lost slot) as [reason|].
  - destruct Hout as [-> ->]. destruct Hh as (stayed & m & Hs & ->). exists stayed, (S m). split; [done|].
    rewrite replicate_S_end, <- app_assoc. done.
  - destruct part as [|r|reason]; [done| |]; rewrite Hout.
    + apply Forall_app. split; [done|]. by constructor.
    + by exists h, 0%nat.
Qed.

Lemma history_app runs run k part : ph_parts run.2 !! k = Some part -> history (runs ++ [run]) k = history runs k ++ [part].
Proof. intros Hp. unfold history. rewrite omap_app. cbn. by rewrite Hp. Qed.

Definition all_gone (slots : list (Slot H)) : bool := forallb (fun slot => negb (sl_link slot)) slots.

Definition session_ok (n : nat) (slots : list (Slot H)) (runs : list (PlannedPhase * PhaseRun H)) : Prop :=
  length slots = n /\ Forall slot_ok slots /\ Forall (fun run => length (ph_parts run.2) = n) runs /\
  (forall k slot, slots !! k = Some slot -> left_before_end (sl_lost slot) (history runs k)) /\
  (all_gone slots = false -> forall k slot, slots !! k = Some slot -> left_for_good (sl_lost slot) (history runs k)).

(** One phase more. *)
Lemma session_step n addresses spec first ev slots dropped runs phase run slots' dropped' :
  session_ok n slots runs -> all_gone slots = false -> events_ok n ev ->
  coordinator_phase record_error addresses spec first ev slots dropped = Ok (Some run, slots', dropped') ->
  session_ok n slots' (if existsb part_finished (ph_parts run) then runs ++ [(phase, run)] else runs).
Proof.
  intros (Hn & Hok & Hlens & _ & Hgood) Hsome Hev Hrun. specialize (Hgood Hsome). subst n.
  destruct (coordinator_phase_spec addresses spec first ev slots dropped run slots' dropped' Hok Hev Hrun) as (Hl1 & Hl2 & Hout).
  assert (forall k slot', slots' !! k = Some slot' -> exists slot part, slots !! k = Some slot /\ ph_parts run !! k = Some part /\
    phase_outcome slot slot' part) as Hat.
  { intros k slot' Hk. assert (k < length slots')%nat as Hlt by (by apply lookup_lt_Some in Hk).
    destruct (lookup_lt_is_Some_2 slots k) as [slot Hs]; [lia|]. destruct (lookup_lt_is_Some_2 (ph_parts run) k) as [part Hp]; [lia|].
    exists slot, part. split_and!; [done|done|by apply (Hout k)]. }
  split; [done|]. split.
  { apply Forall_lookup. intros k slot' Hk. by destruct (Hat k slot' Hk) as (slot & part & _ & _ & [? _]). }
  assert (forall k slot', slots' !! k = Some slot' -> left_for_good (sl_lost slot') (history (runs ++ [(phase, run)]) k)) as Hpush.
  { intros k slot' Hk. destruct (Hat k slot' Hk) as (slot & part & Hs & Hp & Ho). rewrite (history_app runs (phase, run) k part Hp).
    by apply (left_for_good_step slot slot'); [|apply Hgood]. }
  destruct (existsb part_finished (ph_parts run)) eqn:Eany.
  - split; [by apply Forall_app; split; [|constructor]|]. split; [|done]. intros k slot' Hk. left. by apply Hpush.
  - split; [done|].
    assert (forall k slot' part, slots' !! k = Some slot' -> ph_parts run !! k = Some part -> part_finished part = false) as Hnone.
    { intros k slot' part _ Hp. destruct (part_finished part) eqn:E; [|done]. exfalso. rewrite <- not_true_iff_false in Eany. apply Eany.
      apply existsb_exists. exists part. split; [|done]. apply list_elem_of_In. by apply list_elem_of_lookup_2 with k. }
    assert (all_gone slots' = true) as Hgone.
    { apply forallb_forall. intros slot' Hin%list_elem_of_In. apply list_elem_of_lookup in Hin as [k Hk].
      destruct (Hat k slot' Hk) as (slot & part & Hs & Hp & [Hok' Ho]). specialize (Hnone k slot' part Hk Hp).
      assert (sl_lost slot' <> None) as Hne by (destruct (sl_lost slot), part; naive_solver).
      destruct (sl_link slot') eqn:E; [|done]. destruct Hne. by apply Hok'. }
    split; [|by rewrite Hgone]. intros k slot' Hk. destruct (Hat k slot' Hk) as (slot & part & Hs & Hp & [_ Ho]).
    specialize (Hgood k slot Hs). specialize (Hnone k slot' part Hk Hp). unfold left_before_end.
    destruct (sl_lost slot) as [reason|].
    + left. destruct Ho as [_ ->]. exact Hgood.
    + right. exact Hgood.
Qed.

Lemma scenario_phases_spec n addresses first phases events slots dropped runs runs' slots' dropped' :
  session_ok n slots runs -> Forall (fun e => events_ok n e.2) events ->
  scenario_phases record_error addresses first phases events slots dropped runs = Ok (runs', slots', dropped') ->
  session_ok n slots' runs'.
Proof.
  revert first events slots dropped runs. induction phases as [|[phase spec] phases IH]; intros first events slots dropped runs Hs Hev Hr.
  { by injection Hr as <- <- <-. }
  destruct events as [|[cancelled ev] events]; [by injection Hr as <- <- <-|]. apply Forall_cons in Hev as [He Hev].
  cbn [scenario_phases] in Hr. fold (all_gone slots) in Hr. destruct (cancelled || all_gone slots) eqn:E; [by injection Hr as <- <- <-|].
  apply orb_false_iff in E as [_ Hsome]. apply result_bind_Ok in Hr as ([[ran slots1] dropped1] & Hrun & Hr).
  destruct ran as [ran|]; [|].
  - eapply IH; [|exact Hev|exact Hr]. by eapply session_step.
  - injection Hr as <- <- <-. unfold coordinator_phase in Hrun.
    destruct (plan _ _ _ _ _); cbn [result_bind] in Hrun; [|done]. destruct (pe_cancelled ev).
    + destruct first; [done|]. by injection Hrun as <- <-.
    + destruct (if first then _ else _); [|done]. by destruct (forallb _ _).
Qed.

(** C8. An agent leaves a scenario for good. When every agent answers each
    phase, whatever it answers, then after the phases that ran every agent
    has either finished all of them and was not lost, or was lost with a
    reason: then it finished the phases before, and in those after the one
    it was lost in it takes no part. (The phase it was lost in is not listed
    when nobody finished it; then no phase follows.) The agents still connected are exactly
    those that were not lost. *)
Theorem agents_leave_for_good (addresses : list string) (phases : list (PlannedPhase * PhaseSpec)) (cancelled : bool)
    (connects : list (result unit string)) (events : list (bool * PhaseEvents H)) (slots : list (Slot H))
    (runs : list (PlannedPhase * PhaseRun H)) (slots' : list (Slot H)) (dropped : Z)
    (Hopen : open_session addresses cancelled connects = Ok slots)
    (Hev : Forall (fun e => events_ok (length connects) e.2) events)
    (Hruns : scenario_phases record_error addresses true phases events slots 0 [] = Ok (runs, slots', dropped))
    (k : nat) (slot : Slot H) (Hk : slots' !! k = Some slot) :
  (sl_link slot = true <-> sl_lost slot = None) /\
  Forall (fun run => is_Some (ph_parts run.2 !! k)) runs /\
  (match sl_lost slot with
   | None => Forall (fun part => part_finished part = true) (history runs k)
   | Some reason =>
       Forall (fun part => part_finished part = true) (history runs k) \/
       exists stayed m, Forall (fun part => part_finished part = true) stayed /\
         history runs k = stayed ++ PartLost reason :: replicate m PartAbsent
   end).
Proof.
  unfold open_session in Hopen. destruct cancelled; [done|]. destruct (failures _ _); [|done]. injection Hopen as <-.
  assert (session_ok (length connects) ((fun _ => mkSlot true None AgentLive_default) <$> connects) []) as Hinit.
  { split; [by rewrite length_fmap|]. split; [apply Forall_fmap, Forall_true; by intros ?; split|]. split; [constructor|].
    assert (forall k (slot : Slot H), ((fun _ => mkSlot true None AgentLive_default) <$> connects) !! k = Some slot ->
      left_for_good (sl_lost slot) (history [] k)) as Hempty; [|by split; [intros; left; by apply Hempty|]].
    intros k' slot' Hk'. rewrite list_lookup_fmap in Hk'. destruct (connects !! k'); [|done]. injection Hk' as <-. constructor. }
  destruct (scenario_phases_spec _ addresses true phases events _ 0 [] runs slots' dropped Hinit Hev Hruns)
    as (Hn & Hok & Hlens & Hleft & _).
  split; [by eapply Forall_lookup_1 in Hok|]. split.
  - eapply Forall_impl; [exact Hlens|]. intros run Hl. apply lookup_lt_is_Some_2. apply lookup_lt_Some in Hk. cbn in Hl. lia.
  - specialize (Hleft k slot Hk). unfold left_before_end, left_for_good in Hleft. destruct (sl_lost slot); [|by destruct Hleft]. tauto.
Qed.
End Leaving.

(** Three phases on two agents; the second is lost in the second phase. *)
Definition two_connections : Load := mkLoad 2 0 (from_secs 10) [] None None.
Definition planned_spec (name : string) : PlannedPhase * PhaseSpec :=
  (planned name, mkPhaseSpec (Some name) two_connections [] None None).
Definition done_task (at_ : Z) : bool * result (WireResult * Z) string * AgentLive ClassHistogram :=
  (true, Ok (WireResult_new false (add_workers two_recorders [sample_worker 0 3] no_totals) sample_meta TimeSeries_default ∅, at_),
   AgentLive_default).
Definition gone_task : bool * result (WireResult * Z) string * AgentLive ClassHistogram := (false, Err "gone"%string, AgentLive_default).
Definition three_phases : list (bool * PhaseEvents ClassHistogram) :=
  [(false, mkPhaseEvents false [Ok tt; Ok tt] 0 [done_task 11; done_task 12]);
   (false, mkPhaseEvents false [Ok tt; Ok tt] 20 [done_task 31; gone_task]);
   (false, mkPhaseEvents false [Ok tt; Err "late"%string] 40 [done_task 51; gone_task])].

Lemma agents_leave_for_good_witness :
  exists slots runs slots' dropped slot,
    open_session ["a"%string; "b"%string] false [Ok tt; Ok tt] = Ok slots /\
    scenario_phases "" ["a"%string; "b"%string] true [planned_spec "one"; planned_spec "two"; planned_spec "three"] three_phases
      slots 0 [] = Ok (runs, slots', dropped) /\
    slots' !! 1%nat = Some slot /\ sl_lost slot = Some "phase 'two': gone"%string /\
    (sl_link slot = true <-> sl_lost slot = None) /\ Forall (fun run => is_Some (ph_parts run.2 !! 1%nat)) runs.
Proof.
  do 5 eexists. split; [reflexivity|]. split; [vm_compute; reflexivity|]. split; [reflexivity|]. split; [reflexivity|].
  refine ((fun H => conj (proj1 H) (proj1 (proj2 H))) (agents_leave_for_good "" ["a"%string; "b"%string] [planned_spec "one"; planned_spec "two"; planned_spec "three"]
    false [Ok tt; Ok tt] three_phases _ _ _ _ _ _ _ 1%nat _ _)).
  - reflexivity.
  - repeat constructor; cbn; try done; repeat constructor.
  - vm_compute. reflexivity.
  - reflexivity.
Defined.
