(* ===== verification/Cluster.v ===== *)
(** * What a cluster reports (src/src/distributed/coordinator.rs)

    The live counters the coordinator publishes, and the report of a
    distributed scenario. *)

From Stdlib Require Import ZArith Lia String Floats.SpecFloat.
From stdpp Require Import base tactics strings numbers option gmap sorting list.
From S2P Require Import Prelude RustStd Str Hdr Histogram Live TimeSeries LiveIntervals Summaries Metrics Merge Chaos Data Load Slo Display Lag WireResult Scenario Health Coordinator.

Local Open Scope Z_scope.
Local Open Scope rust_scope.

(** ** Live counters *)

Definition wire_get (c : Counter) (s : WireSnapshot) : Z :=
  match c with
  | active_connections => ws_active_connections s
  | connections_established => ws_connections_established s
  | connections_failed => ws_connections_failed s
  | reconnects => ws_reconnects s
  | messages_sent => ws_messages_sent s
  | messages_received => ws_messages_received s
  | bytes_sent => ws_bytes_sent s
  | bytes_received => ws_bytes_received s
  | total_errors => ws_total_errors s
  | unsolicited_frames => ws_unsolicited_frames s
  end.

(** A registry of which only the first shard is used. *)
Definition first_shard_only (l : LiveMetrics) : Prop :=
  exists shard n, lm_shards l = shard :: replicate n CounterShard_default.

Lemma first_shard_snapshot c l shard n : lm_shards l = shard :: replicate n CounterShard_default ->
  snapshot_get c (snapshot l) = wrap 64 (shard_load c shard).
Proof.
  intros Hl. rewrite snapshot_get_eq, Hl, fmap_cons, sum_Z_cons.
  assert (sum_Z (shard_load c <$> replicate n CounterShard_default) = 0) as ->; [|f_equal; lia].
  clear Hl. induction n as [|n IH]; [done|]. rewrite replicate_S, fmap_cons, sum_Z_cons, IH. by destruct c.
Qed.

Lemma wire_sum c (l : list WireSnapshot) s : is_u64 (wire_get c s) ->
  wire_get c (fold_left WireSnapshot_add l s) = wrap 64 (wire_get c s + sum_Z (wire_get c <$> l)).
Proof.
  revert s. induction l as [|a l IH]; intros s Hs.
  - cbn. by rewrite Z.add_0_r, wrap_id.
  - cbn [fold_left fmap list_fmap]. rewrite IH.
    + change (list_fmap _ _ _ l) with (wire_get c <$> l). rewrite sum_Z_cons.
      assert (wire_get c (WireSnapshot_add s a) = wire_get c s +u wire_get c a) as -> by by destruct c.
      unfold u64_add. rewrite wrap_add_l. f_equal. lia.
    + destruct c; apply u64_add_range.
Qed.

Section Publishing.
Context {H : Type} `{Hdr H}.

(** The registry after the coordinator published each of these states of
    its agents. *)
Definition publish_all (interval : Z) (live : LiveMetrics) (ticks : list (Z * list (AgentLive H))) : LiveMetrics :=
  fold_left (fun live tick => (publish_live tick.2 tick.1 interval live).1.2) ticks live.

Lemma publish_first_shard interval live ticks :
  first_shard_only live -> first_shard_only (publish_all interval live ticks).
Proof.
  revert live. induction ticks as [|tick ticks IH]; intros live Hl; [done|]. cbn [publish_all fold_left]. apply IH.
  destruct Hl as (shard & n & Hl). unfold publish_live, store_snapshot. cbn. unfold first_shard_only. cbn. rewrite Hl. by eexists _, n.
Qed.

(** The cluster's live counters are the sum of its agents'. Whatever
    was published before, after the coordinator's next tick a reader of its
    registry finds for every counter the sum of what the agents reported
    last, modulo 2^64, which is also what the progress bar shows. *)
Theorem cluster_counters_add_up (cores : option nat) (Hcores : cores <> Some 0%nat) (interval : Z)
    (past : list (Z * list (AgentLive H))) (since_start : Z) (agents : list (AgentLive H)) (c : Counter) :
  let live := publish_all interval (LiveMetrics_default cores) past in
  let total := sum_Z ((fun agent => wire_get c (al_snapshot agent)) <$> agents) in
  wire_get c (publish_live agents since_start interval live).1.1 = wrap 64 total /\
  snapshot_get c (snapshot (publish_live agents since_start interval live).1.2) = wrap 64 total.
Proof.
  intros live total. assert (first_shard_only live) as (shard & n & Hl).
  { apply publish_first_shard. unfold first_shard_only, LiveMetrics_default. cbn [lm_shards].
    destruct (default 4 cores * 2)%nat as [|n] eqn:E; [|by eexists _, _]. destruct cores as [[|m]|]; cbn in E; [done|lia|lia]. }
  assert (wire_get c (publish_live agents since_start interval live).1.1 = wrap 64 total) as Hsum.
  { unfold publish_live. cbn [fst]. rewrite wire_sum by by destruct c. unfold total. rewrite <- list_fmap_compose. by destruct c. }
  split; [exact Hsum|].
  rewrite (first_shard_snapshot c _ (mkCounterShard (ws_active_connections (publish_live agents since_start interval live).1.1)
    (ws_connections_established (publish_live agents since_start interval live).1.1)
    (ws_connections_failed (publish_live agents since_start interval live).1.1) (ws_reconnects (publish_live agents since_start interval live).1.1)
    (ws_messages_sent (publish_live agents since_start interval live).1.1) (ws_messages_received (publish_live agents since_start interval live).1.1)
    (ws_bytes_sent (publish_live agents since_start interval live).1.1) (ws_bytes_received (publish_live agents since_start interval live).1.1)
    (ws_total_errors (publish_live agents since_start interval live).1.1)
    (ws_unsolicited_frames (publish_live agents since_start interval live).1.1)) n).
  - rewrite <- (wrap_wrap 64 total), <- Hsum. by destruct c.
  - unfold publish_live, store_snapshot. cbn. by rewrite Hl.
Qed.
End Publishing.

Lemma cluster_counters_add_up_witness :
  let agent n := mkAgentLive (WireSnapshot_default <| ws_messages_sent := n |>) (∅ : gmap Z ClassHistogram) in
  snapshot_get messages_sent (snapshot (publish_live [agent 30; agent 12] 2 1
    (publish_all 1 (LiveMetrics_default None) [(1, [agent 7; agent 5])])).1.2) = 42.
Proof.
  intros agent. assert (@None nat <> Some 0%nat) as Hc by done.
  etransitivity; [exact (proj2 (cluster_counters_add_up None Hc 1 [(1, [agent 7; agent 5])] 2 [agent 30; agent 12] messages_sent))|].
  reflexivity.
Defined.

(** ** The report of a distributed scenario *)

Section DistributedScenario.
Context {H : Type} `{HdrIterLaws H, Formatter} (windows : bool) (record_error : string).

Lemma apart_absorb past gs groups : apart (past :: gs ++ groups) -> apart ((past ++ concat gs) :: groups).
Proof using.
  revert past. induction gs as [|g gs IH]; intros past Ha; cbn [concat app] in *; [by rewrite app_nil_r|].
  rewrite app_assoc. apply IH. by apply apart_shift.
Qed.
Lemma apart_prefix past gs groups : apart (past :: gs ++ groups) -> apart (past :: gs).
Proof using.
  intros Ha i j g1 g2 w1 w2 Hij Hi Hj. apply (Ha i j); [done| |].
  - change (past :: gs ++ groups) with ((past :: gs) ++ groups). by apply lookup_app_l_Some.
  - change (past :: gs ++ groups) with ((past :: gs) ++ groups). by apply lookup_app_l_Some.
Qed.
Lemma apart_tail g gs : apart (g :: gs) -> apart gs.
Proof using. intros Ha i j g1 g2 w1 w2 Hij Hi Hj. apply (Ha (S i) (S j)); [congruence|done|done]. Qed.

Section Phases.
Context (heap : gmap nat LatencyRecorder) (Hheap : map_Forall (fun _ r => LatencyRecorder_ok r) heap).
Context (t0 : MetricsTotals H) (Hnew : MetricsTotals_new = Ok t0).
Context (a0 : ActionTotals H) (Ha0 : ActionTotals_new = Ok a0).

Definition agents_ok (l : list (option (AgentTotals H))) : Prop :=
  Forall (fun o => forall own, o = Some own -> totals_ok a0 (gt_totals own)) l.

Lemma add_agent_phase_ok offset r ws own : agent_reports record_error heap t0 r ws ->
  (forall own', own = Some own' -> totals_ok a0 (gt_totals own')) ->
  exists own', add_agent_phase offset r own = Ok own' /\ totals_ok a0 (gt_totals own').
Proof.
  intros Hr Hown. destruct (reported_totals record_error heap Hheap t0 Hnew a0 Ha0 r ws Hr) as [Hrok _].
  destruct (new_totals_empty t0 Hnew a0 Ha0) as (_ & Hok0 & Hfresh).
  assert (exists o, match own with Some own => Ok own | None => let? totals := MetricsTotals_new in
    Ok (mkAgentTotals totals 0 0 0 TimeSeries_default LagTotals_default None) end = Ok (E := WsBlastError) o /\ totals_ok a0 (gt_totals o))
    as (o & Ho & Hook).
  { destruct own as [own|]; [exists own; by split; [|apply Hown]|]. rewrite Hnew. cbn [result_bind]. by eexists. }
  unfold add_agent_phase. rewrite Ho. cbn [result_bind].
  destruct (MetricsTotals_add_sum a0 Ha0 Hfresh (gt_totals o) (ar_totals r) Hook Hrok) as (v & Hv & Hsum).
  rewrite Hv. cbn [result_bind]. eexists. split; [reflexivity|]. exact (so_v _ _ _ _ Hsum).
Qed.

(** One phase's parts, slot by slot. *)
Lemma add_slots_spec offset (l : list (nat * AgentPart H)) groups past (s : ScenarioMerge H) :
  Forall2 (agent_reports record_error heap t0) (finished l.*2) groups -> apart (past :: groups) ->
  totals_ok a0 (sm_totals s) -> totals_equiv (sm_totals s) (add_workers heap past t0) -> agents_ok (sm_per_agent s) ->
  exists totals started per_agent,
    fold_left (add_slot offset) l (Ok s) =
      Ok (s <| sm_totals := totals |> <| sm_started_at := started |> <| sm_per_agent := per_agent |>) /\
    totals_ok a0 totals /\ totals_equiv totals (add_workers heap (past ++ concat groups) t0) /\ agents_ok per_agent.
Proof.
  revert groups past s. induction l as [|[k part] l IH]; intros groups past s Hg Hapart Hok Heq Hag.
  { inversion Hg; subst. exists (sm_totals s), (sm_started_at s), (sm_per_agent s). cbn [concat]. rewrite app_nil_r.
    split; [by destruct s|done]. }
  destruct part as [|r|reason]; cbn [fmap list_fmap snd] in Hg.
  - cbn [fold_left]. unfold add_slot at 2. cbn [result_bind snd]. by apply IH.
  - inversion Hg as [|? ws ? groups' Hws Hg']; subst.
    destruct (reported_totals record_error heap Hheap t0 Hnew a0 Ha0 r ws Hws) as [Hrok Hreq].
    destruct (add_group heap Hheap t0 Hnew a0 Ha0 past ws (sm_totals s) (ar_totals r)) as (v & Hv & Hvok & Hveq); try done.
    { intros w1 w2 Hw1 Hw2. by apply (Hapart 0%nat 1%nat past ws). }
    destruct (add_agent_phase_ok offset r ws (mjoin (sm_per_agent s !! k)) Hws) as (own & Hown & Hownok).
    { intros own' Hj. destruct (sm_per_agent s !! k) as [o|] eqn:E; [|done]. cbn in Hj. eapply Forall_lookup_1 in Hag; [|exact E]. by apply Hag. }
    cbn [fold_left]. unfold add_slot at 2. cbn [result_bind fst snd]. rewrite Hv. cbn [result_bind]. rewrite Hown. cbn [result_bind].
    edestruct (IH groups' (past ++ ws)) as (t & st & pa & E & R1 & R2 & R3); [exact Hg'|by apply apart_shift| | | |].
    4: { exists t, st, pa. split; [exact E|]. cbn [concat]. by rewrite app_assoc. }
    + exact Hvok.
    + exact Hveq.
    + cbn. unfold agents_ok. apply Forall_insert; [exact Hag|]. by intros own' [= <-].
  - cbn [fold_left]. unfold add_slot at 2. cbn [result_bind snd]. by apply IH.
Qed.

Lemma snd_enumerate {A} (l : list A) : (enumerate l).*2 = l.
Proof using. unfold enumerate. apply snd_zip. by rewrite length_seq. Qed.

(** A phase that ran with somebody to report it. *)
Definition run_reports (addresses : list string) (run : PlannedPhase * PhaseRun H) (groups : list (list WorkerMetrics)) : Prop :=
  length addresses = length (ph_parts run.2) /\ is_Some (ph_last_result run.2) /\
  Forall2 (agent_reports record_error heap t0) (finished (ph_parts run.2)) groups.

(** The merged metrics of one phase are [metrics]. *)
Definition phase_merged (addresses : list string) (run : PlannedPhase * PhaseRun H) (groups : list (list WorkerMetrics))
    (metrics : AggregatedMetrics) : Prop :=
  exists last_result totals counts compression,
    ph_last_result run.2 = Some last_result /\ totals_equiv totals (add_workers heap (concat groups) t0) /\
    metrics = cluster_metrics run.2 last_result (agent_outcome windows <$> zip addresses (ph_parts run.2)) totals
                (pp_arrivals run.1) counts compression.

Definition phase_report (e : (PlannedPhase * PhaseRun H) * AggregatedMetrics) : PhaseResult :=
  let phase := e.1.1 in
  mkPhaseResult (pp_name phase) (pp_target phase) (pp_connections phase) (pp_stages phase) e.2 (evaluate_slos (pp_slo phase) e.2).

Lemma merge_runs_spec addresses scenario_start runs groupss past (s : ScenarioMerge H) :
  Forall2 (run_reports addresses) runs groupss -> apart (past :: concat groupss) ->
  totals_ok a0 (sm_totals s) -> totals_equiv (sm_totals s) (add_workers heap past t0) -> agents_ok (sm_per_agent s) ->
  exists s' ms, fold_left (merge_run windows addresses scenario_start) runs (Ok s) = Ok s' /\
    totals_equiv (sm_totals s') (add_workers heap (past ++ concat (concat groupss)) t0) /\
    Forall2 (fun e m => phase_merged addresses e.1 e.2 m) (zip runs groupss) ms /\
    sm_phase_results s' = sm_phase_results s ++ (phase_report <$> zip runs ms) /\
    sm_elapsed s' = sm_elapsed s + sum_Z (ag_elapsed <$> ms) /\
    sm_connections s' = fold_left u64_add (ag_total_connections_attempted <$> ms) (sm_connections s).
Proof.
  intros Hr. revert past s. induction Hr as [|[phase run] gs runs groupss (Hlen & [last Hlast] & Hg) _ IH]; intros past s Hapart Hok Heq Hag.
  { exists s, []. cbn. rewrite !app_nil_r. split_and!; try done. lia. }
  cbn [fst snd] in *. cbn [concat] in Hapart.
  destruct (merge_phase_spec windows record_error heap t0 addresses run (pp_arrivals phase) gs last) as (totals & counts & compression & Hteq & Hm);
    try done. { by eapply apart_tail, apart_prefix. }
  set (m := cluster_metrics _ _ _ _ _ _ _) in Hm.
  cbn [fold_left]. unfold merge_run at 2. cbn [result_bind]. rewrite Hm. cbn [result_bind].
  set (s1 := _ <| sm_chaos_seed ::= _ |>).
  destruct (add_slots_spec (saturating_duration_since (ph_start run) scenario_start) (enumerate (ph_parts run)) gs past s1)
    as (t & st & pa & E & R1 & R2 & R3); [by rewrite snd_enumerate|by eapply apart_prefix|done|done|done|].
  rewrite E. cbn [result_bind].
  edestruct (IH (past ++ concat gs)) as (s' & ms & E' & T & P & R & El & C); [by apply apart_absorb| | | |].
  4: { exists s', (m :: ms). split; [exact E'|]. rewrite R, El, C. cbn [concat]. rewrite concat_app, app_assoc.
    split; [exact T|]. split; [constructor; [by exists last, totals, counts, compression|exact P]|].
    split; [by cbn; rewrite <- app_assoc|]. split; [|done]. rewrite fmap_cons, sum_Z_cons. cbn. lia. }
  + exact R1.
  + exact R2.
  + exact R3.
Qed.
End Phases.

(** C2. A distributed scenario reports its machines and phases as one run.
    When every phase that ran has a last result and every agent that
    finished it packed the totals of its own workers, the merge succeeds;
    every phase is listed with the merged metrics of its own workers and
    their verdict, the metrics of the whole run are those of totals that
    cannot be told from the totals of all the workers of all agents in all
    phases, over the sum of the phases' times and connections, and the run
    passes exactly when these metrics meet the thresholds of the flags and
    the file, every phase meets its own and every named action meets its
    own. *)
Theorem distributed_scenario_reports_one_run (heap : gmap nat LatencyRecorder) (t0 : MetricsTotals H) (addresses : list string)
    (flags file : SloThresholds) (action_slos : list (string * SloThresholds)) (runs : list (PlannedPhase * PhaseRun H))
    (lost : list (option string)) (capture : option CaptureSummary) (now : Z) (groupss : list (list (list WorkerMetrics)))
    (Hheap : map_Forall (fun _ r => LatencyRecorder_ok r) heap) (Hnew : MetricsTotals_new = Ok t0)
    (Hruns : Forall2 (run_reports heap t0 addresses) runs groupss) (Hapart : apart (concat groupss)) :
  exists out totals ms,
    merge_scenario windows addresses flags file action_slos runs lost capture now = Ok out /\
    totals_equiv totals (add_workers heap (concat (concat groupss)) t0) /\
    Forall2 (fun e m => phase_merged heap t0 addresses e.1 e.2 m) (zip runs groupss) ms /\
    let outcome := do_scenario out in
    sn_phases outcome = (phase_report <$> zip runs ms) /\
    (exists seed distributed lag limit series not_started arrivals compression,
       sn_metrics outcome = seed_chaos seed
         (with_distributed distributed (with_generator lag limit (with_capture capture (with_time_series series (with_not_started not_started
            (MetricsTotals_finish totals (sum_Z (ag_elapsed <$> ms)) (sum_u64 (ag_total_connections_attempted <$> ms)))))))
          <| ag_arrivals := arrivals |> <| ag_compression := compression |>)) /\
    (passed outcome = true <->
       slo_met (or_from flags file) (sn_metrics outcome) /\
       Forall (fun e => slo_met (pp_slo e.1.1) e.2) (zip runs ms) /\
       Forall (action_met (sn_metrics outcome)) action_slos).
Proof.
  destruct ActionTotals_new_ok as (a0 & Ha0 & _). unfold merge_scenario. rewrite Hnew. cbn [result_bind].
  set (start := match runs with [] => now | (_, run) :: _ => ph_start run end).
  edestruct (merge_runs_spec heap Hheap t0 Hnew a0 Ha0 addresses start runs groupss []) as (s & ms & E & T & P & R & El & C);
    [exact Hruns|by apply apart_nil| | | |].
  4: { rewrite E. cbn [result_bind]. destruct (summary _) as [d h]. eexists _, (sm_totals s), ms.
    split; [reflexivity|]. split; [exact T|]. split; [exact P|].
    cbn [sm_phase_results sm_elapsed sm_connections app] in R, El, C. cbn [do_scenario sn_phases sn_metrics passed sn_slo].
    split; [exact R|]. split.
    - exists (sm_chaos_seed s), d, (snd <$> gh_lag h), (snd <$> gh_files h), (sm_time_series s), (sm_not_started s), (sm_arrivals s), (sm_compression s).
      rewrite El, C. reflexivity.
    - set (m := seed_chaos _ _). set (e := scenario_slo_evaluation _ _).
      assert (coherent e) as Hcoh.
      { apply scenario_coherent; [apply evaluate_slos_coherent|]. rewrite R. rewrite !Forall_fmap. apply Forall_true.
        intros r. cbn. apply evaluate_slos_coherent. }
      unfold passed. cbn [sn_slo]. rewrite (proj1 (with_action_slos_spec m action_slos e Hcoh)). unfold e.
      rewrite scenario_passed, evaluate_slos_passed, R. rewrite !Forall_fmap.
      assert (forall l, Forall ((fun p : string * SloEvaluation => se_passed p.2 = true) ∘ (fun p => (pr_name p, pr_slo p)) ∘ phase_report) l <->
        Forall (fun e : (PlannedPhase * PhaseRun H) * AggregatedMetrics => slo_met (pp_slo e.1.1) e.2) l) as ->; [|tauto].
      intros l. split; intros Hf; (eapply Forall_impl; [exact Hf|]); intros r; cbn; apply evaluate_slos_passed. }
  - apply (new_totals_empty t0 Hnew a0 Ha0).
  - by apply totals_equiv_refl.
  - cbn. apply Forall_replicate. done.
Qed.
End DistributedScenario.

(** Two phases on two agents; the second agent is lost in the second. *)
#[local] Instance no_format : Formatter :=
  {| debug_duration := fun _ => ""%string; fixed := fun _ _ => ""%string; display_f64 := fun _ => ""%string |}.
Definition three_recorders : gmap nat LatencyRecorder :=
  {[ 0%nat := with_shards 1; 1%nat := with_shards 2; 2%nat := with_shards 1 ]}.
Definition agent_result (ws : list WorkerMetrics) : AgentResult ClassHistogram :=
  match WireResult_decode "" (WireResult_new false (add_workers three_recorders ws no_totals) sample_meta TimeSeries_default ∅) with
  | Ok r => r | Err _ => no_result end.
Definition scenario_runs : list (PlannedPhase * PhaseRun ClassHistogram) :=
  [(planned "one", mkPhaseRun 0 [PartFinished (agent_result [sample_worker 0 3]); PartFinished (agent_result [sample_worker 1 4])] (Some 11) None);
   (planned "two", mkPhaseRun 20 [PartFinished (agent_result [sample_worker 2 5]); PartLost "gone"%string] (Some 31) None)].

Lemma distributed_scenario_reports_one_run_witness :
  exists out, merge_scenario false ["a"%string; "b"%string] no_slo no_slo [] scenario_runs [None; Some "gone"%string] None 0 = Ok out /\
    ag_total_messages_sent (sn_metrics (do_scenario out)) = 12 /\ length (sn_phases (do_scenario out)) = 2%nat.
Proof.
  destruct (distributed_scenario_reports_one_run false "" three_recorders no_totals ["a"%string; "b"%string] no_slo no_slo [] scenario_runs
    [None; Some "gone"%string] None 0 [[[sample_worker 0 3]; [sample_worker 1 4]]; [[sample_worker 2 5]]])
    as (out & totals & ms & Hout & Ht & Hms & Hp & (seed & d & lag & limit & series & n & arr & comp & Hm) & _).
  - do 2 (apply map_Forall_insert_2; [split_and!; try apply histogram_ok_new; constructor|]).
    apply map_Forall_singleton. split_and!; try apply histogram_ok_new; constructor.
  - reflexivity.
  - repeat constructor; try (by eexists); exists false, sample_meta, TimeSeries_default, ∅; vm_compute; reflexivity.
  - intros i j g1 g2 w1 w2 Hij Hi Hj Hw1 Hw2.
    destruct i as [|[|[|i]]], j as [|[|[|j]]]; cbn in Hi, Hj; try done; injection Hi as <-; injection Hj as <-;
      apply list_elem_of_singleton in Hw1 as ->; apply list_elem_of_singleton in Hw2 as ->; done.
  - exists out. split; [exact Hout|]. split.
    + rewrite Hm. destruct seed; cbn; (etransitivity; [apply Ht|reflexivity]).
    + rewrite Hp, length_fmap, length_zip. apply Forall2_length in Hms. rewrite <- Hms. reflexivity.
Defined.
