(* ===== verification/Control.v ===== *)
(** * The control channel (src/src/distributed/protocol.rs, agent.rs, coordinator.rs)

    The messages between a coordinator and an agent, the agent's side of a
    test as a state machine over what it receives and what happens on its
    machine, the coordinator's side of one link, and both of them with the
    messages in flight between them.  [decode] is serde's reading of a text
    frame.  Timers, the run itself and the sockets are events. *)

From Stdlib Require Import ZArith Lia Ascii String.
From stdpp Require Import base tactics strings numbers option gmap list.
From S2P Require Import Prelude RustStd Str Hdr Histogram Json Url Libs Live HumanDuration TimeSeries Summaries Metrics Merge Wire Chaos Reply Data Template SocketIo Worker Slo Load Config WireConfig Token Display Phases Lag WireResult Health Coordinator.

Local Open Scope Z_scope.
Local Open Scope rust_scope.

Definition PROTOCOL_VERSION : Z := 4.
Definition CARGO_PKG_VERSION : string := "0.2.4".
Definition SETUP_TIMEOUT : Z := from_secs 60.
Definition START_SLACK : Z := from_secs 10.

(** One capture record. *)
Record WireRecord := mkWireRecord {
  we_t_us : Z;
  we_worker : Z;
  we_dir : string;
  we_kind : string;
  we_len : Z;
  we_code : option Z;
  we_data : option string;
}.

Section Messages.
Context `{Libs, Formatter}.

(** [Message] of protocol.rs. *)
Inductive ControlMessage :=
| MHello (protocol : Z) (version : string)
| MPrepare (config : WireConfig) (start_timeout : Z)
| MReady (connections : Z)
| MStart
| MSnapshot (elapsed : Z) (live : WireSnapshot) (intervals : list WireInterval)
| MToken (value : string)
| MCapture (records : list WireRecord)
| MStop
| MResult (result : WireResult)
| MError (message : string).

Definition message_kind (m : ControlMessage) : string :=
  match m with
  | MHello _ _ => "hello" | MPrepare _ _ => "prepare" | MReady _ => "ready" | MStart => "start" | MSnapshot _ _ _ => "snapshot"
  | MToken _ => "token" | MCapture _ => "capture" | MStop => "stop" | MResult _ => "result" | MError _ => "error"
  end.

Definition hello (protocol : Z) (version : string) : ControlMessage := MHello protocol version.

(** [check_protocol], of a build that speaks [own]. *)
Definition check_protocol (own : Z * string) (protocol : Z) (version : string) : result unit string :=
  if protocol =? own.1 then Ok tt
  else Err ("protocol version mismatch: this is wsblast " +:+ own.2 +:+ " speaking protocol " +:+ display_u64 own.1 +:+
    ", the peer is wsblast " +:+ version +:+ " speaking protocol " +:+ display_u64 protocol +:+
    "; run the same wsblast version on the coordinator and every agent")%string.

(** ** Reading a message *)

Inductive RecvError := Closed (reason : string) | Invalid (reason : string).
Definition recv_text (e : RecvError) : string := match e with Closed reason | Invalid reason => reason end.

(** The frames a stream yields: a frame, or the error of a failed read; the
    list ends where the stream does. *)
Fixpoint recv (decode : string -> result ControlMessage string) (frames : list (Message + string))
  : result ControlMessage RecvError * list (Message + string) :=
  match frames with
  | [] => (Err (Closed "the connection was closed"), [])
  | inl (Text text) :: frames => (result_map_err (fun e => Invalid e) (decode text), frames)
  | inl (Close _) :: frames => (Err (Closed "the connection was closed"), frames)
  | inl (Binary _) :: frames => (Err (Invalid "unexpected binary frame on the control channel"), frames)
  | inl _ :: frames => recv decode frames
  | inr err :: frames => (Err (Closed err), frames)
  end.

(** What a read with a limit sees: the stream, the limit or the shutdown. *)
Inductive Waited := Read (r : result ControlMessage RecvError) | LimitPassed | ShuttingDown.
Definition recv_within (limit : Z) (w : Waited) : result ControlMessage RecvError :=
  match w with
  | Read r => r
  | LimitPassed => Err (Closed ("no message within " +:+ debug_duration limit)%string)
  | ShuttingDown => Err (Closed "the agent is shutting down")
  end.

Definition unexpected (message : ControlMessage) (expected : string) : string :=
  ("expected a " +:+ expected +:+ " message, received " +:+ message_kind message)%string.

(** ** The agent *)

(** A phase the agent has accepted; [pd_live] is its credential, which
    tokens replace. *)
Record AcceptedPhase := mkAcceptedPhase {
  pd_wire : WireConfig;
  pd_config : RunConfig;
  pd_phase : option CompiledPhase;
  pd_live : option (HeaderName * HeaderValue);
  pd_start_timeout : Z;
}.
#[export] Instance AcceptedPhase_eta : Settable AcceptedPhase := fun p =>
  mkAcceptedPhase (pd_wire p) (pd_config p) (pd_phase p) (pd_live p) (pd_start_timeout p).

(** Why a test ended: silently, or with the message of an [error]; a panic
    ends it as a lost connection does. *)
Inductive AgentEnd :=
| Silent
| NotExpected (message : ControlMessage) (expected : string)
| NotAMessage (reason : string)
| OtherProtocol (message : string)
| BadConfig (message : string)
| RunFailed (message : string)
| LeftEarly.
Definition end_message (e : AgentEnd) : option string :=
  match e with
  | Silent => None
  | NotExpected message expected => Some (unexpected message expected)
  | NotAMessage reason => Some reason
  | OtherProtocol message => Some message
  | BadConfig message => Some ("invalid configuration: " +:+ message)%string
  | RunFailed message => Some message
  | LeftEarly => Some "the agent is shutting down"%string
  end.

Inductive AgentState :=
| AwaitHello
| AwaitPrepare (wait : Z)
| Resolving (p : AcceptedPhase)
| AwaitStart (p : AcceptedPhase)
| Starting (p : AcceptedPhase)
| RunningPhase (p : AcceptedPhase) (cancelled gone : bool)
| Flushing (p : AcceptedPhase)
| TestEnded (why : AgentEnd).

(** What happens to it: a read of the control channel and whether an answer
    to it could be sent, the target resolved, the capture started or not, the
    ticker, a batch of records, the end of the run, and the end of its
    capture, with the final counters and the result of which [sent] could be
    sent. *)
Inductive AgentEvent :=
| OnMessage (w : Waited) (sent : bool)
| OnResolved (sent : bool)
| OnStarted (capture : result unit string)
| OnShutdown
| OnTick (elapsed : Z) (live : WireSnapshot) (intervals : list WireInterval) (sent : bool)
| OnBatch (records : list WireRecord) (sent : bool)
| OnRunEnd (outcome : result unit string)
| OnFinished (elapsed : Z) (live : WireSnapshot) (result : WireResult) (sent : nat).

Definition end_test (why : AgentEnd) : AgentState * list ControlMessage :=
  (TestEnded why, match end_message why with Some message => [MError message] | None => [] end).

Context (env : BuildEnv) (source_ips : list string) (own : Z * string).

(** [apply_token] *)
Definition apply_token (value : string) (p : AcceptedPhase) : AcceptedPhase :=
  match pd_live p, sensitive_value value with
  | Some (name, _), Ok value => p <| pd_live := Some (name, value) |>
  | _, _ => p
  end.

(** [run_phase] up to the resolution of the target, with [phase_runner]. *)
Definition accept_phase (wire : WireConfig) (start_timeout : Z) : result AcceptedPhase AgentEnd :=
  match into_config env wire with
  | None => Err Silent
  | Some (Err e) => Err (BadConfig (WsBlastError_fmt e))
  | Some (Ok config) =>
      let config := config <| rc_source_ips := source_ips |> in
      match wc_phase wire with
      | None => Ok (mkAcceptedPhase wire config None (rc_live_auth config) start_timeout)
      | Some phase =>
          match into_phase phase config with
          | Err e => Err (BadConfig (WsBlastError_fmt e))
          | Ok phase => Ok (mkAcceptedPhase wire config (Some phase) (rc_live_auth config) start_timeout)
          end
      end
  end.

(** How long the agent waits for the next phase; the sum of durations
    panics on overflow. *)
Definition next_wait (wire : WireConfig) (start_timeout : Z) : option Z :=
  duration_sum [ld_duration (wc_load wire); start_timeout; SETUP_TIMEOUT].

Definition await_hello (w : Waited) (sent : bool) : AgentState * list ControlMessage :=
  match recv_within SETUP_TIMEOUT w with
  | Ok (MHello protocol version) =>
      match check_protocol own protocol version with
      | Ok _ => if sent then (AwaitPrepare SETUP_TIMEOUT, [MHello own.1 own.2]) else end_test Silent
      | Err message => end_test (OtherProtocol message)
      end
  | Ok other => end_test (NotExpected other "hello")
  | Err (Invalid reason) => end_test (NotAMessage reason)
  | Err (Closed _) => end_test Silent
  end.

Definition await_prepare (wait : Z) (w : Waited) : AgentState * list ControlMessage :=
  match recv_within wait w with
  | Ok (MPrepare wire start_timeout) =>
      match next_wait wire start_timeout with
      | None => end_test Silent
      | Some _ =>
          match accept_phase wire start_timeout with
          | Ok p => (Resolving p, [])
          | Err why => end_test why
          end
      end
  | Ok (MToken _) => (AwaitPrepare wait, [])
  | Ok MStop | Err (Closed _) => end_test Silent
  | Ok other => end_test (NotExpected other "prepare")
  | Err (Invalid reason) => end_test (NotAMessage reason)
  end.

(** The limit is what is left of the start timeout, at most all of it and
    the slack. *)
Definition await_start (p : AcceptedPhase) (w : Waited) : AgentState * list ControlMessage :=
  match recv_within (pd_start_timeout p + START_SLACK) w with
  | Ok MStart => (Starting p, [])
  | Ok (MToken value) => (AwaitStart (apply_token value p), [])
  | Ok MStop | Err (Closed _) => end_test Silent
  | Ok other => end_test (NotExpected other "start")
  | Err (Invalid reason) => end_test (NotAMessage reason)
  end.

(** One round of the loop around the run; nothing is read from a coordinator
    that is gone. *)
Definition running_message (p : AcceptedPhase) (cancelled : bool) (r : result ControlMessage RecvError) : AgentState :=
  match r with
  | Ok MStop => RunningPhase p true false
  | Ok (MToken value) => RunningPhase (apply_token value p) cancelled false
  | Ok _ | Err (Invalid _) => RunningPhase p cancelled false
  | Err (Closed _) => RunningPhase p true true
  end.
Definition running_send (p : AcceptedPhase) (cancelled : bool) (m : ControlMessage) (sent : bool) : AgentState * list ControlMessage :=
  if sent then (RunningPhase p cancelled false, [m]) else (RunningPhase p true true, []).

(** The final counters and the result. *)
Definition send_result (p : AcceptedPhase) (elapsed : Z) (live : WireSnapshot) (result : WireResult) (sent : nat)
  : AgentState * list ControlMessage :=
  let snapshot := MSnapshot elapsed live [] in
  match sent with
  | O => end_test Silent
  | S O => (TestEnded Silent, [snapshot])
  | _ => (AwaitPrepare (default 0 (next_wait (pd_wire p) (pd_start_timeout p))), [snapshot; MResult result])
  end.

(** [run_test] with [run_phase]: [None] for what cannot happen in a state. *)
Definition agent_step (a : AgentState) (e : AgentEvent) : option (AgentState * list ControlMessage) :=
  match a, e with
  | AwaitHello, OnMessage w sent => Some (await_hello w sent)
  | AwaitPrepare wait, OnMessage w _ => Some (await_prepare wait w)
  | Resolving p, OnResolved sent =>
      Some (if sent then (AwaitStart p, [MReady (ld_connections (rc_load (pd_config p)))]) else end_test Silent)
  | Resolving p, OnShutdown => Some (end_test LeftEarly)
  | AwaitStart p, OnMessage w _ => Some (await_start p w)
  | Starting p, OnStarted capture =>
      Some match capture with
           | Ok _ => (RunningPhase p false false, [])
           | Err e => end_test (RunFailed ("cannot start the capture: " +:+ e)%string)
           end
  | RunningPhase p _ gone, OnRunEnd outcome =>
      Some (if gone then end_test Silent
            else match outcome with
                 | Ok _ => (Flushing p, [])
                 | Err e => end_test (RunFailed ("the run failed: " +:+ e)%string)
                 end)
  | RunningPhase p cancelled false, OnTick elapsed live intervals sent =>
      Some (running_send p cancelled (MSnapshot elapsed live intervals) sent)
  | RunningPhase p cancelled false, OnBatch records sent => Some (running_send p cancelled (MCapture records) sent)
  | RunningPhase p cancelled false, OnMessage (Read r) _ => Some (running_message p cancelled r, [])
  | RunningPhase p false gone, OnShutdown => Some (RunningPhase p true gone, [])
  | Flushing p, OnBatch records sent => Some (if sent then (Flushing p, [MCapture records]) else end_test Silent)
  | Flushing p, OnFinished elapsed live result sent => Some (send_result p elapsed live result sent)
  | _, _ => None
  end.
End Messages.


(** ** The coordinator's side of one link *)

(** Why a link is given up, with the peer's own words where it had any. *)
Inductive LinkLoss :=
| SendFailed (err : string)
| ReplyClosed (reason : string)
| ReplyInvalid (reason : string)
| OtherVersion (message : string)
| Refused (message : string)
| AnsweredHello (kind : string)
| RejectedTest (message : string)
| AnsweredPrepare (kind : string)
| NotReady
| NotStarted (err : string)
| ReportedError (message : string)
| SentUnexpected (kind : string)
| Disconnected (reason : string)
| FollowInvalid (reason : string)
| NoResult
| Released.

Definition loss_text `{Formatter} (agent_timeout : Z) (l : LinkLoss) : string :=
  match l with
  | SendFailed err => "control connection failed: " +:+ err
  | ReplyClosed reason => "closed the control connection (" +:+ reason +:+ ")"
  | ReplyInvalid reason | FollowInvalid reason => reason
  | OtherVersion message | Refused message => message
  | AnsweredHello kind =>
      "answered hello with " +:+ kind +:+ "; is it a wsblast agent speaking protocol " +:+ display_u64 PROTOCOL_VERSION +:+ "?"
  | RejectedTest message => "rejected the test: " +:+ message
  | AnsweredPrepare kind => "answered prepare with " +:+ kind
  | NotReady => "not ready within " +:+ debug_duration agent_timeout +:+ " (--agent-timeout)"
  | NotStarted err => "could not be started: " +:+ err
  | ReportedError message => "reported an error: " +:+ message
  | SentUnexpected kind => "sent an unexpected " +:+ kind +:+ " message"
  | Disconnected reason => "disconnected before sending its result (" +:+ reason +:+ ")"
  | NoResult => "sent no result within " +:+ debug_duration agent_timeout +:+ " of the end of the run (--agent-timeout)"
  | Released => ""
  end%string.

Section Link.
Context {H : Type} `{Hdr H, Libs, Formatter} (record_error : string) (own : Z * string).

Definition reply_error (e : RecvError) : LinkLoss :=
  match e with Closed reason => ReplyClosed reason | Invalid reason => ReplyInvalid reason end.

(** [connect], once its hello is sent. *)
Definition connect_reply (r : result ControlMessage RecvError) : result unit LinkLoss :=
  let? m := result_map_err reply_error r in
  match m with
  | MHello protocol version => result_map_err OtherVersion (check_protocol own protocol version)
  | MError message => Err (Refused message)
  | other => Err (AnsweredHello (message_kind other))
  end.

(** [prepare], once the share is sent. *)
Definition prepare_reply (r : result ControlMessage RecvError) : result unit LinkLoss :=
  let? m := result_map_err reply_error r in
  match m with
  | MReady _ => Ok tt
  | MError message => Err (RejectedTest message)
  | other => Err (AnsweredPrepare (message_kind other))
  end.

(** What [follow_agent] keeps while it waits. *)
Record FollowState := mkFollowState {
  fo_live : AgentLive H;
  fo_deadline : Z;
  fo_stopped : bool;
  fo_token_open : bool;
  fo_records : list (list WireRecord);
}.
#[export] Instance FollowState_eta : Settable FollowState := fun f =>
  mkFollowState (fo_live f) (fo_deadline f) (fo_stopped f) (fo_token_open f) (fo_records f).

(** An interval whose values do not fit is dropped. *)
Definition insert_interval (intervals : gmap Z H) (interval : WireInterval) : gmap Z H :=
  match interval_histogram with
  | None => intervals
  | Some empty =>
      match from_sparse record_error (wi_values interval) empty with
      | Ok hist => <[wi_index interval := hist]> intervals
      | Err _ => intervals
      end
  end.
(** [pop_first] while there are more than four. *)
Definition latest_intervals (intervals : gmap Z H) : gmap Z H :=
  list_to_map (drop (length (btree_entries intervals) - 4) (btree_entries intervals)).
Definition store_live (live : WireSnapshot) (intervals : list WireInterval) (agent : AgentLive H) : AgentLive H :=
  mkAgentLive live (latest_intervals (fold_left insert_interval intervals (al_intervals agent))).

(** How a message leaves the loop, or the state in which it goes on. *)
Definition follow_message (f : FollowState) (r : result ControlMessage RecvError) (now : Z)
  : FollowState + result (WireResult * Z) LinkLoss :=
  match r with
  | Ok (MSnapshot _ live intervals) => inl (f <| fo_live ::= store_live live intervals |>)
  | Ok (MCapture records) => inl (f <| fo_records ::= fun sent => sent ++ [records] |>)
  | Ok (MResult result) => inr (Ok (result, now))
  | Ok (MError message) => inr (Err (ReportedError message))
  | Ok other => inr (Err (SentUnexpected (message_kind other)))
  | Err (Closed reason) => inr (Err (Disconnected reason))
  | Err (Invalid reason) => inr (Err (FollowInvalid reason))
  end.

(** What [follow_agent] waits for: a message, a new token or the end of
    them, the stop (or the end of its channel), the deadline. *)
Inductive FollowEvent :=
| Received (r : result ControlMessage RecvError) (now : Z)
| TokenChanged (value : option string)
| StopChanged (stop : bool) (now : Z)
| DeadlinePassed.

(** One round: the state or the outcome, and what is sent; [None] for a
    branch that is not enabled. *)
Definition follow_step (agent_timeout : Z) (f : FollowState) (e : FollowEvent)
  : option ((FollowState + result (WireResult * Z) LinkLoss) * list ControlMessage) :=
  match e with
  | Received r now => Some (follow_message f r now, [])
  | TokenChanged value =>
      if fo_token_open f then
        Some match value with
             | None => (inl (f <| fo_token_open := false |>), [])
             | Some value => (inl f, [MToken value])
             end
      else None
  | StopChanged stop now =>
      if fo_stopped f then None
      else let f := f <| fo_stopped := true |> in
           Some (if stop then (inl (f <| fo_deadline ::= fun d => Z.min d (now + agent_timeout) |>), [MStop]) else (inl f, []))
  | DeadlinePassed => Some (inr (Err NoResult), [])
  end.

(** [follow_agent]: whether the connection is kept, the outcome and the
    live state, once an event ends it. *)
Fixpoint follow_agent (agent_timeout : Z) (f : FollowState) (es : list FollowEvent)
  : option (bool * result (WireResult * Z) string * AgentLive H) :=
  match es with
  | [] => None
  | e :: es =>
      match follow_step agent_timeout f e with
      | Some (inl f, _) => follow_agent agent_timeout f es
      | Some (inr outcome, _) => Some (result_is_ok outcome, result_map_err (loss_text agent_timeout) outcome, fo_live f)
      | None => follow_agent agent_timeout f es
      end
  end.

Lemma follow_agent_keeps (agent_timeout : Z) (es : list FollowEvent) (f : FollowState) kept outcome live :
  follow_agent agent_timeout f es = Some (kept, outcome, live) -> kept = result_is_ok outcome.
Proof.
  revert f. induction es as [|e es IH]; intros f Hf; [done|]. cbn [follow_agent] in Hf.
  destruct (follow_step _ _ _) as [[[f'|[r|l]] out]|]; [by eapply IH in Hf| | |by eapply IH in Hf];
    by injection Hf as <- <- <-.
Qed.

(** The phase a coordinator runs over such tasks is one [run_phase] accepts. *)
Lemma followed_events_ok (agent_timeout : Z) (tasks : list (FollowState * list FollowEvent)) outcomes answers cancelled start :
  Forall2 (fun t o => follow_agent agent_timeout t.1 t.2 = Some o) tasks outcomes -> length answers = length tasks ->
  events_ok (length tasks) (mkPhaseEvents cancelled answers start outcomes).
Proof.
  intros Ht Ha. split; [done|]. split; [by rewrite (Forall2_length _ _ _ Ht)|].
  cbn [pe_followed]. clear Ha. induction Ht as [|t [[kept o] live] ts os Hto _ IH]; constructor; [|done].
  cbn. intros Ho. rewrite (follow_agent_keeps _ _ _ _ _ _ Hto). done.
Qed.
End Link.

(** ** One agent, one link and the messages in flight *)

Section System.
Context {H : Type} `{Hdr H, Libs, Formatter} (record_error : string).
Context (env : BuildEnv) (source_ips : list string) (agent_own own : Z * string) (agent_timeout : Z).

Inductive LinkState :=
| Greeting
| LinkIdle
| Preparing (share : WireConfig) (start_timeout : Z)
| Prepared (share : WireConfig)
| Following (share : WireConfig) (f : FollowState (H := H))
| LinkLost (why : LinkLoss).

(** What the link does with a message it reads. *)
Definition link_message (l : LinkState) (m : ControlMessage) (now : Z) : option LinkState :=
  match l with
  | Greeting => Some match connect_reply own (Ok m) with Ok _ => LinkIdle | Err why => LinkLost why end
  | Preparing share _ => Some match prepare_reply (Ok m) with Ok _ => Prepared share | Err why => LinkLost why end
  | Following share f =>
      Some match follow_message record_error f (Ok m) now with
           | inl f => Following share f
           | inr (Ok _) => LinkIdle
           | inr (Err why) => LinkLost why
           end
  | _ => None
  end.

Record Channel := mkChannel {
  cn_agent : AgentState;
  cn_link : LinkState;
  cn_down : list ControlMessage;
  cn_up : list ControlMessage;
}.

(** The reasons a link can be given up without a message from the agent. *)
Definition lost_by_itself (l : LinkState) (why : LinkLoss) : Prop :=
  match l, why with
  | Greeting, (ReplyClosed _ | NotReady | Released) => True
  | LinkIdle, (SendFailed _ | NotReady | Released) => True
  | Preparing _ _, (ReplyClosed _ | NotReady | Released) => True
  | Prepared _, (NotStarted _ | Released) => True
  | Following _ _, (Disconnected _ | NoResult | Released) => True
  | _, _ => False
  end.

(** What an agent sees besides the coordinator's messages: a closed or
    silent connection, and everything that happens on its machine. *)
Definition agent_alone (e : AgentEvent) : Prop :=
  match e with OnMessage (Read (Ok _)) _ | OnMessage (Read (Err (Invalid _))) _ => False | _ => True end.

Inductive channel_step : Channel -> Channel -> Prop :=
| agent_reads a l m down up sent a' out :
    agent_step env source_ips agent_own a (OnMessage (Read (Ok m)) sent) = Some (a', out) ->
    channel_step (mkChannel a l (m :: down) up) (mkChannel a' l down (up ++ out))
| agent_acts a l down up e a' out :
    agent_alone e -> agent_step env source_ips agent_own a e = Some (a', out) ->
    channel_step (mkChannel a l down up) (mkChannel a' l down (up ++ out))
| link_reads a l m down up now l' :
    link_message l m now = Some l' ->
    channel_step (mkChannel a l down (m :: up)) (mkChannel a l' down up)
| link_prepares a share start_timeout down up :
    channel_step (mkChannel a LinkIdle down up)
                 (mkChannel a (Preparing share start_timeout) (down ++ [MPrepare share start_timeout]) up)
| link_starts a share f down up :
    channel_step (mkChannel a (Prepared share) down up) (mkChannel a (Following share f) (down ++ [MStart]) up)
| link_follows a share f down up e f' out :
    (match e with TokenChanged _ | StopChanged _ _ => True | _ => False end) ->
    follow_step record_error agent_timeout f e = Some (inl f', out) ->
    channel_step (mkChannel a (Following share f) down up) (mkChannel a (Following share f') (down ++ out) up)
| link_stops a l down up :
    (match l with LinkIdle | Preparing _ _ | Prepared _ => True | _ => False end) ->
    channel_step (mkChannel a l down up) (mkChannel a (LinkLost Released) (down ++ [MStop]) up)
| link_drops a l why down up :
    lost_by_itself l why -> channel_step (mkChannel a l down up) (mkChannel a (LinkLost why) down up).

(** The coordinator has sent its hello. *)
Definition greeted : Channel := mkChannel AwaitHello Greeting [MHello own.1 own.2] [].
Definition reachable (c : Channel) : Prop := rtc channel_step greeted c.

(** *** What is in flight *)

Definition noise (m : ControlMessage) : Prop := match m with MToken _ | MStop => True | _ => False end.
Definition phase_traffic (m : ControlMessage) : Prop := match m with MSnapshot _ _ _ | MCapture _ => True | _ => False end.
Definition queue (q down : list ControlMessage) : Prop :=
  exists n1 n2, Forall noise n1 /\ Forall noise n2 /\ down = n1 ++ q ++ n2.

(** An end or a loss that no message out of turn caused. *)
Definition in_order (why : AgentEnd) : Prop :=
  match why with NotExpected _ _ | NotAMessage _ | OtherProtocol _ => False | _ => True end.
Definition in_turn (why : LinkLoss) : Prop :=
  match why with
  | AnsweredHello _ | AnsweredPrepare _ | SentUnexpected _ | ReplyInvalid _ | FollowInvalid _ | OtherVersion _ | Refused _ => False
  | _ => True
  end.

(** What may still be in flight to an agent whose link is given up. *)
Definition gone_ok (a : AgentState) (down : list ControlMessage) : Prop :=
  match a with
  | AwaitHello => down = [MHello own.1 own.2]
  | AwaitPrepare _ => queue [] down \/ exists share t, queue [MPrepare share t] down
  | AwaitStart _ => queue [] down \/ queue [MStart] down
  | TestEnded why => in_order why
  | _ => queue [] down
  end.

Definition channel_inv (c : Channel) : Prop :=
  let down := cn_down c in
  let up := cn_up c in
  match cn_link c, cn_agent c with
  | Greeting, AwaitHello => down = [MHello own.1 own.2] /\ up = []
  | Greeting, AwaitPrepare _ => down = [] /\ up = [MHello agent_own.1 agent_own.2]
  | Greeting, TestEnded why => in_order why /\ (up = [] \/ up = [MHello agent_own.1 agent_own.2])
  | LinkIdle, AwaitPrepare _ => queue [] down /\ up = []
  | LinkIdle, TestEnded why => in_order why /\ up = []
  | Preparing share t, AwaitPrepare _ => queue [MPrepare share t] down /\ up = []
  | Preparing share _, Resolving p => pd_wire p = share /\ queue [] down /\ up = []
  | Preparing share _, AwaitStart p => pd_wire p = share /\ queue [] down /\ exists n, up = [MReady n]
  | Preparing _ _, TestEnded why => in_order why /\ (up = [] \/ (exists m, up = [MError m]) \/ (exists n, up = [MReady n]))
  | Prepared share, AwaitStart p => pd_wire p = share /\ queue [] down /\ up = []
  | Prepared _, TestEnded why => in_order why /\ up = []
  | Following share _, AwaitStart p => pd_wire p = share /\ queue [MStart] down /\ up = []
  | Following share _, (Starting p | RunningPhase p _ _ | Flushing p) => pd_wire p = share /\ queue [] down /\ Forall phase_traffic up
  | Following _ _, AwaitPrepare _ => queue [] down /\ exists t r, Forall phase_traffic t /\ up = t ++ [MResult r]
  | Following _ _, TestEnded why =>
      in_order why /\ exists t e, Forall phase_traffic t /\ up = t ++ e /\ (e = [] \/ (exists m, e = [MError m]) \/ (exists r, e = [MResult r]))
  | LinkLost why, a => in_turn why /\ gone_ok a down
  | _, _ => False
  end.

Lemma queue_nil : queue [] [].
Proof. by exists [], []. Qed.
Lemma queue_snoc q down m : noise m -> queue q down -> queue q (down ++ [m]).
Proof.
  intros Hm (n1 & n2 & Hn1 & Hn2 & ->). exists n1, (n2 ++ [m]). rewrite <-!(assoc_L (++)).
  split_and!; [done|apply Forall_app; by repeat constructor|done].
Qed.
Lemma queue_send down m : queue [] down -> queue [m] (down ++ [m]).
Proof.
  intros (n1 & n2 & Hn1 & Hn2 & ->). exists (n1 ++ n2), []. split_and!; [by apply Forall_app|done|].
  by rewrite app_nil_r.
Qed.
Lemma queue_pop m down : queue [] (m :: down) -> noise m /\ queue [] down.
Proof.
  intros (n1 & n2 & Hn1 & Hn2 & Heq). cbn in Heq.
  assert (Forall noise (m :: down)) as Hall by (rewrite Heq; by apply Forall_app).
  apply Forall_cons in Hall as [Hm Hd]. split; [done|]. by exists [], down.
Qed.
Lemma queue_pop_one x m down : queue [x] (m :: down) -> noise m /\ queue [x] down \/ m = x /\ queue [] down.
Proof.
  intros ([|n n1] & n2 & Hn1 & Hn2 & Heq); injection Heq as -> ->.
  - right. split; [done|]. by exists [], n2.
  - left. apply Forall_cons in Hn1 as [Hn Hn1]. split; [done|]. by exists n1, n2.
Qed.

(** *** Two versions *)

Definition refused_inv (text : string) (c : Channel) : Prop :=
  match cn_agent c with
  | AwaitHello => cn_down c = [MHello own.1 own.2] /\ cn_up c = []
  | TestEnded why => (why = Silent /\ cn_up c = []) \/ (why = OtherProtocol text /\ (cn_up c = [] \/ cn_up c = [MError text]))
  | _ => False
  end /\
  match cn_link c with
  | Greeting | LinkLost (ReplyClosed _ | NotReady | Released) => True
  | LinkLost (Refused message) => message = text
  | _ => False
  end.

Lemma refused_step text c c' : check_protocol agent_own own.1 own.2 = Err text ->
  channel_step c c' -> refused_inv text c -> refused_inv text c'.
Proof.
  intros Ht. destruct 1 as [a l m down up sent a' out Hs|a l down up e a' out He Hs|a l m down up now l' Hl
    | | | |a l down up Hl|a l why down up Hl]; unfold refused_inv; cbn [cn_agent cn_link cn_down cn_up]; intros [Ha Hlk].
  - split; [|done]. destruct a; try done. destruct Ha as [[= -> ->] ->]. cbn [agent_step] in Hs.
    unfold await_hello, recv_within in Hs. rewrite Ht in Hs. injection Hs as <- <-. auto.
  - split; [|done]. destruct a; try done. destruct e; try done. destruct Ha as [_ ->].
    destruct w as [[m|[reason|reason]]| |]; try done; injection Hs as <- <-; auto.
  - destruct a; try done; [by destruct Ha|]. destruct Ha as [[_ ?]|[-> [?|[= -> ->]]]]; [done..|].
    split; [by auto|]. destruct l; try done. by injection Hl as <-.
  - done.
  - done.
  - done.
  - by destruct l.
  - split; [done|]. by destruct l, why.
Qed.

Lemma refused_reachable text c : check_protocol agent_own own.1 own.2 = Err text -> reachable c -> refused_inv text c.
Proof.
  unfold reachable. intros Ht Hc. assert (refused_inv text greeted) as Hi by done.
  induction Hc as [|c1 c2 c3 Hs _ IH]; [done|]. apply IH. by eapply refused_step.
Qed.

Lemma refusal_arrives text : check_protocol agent_own own.1 own.2 = Err text ->
  reachable (mkChannel (TestEnded (OtherProtocol text)) (LinkLost (Refused text)) [] []).
Proof.
  intros Ht. unfold reachable.
  eapply rtc_l; [apply (agent_reads AwaitHello Greeting (MHello own.1 own.2) [] [] true
    (TestEnded (OtherProtocol text)) [MError text]); cbn [agent_step await_hello recv_within]; by rewrite Ht|].
  apply rtc_once. by apply (link_reads _ _ _ _ _ 0).
Qed.

(** An agent and a coordinator of different protocol versions never get
    past the greeting: in every order of events the agent either waits for
    the hello, has been left, or refused it with a text that names both
    versions, and the coordinator gives the link up, with that text if the
    agent answered. *)
Theorem other_protocols_refused (c : Channel) (Hv : agent_own.1 <> own.1) (Hc : reachable c) :
  exists text, check_protocol agent_own own.1 own.2 = Err text /\
    match cn_agent c with
    | AwaitHello => True
    | TestEnded why => why = Silent \/ why = OtherProtocol text
    | _ => False
    end /\
    match cn_link c with
    | Greeting | LinkLost (ReplyClosed _ | NotReady | Released) => True
    | LinkLost (Refused message) => message = text
    | _ => False
    end.
Proof.
  destruct (check_protocol agent_own own.1 own.2) as [[]|text] eqn:Ht.
  { unfold check_protocol in Ht. destruct (Z.eqb_spec own.1 agent_own.1); [by destruct Hv|done]. }
  exists text. split; [done|]. destruct (refused_reachable text c Ht Hc) as [Ha Hl]. split; [|done].
  destruct (cn_agent c); try done. destruct Ha as [[-> _]|[-> _]]; auto.
Qed.

Hypothesis same_protocol : agent_own.1 = own.1.

Lemma check_same version : check_protocol agent_own own.1 version = Ok tt.
Proof. unfold check_protocol. by rewrite same_protocol, Z.eqb_refl. Qed.
Lemma check_same_back version : check_protocol own agent_own.1 version = Ok tt.
Proof. unfold check_protocol. by rewrite same_protocol, Z.eqb_refl. Qed.

Lemma accept_phase_wire wire t p : accept_phase env source_ips wire t = Ok p -> pd_wire p = wire.
Proof.
  unfold accept_phase. destruct (into_config env wire) as [[config|]|]; [|done..].
  destruct (wc_phase wire) as [phase|]; [destruct (into_phase _ _); [|done]|]; by intros [= <-].
Qed.
Lemma accept_phase_timeout wire t p : accept_phase env source_ips wire t = Ok p -> pd_start_timeout p = t.
Proof.
  unfold accept_phase. destruct (into_config env wire) as [[config|]|]; [|done..].
  destruct (wc_phase wire) as [phase|]; [destruct (into_phase _ _); [|done]|]; by intros [= <-].
Qed.
Lemma accept_phase_quiet wire t why : accept_phase env source_ips wire t = Err why -> in_order why.
Proof.
  unfold accept_phase. destruct (into_config env wire) as [[config|]|]; [|by intros [= <-]..].
  destruct (wc_phase wire) as [phase|]; [destruct (into_phase _ _)|]; by intros [= <-].
Qed.
Lemma apply_token_wire value p : pd_wire (apply_token value p) = pd_wire p.
Proof. unfold apply_token. by destruct (pd_live p) as [[]|], (sensitive_value value). Qed.

(** The end of a test says why, if it says anything. *)
Lemma end_test_up why : (end_test why).2 = [] \/ exists m, (end_test why).2 = [MError m].
Proof. unfold end_test. destruct (end_message why); cbn; eauto. Qed.

Lemma inv_gone a l down up : channel_inv (mkChannel a l down up) -> gone_ok a down.
Proof.
  unfold channel_inv. cbn [cn_agent cn_link cn_down cn_up].
  destruct l, a; cbn; try done; intros Hi; destruct_and?; subst; eauto using queue_nil.
Qed.
Lemma inv_link_drops a l why down up : lost_by_itself l why ->
  channel_inv (mkChannel a l down up) -> channel_inv (mkChannel a (LinkLost why) down up).
Proof. intros Hw Hi. split; [by destruct l, why|]. by eapply inv_gone. Qed.

Lemma inv_link_stops a l down up : (match l with LinkIdle | Preparing _ _ | Prepared _ => True | _ => False end) ->
  channel_inv (mkChannel a l down up) -> channel_inv (mkChannel a (LinkLost Released) (down ++ [MStop]) up).
Proof.
  intros Hl Hi. split; [done|].
  assert (a <> AwaitHello) as Ha by (intros ->; by destruct l). apply inv_gone in Hi.
  destruct a; cbn in *; [done| | | | | | |done]; [|by apply queue_snoc| |by apply queue_snoc..].
  - destruct Hi as [Hi|(share & t & Hi)]; [left|right; exists share, t]; by apply queue_snoc.
  - destruct Hi as [Hi|Hi]; [left|right]; by apply queue_snoc.
Qed.

Lemma inv_link_prepares a share t down up : channel_inv (mkChannel a LinkIdle down up) ->
  channel_inv (mkChannel a (Preparing share t) (down ++ [MPrepare share t]) up).
Proof.
  unfold channel_inv. cbn [cn_agent cn_link cn_down cn_up].
  destruct a; try done; intros [Hd ->]; split; auto using queue_send.
Qed.
Lemma inv_link_starts a share f down up : channel_inv (mkChannel a (Prepared share) down up) ->
  channel_inv (mkChannel a (Following share f) (down ++ [MStart]) up).
Proof.
  unfold channel_inv. cbn [cn_agent cn_link cn_down cn_up].
  destruct a; try done; [intros (Hp & Hd & ->)|intros [Hq ->]]; split; auto using queue_send.
  exists [], []. auto.
Qed.
Lemma inv_link_follows a share f down up e f' out :
  (match e with TokenChanged _ | StopChanged _ _ => True | _ => False end) ->
  follow_step record_error agent_timeout f e = Some (inl f', out) ->
  channel_inv (mkChannel a (Following share f) down up) -> channel_inv (mkChannel a (Following share f') (down ++ out) up).
Proof.
  intros He Hf. assert (out = [] \/ exists m, out = [m] /\ noise m) as Hout.
  { destruct e as [|[value|]|stop now|]; try done; cbn in Hf.
    - destruct (fo_token_open f); [|done]. injection Hf as <- <-. right. by eexists.
    - destruct (fo_token_open f); [|done]. injection Hf as <- <-. by left.
    - destruct (fo_stopped f), stop; try done; injection Hf as <- <-; [right; by eexists|by left]. }
  unfold channel_inv. cbn [cn_agent cn_link cn_down cn_up].
  destruct Hout as [->|(m & -> & Hm)]; [by rewrite app_nil_r; destruct a|].
  destruct a; try done; intros Hi; destruct_and?; split_and?; auto using queue_snoc.
Qed.

(** What the link reads while it follows is traffic, and one last message. *)
Lemma traffic_pop m up t e : m :: up = t ++ e -> Forall phase_traffic t ->
  phase_traffic m /\ (exists t', Forall phase_traffic t' /\ up = t' ++ e) \/ t = [] /\ e = m :: up.
Proof.
  destruct t as [|m' t]; cbn; intros Heq Ht; [by right|]. injection Heq as -> ->.
  apply Forall_cons in Ht as [Hm Ht]. left. eauto.
Qed.
Lemma follow_traffic f m now : phase_traffic m -> exists f', follow_message record_error f (Ok m) now = inl f'.
Proof. destruct m; try done; cbn; eauto. Qed.

Lemma inv_follow_reads a share f m down up now l' :
  link_message (Following share f) m now = Some l' -> channel_inv (mkChannel a (Following share f) down (m :: up)) ->
  channel_inv (mkChannel a l' down up).
Proof.
  intros Hl Hi. assert (phase_traffic m -> exists f', l' = Following share f') as Ht.
  { intros Hm. destruct (follow_traffic f m now Hm) as [f' Hf]. unfold link_message in Hl. rewrite Hf in Hl.
    injection Hl as <-. eauto. }
  unfold channel_inv in Hi |- *. cbn [cn_agent cn_link cn_down cn_up] in *.
  destruct a as [|w|p|p|p|p cancelled gone|p|why]; try done; [|destruct_and?; done|..].
  - destruct Hi as [Hd (t & r & Htr & Heq)].
    apply traffic_pop in Heq as [[Hm (t' & Ht' & ->)]|[-> [= <- <-]]]; [| |done].
    + destruct (Ht Hm) as [f' ->]. eauto.
    + by injection Hl as <-.
  - destruct Hi as (Hp & Hd & Htr). apply Forall_cons in Htr as [Hm Htr]. by destruct (Ht Hm) as [f' ->].
  - destruct Hi as (Hp & Hd & Htr). apply Forall_cons in Htr as [Hm Htr]. by destruct (Ht Hm) as [f' ->].
  - destruct Hi as (Hp & Hd & Htr). apply Forall_cons in Htr as [Hm Htr]. by destruct (Ht Hm) as [f' ->].
  - destruct Hi as (Hq & t & e & Htr & Heq & He).
    apply traffic_pop in Heq as [[Hm (t' & Ht' & ->)]|[-> ->]]; [destruct (Ht Hm) as [f' ->]; eauto 10| |done].
    destruct He as [?|[[m' [= -> ->]]|[r [= -> ->]]]]; [done|by injection Hl as <-|by injection Hl as <-].
Qed.

Lemma inv_link_reads a l m down up now l' : link_message l m now = Some l' ->
  channel_inv (mkChannel a l down (m :: up)) -> channel_inv (mkChannel a l' down up).
Proof.
  destruct l as [| |share t|share|share f|why]; try done; [| |by apply inv_follow_reads];
    unfold channel_inv; cbn [cn_agent cn_link cn_down cn_up]; intros Hl Hi; destruct a; try done.
  - by destruct Hi as [_ ?].
  - destruct Hi as [-> [= -> ->]]. injection Hl as <-. cbn. rewrite check_same_back. split; [apply queue_nil|done].
  - destruct Hi as [Hq [?|[= -> ->]]]; [done|]. injection Hl as <-. cbn. by rewrite check_same_back.
  - by destruct Hi as [_ ?].
  - by destruct Hi as (_ & _ & ?).
  - destruct Hi as (Hp & Hd & n & [= -> ->]). by injection Hl as <-.
  - destruct Hi as [Hq [?|[[m' [= -> ->]]|[n [= -> ->]]]]]; [done|by injection Hl as <-|by injection Hl as <-].
Qed.

(** A test that ends, silently or with an error from a state that may fail. *)
Lemma inv_ends a l why down up : in_order why -> channel_inv (mkChannel a l down up) ->
  channel_inv (mkChannel (TestEnded why) l down up).
Proof.
  unfold channel_inv. cbn [cn_agent cn_link cn_down cn_up]. intros Hq.
  destruct l; [..|by intros [Hw _]]; destruct a; try done; intros Hi; destruct_and?; subst; split; eauto.
  - match goal with Hup : exists t r, _ |- _ => destruct Hup as (t & r & Ht & ->) end. exists t, [MResult r]. eauto 10.
  - exists [], []. auto.
  - exists up, []. rewrite app_nil_r. auto.
  - exists up, []. rewrite app_nil_r. auto.
  - exists up, []. rewrite app_nil_r. auto.
Qed.
Definition may_fail (a : AgentState) : Prop :=
  match a with Resolving _ | Starting _ | RunningPhase _ _ _ | Flushing _ => True | _ => False end.
Lemma inv_fails a l why m down up : may_fail a -> in_order why -> channel_inv (mkChannel a l down up) ->
  channel_inv (mkChannel (TestEnded why) l down (up ++ [MError m])).
Proof.
  unfold channel_inv. cbn [cn_agent cn_link cn_down cn_up]. intros Ha Hq.
  destruct l; [..|by intros [Hw _]]; destruct a; try done; intros Hi; destruct_and?; subst; split; eauto 10.
Qed.

(** A running phase goes on, and may send. *)
Lemma inv_running a l p down up out :
  (a = Starting p \/ exists c g, a = RunningPhase p c g) \/ a = Flushing p -> Forall phase_traffic out ->
  channel_inv (mkChannel a l down up) ->
  (forall c g, channel_inv (mkChannel (RunningPhase p c g) l down (up ++ out))) /\
  channel_inv (mkChannel (Flushing p) l down (up ++ out)).
Proof.
  unfold channel_inv. cbn [cn_agent cn_link cn_down cn_up].
  intros [[->|(c & g & ->)]| ->] Hout Hi; destruct l; try done; destruct_and?; split_and?; intros; split_and?; try done;
    by apply Forall_app.
Qed.

(** What the agent does by itself, by state. *)
Lemma inv_agent_fails a l down up why : may_fail a -> in_order why -> channel_inv (mkChannel a l down up) ->
  channel_inv (mkChannel (end_test why).1 l down (up ++ (end_test why).2)).
Proof.
  intros Ha Hq Hi. unfold end_test. cbn [fst snd]. destruct (end_message why) as [m|]; [by eapply inv_fails|].
  rewrite app_nil_r. by eapply inv_ends.
Qed.

Lemma alone_closed limit w : (forall b, agent_alone (OnMessage w b)) ->
  exists reason, recv_within limit w = Err (Closed reason).
Proof. intros Hw. specialize (Hw true). destruct w as [[m|[reason|reason]]| |]; try done; by eexists. Qed.

Lemma inv_waiting_acts a l down up w sent a' out : (forall b, agent_alone (OnMessage w b)) ->
  (match a with AwaitHello | AwaitPrepare _ | AwaitStart _ => True | _ => False end) ->
  agent_step env source_ips agent_own a (OnMessage w sent) = Some (a', out) ->
  channel_inv (mkChannel a l down up) -> channel_inv (mkChannel a' l down (up ++ out)).
Proof.
  intros Hw Ha Hs Hi. assert ((a', out) = end_test Silent) as [= -> ->].
  { destruct a; try done; injection Hs as Hs; rewrite <-Hs; unfold await_hello, await_prepare, await_start;
      match goal with |- context [recv_within ?limit w] => destruct (alone_closed limit w Hw) as [reason ->] end; done. }
  rewrite app_nil_r. by eapply inv_ends.
Qed.

Lemma running_step p c g e a' out :
  agent_alone e -> agent_step env source_ips agent_own (RunningPhase p c g) e = Some (a', out) ->
  (Forall phase_traffic out /\ ((exists c g, a' = RunningPhase p c g) \/ a' = Flushing p)) \/
  (exists why, in_order why /\ (a', out) = end_test why).
Proof.
  intros He Hs.
  destruct c, g, e as [[[m|[reason|reason]]| |] sent|sent|capture| |elapsed live intervals []|records []|[u|err]|elapsed live r sent];
    try done; injection Hs as <- <-;
    first [left; split; [by repeat constructor|by eauto 10]|right; by exists Silent|right; by eexists (RunFailed _)].
Qed.

Lemma acts_alone a e a' out :
  may_fail a -> agent_alone e -> agent_step env source_ips agent_own a e = Some (a', out) ->
  (exists p, a = Resolving p /\ (a', out) = (AwaitStart p, [MReady (ld_connections (rc_load (pd_config p)))])) \/
  (exists p, ((a = Starting p \/ exists c g, a = RunningPhase p c g) \/ a = Flushing p) /\ Forall phase_traffic out /\
     ((exists c g, a' = RunningPhase p c g) \/ a' = Flushing p)) \/
  (exists why, in_order why /\ (a', out) = end_test why) \/
  (exists p elapsed live result sent, a = Flushing p /\ (a', out) = send_result p elapsed live result sent).
Proof.
  intros Ha He Hs. destruct a as [|w|p|p|p|p c g|p|why]; try done;
    [| |destruct (running_step p c g e a' out He Hs) as [[Ht Ha']|Hend]; [right; left; exists p; eauto 10|by auto]|];
    destruct e; try done; cbn [agent_step] in Hs.
  - destruct sent; injection Hs as <- <-; [left; by exists p|do 2 right; left; by exists Silent].
  - injection Hs as <- <-. do 2 right. left. by exists LeftEarly.
  - destruct capture as [u|err]; injection Hs as <- <-; [right; left; exists p; eauto 10|].
    do 2 right. left. by eexists (RunFailed _).
  - destruct sent; injection Hs as <- <-; [right; left; exists p|do 2 right; left; by exists Silent].
    split_and!; eauto 10; by repeat constructor.
  - do 3 right. injection Hs as Hs. exists p, elapsed, live, result, sent. by rewrite Hs.
Qed.

Lemma inv_sends_result p l down up elapsed live result sent : channel_inv (mkChannel (Flushing p) l down up) ->
  channel_inv (mkChannel (send_result p elapsed live result sent).1 l down
                         (up ++ (send_result p elapsed live result sent).2)).
Proof.
  intros Hi. destruct sent as [|[|sent]].
  - cbn [send_result end_test end_message fst snd]. rewrite app_nil_r. by eapply inv_ends.
  - destruct (inv_running (Flushing p) l p down up [MSnapshot elapsed live []]) as [_ Hf];
      [by right|by repeat constructor|done|]. by eapply inv_ends.
  - destruct l as [| |share t|share|share f|why]; try done; cbn in *.
    + destruct Hi as (Hp & Hd & Ht). split; [done|]. exists (up ++ [MSnapshot elapsed live []]), result.
      split; [apply Forall_app; by repeat constructor|]. by rewrite <-(assoc_L (++)).
    + destruct Hi as [Hw Hd]. auto.
Qed.

Lemma inv_agent_acts a l down up e a' out : agent_alone e -> agent_step env source_ips agent_own a e = Some (a', out) ->
  channel_inv (mkChannel a l down up) -> channel_inv (mkChannel a' l down (up ++ out)).
Proof.
  intros He Hs Hi.
  assert (may_fail a \/ exists w sent, (match a with AwaitHello | AwaitPrepare _ | AwaitStart _ => True | _ => False end) /\
    e = OnMessage w sent /\ forall b, agent_alone (OnMessage w b)) as [Ha|(w & sent & Ha & -> & Hw)].
  { destruct a; try (by left); destruct e; try done; right; eauto 10. }
  - destruct (acts_alone a e a' out Ha He Hs)
      as [(p & -> & [= -> ->])|[(p & Hp & Ht & Ha')|[(why & Hq & Heq)|(p & elapsed & live & r & sent & -> & Heq)]]].
    + destruct l; try done; cbn in *; destruct_and?; subst; eauto 10.
    + destruct (inv_running a l p down up out Hp Ht Hi) as [Hr Hf]. destruct Ha' as [(c & g & ->)| ->]; [apply Hr|apply Hf].
    + assert (a' = (end_test why).1 /\ out = (end_test why).2) as [-> ->] by by rewrite <-Heq. by eapply inv_agent_fails.
    + replace a' with (send_result p elapsed live r sent).1 by by rewrite <-Heq.
      replace out with (send_result p elapsed live r sent).2 by by rewrite <-Heq. by apply inv_sends_result.
  - by eapply inv_waiting_acts.
Qed.

(** What the agent reads is what its state waits for, or noise. *)
Lemma inv_pop_noise a l m down up : a <> AwaitHello -> noise m -> channel_inv (mkChannel a l (m :: down) up) ->
  channel_inv (mkChannel a l down up).
Proof.
  intros Ha Hm Hi.
  assert (queue [] (m :: down) -> queue [] down) as H0' by (intros Hq; by apply queue_pop in Hq as [_ ?]).
  assert (forall x, ~ noise x -> queue [x] (m :: down) -> queue [x] down) as H1'.
  { intros x Hx Hq. apply queue_pop_one in Hq as [[_ ?]|[<- _]]; [done|by destruct Hx]. }
  assert (gone_ok a (m :: down) -> gone_ok a down) as Hgone.
  { destruct a; [done|..]; cbn; auto.
    - intros [?|(share & t & ?)]; [by auto|]. right. exists share, t. apply H1'; auto.
    - intros [?|?]; [by auto|]. right. apply H1'; auto. }
  unfold channel_inv in Hi |- *. cbn [cn_agent cn_link cn_down cn_up] in *.
  destruct l; [..|by destruct Hi; auto]; destruct a; try done; destruct_and?; split_and?; eauto; try (apply H1'; by auto); done.
Qed.

Lemma inv_reads_prepare w l m down up : channel_inv (mkChannel (AwaitPrepare w) l (m :: down) up) ->
  noise m \/ exists share t, m = MPrepare share t /\
    (forall p, pd_wire p = share -> channel_inv (mkChannel (Resolving p) l down up)) /\
    (forall why, in_order why -> channel_inv (mkChannel (end_test why).1 l down (up ++ (end_test why).2))).
Proof.
  unfold channel_inv. cbn [cn_agent cn_link cn_down cn_up]. destruct l as [| |share t|share|share f|lost]; try done; intros [Hq Hu]; [done|..].
  - by apply queue_pop in Hq as [? _]; left.
  - apply queue_pop_one in Hq as [[? _]|[-> Hq]]; [by left|]. right. exists share, t. subst up.
    split_and!; [done|by auto|]. intros why Hw. cbn. destruct (end_test_up why) as [Hup|[m Hup]];
      unfold end_test in Hup |- *; cbn in Hup |- *; rewrite Hup; eauto.
  - by apply queue_pop in Hq as [? _]; left.
  - cbn in Hu. destruct Hu as [Hu|(share & t & Hu)]; [by apply queue_pop in Hu as [? _]; left|].
    apply queue_pop_one in Hu as [[? _]|[-> Hu]]; [by left|]. right. exists share, t. cbn. auto.
Qed.
Lemma inv_reads_start p l m down up : channel_inv (mkChannel (AwaitStart p) l (m :: down) up) ->
  noise m \/ m = MStart /\ channel_inv (mkChannel (Starting p) l down up).
Proof.
  unfold channel_inv. cbn [cn_agent cn_link cn_down cn_up]. destruct l as [| |share t|share|share f|lost]; try done.
  - intros (Hp & Hq & _). by apply queue_pop in Hq as [? _]; left.
  - intros (Hp & Hq & _). by apply queue_pop in Hq as [? _]; left.
  - intros (Hp & Hq & ->). apply queue_pop_one in Hq as [[? _]|[-> Hq]]; [by left|]. right. auto.
  - cbn. intros [Hl [Hu|Hu]]; [by apply queue_pop in Hu as [? _]; left|].
    apply queue_pop_one in Hu as [[? _]|[-> Hu]]; [by left|]. auto.
Qed.
Lemma inv_reads_running p c g l m down up : channel_inv (mkChannel (RunningPhase p c g) l (m :: down) up) -> noise m.
Proof.
  unfold channel_inv. cbn [cn_agent cn_link cn_down cn_up]. destruct l; try done; cbn; intros; destruct_and?;
    match goal with Hq : queue _ _ |- _ => by apply queue_pop in Hq as [? _] end.
Qed.
Lemma inv_apply_token value p l down up :
  (channel_inv (mkChannel (AwaitStart p) l down up) -> channel_inv (mkChannel (AwaitStart (apply_token value p)) l down up)) /\
  (forall c g c' g', channel_inv (mkChannel (RunningPhase p c g) l down up) ->
     channel_inv (mkChannel (RunningPhase (apply_token value p) c' g') l down up)).
Proof. unfold channel_inv. cbn [cn_agent cn_link cn_down cn_up]. rewrite !apply_token_wire. by destruct l. Qed.
Lemma inv_flags p c g c' g' l down up :
  channel_inv (mkChannel (RunningPhase p c g) l down up) -> channel_inv (mkChannel (RunningPhase p c' g') l down up).
Proof. by destruct l. Qed.

Lemma inv_agent_reads a l m down up sent a' out :
  agent_step env source_ips agent_own a (OnMessage (Read (Ok m)) sent) = Some (a', out) ->
  channel_inv (mkChannel a l (m :: down) up) -> channel_inv (mkChannel a' l down (up ++ out)).
Proof.
  intros Hs Hi. destruct a as [|w|p|p|p|p c g|p|why]; try done; cbn [agent_step] in Hs.
  - assert (m = MHello own.1 own.2 /\ down = []) as [-> ->].
    { destruct l; try done; cbn in Hi; destruct Hi as [Hi Hu]; by simplify_eq. }
    cbn in Hs. rewrite check_same in Hs. destruct l; try done; cbn in Hi |- *; destruct Hi as [Hi Hu];
      destruct sent; injection Hs as <- <-; cbn; try (by subst; auto); auto using queue_nil.
  - destruct (inv_reads_prepare _ _ _ _ _ Hi) as [Hm|(share & t & -> & Hok & Hends)].
    + apply inv_pop_noise in Hi; [|done..]. destruct m; try done; injection Hs as <- <-; rewrite app_nil_r; [done|by eapply inv_ends].
    + cbn in Hs. destruct (next_wait share t) as [wait|]; [|injection Hs as <- <-; by apply (Hends Silent)].
      destruct (accept_phase env source_ips share t) as [p|why] eqn:Ep; injection Hs as <- <-;
        [rewrite app_nil_r; apply Hok; by eapply accept_phase_wire|apply Hends; by eapply accept_phase_quiet].
  - destruct (inv_reads_start _ _ _ _ _ Hi) as [Hm|[-> Hok]]; [|by injection Hs as <- <-; rewrite app_nil_r].
    apply inv_pop_noise in Hi; [|done..].
    destruct m; try done; injection Hs as <- <-; rewrite app_nil_r; [by apply inv_apply_token|by eapply inv_ends].
  - pose proof (inv_reads_running _ _ _ _ _ _ _ Hi) as Hm. apply inv_pop_noise in Hi; [|done..].
    destruct c, g, m; try done; injection Hs as <- <-; rewrite app_nil_r; first [by eapply inv_flags|by eapply inv_apply_token].
Qed.

Lemma inv_step c c' : channel_step c c' -> channel_inv c -> channel_inv c'.
Proof.
  destruct 1; eauto using inv_agent_reads, inv_agent_acts, inv_link_reads, inv_link_prepares, inv_link_starts,
    inv_link_follows, inv_link_stops, inv_link_drops.
Qed.
Lemma inv_reachable c : reachable c -> channel_inv c.
Proof.
  unfold reachable. intros Hc. assert (channel_inv greeted) as Hi by done.
  induction Hc as [|c1 c2 c3 Hs _ IH]; [done|]. apply IH. by eapply inv_step.
Qed.

(** *** A phase, undisturbed *)

Definition resting (w : Z) : Channel := mkChannel (AwaitPrepare w) LinkIdle [] [].
Lemma greeting_ends : reachable (resting SETUP_TIMEOUT).
Proof.
  eapply rtc_l; [apply (agent_reads _ _ _ _ _ true); cbn; rewrite check_same; reflexivity|].
  apply rtc_once. eapply (link_reads _ _ _ _ _ 0). cbn. by rewrite check_same_back.
Qed.

Lemma share_starts w share t wait p f : next_wait share t = Some wait -> accept_phase env source_ips share t = Ok p ->
  rtc channel_step (resting w) (mkChannel (RunningPhase p false false) (Following share f) [] []).
Proof.
  intros Hw Hp. eapply rtc_l; [apply (link_prepares _ share t)|].
  eapply rtc_l; [apply (agent_reads _ _ _ _ _ true); cbn; rewrite Hw, Hp; reflexivity|].
  eapply rtc_l; [by apply (agent_acts _ _ _ _ (OnResolved true))|].
  eapply rtc_l; [by apply (link_reads _ _ _ _ _ 0)|].
  eapply rtc_l; [by apply (link_starts _ share f)|]. eapply rtc_l; [by apply (agent_reads _ _ _ _ _ true)|].
  apply rtc_once. by apply (agent_acts (Starting p) (Following share f) [] [] (OnStarted (Ok tt)) _ []).
Qed.

Lemma share_finishes (share : WireConfig) (t wait : Z) p f (elapsed : Z) (live : WireSnapshot) (r : WireResult) :
  next_wait share t = Some wait -> accept_phase env source_ips share t = Ok p -> pd_start_timeout p = t ->
  rtc channel_step (mkChannel (RunningPhase p false false) (Following share f) [] [])
    (mkChannel (AwaitPrepare wait) (Following share f) [] [MSnapshot elapsed live []; MResult r]).
Proof.
  intros Hw Hp Ht. eapply rtc_l; [by apply (agent_acts _ _ _ _ (OnRunEnd (Ok tt)))|]. apply rtc_once.
  apply (agent_acts (Flushing p) (Following share f) [] [] (OnFinished elapsed live r 2) (AwaitPrepare wait)
           [MSnapshot elapsed live []; MResult r]); [done|].
  cbn [agent_step send_result]. by rewrite Ht, (accept_phase_wire _ _ _ Hp), Hw.
Qed.
Lemma result_arrives (share : WireConfig) f a elapsed live r :
  rtc channel_step (mkChannel a (Following share f) [] [MSnapshot elapsed live []; MResult r]) (mkChannel a LinkIdle [] []).
Proof. eapply rtc_l; [by apply (link_reads _ _ _ _ _ 0)|]. apply rtc_once. by apply (link_reads _ _ _ _ _ 0). Qed.

(** *** The properties of the exchange *)

(** The phase the agent runs, if it runs one. *)
Definition agent_runs (a : AgentState) : option AcceptedPhase :=
  match a with Starting p | RunningPhase p _ _ | Flushing p => Some p | _ => None end.

(** C10. Between a coordinator and an agent of one protocol version no message
    ever comes out of turn, however sends, reads, timeouts, stops, token
    refreshes and losses are ordered: no test ends and no link is given up
    because of a message that was not expected; an agent that runs a phase
    runs the share its link sent it, unless the link is gone; while the link
    follows, the agent holds that share, has sent its result or has ended;
    and between phases nothing is in flight to the coordinator, so no result
    is taken for one of another phase. *)
Theorem control_never_surprised (c : Channel) (Hc : reachable c) :
  (forall why, cn_agent c = TestEnded why -> in_order why) /\
  (forall why, cn_link c = LinkLost why -> in_turn why) /\
  (forall p, agent_runs (cn_agent c) = Some p ->
     (exists f, cn_link c = Following (pd_wire p) f) \/ exists why, cn_link c = LinkLost why) /\
  (forall share f, cn_link c = Following share f ->
     match cn_agent c with
     | AwaitStart p | Starting p | RunningPhase p _ _ | Flushing p => pd_wire p = share
     | AwaitPrepare _ => exists r, MResult r ∈ cn_up c
     | TestEnded _ => True
     | _ => False
     end) /\
  (cn_link c = LinkIdle -> cn_up c = []).
Proof.
  apply inv_reachable in Hc. destruct c as [a l down up]. unfold channel_inv in Hc.
  cbn [cn_agent cn_link cn_down cn_up] in *. split_and!.
  - intros why ->. destruct l; try done; by destruct Hc as [? ?].
  - intros why ->. by destruct Hc.
  - intros p Hp. destruct a; try done; injection Hp as ->; destruct l; try done; destruct_and?; subst; eauto.
  - intros share f ->. destruct a; try done; destruct_and?; subst; eauto.
    match goal with Hup : exists t r, _ |- _ => destruct Hup as (t & r & _ & ->) end.
    exists r. apply elem_of_app. right. by apply list_elem_of_singleton.
  - intros ->. destruct a; try done; by destruct Hc.
Qed.

(** Every share an agent accepts can be run: from an idle link and an
    agent waiting for a phase there is an exchange in which the agent runs
    that share, and another in which it sends whatever it measured and the
    coordinator has that result, after which both are ready for the next
    phase. *)
Theorem accepted_share_returns (w : Z) (share : WireConfig) (t wait : Z) (p : AcceptedPhase) (elapsed : Z)
    (live : WireSnapshot) (r : WireResult) (f : FollowState)
    (Hw : next_wait share t = Some wait) (Hp : accept_phase env source_ips share t = Ok p) :
  rtc channel_step greeted (resting SETUP_TIMEOUT) /\
  rtc channel_step (resting w) (mkChannel (RunningPhase p false false) (Following share f) [] []) /\
  rtc channel_step (mkChannel (RunningPhase p false false) (Following share f) [] [])
    (mkChannel (AwaitPrepare wait) (Following share f) [] [MSnapshot elapsed live []; MResult r]) /\
  rtc channel_step (mkChannel (AwaitPrepare wait) (Following share f) [] [MSnapshot elapsed live []; MResult r]) (resting wait).
Proof.
  split_and!; [apply greeting_ends|by eapply share_starts| |apply result_arrives].
  by eapply share_finishes; [..|eapply accept_phase_timeout].
Qed.
End System.

(** The second agent's share of a run of three, over one channel. *)
Module SampleChannel.
#[local] Existing Instance Sample.no_format.
#[local] Existing Instance PlainLibs.plain_libs.

Definition share : option WireConfig := match SampleShare.shares with Ok shares => shares !! 1%nat | Err _ => None end.
Definition own : Z * string := (PROTOCOL_VERSION, CARGO_PKG_VERSION).
Definition accepted : option (result AcceptedPhase AgentEnd) :=
  w ← share; Some (accept_phase SampleShare.agent_env [] w (from_secs 30)).
(** What the agent measured. *)
Definition measured : WireResult :=
  WireResult_new false (add_workers two_recorders [sample_worker 0 3] no_totals) sample_meta TimeSeries_default ∅.
Definition follow : FollowState (H := ClassHistogram) := mkFollowState AgentLive_default (from_secs 40) false true [].
(** An agent of another build. *)
Definition older : Z * string := (3, "0.2.3"%string).
End SampleChannel.
#[local] Existing Instance Sample.no_format.
#[local] Existing Instance PlainLibs.plain_libs.

Lemma share_accepted : exists w p, SampleChannel.share = Some w /\
  accept_phase SampleShare.agent_env [] w (from_secs 30) = Ok p /\ next_wait w (from_secs 30) <> None.
Proof.
  destruct (ok_exists SampleChannel.accepted) as [p E]; [vm_compute; reflexivity|].
  unfold SampleChannel.accepted in E. destruct SampleChannel.share as [w|] eqn:Ew; [|discriminate].
  injection E as E. exists w, p. split; [reflexivity|]. split; [exact E|].
  assert (match SampleChannel.share with Some w => next_wait w (from_secs 30) <> None | None => True end) as Hw
    by (vm_compute; discriminate).
  rewrite Ew in Hw. exact Hw.
Qed.

Lemma control_never_surprised_witness : exists c p,
  reachable (H := ClassHistogram) "" SampleShare.agent_env [] SampleChannel.own SampleChannel.own 0 c /\
  cn_agent c = RunningPhase p false false /\
  ((exists f, cn_link c = Following (pd_wire p) f) \/ exists why, cn_link c = LinkLost why).
Proof.
  destruct share_accepted as (w & p & _ & Hp & Hw). destruct (next_wait w (from_secs 30)) as [wait|] eqn:Hwait; [|contradiction].
  assert (reachable (H := ClassHistogram) "" SampleShare.agent_env [] SampleChannel.own SampleChannel.own 0
    (mkChannel (RunningPhase p false false) (Following w SampleChannel.follow) [] [])) as Hr.
  { unfold reachable. etransitivity; [apply greeting_ends; reflexivity|]. eapply share_starts; eassumption. }
  eexists _, p. split; [exact Hr|]. split; [reflexivity|].
  destruct (control_never_surprised "" SampleShare.agent_env [] SampleChannel.own SampleChannel.own 0 eq_refl _ Hr)
    as (_ & _ & Hruns & _).
  exact (Hruns p eq_refl).
Defined.

Lemma accepted_share_returns_witness : exists w p wait,
  accept_phase SampleShare.agent_env [] w (from_secs 30) = Ok p /\
  let sent := mkChannel (AwaitPrepare wait) (Following w SampleChannel.follow) []
    [MSnapshot 1000 WireSnapshot_default []; MResult SampleChannel.measured] in
  rtc (channel_step (H := ClassHistogram) "" SampleShare.agent_env [] SampleChannel.own SampleChannel.own 0)
    (mkChannel (RunningPhase p false false) (Following w SampleChannel.follow) [] []) sent.
Proof.
  destruct share_accepted as (w & p & _ & Hp & Hw). destruct (next_wait w (from_secs 30)) as [wait|] eqn:Hwait; [|contradiction].
  destruct (accepted_share_returns "" SampleShare.agent_env [] SampleChannel.own SampleChannel.own 0 eq_refl SETUP_TIMEOUT w
    (from_secs 30) wait p 1000 WireSnapshot_default SampleChannel.measured SampleChannel.follow Hwait Hp) as (_ & _ & Hf & _).
  exists w, p, wait. exact (conj Hp Hf).
Defined.

Lemma older_mismatch : exists text, check_protocol SampleChannel.older PROTOCOL_VERSION CARGO_PKG_VERSION = Err text.
Proof. unfold check_protocol. cbn. by eexists. Qed.

Lemma other_protocols_refused_witness : exists c text,
  reachable (H := ClassHistogram) "" SampleShare.agent_env [] SampleChannel.older SampleChannel.own 0 c /\
  cn_link c = LinkLost (Refused text) /\
  check_protocol SampleChannel.older PROTOCOL_VERSION CARGO_PKG_VERSION = Err text.
Proof.
  destruct older_mismatch as [text Htext].
  pose proof (refusal_arrives (H := ClassHistogram) "" SampleShare.agent_env [] SampleChannel.older SampleChannel.own 0
    text Htext) as Hr.
  destruct (other_protocols_refused "" SampleShare.agent_env [] SampleChannel.older SampleChannel.own 0 _ ltac:(discriminate) Hr)
    as (t & Ht & _ & Hl).
  eexists _, text. split; [exact Hr|]. split; [reflexivity|]. cbn [cn_link] in Hl. rewrite Hl. exact Ht.
Defined.
