(* ===== verification/Capture.v ===== *)
(** * Recording frames (src/src/capture.rs)

    Sessions hand records to one writer thread over a bounded queue, under a
    limit that many threads claim slots of at once.  [record] is here twice:
    as one function, and as the atomic steps in which threads interleave.
    The writer's file is a [BufWriter] over a file that may run out of room;
    [pieces] is how serde_json writes a value. *)

From Stdlib Require Import ZArith Lia Ascii String.
From stdpp Require Import base tactics strings numbers option gmap list relations.
From S2P Require Import Prelude RustStd Str Base64 Summaries Wire Control.

Local Open Scope Z_scope.
Local Open Scope rust_scope.

Definition FORMAT_VERSION : Z := 1.
Definition QUEUE_CAPACITY : Z := 64 * 1024.
Definition FORWARD_BATCH : Z := 1024.

(** ** Records *)

Inductive Dir := Sent | Recv.
Definition dir_str (d : Dir) : string := match d with Sent => "sent" | Recv => "recv" end.

Inductive FrameEvent :=
| EvOpen
| EvText (text : string)
| EvBinary (bytes : list Z)
| EvClose (frame : option CloseFrame).

Record CaptureRecord := mkCaptureRecord { cr_t_us : Z; cr_worker : Z; cr_dir : Dir; cr_event : FrameEvent }.

(** [observe]: which frames are recorded. *)
Definition frame_event (msg : Message) : option FrameEvent :=
  match msg with
  | Text text => Some (EvText text)
  | Binary bytes => Some (EvBinary bytes)
  | Close frame => Some (EvClose frame)
  | Ping _ | Pong _ | Frame _ => None
  end.

(** [Line::new] with [wire_record]: the fields of one line. *)
Definition wire_record (r : CaptureRecord) : WireRecord :=
  let '(kind, len, code, data) :=
    match cr_event r with
    | EvOpen => ("open", 0, None, None)
    | EvText text => ("text", Z.of_nat (String.length text), None, Some text)
    | EvBinary bytes => ("binary", Z.of_nat (length bytes), None, Some (string_of_bytes (base64_encode bytes)))
    | EvClose None => ("close", 0, None, None)
    | EvClose (Some frame) =>
        ("close", 2 + Z.of_nat (String.length (cf_reason frame)), Some (cf_code frame), Some (cf_reason frame))
    end%string in
  mkWireRecord (cr_t_us r) (cr_worker r) (dir_str (cr_dir r)) kind len code data.

(** ** The queue and its limit *)

(** [Shared]: the channel's queue, whether its receiver is alive, and the
    counters. *)
Record CaptureShared := mkCaptureShared {
  cs_queue : list CaptureRecord;
  cs_capacity : Z;
  cs_open : bool;
  cs_start : Z;
  cs_limit : Z;
  cs_claimed : Z;
  cs_dropped : Z;
}.
#[export] Instance CaptureShared_eta : Settable CaptureShared := fun s =>
  mkCaptureShared (cs_queue s) (cs_capacity s) (cs_open s) (cs_start s) (cs_limit s) (cs_claimed s) (cs_dropped s).

(** A limit of 0 is none. *)
Definition effective_limit (limit : Z) : Z := if limit =? 0 then u64_max else limit.
Definition capture_shared (start limit : Z) : CaptureShared := mkCaptureShared [] QUEUE_CAPACITY true start limit 0 0.

(** [try_send]: [None] when the queue is full or its receiver gone. *)
Definition try_send (r : CaptureRecord) (s : CaptureShared) : option CaptureShared :=
  if cs_open s && (Z.of_nat (length (cs_queue s)) <? cs_capacity s)
  then Some (s <| cs_queue ::= fun q => q ++ [r] |>) else None.

Definition new_record (now worker : Z) (dir : Dir) (event : FrameEvent) (s : CaptureShared) : CaptureRecord :=
  mkCaptureRecord (Z.min (as_micros (saturating_duration_since now (cs_start s))) u64_max) worker dir event.

(** [CaptureHandle::record], alone: the shared state and the session's
    count of drops. *)
Definition capture_record (now worker : Z) (dir : Dir) (event : FrameEvent) (dropped : Z) (s : CaptureShared)
  : CaptureShared * Z :=
  let limited := negb (cs_limit s =? u64_max) in
  if limited && (cs_limit s <=? cs_claimed s) then (s, dropped +u 1)
  else
    let s := if limited then s <| cs_claimed ::= fun n => n +u 1 |> else s in
    match try_send (new_record now worker dir event s) s with
    | Some s => (s, dropped)
    | None => (if limited then s <| cs_claimed ::= fun n => n -u 1 |> else s, dropped +u 1)
    end.

(** The same, one atomic access at a time: the load, [fetch_add], the send
    and [fetch_sub]. *)
Inductive Recording :=
| Observed (dir : Dir) (event : FrameEvent)
| UnderLimit (dir : Dir) (event : FrameEvent)
| Claimed (dir : Dir) (event : FrameEvent)
| Undoing
| Settled (queued : bool).

Definition record_step (now worker : Z) (s : CaptureShared) (r : Recording) : CaptureShared * Recording :=
  let limited := negb (cs_limit s =? u64_max) in
  match r with
  | Observed dir event =>
      (s, if limited then if cs_limit s <=? cs_claimed s then Settled false else UnderLimit dir event
          else Claimed dir event)
  | UnderLimit dir event =>
      (s <| cs_claimed ::= fun n => n +u 1 |>, if cs_limit s <=? cs_claimed s then Settled false else Claimed dir event)
  | Claimed dir event =>
      match try_send (new_record now worker dir event s) s with
      | Some s => (s, Settled true)
      | None => (s, if limited then Undoing else Settled false)
      end
  | Undoing => (s <| cs_claimed ::= fun n => n -u 1 |>, Settled false)
  | Settled queued => (s, Settled queued)
  end.

(** A session's stream: the record it is making, if any. *)
Record CaptureStream := mkCaptureStream { st_worker : Z; st_dropped : Z; st_doing : option Recording }.
#[export] Instance CaptureStream_eta : Settable CaptureStream := fun t => mkCaptureStream (st_worker t) (st_dropped t) (st_doing t).

(** [open] records its event; [observe] records a frame. *)
Definition stream_open (worker : Z) : CaptureStream := mkCaptureStream worker 0 (Some (Observed Recv EvOpen)).
Definition stream_observe (dir : Dir) (msg : Message) (t : CaptureStream) : CaptureStream :=
  match frame_event msg with Some event => t <| st_doing := Some (Observed dir event) |> | None => t end.
Definition stream_settle (r : Recording) (t : CaptureStream) : CaptureStream :=
  match r with
  | Settled queued => t <| st_doing := None |> <| st_dropped ::= fun n => if queued then n else n +u 1 |>
  | _ => t <| st_doing := Some r |>
  end.

(** The whole capture: the streams, the records the writer has taken and
    how many events were observed. *)
Record CaptureRun := mkCaptureRun {
  cu_shared : CaptureShared;
  cu_streams : list CaptureStream;
  cu_taken : list CaptureRecord;
  cu_observed : Z;
}.

Inductive capture_step : CaptureRun -> CaptureRun -> Prop :=
| stream_opens s ts taken n worker :
    capture_step (mkCaptureRun s ts taken n) (mkCaptureRun s (ts ++ [stream_open worker]) taken (n + 1))
| stream_observes s ts taken n i t dir msg event :
    ts !! i = Some t -> st_doing t = None -> frame_event msg = Some event ->
    capture_step (mkCaptureRun s ts taken n) (mkCaptureRun s (<[i := stream_observe dir msg t]> ts) taken (n + 1))
| stream_records s ts taken n i t now r s' r' :
    ts !! i = Some t -> st_doing t = Some r -> record_step now (st_worker t) s r = (s', r') ->
    capture_step (mkCaptureRun s ts taken n) (mkCaptureRun s' (<[i := stream_settle r' t]> ts) taken n)
| stream_drops s ts taken n i t :
    ts !! i = Some t -> st_doing t = None ->
    capture_step (mkCaptureRun s ts taken n)
      (mkCaptureRun (s <| cs_dropped ::= fun d => d +u st_dropped t |>) (delete i ts) taken n)
| writer_takes s ts taken n r q :
    cs_queue s = r :: q ->
    capture_step (mkCaptureRun s ts taken n) (mkCaptureRun (s <| cs_queue := q |>) ts (taken ++ [r]) n).

Definition capture_begins (start limit : Z) : CaptureRun := mkCaptureRun (capture_shared start limit) [] [] 0.

(** *** Alone, the steps are the function *)

Definition settle (now worker : Z) (x : CaptureShared * Recording) : CaptureShared * Recording :=
  record_step now worker x.1 x.2.
Definition record_alone (now worker : Z) (dir : Dir) (event : FrameEvent) (s : CaptureShared) : CaptureShared * Recording :=
  settle now worker (settle now worker (settle now worker (settle now worker (s, Observed dir event)))).

Lemma record_alone_is_record now worker dir event dropped s :
  exists queued, record_alone now worker dir event s = ((capture_record now worker dir event dropped s).1, Settled queued) /\
    (capture_record now worker dir event dropped s).2 = (if queued then dropped else dropped +u 1).
Proof.
  unfold record_alone, settle, capture_record. cbn [record_step fst snd].
  destruct (negb (cs_limit s =? u64_max)) eqn:El; cbn [andb].
  - destruct (cs_limit s <=? cs_claimed s) eqn:Ec; [by exists false|].
    cbn [record_step cs_limit set_field]. cbn [fst snd record_step]. rewrite Ec. cbn [fst snd record_step].
    change (new_record now worker dir event (s <| cs_claimed ::= fun n => n +u 1 |>)) with (new_record now worker dir event s).
    cbn [cs_limit]. destruct (try_send _ _) as [s'|]; cbn [record_step fst snd cs_limit]; [by exists true|].
    rewrite El. by exists false.
  - cbn [record_step fst snd]. destruct (try_send _ _) as [s'|]; cbn [record_step fst snd]; [by exists true|].
    rewrite El. by exists false.
Qed.

(** ** What the counters mean *)

Definition holds_slot (t : CaptureStream) : Z :=
  match st_doing t with Some (Claimed _ _) | Some Undoing => 1 | _ => 0 end.
Definition is_recording (t : CaptureStream) : Z := match st_doing t with Some _ => 1 | None => 0 end.

Definition queued_records (u : CaptureRun) : list CaptureRecord := cu_taken u ++ cs_queue (cu_shared u).
Definition all_dropped (u : CaptureRun) : Z := sum_Z (st_dropped <$> cu_streams u) + cs_dropped (cu_shared u).
Definition slots_held (u : CaptureRun) : Z :=
  Z.of_nat (length (queued_records u)) + sum_Z (holds_slot <$> cu_streams u).

(** A stream never rests in [Settled]. *)
Definition stream_ok (t : CaptureStream) : Prop :=
  0 <= st_dropped t /\ match st_doing t with Some (Settled _) => False | _ => True end.

Record capture_inv (u : CaptureRun) : Prop := {
  ci_streams : Forall stream_ok (cu_streams u);
  ci_dropped : 0 <= cs_dropped (cu_shared u);
  ci_observed : cu_observed u =
    Z.of_nat (length (queued_records u)) + sum_Z (is_recording <$> cu_streams u) + all_dropped u;
  ci_claimed : cs_limit (cu_shared u) <> u64_max ->
    slots_held u <= cs_claimed (cu_shared u) <= slots_held u + all_dropped u /\ slots_held u <= Z.max 0 (cs_limit (cu_shared u));
}.

Lemma sum_Z_delete {A} (f : A -> Z) (l : list A) i x : l !! i = Some x ->
  sum_Z (f <$> delete i l) = sum_Z (f <$> l) - f x.
Proof.
  revert i. induction l as [|z l IH]; intros [|i] Hi; try done.
  - injection Hi as ->. cbn [delete list_delete]. rewrite fmap_cons, sum_Z_cons. lia.
  - cbn [delete list_delete]. change (list_delete i l) with (delete i l). rewrite !fmap_cons, !sum_Z_cons, IH by done. lia.
Qed.

Lemma sum_Z_ge {A} (f g : A -> Z) (l : list A) : Forall (fun x => f x <= g x) l -> sum_Z (f <$> l) <= sum_Z (g <$> l).
Proof. induction 1; [done|]. rewrite !fmap_cons, !sum_Z_cons. lia. Qed.
Lemma streams_sums (ts : list CaptureStream) : Forall stream_ok ts ->
  0 <= sum_Z (holds_slot <$> ts) <= sum_Z (is_recording <$> ts) /\ 0 <= sum_Z (st_dropped <$> ts).
Proof.
  intros Hok. split_and!.
  - apply sum_Z_nonneg, Forall_fmap, Forall_true. intros t. unfold compose, holds_slot. by destruct (st_doing t) as [[]|].
  - apply sum_Z_ge, Forall_true. intros t. unfold holds_slot, is_recording. by destruct (st_doing t) as [[]|].
  - apply sum_Z_nonneg, Forall_fmap. eapply Forall_impl; [exact Hok|]. by intros t [? _].
Qed.

(** Every stream's drops fit, since every drop is an observed event. *)
Lemma drops_fit s ts taken n i t : capture_inv (mkCaptureRun s ts taken n) -> n < 2 ^ 64 -> ts !! i = Some t ->
  st_dropped t + cs_dropped s < 2 ^ 64 /\ (st_doing t <> None -> st_dropped t + 1 < 2 ^ 64).
Proof.
  intros [Hts Hd Ho _] Hn Hi. cbn [cu_streams cu_shared cu_observed] in *. unfold all_dropped in Ho. cbn [cu_streams cu_shared] in Ho.
  pose proof (sum_Z_delete st_dropped ts i t Hi) as Hdel. pose proof (sum_Z_delete is_recording ts i t Hi) as Hrec.
  pose proof (streams_sums (delete i ts) (Forall_delete _ _ _ Hts)) as (Hh & Hs).
  unfold is_recording at 3 in Hrec. destruct (st_doing t); split; intros; lia || done.
Qed.

Lemma inv_opens s ts taken n worker :
  capture_inv (mkCaptureRun s ts taken n) -> capture_inv (mkCaptureRun s (ts ++ [stream_open worker]) taken (n + 1)).
Proof.
  intros [Hts Hd Ho Hc]. unfold all_dropped, slots_held in *. cbn [cu_streams cu_shared cu_observed cu_taken] in *.
  split; unfold all_dropped, slots_held; cbn [cu_streams cu_shared cu_observed cu_taken];
    rewrite ?fmap_app, ?sum_Z_app; unfold queued_records in *; cbn [cu_shared cu_taken fmap list_fmap sum_Z foldr] in *.
  - apply Forall_app. split; [done|]. by repeat constructor.
  - done.
  - unfold is_recording at 2. cbn [stream_open st_doing st_dropped]. lia.
  - unfold holds_slot at 2 4 6. cbn [stream_open st_doing st_dropped]. intros Hl. specialize (Hc Hl). lia.
Qed.

(** A stream that changes, by what it holds, records and has dropped. *)
Lemma inv_updates s s' ts taken n n' i t t' : ts !! i = Some t -> stream_ok t' ->
  0 <= cs_dropped s' -> cs_limit s' = cs_limit s ->
  n' - n = Z.of_nat (length (cs_queue s')) - Z.of_nat (length (cs_queue s)) + is_recording t' - is_recording t +
    (st_dropped t' - st_dropped t) + (cs_dropped s' - cs_dropped s) ->
  (cs_limit s <> u64_max ->
     let held := slots_held (mkCaptureRun s ts taken n) in
     let dh := Z.of_nat (length (cs_queue s')) - Z.of_nat (length (cs_queue s)) + holds_slot t' - holds_slot t in
     held + dh <= cs_claimed s' /\
     cs_claimed s' - cs_claimed s <= dh + (st_dropped t' - st_dropped t) + (cs_dropped s' - cs_dropped s) /\
     held + dh <= Z.max 0 (cs_limit s)) ->
  capture_inv (mkCaptureRun s ts taken n) -> capture_inv (mkCaptureRun s' (<[i := t']> ts) taken n').
Proof.
  intros Hi Ht' Hd' Hl Hn Hslot [Hts Hd Ho Hc]. unfold all_dropped, slots_held, queued_records in *.
  cbn [cu_streams cu_shared cu_observed cu_taken] in *.
  split; unfold all_dropped, slots_held, queued_records; cbn [cu_streams cu_shared cu_observed cu_taken];
    rewrite ?length_app, ?(sum_Z_insert _ _ _ _ _ Hi) in *.
  - by apply Forall_insert.
  - done.
  - lia.
  - rewrite Hl. intros Hne. specialize (Hc Hne). specialize (Hslot Hne). lia.
Qed.

Lemma inv_observes s ts taken n i t dir msg event : ts !! i = Some t -> st_doing t = None -> frame_event msg = Some event ->
  capture_inv (mkCaptureRun s ts taken n) ->
  capture_inv (mkCaptureRun s (<[i := stream_observe dir msg t]> ts) taken (n + 1)).
Proof.
  intros Hi Ht He Hinv. assert (stream_ok t) as [H0 _] by (destruct Hinv as [Hts _ _ _]; by eapply Forall_lookup_1 in Hts).
  unfold stream_observe. rewrite He. eapply inv_updates; try done.
  - by destruct Hinv.
  - unfold is_recording. cbn. rewrite Ht. lia.
  - intros Hne. cbn zeta. pose proof (ci_claimed _ Hinv Hne) as Hc. unfold holds_slot. rewrite Ht. cbn in *. lia.
Qed.

Lemma inv_drops s ts taken n i t : ts !! i = Some t -> st_doing t = None -> n < 2 ^ 64 ->
  capture_inv (mkCaptureRun s ts taken n) ->
  capture_inv (mkCaptureRun (s <| cs_dropped ::= fun d => d +u st_dropped t |>) (delete i ts) taken n).
Proof.
  intros Hi Ht Hn Hinv. pose proof (drops_fit _ _ _ _ _ _ Hinv Hn Hi) as [Hfit _]. destruct Hinv as [Hts Hd Ho Hc].
  assert (stream_ok t) as [Ht0 _] by by eapply Forall_lookup_1 in Hts.
  unfold all_dropped, slots_held, queued_records in *. cbn [cu_streams cu_shared cu_observed cu_taken] in *.
  assert (cs_dropped s +u st_dropped t = cs_dropped s + st_dropped t) as Hadd by (apply u64_add_id; lia).
  split; unfold all_dropped, slots_held, queued_records; cbn [cu_streams cu_shared cu_observed cu_taken cs_dropped cs_queue
    cs_claimed cs_limit set_field]; rewrite ?(sum_Z_delete _ _ _ _ Hi); cbn; rewrite ?Hadd.
  - by apply Forall_delete.
  - lia.
  - unfold is_recording at 2. rewrite Ht. lia.
  - intros Hne. specialize (Hc Hne). unfold holds_slot at 2 4 6. rewrite Ht. lia.
Qed.

Lemma inv_takes s ts taken n r q : cs_queue s = r :: q -> capture_inv (mkCaptureRun s ts taken n) ->
  capture_inv (mkCaptureRun (s <| cs_queue := q |>) ts (taken ++ [r]) n).
Proof.
  intros Hq [Hts Hd Ho Hc]. unfold all_dropped, slots_held, queued_records in *.
  cbn [cu_streams cu_shared cu_observed cu_taken] in *. rewrite Hq in Ho, Hc.
  assert (length ((taken ++ [r]) ++ q) = length (taken ++ r :: q)) as Hlen by (by rewrite <-(assoc_L (++))).
  split; unfold all_dropped, slots_held, queued_records; cbn [cu_streams cu_shared cu_observed cu_taken cs_dropped cs_queue
    cs_claimed cs_limit set_field]; cbn; rewrite ?Hlen; done.
Qed.

Lemma claimed_fits s ts taken n i t : capture_inv (mkCaptureRun s ts taken n) -> n < 2 ^ 64 -> ts !! i = Some t ->
  cs_limit s <> u64_max -> holds_slot t <= slots_held (mkCaptureRun s ts taken n) <= cs_claimed s /\
    cs_claimed s < 2 ^ 64 /\ (is_recording t = 1 -> holds_slot t = 0 -> cs_claimed s + 1 < 2 ^ 64).
Proof.
  intros Hinv Hn Hi Hl. pose proof (ci_claimed _ Hinv Hl) as [Hc _]. destruct Hinv as [Hts Hd Ho _].
  pose proof (streams_sums (delete i ts) (Forall_delete _ _ _ Hts)) as (Hh & _). pose proof (streams_sums ts Hts) as (Hh0 & _).
  unfold slots_held in *. cbn [cu_streams cu_shared cu_observed cu_taken] in *.
  rewrite (sum_Z_delete _ _ _ _ Hi), (sum_Z_delete _ _ _ _ Hi) in Hh. split_and!; intros; lia.
Qed.

Lemma try_send_Some r s s' : try_send r s = Some s' ->
  cs_limit s' = cs_limit s /\ cs_claimed s' = cs_claimed s /\ cs_dropped s' = cs_dropped s /\ cs_queue s' = cs_queue s ++ [r].
Proof. unfold try_send. destruct (_ && _); [|done]. by intros [= <-]. Qed.

Ltac stream_facts t :=
  unfold holds_slot, is_recording, stream_ok; cbn;
  repeat match goal with E : st_doing t = _ |- _ => rewrite E | E : st_dropped t +u 1 = _ |- _ => rewrite E end; cbn; try done; try lia.
Ltac stream_moves t := eapply inv_updates; [done|..|done]; stream_facts t.

(** One atomic access. *)
Lemma inv_records s ts taken n i t now r s' r' : ts !! i = Some t -> st_doing t = Some r ->
  record_step now (st_worker t) s r = (s', r') -> n < 2 ^ 64 ->
  capture_inv (mkCaptureRun s ts taken n) -> capture_inv (mkCaptureRun s' (<[i := stream_settle r' t]> ts) taken n).
Proof.
  intros Hi Ht Hr Hn Hinv. pose proof (drops_fit _ _ _ _ _ _ Hinv Hn Hi) as [_ Hfit].
  specialize (Hfit ltac:(by rewrite Ht)).
  assert (stream_ok t) as [Ht0 Hset] by (destruct Hinv as [Hts _ _ _]; by eapply Forall_lookup_1 in Hts). rewrite Ht in Hset.
  assert (st_dropped t +u 1 = st_dropped t + 1) as Hadd by (apply u64_add_id; lia).
  pose proof (ci_dropped _ Hinv) as Hd. cbn [cu_shared] in Hd.
  assert (cs_limit s <> u64_max -> holds_slot t <= slots_held (mkCaptureRun s ts taken n) <= cs_claimed s /\
    (holds_slot t = 0 -> cs_claimed s +u 1 = cs_claimed s + 1) /\ (holds_slot t = 1 -> cs_claimed s -u 1 = cs_claimed s - 1) /\
    slots_held (mkCaptureRun s ts taken n) <= Z.max 0 (cs_limit s)) as Hfits.
  { intros Hl. destruct (claimed_fits _ _ _ _ _ _ Hinv Hn Hi Hl) as (Hh & Hc64 & Hc). pose proof (ci_claimed _ Hinv Hl) as [Hcl Hmax].
    split; [done|]. assert (is_recording t = 1) as Hrec by (unfold is_recording; by rewrite Ht). split_and!; [| |done].
    - intros H0. apply u64_add_id; [lia..|]. by apply Hc.
    - intros H1. apply wrap_id. unfold is_uint. lia. }
  clear Hn. destruct r as [dir event|dir event|dir event| |queued]; cbn [record_step] in Hr; try done;
    unfold holds_slot in Hfits; rewrite Ht in Hfits.
  - injection Hr as <- <-. destruct (Z.eqb_spec (cs_limit s) u64_max) as [El|El]; cbn [negb];
      [|destruct (Z.leb_spec (cs_limit s) (cs_claimed s))]; stream_moves t.
  - destruct (Z.leb_spec (cs_limit s) (cs_claimed s)) as [El|El]; injection Hr as <- <-; stream_moves t.
  - destruct (try_send _ s) as [s1|] eqn:Es.
    + injection Hr as <- <-. apply try_send_Some in Es as (E1 & E2 & E3 & E4).
      eapply inv_updates; [done|..|done]; rewrite ?E1, ?E2, ?E3, ?E4, ?length_app; stream_facts t.
    + injection Hr as <- <-. destruct (Z.eqb_spec (cs_limit s) u64_max) as [El|El]; cbn [negb]; stream_moves t.
  - injection Hr as <- <-. stream_moves t.
Qed.

Lemma observed_grows u u' : capture_step u u' -> cu_observed u <= cu_observed u'.
Proof. destruct 1; cbn; lia. Qed.
Lemma capture_inv_step u u' : capture_step u u' -> cu_observed u' < 2 ^ 64 -> capture_inv u -> capture_inv u'.
Proof. destruct 1; cbn [cu_observed]; eauto using inv_opens, inv_observes, inv_records, inv_drops, inv_takes. Qed.
Lemma capture_inv_begins start limit : capture_inv (capture_begins start limit).
Proof. split; cbn; [constructor|done|done|]. unfold slots_held, all_dropped. cbn. lia. Qed.
Lemma observed_grows_rtc u u' : rtc capture_step u u' -> cu_observed u <= cu_observed u'.
Proof. induction 1 as [|u1 u2 u3 Hs _ IH]; [done|]. apply observed_grows in Hs. lia. Qed.
Lemma capture_inv_rtc u u' : rtc capture_step u u' -> cu_observed u' < 2 ^ 64 -> capture_inv u -> capture_inv u'.
Proof.
  induction 1 as [|u1 u2 u3 Hs Hr IH]; [done|]. intros Hn Hinv. apply observed_grows_rtc in Hr as Hle.
  apply IH; [done|]. apply (capture_inv_step _ _ Hs); [lia|done].
Qed.

(** The limit does not change, and records are taken in queue order. *)
Lemma record_step_limit now worker s r s' r' : record_step now worker s r = (s', r') -> cs_limit s' = cs_limit s.
Proof.
  destruct r; cbn; try (by intros [= <- <-]). destruct (try_send _ _) as [s1|] eqn:E; intros [= <- <-]; [|done].
  by apply try_send_Some in E as (-> & _).
Qed.
Lemma limit_stays u u' : rtc capture_step u u' -> cs_limit (cu_shared u') = cs_limit (cu_shared u).
Proof.
  induction 1 as [|u1 u2 u3 Hs _ IH]; [done|]. rewrite IH. destruct Hs; try done. cbn. by eapply record_step_limit.
Qed.

(** ** The writer *)

(** A file that takes [fs_room] more bytes, if it is limited. *)
Record CaptureSink := mkCaptureSink { fs_bytes : string; fs_room : option Z }.
#[export] Instance CaptureSink_eta : Settable CaptureSink := fun f => mkCaptureSink (fs_bytes f) (fs_room f).
(** How many bytes it takes, and the file. *)
Definition sink_write (data : string) (f : CaptureSink) : nat * CaptureSink :=
  let n := match fs_room f with Some room => Nat.min (Z.to_nat room) (String.length data) | None => String.length data end in
  (n, f <| fs_bytes ::= fun b => (b +:+ substring 0 n data)%string |> <| fs_room ::= fun room => (fun r => r - Z.of_nat n) <$> room |>).

(** [BufWriter]: [write_all] fills the buffer, and writes it out when the
    data does not fit. *)
Record BufWriter := mkBufWriter { bw_buffer : string; bw_capacity : Z; bw_sink : CaptureSink }.
#[export] Instance BufWriter_eta : Settable BufWriter := fun w => mkBufWriter (bw_buffer w) (bw_capacity w) (bw_sink w).
Definition WRITER_BUFFER : Z := 256 * 1024.
Definition bw_flush (w : BufWriter) : bool * BufWriter :=
  let (n, sink) := sink_write (bw_buffer w) (bw_sink w) in
  (Nat.eqb n (String.length (bw_buffer w)),
   mkBufWriter (substring n (String.length (bw_buffer w)) (bw_buffer w)) (bw_capacity w) sink).
Definition bw_write_all (data : string) (w : BufWriter) : bool * BufWriter :=
  let fits w := Z.of_nat (String.length data) <? bw_capacity w - Z.of_nat (String.length (bw_buffer w)) in
  if fits w then (true, w <| bw_buffer ::= fun b => (b +:+ data)%string |>)
  else
    let (ok, w) := if Z.of_nat (String.length data) >? bw_capacity w - Z.of_nat (String.length (bw_buffer w)) then bw_flush w
                   else (true, w) in
    if negb ok then (false, w)
    else if bw_capacity w <=? Z.of_nat (String.length data) then
      let (n, sink) := sink_write data (bw_sink w) in (Nat.eqb n (String.length data), w <| bw_sink := sink |>)
    else (true, w <| bw_buffer ::= fun b => (b +:+ data)%string |>).

Definition newline : string := String (ascii_of_byte 10) EmptyString.
(** [write_line]: the pieces serde_json writes, and a line feed. *)
Fixpoint write_pieces (pieces : list string) (w : BufWriter) : bool * BufWriter :=
  match pieces with
  | [] => (true, w)
  | piece :: pieces => let (ok, w) := bw_write_all piece w in if ok then write_pieces pieces w else (false, w)
  end.
Definition write_line (pieces : list string) (w : BufWriter) : bool * BufWriter := write_pieces (pieces ++ [newline]) w.

Record WriterOutcome := mkWriterOutcome { wo_written : Z; wo_lost : Z; wo_error : bool }.
#[export] Instance WriterOutcome_eta : Settable WriterOutcome := fun o => mkWriterOutcome (wo_written o) (wo_lost o) (wo_error o).

(** One line of either writer's loop: nothing is written after an error. *)
Definition write_counted (pieces : list string) (x : WriterOutcome * BufWriter) : WriterOutcome * BufWriter :=
  let (o, w) := x in
  if wo_error o then (o <| wo_lost ::= fun n => n +u 1 |>, w)
  else let (ok, w) := write_line pieces w in
       (if ok then o <| wo_written ::= fun n => n +u 1 |> else o <| wo_lost ::= fun n => n +u 1 |> <| wo_error := true |>, w).

Definition flush_at_end (x : WriterOutcome * BufWriter) : WriterOutcome * BufWriter :=
  let (o, w) := x in
  if wo_error o then (o, w) else let (ok, w) := bw_flush w in (o <| wo_error := negb ok |>, w).

Section Writer.
(** What serde_json writes for the header and for the line of a record. *)
Context (header_pieces : list string) (line_pieces : WireRecord -> list string).

(** [write_records], of the records received before the end. *)
Definition write_records (file : CaptureSink) (records : list CaptureRecord) : WriterOutcome * BufWriter :=
  let (ok, w) := write_line header_pieces (mkBufWriter "" WRITER_BUFFER file) in
  flush_at_end (fold_left (fun x r => write_counted (line_pieces (wire_record r)) x) records (mkWriterOutcome 0 0 (negb ok), w)).

(** The file once the writer is dropped, which writes out what is left. *)
Definition closed_file (w : BufWriter) : CaptureSink := bw_sink (bw_flush w).2.

(** [RunningCapture::finish]. *)
Definition capture_finish (path : string) (limit : Z) (outcome : WriterOutcome) (s : CaptureShared) : CaptureSummary :=
  mkCaptureSummary path (wo_written outcome) (cs_dropped s +u wo_lost outcome) limit.

(** *** What is in the file *)

Definition line_text (pieces : list string) : string := String.concat "" pieces +:+ newline.
Definition capture_text (records : list CaptureRecord) : string :=
  line_text header_pieces +:+ String.concat "" ((fun r => line_text (line_pieces (wire_record r))) <$> records).

(** What was given to the writer and not lost. *)
Definition content (w : BufWriter) : string := fs_bytes (bw_sink w) +:+ bw_buffer w.

Lemma substring_all n s : (String.length s <= n)%nat -> substring 0 n s = s.
Proof. revert n. induction s as [|c s IH]; intros [|n] Hn; cbn in *; try done; [lia|]. by rewrite IH by lia. Qed.
Lemma substring_enough n m m' s : (String.length s <= m)%nat -> (String.length s <= m')%nat -> substring n m s = substring n m' s.
Proof.
  revert n m m'. induction s as [|c s IH]; intros [|n] m m' Hm Hm'; cbn [String.length] in *.
  - by rewrite !substring_all by (cbn; lia).
  - by destruct m, m'.
  - by rewrite !substring_all by (cbn; lia).
  - cbn. apply IH; lia.
Qed.
Lemma substring_split n s : (substring 0 n s +:+ substring n (String.length s) s)%string = s.
Proof.
  revert n. induction s as [|c s IH]; intros [|n]; cbn; try done; [by rewrite substring_all|].
  rewrite app_string_cons. f_equal. rewrite (substring_enough n (S (String.length s)) (String.length s)) by lia. apply IH.
Qed.
Lemma substring_end s : substring (String.length s) (String.length s) s = ""%string.
Proof.
  induction s as [|c s IH]; [done|]. cbn. by rewrite (substring_enough _ (S (String.length s)) (String.length s)) by lia.
Qed.

(** Whatever a write takes, nothing is reordered or written twice. *)
Definition begins (a b : string) : Prop := exists rest, b = (a +:+ rest)%string.
Lemma begins_refl a : begins a a.
Proof. exists ""%string. by rewrite app_string_nil_r. Qed.
Lemma begins_trans a b c : begins a b -> begins b c -> begins a c.
Proof. intros [x ->] [y ->]. exists (x +:+ y)%string. by rewrite app_string_assoc. Qed.
Lemma begins_app a b : begins a (a +:+ b)%string.
Proof. by exists b. Qed.
Lemma begins_app_l c a b : begins a b -> begins (c +:+ a) (c +:+ b).
Proof. intros [x ->]. exists x. by rewrite app_string_assoc. Qed.

Lemma flush_content w : content (bw_flush w).2 = content w /\ ((bw_flush w).1 = true -> bw_buffer (bw_flush w).2 = ""%string).
Proof.
  unfold bw_flush, content. destruct (sink_write _ _) as [n sink] eqn:E. unfold sink_write in E. injection E as En <-.
  cbn [fst snd bw_sink bw_buffer]. cbn. rewrite app_string_assoc, En. split; [by rewrite substring_split|].
  intros Hn%Nat.eqb_eq. rewrite Hn. apply substring_end.
Qed.

(** [write_all] of [data] appends it, or as much of it as there was room
    for. *)
Definition appends (data : string) (w : BufWriter) (x : bool * BufWriter) : Prop :=
  (if x.1 then content x.2 = (content w +:+ data)%string
   else begins (content w) (content x.2) /\ begins (content x.2) (content w +:+ data)).

Lemma string_length_0 s : String.length s = 0%nat -> s = ""%string.
Proof. by destruct s. Qed.

Lemma sink_appends data w : bw_buffer w = ""%string ->
  appends data w (let (n, sink) := sink_write data (bw_sink w) in (Nat.eqb n (String.length data), w <| bw_sink := sink |>)).
Proof.
  intros Hb. unfold appends, content, sink_write. cbn. rewrite Hb, !app_string_nil_r.
  destruct (Nat.eqb_spec (match fs_room (bw_sink w) with Some room => Nat.min (Z.to_nat room) (String.length data) | None => String.length data end)
    (String.length data)) as [->|Hn]; cbn.
  - by rewrite substring_all.
  - split; [apply begins_app|]. apply begins_app_l. eexists. symmetry. apply substring_split.
Qed.

Lemma write_all_appends data w : appends data w (bw_write_all data w).
Proof.
  unfold bw_write_all. destruct (_ <? _) eqn:Efit; [unfold appends, content; cbn; by rewrite app_string_assoc|].
  destruct (Z.of_nat (String.length data) >? _) eqn:Ebig.
  - destruct (flush_content w) as [Hc Hb]. destruct (bw_flush w) as [ok w'] eqn:Ef. cbn [fst snd] in *.
    destruct ok; cbn [negb]; [|unfold appends; cbn; rewrite Hc; split; [apply begins_refl|apply begins_app]].
    destruct (_ <=? _).
    + assert (appends data w' = appends data w) as <- by (unfold appends; by rewrite Hc). apply sink_appends. by apply Hb.
    + unfold appends. cbn. rewrite <-Hc. unfold content. cbn. by rewrite app_string_assoc.
  - cbn [negb]. destruct (_ <=? _) eqn:Ecap; [|unfold appends, content; cbn; by rewrite app_string_assoc].
    apply sink_appends, string_length_0. lia.
Qed.

Lemma write_pieces_appends pieces w : appends (String.concat "" pieces) w (write_pieces pieces w).
Proof.
  revert w. induction pieces as [|piece pieces IH]; intros w.
  - unfold appends. cbn. by rewrite app_string_nil_r.
  - pose proof (write_all_appends piece w) as Hp. cbn [write_pieces]. unfold appends in *.
    assert (String.concat "" (piece :: pieces) = (piece +:+ String.concat "" pieces)%string) as ->
      by (destruct pieces; cbn; by rewrite ?app_string_nil_r).
    destruct (bw_write_all piece w) as [[] w']; cbn [fst snd] in *.
    + specialize (IH w'). rewrite Hp, app_string_assoc in IH. destruct (write_pieces pieces w') as [[] w'']; [done|].
      cbn [fst snd] in *. destruct IH as [H1 H2]. split; [|done]. eapply begins_trans; [apply begins_app|exact H1].
    + destruct Hp as [H1 H2]. split; [done|]. eapply begins_trans; [exact H2|]. apply begins_app_l, begins_app.
Qed.

Lemma write_line_appends pieces w : appends (line_text pieces) w (write_line pieces w).
Proof.
  unfold write_line, line_text. pose proof (write_pieces_appends (pieces ++ [newline]) w) as Hw.
  assert (String.concat "" (pieces ++ [newline]) = (String.concat "" pieces +:+ newline)%string) as <-; [|done].
  clear. induction pieces as [|p pieces IH]; [done|].
  assert (forall l, String.concat "" (p :: l) = (p +:+ String.concat "" l)%string) as Hc
    by (intros [|q l]; cbn; by rewrite ?app_string_nil_r).
  cbn [app]. by rewrite !Hc, IH, app_string_assoc.
Qed.

(** The lines written so far, and the counts. *)
Record written_so_far (t : string) (n : Z) (x : WriterOutcome * BufWriter) : Prop := {
  ws_counts : 0 <= wo_written x.1 /\ 0 <= wo_lost x.1 /\ wo_written x.1 + wo_lost x.1 = n;
  ws_begins : begins (content x.2) t;
  ws_complete : wo_error x.1 = false -> content x.2 = t /\ wo_lost x.1 = 0;
}.

Lemma write_counted_written t n pieces x : n + 1 < 2 ^ 64 -> written_so_far t n x ->
  written_so_far (t +:+ line_text pieces) (n + 1) (write_counted pieces x).
Proof.
  destruct x as [o w]. intros Hn [Hc Hb He]. cbn [fst snd] in *. unfold write_counted.
  assert (wo_lost o +u 1 = wo_lost o + 1) as Hlost by (apply u64_add_id; lia).
  assert (wo_written o +u 1 = wo_written o + 1) as Hwritten by (apply u64_add_id; lia).
  destruct (wo_error o) eqn:Eo.
  - split; cbn; rewrite ?Hlost, ?Eo; [lia| |done]. eapply begins_trans; [exact Hb|apply begins_app].
  - destruct (He eq_refl) as [Ht H0]. pose proof (write_line_appends pieces w) as Hw. unfold appends in Hw.
    destruct (write_line _ w) as [[] w']; cbn [fst snd] in Hw; split; cbn; rewrite ?Hlost, ?Hwritten; try lia; try done.
    + rewrite Hw, Ht. apply begins_refl.
    + intros _. by rewrite Hw, Ht.
    + rewrite <-Ht. by destruct Hw.
Qed.

Lemma concat_texts r (records : list CaptureRecord) (f : CaptureRecord -> string) :
  String.concat "" (f <$> r :: records) = (f r +:+ String.concat "" (f <$> records))%string.
Proof. destruct records; cbn; by rewrite ?app_string_nil_r. Qed.

Lemma write_loop_written records t n x : n + Z.of_nat (length records) < 2 ^ 64 -> written_so_far t n x ->
  written_so_far (t +:+ String.concat "" ((fun r => line_text (line_pieces (wire_record r))) <$> records))
    (n + Z.of_nat (length records)) (fold_left (fun x r => write_counted (line_pieces (wire_record r)) x) records x).
Proof.
  revert t n x. induction records as [|r records IH]; intros t n x Hn Hx.
  - cbn. rewrite app_string_nil_r, Z.add_0_r. done.
  - cbn [fold_left length]. rewrite concat_texts, <-app_string_assoc. cbn [length] in Hn.
    replace (n + Z.of_nat (S (length records))) with (n + 1 + Z.of_nat (length records)) by lia.
    apply IH; [lia|]. apply write_counted_written; [|done]. lia.
Qed.

Lemma closed_begins w : begins (fs_bytes (closed_file w)) (content w).
Proof. unfold closed_file. destruct (flush_content w) as [<- _]. apply begins_app. Qed.
Lemma flushed_closed w : bw_buffer w = ""%string -> fs_bytes (closed_file w) = content w.
Proof.
  intros Hb. unfold closed_file, bw_flush, content. rewrite Hb. cbn. unfold sink_write. cbn.
  destruct (fs_room (bw_sink w)); cbn; by rewrite ?Nat.min_0_r, !app_string_nil_r.
Qed.

(** The end of either writer. *)
Lemma flush_written t n x o w : written_so_far t n x -> flush_at_end x = (o, w) ->
  0 <= wo_written o /\ 0 <= wo_lost o /\ wo_written o + wo_lost o = n /\ begins (fs_bytes (closed_file w)) t /\
  (wo_error o = false -> fs_bytes (closed_file w) = t /\ wo_lost o = 0).
Proof.
  destruct x as [o1 w1]. intros [Hc Hb He]. cbn [fst snd] in *. unfold flush_at_end. destruct (wo_error o1) eqn:Eo1.
  - intros [= <- <-]. split_and!; try lia; [eapply begins_trans; [apply closed_begins|done]|congruence..].
  - destruct (He eq_refl) as [Ht Hlost]. destruct (flush_content w1) as [Hcf Hbf]. destruct (bw_flush w1) as [okf w2].
    intros [= <- <-]. cbn [fst snd] in *. split_and!; try done; try (cbn; lia).
    + eapply begins_trans; [apply closed_begins|]. rewrite Hcf, Ht. apply begins_refl.
    + destruct okf; [|done]. intros _. split; [|done]. rewrite flushed_closed by auto. by rewrite Hcf.
Qed.

(** The writer before its first record. *)
Lemma header_written file ok w : fs_bytes file = ""%string ->
  write_line header_pieces (mkBufWriter "" WRITER_BUFFER file) = (ok, w) ->
  written_so_far (line_text header_pieces) 0 (mkWriterOutcome 0 0 (negb ok), w).
Proof.
  intros Hfile Hw. pose proof (write_line_appends header_pieces (mkBufWriter "" WRITER_BUFFER file)) as Hh.
  unfold appends in Hh. rewrite Hw in Hh. cbn [fst snd] in Hh.
  assert (content (mkBufWriter "" WRITER_BUFFER file) = ""%string) as H0 by (unfold content; cbn; by rewrite Hfile).
  rewrite H0, app_string_nil in Hh.
  split; cbn; [done|destruct ok; [rewrite Hh; apply begins_refl|by destruct Hh]|by destruct ok].
Qed.

Lemma write_records_spec file records o w : fs_bytes file = ""%string -> Z.of_nat (length records) < 2 ^ 64 ->
  write_records file records = (o, w) ->
  0 <= wo_written o /\ 0 <= wo_lost o /\ wo_written o + wo_lost o = Z.of_nat (length records) /\
  begins (fs_bytes (closed_file w)) (capture_text records) /\
  (wo_error o = false -> fs_bytes (closed_file w) = capture_text records /\ wo_lost o = 0).
Proof.
  intros Hfile Hn. unfold write_records. destruct (write_line _ _) as [ok w0] eqn:Ew. apply header_written in Ew; [|done].
  apply (write_loop_written records) in Ew; [|done]. by apply flush_written.
Qed.
End Writer.

(** *** Two places where a record is lost *)

(** Lines still in the buffer when the file is full were counted as
    written. *)
Lemma buffered_lines_count_as_written (r : CaptureRecord) :
  let (outcome, w) := write_records ["{}"%string] (fun _ => ["{}"%string]) (mkCaptureSink "" (Some 0)) [r; r] in
  capture_finish "c.jsonl" 0 outcome (capture_shared 0 0) = mkCaptureSummary "c.jsonl" 2 0 0 /\
  wo_error outcome = true /\ fs_bytes (closed_file w) = ""%string.
Proof. vm_compute. auto. Qed.

(** A thread that claims one slot too many never gives it back, so the slot
    of a record dropped for a full queue at that moment is lost. *)
Lemma racing_claims_use_up_a_slot (now a b : Z) (dir : Dir) (event : FrameEvent) (s : CaptureShared)
    (Hlimit : cs_limit s = cs_claimed s + 1) (Hu : is_u64 (cs_limit s + 1)) (Hc : is_u64 (cs_claimed s))
    (Hfull : cs_open s && (Z.of_nat (length (cs_queue s)) <? cs_capacity s) = false) :
  let (s1, a1) := record_step now a s (Observed dir event) in
  let (s2, b1) := record_step now b s1 (Observed dir event) in
  let (s3, a2) := record_step now a s2 a1 in
  let (s4, b2) := record_step now b s3 b1 in
  let (s5, a3) := record_step now a s4 a2 in
  let (s6, a4) := record_step now a s5 a3 in
  b2 = Settled false /\ a4 = Settled false /\ cs_queue s6 = cs_queue s /\ cs_claimed s6 = cs_limit s6 /\
  cs_claimed (capture_record now a dir event 0 s).1 = cs_claimed s.
Proof.
  assert ((cs_limit s =? u64_max) = false) as El by (apply Z.eqb_neq; unfold is_u64, is_uint, u64_max in *; lia).
  assert ((cs_limit s <=? cs_claimed s) = false) as Ec by (apply Z.leb_gt; lia).
  assert (cs_claimed s +u 1 = cs_limit s) as Ea by (rewrite Hlimit; apply wrap_id; unfold is_u64, is_uint in *; lia).
  assert (cs_limit s +u 1 -u 1 = cs_limit s) as Eb.
  { unfold u64_add. rewrite (wrap_id 64 (cs_limit s + 1)) by done. unfold u64_sub.
    replace (cs_limit s + 1 - 1) with (cs_limit s) by lia. apply wrap_id. unfold is_u64, is_uint in *. lia. }
  assert (cs_limit s -u 1 = cs_claimed s) as Ed by (rewrite Hlimit; unfold u64_sub; replace (cs_claimed s + 1 - 1) with (cs_claimed s) by lia; by apply wrap_id).
  unfold capture_record, try_send. cbn [record_step]. rewrite El. cbn [negb andb]. rewrite Ec.
  cbn [record_step]. cbn. rewrite ?Ec, ?Ea, ?El. cbn. unfold try_send. cbn. rewrite ?Ea, ?Hfull. cbn.
  rewrite Z.leb_refl. cbn. rewrite ?Ea, ?Hfull. cbn. rewrite ?El, ?Ea, ?Eb, ?Ed. done.
Qed.

(** ** Forwarding from an agent *)

(** What the forwarding thread sees each time it polls its queue. *)
Inductive Polled := PolledRecord (r : CaptureRecord) | PolledEmpty.

(** The batch being filled, the batches sent, the records lost; [accepts]
    is whether the control channel takes the batch sent as the n-th. *)
Record Forwarding := mkForwarding { fw_batch : list WireRecord; fw_sent : list (list WireRecord); fw_tried : Z; fw_lost : Z }.
#[export] Instance Forwarding_eta : Settable Forwarding := fun f => mkForwarding (fw_batch f) (fw_sent f) (fw_tried f) (fw_lost f).

Section Forward.
Context (accepts : Z -> bool).

Definition send_batch (f : Forwarding) : Forwarding :=
  match fw_batch f with
  | [] => f
  | batch =>
      let f := f <| fw_batch := [] |> <| fw_tried ::= Z.succ |> in
      if accepts (Z.pred (fw_tried f)) then f <| fw_sent ::= fun sent => sent ++ [batch] |>
      else f <| fw_lost ::= fun n => n +u Z.of_nat (length batch) |>
  end.
Definition forward_poll (f : Forwarding) (p : Polled) : Forwarding :=
  match p with
  | PolledRecord r =>
      let f := f <| fw_batch ::= fun batch => batch ++ [wire_record r] |> in
      if FORWARD_BATCH <=? Z.of_nat (length (fw_batch f)) then send_batch f else f
  | PolledEmpty => send_batch f
  end.
(** [forward_records], over what it polls before the end. *)
Definition forward_records (polls : list Polled) : Forwarding :=
  send_batch (fold_left forward_poll polls (mkForwarding [] [] 0 0)).

(** [ForwardingCapture::finish] *)
Definition forwarding_finish (f : Forwarding) (s : CaptureShared) : Z := cs_dropped s +u fw_lost f.
End Forward.

(** ** The file of a distributed run *)

Record MergedBatch := mkMergedBatch { mb_agent : Z; mb_offset_us : Z; mb_records : list WireRecord }.
Record MergedLine := mkMergedLine { ml_agent : Z; ml_record : WireRecord }.

Definition merged_line (batch : MergedBatch) (record : WireRecord) : MergedLine :=
  mkMergedLine (mb_agent batch)
    (mkWireRecord (u64_saturating_add (we_t_us record) (mb_offset_us batch)) (we_worker record) (we_dir record)
       (we_kind record) (we_len record) (we_code record) (we_data record)).

Section Merged.
Context (header_pieces : list string) (line_pieces : MergedLine -> list string).

(** [None] is a limit of [u64::MAX]. *)
Definition merge_record (limit : Z) (batch : MergedBatch) (x : WriterOutcome * Z * BufWriter) (record : WireRecord)
  : WriterOutcome * Z * BufWriter :=
  let '(o, over_limit, w) := x in
  if limit <=? wo_written o +u wo_lost o then (o, over_limit +u 1, w)
  else
    let (o, w) := write_counted (line_pieces (merged_line batch record)) (o, w) in (o, over_limit, w).
Definition merge_batch (limit : Z) (x : WriterOutcome * Z * BufWriter) (batch : MergedBatch) : WriterOutcome * Z * BufWriter :=
  fold_left (merge_record limit batch) (mb_records batch) x.

(** [start_merged]'s thread, of the batches received before the end. *)
Definition merged_writer (limit : Z) (file : CaptureSink) (batches : list MergedBatch) : WriterOutcome * Z * BufWriter :=
  let (ok, w) := write_line header_pieces (mkBufWriter "" WRITER_BUFFER file) in
  let '(o, over_limit, w) := fold_left (merge_batch (effective_limit limit)) batches (mkWriterOutcome 0 0 (negb ok), 0, w) in
  let (o, w) := flush_at_end (o, w) in (o, over_limit, w).

(** [MergedCapture::finish] *)
Definition merged_finish (path : string) (limit agents_dropped : Z) (o : WriterOutcome) (over_limit : Z) : CaptureSummary :=
  mkCaptureSummary path (wo_written o) (agents_dropped +u wo_lost o +u over_limit) limit.
End Merged.

(** ** The coordinator's side *)

(** [CaptureState]; a running capture has its limit, the records queued and
    when it started. *)
Inductive CaptureState :=
| CaptureOff
| CapturePending (limit : Z)
| CaptureRunning (limit queued start : Z).

(** [MergedCapture::remaining] *)
Definition remaining (limit queued : Z) : option Z := if limit =? 0 then None else Some (Z.max 0 (limit - queued)).
(** What every share of a phase may queue; [None] without a capture. *)
Definition capture_limit (c : CaptureState) : option (option Z) :=
  match c with
  | CaptureOff => None
  | CapturePending limit => Some (if limit =? 0 then None else Some limit)
  | CaptureRunning limit queued _ => Some (remaining limit queued)
  end.
(** [Session::start_capture]: the state and the offset of the phase's
    records; [started] is whether the writer thread could be. *)
Definition start_capture (start : Z) (started : bool) (c : CaptureState) : CaptureState * result (option Z) string :=
  match c with
  | CaptureOff => (CaptureOff, Ok None)
  | CapturePending limit =>
      if started then (CaptureRunning limit 0 start, Ok (Some 0)) else (CaptureOff, Err "cannot start the capture"%string)
  | CaptureRunning limit queued begun =>
      (c, Ok (Some (Z.min (as_micros (saturating_duration_since start begun)) u64_max)))
  end.
(** A batch that an agent sent. *)
Definition queue_batch (index offset_us : Z) (records : list WireRecord) (c : CaptureState) : CaptureState * option MergedBatch :=
  match c with
  | CaptureRunning limit queued start =>
      (CaptureRunning limit (queued +u Z.of_nat (length records)) start, Some (mkMergedBatch index offset_us records))
  | _ => (c, None)
  end.

(** ** Nothing is lost uncounted between agents and file *)

Definition polled_records (polls : list Polled) : list CaptureRecord :=
  omap (fun p => match p with PolledRecord r => Some r | PolledEmpty => None end) polls.
Definition total_length {A} (ls : list (list A)) : Z := sum_Z ((fun l => Z.of_nat (length l)) <$> ls).
Lemma total_length_concat {A} (ls : list (list A)) : total_length ls = Z.of_nat (length (concat ls)).
Proof.
  unfold total_length. induction ls as [|l ls IH]; [done|]. rewrite fmap_cons, sum_Z_cons, IH. cbn [concat].
  rewrite length_app. lia.
Qed.

Record forward_inv (rs : list CaptureRecord) (f : Forwarding) : Prop := {
  fi_count : Z.of_nat (length (concat (fw_sent f))) + fw_lost f + Z.of_nat (length (fw_batch f)) = Z.of_nat (length rs);
  fi_lost : 0 <= fw_lost f;
  fi_order : concat (fw_sent f) ++ fw_batch f `sublist_of` (wire_record <$> rs);
  fi_batches : Forall (fun batch => batch <> [] /\ Z.of_nat (length batch) <= FORWARD_BATCH) (fw_sent f);
  fi_batch : Z.of_nat (length (fw_batch f)) <= FORWARD_BATCH;
}.

Section Forwarded.
Context (accepts : Z -> bool).

Lemma send_batch_inv rs f : Z.of_nat (length rs) < 2 ^ 64 -> forward_inv rs f ->
  forward_inv rs (send_batch accepts f) /\ fw_batch (send_batch accepts f) = [].
Proof.
  intros Hn [Hc Hl Ho Hb Hbatch]. unfold send_batch. destruct (fw_batch f) as [|x batch] eqn:Eb; [by split; [split|]; rewrite ?Eb|].
  cbn [fw_batch fw_sent fw_lost fw_tried set_field]. destruct (accepts _); split; try done; split; cbn [fw_batch fw_sent fw_lost fw_tried set_field]; cbn.
  - rewrite concat_app, length_app in *. cbn [concat length]. rewrite app_nil_r. cbn [length] in *. lia.
  - done.
  - rewrite concat_app. cbn [concat]. by rewrite !app_nil_r.
  - apply Forall_app. split; [done|]. repeat constructor; [done|]. exact Hbatch.
  - done.
  - rewrite u64_add_id by (cbn [length] in *; lia). cbn [length] in *. lia.
  - rewrite u64_add_id by (cbn [length] in *; lia). lia.
  - rewrite app_nil_r. etransitivity; [|exact Ho]. by apply sublist_inserts_r.
  - done.
  - done.
Qed.

Lemma forward_poll_inv rs f p : Z.of_nat (length rs) + 1 < 2 ^ 64 -> forward_inv rs f /\ Z.of_nat (length (fw_batch f)) < FORWARD_BATCH ->
  let rs' := rs ++ polled_records [p] in
  forward_inv rs' (forward_poll accepts f p) /\ Z.of_nat (length (fw_batch (forward_poll accepts f p))) < FORWARD_BATCH.
Proof.
  intros Hn [Hf Hlt]. destruct p as [r|]; cbn [polled_records omap list_omap forward_poll].
  - assert (forward_inv (rs ++ [r]) (f <| fw_batch ::= fun batch => batch ++ [wire_record r] |>)) as Hf'.
    { destruct Hf as [Hc Hl Ho Hb Hbatch]. split; cbn; rewrite ?length_app; cbn [length]; try done; try lia.
      rewrite fmap_app, (assoc_L (++)). by apply sublist_app. }
    destruct (Z.leb_spec FORWARD_BATCH (Z.of_nat (length (fw_batch (f <| fw_batch ::= fun batch => batch ++ [wire_record r] |>)))));
      [|done].
    destruct (send_batch_inv (rs ++ [r]) _ ltac:(rewrite length_app; cbn; lia) Hf') as [Hs ->]. done.
  - rewrite app_nil_r. destruct (send_batch_inv rs f ltac:(lia) Hf) as [Hs ->]. done.
Qed.

Lemma forward_polls_inv polls rs f : Z.of_nat (length rs) + Z.of_nat (length polls) < 2 ^ 64 ->
  forward_inv rs f /\ Z.of_nat (length (fw_batch f)) < FORWARD_BATCH ->
  forward_inv (rs ++ polled_records polls) (fold_left (forward_poll accepts) polls f).
Proof.
  revert rs f. induction polls as [|p polls IH]; intros rs f Hn Hf; [cbn; rewrite app_nil_r; by destruct Hf|].
  cbn [length] in Hn. assert (polled_records (p :: polls) = polled_records [p] ++ polled_records polls) as -> by (by destruct p).
  rewrite (assoc_L (++)). apply IH; [|apply forward_poll_inv; [lia|done]].
  rewrite length_app. assert (length (polled_records [p]) <= 1)%nat by (destruct p; cbn; lia). lia.
Qed.

(** Every record taken is sent once, in order, in batches that are not
    empty, or counted. *)
Lemma forward_records_spec polls : Z.of_nat (length polls) < 2 ^ 64 ->
  let f := forward_records accepts polls in
  Z.of_nat (length (concat (fw_sent f))) + fw_lost f = Z.of_nat (length (polled_records polls)) /\ 0 <= fw_lost f /\
  concat (fw_sent f) `sublist_of` (wire_record <$> polled_records polls) /\
  Forall (fun batch => batch <> [] /\ Z.of_nat (length batch) <= FORWARD_BATCH) (fw_sent f).
Proof.
  intros Hn. pose proof (forward_polls_inv polls [] (mkForwarding [] [] 0 0)) as Hinv. cbn [app length] in Hinv.
  assert (length (polled_records polls) <= length polls)%nat as Hle
    by (clear; unfold polled_records; induction polls as [|[r|] polls IH]; cbn in *; lia).
  destruct (send_batch_inv (polled_records polls) (fold_left (forward_poll accepts) polls (mkForwarding [] [] 0 0))) as [[Hc Hl Ho Hb _] Hnil].
  { lia. }
  { apply Hinv; [lia|]. split; [|done]. split; cbn; try done. }
  cbn zeta. unfold forward_records. rewrite Hnil in *. rewrite app_nil_r in Ho. cbn [length] in Hc. split_and!; try done. lia.
Qed.
End Forwarded.

(** A capture whose workers have stopped and whose queue is empty. *)
Definition capture_over (start limit : Z) (u : CaptureRun) : Prop :=
  rtc capture_step (capture_begins start limit) u /\ cu_streams u = [] /\ cs_queue (cu_shared u) = [].

Lemma capture_over_counts start limit u : capture_over start limit u -> cu_observed u < 2 ^ 64 ->
  cu_observed u = Z.of_nat (length (cu_taken u)) + cs_dropped (cu_shared u) /\ 0 <= cs_dropped (cu_shared u) /\
  (0 < limit < u64_max -> Z.of_nat (length (cu_taken u)) <= limit).
Proof.
  intros (Hr & Hts & Hq) Hn. pose proof (limit_stays _ _ Hr) as Hl.
  destruct (capture_inv_rtc _ _ Hr Hn (capture_inv_begins start limit)) as [_ Hd Ho Hc].
  unfold slots_held, all_dropped, queued_records in *. rewrite Hts, Hq, app_nil_r in *. cbn in Ho, Hc, Hl.
  split_and!; [lia|done|]. intros Hlim. rewrite Hl in Hc. specialize (Hc ltac:(lia)). lia.
Qed.

Section Accounted.
Context (header_pieces : list string) (line_pieces : MergedLine -> list string).

Definition merged_lines (batches : list MergedBatch) : list MergedLine :=
  concat ((fun b => merged_line b <$> mb_records b) <$> batches).
Definition merged_text (lines : list MergedLine) : string :=
  line_text header_pieces +:+ String.concat "" ((fun l => line_text (line_pieces l)) <$> lines).

(** After the lines [ls]: the file holds those within the limit. *)
Record merged_so_far (limit : Z) (ls : list MergedLine) (x : WriterOutcome * Z * BufWriter) : Prop := {
  mg_written : written_so_far (merged_text (take (Z.to_nat limit) ls)) (Z.min limit (Z.of_nat (length ls))) (x.1.1, x.2);
  mg_over : x.1.2 = Z.of_nat (length ls) - Z.min limit (Z.of_nat (length ls));
}.

Lemma concat_snoc (l : list string) s : String.concat "" (l ++ [s]) = (String.concat "" l +:+ s)%string.
Proof.
  induction l as [|a l IH]; [cbn; by rewrite app_string_nil|].
  assert (forall k, String.concat "" (a :: k) = (a +:+ String.concat "" k)%string) as Hc
    by (intros [|b k]; cbn; by rewrite ?app_string_nil_r).
  cbn [app]. by rewrite !Hc, IH, app_string_assoc.
Qed.

Lemma merge_record_so_far limit ls x batch r : 0 <= limit -> Z.of_nat (length ls) + 1 < 2 ^ 64 -> merged_so_far limit ls x ->
  merged_so_far limit (ls ++ [merged_line batch r]) (merge_record line_pieces limit batch x r).
Proof.
  intros Hl Hn [Hw Ho]. destruct x as [[o over] w]. cbn [fst snd] in *. unfold merge_record.
  pose proof (ws_counts _ _ _ Hw) as Hc. cbn [fst snd] in Hc.
  assert (wo_written o +u wo_lost o = wo_written o + wo_lost o) as Eadd by (apply u64_add_id; lia). rewrite Eadd.
  destruct (Z.leb_spec limit (wo_written o + wo_lost o)) as [Hle|Hlt].
  - assert (over +u 1 = over + 1) as Eo by (apply u64_add_id; lia). rewrite Eo.
    split; cbn [fst snd]; rewrite length_app; cbn [length]; [|lia].
    rewrite take_app_le by lia. replace (Z.min limit (Z.of_nat (length ls + 1))) with (Z.min limit (Z.of_nat (length ls))) by lia. done.
  - assert (Z.min limit (Z.of_nat (length ls)) + 1 < 2 ^ 64) as Hmin by lia.
    pose proof (write_counted_written _ _ (line_pieces (merged_line batch r)) _ Hmin Hw) as Hw'.
    destruct (write_counted _ _) as [o' w']. split; cbn [fst snd]; rewrite length_app; cbn [length]; [|lia].
    rewrite take_ge in Hw' by lia. rewrite take_ge by (rewrite length_app; cbn [length]; lia).
    replace (Z.min limit (Z.of_nat (length ls + 1))) with (Z.min limit (Z.of_nat (length ls)) + 1) by lia.
    unfold merged_text in *. rewrite fmap_app, list_fmap_singleton, concat_snoc, <-app_string_assoc. done.
Qed.

Lemma merge_batch_so_far limit batch rs ls x : 0 <= limit -> Z.of_nat (length ls) + Z.of_nat (length rs) < 2 ^ 64 ->
  merged_so_far limit ls x ->
  merged_so_far limit (ls ++ (merged_line batch <$> rs)) (fold_left (merge_record line_pieces limit batch) rs x).
Proof.
  revert ls x. induction rs as [|r rs IH]; intros ls x Hl Hn Hx; [by rewrite app_nil_r|].
  cbn [length fold_left] in *. rewrite fmap_cons. change (merged_line batch r :: (merged_line batch <$> rs))
    with ([merged_line batch r] ++ (merged_line batch <$> rs)). rewrite (assoc_L (++)).
  apply IH; [done|rewrite length_app; cbn [length]; lia|]. apply merge_record_so_far; [done|lia|done].
Qed.

Lemma merge_batches_so_far limit batches ls x : 0 <= limit -> Z.of_nat (length (ls ++ merged_lines batches)) < 2 ^ 64 ->
  merged_so_far limit ls x ->
  merged_so_far limit (ls ++ merged_lines batches) (fold_left (merge_batch line_pieces limit) batches x).
Proof.
  revert ls x. induction batches as [|b batches IH]; intros ls x Hl Hn Hx; [by rewrite app_nil_r|].
  unfold merged_lines in *. rewrite fmap_cons in *. cbn [concat fold_left] in *. rewrite (assoc_L (++)) in *.
  apply IH; [done|done|]. apply merge_batch_so_far; [done| |done]. rewrite !length_app, length_fmap in Hn. lia.
Qed.
End Accounted.

(** C11. On one machine every frame is accounted for: whatever the threads
    and the writer do in between, once the sessions are over and the queue is
    empty, the records written and dropped add up to the frames observed and
    connections opened, at most the limit is written, and the file is the
    beginning of the header and the records' lines in queue order - all of
    them when nothing failed. *)
Theorem capture_accounts_for_frames (header_pieces : list string) (line_pieces : WireRecord -> list string)
    (start limit : Z) (path : string) (file : CaptureSink) (u : CaptureRun) (o : WriterOutcome) (w : BufWriter)
    (Hu : capture_over start (effective_limit limit) u) (Hn : cu_observed u < 2 ^ 64) (Hlim : 0 <= limit < u64_max)
    (Hfile : fs_bytes file = ""%string) (Ho : write_records header_pieces line_pieces file (cu_taken u) = (o, w)) :
  let summary := capture_finish path limit o (cu_shared u) in
  ca_frames_written summary + ca_frames_dropped summary = cu_observed u /\
  (limit <> 0 -> ca_frames_written summary <= limit) /\
  begins (fs_bytes (closed_file w)) (capture_text header_pieces line_pieces (cu_taken u)) /\
  (wo_error o = false -> fs_bytes (closed_file w) = capture_text header_pieces line_pieces (cu_taken u) /\
     ca_frames_dropped summary = cs_dropped (cu_shared u)).
Proof.
  destruct (capture_over_counts _ _ _ Hu Hn) as (Hobs & Hd & Hmax).
  assert (Z.of_nat (length (cu_taken u)) < 2 ^ 64) as Htaken by lia.
  destruct (write_records_spec _ _ _ _ _ _ Hfile Htaken Ho) as (Hw0 & Hl0 & Hsum & Hb & He).
  cbn [ca_frames_written ca_frames_dropped capture_finish]. rewrite u64_add_id by lia.
  split_and!; [lia| |done|].
  - intros H0. unfold effective_limit in Hmax. destruct (Z.eqb_spec limit 0); [done|]. specialize (Hmax ltac:(lia)). lia.
  - intros Hok. destruct (He Hok) as [Hfb Hlost]. split; [done|]. lia.
Qed.

(** One agent's capture of a phase: the agent's index and the phase's offset
    on the coordinator ([start_capture]), its run, what its forwarding thread
    polled, and which batches the control channel took. *)
Record AgentCapture := mkAgentCapture {
  gc_index : Z; gc_offset : Z;
  gc_start : Z; gc_limit : Z; gc_run : CaptureRun; gc_polls : list Polled; gc_accepts : Z -> bool;
}.
Definition agent_forwards (g : AgentCapture) : Forwarding := forward_records (gc_accepts g) (gc_polls g).
Definition agent_dropped (g : AgentCapture) : Z := forwarding_finish (agent_forwards g) (cu_shared (gc_run g)).
Definition agent_capture_ok (g : AgentCapture) : Prop :=
  capture_over (gc_start g) (gc_limit g) (gc_run g) /\ polled_records (gc_polls g) = cu_taken (gc_run g) /\
  Z.of_nat (length (gc_polls g)) < 2 ^ 64.

(** The batches it sent, as the coordinator queues them. *)
Definition agent_batches (g : AgentCapture) : list MergedBatch :=
  omap (fun records => (queue_batch (gc_index g) (gc_offset g) records (CaptureRunning 0 0 0)).2) (fw_sent (agent_forwards g)).
Lemma agent_batches_records g : mb_records <$> agent_batches g = fw_sent (agent_forwards g).
Proof. unfold agent_batches. induction (fw_sent _) as [|rs l IH]; [done|]. cbn in *. by rewrite IH. Qed.

(** [l] is the line of a record of [batch]: the agent that saw it, the time
    since the capture began on the coordinator, and the record's fields. *)
Definition line_of (batch : MergedBatch) (r : WireRecord) (l : MergedLine) : Prop :=
  ml_agent l = mb_agent batch /\
  we_t_us (ml_record l) = Z.min u64_max (we_t_us r + mb_offset_us batch) /\
  we_worker (ml_record l) = we_worker r /\ we_dir (ml_record l) = we_dir r /\ we_kind (ml_record l) = we_kind r /\
  we_len (ml_record l) = we_len r /\ we_code (ml_record l) = we_code r /\ we_data (ml_record l) = we_data r.
(** The lines of the batches: one per record, in order. *)
Definition lines_of (batches : list MergedBatch) (lines : list MergedLine) : Prop :=
  Forall2 (fun x l => line_of x.1 x.2 l) (concat ((fun b => (fun r => (b, r)) <$> mb_records b) <$> batches)) lines.

Lemma merged_lines_of batches : lines_of batches (merged_lines batches).
Proof.
  unfold lines_of, merged_lines. induction batches as [|b batches IH]; [constructor|]. cbn [fmap list_fmap concat].
  apply Forall2_app; [|exact IH]. apply Forall2_fmap, Forall_Forall2_diag, Forall_true. intros r.
  unfold line_of. cbn. done.
Qed.

Lemma agent_capture_counts g : agent_capture_ok g -> cu_observed (gc_run g) < 2 ^ 64 ->
  cu_observed (gc_run g) = total_length (fw_sent (agent_forwards g)) + agent_dropped g /\ 0 <= agent_dropped g.
Proof.
  intros (Hu & Hp & Hpolls) Hn. destruct (capture_over_counts _ _ _ Hu Hn) as (Hobs & Hd & _).
  destruct (forward_records_spec (gc_accepts g) _ Hpolls) as (Hf & Hl & _). rewrite Hp in Hf. fold (agent_forwards g) in Hf, Hl.
  unfold agent_dropped, forwarding_finish. rewrite total_length_concat, u64_add_id by lia. lia.
Qed.

Lemma total_length_perm {A} (l k : list (list A)) : l ≡ₚ k -> total_length l = total_length k.
Proof. intros Hp. unfold total_length. by rewrite Hp. Qed.
Lemma length_merged_lines batches : Z.of_nat (length (merged_lines batches)) = total_length (mb_records <$> batches).
Proof.
  unfold merged_lines. rewrite <-total_length_concat. unfold total_length. f_equal. rewrite <-!list_fmap_compose.
  apply list_fmap_ext. intros _ b _. unfold compose. by rewrite length_fmap.
Qed.
Lemma total_length_app {A} (l k : list (list A)) : total_length (l ++ k) = total_length l + total_length k.
Proof. unfold total_length. by rewrite fmap_app, sum_Z_app. Qed.
Lemma sum_below (l : list Z) (n : Z) : Forall (fun x => 0 <= x) l -> sum_Z l < n -> Forall (fun x => x < n) l.
Proof.
  induction 1 as [|x l Hx Hl IH]; [constructor|]. rewrite sum_Z_cons. intros Hn. pose proof (sum_Z_nonneg _ Hl).
  constructor; [lia|]. apply IH. lia.
Qed.

Lemma agents_capture_counts gs : Forall agent_capture_ok gs -> Forall (fun g => cu_observed (gc_run g) < 2 ^ 64) gs ->
  sum_Z ((fun g => cu_observed (gc_run g)) <$> gs) =
    total_length (concat ((fun g => fw_sent (agent_forwards g)) <$> gs)) + sum_Z (agent_dropped <$> gs) /\
  Forall (fun n => 0 <= n) (agent_dropped <$> gs).
Proof.
  intros Hok Hn. induction Hok as [|g gs Hg _ IH]; [done|]. apply Forall_cons in Hn as [Hng Hn]. destruct (IH Hn) as [IHs IHd].
  destruct (agent_capture_counts g Hg Hng) as [Hs Hd]. rewrite !fmap_cons, !sum_Z_cons. cbn [concat].
  rewrite total_length_app. split; [lia|by constructor].
Qed.

Lemma observed_nonneg start limit u : capture_over start limit u -> 0 <= cu_observed u.
Proof. intros (Hr & _). by apply observed_grows_rtc in Hr. Qed.
Lemma fold_u64_add l n : Forall (fun x => 0 <= x) l -> 0 <= n -> n + sum_Z l < 2 ^ 64 -> fold_left u64_add l n = n + sum_Z l.
Proof.
  intros Hl. revert n. induction Hl as [|x l Hx Hl IH]; intros n Hn Hs; [cbn; lia|].
  rewrite sum_Z_cons in *. pose proof (sum_Z_nonneg _ Hl). cbn [fold_left]. rewrite u64_add_id, IH by lia. lia.
Qed.

(** What the agents observed: what arrived, what was lost on the way, and
    what they dropped themselves. *)
Lemma arrivals_counted gs batches lost : Forall agent_capture_ok gs ->
  sum_Z ((fun g => cu_observed (gc_run g)) <$> gs) < 2 ^ 64 ->
  batches ++ lost ≡ₚ concat (agent_batches <$> gs) ->
  sum_Z ((fun g => cu_observed (gc_run g)) <$> gs) =
    Z.of_nat (length (merged_lines batches)) + total_length (mb_records <$> lost) + sum_Z (agent_dropped <$> gs) /\
  Forall (fun n => 0 <= n) (agent_dropped <$> gs) /\ 0 <= total_length (mb_records <$> lost).
Proof.
  intros Hgs Hn Hbatches.
  assert (Forall (fun g => cu_observed (gc_run g) < 2 ^ 64) gs) as Hns.
  { enough (Forall (fun n => n < 2 ^ 64) ((fun g => cu_observed (gc_run g)) <$> gs)) as Hf by (by apply Forall_fmap in Hf).
    apply sum_below; [|done].
    apply Forall_fmap. eapply Forall_impl; [exact Hgs|]. intros g (Hu & _). by eapply observed_nonneg. }
  destruct (agents_capture_counts gs Hgs Hns) as [Hsum Hdrops].
  assert (mb_records <$> batches ++ lost ≡ₚ concat ((fun g => fw_sent (agent_forwards g)) <$> gs)) as Hp.
  { rewrite Hbatches. match goal with |- ?a ≡ₚ ?b => enough (a = b) as -> by done end. clear. induction gs as [|g gs IH]; [done|].
    rewrite !fmap_cons. cbn [concat]. by rewrite fmap_app, agent_batches_records, IH. }
  rewrite <-(total_length_perm _ _ Hp), fmap_app, total_length_app, <-length_merged_lines in Hsum.
  split; [lia|]. split; [done|]. rewrite total_length_concat. lia.
Qed.

Lemma effective_take {A} limit (l : list A) : Z.of_nat (length l) < 2 ^ 64 ->
  take (Z.to_nat (effective_limit limit)) l = if limit =? 0 then l else take (Z.to_nat limit) l.
Proof. intros Hl. unfold effective_limit. destruct (limit =? 0); [|done]. rewrite take_ge; [done|]. unfold u64_max. lia. Qed.

Lemma merged_writer_spec header_pieces line_pieces limit file batches o over_limit w : 0 <= limit < u64_max ->
  Z.of_nat (length (merged_lines batches)) < 2 ^ 64 -> fs_bytes file = ""%string ->
  merged_writer header_pieces line_pieces limit file batches = (o, over_limit, w) ->
  let n := Z.min (effective_limit limit) (Z.of_nat (length (merged_lines batches))) in
  let text := merged_text header_pieces line_pieces (take (Z.to_nat (effective_limit limit)) (merged_lines batches)) in
  0 <= wo_written o /\ 0 <= wo_lost o /\ wo_written o + wo_lost o = n /\
  over_limit = Z.of_nat (length (merged_lines batches)) - n /\
  begins (fs_bytes (closed_file w)) text /\
  (wo_error o = false -> fs_bytes (closed_file w) = text /\ wo_lost o = 0).
Proof.
  intros Hlim Hn Hfile Ho.
  unfold merged_writer in Ho. destruct (write_line _ _) as [ok w0] eqn:Ew. apply header_written in Ew; [|done].
  assert (0 <= effective_limit limit) as Heff by (unfold effective_limit; destruct (limit =? 0); [done|lia]).
  assert (merged_so_far header_pieces line_pieces (effective_limit limit) [] (mkWriterOutcome 0 0 (negb ok), 0, w0)) as H0.
  { split; cbn; rewrite Z.min_r by lia; [|done]. unfold merged_text. rewrite take_nil. cbn. by rewrite app_string_nil_r. }
  apply (merge_batches_so_far _ _ _ batches) in H0; [|done|cbn [app]; lia]. cbn [app] in H0.
  destruct (fold_left _ batches _) as [[o1 over1] w1]. destruct H0 as [Hw Hover]. cbn [fst snd] in Hw, Hover.
  destruct (flush_at_end (o1, w1)) as [o2 w2] eqn:Ef. injection Ho as -> -> ->.
  destruct (flush_written _ _ _ _ _ Hw Ef) as (Hw0 & Hl0 & Hc & Hb & He). cbn zeta. by split_and!.
Qed.

(** C16. A distributed run accounts for every frame of every agent. Whatever
    the agents' threads and their control channels do, in whatever order the
    batches arrive, the records written to the coordinator's file and the ones
    counted as dropped - on the agents, on the way and over the limit - fall
    short of the frames the agents observed by exactly the batches that never
    arrived and the drops of the agents whose result never arrived.

    The file is the beginning of the header and the kept lines, one for each
    record that arrived, up to the limit and in order: the agent's index, the
    record's time moved by the phase's offset, and the record's other fields
    unchanged.  When no write failed the file is all of that, and
    [frames_written] is the number of those lines. *)
Theorem distributed_capture_accounts (header_pieces : list string) (line_pieces : MergedLine -> list string)
    (reported silent : list AgentCapture) (batches lost : list MergedBatch) (path : string) (limit over_limit : Z)
    (file : CaptureSink) (o : WriterOutcome) (w : BufWriter)
    (Hgs : Forall agent_capture_ok (reported ++ silent))
    (Hn : sum_Z ((fun g => cu_observed (gc_run g)) <$> reported ++ silent) < 2 ^ 64) (Hlim : 0 <= limit < u64_max)
    (Hbatches : batches ++ lost ≡ₚ concat (agent_batches <$> reported ++ silent))
    (Hfile : fs_bytes file = ""%string)
    (Ho : merged_writer header_pieces line_pieces limit file batches = (o, over_limit, w)) :
  let summary := merged_finish path limit (fold_left u64_add (agent_dropped <$> reported) 0) o over_limit in
  ca_frames_written summary + ca_frames_dropped summary + total_length (mb_records <$> lost) + sum_Z (agent_dropped <$> silent)
    = sum_Z ((fun g => cu_observed (gc_run g)) <$> reported ++ silent) /\
  (limit <> 0 -> ca_frames_written summary <= limit) /\
  exists lines, lines_of batches lines /\
    let kept := if limit =? 0 then lines else take (Z.to_nat limit) lines in
    begins (fs_bytes (closed_file w)) (merged_text header_pieces line_pieces kept) /\
    (wo_error o = false -> fs_bytes (closed_file w) = merged_text header_pieces line_pieces kept /\
       ca_frames_written summary = Z.of_nat (length kept)).
Proof.
  pose proof (arrivals_counted _ batches lost Hgs Hn Hbatches) as (Hsum & Hdrops & Hlost).
  rewrite (fmap_app agent_dropped) in Hsum, Hdrops. rewrite (sum_Z_app (agent_dropped <$> _)) in Hsum.
  apply Forall_app in Hdrops as [Hdr Hds].
  pose proof (sum_Z_nonneg _ Hdr) as Hdr0. pose proof (sum_Z_nonneg _ Hds) as Hds0.
  assert (Z.of_nat (length (merged_lines batches)) < 2 ^ 64) as Hlen by lia.
  destruct (merged_writer_spec _ _ _ _ _ _ _ _ Hlim Hlen Hfile Ho) as (Hw0 & Hl0 & Hc & Hover & Hb & He).
  cbn [ca_frames_written ca_frames_dropped merged_finish]. rewrite fold_u64_add by (done || lia).
  rewrite (u64_add_id (0 + sum_Z _)), u64_add_id by lia.
  split; [lia|]. split; [intros Hne; unfold effective_limit in Hc; destruct (Z.eqb_spec limit 0); [done|lia]|].
  exists (merged_lines batches). split; [apply merged_lines_of|]. cbn zeta.
  rewrite <-effective_take by lia. split; [done|]. intros Hok. destruct (He Hok) as [Hfb Hl]. split; [done|].
  rewrite length_take. unfold effective_limit in *. destruct (limit =? 0); lia.
Qed.

(** One connection under a limit of one record: its opening is kept, the
    frame that follows is dropped. *)
Module SampleCapture.
Definition opening : CaptureRecord := mkCaptureRecord 5 7 Recv EvOpen.
Definition over : CaptureRun := mkCaptureRun (mkCaptureShared [] QUEUE_CAPACITY true 0 1 1 1) [] [opening] 2.
Definition header : list string := ["{"; "}"]%string.
Definition line (r : WireRecord) : list string := [we_dir r; " "; we_kind r]%string.
Definition merged (l : MergedLine) : list string := [display_u64 (ml_agent l); " "; display_u64 (we_t_us (ml_record l)); " "; we_kind (ml_record l)]%string.
Definition agent (index : Z) : AgentCapture :=
  mkAgentCapture index 40 0 1 over [PolledEmpty; PolledRecord opening] (fun _ => true).
Definition batch (index : Z) : MergedBatch := mkMergedBatch index 40 [wire_record opening].
End SampleCapture.

Lemma sample_over : capture_over 0 1 SampleCapture.over.
Proof.
  split; [|done]. eapply rtc_l; [apply (stream_opens _ _ _ _ 7)|].
  do 3 (eapply rtc_l; [eapply (stream_records _ _ _ _ 0 _ 5000); reflexivity|]; vm_compute).
  eapply rtc_l; [eapply (stream_observes _ _ _ _ 0 _ Sent (Text "hi")); reflexivity|]; vm_compute.
  eapply rtc_l; [eapply (stream_records _ _ _ _ 0 _ 5000); reflexivity|]; vm_compute.
  eapply rtc_l; [eapply (stream_drops _ _ _ _ 0); reflexivity|]; vm_compute.
  apply rtc_once. by apply (writer_takes (mkCaptureShared [SampleCapture.opening] QUEUE_CAPACITY true 0 1 1 1) [] [] 2 SampleCapture.opening []).
Qed.

Lemma capture_accounts_for_frames_witness :
  let (o, w) := write_records SampleCapture.header SampleCapture.line (mkCaptureSink "" None) (cu_taken SampleCapture.over) in
  let summary := capture_finish "c" 1 o (cu_shared SampleCapture.over) in
  ca_frames_written summary + ca_frames_dropped summary = 2 /\ ca_frames_written summary <= 1.
Proof.
  destruct (write_records SampleCapture.header SampleCapture.line (mkCaptureSink "" None) (cu_taken SampleCapture.over)) as [o w] eqn:E.
  destruct (capture_accounts_for_frames SampleCapture.header SampleCapture.line 0 1 "c" (mkCaptureSink "" None) SampleCapture.over
    o w sample_over) as (Hsum & Hlim & _); [reflexivity|split; [discriminate|reflexivity]|reflexivity|exact E|].
  split; [exact Hsum|]. apply Hlim. discriminate.
Defined.

Lemma sample_agent_ok index : agent_capture_ok (SampleCapture.agent index).
Proof. split; [exact sample_over|]. by split. Qed.

(** Three agents; the third one's batch and result never arrive. *)
Lemma distributed_capture_accounts_witness :
  let '(o, over_limit, w) := merged_writer SampleCapture.header SampleCapture.merged 1 (mkCaptureSink "" None)
    [SampleCapture.batch 1; SampleCapture.batch 0] in
  let summary := merged_finish "c" 1 2 o over_limit in
  ca_frames_written summary + ca_frames_dropped summary + 1 + 1 = 6 /\ ca_frames_written summary <= 1.
Proof.
  destruct (merged_writer _ _ _ _ _) as [[o over_limit] w] eqn:E.
  destruct (distributed_capture_accounts SampleCapture.header SampleCapture.merged
    [SampleCapture.agent 0; SampleCapture.agent 1] [SampleCapture.agent 2]
    [SampleCapture.batch 1; SampleCapture.batch 0] [SampleCapture.batch 2]
    "c" 1 over_limit (mkCaptureSink "" None) o w) as (Hsum & Hle & _).
  - repeat constructor; apply sample_agent_ok.
  - reflexivity.
  - split; [discriminate|reflexivity].
  - exact (perm_swap _ _ _).
  - reflexivity.
  - exact E.
  - split; [exact Hsum|]. apply Hle. discriminate.
Defined.
