(* ===== verification/MockRules.v ===== *)
(** * The mock server's rules (src/src/mock/rules.rs)

    The rules of [wsblast mock --rules], from the parsed YAML file to what a
    connection does with a frame.  [MkPart], [MkTemplate] and [ReplyRule] are
    the source's [Part], [Template] and [Rule]. *)

From Stdlib Require Import ZArith Lia Ascii String.
From stdpp Require Import base tactics strings numbers option list.
From S2P Require Import Prelude RustStd Str Json JsonText Slo Config Live HumanDuration Wire Reply Data Template SocketIo Phases Display.

Local Open Scope Z_scope.
Local Open Scope rust_scope.

Inductive Unmatched := UnmatchedEcho | UnmatchedIgnore.

Inductive OneOrMany := One (raw : string) | Many (raws : list string).
Inductive CloseSpec := CloseCode (code : Z) | CloseFull (code : Z) (reason : string).

(** One piece of a reply template. *)
Inductive MkPart :=
| MkLiteral (text : string)
| MkRequest
| MkSeq
| MkJson (pointer : string).
Definition MkTemplate : Type := list MkPart.

(** *** Templates *)

Definition mock_part (raw name : string) : result MkPart string :=
  if decide (name = "request"%string) then Ok MkRequest
  else if decide (name = "seq"%string) then Ok MkSeq
  else
    let unknown := Err ("reply '" +:+ raw +:+ "' uses {{" +:+ name +:+ "}}; use {{request}}, {{seq}} or {{json:/pointer}}")%string in
    match strip_prefix "json:" name with
    | Some pointer => if starts_with "/" pointer then Ok (MkJson pointer) else unknown
    | None => unknown
    end.

Definition literal_parts (text : string) : MkTemplate := if decide (text = ""%string) then [] else [MkLiteral text].

(** [Template::parse]: every round takes at least four bytes of [rest]. *)
Fixpoint mock_template_loop (raw : string) (fuel : nat) (rest : string) : result MkTemplate string :=
  match fuel with
  | O => Ok (literal_parts rest)
  | S fuel =>
      match find_split "{{" rest with
      | None => Ok (literal_parts rest)
      | Some (before, after_open) =>
          match find_split "}}" after_open with
          | None => Err ("reply '" +:+ raw +:+ "' has '{{' without a closing '}}'")%string
          | Some (name, rest) =>
              let? part := mock_part raw (trim name) in
              let? parts := mock_template_loop raw fuel rest in
              Ok (literal_parts before ++ part :: parts)
          end
      end
  end.
Definition mock_template_parse (raw : string) : result MkTemplate string := mock_template_loop raw (String.length raw) raw.

Section Rules.
Context {N : Type} `{SerdeJson N, Formatter}.

Record MatchSpec := mkMatchSpec { mx_text : option string; mx_json : option string; mx_equals : option (Value N) }.
Record RuleSpec := mkRuleSpec {
  rx_match : option MatchSpec;
  rx_after : option Z;
  rx_reply : option OneOrMany;
  rx_delay : option string;
  rx_close : option CloseSpec;
}.
(** The file as serde reads it. *)
Record RulesFile := mkRulesFile { rf_version : string; rf_rules : list RuleSpec; rf_unmatched : Unmatched }.

Inductive FrameMatcher :=
| MatchAny
| MatchText (text : string)
| MatchJson (pointer : string) (equals : option (Value N)).

Record ReplyRule := mkReplyRule {
  ru_matcher : FrameMatcher;
  ru_after : Z;
  ru_replies : list MkTemplate;
  ru_delay : option Z;
  ru_close : option (Z * string);
}.
Record MockRules := mkMockRules { mu_source : string; mu_rules : list ReplyRule; mu_unmatched : Unmatched }.

Inductive MockDecision :=
| DecideEcho
| DecideIgnore
| DecideReply (frames : list Message) (delay : option Z) (close : option (Z * string)).

Definition mock_invalid {A} (message : string) : result A WsBlastError := Err (ConfigFailure (InvalidOption message)).

(** *** Compiling *)

Definition compile_matcher (spec : option MatchSpec) : result FrameMatcher string :=
  match spec with
  | None => Ok MatchAny
  | Some (mkMatchSpec (Some text) None None) => Ok (MatchText text)
  | Some (mkMatchSpec None (Some pointer) equals) =>
      if negb (starts_with "/" pointer)
      then Err ("match.json must be a JSON pointer starting with '/', found '" +:+ pointer +:+ "'")%string
      else Ok (MatchJson pointer equals)
  | Some (mkMatchSpec (Some _) (Some _) _) => Err "match takes text or json, not both"%string
  | Some (mkMatchSpec (Some _) None (Some _)) => Err "match.equals needs match.json"%string
  | Some (mkMatchSpec None None _) => Err "match needs text or json; leave match out to match every frame"%string
  end.

Definition compile_close (close : option CloseSpec) : result (option (Z * string)) string :=
  match close with
  | None => Ok None
  | Some spec =>
      let '(code, reason) := match spec with CloseCode code => (code, ""%string) | CloseFull code reason => (code, reason) end in
      if negb (is_sendable_close_code code)
      then Err ("close code " +:+ display_u64 code +:+ " cannot be sent; use 1000-1003, 1007-1014 or 3000-4999")%string
      else if (123 <? String.length reason)%nat then Err "close reason must be at most 123 bytes"%string
      else Ok (Some (code, reason))
  end.

(** [Rule::compile] *)
Definition rule_compile (spec : RuleSpec) : result ReplyRule string :=
  let? matcher := compile_matcher (rx_match spec) in
  let after := default 1 (rx_after spec) in
  if after =? 0 then Err "after counts frames from 1 and must be at least 1"%string
  else match rx_reply spec, rx_close spec with
  | None, None => Err "a rule needs reply, close or both; reply: [] sends nothing"%string
  | _, _ =>
      let raws := match rx_reply spec with None => [] | Some (One raw) => [raw] | Some (Many raws) => raws end in
      let? replies := result_collect mock_template_parse raws in
      let? delay := match rx_delay spec with
                    | None => Ok None
                    | Some raw =>
                        let? d := result_map_err (fun e => ("delay: " +:+ WsBlastError_fmt e)%string) (parse_human_duration raw) in
                        Ok (Some d)
                    end in
      let? close := compile_close (rx_close spec) in
      Ok (mkReplyRule matcher after replies delay close)
  end.

Fixpoint compile_rules (fail : string -> WsBlastError) (index : Z) (specs : list RuleSpec) : result (list ReplyRule) WsBlastError :=
  match specs with
  | [] => Ok []
  | spec :: specs =>
      let? rule := result_map_err (fun message => fail ("rule " +:+ display_u64 (index + 1) +:+ ": " +:+ message)%string)
                     (rule_compile spec) in
      let? rules := compile_rules fail (index + 1) specs in Ok (rule :: rules)
  end.

(** [Rules::parse], of what serde makes of the text. *)
Definition rules_parse (source : string) (file : result RulesFile string) : result MockRules WsBlastError :=
  let fail message := ConfigFailure (InvalidOption ("--rules '" +:+ source +:+ "': " +:+ message)%string) in
  let? file := result_map_err fail file in
  if negb (bool_decide (rf_version file = "1.0"%string))
  then Err (fail ("version must be " +:+ DQ +:+ "1.0" +:+ DQ +:+ ", found " +:+ DQ +:+ rf_version file +:+ DQ)%string)
  else if bool_decide (rf_rules file = []) then Err (fail "rules must list at least one rule"%string)
  else let? rules := compile_rules fail 0 (rf_rules file) in Ok (mkMockRules source rules (rf_unmatched file)).

(** *** Deciding *)

Definition mock_render_part (request : string) (seq : Z) (json : option (Value N)) (part : MkPart) : string :=
  match part with
  | MkLiteral text => text
  | MkRequest => request
  | MkSeq => display_u64 seq
  | MkJson p => match json ≫= pointer p with Some value => to_string value | None => "null"%string end
  end.
Definition mock_render (request : string) (seq : Z) (json : option (Value N)) (t : MkTemplate) : string :=
  String.concat "" (mock_render_part request seq json <$> t).

Definition frame_text (frame : Message) : option string :=
  match frame with Text text => Some text | Binary bytes => from_utf8 bytes | _ => None end.
Definition frame_json (frame : Message) : option (Value N) :=
  text ← frame_text frame; match from_str text with Ok v => Some v | Err _ => None end.

Definition rule_matches (rule : ReplyRule) (frame : Message) : bool :=
  match ru_matcher rule with
  | MatchAny => true
  | MatchText expected => match frame with Text t => bool_decide (t = expected) | _ => false end
  | MatchJson p equals =>
      match frame_json frame ≫= pointer p, equals with
      | Some found, Some expected => value_eqb found expected
      | Some _, None => true
      | None, _ => false
      end
  end.
Definition rule_reply (rule : ReplyRule) (frame : Message) (seq : Z) : MockDecision :=
  let needs_json := existsb (existsb (fun p => match p with MkJson _ => true | _ => false end)) (ru_replies rule) in
  let value := if needs_json then frame_json frame else None in
  DecideReply ((fun t => Text (mock_render (default ""%string (frame_text frame)) seq value t)) <$> ru_replies rule)
    (ru_delay rule) (ru_close rule).

(** [Rules::decide] *)
Fixpoint decide_rules (rules : list ReplyRule) (unmatched : Unmatched) (frame : Message) (seq : Z) : MockDecision :=
  match rules with
  | [] => match unmatched with UnmatchedEcho => DecideEcho | UnmatchedIgnore => DecideIgnore end
  | rule :: rules =>
      if seq <? ru_after rule then decide_rules rules unmatched frame seq
      else if negb (rule_matches rule frame) then decide_rules rules unmatched frame seq
      else rule_reply rule frame seq
  end.
Definition rules_decide (r : MockRules) (frame : Message) (seq : Z) : MockDecision :=
  decide_rules (mu_rules r) (mu_unmatched r) frame seq.
End Rules.

(** ** Templates read as they are written *)

Definition mk_is_literal (p : MkPart) : bool := match p with MkLiteral _ => true | _ => false end.
Definition mk_source (p : MkPart) : string :=
  match p with
  | MkLiteral text => text
  | MkRequest => "{{request}}"
  | MkSeq => "{{seq}}"
  | MkJson p => "{{json:" +:+ p +:+ "}}"
  end%string.
Definition mk_part_ok (p : MkPart) : Prop :=
  match p with
  | MkLiteral text => literal text
  | MkJson p => starts_with "/" p = true /\ closes_once p /\ trim ("json:" +:+ p) = ("json:" +:+ p)%string
  | _ => True
  end.
Fixpoint mk_apart (ps : MkTemplate) : Prop :=
  match ps with
  | p :: (q :: _) as ps' => (mk_is_literal p && mk_is_literal q = false) /\ mk_apart ps'
  | _ => True
  end.

Lemma mock_part_source raw p : mk_part_ok p -> mk_is_literal p = false ->
  exists name, mk_source p = ("{{" +:+ name +:+ "}}")%string /\ closes_once name /\ mock_part raw (trim name) = Ok p.
Proof.
  destruct p as [t| | |p]; cbn; intros Hok Ht; try done.
  - exists "request"%string. split_and!; [done| |done]. apply (bool_decide_unpack _). by vm_compute.
  - exists "seq"%string. split_and!; [done| |done]. apply (bool_decide_unpack _). by vm_compute.
  - destruct Hok as (Hs & Hc & Htrim). exists ("json:" +:+ p)%string. split_and!.
    + by rewrite !app_string_assoc.
    + unfold closes_once in *. change ("json:" +:+ p)%string with
        (String "j" (String "s" (String "o" (String "n" (String ":" p))))). cbn [list_ascii_of_string].
      do 5 (apply not_elem_of_cons; split; [done|]). done.
    + rewrite Htrim. unfold mock_part. rewrite !decide_False by done. by rewrite strip_prefix_app, Hs.
Qed.

Lemma mock_template_parts raw ps fuel : Forall mk_part_ok ps -> mk_apart ps ->
  (String.length (concat_strings (mk_source <$> ps)) <= fuel)%nat ->
  mock_template_loop raw fuel (concat_strings (mk_source <$> ps)) = Ok ps.
Proof.
  intros Hok. revert fuel. induction Hok as [|p ps Hp Hok IH]; intros fuel Hap Hf; [by destruct fuel|].
  assert (mk_apart ps) as Hap' by (destruct ps; [done|apply Hap]).
  rewrite fmap_cons in *. change (concat_strings (?x :: ?l)) with (x +:+ concat_strings l)%string in *.
  destruct (mk_is_literal p) eqn:Et.
  - destruct p as [t| | |]; try done. cbn [mk_source] in *. destruct Hp as (Hne & Hfind & Hend).
    assert (literal_parts t = [MkLiteral t]) as Ht by (unfold literal_parts; by rewrite decide_False).
    destruct ps as [|q ps].
    + cbn. rewrite app_string_nil_r in *. destruct fuel; cbn [mock_template_loop]; [by rewrite Ht|]. by rewrite Hfind, Ht.
    + destruct Hap as [Hq _]. cbn in Hq. inversion_clear Hok as [|?? Hqok Hok'].
      destruct (mock_part_source raw q Hqok Hq) as (name & Hs & Hc & Hph).
      rewrite fmap_cons in *. change (concat_strings (?x :: ?l)) with (x +:+ concat_strings l)%string in *.
      rewrite Hs in *. rewrite !app_string_assoc in *. destruct fuel as [|fuel].
      { rewrite !length_string_app in Hf. cbn in Hf. lia. }
      cbn [mock_template_loop]. rewrite find_split_literal, find_split_name, Hph by done. cbn [result_bind].
      specialize (IH (S fuel) Hap'). cbn [mock_template_loop] in IH. rewrite find_split_open, find_split_name, Hph in IH by done.
      cbn [result_bind] in IH. change (literal_parts "") with (@nil MkPart) in IH. cbn [app] in IH.
      destruct (mock_template_loop raw fuel _) as [parts|]; [|exfalso; rewrite !length_string_app in *; cbn in *; by ospecialize (IH ltac:(lia))].
      cbn [result_bind] in *. rewrite Ht. cbn [app]. rewrite !length_string_app in *. cbn in *. by ospecialize (IH ltac:(lia)); simplify_eq.
  - destruct (mock_part_source raw p Hp Et) as (name & Hs & Hc & Hph).
    rewrite Hs in *. rewrite !app_string_assoc in *. destruct fuel as [|fuel]; [rewrite length_string_app in Hf; cbn in Hf; lia|].
    cbn [mock_template_loop]. rewrite find_split_open, find_split_name, Hph by done. cbn [result_bind].
    rewrite IH; [done|done|]. rewrite !length_string_app in Hf. cbn in Hf. lia.
Qed.

(** A reply template reads as it is written: put together from literal
    texts, [{{request}}], [{{seq}}] and JSON pointers it parses to exactly
    those pieces, and renders each frame to the pieces with the frame, its
    number and the values at the pointers in their places. *)
Theorem mock_template_roundtrip {N : Type} `{SerdeJson N} (ps : MkTemplate) (Hok : Forall mk_part_ok ps) (Hap : mk_apart ps)
    (request : string) (seq : Z) (json : option (Value N)) :
  mock_template_parse (concat_strings (mk_source <$> ps)) = Ok ps /\
  mock_render request seq json ps = concat_strings (mock_render_part request seq json <$> ps).
Proof.
  split; [by apply mock_template_parts|]. unfold mock_render. induction ps as [|p ps IH]; [done|].
  rewrite fmap_cons. change (concat_strings (?x :: ?l)) with (x +:+ concat_strings l)%string.
  apply Forall_cons in Hok as [_ Hok]. rewrite <-IH; [|done|destruct ps; [done|apply Hap]].
  destruct ps; cbn; by rewrite ?app_string_nil_r.
Qed.

Lemma mock_template_roundtrip_witness :
  mock_template_parse "ack {{json:/id}} of {{request}}" = Ok [MkLiteral "ack "; MkJson "/id"; MkLiteral " of "; MkRequest].
Proof.
  assert (Forall mk_part_ok [MkLiteral "ack "; MkJson "/id"; MkLiteral " of "; MkRequest]) as Hok.
  { repeat constructor; try (apply (bool_decide_unpack _); vm_compute; reflexivity); discriminate. }
  exact (proj1 (mock_template_roundtrip (H := text_json) _ Hok (conj eq_refl (conj eq_refl (conj eq_refl I))) "" 1 None)).
Defined.

(** ** The first rule that applies answers *)

Section Answers.
Context {N : Type} `{SerdeJson N, Formatter}.

Definition rule_applies (rule : ReplyRule) (frame : Message) (seq : Z) : bool :=
  (ru_after rule <=? seq) && rule_matches rule frame.

(** What compiling guarantees. *)
Definition rule_ok (rule : ReplyRule (N := N)) : Prop :=
  ru_after rule <> 0 /\
  match ru_matcher rule with MatchJson p _ => starts_with "/" p = true | _ => True end /\
  match ru_close rule with
  | Some (code, reason) => is_sendable_close_code code = true /\ (String.length reason <= 123)%nat
  | None => True
  end.

Lemma compile_close_ok close c : compile_close close = Ok c ->
  match c with Some (code, reason) => is_sendable_close_code code = true /\ (String.length reason <= 123)%nat | None => True end.
Proof.
  destruct close as [spec|]; cbn [compile_close]; [|by intros [= <-]].
  destruct spec as [code|code reason]; (destruct (is_sendable_close_code code) eqn:E; cbn [negb]; [|done]).
  - intros [= <-]. split; [done|]. cbn. lia.
  - destruct (Nat.ltb_spec 123 (String.length reason)); [done|]. intros [= <-]. split; [done|]. lia.
Qed.
Lemma rule_compile_ok (spec : RuleSpec (N := N)) rule : rule_compile spec = Ok rule -> rule_ok rule /\ compile_close (rx_close spec) = Ok (ru_close rule).
Proof.
  unfold rule_compile. destruct (compile_matcher (rx_match spec)) as [matcher|] eqn:Em; [|done]. cbn [result_bind].
  destruct (Z.eqb_spec (default 1 (rx_after spec)) 0) as [|Ha]; [done|].
  intros Hrest. assert (exists replies delay close, compile_close (rx_close spec) = Ok close /\
    rule = mkReplyRule matcher (default 1 (rx_after spec)) replies delay close) as (replies & delay & close & Hc & ->).
  { destruct (rx_reply spec), (rx_close spec); try done;
      (destruct (result_collect mock_template_parse _) as [replies|]; [|done]); cbn [result_bind] in Hrest;
      (destruct (match rx_delay spec with None => _ | Some _ => _ end) as [delay|]; [|done]); cbn [result_bind] in Hrest;
      (destruct (compile_close _) as [close|]; [|done]); injection Hrest as <-; by exists replies, delay, close. }
  split; [|done]. split_and!; [done| |by eapply compile_close_ok]. cbn. clear -Em.
  destruct (rx_match spec) as [[[text|] [json|] [equals|]]|]; cbn in Em; try done; try (by injection Em as <-);
    (destruct (starts_with "/" json) eqn:E; cbn in Em; [|done]); by injection Em as <-.
Qed.
Lemma compile_rules_ok fail (specs : list (RuleSpec (N := N))) index rules : compile_rules fail index specs = Ok rules ->
  Forall2 (fun spec rule => rule_compile spec = Ok rule) specs rules.
Proof.
  revert index rules. induction specs as [|spec specs IH]; intros index rules; cbn [compile_rules].
  - intros [= <-]. constructor.
  - destruct (rule_compile spec) as [rule|] eqn:E; cbn [result_map_err result_bind]; [|done].
    destruct (compile_rules fail (index + 1) specs) as [rules'|] eqn:Er; cbn [result_bind]; [|done].
    intros [= <-]. constructor; [done|]. by eapply IH.
Qed.

Lemma decide_rules_spec rules unmatched frame seq :
  (exists k rule, rules !! k = Some rule /\ rule_applies rule frame seq = true /\
     (forall j rule', (j < k)%nat -> rules !! j = Some rule' -> rule_applies rule' frame seq = false) /\
     decide_rules rules unmatched frame seq = rule_reply rule frame seq) \/
  (Forall (fun rule => rule_applies rule frame seq = false) rules /\
   decide_rules rules unmatched frame seq = match unmatched with UnmatchedEcho => DecideEcho | UnmatchedIgnore => DecideIgnore end).
Proof.
  induction rules as [|rule rules IH]; [right; by split|]. cbn [decide_rules].
  assert (rule_applies rule frame seq = false /\ decide_rules (rule :: rules) unmatched frame seq = decide_rules rules unmatched frame seq \/
          rule_applies rule frame seq = true /\ decide_rules (rule :: rules) unmatched frame seq = rule_reply rule frame seq) as Hr.
  { unfold rule_applies. cbn [decide_rules]. destruct (Z.ltb_spec seq (ru_after rule)), (Z.leb_spec (ru_after rule) seq); try lia; [by left|].
    destruct (rule_matches rule frame); cbn; auto. }
  cbn [decide_rules] in Hr. destruct Hr as [[Hn Hd]|[Hy Hd]]; rewrite Hd.
  - destruct IH as [(k & r & Hk & Ha & Hj & Hrep)|[Hall Hun]]; [left|right; by split; [constructor|]].
    exists (S k), r. split_and!; try done. intros [|j] r' Hlt Hl; [by injection Hl as <-|]. apply (Hj j); [lia|done].
  - left. exists 0%nat, rule. split_and!; try done. intros j r' Hlt. lia.
Qed.
End Answers.

(** Of a rules file that is accepted, every data frame is answered by the
    first rule it matches once the rule's [after] is reached, with one frame
    for each of the rule's templates and, if the rule closes, a code that may
    be sent and a reason that fits a Close frame; a frame no rule applies to
    is echoed or ignored, as the file says. *)
Theorem rules_answer_first_match {N : Type} `{SerdeJson N, Formatter} (source : string) (file : RulesFile (N := N))
    (rules : MockRules (N := N)) (frame : Message) (seq : Z) (Hr : rules_parse source (Ok file) = Ok rules) :
  rf_version file = "1.0"%string /\ length (mu_rules rules) = length (rf_rules file) /\ mu_rules rules <> [] /\
  ((exists k spec rule frames, rf_rules file !! k = Some spec /\ rule_compile spec = Ok rule /\ rule_applies rule frame seq = true /\
      (forall j spec' rule', (j < k)%nat -> rf_rules file !! j = Some spec' -> rule_compile spec' = Ok rule' ->
         rule_applies rule' frame seq = false) /\
      rules_decide rules frame seq = DecideReply frames (ru_delay rule) (ru_close rule) /\
      length frames = length (ru_replies rule) /\ rule_ok rule) \/
   (Forall (fun spec => forall rule, rule_compile spec = Ok rule -> rule_applies rule frame seq = false) (rf_rules file) /\
    rules_decide rules frame seq = match rf_unmatched file with UnmatchedEcho => DecideEcho | UnmatchedIgnore => DecideIgnore end)).
Proof.
  unfold rules_parse in Hr. cbn [result_map_err result_bind] in Hr.
  destruct (bool_decide (rf_version file = "1.0"%string)) eqn:Ev; cbn [negb] in Hr; [|done]. apply bool_decide_eq_true in Ev.
  destruct (bool_decide (rf_rules file = [])) eqn:En; [done|]. apply bool_decide_eq_false in En.
  destruct (compile_rules _ 0 (rf_rules file)) as [compiled|] eqn:Ec; [|done]. injection Hr as <-.
  apply compile_rules_ok in Ec. pose proof (Forall2_length _ _ _ Ec) as Hlen. cbn [mu_rules].
  split_and!; [done|done|intros ->; by destruct (rf_rules file)|]. unfold rules_decide. cbn [mu_rules mu_unmatched].
  destruct (decide_rules_spec compiled (rf_unmatched file) frame seq) as [(k & rule & Hk & Ha & Hj & Hd)|[Hall Hd]].
  - left. destruct (Forall2_lookup_r _ _ _ _ _ Ec Hk) as (spec & Hs & Hc). exists k, spec, rule. eexists.
    split_and!; [done|done|done| |exact Hd|by rewrite length_fmap|by eapply rule_compile_ok].
    intros j spec' rule' Hlt Hs' Hc'. destruct (Forall2_lookup_l _ _ _ _ _ Ec Hs') as (r & Hr & Hcr).
    rewrite Hc' in Hcr. injection Hcr as <-. by eapply Hj.
  - right. split; [|done]. apply Forall_lookup. intros j spec Hs rule Hc.
    destruct (Forall2_lookup_l _ _ _ _ _ Ec Hs) as (r & Hr & Hcr). rewrite Hc in Hcr. injection Hcr as <-.
    by eapply Forall_lookup_1 in Hall.
Qed.

(** A greeting after the second frame, and a farewell. *)
Module SampleRules.
#[local] Existing Instance text_json.
Definition file : RulesFile (N := Z) :=
  mkRulesFile "1.0" [mkRuleSpec (Some (mkMatchSpec (Some "ping") None None)) (Some 2) (Some (One "pong {{seq}}")) None None;
                     mkRuleSpec (Some (mkMatchSpec (Some "bye") None None)) None None None (Some (CloseFull 4000 "done"))]%string UnmatchedIgnore.
End SampleRules.
#[local] Existing Instance text_json.
#[local] Existing Instance Sample.no_format.

Lemma rules_answer_first_match_witness : exists rules,
  rules_parse "r.yaml" (Ok SampleRules.file) = Ok rules /\ length (mu_rules rules) = 2%nat /\
  rules_decide rules (Text "ping") 1 = DecideIgnore /\ rules_decide rules (Text "ping") 3 = DecideReply [Text "pong 3"] None None.
Proof.
  destruct (rules_parse "r.yaml" (Ok SampleRules.file)) as [rules|] eqn:E; [|vm_compute in E; discriminate].
  destruct (rules_answer_first_match "r.yaml" SampleRules.file rules (Text "ping") 1 E) as (_ & Hlen & _).
  exists rules. split; [reflexivity|]. split; [exact Hlen|]. vm_compute in E. injection E as <-. split; vm_compute; reflexivity.
Defined.
