(* ===== verification/Replay.v ===== *)
(** * Replaying a capture (ReplayScript of src/src/mock.rs)

    The reader of a capture file for [wsblast mock --replay], and what it
    makes of a file that src/src/capture.rs wrote.  [decode_line] is serde's
    reading of a line. *)

From Stdlib Require Import ZArith Lia Ascii String.
From stdpp Require Import base tactics strings numbers option gmap sorting list.
From S2P Require Import Prelude RustStd Str Base64 Json JsonText Live Wire Data Control Capture MockRules.

Local Open Scope Z_scope.
Local Open Scope rust_scope.

Record ReplayFrame := mkReplayFrame { rp_offset : Z; rp_message : Message }.
Record ReplayScript := mkReplayScript { rs_source : string; rs_workers : list (list ReplayFrame) }.

Record CaptureLine := mkCaptureLine {
  cl_t_us : Z;
  cl_agent : Z;
  cl_worker : Z;
  cl_dir : string;
  cl_kind : string;
  cl_data : option string;
}.

(** A recorded worker's first record time and its received frames. *)
Definition RecordedWorker : Type := Z * list (Z * Message).

(** [sort_by_key] is stable: a frame stays behind the ones with its time. *)
Fixpoint insert_by_time (f : Z * Message) (frames : list (Z * Message)) : list (Z * Message) :=
  match frames with
  | [] => [f]
  | g :: rest => if f.1 <? g.1 then f :: g :: rest else g :: insert_by_time f rest
  end.
Definition sort_by_time (frames : list (Z * Message)) : list (Z * Message) :=
  fold_left (fun sorted f => insert_by_time f sorted) frames [].

(** The order of a map with pairs of integers as keys. *)
Definition pair_le {V} (a b : (Z * Z) * V) : Prop := a.1.1 < b.1.1 \/ (a.1.1 = b.1.1 /\ a.1.2 <= b.1.2).
#[export] Instance pair_le_dec {V} : RelDecision (@pair_le V).
Proof. intros a b. unfold pair_le. apply _. Defined.
Definition pair_entries {V} (m : gmap (Z * Z) V) : list ((Z * Z) * V) := merge_sort pair_le (map_to_list m).

Section Parse.
Context {N : Type} `{SerdeJson N} (decode_line : string -> result CaptureLine string).

(** The message of a received data record: [None] for any other kind. *)
Definition replay_message (kind data : string) : option (result Message string) :=
  if decide (kind = "text"%string) then Some (Ok (Text data))
  else if decide (kind = "binary"%string) then
    Some match base64_decode (bytes_of_string data) with
         | Some bytes => Ok (Binary bytes)
         | None => Err "binary data is not valid base64"%string
         end
  else None.

(** One record, of the workers so far. *)
Definition replay_record (l : CaptureLine) (workers : gmap (Z * Z) RecordedWorker) : result (gmap (Z * Z) RecordedWorker) string :=
  let key := (cl_agent l, cl_worker l) in
  let entry := default (cl_t_us l, []) (workers !! key) in
  let entry := (Z.min entry.1 (cl_t_us l), entry.2) in
  if negb (bool_decide (cl_dir l = "recv"%string)) then Ok (<[key := entry]> workers)
  else match replay_message (cl_kind l) (default ""%string (cl_data l)) with
       | None => Ok (<[key := entry]> workers)
       | Some (Err e) => Err e
       | Some (Ok message) => Ok (<[key := (entry.1, entry.2 ++ [(cl_t_us l, message)])]> workers)
       end.

Definition replay_fail (source : string) (line : Z) (message : string) : WsBlastError :=
  ConfigFailure (InvalidOption ("--replay: " +:+ source +:+ ", line " +:+ display_u64 line +:+ ": " +:+ message)%string).

Fixpoint replay_lines (source : string) (numbered : list (Z * string)) (workers : gmap (Z * Z) RecordedWorker)
  : result (gmap (Z * Z) RecordedWorker) WsBlastError :=
  match numbered with
  | [] => Ok workers
  | (number, line) :: numbered =>
      let? record := result_map_err (fun err => replay_fail source number ("invalid record: " +:+ err)%string) (decode_line line) in
      let? workers := result_map_err (replay_fail source number) (replay_record record workers) in
      replay_lines source numbered workers
  end.

(** The frames of one worker, sorted, with their offsets. *)
Definition replay_worker (w : RecordedWorker) : list ReplayFrame :=
  (fun f => mkReplayFrame (from_micros (f.1 - w.1)) f.2) <$> sort_by_time w.2.
Definition replay_workers (workers : gmap (Z * Z) RecordedWorker) : list (list ReplayFrame) :=
  replay_worker <$> filter (fun w => w.2 <> []) (pair_entries workers).*2.

(** [value.get("wsblast_capture")?.as_u64()] of the header. *)
Definition header_version (header : string) : option Z :=
  match from_str header with
  | Ok (Object members) =>
      match member "wsblast_capture" members with
      | Some (Number n) => as_u64 n
      | _ => None
      end
  | _ => None
  end.

(** The lines with their numbers, trimmed, without the empty ones. *)
Definition numbered_lines (text : string) : list (Z * string) :=
  filter (fun e => e.2 <> ""%string) (imap (fun i line => (Z.of_nat i + 1, trim line)) (lines text)).

(** [ReplayScript::parse] *)
Definition replay_parse (source text : string) : result ReplayScript WsBlastError :=
  match numbered_lines text with
  | [] => mock_invalid ("--replay: '" +:+ source +:+ "' is empty")%string
  | (header_line, header) :: numbered =>
      match header_version header with
      | None => Err (replay_fail source header_line "not a wsblast capture file (no wsblast_capture header)")
      | Some version =>
          if negb (version =? 1)
          then Err (replay_fail source header_line ("unsupported capture format version " +:+ display_u64 version)%string)
          else
            let? workers := replay_lines source numbered ∅ in
            match replay_workers workers with
            | [] => mock_invalid ("--replay: '" +:+ source +:+ "' has no received text or binary frames to replay")%string
            | scripts => Ok (mkReplayScript source scripts)
            end
      end
  end.
End Parse.

(** [ReplayScript::frames_for] *)
Definition frames_for (s : ReplayScript) (index : Z) : list ReplayFrame :=
  default [] (rs_workers s !! Z.to_nat (index mod Z.of_nat (length (rs_workers s)))).
Definition frame_count (s : ReplayScript) : Z := sum_Z ((fun w => Z.of_nat (length w)) <$> rs_workers s).

(** ** What a file says of one worker *)

Definition line_key (l : CaptureLine) : Z * Z := (cl_agent l, cl_worker l).
(** The frame a line replays, if it is one. *)
Definition line_frame (l : CaptureLine) : option (Z * Message) :=
  if decide (cl_dir l = "recv"%string) then
    match replay_message (cl_kind l) (default ""%string (cl_data l)) with Some (Ok m) => Some (cl_t_us l, m) | _ => None end
  else None.
(** A binary record that base64 cannot have written stops the reader. *)
Definition line_ok (l : CaptureLine) : Prop :=
  cl_dir l = "recv"%string -> match replay_message (cl_kind l) (default ""%string (cl_data l)) with Some (Err _) => False | _ => True end.

Definition replay_step (o : option RecordedWorker) (l : CaptureLine) : RecordedWorker :=
  let entry := default (cl_t_us l, []) o in
  (Z.min entry.1 (cl_t_us l), entry.2 ++ match line_frame l with Some f => [f] | None => [] end).

Lemma replay_record_ok l workers : line_ok l ->
  replay_record l workers = Ok (<[line_key l := replay_step (workers !! line_key l) l]> workers).
Proof.
  unfold line_ok, replay_record, replay_step, line_frame, line_key. intros Hl.
  destruct (decide (cl_dir l = "recv"%string)) as [Hd|Hd].
  - rewrite bool_decide_true by done. cbn [negb]. specialize (Hl Hd).
    destruct (replay_message _ _) as [[m|e]|]; [done|done|]. by rewrite app_nil_r.
  - rewrite bool_decide_false by done. cbn [negb]. by rewrite app_nil_r.
Qed.

Definition worker_lines (ls : list CaptureLine) (key : Z * Z) : list CaptureLine := filter (fun l => line_key l = key) ls.
Definition frames_of (ls : list CaptureLine) (key : Z * Z) : list (Z * Message) := omap line_frame (worker_lines ls key).
Definition first_of (ls : list CaptureLine) (key : Z * Z) : Z :=
  match worker_lines ls key with [] => 0 | l :: ls => foldr Z.min (cl_t_us l) (cl_t_us <$> ls) end.

Lemma fold_replay_step ls t fs : fold_left (fun o l => Some (replay_step o l)) ls (Some (t, fs)) =
  Some (foldr Z.min t (cl_t_us <$> ls), fs ++ omap line_frame ls).
Proof.
  revert t fs. induction ls as [|l ls IH]; intros t fs; [cbn; by rewrite app_nil_r|].
  cbn [fold_left]. unfold replay_step at 2. cbn [default from_option id fst snd]. rewrite IH. f_equal. f_equal.
  - cbn. clear. induction ls as [|k ls IH]; cbn; lia.
  - cbn. destruct (line_frame l); by rewrite <-(assoc_L (++)).
Qed.

Definition collected (ls : list CaptureLine) : gmap (Z * Z) RecordedWorker :=
  fold_left (fun m l => <[line_key l := replay_step (m !! line_key l) l]> m) ls ∅.
Lemma collected_lookup ls key : collected ls !! key =
  match worker_lines ls key with [] => None | _ => Some (first_of ls key, frames_of ls key) end.
Proof.
  unfold collected, frames_of, first_of. rewrite (fold_insert_lookup line_key replay_step), lookup_empty.
  fold (worker_lines ls key). destruct (worker_lines ls key) as [|l own]; [done|]. cbn [fold_left].
  unfold replay_step at 2. cbn [default from_option id fst snd]. rewrite Z.min_id, fold_replay_step. f_equal. f_equal.
  cbn. by destruct (line_frame l).
Qed.

#[export] Instance pair_le_trans {V} : Transitive (@pair_le V).
Proof. intros x y z. unfold pair_le. lia. Qed.
#[export] Instance pair_le_total {V} : Total (@pair_le V).
Proof. intros x y. unfold pair_le. lia. Qed.
Definition key_lt (a b : Z * Z) : Prop := a.1 < b.1 \/ (a.1 = b.1 /\ a.2 < b.2).
Lemma pair_entries_perm {V} (m : gmap (Z * Z) V) : pair_entries m ≡ₚ map_to_list m.
Proof. apply merge_sort_Permutation. Qed.
Lemma elem_of_pair_entries {V} (m : gmap (Z * Z) V) k v : (k, v) ∈ pair_entries m <-> m !! k = Some v.
Proof. rewrite pair_entries_perm. apply elem_of_map_to_list. Qed.
Lemma pair_entries_sorted {V} (m : gmap (Z * Z) V) : StronglySorted key_lt (pair_entries m).*1.
Proof.
  assert (NoDup (pair_entries m).*1) as Hnd by (rewrite pair_entries_perm; apply NoDup_fst_map_to_list).
  unfold pair_entries in *. pose proof (StronglySorted_merge_sort (@pair_le V) (map_to_list m)) as Hs.
  induction Hs as [|[k v] l Hs IH Hall]; [constructor|]. cbn in *. apply NoDup_cons in Hnd as [Hk Hnd]. constructor; [by apply IH|].
  apply Forall_fmap, Forall_forall. intros [k' v'] Hin. cbn. rewrite Forall_forall in Hall. specialize (Hall _ Hin).
  unfold pair_le in Hall. cbn in Hall. assert (k <> k') as Hne by (intros ->; apply Hk; by apply (list_elem_of_fmap_2 fst) in Hin).
  unfold key_lt. destruct k as [a b], k' as [a' b']. cbn in *. assert (~ (a = a' /\ b = b')) by (intros [-> ->]; done). lia.
Qed.

(** Frames already in time order stay as they are. *)
Lemma insert_by_time_last f frames : Forall (fun g => g.1 <= f.1) frames -> insert_by_time f frames = frames ++ [f].
Proof.
  induction 1 as [|g rest Hg _ IH]; [done|]. cbn [insert_by_time app]. destruct (Z.ltb_spec f.1 g.1); [lia|]. by rewrite IH.
Qed.
Lemma sort_by_time_sorted frames : StronglySorted (fun f g => f.1 <= g.1) frames -> sort_by_time frames = frames.
Proof.
  unfold sort_by_time. intros Hs. change frames with ([] ++ frames) at 2.
  assert (forall f, f ∈ frames -> Forall (fun g : Z * Message => g.1 <= f.1) []) as Hacc by (intros; constructor). revert Hacc.
  generalize (@nil (Z * Message)) as acc. induction Hs as [|f frames Hs IH Hall]; intros acc Hacc; cbn [fold_left]; [by rewrite app_nil_r|].
  rewrite insert_by_time_last by (apply Hacc; by left). rewrite IH; [by rewrite <-(assoc_L (++))|].
  intros g Hg. apply Forall_app. split; [apply Hacc; by right|]. constructor; [|constructor]. by eapply Forall_forall in Hall.
Qed.

Lemma sorted_filter_keys {A K} (R : K -> K -> Prop) (P : K * A -> Prop) `{forall x, Decision (P x)} (l : list (K * A)) :
  StronglySorted R l.*1 -> StronglySorted R (filter P l).*1.
Proof.
  induction l as [|e l IH]; intros Hs; [constructor|]. rewrite fmap_cons in Hs. apply StronglySorted_inv in Hs as [Hs Hall].
  rewrite filter_cons. case_decide; [|by apply IH]. rewrite fmap_cons. constructor; [by apply IH|].
  apply Forall_fmap, Forall_forall. intros x Hx. apply list_elem_of_filter in Hx as [_ Hx].
  rewrite Forall_fmap, Forall_forall in Hall. by apply Hall.
Qed.

Lemma filter_snd {K A} (P : A -> Prop) `{forall x, Decision (P x)} (l : list (K * A)) :
  filter P l.*2 = (filter (fun e => P e.2) l).*2.
Proof.
  induction l as [|e l IH]; [done|]. rewrite fmap_cons, !filter_cons. destruct (decide (P e.2)); [|done]. by rewrite fmap_cons, IH.
Qed.

(** The scripts are those of the keys with frames, in order. *)
Lemma replay_workers_collected ls : exists ks, StronglySorted key_lt ks /\ (forall k, k ∈ ks <-> frames_of ls k <> []) /\
  replay_workers (collected ls) = (fun k => replay_worker (first_of ls k, frames_of ls k)) <$> ks.
Proof.
  set (m := collected ls). assert (forall k w, (k, w) ∈ pair_entries m <-> worker_lines ls k <> [] /\ w = (first_of ls k, frames_of ls k)) as Hm.
  { intros k w. rewrite elem_of_pair_entries. unfold m. rewrite collected_lookup. destruct (worker_lines ls k); naive_solver. }
  exists (filter (fun e => e.2.2 <> []) (pair_entries m)).*1. split_and!.
  - apply sorted_filter_keys, pair_entries_sorted.
  - intros k. rewrite list_elem_of_fmap. split.
    + intros ([k' w] & -> & [Hw Hin]%list_elem_of_filter). apply Hm in Hin as [_ ->]. exact Hw.
    + intros Hf. exists (k, (first_of ls k, frames_of ls k)). split; [done|]. apply list_elem_of_filter. split; [done|].
      apply Hm. split; [|done]. intros Hnil. apply Hf. unfold frames_of. by rewrite Hnil.
  - unfold replay_workers. rewrite filter_snd, <-!list_fmap_compose.
    apply list_fmap_ext. intros i [k w] Hin. unfold compose. cbn [fst snd]. apply list_elem_of_lookup_2, list_elem_of_filter in Hin as [_ Hin].
    apply Hm in Hin as [_ ->]. done.
Qed.

(** ** What was captured is replayed *)

(** A text that is one line of a file and stays one when trimmed. *)
Definition one_line (t : string) : Prop :=
  t <> ""%string /\ (LF ∉ list_ascii_of_string t) /\ trim t = t /\ strip_suffix (String CR "") t = None.

Lemma lines_loop_line t acc rest : LF ∉ list_ascii_of_string t -> strip_suffix (String CR "") (acc +:+ t) = None ->
  lines_loop (t +:+ String LF rest) acc = (acc +:+ t)%string :: lines rest.
Proof.
  revert acc. induction t as [|c t IH]; intros acc Ht Hcr.
  - rewrite app_string_nil. cbn [lines_loop]. rewrite decide_True by done. rewrite app_string_nil_r in *. by rewrite Hcr.
  - cbn [list_ascii_of_string] in Ht. apply not_elem_of_cons in Ht as [Hc Ht]. rewrite app_string_cons. cbn [lines_loop].
    rewrite decide_False by congruence. rewrite IH; [by rewrite app_string_assoc|done|by rewrite app_string_assoc].
Qed.

Lemma numbered_lines_of (ts : list string) : Forall one_line ts ->
  (numbered_lines (String.concat "" ((fun t => t +:+ newline)%string <$> ts))).*2 = ts.
Proof.
  intros Hts. unfold numbered_lines. assert (lines (String.concat "" ((fun t => t +:+ newline)%string <$> ts)) = ts) as ->.
  { induction Hts as [|t ts (Hne & Hlf & Htrim & Hcr) _ IH]; [done|].
    assert (String.concat "" ((fun t => (t +:+ newline)) <$> (t :: ts)) = t +:+ String LF (String.concat "" ((fun t => t +:+ newline) <$> ts)))%string as ->.
    { destruct ts; cbn; rewrite ?app_string_assoc; done. }
    unfold lines at 1. rewrite lines_loop_line by done. by rewrite IH. }
  assert (forall f : nat -> Z, (filter (fun e => e.2 <> ""%string) (imap (fun i line => (f i, trim line)) ts)).*2 = ts) as Hf; [|apply Hf].
  induction Hts as [|t ts (Hne & Hlf & Htrim & Hcr) _ IH]; intros f; [done|].
  rewrite imap_cons, filter_cons, Htrim, decide_True by done. rewrite fmap_cons. cbn [snd]. f_equal. apply (IH (f ∘ S)).
Qed.

Section Captured.
Context {N : Type} `{SerdeJson N} (decode_line : string -> result CaptureLine string).
Context (header_pieces : list string) (line_pieces : WireRecord -> list string).

Lemma replay_lines_ok source numbered ls workers :
  Forall2 (fun e l => decode_line e.2 = Ok l /\ line_ok l) numbered ls ->
  replay_lines decode_line source numbered workers =
    Ok (fold_left (fun m l => <[line_key l := replay_step (m !! line_key l) l]> m) ls workers).
Proof.
  intros Hl. revert workers. induction Hl as [|[n t] l numbered ls [Hd Hok] _ IH]; intros workers; [done|].
  cbn [replay_lines fold_left]. cbn [snd] in Hd. rewrite Hd. cbn [result_map_err result_bind].
  rewrite replay_record_ok by done. cbn [result_map_err result_bind]. apply IH.
Qed.

(** The reader of a text that is a header and lines which decode. *)
Lemma replay_parse_lines source header (texts : list string) (ls : list CaptureLine) :
  header_version header = Some 1 -> one_line header -> Forall one_line texts ->
  Forall2 (fun t l => decode_line t = Ok l /\ line_ok l) texts ls ->
  replay_parse decode_line source (String.concat "" ((fun t => t +:+ newline)%string <$> header :: texts)) =
    match replay_workers (collected ls) with
    | [] => mock_invalid ("--replay: '" +:+ source +:+ "' has no received text or binary frames to replay")%string
    | scripts => Ok (mkReplayScript source scripts)
    end.
Proof.
  intros Hv Hh Hts Hls. pose proof (numbered_lines_of (header :: texts) (Forall_cons_2 _ _ _ Hh Hts)) as Hn.
  unfold replay_parse. destruct (numbered_lines _) as [|[n h] numbered]; [done|]. rewrite fmap_cons in Hn. cbn [snd] in Hn.
  injection Hn as -> Hn. rewrite Hv. cbn [negb Z.eqb]. rewrite (replay_lines_ok source numbered ls).
  - cbn [result_bind]. done.
  - rewrite <-Hn in Hls. by apply Forall2_fmap_l in Hls.
Qed.
End Captured.

(** The line a record is read back as. *)
Definition replayed (agent : Z) (r : WireRecord) : CaptureLine :=
  mkCaptureLine (we_t_us r) agent (we_worker r) (we_dir r) (we_kind r) (we_data r).
(** The data frame a record received. *)
Definition received_frame (r : CaptureRecord) : option (Z * Message) :=
  match cr_dir r, cr_event r with
  | Recv, EvText text => Some (cr_t_us r, Text text)
  | Recv, EvBinary bytes => Some (cr_t_us r, Binary bytes)
  | _, _ => None
  end.
Definition record_ok (r : CaptureRecord) : Prop := match cr_event r with EvBinary bytes => Forall is_u8 bytes | _ => True end.

Lemma base64_text bytes : Forall is_u8 bytes ->
  base64_decode (bytes_of_string (string_of_bytes (base64_encode bytes))) = Some bytes.
Proof. intros Hb. rewrite bytes_of_string_of_bytes; [by apply base64_round_trip|]. by apply base64_encode_range. Qed.

Lemma replayed_frame agent r : record_ok r ->
  line_frame (replayed agent (wire_record r)) = received_frame r /\ line_ok (replayed agent (wire_record r)).
Proof.
  unfold record_ok, line_frame, line_ok, received_frame, replay_message. intros Hr.
  destruct r as [t w [] event]; destruct event as [|text|bytes|[[code reason]|]];
    cbn [wire_record replayed cl_dir cl_kind cl_data cl_t_us cr_dir cr_event cr_t_us cr_worker dir_str we_t_us we_worker we_dir we_kind
      we_data default from_option id]; repeat (case_decide; try done); by rewrite ?base64_text.
Qed.

Definition worker_records (rs : list CaptureRecord) (w : Z) : list CaptureRecord := filter (fun r => cr_worker r = w) rs.
Definition record_frames (rs : list CaptureRecord) (w : Z) : list (Z * Message) := omap received_frame (worker_records rs w).
Definition first_record (rs : list CaptureRecord) (w : Z) : Z :=
  match worker_records rs w with [] => 0 | r :: rs => foldr Z.min (cr_t_us r) (cr_t_us <$> rs) end.

Definition replayed_lines (rs : list CaptureRecord) : list CaptureLine := (fun r => replayed 0 (wire_record r)) <$> rs.
Lemma wire_record_fields r : we_worker (wire_record r) = cr_worker r /\ we_t_us (wire_record r) = cr_t_us r.
Proof. unfold wire_record. by destruct r as [t w d [| | |[[]|]]]. Qed.
Lemma replayed_worker_lines rs a w : worker_lines (replayed_lines rs) (a, w) =
  if decide (a = 0) then replayed_lines (worker_records rs w) else [].
Proof.
  unfold replayed_lines, worker_lines, worker_records. induction rs as [|r rs IH]; [by destruct (decide _)|].
  rewrite fmap_cons, !filter_cons, IH. unfold line_key. cbn [cl_agent cl_worker replayed]. rewrite (proj1 (wire_record_fields r)).
  destruct (decide (a = 0)) as [->|Ha].
  - destruct (decide (cr_worker r = w)) as [->|Hw]; [by rewrite decide_True|]. rewrite decide_False; [done|congruence].
  - rewrite decide_False; [done|congruence].
Qed.
Lemma replayed_frames rs a w : Forall record_ok rs ->
  frames_of (replayed_lines rs) (a, w) = if decide (a = 0) then record_frames rs w else [].
Proof.
  intros Hrs. unfold frames_of. rewrite replayed_worker_lines. destruct (decide (a = 0)) as [_|_]; [|done].
  unfold record_frames. assert (Forall record_ok (worker_records rs w)) as Hown.
  { apply Forall_forall. intros r [_ Hr]%list_elem_of_filter. by eapply Forall_forall in Hrs. }
  unfold replayed_lines. induction Hown as [|r own Hr _ IH]; [done|]. rewrite fmap_cons. cbn [omap list_omap].
  rewrite (proj1 (replayed_frame 0 r Hr)). change (list_omap _ _ line_frame) with (omap (M := list) line_frame). by rewrite IH.
Qed.
Lemma replayed_first rs w : first_of (replayed_lines rs) (0, w) = first_record rs w.
Proof.
  unfold first_of, first_record. rewrite replayed_worker_lines, decide_True by done.
  assert (forall own, cl_t_us <$> replayed_lines own = cr_t_us <$> own) as Ht.
  { intros own. unfold replayed_lines. rewrite <-list_fmap_compose. apply list_fmap_ext. intros _ r _. by apply wire_record_fields. }
  destruct (worker_records rs w) as [|r own]; [done|]. unfold replayed_lines at 1. rewrite fmap_cons. cbn [replayed cl_t_us].
  rewrite (proj2 (wire_record_fields r)). fold (replayed_lines own). by rewrite Ht.
Qed.

Lemma capture_text_lines header_pieces line_pieces rs :
  capture_text header_pieces line_pieces rs =
    String.concat "" ((fun t => t +:+ newline)%string <$>
      String.concat "" header_pieces :: ((fun r => String.concat "" (line_pieces (wire_record r))) <$> rs)).
Proof.
  unfold capture_text, line_text. rewrite fmap_cons, <-list_fmap_compose.
  by destruct rs; cbn; rewrite ?app_string_nil_r.
Qed.

(** C15. A capture file replays what was captured: a file that [wsblast
    --capture] wrote is accepted by [wsblast mock --replay], which gives every
    recorded worker that received data, in ascending order, exactly the text
    and binary frames it received, byte for byte and in order, each as long
    after the worker's first record as it was recorded; a file in which no
    worker received data is refused. *)
Theorem capture_replays {N : Type} `{SerdeJson N} (decode_line : string -> result CaptureLine string)
    (header_pieces : list string) (line_pieces : WireRecord -> list string) (source : string) (rs : list CaptureRecord)
    (Hheader : header_version (String.concat "" header_pieces) = Some 1 /\ one_line (String.concat "" header_pieces))
    (Hlines : Forall (fun r => let text := String.concat "" (line_pieces (wire_record r)) in
       one_line text /\ decode_line text = Ok (replayed 0 (wire_record r))) rs)
    (Hrs : Forall record_ok rs)
    (Htimes : forall w, StronglySorted (fun f g => f.1 <= g.1) (record_frames rs w)) :
  match replay_parse decode_line source (capture_text header_pieces line_pieces rs) with
  | Ok script =>
      exists ws, StronglySorted Z.lt ws /\ (forall w, w ∈ ws <-> record_frames rs w <> []) /\
        rs_workers script = (fun w => (fun f => mkReplayFrame (from_micros (f.1 - first_record rs w)) f.2) <$> record_frames rs w) <$> ws
  | Err _ => forall w, record_frames rs w = []
  end.
Proof.
  destruct Hheader as [Hv Hh]. rewrite capture_text_lines.
  rewrite (replay_parse_lines decode_line source _ _ (replayed_lines rs) Hv Hh).
  - destruct (replay_workers_collected (replayed_lines rs)) as (ks & Hsort & Hks & ->).
    assert (forall k, k ∈ ks -> k.1 = 0 /\ record_frames rs k.2 <> []) as Hk0.
    { intros [a w] Hk. apply Hks in Hk. rewrite replayed_frames in Hk by done. by destruct (decide (a = 0)). }
    destruct ks as [|k ks]; [cbn; intros w|rewrite fmap_cons; cbn [rs_workers]; exists (k :: ks).*2; split_and!].
    + destruct (record_frames rs w) eqn:Er; [done|]. exfalso. assert ((0, w) ∈ @nil (Z * Z)) as Hin; [|by inversion Hin].
      apply Hks. rewrite replayed_frames by done. cbn. by rewrite Er.
    + clear Hks. induction Hsort as [|k' ks' Hs IH Hall]; [constructor|]. rewrite fmap_cons. constructor.
      * apply IH. intros x Hx. apply Hk0. by right.
      * apply Forall_fmap, Forall_forall. intros x Hx. rewrite Forall_forall in Hall. specialize (Hall x Hx). unfold key_lt in Hall.
        destruct (Hk0 k' ltac:(by left)) as [Hz _]. destruct (Hk0 x ltac:(by right)) as [Hzx _]. unfold compose. lia.
    + intros w. rewrite list_elem_of_fmap. split; [intros ([a w'] & -> & Hin); by apply Hk0 in Hin as [_ ?]|].
      intros Hw. exists (0, w). split; [done|]. apply Hks. by rewrite replayed_frames.
    + rewrite <-(fmap_cons (fun k => replay_worker (first_of (replayed_lines rs) k, frames_of (replayed_lines rs) k))), <-list_fmap_compose. apply list_fmap_ext. intros i [a w] Hin. apply list_elem_of_lookup_2, Hk0 in Hin as [Ha _].
      cbn in Ha. subst a. unfold compose, replay_worker. cbn [fst snd]. rewrite replayed_frames, replayed_first, decide_True by done.
      cbn [fst snd]. by rewrite (sort_by_time_sorted _ (Htimes w)).
  - apply Forall_fmap. eapply Forall_impl; [exact Hlines|]. by intros r [? _].
  - unfold replayed_lines. apply Forall2_fmap, Forall_Forall2_diag, Forall_forall. intros r Hr. rewrite Forall_forall in Hlines, Hrs.
    split; [by apply Hlines|by apply replayed_frame, Hrs].
Qed.

(** Two workers; the second also sent a frame, and opened first. *)
Module SampleReplay.
Definition line (r : WireRecord) : list string :=
  [print_json (Object ([("t_us"%string, Number (we_t_us r)); ("worker"%string, Number (we_worker r)); ("dir"%string, JString (we_dir r));
     ("kind"%string, JString (we_kind r)); ("len"%string, Number (we_len r))] ++
     match we_data r with Some data => [("data"%string, JString data)] | None => [] end))].
Definition header : list string := [print_json (Object [("wsblast_capture"%string, Number 1)])].
Definition decode (text : string) : result CaptureLine string :=
  match parse_json text with
  | Ok (Object m) =>
      match member "t_us" m, member "worker" m, member "dir" m, member "kind" m with
      | Some (Number t), Some (Number w), Some (JString dir), Some (JString kind) =>
          Ok (mkCaptureLine t 0 w dir kind match member "data" m with Some (JString data) => Some data | _ => None end)
      | _, _, _, _ => Err "missing field"%string
      end
  | Ok _ => Err "invalid type"%string
  | Err e => Err e
  end.
Definition records : list CaptureRecord :=
  [mkCaptureRecord 100 4 Recv EvOpen; mkCaptureRecord 120 1 Recv EvOpen; mkCaptureRecord 130 4 Sent (EvText "hello");
   mkCaptureRecord 150 4 Recv (EvBinary [0; 255; 10]); mkCaptureRecord 180 4 Recv (EvText "hi"); mkCaptureRecord 190 1 Recv (EvText "yo")].
End SampleReplay.
#[local] Existing Instance text_json.

Lemma sample_one_line (t : string) :
  bool_decide (t <> ""%string) && bool_decide (LF ∉ list_ascii_of_string t) && bool_decide (trim t = t) &&
  bool_decide (strip_suffix (String CR "") t = None) = true -> one_line t.
Proof. intros [[[H1 H2]%andb_true_iff H3]%andb_true_iff H4]%andb_true_iff. repeat split; by eapply bool_decide_eq_true. Qed.

Lemma capture_replays_witness : exists script,
  replay_parse SampleReplay.decode "c.jsonl" (capture_text SampleReplay.header SampleReplay.line SampleReplay.records) = Ok script /\
  frames_for script 1 = [mkReplayFrame 50000 (Binary [0; 255; 10]); mkReplayFrame 80000 (Text "hi")] /\
  exists ws, StronglySorted Z.lt ws /\ (forall w, w ∈ ws <-> record_frames SampleReplay.records w <> []).
Proof.
  pose proof (capture_replays SampleReplay.decode SampleReplay.header SampleReplay.line "c.jsonl" SampleReplay.records) as Hr.
  destruct (replay_parse SampleReplay.decode "c.jsonl" (capture_text SampleReplay.header SampleReplay.line SampleReplay.records))
    as [script|] eqn:E; [|vm_compute in E; discriminate].
  destruct Hr as (ws & Hsort & Hws & _).
  - split; [reflexivity|]. apply sample_one_line. vm_compute. reflexivity.
  - repeat constructor; try (apply sample_one_line); vm_compute; reflexivity.
  - repeat constructor; discriminate.
  - intros w. unfold record_frames, worker_records, SampleReplay.records.
    destruct (decide (w = 4)) as [->|H4]; [vm_compute; repeat constructor; discriminate|].
    destruct (decide (w = 1)) as [->|H1]; [vm_compute; repeat constructor|].
    rewrite !filter_cons. cbn [cr_worker]. rewrite !decide_False by congruence. constructor.
  - exists script. split; [reflexivity|]. split; [vm_compute in E; injection E as <-; vm_compute; reflexivity|]. exists ws. exact (conj Hsort Hws).
Defined.
