(* ===== verification/Mock.v ===== *)
(** * The mock server (src/src/mock.rs)

    Its configuration, the accept loop's decisions and one connection's
    session: the rounds of [run_session] as a function of what wakes it up
    and when.  Sockets, timers and reading files are events and parameters;
    a time is in nanoseconds. *)

From Stdlib Require Import ZArith Lia Ascii String.
From stdpp Require Import base tactics strings numbers option gmap list.
From S2P Require Import Prelude RustStd Str Json JsonText Slo Live Wire Chaos Data SocketIo Config MockRules Replay.

Local Open Scope Z_scope.
Local Open Scope rust_scope.

Definition DEFAULT_LISTEN : string := "127.0.0.1:9001".

Record Stall := mkStall { sl_every : Z; sl_length : Z }.

Section Mock.
Context {N : Type} `{SerdeJson N, Formatter}.

Record MockConfig := mkMockConfig {
  mc_listen : string;
  mc_delay : Z;
  mc_jitter : Z;
  mc_close_after : option Z;
  mc_reject_ratio : f64;
  mc_stall : option Stall;
  mc_replay : option ReplayScript;
  mc_rules : option (MockRules (N := N));
  mc_socketio : option (Z * Z);
  mc_compression : bool;
  mc_seed : option Z;
  mc_tls : bool;
}.

Record MockConfigBuilder := mkMockConfigBuilder {
  mb_listen : string;
  mb_delay : Z;
  mb_jitter : Z;
  mb_close_after : option Z;
  mb_reject_ratio : f64;
  mb_stall_every : option Z;
  mb_stall_for : option Z;
  mb_replay : option string;
  mb_rules : option string;
  mb_socketio : option (Z * Z);
  mb_compression : bool;
  mb_seed : option Z;
  mb_tls : option (string * string);
}.
#[export] Instance MockConfigBuilder_eta : Settable MockConfigBuilder := fun b =>
  mkMockConfigBuilder (mb_listen b) (mb_delay b) (mb_jitter b) (mb_close_after b) (mb_reject_ratio b) (mb_stall_every b)
    (mb_stall_for b) (mb_replay b) (mb_rules b) (mb_socketio b) (mb_compression b) (mb_seed b) (mb_tls b).
Definition mock_builder : MockConfigBuilder :=
  mkMockConfigBuilder DEFAULT_LISTEN 0 0 None f64_zero None None None None None false None None.

(** The files [build] reads: their texts, what serde makes of a rules file,
    and the server's certificate. *)
Record MockEnv := mkMockEnv {
  mv_read : string -> result string string;
  mv_decode_line : string -> result CaptureLine string;
  mv_rules_file : string -> result (RulesFile (N := N)) string;
  mv_server_config : string -> string -> result unit WsBlastError;
}.

Definition build_stall (every length : option Z) : result (option Stall) WsBlastError :=
  match every, length with
  | None, None => Ok None
  | Some every, Some length =>
      if (every =? 0) || (length =? 0) then mock_invalid "--stall-every and --stall-for must be greater than zero"
      else if every <=? length
      then mock_invalid ("--stall-for (" +:+ debug_duration length +:+ ") must be shorter than --stall-every (" +:+
        debug_duration every +:+ ")")%string
      else Ok (Some (mkStall every length))
  | _, _ => mock_invalid "--stall-every and --stall-for must be given together"
  end.

Definition load_file {A} (flag path : string) (env : MockEnv) (parse : string -> result A WsBlastError) : result A WsBlastError :=
  match mv_read env path with
  | Err err => mock_invalid (flag +:+ ": cannot read '" +:+ path +:+ "': " +:+ err)%string
  | Ok text => parse text
  end.

Definition optional_load {A} (load : string -> result A WsBlastError) (path : option string) : result (option A) WsBlastError :=
  match path with None => Ok None | Some path => let? a := load path in Ok (Some a) end.

(** [MockConfigBuilder::build] *)
Definition mock_build (env : MockEnv) (b : MockConfigBuilder) : result MockConfig WsBlastError :=
  if bool_decide (trim (mb_listen b) = ""%string) then mock_invalid "--listen must be a host:port address"
  else if negb (f64_is_finite (mb_reject_ratio b)) ||
          negb (f64_leb f64_zero (mb_reject_ratio b) && f64_leb (mb_reject_ratio b) (f64_of_Z 1))
  then mock_invalid ("--reject-ratio must be between 0.0 and 1.0, received " +:+ display_f64 (mb_reject_ratio b))%string
  else if bool_decide (mb_close_after b = Some 0) then mock_invalid "--close-after must be at least 1"
  else
    let? stall := build_stall (mb_stall_every b) (mb_stall_for b) in
    if bool_decide (is_Some (mb_socketio b)) && (bool_decide (is_Some (mb_replay b)) || bool_decide (is_Some (mb_rules b)))
    then mock_invalid "--socketio cannot be combined with --rules or --replay"
    else if match mb_socketio b with Some (interval, timeout) => (interval =? 0) || (timeout =? 0) | None => false end
    then mock_invalid "the Socket.IO ping interval and timeout must be greater than zero"
    else if bool_decide (is_Some (mb_replay b)) && bool_decide (is_Some (mb_rules b))
    then mock_invalid "--rules and --replay cannot be combined: replay sends recorded frames, rules answer received ones"
    else
      let? replay := optional_load (fun path => load_file "--replay" path env (replay_parse (mv_decode_line env) path)) (mb_replay b) in
      let? rules := optional_load (fun path => load_file "--rules" path env (fun text => rules_parse path (mv_rules_file env text)))
                      (mb_rules b) in
      let? tls := match mb_tls b with
                  | None => Ok false
                  | Some (cert, key) => let? _ := mv_server_config env cert key in Ok true
                  end in
      Ok (mkMockConfig (mb_listen b) (mb_delay b) (mb_jitter b) (mb_close_after b) (mb_reject_ratio b) stall replay rules
            (mb_socketio b) (mb_compression b) (mb_seed b) tls).

(** ** The accept loop *)

Record ConnectionPlan := mkConnectionPlan { cp_reject : bool; cp_seed : Z; cp_index : Z }.

(** [time_seed] of the mock: the clock's nanoseconds and the process id. *)
Definition mock_time_seed (nanos : option Z) (pid : Z) : Z := Z.lxor (Prelude.as_u64 (default 0 nanos)) (u64_rotate_left pid 32).

(** One accepted connection: its plan, and the generator and the next
    index after it. *)
Definition accept_plan (c : MockConfig) (rng index : Z) : ConnectionPlan * Z * Z :=
  let (draw, rng) := next_f64 rng in
  let (seed, rng) := next_u64 rng in
  let reject := f64_ltb draw (mc_reject_ratio c) in
  (mkConnectionPlan reject seed index, rng, if reject then index else index +u 1).
Fixpoint accept_plans (c : MockConfig) (n : nat) (rng index : Z) : list ConnectionPlan :=
  match n with
  | O => []
  | S n => let '(plan, rng, index) := accept_plan c rng index in plan :: accept_plans c n rng index
  end.
Definition server_plans (c : MockConfig) (nanos : option Z) (pid : Z) (n : nat) : list ConnectionPlan :=
  accept_plans c n (XorShift64_new (default (mock_time_seed nanos pid) (mc_seed c))) 0.

(** ** When a reply goes out *)

(** [Shared::stall_release]: the end of the stall [now] falls in. *)
Definition stall_release (c : MockConfig) (epoch now : Z) : option Z :=
  stall ← mc_stall c;
  let elapsed := saturating_duration_since now epoch in
  let cycles := elapsed / sl_every stall in
  if cycles =? 0 then None
  else
    let into_cycle := elapsed mod sl_every stall in
    if into_cycle <? sl_length stall then Some (now + Z.min u64_max (sl_length stall - into_cycle)) else None.

(** [reply_delay_from]: [base] plus jitter. *)
Definition reply_delay_from (c : MockConfig) (base rng : Z) : Z * Z :=
  if mc_jitter c =? 0 then (base, rng)
  else let (extra, rng) := at_most (Z.min u64_max (mc_jitter c)) rng in (base + extra, rng).
Definition reply_delay (c : MockConfig) (rng : Z) : Z * Z := reply_delay_from c (mc_delay c) rng.

(** ** One connection's session *)

Inductive Queued :=
| QFrame (m : Message)
| QControl (m : Message)
| QClose (code : Z) (reason : string).

Inductive Outgoing :=
| EchoQueue (queue : list (Z * Queued))
| ReplayFrom (frames : list ReplayFrame) (next : nat) (start : Z) (due : option Z).

(** [Outgoing::next_due], which draws a replayed frame's delay once. *)
Definition next_due (c : MockConfig) (out : Outgoing) (rng : Z) : option Z * Outgoing * Z :=
  match out with
  | EchoQueue queue => (fst <$> list.head queue, out, rng)
  | ReplayFrom frames next start due =>
      match frames !! next with
      | None => (None, out, rng)
      | Some frame =>
          match due with
          | Some due => (Some due, out, rng)
          | None =>
              let (delay, rng) := reply_delay c rng in
              let due := start + rp_offset frame + delay in
              (Some due, ReplayFrom frames next start (Some due), rng)
          end
      end
  end.
(** [Outgoing::pop] *)
Definition pop_outgoing (out : Outgoing) : option Queued * Outgoing :=
  match out with
  | EchoQueue [] => (None, out)
  | EchoQueue ((_, item) :: queue) => (Some item, EchoQueue queue)
  | ReplayFrom frames next start due =>
      match frames !! next with
      | None => (None, out)
      | Some frame => (Some (QFrame (rp_message frame)), ReplayFrom frames (S next) start None)
      end
  end.

(** [queue_replies]: what is queued for the [seq]-th data frame. *)
Definition decide_frame (c : MockConfig) (msg : Message) (seq : Z) : MockDecision :=
  match mc_rules c with Some rules => rules_decide rules msg seq | None => DecideEcho end.
Definition queue_replies (c : MockConfig) (now : Z) (msg : Message) (seq rng : Z) : list (Z * Queued) * Z :=
  match decide_frame c msg seq with
  | DecideEcho => let (delay, rng) := reply_delay c rng in ([(now + delay, QFrame msg)], rng)
  | DecideIgnore => ([], rng)
  | DecideReply frames delay close =>
      let (delay, rng) := reply_delay_from c (default (mc_delay c) delay) rng in
      let due := now + delay in
      (((fun f => (due, QFrame f)) <$> frames) ++
       match close with Some (code, reason) => [(due, QClose code reason)] | None => [] end, rng)
  end.

(** The variables of [run_session]. *)
Record SessionState := mkSessionState {
  me_out : Outgoing;
  me_rng : Z;
  me_replies : Z;
  me_received : Z;
  me_sio : MockSession;
  me_ping_at : option Z;
  me_pong_by : option Z;
}.
#[export] Instance SessionState_eta : Settable SessionState := fun s =>
  mkSessionState (me_out s) (me_rng s) (me_replies s) (me_received s) (me_sio s) (me_ping_at s) (me_pong_by s).

Definition mock_sid (plan : ConnectionPlan) : string := ("wsblast-mock-" +:+ display_u64 (cp_index plan))%string.
Definition mock_engine (engine_io_3 : bool) : EngineIo := if engine_io_3 then V3 else V4.
(** Whether a handshake's query asks for Engine.IO 3: [EIO=3] among its
    pairs. *)
Fixpoint query_pairs (fuel : nat) (query : string) : list string :=
  match fuel with
  | O => [query]
  | S fuel => match split_once "&" query with Some (p, rest) => p :: query_pairs fuel rest | None => [query] end
  end.
Definition asks_engine_io_3 (query : option string) : bool :=
  match query with
  | Some query => existsb (fun pair_ => bool_decide (pair_ = "EIO=3"%string)) (query_pairs (String.length query) query)
  | None => false
  end.

(** [run_session] up to its loop. *)
Definition session_start (c : MockConfig) (plan : ConnectionPlan) (now : Z) (engine_io_3 : bool) : SessionState :=
  let out := match mc_replay c with Some script => ReplayFrom (frames_for script (cp_index plan)) 0 now None | None => EchoQueue [] end in
  let s := mkSessionState out (XorShift64_new (cp_seed plan)) 0 0 (MockSession_new (mock_engine engine_io_3)) None None in
  match mc_socketio c, out with
  | Some (interval, timeout), EchoQueue queue =>
      let greeting := socketio_greeting (mock_sid plan) (as_millis interval) (as_millis timeout) (mock_engine engine_io_3) in
      let s := s <| me_out := EchoQueue (queue ++ ((fun m => (now, QControl m)) <$> greeting)) |> in
      if engine_io_3 then s <| me_pong_by := Some (now + interval + timeout) |> else s <| me_ping_at := Some (now + interval) |>
  | _, _ => s
  end.

(** What a round gives to the socket, what it counts, and whether it ends
    the session. *)
Record RoundOut := mkRoundOut { ro_frames : list Message; ro_received : bool; ro_sent : bool; ro_ends : bool }.
Definition no_output : RoundOut := mkRoundOut [] false false false.
Definition ends_with_close (code : Z) (reason : string) : RoundOut :=
  mkRoundOut [Close (Some (mkCloseFrame code reason))] false false true.
Definition shut_down : RoundOut := ends_with_close 1001 "server shutting down".

(** What wakes the loop up: the cancellation, the ping timer, a due frame -
    with whether the server is cancelled during a stall that holds it - or
    what the stream yields; [sent] is whether a send succeeds. *)
Inductive ReadFailure := ReadFailed.
Inductive MockWake :=
| WakeCancelled
| WakePing (sent : bool)
| WakeDue (cancelled_in_stall sent : bool)
| WakeReceived (frame : option (result Message ReadFailure)).

(** [Event::Ping] *)
Definition round_ping (c : MockConfig) (now : Z) (sent : bool) (s : SessionState) : SessionState * RoundOut :=
  if match me_pong_by s with Some by_ => by_ <=? now | None => false end then (s, ends_with_close 1000 "ping timeout")
  else match mc_socketio c, me_ping_at s with
       | Some (interval, timeout), Some at_ =>
           if at_ <=? now then
             if sent then (s <| me_pong_by := Some (now + timeout) |> <| me_ping_at := Some (now + interval) |>,
                           mkRoundOut [Text "2"] false false false)
             else (s, mkRoundOut [] false false true)
           else (s, no_output)
       | _, _ => (s, no_output)
       end.

(** [Event::Due] *)
Definition round_due (c : MockConfig) (epoch now : Z) (cancelled_in_stall sent : bool) (s : SessionState) : SessionState * RoundOut :=
  if bool_decide (is_Some (stall_release c epoch now)) && cancelled_in_stall then (s, shut_down)
  else
    let (item, out) := pop_outgoing (me_out s) in
    let s := s <| me_out := out |> in
    match item with
    | None => (s, no_output)
    | Some (QControl m) => (s, if sent then mkRoundOut [m] false false false else mkRoundOut [] false false true)
    | Some (QClose code reason) => (s, ends_with_close code reason)
    | Some (QFrame m) =>
        if negb sent then (s, mkRoundOut [] false false true)
        else
          let s := s <| me_replies ::= fun n => n +u 1 |> in
          if bool_decide (mc_close_after c = Some (me_replies s))
          then (s, mkRoundOut [m; Close (Some (mkCloseFrame 1000 "close-after"))] false true true)
          else (s, mkRoundOut [m] false true false)
    end.

Definition push_items (items : list (Z * Queued)) (s : SessionState) : SessionState :=
  match me_out s with EchoQueue queue => s <| me_out := EchoQueue (queue ++ items) |> | _ => s end.

(** A data frame of a Socket.IO session. *)
Definition socketio_frame (c : MockConfig) (plan : ConnectionPlan) (interval timeout now : Z) (msg : Message) (s : SessionState)
  : SessionState * RoundOut :=
  if bool_decide (msg = Text "3") then (s <| me_pong_by := None |>, no_output)
  else
    let s := if bool_decide (ms_engine (me_sio s) = V3) && bool_decide (msg = Text "2")
             then s <| me_pong_by := Some (now + interval + timeout) |> else s in
    let (sio, answer) := mock_receive msg (mock_sid plan) (me_sio s) in
    let s := s <| me_sio := sio |> in
    match answer with
    | None => (s, no_output)
    | Some answer =>
        let s := if mk_event answer then s <| me_received ::= fun n => n +u 1 |> else s in
        let counted := mkRoundOut [] (mk_event answer) false false in
        match me_out s with
        | EchoQueue _ =>
            let (delay, rng) := if mk_event answer then reply_delay c (me_rng s) else (0, me_rng s) in
            let item i frame := (now + delay, if mk_event answer && Nat.eqb i 0 then QFrame frame else QControl frame) in
            (push_items (imap item (mk_frames answer)) (s <| me_rng := rng |>), counted)
        | _ => (s, counted)
        end
    end.

(** [Event::Received] *)
Definition round_received (c : MockConfig) (plan : ConnectionPlan) (now : Z) (frame : option (result Message ReadFailure))
    (s : SessionState) : SessionState * RoundOut :=
  match frame with
  | None | Some (Err _) => (s, mkRoundOut [] false false true)
  | Some (Ok (Close _)) => (s, mkRoundOut [] false false true)
  | Some (Ok ((Text _ | Binary _) as msg)) =>
      match mc_socketio c with
      | Some (interval, timeout) => socketio_frame c plan interval timeout now msg s
      | None =>
          let s := s <| me_received ::= fun n => n +u 1 |> in
          let counted := mkRoundOut [] true false false in
          match me_out s with
          | EchoQueue _ =>
              let (items, rng) := queue_replies c now msg (me_received s) (me_rng s) in
              (push_items items (s <| me_rng := rng |>), counted)
          | _ => (s, counted)
          end
      end
  | Some (Ok _) => (s, no_output)
  end.

(** One round of the loop; [now] is when the event is handled. *)
Definition mock_round (c : MockConfig) (plan : ConnectionPlan) (epoch now : Z) (w : MockWake) (s : SessionState) : SessionState * RoundOut :=
  let '(_, out, rng) := next_due c (me_out s) (me_rng s) in
  let s := s <| me_out := out |> <| me_rng := rng |> in
  match w with
  | WakeCancelled => (s, shut_down)
  | WakePing sent => round_ping c now sent s
  | WakeDue cancelled_in_stall sent => round_due c epoch now cancelled_in_stall sent s
  | WakeReceived frame => round_received c plan now frame s
  end.

(** Whether the round can happen at [now]: timers fire when they are due,
    the ping timer before the frames'. *)
Definition wake_enabled (c : MockConfig) (now : Z) (w : MockWake) (s : SessionState) : bool :=
  let '(due, _, _) := next_due c (me_out s) (me_rng s) in
  match w with
  | WakeCancelled | WakeReceived _ => true
  | WakePing _ => match (match me_pong_by s with Some by_ => Some by_ | None => me_ping_at s end) with Some at_ => at_ <=? now | None => false end
  | WakeDue _ _ => match due with Some due => due <=? now | None => false end
  end.

(** The session over what happens; [None] if a timer fires early. *)
Fixpoint mock_session (c : MockConfig) (plan : ConnectionPlan) (epoch : Z) (wakes : list (Z * MockWake)) (s : SessionState)
  : option (SessionState * list RoundOut) :=
  match wakes with
  | [] => Some (s, [])
  | (now, w) :: wakes =>
      if negb (wake_enabled c now w s) then None
      else
        let (s, out) := mock_round c plan epoch now w s in
        if ro_ends out then Some (s, [out])
        else '(s, outs) ← mock_session c plan epoch wakes s; Some (s, out :: outs)
  end.
End Mock.

(** ** Stalls *)

(** [now] falls in a stall: in the first [length] of a cycle, the first
    cycle - before one [every] has passed - excepted. *)
Definition stalled_at (st : Stall) (epoch now : Z) : Prop :=
  exists k, 1 <= k /\ epoch + k * sl_every st <= now < epoch + k * sl_every st + sl_length st.

Section Stalls.
Context {N : Type} `{SerdeJson N, Formatter}.
Implicit Types (c : MockConfig (N := N)) (s : SessionState).

Lemma stall_cycle (st : Stall) (epoch now : Z) : 0 < sl_length st < sl_every st -> epoch <= now ->
  stalled_at st epoch now <->
  1 <= (now - epoch) / sl_every st /\ (now - epoch) mod sl_every st < sl_length st.
Proof.
  intros Hst Hnow. pose proof (Z.div_mod (now - epoch) (sl_every st)) as Hd.
  pose proof (Z.mod_pos_bound (now - epoch) (sl_every st)) as Hm. split.
  - intros (k & Hk & Hw). assert ((now - epoch) / sl_every st = k) as Hq by
      (symmetry; apply (Z.div_unique_pos _ _ _ (now - epoch - k * sl_every st)); lia).
    split; [lia|]. rewrite Hq in Hd. lia.
  - intros [Hk Hr]. exists ((now - epoch) / sl_every st). split; [done|]. lia.
Qed.

(** A reply is held back exactly while the server is stalled, and until
    the end of that stall: at a time in a stall the release is at most the
    stall's length later, the server is stalled until then and not stalled
    then; at any other time nothing is held. *)
Theorem stall_release_ends_the_stall c st epoch now
    (Hst : mc_stall c = Some st) (Hlen : 0 < sl_length st < sl_every st) (Hfit : sl_length st <= u64_max) (Hnow : epoch <= now) :
  match stall_release c epoch now with
  | Some release => now < release <= now + sl_length st /\ ~ stalled_at st epoch release /\
      (forall t, now <= t < release -> stalled_at st epoch t)
  | None => ~ stalled_at st epoch now
  end.
Proof.
  unfold stall_release. rewrite Hst. cbn [mbind option_bind]. unfold saturating_duration_since.
  rewrite Z.max_r by lia.
  pose proof (Z.div_mod (now - epoch) (sl_every st)) as Hd. pose proof (Z.mod_pos_bound (now - epoch) (sl_every st)) as Hm.
  pose proof (Z.div_pos (now - epoch) (sl_every st)) as Hp.
  destruct (Z.eqb_spec ((now - epoch) / sl_every st) 0) as [Hz|Hz].
  { rewrite stall_cycle by done. lia. }
  destruct (Z.ltb_spec ((now - epoch) mod sl_every st) (sl_length st)) as [Hl|Hl].
  2: { rewrite stall_cycle by done. lia. }
  set (q := (now - epoch) / sl_every st) in *. set (r := (now - epoch) mod sl_every st) in *.
  rewrite Z.min_r by lia. split_and!; [lia|lia| |].
  - rewrite stall_cycle by lia. intros [_ Hr].
    rewrite <- (Z.mod_unique_pos (now + (sl_length st - r) - epoch) (sl_every st) q (sl_length st)) in Hr; lia.
  - intros t Ht. exists q. lia.
Qed.
End Stalls.

(** ** What a session sends *)

Section Sessions.
Context {N : Type} `{SerdeJson N, Formatter}.
Implicit Types (c : MockConfig (N := N)) (s : SessionState) (plan : ConnectionPlan).

(** What a data frame received at [t], the [seq]-th, is answered with: the
    earliest time of each item.  A replaying session reads frames and
    answers none. *)
Definition frame_answers c (seq t : Z) (m : Message) : list (Z * Queued) :=
  match mc_replay c, decide_frame c m seq with
  | Some _, _ => []
  | None, DecideEcho => [(t + mc_delay c, QFrame m)]
  | None, DecideIgnore => []
  | None, DecideReply frames delay close =>
      let due := t + default (mc_delay c) delay in
      ((fun f => (due, QFrame f)) <$> frames) ++
      match close with Some (code, reason) => [(due, QClose code reason)] | None => [] end
  end.
Fixpoint answers c (seq : Z) (frames : list (Z * Message)) : list (Z * Queued) :=
  match frames with [] => [] | (t, m) :: frames => frame_answers c seq t m ++ answers c (seq + 1) frames end.
(** What a replaying session sends on its own: the script's frames, each at
    its offset after the session's start, plus the delay. *)
Definition script_items c (start : Z) (frames : list ReplayFrame) : list (Z * Queued) :=
  (fun f => (start + rp_offset f + mc_delay c, QFrame (rp_message f))) <$> frames.
Definition first_items c plan (start : Z) : list (Z * Queued) :=
  match mc_replay c with Some script => script_items c start (frames_for script (cp_index plan)) | None => [] end.

Definition data_frames (wakes : list (Z * MockWake)) : list (Z * Message) :=
  omap (fun w => match w with (t, WakeReceived (Some (Ok ((Text _ | Binary _) as m)))) => Some (t, m) | _ => None end) wakes.
(** The rounds in which a due item leaves the queue. *)
Definition due_rounds c epoch (wakes : list (Z * MockWake)) (outs : list RoundOut) : list (Z * RoundOut) :=
  omap (fun w => match w with
                 | ((t, WakeDue cancelled _), out) =>
                     if bool_decide (is_Some (stall_release c epoch t)) && cancelled then None else Some (t, out)
                 | _ => None
                 end) (zip wakes outs).
(** How an item leaves: not before its time; a frame is sent and counted,
    the last one [close_after] allows with a Close after it, or the send
    fails and the session is over; a rule's close ends it. *)
Definition goes_out (item : Z * Queued) (round : Z * RoundOut) : Prop :=
  fst item <= fst round /\
  match snd item with
  | QFrame m => snd round = mkRoundOut [m] false true false \/
      snd round = mkRoundOut [m; Close (Some (mkCloseFrame 1000 "close-after"))] false true true \/
      snd round = mkRoundOut [] false false true
  | QClose code reason => snd round = ends_with_close code reason
  | QControl _ => False
  end.
(** What waits in the queue: an item, with its jitter drawn. *)
Definition waits c (item queued : Z * Queued) : Prop :=
  fst item <= fst queued <= fst item + mc_jitter c /\ snd item = snd queued.
Definition not_control (item : Z * Queued) : Prop := match snd item with QControl _ => False | _ => True end.
Definition sent_count (outs : list RoundOut) : Z := Z.of_nat (length (List.filter ro_sent outs)).

Lemma XorShift64_new_range seed : is_u64 (XorShift64_new seed).
Proof. unfold XorShift64_new. pose proof (splitmix64_range seed). ulia. Qed.
Lemma reply_delay_bounds c base rng : 0 <= mc_jitter c -> is_u64 rng ->
  base <= (reply_delay_from c base rng).1 <= base + mc_jitter c /\ is_u64 (reply_delay_from c base rng).2.
Proof.
  intros Hj Hr. unfold reply_delay_from. destruct (Z.eqb_spec (mc_jitter c) 0); [cbn; split; [lia|done]|].
  pose proof (at_most_range (Z.min u64_max (mc_jitter c)) rng Hr) as Ha.
  pose proof (next_u64_range rng Hr) as Hn. rewrite <- next_u64_state in Hn.
  destruct (at_most _ rng) as [extra rng']. cbn [fst snd] in *.
  destruct Ha as [Ha ->]; [unfold u64_max in *; ulia|]. split; [lia|done].
Qed.
Lemma queue_replies_answers c now m seq rng : mc_replay c = None -> 0 <= mc_jitter c -> is_u64 rng ->
  Forall2 (waits c) (frame_answers c seq now m) (queue_replies c now m seq rng).1 /\
  Forall not_control (frame_answers c seq now m) /\ is_u64 (queue_replies c now m seq rng).2.
Proof.
  intros Hrep Hj Hr. unfold frame_answers, queue_replies. rewrite Hrep. destruct (decide_frame c m seq) as [| |frames delay close].
  - unfold reply_delay. destruct (reply_delay_bounds c (mc_delay c) rng Hj Hr) as [Hb Hr'].
    destruct (reply_delay_from c (mc_delay c) rng) as [d rng']. cbn [fst snd] in *. split_and!; [|by repeat constructor|done].
    repeat constructor; cbn; lia.
  - cbn. auto.
  - destruct (reply_delay_bounds c (default (mc_delay c) delay) rng Hj Hr) as [Hb Hr'].
    destruct (reply_delay_from c (default (mc_delay c) delay) rng) as [d rng']. cbn [fst snd] in *. split_and!; [| |done].
    + apply Forall2_app.
      * apply Forall2_fmap_l, Forall2_fmap_r, Forall_Forall2_diag, Forall_true. intros f. split; [cbn; lia|done].
      * destruct close as [[code reason]|]; repeat constructor; cbn; lia.
    + apply Forall_app. split; [by apply Forall_fmap, Forall_true|]. destruct close as [[code reason]|]; by repeat constructor.
Qed.

(** What waits to be sent is [items]. *)
Definition pending c (items : list (Z * Queued)) (out : Outgoing) : Prop :=
  match out with
  | EchoQueue queue => mc_replay c = None /\ Forall2 (waits c) items queue
  | ReplayFrom frames next start due =>
      is_Some (mc_replay c) /\ items = script_items c start (drop next frames) /\
      match due with
      | Some due => exists f, frames !! next = Some f /\ 0 <= due - (start + rp_offset f + mc_delay c) <= mc_jitter c
      | None => True
      end
  end.
(** The state of a session that has [items] to send, after [received] data
    frames and [replies]. *)
Record tracks c (items : list (Z * Queued)) (received replies : Z) s : Prop := mkTracks {
  tr_pending : pending c items (me_out s);
  tr_frames : Forall not_control items;
  tr_rng : is_u64 (me_rng s);
  tr_received : me_received s = received;
  tr_replies : me_replies s = replies;
}.
(** What a round does to it. *)
Record round_ok c epoch (wake : Z * MockWake) (items : list (Z * Queued)) (received replies : Z) s (out : RoundOut) : Prop := mkRoundOk {
  ko_items : exists gone left, items ++ answers c (received + 1) (data_frames [wake]) = gone ++ left /\
    Forall2 goes_out gone (due_rounds c epoch [wake] [out]) /\
    tracks c left (received + Z.of_nat (length (data_frames [wake]))) (replies + sent_count [out]) s;
  ko_received : ro_received out = negb (Nat.eqb (length (data_frames [wake])) 0);
  ko_close : forall n, mc_close_after c = Some n -> replies < n ->
    if ro_ends out then replies + sent_count [out] <= n /\ (replies + sent_count [out] = n ->
      exists m, ro_frames out = [m; Close (Some (mkCloseFrame 1000 "close-after"))])
    else replies + sent_count [out] < n;
}.

Lemma pending_pop c items out rng : pending c items out ->
  match (next_due c out rng).1.1 with
  | Some due => exists e item items', items = (e, item) :: items' /\ (pop_outgoing (next_due c out rng).1.2).1 = Some item /\
      (0 <= mc_jitter c -> is_u64 rng -> e <= due) /\ pending c items' (pop_outgoing (next_due c out rng).1.2).2
  | None => True
  end.
Proof.
  destruct out as [queue|frames next start due]; cbn [pending next_due].
  - intros [Hn Hw]. destruct Hw as [|[e i] [d i'] items queue [Hd Hi] Hw]; [done|].
    cbn in *. subst i'. exists e, i, items. split_and!; [done|done|lia|done|done].
  - intros (Hs & -> & Hd). destruct (frames !! next) as [f|] eqn:Ef; [|done]. unfold script_items.
    rewrite (drop_S _ _ _ Ef), fmap_cons.
    assert (forall due, pop_outgoing (ReplayFrom frames next start due) = (Some (QFrame (rp_message f)), ReplayFrom frames (S next) start None)) as Hp.
    { intros d. cbn. by rewrite Ef. }
    destruct due as [due|].
    + cbn [fst snd]. rewrite Hp. destruct Hd as (f' & [= <-] & Hd). do 3 eexists. split_and!; [done|done|lia|exact (conj Hs (conj eq_refl I))].
    + unfold reply_delay. pose proof (reply_delay_bounds c (mc_delay c) rng) as Hb.
      destruct (reply_delay_from c (mc_delay c) rng) as [delay rng']. cbn [fst snd] in *. rewrite Hp.
      do 3 eexists. split_and!; [done|done| |exact (conj Hs (conj eq_refl I))]. intros Hj Hr. destruct (Hb Hj Hr). lia.
Qed.
Lemma pending_drawn c items out rng : 0 <= mc_jitter c -> is_u64 rng -> pending c items out ->
  pending c items (next_due c out rng).1.2 /\ is_u64 (next_due c out rng).2 /\
  next_due c (next_due c out rng).1.2 (next_due c out rng).2 = next_due c out rng.
Proof.
  intros Hj Hr. destruct out as [queue|frames next start due]; [done|]. intros (Hs & Hi & Hd). cbn [next_due].
  destruct (frames !! next) as [f|] eqn:Ef; [|cbn; by rewrite Ef]. destruct due as [due|]; [cbn; rewrite Ef; eauto|].
  unfold reply_delay. destruct (reply_delay_bounds c (mc_delay c) rng Hj Hr) as [Hb Hr'].
  destruct (reply_delay_from c (mc_delay c) rng) as [delay rng']. cbn [fst snd] in *. split_and!; [|done|cbn; by rewrite Ef].
  split_and!; [done|done|]. exists f. split; [done|lia].
Qed.

(** A round that only ends the session, or does nothing. *)
Lemma round_ok_idle c epoch wake items received replies s out :
  data_frames [wake] = [] -> due_rounds c epoch [wake] [out] = [] -> ro_sent out = false -> ro_received out = false ->
  tracks c items received replies s -> round_ok c epoch wake items received replies s out.
Proof.
  intros Hd Hr Hs Hre Ht. assert (sent_count [out] = 0) as Hc by (unfold sent_count; cbn; by rewrite Hs). split.
  - exists [], items. rewrite Hd, Hr, Hc, Z.add_0_r. cbn. rewrite Z.add_0_r, app_nil_r. split_and!; [done|constructor|done].
  - by rewrite Hd, Hre.
  - intros n Hn Hlt. rewrite Hc. destruct (ro_ends out); lia.
Qed.

(** A round that sends the first item, or fails to. *)
Lemma round_ok_popped c epoch now cancelled sent item items received replies s out :
  bool_decide (is_Some (stall_release c epoch now)) && cancelled = false -> ro_received out = false -> goes_out item (now, out) ->
  tracks c items received (replies + sent_count [out]) s ->
  (forall n, mc_close_after c = Some n -> replies < n ->
    if ro_ends out then replies + sent_count [out] <= n /\ (replies + sent_count [out] = n ->
      exists m, ro_frames out = [m; Close (Some (mkCloseFrame 1000 "close-after"))])
    else replies + sent_count [out] < n) ->
  round_ok c epoch (now, WakeDue cancelled sent) (item :: items) received replies s out.
Proof.
  intros Hs Hre Hg Ht Hc. split; [|by rewrite Hre|done]. exists [item], items. cbn. rewrite Hs, app_nil_r, Z.add_0_r.
  split_and!; [done|by constructor|done].
Qed.

Lemma round_due_ok c epoch now cancelled sent items received replies s due :
  0 <= replies -> replies + 1 < 2 ^ 64 -> tracks c items received replies s ->
  0 <= mc_jitter c -> next_due c (me_out s) (me_rng s) = (Some due, me_out s, me_rng s) -> due <= now ->
  let (s', out) := round_due c epoch now cancelled sent s in
  round_ok c epoch (now, WakeDue cancelled sent) items received replies s' out.
Proof.
  intros Hr0 Hr1 Ht Hj Hdue Hnow. pose proof Ht as [Hq Hf Hrng Hre Hrp].
  pose proof (pending_pop c items (me_out s) (me_rng s) Hq) as Hp. rewrite Hdue in Hp. cbn [fst snd] in Hp.
  destruct Hp as (e & item & items' & -> & Ho & He & Hw). specialize (He Hj Hrng).
  unfold round_due. destruct (bool_decide (is_Some (stall_release c epoch now)) && cancelled) eqn:Estall.
  { apply round_ok_idle; try done. cbn. by rewrite Estall. }
  destruct (pop_outgoing (me_out s)) as [item' out]. cbn [fst snd] in *. subst item'. inversion Hf as [|? ? Hitem Hf']; subst.
  assert (forall r, me_replies s = r - 0 -> tracks c items' (me_received s) r (s <| me_out := out |>)) as Hpop.
  { intros r Hr. split; cbn; [done|done|done|done|lia]. }
  destruct item as [m|m|code reason]; [|done|].
  2: { apply round_ok_popped; try done; [by split; [cbn; lia|]| |]; unfold sent_count; cbn; [apply Hpop; lia|intros; lia]. }
  destruct sent; cbn [negb].
  2: { apply round_ok_popped; try done; [by split; [cbn; lia|cbn; auto]| |]; unfold sent_count; cbn; [apply Hpop; lia|intros; lia]. }
  cbn -[u64_add]. rewrite (u64_add_id (me_replies s) 1) by lia.
  assert (tracks c items' (me_received s) (me_replies s + 1)
    (s <| me_out := out |> <| me_replies := me_replies s + 1 |>)) as Hsent.
  { by split. }
  destruct (decide (mc_close_after c = Some (me_replies s + 1))) as [Hcl|Hcl];
    [rewrite (bool_decide_true _ Hcl)|rewrite (bool_decide_false _ Hcl)]; apply round_ok_popped; try done; try (by split; [cbn; lia|cbn; auto]); try exact Hsent; unfold sent_count; cbn.
  - intros n Hn Hlt. split; [lia|]. intros _. by exists m.
  - intros n Hn Hlt. assert (me_replies s + 1 <> n) by congruence. lia.
Qed.

Lemma round_received_ok c plan epoch now frame items received replies s :
  mc_socketio c = None -> 0 <= mc_jitter c -> 0 <= received -> received + 1 < 2 ^ 64 -> tracks c items received replies s ->
  let (s', out) := round_received c plan now frame s in
  round_ok c epoch (now, WakeReceived frame) items received replies s' out.
Proof.
  intros Hio Hj Hr0 Hr1 Ht.
  destruct frame as [[m|]|]; [|by apply round_ok_idle|by apply round_ok_idle].
  assert (data_frames [(now, WakeReceived (Some (Ok m)))] = [(now, m)] ->
    let (s', out) := round_received c plan now (Some (Ok m)) s in
    round_ok c epoch (now, WakeReceived (Some (Ok m))) items received replies s' out) as Hdata.
  { intros Hd. pose proof Ht as [Hq Hf Hrng Hre Hrp].
    assert (forall items' out rng s', answers c (received + 1) (data_frames [(now, WakeReceived (Some (Ok m)))]) = items' ->
      Forall not_control items' -> pending c (items ++ items') out -> is_u64 rng ->
      s' = (s <| me_received := received + 1 |> <| me_rng := rng |> <| me_out := out |>) ->
      round_ok c epoch (now, WakeReceived (Some (Ok m))) items received replies s' (mkRoundOut [] true false false)) as Hok.
    { intros items' out rng s' Ha Hn Hp Hr ->. split; [|by rewrite Hd|cbn; intros n _ Hlt; unfold sent_count; cbn; lia].
      exists [], (items ++ items'). rewrite Ha, Hd. split_and!; [done|constructor|].
      split; cbn; [done|by apply Forall_app|done|lia|unfold sent_count; cbn; lia]. }
    assert (received +u 1 = received + 1) as Hu by (rewrite u64_add_id; lia). rewrite Hd in Hok.
    assert (round_received c plan now (Some (Ok m)) s =
      (match me_out s with
       | EchoQueue queue => push_items (queue_replies c now m (received + 1) (me_rng s)).1
           (s <| me_received := received + 1 |> <| me_rng := (queue_replies c now m (received + 1) (me_rng s)).2 |>)
       | _ => s <| me_received := received + 1 |>
       end, mkRoundOut [] true false false)) as ->.
    { destruct m; try done; cbn [round_received]; rewrite Hio; cbn -[u64_add]; rewrite Hre, Hu;
        destruct (me_out s); [by destruct (queue_replies _ _ _ _ _)|done|by destruct (queue_replies _ _ _ _ _)|done]. }
    cbn [answers] in Hok. rewrite app_nil_r in Hok. destruct (me_out s) as [queue|frames next start due] eqn:Ho.
    - destruct Hq as [Hn Hw]. destruct (queue_replies_answers c now m (received + 1) (me_rng s) Hn Hj Hrng) as (Ha & Hc & Hg).
      apply (Hok _ (EchoQueue (queue ++ (queue_replies c now m (received + 1) (me_rng s)).1)) _ _ eq_refl Hc
        (conj Hn (Forall2_app Hw Ha)) Hg). unfold push_items. cbn. by rewrite Ho.
    - destruct Hq as ([script Hs] & Hi & Hdue). apply (Hok [] (ReplayFrom frames next start due) (me_rng s)); [unfold frame_answers; by rewrite Hs|constructor| |exact Hrng|].
      + rewrite app_nil_r. exact (conj (ex_intro _ script Hs) (conj Hi Hdue)).
      + destruct s. cbn in *. by rewrite Ho. }
  destruct m; try (by apply Hdata); cbn [round_received]; by apply round_ok_idle.
Qed.

Lemma mock_round_ok c plan epoch now w items received replies s :
  mc_socketio c = None -> 0 <= mc_jitter c -> 0 <= received -> received + 1 < 2 ^ 64 -> 0 <= replies -> replies + 1 < 2 ^ 64 ->
  tracks c items received replies s -> wake_enabled c now w s = true ->
  let (s', out) := mock_round c plan epoch now w s in round_ok c epoch (now, w) items received replies s' out.
Proof.
  intros Hio Hj Hr0 Hr1 Hp0 Hp1 Ht Hw. pose proof Ht as [Hq Hf Hrng Hre Hrp].
  destruct (pending_drawn c items (me_out s) (me_rng s) Hj Hrng Hq) as (Hq' & Hrng' & Hd).
  unfold mock_round, wake_enabled in *. destruct (next_due c (me_out s) (me_rng s)) as [[due out'] rng'] eqn:E. cbn [fst snd] in *.
  assert (tracks c items received replies (s <| me_out := out' |> <| me_rng := rng' |>)) as Ht' by (by split).
  destruct w as [|sent|cancelled sent|frame].
  - by apply round_ok_idle.
  - unfold round_ping. rewrite Hio. cbn. destruct (me_pong_by s) as [by_|]; [destruct (by_ <=? now)|]; cbn; by apply round_ok_idle.
  - destruct due as [due|]; [|done]. by eapply (round_due_ok c epoch now cancelled sent items received replies _ due); [| | | | |lia].
  - by apply round_received_ok.
Qed.

Lemma answers_app c seq l l' : answers c seq (l ++ l') = answers c seq l ++ answers c (seq + Z.of_nat (length l)) l'.
Proof.
  revert seq. induction l as [|[t m] l IH]; intros seq; cbn [answers app length]; [by rewrite Z.add_0_r|].
  rewrite IH, app_assoc. replace (seq + 1 + Z.of_nat (length l)) with (seq + Z.of_nat (S (length l))) by lia. done.
Qed.
Lemma data_frames_cons w wakes : data_frames (w :: wakes) = data_frames [w] ++ data_frames wakes.
Proof. apply (omap_app _ [w]). Qed.
Lemma due_rounds_cons c epoch w wakes out outs :
  due_rounds c epoch (w :: wakes) (out :: outs) = due_rounds c epoch [w] [out] ++ due_rounds c epoch wakes outs.
Proof. apply (omap_app _ [(w, out)]). Qed.
Lemma sent_count_cons out outs : sent_count (out :: outs) = sent_count [out] + sent_count outs.
Proof. unfold sent_count. cbn. destruct (ro_sent out); cbn; lia. Qed.
Lemma sent_count_one out : 0 <= sent_count [out] <= 1.
Proof. unfold sent_count. cbn. destruct (ro_sent out); cbn; lia. Qed.
Lemma data_frames_one w : 0 <= Z.of_nat (length (data_frames [w])) <= 1.
Proof.
  assert (length (data_frames [w]) <= 1)%nat; [|lia]. unfold data_frames. cbn [omap list_omap].
  repeat case_match; cbn; lia.
Qed.

(** What a whole session does to its items. *)
Record session_ok c epoch (wakes : list (Z * MockWake)) (items : list (Z * Queued)) (received replies : Z) s (outs : list RoundOut) : Prop := mkSessionOk {
  so_items : exists gone left, items ++ answers c (received + 1) (data_frames wakes) = gone ++ left /\
    Forall2 goes_out gone (due_rounds c epoch wakes outs) /\
    tracks c left (received + Z.of_nat (length (data_frames wakes))) (replies + sent_count outs) s;
  so_close : forall n, mc_close_after c = Some n -> replies < n ->
    replies + sent_count outs <= n /\ (replies + sent_count outs = n ->
      exists out m, last outs = Some out /\ ro_ends out = true /\ ro_frames out = [m; Close (Some (mkCloseFrame 1000 "close-after"))]);
}.
Lemma session_ok_one c epoch w items received replies s out :
  round_ok c epoch w items received replies s out -> ro_ends out = true -> session_ok c epoch [w] items received replies s [out].
Proof.
  intros [Hi _ Hc] He. split; [done|]. intros n Hn Hlt. specialize (Hc n Hn Hlt). rewrite He in Hc. destruct Hc as [Hle Hc].
  split; [done|]. intros Heq. destruct (Hc Heq) as (m & Hm). by exists out, m.
Qed.
Lemma session_ok_cons c epoch w wakes items received replies s s' out outs :
  round_ok c epoch w items received replies s out -> ro_ends out = false ->
  (forall items' received' replies', tracks c items' received' replies' s ->
     received <= received' <= received + 1 -> replies <= replies' <= replies + 1 ->
     session_ok c epoch wakes items' received' replies' s' outs) ->
  session_ok c epoch (w :: wakes) items received replies s' (out :: outs).
Proof.
  intros [(g1 & l1 & Hi & Hg & Ht) _ Hc] He Hrest. pose proof (sent_count_one out). pose proof (data_frames_one w).
  destruct (Hrest _ _ _ Ht) as [(g2 & l2 & Hi2 & Hg2 & Ht2) Hc2]; [lia|lia|]. split.
  - exists (g1 ++ g2), l2. rewrite data_frames_cons, due_rounds_cons, answers_app, app_assoc, Hi, <- app_assoc.
    rewrite length_app, Nat2Z.inj_add, sent_count_cons, !Z.add_assoc.
    replace (received + 1 + Z.of_nat (length (data_frames [w]))) with (received + Z.of_nat (length (data_frames [w])) + 1) by lia.
    rewrite Hi2, <- app_assoc. split_and!; [done|by apply Forall2_app|done].
  - intros n Hn Hlt. rewrite sent_count_cons, Z.add_assoc. specialize (Hc n Hn Hlt). rewrite He in Hc.
    destruct (Hc2 n Hn Hc) as [Hle Heq]. split; [done|]. intros Hn'. destruct (Heq Hn') as (o & m & Hl & Hr).
    exists o, m. split; [|done]. destruct outs; [done|exact Hl].
Qed.

Lemma mock_session_ok c plan epoch wakes items received replies s s' outs :
  mc_socketio c = None -> 0 <= mc_jitter c -> 0 <= received -> 0 <= replies ->
  received + Z.of_nat (length wakes) < 2 ^ 64 -> replies + Z.of_nat (length wakes) < 2 ^ 64 ->
  tracks c items received replies s -> mock_session c plan epoch wakes s = Some (s', outs) ->
  session_ok c epoch (take (length outs) wakes) items received replies s' outs.
Proof.
  intros Hio Hj. revert items received replies s outs. induction wakes as [|[now w] wakes IH];
    intros items received replies s outs Hr0 Hp0 Hr Hp Ht; cbn [mock_session length] in *.
  - intros [= <- <-]. split.
    + exists [], items. cbn. rewrite app_nil_r, !Z.add_0_r. split_and!; [done|constructor|done].
    + intros n Hn Hlt. unfold sent_count. cbn. lia.
  - destruct (wake_enabled c now w s) eqn:Ew; [|done]. cbn [negb].
    pose proof (mock_round_ok c plan epoch now w items received replies s Hio Hj Hr0 ltac:(lia) Hp0 ltac:(lia) Ht Ew) as Hround.
    destruct (mock_round c plan epoch now w s) as [s1 out]. destruct (ro_ends out) eqn:Ee.
    + intros [= <- <-]. cbn [length take]. rewrite take_0. by apply session_ok_one.
    + destruct (mock_session c plan epoch wakes s1) as [[s2 outs']|] eqn:Es; [|done]. cbn. intros [= <- <-]. cbn [length take].
      eapply session_ok_cons; [done|done|]. intros items' received' replies' Ht' Hb1 Hb2.
      by apply IH with (s := s1); [lia|lia|lia|lia| |].
Qed.

(** C12. Without Socket.IO, a session is a first-in, first-out queue of what
    it has to send: a replayed script's frames, or what the data frames it
    receives are answered with, in the order of those frames.  The items that
    have left did so in that order, none before its time - the delay after
    its frame arrived, or the script's offset and the delay - and each frame
    was sent and counted once, unless the send failed and the session was
    over; the others wait, with at most the jitter on top.  The replies
    counted are the frames sent, at most [--close-after]; the last one allowed
    is followed by a Close of code 1000 and ends the session. *)
Theorem mock_session_is_a_queue c plan epoch now engine_io_3 wakes s outs
    (Hio : mc_socketio c = None) (Hj : 0 <= mc_jitter c)
    (Hclose : forall n, mc_close_after c = Some n -> 1 <= n) (Hlen : Z.of_nat (length wakes) < 2 ^ 64)
    (Hs : mock_session c plan epoch wakes (session_start c plan now engine_io_3) = Some (s, outs)) :
  let handled := take (length outs) wakes in
  (exists gone left, first_items c plan now ++ answers c 1 (data_frames handled) = gone ++ left /\
     Forall2 goes_out gone (due_rounds c epoch handled outs) /\ pending c left (me_out s)) /\
  me_received s = Z.of_nat (length (data_frames handled)) /\ me_replies s = sent_count outs /\
  (forall n, mc_close_after c = Some n -> sent_count outs <= n /\ (sent_count outs = n ->
     exists out m, last outs = Some out /\ ro_ends out = true /\ ro_frames out = [m; Close (Some (mkCloseFrame 1000 "close-after"))])).
Proof.
  intros handled.
  assert (tracks c (first_items c plan now) 0 0 (session_start c plan now engine_io_3)) as Ht.
  { unfold session_start, first_items. rewrite Hio. destruct (mc_replay c) as [script|] eqn:Er.
    - split; cbn; [by rewrite Er|by apply Forall_fmap, Forall_true|apply XorShift64_new_range|done|done].
    - split; cbn; [by rewrite Er|done|apply XorShift64_new_range|done|done]. }
  destruct (mock_session_ok c plan epoch wakes _ 0 0 _ s outs Hio Hj ltac:(lia) ltac:(lia) ltac:(lia) ltac:(lia) Ht Hs)
    as [(gone & left & Hi & Hg & [Hq _ _ Hre Hrp]) Hc].
  split_and!; [by exists gone, left|done|done|]. intros n Hn. specialize (Hclose n Hn). apply (Hc n Hn). lia.
Qed.
End Sessions.

(** ** The configuration *)

Section Build.
Context {N : Type} `{SerdeJson N, Formatter}.

(** What an accepted configuration guarantees the server. *)
Record mock_ok (c : MockConfig (N := N)) : Prop := mkMockOk {
  mo_listen : trim (mc_listen c) <> ""%string;
  mo_ratio : f64_is_finite (mc_reject_ratio c) = true /\ f64_leb f64_zero (mc_reject_ratio c) = true /\
    f64_leb (mc_reject_ratio c) (f64_of_Z 1) = true;
  mo_close : mc_close_after c <> Some 0;
  mo_stall : forall st, mc_stall c = Some st -> sl_length st <> 0 /\ sl_every st <> 0 /\ sl_length st < sl_every st;
  mo_alone : forall io, mc_socketio c = Some io -> fst io <> 0 /\ snd io <> 0 /\ mc_replay c = None /\ mc_rules c = None;
  mo_replay : forall script, mc_replay c = Some script -> mc_rules c = None /\ rs_workers script <> [];
  mo_rules : forall rules, mc_rules c = Some rules -> mu_rules rules <> [] /\ Forall rule_ok (mu_rules rules);
}.

Lemma rules_parse_ok source file (rules : MockRules (N := N)) : rules_parse source file = Ok rules ->
  mu_rules rules <> [] /\ Forall rule_ok (mu_rules rules).
Proof.
  unfold rules_parse. destruct file as [file|]; [|done]. cbn [result_map_err result_bind].
  destruct (bool_decide (rf_version file = "1.0"%string)); [|done]. cbn [negb].
  destruct (bool_decide (rf_rules file = [])) eqn:En; [done|]. apply bool_decide_eq_false in En.
  destruct (compile_rules _ 0 (rf_rules file)) as [compiled|] eqn:Ec; [|done]. intros [= <-].
  apply compile_rules_ok in Ec. cbn [mu_rules]. split.
  - intros ->. apply Forall2_nil_inv_r in Ec. done.
  - apply Forall_lookup. intros k rule Hk. destruct (Forall2_lookup_r _ _ _ _ _ Ec Hk) as (spec & _ & Hc).
    by eapply rule_compile_ok.
Qed.
Lemma replay_parse_ok decode source text script : replay_parse decode source text = Ok script -> rs_workers script <> [].
Proof.
  unfold replay_parse. destruct (numbered_lines text) as [|[l h] numbered]; [done|]. destruct (header_version h); [|done].
  destruct (negb _); [done|]. destruct (replay_lines _ _ _ _) as [workers|]; [|done]. cbn [result_bind].
  destruct (replay_workers workers); [done|]. by intros [= <-].
Qed.
Lemma build_stall_ok every length st : build_stall every length = Ok (Some st) ->
  sl_length st <> 0 /\ sl_every st <> 0 /\ sl_length st < sl_every st.
Proof.
  destruct every as [every|], length as [length|]; try done. cbn.
  destruct (Z.eqb_spec every 0); [done|]. destruct (Z.eqb_spec length 0); [done|]. cbn [orb].
  destruct (Z.leb_spec every length); [done|]. intros [= <-]. cbn. lia.
Qed.
Lemma optional_load_ok {A} (load : string -> result A WsBlastError) path (r : option A) : optional_load load path = Ok r ->
  match r with Some a => exists p, path = Some p /\ load p = Ok a | None => path = None end.
Proof.
  destruct path as [p|]; cbn; [|by intros [= <-]]. destruct (load p) as [a|] eqn:E; [|done]. intros [= <-]. by exists p.
Qed.

(** A mock configuration that is accepted is one the server can run: a
    rejection ratio between 0 and 1, a close after at least one reply, a
    stall shorter than its cycle, and at most one of Socket.IO, rules and
    replay; the rules are compiled, all of them with codes and reasons a
    Close frame may carry, and a replayed capture has frames. *)
Theorem mock_build_consistent (env : MockEnv (N := N)) (b : MockConfigBuilder) (c : MockConfig)
    (Hb : mock_build env b = Ok c) : mock_ok c.
Proof.
  unfold mock_build in Hb.
  destruct (bool_decide (trim (mb_listen b) = ""%string)) eqn:El; [done|]. apply bool_decide_eq_false in El.
  destruct (f64_is_finite (mb_reject_ratio b)) eqn:E1; [|done].
  destruct (f64_leb f64_zero (mb_reject_ratio b)) eqn:E2; [|done].
  destruct (f64_leb (mb_reject_ratio b) (f64_of_Z 1)) eqn:E3; [|done]. cbn [negb andb orb] in Hb.
  destruct (bool_decide (mb_close_after b = Some 0)) eqn:Ec; [done|]. apply bool_decide_eq_false in Ec.
  destruct (build_stall _ _) as [stall|] eqn:Es; [|done]. cbn [result_bind] in Hb.
  destruct (bool_decide (is_Some (mb_socketio b)) && _) eqn:Eio; [done|].
  destruct (match mb_socketio b with Some (interval, timeout) => (interval =? 0) || (timeout =? 0) | None => false end) eqn:Ez; [done|].
  destruct (bool_decide (is_Some (mb_replay b)) && bool_decide (is_Some (mb_rules b))) eqn:Err; [done|].
  destruct (optional_load _ (mb_replay b)) as [replay|] eqn:Ep; [|done]. cbn [result_bind] in Hb. apply optional_load_ok in Ep.
  destruct (optional_load _ (mb_rules b)) as [rules|] eqn:Eu; [|done]. cbn [result_bind] in Hb. apply optional_load_ok in Eu.
  destruct (match mb_tls b with None => _ | Some _ => _ end) as [tls|]; [|done]. injection Hb as <-.
  assert (is_Some rules -> is_Some replay -> False) as Hexcl.
  { intros [u ->] [p ->]. destruct Ep as (? & Hp & _), Eu as (? & Hu & _). by rewrite Hp, Hu in Err. }
  split; cbn; [done|done|done|intros st ->; by eapply build_stall_ok| | |].
  - intros [interval timeout] Hio. rewrite Hio in Ez, Eio. apply orb_false_iff in Ez as [Hi Ht].
    apply Z.eqb_neq in Hi, Ht. split_and!; [done|done| |].
    + destruct replay; [|done]. destruct Ep as (? & Hp & _). by rewrite Hp in Eio.
    + destruct rules; [|done]. destruct Eu as (? & Hu & _). rewrite Hu, orb_true_r in Eio. done.
  - intros script ->. split.
    + destruct rules; [|done]. exfalso. by apply Hexcl.
    + destruct Ep as (p & _ & Hl). unfold load_file in Hl. destruct (mv_read env p); [|done]. by eapply replay_parse_ok.
  - intros u ->. destruct Eu as (p & _ & Hl). unfold load_file in Hl. destruct (mv_read env p); [|done]. by eapply rules_parse_ok.
Qed.
End Build.

(** A jittery echo server that stalls and closes after two replies, and a
    client that sends three frames. *)
Module SampleMock.
#[local] Existing Instance text_json.
#[local] Existing Instance Sample.no_format.
Definition env : MockEnv (N := Z) :=
  mkMockEnv (fun path => Err (path +:+ ": not found")%string) (fun _ => Err "decode"%string) (fun _ => Ok SampleRules.file)
    (fun _ _ => mock_invalid "certificate").
Definition builder : MockConfigBuilder := mock_builder <| mb_delay := 1000 |> <| mb_jitter := 500 |>
  <| mb_close_after := Some 2 |> <| mb_stall_every := Some 1000000 |> <| mb_stall_for := Some 200000 |>.
Definition config : MockConfig (N := Z) :=
  mkMockConfig DEFAULT_LISTEN 1000 500 (Some 2) f64_zero (Some (mkStall 1000000 200000)) None None None false None false.
Definition wakes : list (Z * MockWake) :=
  [(10, WakeReceived (Some (Ok (Text "a")))); (20, WakeReceived (Some (Ok (Ping []))));
   (30, WakeReceived (Some (Ok (Binary [7])))); (2000, WakeDue false true); (2001, WakeReceived (Some (Ok (Text "c"))));
   (1000500, WakeDue false true); (1000600, WakeReceived None)]%string.
Definition plan : ConnectionPlan := mkConnectionPlan false 42 0.
End SampleMock.
#[local] Existing Instance text_json.
#[local] Existing Instance Sample.no_format.

Lemma mock_build_consistent_witness : mock_build SampleMock.env SampleMock.builder = Ok SampleMock.config /\ mock_ok SampleMock.config.
Proof.
  assert (mock_build SampleMock.env SampleMock.builder = Ok SampleMock.config) as E by (vm_compute; reflexivity).
  split; [exact E|]. exact (mock_build_consistent SampleMock.env SampleMock.builder SampleMock.config E).
Defined.

Lemma stall_release_ends_the_stall_witness : stall_release SampleMock.config 0 1000500 = Some 1200000 /\
  ~ stalled_at (mkStall 1000000 200000) 0 1200000.
Proof.
  pose proof (stall_release_ends_the_stall SampleMock.config (mkStall 1000000 200000) 0 1000500 eq_refl) as Hs.
  assert (stall_release SampleMock.config 0 1000500 = Some 1200000) as E by (vm_compute; reflexivity).
  rewrite E in Hs. split; [exact E|]. apply Hs; cbn; unfold u64_max; lia.
Defined.

Lemma mock_session_is_a_queue_witness : exists s outs,
  mock_session SampleMock.config SampleMock.plan 0 SampleMock.wakes (session_start SampleMock.config SampleMock.plan 0 false) = Some (s, outs) /\
  me_received s = 3 /\ sent_count outs = 2 /\ length outs = 6%nat /\
  exists gone left, [(1010, QFrame (Text "a")); (1030, QFrame (Binary [7])); (3001, QFrame (Text "c"))] = gone ++ left /\
    Forall2 goes_out gone (due_rounds SampleMock.config 0 (take (length outs) SampleMock.wakes) outs).
Proof.
  destruct (mock_session SampleMock.config SampleMock.plan 0 SampleMock.wakes (session_start SampleMock.config SampleMock.plan 0 false))
    as [[s outs]|] eqn:E; [|vm_compute in E; discriminate].
  destruct (mock_session_is_a_queue SampleMock.config SampleMock.plan 0 0 false SampleMock.wakes s outs) as ((gone & left & Hi & Hg & _) & Hre & _).
  - reflexivity.
  - cbn. lia.
  - intros n [= <-]. lia.
  - cbn. lia.
  - exact E.
  - exists s, outs. split; [reflexivity|]. vm_compute in E. injection E as <- <-.
    split; [exact Hre|]. split; [reflexivity|]. split; [reflexivity|]. exists gone, left. split; [exact Hi|exact Hg].
Defined.
