(* ===== verification/MockServer.v ===== *)
(** * The mock server's counters (src/src/mock.rs)

    Accepting, serving and ending connections, as a step relation over all of
    them, with the counters they share, and what the server prints. *)

From Stdlib Require Import ZArith Lia Ascii String.
From stdpp Require Import base tactics strings numbers option relations list.
From S2P Require Import Prelude RustStd Str Json JsonText Slo Live Wire Chaos Data Capture SocketIo Config MockRules Replay Mock.

Local Open Scope Z_scope.
Local Open Scope rust_scope.

(** [MockStats] *)
Record MockStats := mkMockStats {
  sk_accepted : Z;
  sk_rejected : Z;
  sk_active : Z;
  sk_received : Z;
  sk_sent : Z;
  sk_compressed : Z;
}.
#[export] Instance MockStats_eq_dec : EqDecision MockStats.
Proof. solve_decision. Defined.

(** [Counters]; [mk_negotiated] is the compression layer's. *)
Record MockCounters := mkMockCounters {
  mk_accepted : Z;
  mk_rejected : Z;
  mk_active : Z;
  mk_received : Z;
  mk_sent : Z;
  mk_negotiated : Z;
}.
#[export] Instance MockCounters_eta : Settable MockCounters := fun k =>
  mkMockCounters (mk_accepted k) (mk_rejected k) (mk_active k) (mk_received k) (mk_sent k) (mk_negotiated k).

Definition mock_snapshot (k : MockCounters) : MockStats :=
  mkMockStats (mk_accepted k) (mk_rejected k) (mk_active k) (mk_received k) (mk_sent k) (mk_negotiated k).

Section Server.
Context {N : Type} `{SerdeJson N, Formatter}.
Implicit Types c : MockConfig (N := N).

(** [MockConfig::describe] *)
Definition describe_replies c : string :=
  match mc_replay c, mc_rules c with
  | Some script, _ =>
      "replay " +:+ display_u64 (frame_count script) +:+ " frames of " +:+
      display_u64 (Z.of_nat (length (rs_workers script))) +:+ " recorded connections from " +:+ rs_source script
  | None, Some rules =>
      display_u64 (Z.of_nat (length (mu_rules rules))) +:+ " rules from " +:+ mu_source rules +:+ ", unmatched frames " +:+
      match mu_unmatched rules with UnmatchedEcho => "echoed" | UnmatchedIgnore => "ignored" end
  | None, None => if bool_decide (is_Some (mc_socketio c)) then "Socket.IO, acknowledging every event" else "echo"
  end%string.
Definition describe c : string :=
  String.concat ", "
    (List.concat
      [[describe_replies c];
       if (mc_delay c =? 0)%Z then [] else ["delay " +:+ debug_duration (mc_delay c)];
       if (mc_jitter c =? 0)%Z then [] else ["jitter 0.." +:+ debug_duration (mc_jitter c)];
       match mc_close_after c with Some n => ["close after " +:+ display_u64 n +:+ " replies"] | None => [] end;
       if f64_ltb f64_zero (mc_reject_ratio c)
       then ["reject " +:+ display_f64 (f64_mul (mc_reject_ratio c) (f64_of_Z 100)) +:+ "% of upgrades with 503"] else [];
       if mc_compression c then ["permessage-deflate"] else [];
       match mc_stall c with
       | Some stall => ["stall " +:+ debug_duration (sl_length stall) +:+ " every " +:+ debug_duration (sl_every stall)]
       | None => []
       end])%string.

(** [MockServer::url] *)
Definition mock_url (local_addr : string) c : string := ((if mc_tls c then "wss" else "ws") +:+ "://" +:+ local_addr)%string.

(** What [print_stats] prints on a tick, if anything. *)
Definition stats_line (previous now : MockStats) : option string :=
  if bool_decide (now = previous) && (sk_active now =? 0) then None
  else Some ("[stats] connections: " +:+ display_u64 (sk_active now) +:+ " active, " +:+ display_u64 (sk_accepted now) +:+
    " accepted, " +:+ display_u64 (sk_rejected now) +:+ " rejected | frames: " +:+ display_u64 (sk_received now) +:+
    " received, " +:+ display_u64 (sk_sent now) +:+ " sent | rate: " +:+ display_u64 (sk_received now -u sk_received previous) +:+
    " recv/s, " +:+ display_u64 (sk_sent now -u sk_sent previous) +:+ " sent/s")%string.

(** The last line [run_command] prints. *)
Definition stopped_line (last : MockStats) : string :=
  ("wsblast mock stopped: " +:+ display_u64 (sk_accepted last) +:+ " connections accepted, " +:+ display_u64 (sk_rejected last) +:+
   " rejected, " +:+ display_u64 (sk_received last) +:+ " frames received, " +:+ display_u64 (sk_sent last) +:+ " sent" +:+
   (if (0 <? sk_compressed last)%Z then ", " +:+ display_u64 (sk_compressed last) +:+ " compressed connections" else ""))%string.

(** ** All connections *)

(** A connection's task: in its handshakes, serving, or ended - with the
    session it served, if it came to that.  [agreed] is whether its
    compression layer has seen a response head that agrees on compression. *)
Inductive MockConnection :=
| Handshaking (plan : ConnectionPlan) (agreed : bool)
| Serving (plan : ConnectionPlan) (agreed : bool) (s : SessionState)
| Ended (plan : ConnectionPlan) (agreed : bool) (served : option SessionState).

Record MockRun := mkMockRun {
  mr_rng : Z;
  mr_index : Z;
  mr_counters : MockCounters;
  mr_connections : list MockConnection;
}.
#[export] Instance MockRun_eta : Settable MockRun := fun u => mkMockRun (mr_rng u) (mr_index u) (mr_counters u) (mr_connections u).

Definition mock_run_begins c (nanos : option Z) (pid : Z) : MockRun :=
  mkMockRun (XorShift64_new (default (mock_time_seed nanos pid) (mc_seed c))) 0 (mkMockCounters 0 0 0 0 0 0) [].

Definition count_round (out : RoundOut) (k : MockCounters) : MockCounters :=
  let k := if ro_received out then k <| mk_received ::= fun n => n +u 1 |> else k in
  let k := if ro_sent out then k <| mk_sent ::= fun n => n +u 1 |> else k in
  if ro_ends out then k <| mk_active ::= fun n => n -u 1 |> else k.

(** [run]'s loop and the tasks it spawns; [epoch] is the server's start.  A
    connection may end in its handshakes (TLS, a failed upgrade, the
    shutdown), an established one when a round ends its session.  The
    compression layer counts a connection when the response head that agrees
    on compression passes it, which is before the handshake completes; the
    handshake may still fail after that. *)
Inductive mock_step c (epoch : Z) : MockRun -> MockRun -> Prop :=
| StepAccept u plan rng index :
    accept_plan c (mr_rng u) (mr_index u) = (plan, rng, index) ->
    mock_step c epoch u (mkMockRun rng index (mr_counters u) (mr_connections u ++ [Handshaking plan false]))
| StepHandshakeFailed u i plan agreed :
    mr_connections u !! i = Some (Handshaking plan agreed) ->
    mock_step c epoch u (u <| mr_connections ::= <[i := Ended plan agreed None]> |>)
| StepRejected u i plan :
    mr_connections u !! i = Some (Handshaking plan false) -> cp_reject plan = true ->
    mock_step c epoch u (u <| mr_counters ::= (fun k => k <| mk_rejected ::= fun n => n +u 1 |>) |> <| mr_connections ::= <[i := Ended plan false None]> |>)
| StepNegotiated u i plan :
    mr_connections u !! i = Some (Handshaking plan false) -> cp_reject plan = false -> mc_compression c = true ->
    mock_step c epoch u (u <| mr_counters ::= (fun k => k <| mk_negotiated ::= fun n => n +u 1 |>) |> <| mr_connections ::= <[i := Handshaking plan true]> |>)
| StepEstablished u i plan agreed query now :
    mr_connections u !! i = Some (Handshaking plan agreed) -> cp_reject plan = false ->
    mock_step c epoch u
      (u <| mr_counters ::= (fun k => k <| mk_accepted ::= fun n => n +u 1 |> <| mk_active ::= fun n => n +u 1 |>) |>
         <| mr_connections ::= <[i := Serving plan agreed (session_start c plan now (bool_decide (is_Some (mc_socketio c)) && asks_engine_io_3 query))]> |>)
| StepRound u i plan agreed s now w s' out :
    mr_connections u !! i = Some (Serving plan agreed s) -> wake_enabled c now w s = true ->
    mock_round c plan epoch now w s = (s', out) ->
    mock_step c epoch u
      (u <| mr_counters ::= count_round out |>
         <| mr_connections ::= <[i := if ro_ends out then Ended plan agreed (Some s') else Serving plan agreed s']> |>).

(** ** The counters are those of the connections *)

Definition connection_plan (t : MockConnection) : ConnectionPlan :=
  match t with Handshaking plan _ | Serving plan _ _ | Ended plan _ _ => plan end.
Definition connection_agreed (t : MockConnection) : bool :=
  match t with Handshaking _ agreed | Serving _ agreed _ | Ended _ agreed _ => agreed end.
Definition session_of (t : MockConnection) : option SessionState :=
  match t with Serving _ _ s | Ended _ _ (Some s) => Some s | _ => None end.
Definition over_sessions (f : SessionState -> Z) (t : MockConnection) : Z := from_option f 0 (session_of t).
Definition is_open (t : MockConnection) : Z := match t with Serving _ _ _ => 1 | _ => 0 end.
Definition is_agreed (t : MockConnection) : Z := if connection_agreed t then 1 else 0.
Definition total (f : MockConnection -> Z) (u : MockRun) : Z := sum_Z (f <$> mr_connections u).
(** Rejected upgrades do not take a turn. *)
Definition turns (plans : list ConnectionPlan) : Z := sum_Z ((fun plan => if cp_reject plan then 0 else 1) <$> plans).
Definition plans (u : MockRun) : list ConnectionPlan := connection_plan <$> mr_connections u.
Definition refused (t : MockConnection) : Z := match t with Ended plan _ None => if cp_reject plan then 1 else 0 | _ => 0 end.

Record counters_add_up c (u : MockRun) : Prop := mkCountersAddUp {
  au_accepted : mk_accepted (mr_counters u) = total (over_sessions (fun _ => 1)) u;
  au_active : mk_active (mr_counters u) = total is_open u;
  au_received : mk_received (mr_counters u) = total (over_sessions me_received) u;
  au_sent : mk_sent (mr_counters u) = total (over_sessions me_replies) u;
  au_rejected : 0 <= mk_rejected (mr_counters u) <= total refused u;
  au_negotiated : mk_negotiated (mr_counters u) = total is_agreed u;
  au_agreed : Forall (fun t => connection_agreed t = true -> mc_compression c = true /\ cp_reject (connection_plan t) = false) (mr_connections u);
  au_served : Forall (fun t => is_Some (session_of t) -> cp_reject (connection_plan t) = false) (mr_connections u);
  au_turns : forall i plan, plans u !! i = Some plan -> cp_index plan = turns (take i (plans u));
}.

Definition counted (b : bool) (n : Z) : Z := if b then n +u 1 else n.
Lemma push_counts items s : me_received (push_items items s) = me_received s /\ me_replies (push_items items s) = me_replies s.
Proof. unfold push_items. by destruct (me_out s). Qed.
Lemma socketio_counts c plan interval timeout now m s s' out : socketio_frame c plan interval timeout now m s = (s', out) ->
  me_received s' = counted (ro_received out) (me_received s) /\ me_replies s' = counted (ro_sent out) (me_replies s).
Proof.
  unfold socketio_frame. case_bool_decide; [by intros [= <- <-]|]. cbv zeta.
  set (s1 := if _ && _ then _ else s).
  assert (me_received s1 = me_received s /\ me_replies s1 = me_replies s) as [<- <-] by (unfold s1; by destruct (_ && _)).
  clearbody s1. destruct (mock_receive m (mock_sid plan) (me_sio s1)) as [sio answer].
  destruct answer as [answer|]; [|by intros [= <- <-]].
  destruct (mk_event answer); cbn; (destruct (me_out s1); [|by intros [= <- <-]]).
  - destruct (reply_delay _ _). intros [= <- <-]. match goal with |- context [push_items ?i ?s] => destruct (push_counts i s) as [-> ->] end. done.
  - intros [= <- <-]. match goal with |- context [push_items ?i ?s] => destruct (push_counts i s) as [-> ->] end. done.
Qed.
Lemma round_counts c plan epoch now w s s' out : mock_round c plan epoch now w s = (s', out) ->
  me_received s' = counted (ro_received out) (me_received s) /\ me_replies s' = counted (ro_sent out) (me_replies s).
Proof.
  unfold mock_round. destruct (next_due c (me_out s) (me_rng s)) as [[due o] rng]. cbv zeta.
  set (s1 := s <| me_out := o |> <| me_rng := rng |>).
  change (me_received s) with (me_received s1). change (me_replies s) with (me_replies s1). clearbody s1. clear s. intros E.
  destruct w as [|sent|cancelled sent|frame].
  - by injection E as <- <-.
  - unfold round_ping in E. repeat case_match; by injection E as <- <-.
  - unfold round_due in E. repeat case_match; by injection E as <- <-.
  - destruct frame as [[m|]|]; [|by injection E as <- <-|by injection E as <- <-].
    assert (match m with Text _ | Binary _ => True | _ => False end \/ (s', out) = (s1, mkRoundOut [] false false (ro_ends out))) as [Hm|Hm].
    { destruct m; try (by left); right; by injection E as <- <-. }
    2: { by injection Hm as -> ->. }
    assert (round_received c plan now (Some (Ok m)) s1 = match mc_socketio c with
      | Some (interval, timeout) => socketio_frame c plan interval timeout now m s1
      | None => let s := s1 <| me_received ::= fun n => n +u 1 |> in
          match me_out s with
          | EchoQueue _ => let (items, rng) := queue_replies c now m (me_received s) (me_rng s) in
              (push_items items (s <| me_rng := rng |>), mkRoundOut [] true false false)
          | _ => (s, mkRoundOut [] true false false)
          end
      end) as Hr by (by destruct m).
    rewrite Hr in E. clear Hr. destruct (mc_socketio c) as [[interval timeout]|]; [by eapply socketio_counts|].
    cbv zeta in E. destruct (me_out _); [|by injection E as <- <-]. destruct (queue_replies _ _ _ _ _) as [items rng'].
    injection E as <- <-. match goal with |- context [push_items ?i ?s] => destruct (push_counts i s) as [-> ->] end. done.
Qed.

(** The same after [n] steps, when nothing has wrapped around. *)
Record add_up_within c (n : Z) (u : MockRun) : Prop := mkAddUpWithin {
  aw_add_up : counters_add_up c u;
  aw_accepted : mk_accepted (mr_counters u) <= n;
  aw_received : mk_received (mr_counters u) <= n;
  aw_sent : mk_sent (mr_counters u) <= n;
  aw_rejected : mk_rejected (mr_counters u) <= n;
  aw_negotiated : mk_negotiated (mr_counters u) <= n;
  aw_index : mr_index u = turns (plans u) /\ mr_index u <= n;
  aw_sessions : Forall (fun t => 0 <= over_sessions me_received t /\ 0 <= over_sessions me_replies t) (mr_connections u);
}.

Lemma total_app f rng index k ts t : total f (mkMockRun rng index k (ts ++ [t])) = sum_Z (f <$> ts) + f t.
Proof. unfold total. cbn. rewrite fmap_app, sum_Z_app. cbn. lia. Qed.

Lemma update_counts c n u i t t' k rng index :
  add_up_within c n u -> mr_connections u !! i = Some t -> connection_plan t' = connection_plan t -> index = mr_index u ->
  (is_Some (session_of t') -> cp_reject (connection_plan t') = false) ->
  mk_accepted k = mk_accepted (mr_counters u) + (over_sessions (fun _ => 1) t' - over_sessions (fun _ => 1) t) ->
  mk_active k = mk_active (mr_counters u) + (is_open t' - is_open t) ->
  mk_received k = mk_received (mr_counters u) + (over_sessions me_received t' - over_sessions me_received t) ->
  mk_sent k = mk_sent (mr_counters u) + (over_sessions me_replies t' - over_sessions me_replies t) ->
  (0 <= mk_rejected k - mk_rejected (mr_counters u) <= refused t' - refused t) ->
  mk_negotiated k = mk_negotiated (mr_counters u) + (is_agreed t' - is_agreed t) ->
  (connection_agreed t' = true -> mc_compression c = true /\ cp_reject (connection_plan t') = false) ->
  over_sessions (fun _ => 1) t' - over_sessions (fun _ => 1) t <= 1 ->
  0 <= over_sessions me_received t' - over_sessions me_received t <= 1 ->
  0 <= over_sessions me_replies t' - over_sessions me_replies t <= 1 ->
  refused t' - refused t <= 1 -> is_agreed t' - is_agreed t <= 1 ->
  add_up_within c (n + 1) (mkMockRun rng index k (<[i := t']> (mr_connections u))).
Proof.
  intros [[Hac Hop Hre Hse Hrj Hng Hag Hsv Htu] Ba Br Bs Bj Bg [Bi Bn] Bx] Hi Hp -> Hs Ea Eo Er Es Ej En Ec D1 D2 D3 D4 D5.
  assert (connection_plan <$> <[i := t']> (mr_connections u) = plans u) as Hplans.
  { rewrite list_fmap_insert, Hp. apply list_insert_id. unfold plans. by rewrite list_lookup_fmap, Hi. }
  pose proof (Forall_lookup_1 _ _ _ _ Bx Hi) as [Hx1 Hx2].
  assert (forall f, total f (mkMockRun rng (mr_index u) k (<[i := t']> (mr_connections u))) = total f u + (f t' - f t)) as Ht.
  { intros f. unfold total. cbn. rewrite (sum_Z_insert _ _ _ _ _ Hi). lia. }
  split; cbn [mr_counters mr_index mr_connections]; try lia.
  - split; rewrite ?Ht; cbn [mr_counters mr_connections]; try lia.
    + apply Forall_insert; done.
    + apply Forall_insert; done.
    + unfold plans. cbn [mr_connections]. rewrite Hplans. exact Htu.
  - unfold plans. cbn [mr_connections]. rewrite Hplans. split; [done|lia].
  - apply Forall_insert; [done|]. lia.
Qed.

Lemma accept_counts c n u plan rng index :
  add_up_within c n u -> n + 1 < 2 ^ 64 -> accept_plan c (mr_rng u) (mr_index u) = (plan, rng, index) ->
  add_up_within c (n + 1) (mkMockRun rng index (mr_counters u) (mr_connections u ++ [Handshaking plan false])).
Proof.
  intros [[Hac Hop Hre Hse Hrj Hng Hag Hsv Htu] Ba Br Bs Bj Bg [Bi Bn] Bx] Hn Hplan.
  assert (0 <= turns (plans u)) as Hpos.
  { apply sum_Z_nonneg, Forall_fmap, Forall_true. intros p. unfold compose. by destruct (cp_reject p). }
  assert (cp_index plan = mr_index u /\ index = mr_index u + (if cp_reject plan then 0 else 1)) as [Hpi Hin].
  { unfold accept_plan in Hplan. destruct (next_f64 (mr_rng u)) as [draw r1]. destruct (next_u64 r1) as [seed r2].
    destruct (f64_ltb draw (mc_reject_ratio c)) eqn:Er; injection Hplan as <- <- <-; cbn [cp_index cp_reject]; (split; [done|]);
      [lia|by rewrite u64_add_id by lia]. }
  assert (plans (mkMockRun rng index (mr_counters u) (mr_connections u ++ [Handshaking plan false])) = plans u ++ [plan]) as Hpl.
  { unfold plans. cbn. by rewrite fmap_app. }
  split; cbn [mr_counters mr_index mr_connections]; try lia.
  - split; rewrite ?total_app; cbn [mr_counters mr_connections over_sessions session_of is_open refused is_agreed connection_agreed from_option option_fmap]; unfold total in *; try lia.
    + apply Forall_app. split; [done|]. by repeat constructor.
    + apply Forall_app. split; [done|]. constructor; [|done]. by intros [].
    + rewrite Hpl. intros i p. rewrite lookup_app_Some. intros [Hi|[Hge Hi]].
      * rewrite take_app_le by (apply lookup_lt_Some in Hi; lia). by apply Htu.
      * assert (i = length (plans u)) as -> by (apply list_lookup_singleton_Some in Hi; lia).
        rewrite Nat.sub_diag in Hi. injection Hi as <-. rewrite take_app_length. congruence.
  - rewrite Hpl. unfold turns. rewrite fmap_app, sum_Z_app. cbn. fold (turns (plans u)). destruct (cp_reject plan); lia.
  - apply Forall_app. split; [done|]. by repeat constructor.
Qed.

Lemma session_start_counts c plan now e : me_received (session_start c plan now e) = 0 /\ me_replies (session_start c plan now e) = 0.
Proof. unfold session_start. destruct (mc_socketio c) as [[? ?]|], (mc_replay c); cbn; try done. by destruct e. Qed.

Lemma u64_sub_id a b : 0 <= b <= a -> a < 2 ^ 64 -> a -u b = a - b.
Proof. intros H1 H2. apply wrap_id. unfold is_uint. lia. Qed.
Lemma counted_by_round out k :
  0 <= mk_received k < 2 ^ 64 - 1 -> 0 <= mk_sent k < 2 ^ 64 - 1 -> 1 <= mk_active k < 2 ^ 64 ->
  mk_accepted (count_round out k) = mk_accepted k /\ mk_rejected (count_round out k) = mk_rejected k /\
  mk_active (count_round out k) = mk_active k - (if ro_ends out then 1 else 0) /\
  mk_received (count_round out k) = mk_received k + (if ro_received out then 1 else 0) /\
  mk_sent (count_round out k) = mk_sent k + (if ro_sent out then 1 else 0) /\ mk_negotiated (count_round out k) = mk_negotiated k.
Proof.
  intros H1 H2 H3. unfold count_round. destruct (ro_received out), (ro_sent out), (ro_ends out); cbn;
    rewrite ?u64_add_id by lia; rewrite ?u64_sub_id by lia; split_and!; lia.
Qed.

Lemma mock_step_counts c epoch n u u' :
  add_up_within c n u -> 0 <= n -> n + 1 < 2 ^ 64 -> mock_step c epoch u u' -> add_up_within c (n + 1) u'.
Proof.
  intros Ha Hn0 Hn Hstep. pose proof Ha as [[Hac Hop Hre Hse Hrj Hng Hag Hsv Htu] Ba Br Bs Bj Bg Bi Bx].
  assert (Forall (fun t => 0 <= over_sessions (fun _ => 1) t) (mr_connections u) /\ Forall (fun t => 0 <= is_open t) (mr_connections u)
    /\ Forall (fun t => 0 <= is_agreed t) (mr_connections u)) as (Hn1 & Hn2 & Hn5).
  { split_and!; apply Forall_true; intros t; [unfold over_sessions; by destruct (session_of t)|by destruct t|unfold is_agreed; by destruct (connection_agreed t)]. }
  apply Forall_and in Bx as Bx'. destruct Bx' as [Hn3 Hn4].
  assert (0 <= total (over_sessions (fun _ => 1)) u) as Hna by (by apply sum_Z_nonneg, Forall_fmap).
  assert (0 <= total is_agreed u) as Hnc by (by apply sum_Z_nonneg, Forall_fmap).
  assert (0 <= total is_open u <= total (over_sessions (fun _ => 1)) u) as Hnb.
  { split; [by apply sum_Z_nonneg, Forall_fmap|]. apply sum_Z_ge, Forall_true. intros [| |? ? []]; cbn; lia. }
  destruct Hstep as [u plan rng index Hp|u i plan agreed Hi|u i plan Hi Hr|u i plan Hi Hr Hc|u i plan agreed query now Hi Hr
    |u i plan agreed s now w s' out Hi Hw Hr].
  - by apply accept_counts.
  - apply (update_counts c n u i (Handshaking plan agreed) (Ended plan agreed None)); try done; cbn; try lia; try by intros [].
    all: try exact (Forall_lookup_1 _ _ _ _ Hag Hi). all: unfold is_agreed; cbn; destruct (cp_reject plan), agreed; lia.
  - apply (update_counts c n u i (Handshaking plan false) (Ended plan false None)); try done; cbn; rewrite ?Hr; try lia; try by intros [].
    rewrite u64_add_id by lia. lia.
  - apply (update_counts c n u i (Handshaking plan false) (Handshaking plan true)); try done; cbn; try lia; try by intros [].
    rewrite u64_add_id by lia. lia.
  - unfold set_field. cbn [eta_expand MockRun_eta mr_rng mr_index mr_counters mr_connections].
    apply (update_counts c n u i (Handshaking plan agreed) _); try done; destruct (session_start_counts c plan now
      (bool_decide (is_Some (mc_socketio c)) && asks_engine_io_3 query)) as [E1 E2]; cbn [over_sessions session_of from_option];
      cbn [set_field eta_expand MockCounters_eta mk_accepted mk_rejected mk_active mk_received mk_sent mk_negotiated];
      cbn; rewrite ?u64_add_id by lia; try lia.
    all: try exact (Forall_lookup_1 _ _ _ _ Hag Hi). all: unfold is_agreed; cbn; destruct agreed; lia.
  - destruct (round_counts c plan epoch now w s s' out Hr) as [E1 E2].
    pose proof (sum_Z_member _ _ _ _ Hn2 Hi) as M2. pose proof (sum_Z_member _ _ _ _ Hn3 Hi) as M3. pose proof (sum_Z_member _ _ _ _ Hn4 Hi) as M4.
    fold (total is_open u) in M2. fold (total (over_sessions me_received) u) in M3. fold (total (over_sessions me_replies) u) in M4.
    cbn in M2, M3, M4. pose proof (Forall_lookup_1 _ _ _ _ Hsv Hi ltac:(by eexists)) as Hrej.
    assert (forall f, over_sessions f (if ro_ends out then Ended plan agreed (Some s') else Serving plan agreed s') = f s') as Hov by (intros f; by destruct (ro_ends out)).
    assert (is_open (if ro_ends out then Ended plan agreed (Some s') else Serving plan agreed s') = if ro_ends out then 0 else 1) as Hop' by (by destruct (ro_ends out)).
    assert (refused (if ro_ends out then Ended plan agreed (Some s') else Serving plan agreed s') = 0) as Hrf by (by destruct (ro_ends out)).
    assert (connection_agreed (if ro_ends out then Ended plan agreed (Some s') else Serving plan agreed s') = agreed) as Hagr by (by destruct (ro_ends out)).
    assert (forall x, is_agreed (if ro_ends out then Ended plan agreed (Some s') else Serving plan agreed s') - is_agreed (Serving plan agreed x) = 0)
      as Hagz by (intros x; unfold is_agreed; rewrite Hagr; cbn; lia).
    pose proof (counted_by_round out (mr_counters u)) as (K1 & K2 & K3 & K4 & K5 & K6); [lia|lia|lia|].
    unfold counted in E1, E2. rewrite !u64_add_id in E1, E2 by lia.
    apply (update_counts c n u i (Serving plan agreed s) _); rewrite ?Hov, ?Hop', ?Hrf, ?Hagz, ?Hagr; try done; try (by destruct (ro_ends out); exact (Forall_lookup_1 _ _ _ _ Hag Hi)); cbn; try (rewrite ?K1, ?K2, ?K3, ?K4, ?K5, ?K6).
    all: try (destruct (ro_received out); lia). all: try (destruct (ro_sent out); lia). all: try (destruct (ro_ends out); (done || lia)).
Qed.

Lemma mock_steps_count c epoch m n u u' :
  add_up_within c n u -> 0 <= n -> n + Z.of_nat m < 2 ^ 64 -> nsteps (mock_step c epoch) m u u' -> add_up_within c (n + Z.of_nat m) u'.
Proof.
  intros Ha Hn0 Hn Hs. revert n Ha Hn0 Hn. induction Hs as [u|m u v u' Hstep Hs IH]; intros n Ha Hn0 Hn; [by rewrite Z.add_0_r|].
  replace (n + Z.of_nat (S m)) with (n + 1 + Z.of_nat m) by lia. apply IH; [|lia|lia].
  eapply mock_step_counts; [exact Ha|lia|lia|exact Hstep].
Qed.
Lemma mock_begins_count c nanos pid : add_up_within c 0 (mock_run_begins c nanos pid).
Proof. repeat split; cbn; try done; try lia. Qed.

(** What the two readings of a stats line are: no counter has gone back. *)
Definition no_less (previous now : MockStats) : Prop :=
  sk_accepted previous <= sk_accepted now /\ sk_rejected previous <= sk_rejected now /\
  sk_received previous <= sk_received now /\ sk_sent previous <= sk_sent now /\ sk_compressed previous <= sk_compressed now.

Lemma mock_step_no_less c epoch n u u' :
  add_up_within c n u -> 0 <= n -> n + 1 < 2 ^ 64 -> mock_step c epoch u u' ->
  no_less (mock_snapshot (mr_counters u)) (mock_snapshot (mr_counters u')).
Proof.
  intros Ha Hn0 Hn Hs. pose proof (mock_step_counts c epoch n u u' Ha Hn0 Hn Hs) as Ha'. destruct Ha as [Hc Ba Br Bs Bj Bg _ Bx].
  destruct Hc as [Hac Hop Hre Hse Hrj Hng _ _ _]. apply Forall_and in Bx as [Hn3 Hn4].
  assert (Forall (fun t => 0 <= over_sessions (fun _ => 1) t) (mr_connections u) /\ Forall (fun t => 0 <= is_agreed t) (mr_connections u)) as [Hn1 Hn5].
  { split; apply Forall_true; intros t; [unfold over_sessions; by destruct (session_of t)|unfold is_agreed; by destruct (connection_agreed t)]. }
  assert (0 <= mk_accepted (mr_counters u) /\ 0 <= mk_received (mr_counters u) /\ 0 <= mk_sent (mr_counters u) /\ 0 <= mk_negotiated (mr_counters u))
    as (P1 & P2 & P3 & P4).
  { rewrite Hac, Hre, Hse, Hng. split_and!; by apply sum_Z_nonneg, Forall_fmap. }
  destruct Hs; unfold no_less; cbn; try lia.
  - rewrite u64_add_id by lia. lia.
  - rewrite u64_add_id by lia. lia.
  - rewrite u64_add_id by lia. lia.
  - unfold count_round. destruct (ro_received out), (ro_sent out), (ro_ends out); cbn; rewrite ?u64_add_id by lia; lia.
Qed.
Lemma mock_steps_no_less c epoch m n u u' :
  add_up_within c n u -> 0 <= n -> n + Z.of_nat m < 2 ^ 64 -> nsteps (mock_step c epoch) m u u' ->
  no_less (mock_snapshot (mr_counters u)) (mock_snapshot (mr_counters u')).
Proof.
  intros Ha Hn0 Hn Hs. revert n Ha Hn0 Hn. induction Hs as [u|m u v u' Hstep Hs IH]; intros n Ha Hn0 Hn; [unfold no_less; lia|].
  pose proof (mock_step_no_less c epoch n u v Ha Hn0 ltac:(lia) Hstep) as H1.
  destruct (IH (n + 1)) as (H2 & H3 & H4 & H5 & H6); [eapply mock_step_counts; [exact Ha|lia|lia|exact Hstep]|lia|lia|].
  destruct H1 as (? & ? & ? & ? & ?). unfold no_less. lia.
Qed.

(** C17. Whatever its connections do, in any order, the server's counters are
    those of its connections: the accepted are the sessions it began and the
    active those still open; the compressed are the connections whose response
    head agreed on compression, established or not, and none without the
    option; the frames received and sent are the sums of the sessions' own
    counts; no rejected upgrade is ever served, agrees on compression or takes
    a turn, so the session of the [k]-th connection that was not rejected
    replays the [k]-th script, round robin; and between two readings none of
    the five counters that only count goes back, so a stats line's rates are
    differences. *)
Theorem mock_counters_add_up c epoch nanos pid m n u u'
    (Hn : Z.of_nat m + Z.of_nat n < 2 ^ 64)
    (Hu : nsteps (mock_step c epoch) m (mock_run_begins c nanos pid) u) (Hu' : nsteps (mock_step c epoch) n u u') :
  counters_add_up c u /\
  sk_received (mock_snapshot (mr_counters u')) -u sk_received (mock_snapshot (mr_counters u)) =
    total (over_sessions me_received) u' - total (over_sessions me_received) u /\
  sk_sent (mock_snapshot (mr_counters u')) -u sk_sent (mock_snapshot (mr_counters u)) =
    total (over_sessions me_replies) u' - total (over_sessions me_replies) u /\
  no_less (mock_snapshot (mr_counters u)) (mock_snapshot (mr_counters u')).
Proof.
  pose proof (mock_steps_count c epoch m 0 _ u (mock_begins_count c nanos pid) ltac:(lia) ltac:(lia) Hu) as Ha. rewrite Z.add_0_l in Ha.
  pose proof (mock_steps_count c epoch n _ u u' Ha ltac:(lia) ltac:(lia) Hu') as Ha'.
  pose proof (mock_steps_no_less c epoch n _ u u' Ha ltac:(lia) ltac:(lia) Hu') as Hle.
  destruct Ha as [Hc _ _ _ _ _ _ Bx], Ha' as [Hc' _ Br' Bs' _ _ _ _]. apply Forall_and in Bx as [Hn3 Hn4].
  rewrite <- (au_received _ _ Hc), <- (au_received _ _ Hc'), <- (au_sent _ _ Hc), <- (au_sent _ _ Hc').
  assert (0 <= mk_received (mr_counters u) /\ 0 <= mk_sent (mr_counters u)) as (P2 & P3).
  { rewrite (au_received _ _ Hc), (au_sent _ _ Hc). split; by apply sum_Z_nonneg, Forall_fmap. }
  destruct Hle as (L1 & L2 & L3 & L4 & L5). cbn in *.
  split_and!; [done|by rewrite u64_sub_id by lia|by rewrite u64_sub_id by lia|by unfold no_less].
Qed.
End Server.

#[local] Existing Instance text_json.
#[local] Existing Instance Sample.no_format.

Definition compressing_mock : MockConfig (N := Z) :=
  mkMockConfig DEFAULT_LISTEN 1000 500 (Some 2) f64_zero None None None None true None false.

(** Two connections with compression: the first agrees on it and its
    handshake fails, the second serves the frame of a client. *)
Lemma mock_counters_add_up_witness : exists u,
  nsteps (mock_step compressing_mock 0) 6 (mock_run_begins compressing_mock None 1) u /\
  mk_received (mr_counters u) = 1 /\ mk_negotiated (mr_counters u) = 1 /\ mk_accepted (mr_counters u) = 1 /\
  counters_add_up compressing_mock u.
Proof.
  assert (exists u, nsteps (mock_step compressing_mock 0) 6 (mock_run_begins compressing_mock None 1) u /\
    mk_received (mr_counters u) = 1 /\ mk_negotiated (mr_counters u) = 1 /\ mk_accepted (mr_counters u) = 1) as (u & Hs & Hr & Hg & Ha).
  { eexists. split.
    - eapply nsteps_l; [eapply StepAccept; vm_compute; reflexivity|].
      eapply nsteps_l; [eapply (StepNegotiated _ _ _ 0); vm_compute; reflexivity|].
      eapply nsteps_l; [eapply (StepHandshakeFailed _ _ _ 0); vm_compute; reflexivity|].
      eapply nsteps_l; [eapply StepAccept; vm_compute; reflexivity|].
      eapply nsteps_l; [eapply (StepEstablished _ _ _ 1 _ _ None 0); vm_compute; reflexivity|].
      eapply nsteps_l.
      { eapply (StepRound _ _ _ 1 _ _ _ 10 (WakeReceived (Some (Ok (Text "a"%string))))); [vm_compute; reflexivity..|].
        match goal with |- ?x = _ => let v := eval vm_compute in x in transitivity v; [vm_compute; reflexivity|reflexivity] end. }
      apply nsteps_O.
    - vm_compute. auto. }
  exists u. split; [exact Hs|]. split; [exact Hr|]. split; [exact Hg|]. split; [exact Ha|].
  exact (proj1 (mock_counters_add_up compressing_mock 0 None 1 6 0 _ _ ltac:(lia) Hs (nsteps_O _ _))).
Defined.
