(* ===== verification/Deflate.v ===== *)
(** * permessage-deflate (src/src/deflate.rs)

    The extension's negotiation, the frame headers and the byte-stream layer
    between the connection and the WebSocket library, which deflates the
    messages written and inflates those read.  flate2 is a parameter, the
    class [Flate]; bytes are integers, a buffer read from a position on is
    what is left of it. *)

From Stdlib Require Import ZArith Lia Ascii String.
From stdpp Require Import base tactics strings numbers option list.
From S2P Require Import Prelude RustStd Str Wire Load Summaries.

Local Open Scope Z_scope.
Local Open Scope rust_scope.

Definition OFFER : string := "permessage-deflate".
Definition SYNC_TAIL : list Z := [0; 0; 255; 255].
Definition MAX_MESSAGE : Z := Z.shiftl 64 20.
Definition MAX_FRAME : Z := Z.shiftl 64 20.
Definition MAX_HEAD : Z := Z.shiftl 64 10.
Definition HIGH_WATER : Z := Z.shiftl 256 10.

Inductive Role := Client | Server.
#[export] Instance Role_eq_dec : EqDecision Role.
Proof. solve_decision. Defined.

(** ** Negotiation *)

Record Params := mkParams {
  pm_server_no_context_takeover : bool;
  pm_client_no_context_takeover : bool;
  pm_server_max_window_bits : option Z;
  pm_client_max_window_bits : option Z;
}.
#[export] Instance Params_eta : Settable Params := fun p =>
  mkParams (pm_server_no_context_takeover p) (pm_client_no_context_takeover p) (pm_server_max_window_bits p) (pm_client_max_window_bits p).
#[export] Instance Params_eq_dec : EqDecision Params.
Proof. solve_decision. Defined.

(** [trim_matches] of one ASCII character. *)
Fixpoint trim_char_start (c : ascii) (s : string) : string :=
  match s with String d s' => if decide (d = c) then trim_char_start c s' else s | EmptyString => s end.
Fixpoint trim_char_end (c : ascii) (s : string) : string :=
  match s with
  | String d s' =>
      match trim_char_end c s' with
      | EmptyString => if decide (d = c) then EmptyString else String d EmptyString
      | rest => String d rest
      end
  | EmptyString => EmptyString
  end.
Definition QUOTE_CHAR : ascii := ascii_of_byte 34.

(** The window bits of a parameter: [Some None] without a value. *)
Definition window_bits (value : option string) : option (option Z) :=
  match value with
  | None => Some None
  | Some v => match parse_uint 255 v with
              | Some b => if (8 <=? b) && (b <=? 15) then Some (Some b) else None
              | None => None
              end
  end.
Definition add_param (p : Params) (part : string) : option Params :=
  let (name, value) := match split_once "=" part with
    | Some (name, value) => (trim name, Some (trim_char_end QUOTE_CHAR (trim_char_start QUOTE_CHAR (trim value))))
    | None => (part, None)
    end in
  let name := to_ascii_lowercase name in
  if decide (name = "server_no_context_takeover"%string) then Some (p <| pm_server_no_context_takeover := true |>)
  else if decide (name = "client_no_context_takeover"%string) then Some (p <| pm_client_no_context_takeover := true |>)
  else if decide (name = "server_max_window_bits"%string) then
    bits ← window_bits value; Some (p <| pm_server_max_window_bits := bits |>)
  else if decide (name = "client_max_window_bits"%string) then
    bits ← window_bits value; Some (p <| pm_client_max_window_bits := bits |>)
  else None.
Fixpoint add_params (p : Params) (parts : list string) : option Params :=
  match parts with [] => Some p | part :: parts => p ← add_param p part; add_params p parts end.

Definition parse_extension (extension : string) : option Params :=
  match trim <$> split_on ";" extension with
  | [] => None
  | name :: parts =>
      if eq_ignore_ascii_case name OFFER
      then add_params (mkParams false false None None) (filter (fun p => p <> ""%string) parts)
      else None
  end.
(** [Params::parse] *)
Definition Params_parse (value : string) : option Params := first_some parse_extension (split_on "," value).

Definition can_compress (p : Params) (role : Role) : bool :=
  match (match role with Client => pm_client_max_window_bits p | Server => pm_server_max_window_bits p end) with
  | None => true
  | Some bits => bits =? 15
  end.
Definition reset_deflater (p : Params) (role : Role) : bool :=
  match role with Client => pm_client_no_context_takeover p | Server => pm_server_no_context_takeover p end.
Definition reset_inflater (p : Params) (role : Role) : bool :=
  match role with Client => pm_server_no_context_takeover p | Server => pm_client_no_context_takeover p end.

Definition accept_offer (offer : string) : option string :=
  params ← Params_parse offer;
  if negb (match pm_server_max_window_bits params with None => true | Some bits => bits =? 15 end) then None
  else Some (if pm_server_no_context_takeover params then OFFER +:+ "; server_no_context_takeover" else OFFER)%string.

(** ** The HTTP heads *)

Definition CRLF : string := string_of_bytes [13; 10].
(** [split] at every occurrence of [p]; every part but the last is shorter
    than what it is cut from. *)
Fixpoint split_str_loop (p : string) (fuel : nat) (s : string) : list string :=
  match fuel with
  | O => [s]
  | S fuel => match find_split p s with Some (before, after) => before :: split_str_loop p fuel after | None => [s] end
  end.
Definition split_str (p s : string) : list string := split_str_loop p (String.length s) s.

(** The next of [split_whitespace]: a word and what follows it. *)
Fixpoint cut_word (s : string) : string * string :=
  match first_some (fun w => strip_prefix w s) whitespace_chars, s with
  | Some _, _ => (""%string, s)
  | None, String c s' => let (word, rest) := cut_word s' in (String c word, rest)
  | None, EmptyString => (""%string, s)
  end.
Definition next_word (s : string) : option (string * string) :=
  let s := trim_start s in if decide (s = ""%string) then None else Some (cut_word s).

Definition head_values (head name : string) : list string :=
  omap (fun line => '(key, value) ← split_once ":" line;
                    if eq_ignore_ascii_case (trim key) name then Some (trim value) else None)
    (drop 1 (split_str CRLF head)).
Definition EXTENSIONS : string := "sec-websocket-extensions".
Definition negotiated (response : string) : option Params :=
  status ← head (split_str CRLF response);
  '(_, rest) ← next_word status;
  '(code, _) ← next_word rest;
  if decide (code = "101"%string) then first_some Params_parse (head_values response EXTENSIONS) else None.

(** [String::from_utf8_lossy]: what cannot be a character, up to the first
    byte that shows it, becomes U+FFFD. *)
Definition REPLACEMENT : list Z := [239; 191; 189].
Fixpoint lossy (s : utf8_state) (pending : list Z) (bytes : list Z) : list Z :=
  match bytes with
  | [] => match pending with [] => [] | _ => REPLACEMENT end
  | b :: bytes =>
      match utf8_step s b with
      | Some Ground => pending ++ b :: lossy Ground [] bytes
      | Some s' => lossy s' (pending ++ [b]) bytes
      | None =>
          match pending with
          | [] => REPLACEMENT ++ lossy Ground [] bytes
          | _ => REPLACEMENT ++ match utf8_step Ground b with
                                | Some Ground => b :: lossy Ground [] bytes
                                | Some s' => lossy s' [b] bytes
                                | None => REPLACEMENT ++ lossy Ground [] bytes
                                end
          end
      end
  end.
Definition from_utf8_lossy (bytes : list Z) : string := string_of_bytes (lossy Ground [] bytes).

(** The position after the first blank line. *)
Fixpoint head_end (buf : list Z) : option nat :=
  match buf with
  | b :: rest => if decide (take 4 buf = [13; 10; 13; 10]) then Some 4%nat else S <$> head_end rest
  | [] => None
  end.

(** ** Frame headers *)

Record FrameHeader := mkFrameHeader {
  fh_fin : bool;
  fh_rsv1 : bool;
  fh_rsv23 : Z;
  fh_opcode : Z;
  fh_mask : option (list Z);
  fh_len : Z;
  fh_payload : Z;
}.

Definition be_value (bytes : list Z) : Z := fold_left (fun n b => n * 256 + b) bytes 0.
Definition be_bytes (n : nat) (v : Z) : list Z := (fun i => Z.shiftr v (8 * Z.of_nat i) mod 256) <$> rev (seq 0 n).
(** [buf.get(from..from + n)] *)
Definition get_range (buf : list Z) (from n : nat) : option (list Z) :=
  if (from + n <=? length buf)%nat then Some (take n (drop from buf)) else None.

(** The payload length, of the second byte's [n], and where it ends. *)
Definition payload_length (buf : list Z) (n : Z) : option (Z * Z) :=
  if n =? 126 then bytes ← get_range buf 2 2; Some (be_value bytes, 4)
  else if n =? 127 then bytes ← get_range buf 2 8; Some (Z.min (be_value bytes) u64_max, 10)
  else Some (n, 2).

(** [Header::parse] *)
Definition FrameHeader_parse (buf : list Z) : option FrameHeader :=
  match buf with
  | b0 :: b1 :: _ =>
      '(payload, len) ← payload_length buf (Z.land b1 0x7f);
      '(mask, len) ← if bool_decide (Z.land b1 0x80 <> 0)
        then key ← get_range buf (Z.to_nat len) 4; Some (Some key, len + 4) else Some (None, len);
      Some (mkFrameHeader (bool_decide (Z.land b0 0x80 <> 0)) (bool_decide (Z.land b0 0x40 <> 0)) (Z.land b0 0x30) (Z.land b0 0x0f)
              mask len payload)
  | _ => None
  end.

(** [Header::write]: [payload as u8] and [as u16] fit in the first two
    arms. *)
Definition FrameHeader_write (h : FrameHeader) (rsv1 : bool) (payload : Z) : list Z :=
  let fin := if fh_fin h then 0x80 else 0 in
  let rsv1 := if rsv1 then 0x40 else 0 in
  let mask_bit := if fh_mask h is Some _ then 0x80 else 0 in
  Z.lor (Z.lor (Z.lor fin rsv1) (fh_rsv23 h)) (fh_opcode h) ::
  (if payload <=? 125 then [Z.lor mask_bit payload]
   else if payload <=? 0xffff then Z.lor mask_bit 126 :: be_bytes 2 payload
   else Z.lor mask_bit 127 :: be_bytes 8 payload) ++ default [] (fh_mask h).

(** [apply_mask] *)
Definition apply_mask (data key : list Z) : list Z := imap (fun i b => Z.lxor b (default 0 (key !! (i mod 4)%nat))) data.
Definition masked (key : option (list Z)) (data : list Z) : list Z := match key with Some key => apply_mask data key | None => data end.

(** ** The codec *)

(** What the layer uses of flate2: its states, one call of [compress_vec]
    with a sync flush and of [decompress_vec], and how much room a vector has
    after [with_capacity] and [reserve].  A call is given what is left of the
    input and the room in the output, and says how much input it took, what
    it wrote and, inflating, whether the stream has ended; it fails with
    [None].  The last two bound the calls one input can need. *)
Class Flate := {
  Compressor : Type;
  Decompressor : Type;
  new_compressor : Compressor;
  new_decompressor : Decompressor;
  compressor_reset : Compressor -> Compressor;
  decompressor_reset : Decompressor -> Decompressor;
  compress_vec : Compressor -> list Z -> Z -> option (nat * list Z * Compressor);
  decompress_vec : Decompressor -> list Z -> Z -> option (nat * list Z * bool * Decompressor);
  vec_with_capacity : Z -> Z;
  vec_reserve : Z -> Z -> Z -> Z;
  compress_calls : Compressor -> list Z -> nat;
  decompress_calls : Decompressor -> list Z -> nat;
}.

(** An error of the layer; the last is only the model's, for a codec that
    never finishes. *)
Inductive LayerError := InvalidData (message : string) | NeverDone.

Section Layer.
Context `{Flate}.

(** The loop of [deflate]; [total] is the whole input's length. *)
Fixpoint deflate_loop (fuel : nat) (d : Compressor) (total : Z) (input out : list Z) (capacity : Z) : result (list Z * Compressor) LayerError :=
  match fuel with
  | O => Err NeverDone
  | S fuel =>
      let len := Z.of_nat (length out) in
      let capacity := if capacity - len <? 64 then vec_reserve capacity len (Z.max total 1024) else capacity in
      match compress_vec d input (capacity - len) with
      | None => Err (InvalidData "a WebSocket message does not deflate")
      | Some (consumed, produced, d) =>
          let input := drop consumed input in
          let out := out ++ produced in
          let done := bool_decide (input = []) in
          let progress := negb (Nat.eqb consumed 0) || negb (bool_decide (produced = [])) in
          if (done && (Z.of_nat (length out) <? capacity)) || negb progress then Ok (out, d)
          else deflate_loop fuel d total input out capacity
      end
  end.
Definition drop_tail (out : list Z) : list Z :=
  let keep := (length out - length SYNC_TAIL)%nat in
  if decide (drop keep out = SYNC_TAIL) then take keep out else out.
(** [deflate]: the deflater is made for the first message. *)
Definition deflate (deflater : option Compressor) (input : list Z) : result (list Z * Compressor) LayerError :=
  let d := default new_compressor deflater in
  let total := Z.of_nat (length input) in
  let? r := deflate_loop (S (compress_calls d input)) d total input [] (vec_with_capacity (total / 2 + 64)) in
  Ok (drop_tail r.1, r.2).

(** The loop of [inflate], with the message's decompressed size so far. *)
Fixpoint inflate_loop (fuel : nat) (i : Decompressor) (total : Z) (input out : list Z) (capacity inflated : Z)
  : result (list Z * Decompressor * Z) LayerError :=
  match fuel with
  | O => Err NeverDone
  | S fuel =>
      let len := Z.of_nat (length out) in
      let capacity := if capacity - len <? 4096 then vec_reserve capacity len (Z.min (Z.max (total * 4) (Z.shiftl 16 10)) (Z.shiftl 1 20)) else capacity in
      match decompress_vec i input (capacity - len) with
      | None => Err (InvalidData "a compressed WebSocket message does not inflate")
      | Some (consumed, produced, ended, i) =>
          let input := drop consumed input in
          let out := out ++ produced in
          let inflated := inflated + Z.of_nat (length produced) in
          if MAX_MESSAGE <? inflated then Err (InvalidData "a compressed WebSocket message inflates past 64 MiB")
          else
            let done := bool_decide (input = []) in
            let progress := negb (Nat.eqb consumed 0) || negb (bool_decide (produced = [])) in
            if ended || (done && (Z.of_nat (length out) <? capacity)) || negb progress then Ok (out, i, inflated)
            else inflate_loop fuel i total input out capacity inflated
      end
  end.
Definition inflate (i : Decompressor) (payload : list Z) (last : bool) (inflated : Z) : result (list Z * Decompressor * Z) LayerError :=
  let input := if last then payload ++ SYNC_TAIL else payload in
  inflate_loop (S (decompress_calls i input)) i (Z.of_nat (length input)) input [] 0 inflated.

(** ** The layer *)

Record DeflateStream := mkDeflateStream {
  ds_role : Role;
  ds_counters : CompressionCounts;
  ds_agreement : option (option Params);
  ds_raw_in : list Z;
  ds_ready_in : list Z;
  ds_read_head_done : bool;
  ds_inflating : bool;
  ds_inflated : Z;
  ds_inflater : Decompressor;
  ds_raw_out : list Z;
  ds_ready_out : list Z;
  ds_write_head_done : bool;
  ds_deflater : option Compressor;
}.
#[export] Instance DeflateStream_eta : Settable DeflateStream := fun s =>
  mkDeflateStream (ds_role s) (ds_counters s) (ds_agreement s) (ds_raw_in s) (ds_ready_in s) (ds_read_head_done s) (ds_inflating s)
    (ds_inflated s) (ds_inflater s) (ds_raw_out s) (ds_ready_out s) (ds_write_head_done s) (ds_deflater s).
Definition DeflateStream_new (role : Role) (counters : CompressionCounts) : DeflateStream :=
  mkDeflateStream role counters None [] [] false false 0 new_decompressor [] [] false None.

Definition declined (s : DeflateStream) : bool := match ds_agreement s with Some None => true | _ => false end.

(** The counters are shared by a run's connections; each addition is one
    atomic step. *)
Definition count_negotiated (k : CompressionCounts) := k <| cc_negotiated ::= fun n => n +u 1 |>.
Definition count_offered (k : CompressionCounts) := k <| cc_offered ::= fun n => n +u 1 |>.
Definition count_recv (wire bytes : Z) (k : CompressionCounts) :=
  k <| cc_wire_bytes_recv ::= fun n => n +u wire |> <| cc_bytes_recv ::= fun n => n +u bytes |>.
Definition count_sent (wire bytes : Z) (k : CompressionCounts) :=
  k <| cc_bytes_sent ::= fun n => n +u bytes |> <| cc_wire_bytes_sent ::= fun n => n +u wire |>.

(** [end_head] *)
Definition end_head (inbound : bool) (s : DeflateStream) : result (DeflateStream * bool) LayerError :=
  let buf := if inbound then ds_raw_in s else ds_raw_out s in
  match head_end buf with
  | None =>
      if MAX_HEAD <? Z.of_nat (length buf) then Err (InvalidData "the WebSocket handshake is too long") else Ok (s, false)
  | Some end_ =>
      let text := from_utf8_lossy (take end_ buf) in
      let s :=
        if Bool.eqb inbound (bool_decide (ds_role s = Client)) then
          let params := negotiated text in
          (if params is Some _ then s <| ds_counters ::= count_negotiated |> else s) <| ds_agreement := Some params |>
        else if bool_decide (ds_role s = Client) && existsb (fun v => bool_decide (is_Some (Params_parse v))) (head_values text EXTENSIONS)
        then s <| ds_counters ::= count_offered |> else s in
      Ok (if inbound
          then s <| ds_ready_in ::= fun l => l ++ take end_ buf |> <| ds_raw_in := drop end_ buf |>
          else s <| ds_ready_out ::= fun l => l ++ take end_ buf |> <| ds_raw_out := drop end_ buf |>, true)
  end.

(** The frame at the start of a buffer: its header, its payload and what
    follows it; [None] until it is complete. *)
Definition split_frame (buf : list Z) : option (FrameHeader * list Z * list Z) :=
  h ← FrameHeader_parse buf;
  let total := fh_len h + fh_payload h in
  if Z.of_nat (length buf) <? total then None
  else Some (h, take (Z.to_nat (fh_payload h)) (drop (Z.to_nat (fh_len h)) buf), drop (Z.to_nat total) buf).
Definition frame_bytes (h : FrameHeader) (buf : list Z) : list Z := take (Z.to_nat (fh_len h + fh_payload h)) buf.

(** One inbound frame. *)
Definition frame_in (params : Params) (h : FrameHeader) (payload whole : list Z) (s : DeflateStream) : result DeflateStream LayerError :=
  let data := fh_opcode h <? 8 in
  let s := if data && negb (fh_opcode h =? 0) then s <| ds_inflating := fh_rsv1 h |> <| ds_inflated := 0 |> else s in
  if data && ds_inflating s then
    let? r := inflate (ds_inflater s) (masked (fh_mask h) payload) (fh_fin h) (ds_inflated s) in
    let '(out, inflater, inflated) := r in
    let s := s <| ds_inflater := inflater |> <| ds_inflated := inflated |>
               <| ds_counters ::= count_recv (fh_payload h) (Z.of_nat (length out)) |>
               <| ds_ready_in ::= fun l => l ++ FrameHeader_write h false (Z.of_nat (length out)) ++ masked (fh_mask h) out |> in
    Ok (if fh_fin h then
          (if reset_inflater params (ds_role s) then s <| ds_inflater ::= decompressor_reset |> else s) <| ds_inflating := false |>
        else s)
  else
    let s := if data then s <| ds_counters ::= count_recv (fh_payload h) (fh_payload h) |> else s in
    Ok (s <| ds_ready_in ::= fun l => l ++ whole |>).

(** The loop of [process_in], over the complete frames of [raw_in]. *)
Fixpoint frames_in (fuel : nat) (params : Params) (s : DeflateStream) : result DeflateStream LayerError :=
  match fuel with
  | O => Err NeverDone
  | S fuel =>
      match FrameHeader_parse (ds_raw_in s) with
      | None => Ok s
      | Some h =>
          if MAX_FRAME <? fh_payload h then Err (InvalidData "a compressed WebSocket frame is too large")
          else match split_frame (ds_raw_in s) with
               | None => Ok s
               | Some (h, payload, rest) =>
                   let? s := frame_in params h payload (frame_bytes h (ds_raw_in s)) s in
                   frames_in fuel params (s <| ds_raw_in := rest |>)
               end
      end
  end.
Definition process_in (s : DeflateStream) : result DeflateStream LayerError :=
  let? r := if ds_read_head_done s then Ok (s, true)
            else let? r := end_head true s in Ok (r.1 <| ds_read_head_done := r.2 |>, r.2) in
  let (s, headed) := r in
  if negb headed then Ok s
  else match ds_agreement s with
       | None => Ok s
       | Some None => Ok (s <| ds_ready_in ::= fun l => l ++ ds_raw_in s |> <| ds_raw_in := [] |>)
       | Some (Some params) => frames_in (S (length (ds_raw_in s))) params s
       end.

(** One outbound frame. *)
Definition frame_out (params : Params) (h : FrameHeader) (payload whole : list Z) (s : DeflateStream) : result DeflateStream LayerError :=
  let message := (fh_opcode h =? 1) || (fh_opcode h =? 2) in
  if can_compress params (ds_role s) && message && fh_fin h && negb (fh_rsv1 h) then
    let? r := deflate (ds_deflater s) (masked (fh_mask h) payload) in
    let (out, deflater) := r in
    let s := s <| ds_deflater := Some (if reset_deflater params (ds_role s) then compressor_reset deflater else deflater) |>
               <| ds_counters ::= count_sent (Z.of_nat (length out)) (fh_payload h) |> in
    Ok (s <| ds_ready_out ::= fun l => l ++ FrameHeader_write h true (Z.of_nat (length out)) ++ masked (fh_mask h) out |>)
  else
    let s := if message then s <| ds_counters ::= count_sent (fh_payload h) (fh_payload h) |> else s in
    Ok (s <| ds_ready_out ::= fun l => l ++ whole |>).
Fixpoint frames_out (fuel : nat) (params : Params) (s : DeflateStream) : result DeflateStream LayerError :=
  match fuel with
  | O => Err NeverDone
  | S fuel =>
      match split_frame (ds_raw_out s) with
      | None => Ok s
      | Some (h, payload, rest) =>
          let? s := frame_out params h payload (frame_bytes h (ds_raw_out s)) s in
          frames_out fuel params (s <| ds_raw_out := rest |>)
      end
  end.
Definition process_out (s : DeflateStream) : result DeflateStream LayerError :=
  let? r := if ds_write_head_done s then Ok (s, true)
            else let? r := end_head false s in Ok (r.1 <| ds_write_head_done := r.2 |>, r.2) in
  let (s, headed) := r in
  if negb headed then Ok s
  else match ds_agreement s with
       | None => Ok s
       | Some None => Ok (s <| ds_ready_out ::= fun l => l ++ ds_raw_out s |> <| ds_raw_out := [] |>)
       | Some (Some params) => frames_out (S (length (ds_raw_out s))) params s
       end.

(** ** The stream's methods *)

(** What a poll of the connection answers, and one of the layer. *)
Inductive Poll (A : Type) := PollReady (a : A) | PollPending | PollFailed.
#[global] Arguments PollReady {A} a.
#[global] Arguments PollPending {A}.
#[global] Arguments PollFailed {A}.

(** [poll_drain]: [accepts] is how many bytes each write of the connection
    takes; also what it has been given. *)
Fixpoint poll_drain (accepts : list (Poll nat)) (s : DeflateStream) : Poll unit * DeflateStream * list Z * list (Poll nat) :=
  match ds_ready_out s with
  | [] => (PollReady tt, s, [], accepts)
  | _ =>
      match accepts with
      | [] | PollPending :: _ => (PollPending, s, [], drop 1 accepts)
      | PollFailed :: accepts | PollReady O :: accepts => (PollFailed, s, [], accepts)
      | PollReady n :: accepts =>
          let sent := take n (ds_ready_out s) in
          let '(p, s, wire, accepts) := poll_drain accepts (s <| ds_ready_out ::= drop n |>) in (p, s, sent ++ wire, accepts)
      end
  end.

(** [poll_read] of at most [want] bytes; [reads] is what each read of the
    connection answers, no bytes at its end, and what is left of it. *)
Fixpoint poll_read (want : nat) (reads : list (Poll (list Z))) (s : DeflateStream)
  : Poll (list Z) * result DeflateStream LayerError * list (Poll (list Z)) :=
  let deliver (s : DeflateStream) := (PollReady (take want (ds_ready_in s)), Ok (s <| ds_ready_in ::= drop want |>), reads) in
  if bool_decide (ds_ready_in s <> []) then deliver s
  else match (if bool_decide (ds_raw_in s = []) then Ok s else process_in s) with
  | Err e => (PollFailed, Err e, reads)
  | Ok s =>
      if bool_decide (ds_ready_in s <> []) then deliver s
      else match reads with
           | [] => (PollPending, Ok s, [])
           | PollPending :: reads => (PollPending, Ok s, reads)
           | PollFailed :: reads => (PollFailed, Ok s, reads)
           | PollReady chunk :: reads =>
               if declined s && bool_decide (ds_raw_in s = []) then (PollReady (take want chunk), Ok s, reads)
               else if bool_decide (chunk = []) then (PollReady [], Ok s, reads)
               else match process_in (s <| ds_raw_in ::= fun l => l ++ chunk |>) with
                    | Err e => (PollFailed, Err e, reads)
                    | Ok s => poll_read want reads s
                    end
           end
  end.

(** [poll_write]: the bytes it says it took. *)
Definition poll_write (buf : list Z) (accepts : list (Poll nat)) (s : DeflateStream)
  : Poll nat * result DeflateStream LayerError * list Z :=
  let '(p, s, wire, accepts) :=
    if HIGH_WATER <? Z.of_nat (length (ds_ready_out s)) then poll_drain accepts s else (PollReady tt, s, [], accepts) in
  match p with
  | PollPending => (PollPending, Ok s, wire)
  | PollFailed => (PollFailed, Ok s, wire)
  | PollReady _ =>
      if declined s && bool_decide (ds_raw_out s = []) && bool_decide (ds_ready_out s = []) then
        match accepts with
        | PollReady n :: _ => (PollReady (n `min` length buf)%nat, Ok s, wire ++ take n buf)
        | PollFailed :: _ => (PollFailed, Ok s, wire)
        | _ => (PollPending, Ok s, wire)
        end
      else match process_out (s <| ds_raw_out ::= fun l => l ++ buf |>) with
           | Err e => (PollFailed, Err e, wire)
           | Ok s =>
               let '(p, s, more, _) := poll_drain accepts s in
               (match p with PollFailed => PollFailed | _ => PollReady (length buf) end, Ok s, wire ++ more)
           end
  end.

(** [poll_flush] and [poll_shutdown], up to the connection's own. *)
Definition poll_flush (accepts : list (Poll nat)) (s : DeflateStream) : Poll unit * result DeflateStream LayerError * list Z :=
  match process_out s with
  | Err e => (PollFailed, Err e, [])
  | Ok s => let '(p, s, wire, _) := poll_drain accepts s in (p, Ok s, wire)
  end.
Definition poll_shutdown (accepts : list (Poll nat)) (s : DeflateStream) : Poll unit * DeflateStream * list Z :=
  let '(p, s, wire, _) := poll_drain accepts s in (p, s, wire).
End Layer.

(** ** What the layer relies on of flate2

    A codec's state stands for a stream: all it was given and all it wrote
    since it was made or reset.  A sync flush is complete when a call has
    taken all input and left room: then the stream ends with an empty block
    written since the last complete flush, and inflating it gives all that
    was deflated.  Until then every call, with more than the room zlib asks
    for, takes or writes something.  Inflating such a stream does not fail
    or end, and gives what it stands for. *)
Class FlateLaws (F : Flate) := {
  c_in : Compressor -> list Z;
  c_out : Compressor -> list Z;
  c_done : Compressor -> nat;
  c_ok : Compressor -> Prop;
  d_in : Decompressor -> list Z;
  d_out : Decompressor -> list Z;
  d_ok : Decompressor -> Prop;
  inflates : list Z -> list Z;
  is_stream : list Z -> Prop;
  with_capacity_law n : 0 <= n -> n <= vec_with_capacity n;
  reserve_law capacity len additional : len + additional <= vec_reserve capacity len additional;
  compressor_begins d : d = new_compressor \/ (exists d', c_ok d' /\ d = compressor_reset d') ->
    c_ok d /\ c_in d = [] /\ c_out d = [] /\ c_done d = 0%nat;
  decompressor_begins i : i = new_decompressor \/ (exists i', d_ok i' /\ i = decompressor_reset i') ->
    d_ok i /\ d_in i = [] /\ d_out i = [];
  compress_law d input room : c_ok d -> Forall is_u8 input -> 6 < room -> exists n o d',
    compress_vec d input room = Some (n, o, d') /\ c_ok d' /\ Forall is_u8 o /\
    (n <= length input)%nat /\ Z.of_nat (length o) <= room /\ c_in d' = c_in d ++ take n input /\ c_out d' = c_out d ++ o /\
    if bool_decide (n = length input) && (Z.of_nat (length o) <? room)
    then c_done d' = length (c_out d') /\ (exists k, c_out d' = k ++ SYNC_TAIL /\ (c_done d <= length k)%nat) /\
         is_stream (c_out d') /\ inflates (c_out d') = c_in d'
    else (n <> 0%nat \/ o <> []) /\ c_done d' = c_done d /\ (compress_calls d' (drop n input) < compress_calls d input)%nat;
  decompress_law i input room : d_ok i -> is_stream (d_in i ++ input) -> 0 < room -> exists n o i',
    decompress_vec i input room = Some (n, o, false, i') /\ d_ok i' /\
    (n <= length input)%nat /\ Z.of_nat (length o) <= room /\ d_in i' = d_in i ++ take n input /\ d_out i' = d_out i ++ o /\
    d_out i' `prefix_of` inflates (d_in i ++ input) /\
    if bool_decide (n = length input) && (Z.of_nat (length o) <? room) then d_out i' = inflates (d_in i')
    else (n <> 0%nat \/ o <> []) /\ (decompress_calls i' (drop n input) < decompress_calls i input)%nat;
}.
