(* ===== verification/DeflateLayer.v ===== *)
(** * The compression layer is transparent

    What one end's layer makes of the frames its WebSocket library writes,
    the other end's turns back into the same bytes, however either side's
    bytes are cut up; with the round trip of the frame headers, for any
    codec that keeps the laws of [FlateLaws]. *)

From Stdlib Require Import ZArith Lia Ascii String.
From stdpp Require Import base tactics strings numbers option list.
From S2P Require Import Prelude RustStd Str Wire Load Summaries Deflate.

Local Open Scope Z_scope.
Local Open Scope rust_scope.

(** ** Headers *)

Lemma be_bytes_S n v : be_bytes (S n) v = (Z.shiftr v (8 * Z.of_nat n) mod 256) :: be_bytes n v.
Proof. unfold be_bytes. by rewrite seq_S, rev_app_distr. Qed.
Lemma be_bytes_length n v : length (be_bytes n v) = n.
Proof. unfold be_bytes. by rewrite length_fmap, length_rev, length_seq. Qed.
Lemma be_bytes_range n v : Forall is_u8 (be_bytes n v).
Proof. unfold be_bytes. apply Forall_fmap, Forall_true. intros i. pose proof (Z.mod_pos_bound (Z.shiftr v (8 * Z.of_nat i)) 256). unfold compose. ulia. Qed.
Lemma be_value_acc n v acc : 0 <= v -> fold_left (fun n b => n * 256 + b) (be_bytes n v) acc = acc * 256 ^ Z.of_nat n + v mod 256 ^ Z.of_nat n.
Proof.
  intros Hv. revert acc. induction n as [|n IH]; intros acc; [cbn; rewrite Z.mod_1_r; lia|].
  rewrite be_bytes_S. cbn [fold_left]. rewrite IH, Z.shiftr_div_pow2 by lia.
  replace (2 ^ (8 * Z.of_nat n)) with (256 ^ Z.of_nat n) by (rewrite Z.pow_mul_r by lia; done).
  rewrite Nat2Z.inj_succ, Z.pow_succ_r by lia. set (p := 256 ^ Z.of_nat n).
  assert (0 < p) as Hp by (by apply Z.pow_pos_nonneg; lia).
  rewrite (Z.mul_comm 256 p), Z.rem_mul_r by lia. lia.
Qed.
Lemma be_value_bytes n v : 0 <= v < 256 ^ Z.of_nat n -> be_value (be_bytes n v) = v.
Proof. intros Hv. unfold be_value. rewrite be_value_acc by lia. rewrite Z.mod_small by lia. lia. Qed.

(** The bytes a header can begin with: the reserved bits and the opcode. *)
Definition reserved_bits : list Z := [0; 16; 32; 48].
Definition FrameHeader_ok (h : FrameHeader) : Prop :=
  fh_rsv23 h ∈ reserved_bits /\ 0 <= fh_opcode h <= 15 /\
  match fh_mask h with Some key => length key = 4%nat /\ Forall is_u8 key | None => True end.

Definition first_byte (fin rsv1 : bool) (rsv23 opcode : Z) : Z :=
  Z.lor (Z.lor (Z.lor (if fin then 0x80 else 0) (if rsv1 then 0x40 else 0)) rsv23) opcode.
Lemma first_byte_fields fin rsv1 rsv23 opcode : rsv23 ∈ reserved_bits -> 0 <= opcode <= 15 ->
  let b := first_byte fin rsv1 rsv23 opcode in
  is_u8 b /\ bool_decide (Z.land b 0x80 <> 0) = fin /\ bool_decide (Z.land b 0x40 <> 0) = rsv1 /\ Z.land b 0x30 = rsv23 /\ Z.land b 0x0f = opcode.
Proof.
  intros Hr Ho b.
  assert (forallb (fun rsv => forallb (fun op => let b := first_byte fin rsv1 rsv (Z.of_nat op) in
    (0 <=? b) && (b <? 256) && Bool.eqb (bool_decide (Z.land b 0x80 <> 0)) fin && Bool.eqb (bool_decide (Z.land b 0x40 <> 0)) rsv1 &&
    (Z.land b 0x30 =? rsv) && (Z.land b 0x0f =? Z.of_nat op)) (seq 0 16)) reserved_bits = true) as Hall
    by (destruct fin, rsv1; vm_compute; reflexivity).
  rewrite forallb_forall in Hall. specialize (Hall rsv23 ltac:(by apply list_elem_of_In)). rewrite forallb_forall in Hall.
  specialize (Hall (Z.to_nat opcode) ltac:(apply in_seq; lia)). cbv zeta in Hall. rewrite Z2Nat.id in Hall by lia. fold b in Hall.
  repeat (apply andb_true_iff in Hall as [Hall ?]). repeat match goal with H : Bool.eqb _ _ = true |- _ => apply Bool.eqb_prop in H end.
  split_and!; try done; try lia. ulia.
Qed.
Lemma second_byte_fields (m : bool) n : 0 <= n <= 127 ->
  let b := Z.lor (if m then 0x80 else 0) n in is_u8 b /\ Z.land b 0x7f = n /\ bool_decide (Z.land b 0x80 <> 0) = m.
Proof.
  intros Hn b.
  assert (forallb (fun k => let b := Z.lor (if m then 0x80 else 0) (Z.of_nat k) in
    (0 <=? b) && (b <? 256) && (Z.land b 0x7f =? Z.of_nat k) && Bool.eqb (bool_decide (Z.land b 0x80 <> 0)) m) (seq 0 128) = true) as Hall
    by (destruct m; vm_compute; reflexivity).
  rewrite forallb_forall in Hall. specialize (Hall (Z.to_nat n) ltac:(apply in_seq; lia)). cbv zeta in Hall. rewrite Z2Nat.id in Hall by lia.
  fold b in Hall. repeat (apply andb_true_iff in Hall as [Hall ?]). repeat match goal with H : Bool.eqb _ _ = true |- _ => apply Bool.eqb_prop in H end.
  split_and!; try done; try lia. ulia.
Qed.

Definition header_size (h : FrameHeader) (payload : Z) : Z :=
  (if payload <=? 125 then 2 else if payload <=? 0xffff then 4 else 10) + (if fh_mask h is Some _ then 4 else 0).

Lemma get_range_app a b c : get_range (a ++ b ++ c) (length a) (length b) = Some b.
Proof.
  unfold get_range. rewrite !length_app. destruct (Nat.leb_spec (length a + length b) (length a + (length b + length c))); [|lia].
  by rewrite drop_app_length, take_app_length.
Qed.
Lemma get_mask_after (pre key rest : list Z) (len : Z) : len = Z.of_nat (length pre) -> length key = 4%nat ->
  get_range (pre ++ key ++ rest) (Z.to_nat len) 4 = Some key.
Proof. intros -> Hk. rewrite Nat2Z.id, <- Hk. apply get_range_app. Qed.

(** A header that is written is read back, whatever follows it. *)
Lemma FrameHeader_write_parse h rsv1 payload rest : FrameHeader_ok h -> 0 <= payload <= u64_max ->
  FrameHeader_parse (FrameHeader_write h rsv1 payload ++ rest) =
    Some (mkFrameHeader (fh_fin h) rsv1 (fh_rsv23 h) (fh_opcode h) (fh_mask h) (header_size h payload) payload).
Proof.
  intros (Hr & Ho & Hm) Hp. unfold FrameHeader_write. fold (first_byte (fh_fin h) rsv1 (fh_rsv23 h) (fh_opcode h)).
  destruct (first_byte_fields (fh_fin h) rsv1 (fh_rsv23 h) (fh_opcode h) Hr Ho) as (_ & F1 & F2 & F3 & F4).
  set (b0 := first_byte _ _ _ _) in *.
  set (m := if fh_mask h is Some _ then true else false).
  assert ((if fh_mask h is Some _ then 0x80 else 0) = if m then 0x80 else 0) as -> by (unfold m; by destruct (fh_mask h)).
  assert (forall pre n len body, pre = b0 :: Z.lor (if m then 0x80 else 0) n :: body -> 0 <= n <= 127 ->
     payload_length (pre ++ default [] (fh_mask h) ++ rest) n = Some (payload, len) -> len = Z.of_nat (length pre) ->
     FrameHeader_parse (pre ++ default [] (fh_mask h) ++ rest) = Some (mkFrameHeader (fh_fin h) rsv1 (fh_rsv23 h) (fh_opcode h) (fh_mask h)
       (len + (if fh_mask h is Some _ then 4 else 0)) payload)) as Hpre.
  { intros pre n len body -> Hn Hlen Hl. destruct (second_byte_fields m n Hn) as (_ & S1 & S2).
    unfold FrameHeader_parse. cbn [app]. rewrite S1, S2. cbn [app] in Hlen. rewrite Hlen. cbn [mbind option_bind].
    rewrite F1, F2, F3, F4. unfold m in *. destruct (fh_mask h) as [key|]; cbn [default from_option id] in *; [|by rewrite Z.add_0_r].
    destruct Hm as [Hk _]. change (b0 :: ?x :: body ++ key ++ rest) with ((b0 :: x :: body) ++ key ++ rest).
    rewrite (get_mask_after _ key rest len Hl Hk). done. }
  unfold header_size. destruct (Z.leb_spec payload 125); [|destruct (Z.leb_spec payload 0xffff)].
  - cbn [app]. apply (Hpre [b0; _] payload 2 []); [done|lia| |done].
    unfold payload_length. destruct (Z.eqb_spec payload 126); [lia|]. destruct (Z.eqb_spec payload 127); [lia|]. done.
  - cbn [app]. rewrite <- app_assoc. apply (Hpre (b0 :: _ :: be_bytes 2 payload) 126 4 (be_bytes 2 payload)); [done|lia| |by cbn [length]; rewrite be_bytes_length].
    unfold payload_length. change (126 =? 126) with true. cbv iota. change (get_range _ 2 2) with (get_range ([b0; Z.lor (if m then 0x80 else 0) 126] ++ be_bytes 2 payload ++ default [] (fh_mask h) ++ rest) 2 2).
    pose proof (get_range_app [b0; Z.lor (if m then 0x80 else 0) 126] (be_bytes 2 payload) (default [] (fh_mask h) ++ rest)) as Hg.
    rewrite be_bytes_length in Hg. change (length [b0; _]) with 2%nat in Hg. rewrite Hg. cbn [mbind option_bind]. by rewrite be_value_bytes by (cbn; lia).
  - cbn [app]. rewrite <- app_assoc. apply (Hpre (b0 :: _ :: be_bytes 8 payload) 127 10 (be_bytes 8 payload)); [done|lia| |by cbn [length]; rewrite be_bytes_length].
    unfold payload_length. change (127 =? 126) with false. change (127 =? 127) with true. cbv iota. change (get_range _ 2 8) with (get_range ([b0; Z.lor (if m then 0x80 else 0) 127] ++ be_bytes 8 payload ++ default [] (fh_mask h) ++ rest) 2 8).
    pose proof (get_range_app [b0; Z.lor (if m then 0x80 else 0) 127] (be_bytes 8 payload) (default [] (fh_mask h) ++ rest)) as Hg.
    rewrite be_bytes_length in Hg. change (length [b0; _]) with 2%nat in Hg. rewrite Hg. cbn [mbind option_bind].
    rewrite be_value_bytes by (unfold u64_max in *; cbn; lia). by rewrite Z.min_l by lia.
Qed.

Lemma header_write_length h rsv1 payload : FrameHeader_ok h -> Z.of_nat (length (FrameHeader_write h rsv1 payload)) = header_size h payload.
Proof.
  intros (_ & _ & Hm). unfold FrameHeader_write, header_size. cbn [length]. rewrite length_app.
  assert (Z.of_nat (length (default [] (fh_mask h))) = if fh_mask h is Some _ then 4 else 0) as Hd by (destruct (fh_mask h); cbn; lia).
  destruct (payload <=? 125); [cbn [length]; lia|]. destruct (payload <=? 0xffff); cbn [length]; rewrite be_bytes_length; lia.
Qed.

Lemma get_range_mono (a b : list Z) from n r : get_range a from n = Some r -> get_range (a ++ b) from n = Some r.
Proof.
  unfold get_range. destruct (Nat.leb_spec (from + n) (length a)); [|done]. intros [= <-].
  destruct (Nat.leb_spec (from + n) (length (a ++ b))) as [|Hl]; [|rewrite length_app in Hl; lia].
  rewrite drop_app_le, take_app_le by (rewrite ?length_drop; lia). done.
Qed.
Lemma header_parse_mono a b h : FrameHeader_parse a = Some h -> FrameHeader_parse (a ++ b) = Some h.
Proof.
  destruct a as [|b0 [|b1 a]]; [done|done|]. unfold FrameHeader_parse. cbn [app].
  change (b0 :: b1 :: a ++ b) with ((b0 :: b1 :: a) ++ b). set (l := b0 :: b1 :: a).
  destruct (payload_length l (Z.land b1 127)) as [[payload len]|] eqn:Ep; [|done].
  assert (payload_length (l ++ b) (Z.land b1 127) = Some (payload, len)) as ->.
  { unfold payload_length in *. destruct (_ =? 126); [|destruct (_ =? 127); [|exact Ep]];
      (destruct (get_range l 2 _) as [r|] eqn:Eg; [|done]); by rewrite (get_range_mono _ _ _ _ _ Eg). }
  cbn [mbind option_bind]. destruct (bool_decide (Z.land b1 128 <> 0)); [|exact (fun E => E)].
  destruct (get_range l (Z.to_nat len) 4) as [key|] eqn:Ek; [|done]. by rewrite (get_range_mono _ _ _ _ _ Ek).
Qed.

(** ** Masks *)

Lemma apply_mask_length data key : length (apply_mask data key) = length data.
Proof. apply length_imap. Qed.
Lemma apply_mask_involutive data key : apply_mask (apply_mask data key) key = data.
Proof.
  apply list_eq. intros i. unfold apply_mask. rewrite !list_lookup_imap. destruct (data !! i) as [b|]; [|done]. cbn.
  by rewrite Z.lxor_assoc, Z.lxor_nilpotent, Z.lxor_0_r.
Qed.
Lemma masked_length key data : length (masked key data) = length data.
Proof. destruct key; [apply apply_mask_length|done]. Qed.
Lemma masked_involutive key data : masked key (masked key data) = data.
Proof. destruct key; [apply apply_mask_involutive|done]. Qed.

(** ** Frames *)

(** A frame as a WebSocket library writes it: its first byte's fields, its
    mask and its data. *)
Record WsFrame := mkWsFrame { wf_header : FrameHeader; wf_data : list Z }.
Definition frame_wire (f : WsFrame) : list Z :=
  FrameHeader_write (wf_header f) (fh_rsv1 (wf_header f)) (Z.of_nat (length (wf_data f))) ++ masked (fh_mask (wf_header f)) (wf_data f).
Definition frames_wire (fs : list WsFrame) : list Z := concat (frame_wire <$> fs).
(** The header it is read back with. *)
Definition read_header (f : WsFrame) : FrameHeader :=
  let h := wf_header f in
  mkFrameHeader (fh_fin h) (fh_rsv1 h) (fh_rsv23 h) (fh_opcode h) (fh_mask h)
    (header_size h (Z.of_nat (length (wf_data f)))) (Z.of_nat (length (wf_data f))).
Definition fits (f : WsFrame) : Prop := FrameHeader_ok (wf_header f) /\ Z.of_nat (length (wf_data f)) <= u64_max.

Lemma frame_wire_parse f rest : fits f -> FrameHeader_parse (frame_wire f ++ rest) = Some (read_header f).
Proof. intros [Hh Hl]. unfold frame_wire. rewrite <- app_assoc. apply FrameHeader_write_parse; [done|lia]. Qed.
Lemma frame_wire_length f : fits f -> Z.of_nat (length (frame_wire f)) = fh_len (read_header f) + fh_payload (read_header f).
Proof. intros [Hh Hl]. unfold frame_wire. rewrite length_app, masked_length, Nat2Z.inj_add, header_write_length by done. done. Qed.
Lemma frame_wire_nonempty f : frame_wire f <> [].
Proof. unfold frame_wire, FrameHeader_write. done. Qed.

Lemma split_frame_wire f rest : fits f ->
  split_frame (frame_wire f ++ rest) = Some (read_header f, masked (fh_mask (wf_header f)) (wf_data f), rest) /\
  frame_bytes (read_header f) (frame_wire f ++ rest) = frame_wire f.
Proof.
  intros Hf. pose proof (frame_wire_length f Hf) as Hl. unfold split_frame, frame_bytes. rewrite frame_wire_parse by done. cbn [mbind option_bind].
  rewrite length_app. destruct (Z.ltb_spec (Z.of_nat (length (frame_wire f) + length rest)) (fh_len (read_header f) + fh_payload (read_header f))); [lia|].
  rewrite <- Hl, Nat2Z.id, drop_app_length, take_app_length. split; [|done]. do 3 f_equal.
  destruct Hf as [Hh Hu]. unfold frame_wire at 1. rewrite <- app_assoc. cbn [read_header fh_len fh_payload].
  rewrite <- (header_write_length _ (fh_rsv1 (wf_header f)) _ Hh), !Nat2Z.id, drop_app_length.
  rewrite <- (masked_length (fh_mask (wf_header f)) (wf_data f)). by rewrite take_app_length.
Qed.
(** Until a frame is complete there is nothing to split off. *)
Lemma split_frame_short f part more : fits f -> frame_wire f = part ++ more -> more <> [] -> split_frame part = None.
Proof.
  intros Hf Hp Hm. unfold split_frame. destruct (FrameHeader_parse part) as [h|] eqn:E; [|done]. cbn [mbind option_bind].
  pose proof (frame_wire_parse f [] Hf) as Hw. rewrite app_nil_r, Hp, (header_parse_mono _ _ _ E) in Hw. injection Hw as ->.
  pose proof (frame_wire_length f Hf) as Hl. rewrite Hp, length_app in Hl. destruct more; [done|]. cbn [length] in Hl.
  destruct (Z.ltb_spec (Z.of_nat (length part)) (fh_len (read_header f) + fh_payload (read_header f))); [done|lia].
Qed.

(** What a buffer that holds the start of some frames begins with. *)
Lemma split_frames fs raw future : Forall fits fs -> raw ++ future = frames_wire fs ->
  (split_frame raw = None /\ (future = [] -> fs = [])) \/
  (exists f fs' rest, fs = f :: fs' /\ raw = frame_wire f ++ rest /\ rest ++ future = frames_wire fs').
Proof.
  intros Hfs Heq. destruct Hfs as [|f fs Hf Hfs].
  { left. apply app_eq_nil in Heq as [-> ->]. done. }
  unfold frames_wire in Heq. rewrite fmap_cons in Heq. cbn [concat] in Heq. apply app_eq_inv in Heq as [(k & Hk & Hr)|(k & Hk & Hr)].
  - right. exists f, fs, k. done.
  - destruct k as [|b k].
    + rewrite app_nil_r in Hk. right. exists f, fs, []. by rewrite <- Hk, app_nil_r, Hr.
    + left. split; [by eapply split_frame_short|]. intros ->. done.
Qed.

(** ** Messages through the codec *)

Section Codec.
Context `{FL : FlateLaws}.

(** A compressor between messages: its last flush is complete. *)
Definition flushed (d : Compressor) : Prop := c_ok d /\ c_done d = length (c_out d).

Lemma app_tail_split {A} (b o k t : list A) : b ++ o = k ++ t -> (length b <= length k)%nat -> exists k', k = b ++ k' /\ o = k' ++ t.
Proof.
  intros Heq Hl. apply app_eq_inv in Heq as [(x & -> & ->)|(x & -> & ->)]; [|by exists x].
  rewrite length_app in Hl. assert (x = []) as -> by (destruct x; [done|cbn in Hl; lia]). exists []. by rewrite !app_nil_r.
Qed.

Lemma deflate_loop_ok fuel d total input out capacity base :
  c_ok d -> Forall is_u8 input -> c_out d = base ++ out -> c_done d = length base -> Forall is_u8 out -> (compress_calls d input < fuel)%nat ->
  exists k d', deflate_loop fuel d total input out capacity = Ok (k ++ SYNC_TAIL, d') /\ flushed d' /\ Forall is_u8 k /\
    c_in d' = c_in d ++ input /\ c_out d' = base ++ k ++ SYNC_TAIL /\ is_stream (c_out d') /\ inflates (c_out d') = c_in d'.
Proof.
  revert d input out capacity. induction fuel as [|fuel IH]; intros d input out capacity Hok Hin Hout Hdone Hu Hcalls; [lia|].
  cbn [deflate_loop]. cbv zeta. set (cap := if capacity - _ <? 64 then _ else capacity).
  assert (64 <= cap - Z.of_nat (length out)) as Hcap.
  { unfold cap. destruct (Z.ltb_spec (capacity - Z.of_nat (length out)) 64); [|lia].
    pose proof (reserve_law capacity (Z.of_nat (length out)) (Z.max total 1024)). lia. }
  clearbody cap. destruct (compress_law d input (cap - Z.of_nat (length out)) Hok Hin ltac:(lia))
    as (n & o & d' & -> & Hok' & Ho & Hn & Hl & Hci & Hco & Hlaw).
  assert (bool_decide (drop n input = []) = bool_decide (n = length input)) as ->.
  { apply bool_decide_ext. split; intros Hd; [|subst n; by rewrite drop_all].
    apply (f_equal length) in Hd. rewrite length_drop in Hd. cbn in Hd. lia. }
  assert ((Z.of_nat (length (out ++ o)) <? cap) = (Z.of_nat (length o) <? cap - Z.of_nat (length out))) as ->.
  { rewrite length_app. apply eq_true_iff_eq. rewrite !Z.ltb_lt. lia. }
  destruct (bool_decide (n = length input) && (Z.of_nat (length o) <? cap - Z.of_nat (length out))) eqn:Ed.
  - destruct Hlaw as (Hd & (k & Hk & Hkl) & Hs & Hi). apply andb_true_iff in Ed as [->%bool_decide_eq_true _].
    rewrite firstn_all in Hci. rewrite Hco, Hout in Hk. rewrite <- app_assoc in Hk. rewrite Hdone in Hkl.
    destruct (app_tail_split _ _ _ _ Hk Hkl) as (k' & -> & Hko). cbn [orb]. rewrite Hko.
    assert (Forall is_u8 (k' ++ SYNC_TAIL)) as Huk by (rewrite <- Hko; by apply Forall_app). apply Forall_app in Huk as [Huk _].
    exists k', d'. split_and!; try done. by rewrite Hco, Hout, <- app_assoc, Hko.
  - destruct Hlaw as (Hp & Hd & Hcl).
    assert (negb (Nat.eqb n 0) || negb (bool_decide (o = [])) = true) as ->.
    { destruct Hp as [Hp|Hp]; [destruct (Nat.eqb_spec n 0); [done|done]|]. rewrite bool_decide_false by done. by rewrite orb_true_r. }
    cbn [orb negb]. destruct (IH d' (drop n input) (out ++ o) cap) as (k & d2 & Hrun & Hf & Huk & Hci2 & Hco2 & Hs & Hi).
    + done.
    + by apply Forall_drop.
    + by rewrite Hco, Hout, app_assoc.
    + by rewrite Hd.
    + by apply Forall_app.
    + lia.
    + exists k, d2. split_and!; try done. by rewrite Hci2, Hci, <- app_assoc, take_drop.
Qed.
Lemma drop_tail_app k : drop_tail (k ++ SYNC_TAIL) = k.
Proof.
  unfold drop_tail. rewrite length_app. replace (length k + length SYNC_TAIL - length SYNC_TAIL)%nat with (length k) by lia.
  rewrite drop_app_length, take_app_length. by rewrite decide_True by done.
Qed.
(** [deflate] of a message: without the tail, it continues the stream. *)
Lemma deflate_ok od input : flushed (default new_compressor od) -> Forall is_u8 input ->
  exists out d', deflate od input = Ok (out, d') /\ flushed d' /\ Forall is_u8 out /\
    c_in d' = c_in (default new_compressor od) ++ input /\ c_out d' = c_out (default new_compressor od) ++ out ++ SYNC_TAIL /\
    is_stream (c_out d') /\ inflates (c_out d') = c_in d'.
Proof.
  intros [Hok Hd] Hin. unfold deflate. set (d := default new_compressor od) in *. cbv zeta.
  destruct (deflate_loop_ok (S (compress_calls d input)) d (Z.of_nat (length input)) input [] (vec_with_capacity (Z.of_nat (length input) / 2 + 64)) (c_out d))
    as (k & d' & Hrun & Hf & Huk & Hci & Hco & Hs & Hi); [done|done|by rewrite app_nil_r|done|done|lia|].
  rewrite Hrun. cbn [result_bind fst snd]. rewrite drop_tail_app. by exists k, d'.
Qed.

Lemma inflate_loop_ok fuel i total input out capacity inflated before :
  d_ok i -> is_stream (d_in i ++ input) -> d_out i = before ++ out -> inflated = Z.of_nat (length out) ->
  Z.of_nat (length (inflates (d_in i ++ input))) <= Z.of_nat (length before) + MAX_MESSAGE -> (decompress_calls i input < fuel)%nat ->
  exists out' i', inflate_loop fuel i total input out capacity inflated = Ok (out', i', Z.of_nat (length out')) /\ d_ok i' /\
    d_in i' = d_in i ++ input /\ d_out i' = before ++ out' /\ before ++ out' = inflates (d_in i ++ input).
Proof.
  revert i input out capacity inflated. induction fuel as [|fuel IH]; intros i input out capacity inflated Hok Hs Hout -> Hmax Hcalls; [lia|].
  cbn [inflate_loop]. cbv zeta. set (cap := if capacity - _ <? 4096 then _ else capacity).
  assert (4096 <= cap - Z.of_nat (length out)) as Hcap.
  { unfold cap. destruct (Z.ltb_spec (capacity - Z.of_nat (length out)) 4096); [|lia].
    pose proof (reserve_law capacity (Z.of_nat (length out)) (Z.min (Z.max (total * 4) (Z.shiftl 16 10)) (Z.shiftl 1 20))).
    change (Z.shiftl 16 10) with 16384 in *. change (Z.shiftl 1 20) with 1048576 in *. lia. }
  clearbody cap. destruct (decompress_law i input (cap - Z.of_nat (length out)) Hok Hs ltac:(lia))
    as (n & o & i' & -> & Hok' & Hn & Hl & Hdi & Hdo & Hpre & Hlaw).
  rewrite Hdo, Hout, <- app_assoc in Hpre. pose proof (prefix_length _ _ Hpre) as Hlen. rewrite length_app in Hlen.
  rewrite <- Nat2Z.inj_add, <- length_app. destruct (Z.ltb_spec MAX_MESSAGE (Z.of_nat (length (out ++ o)))); [lia|].
  assert (bool_decide (drop n input = []) = bool_decide (n = length input)) as ->.
  { apply bool_decide_ext. split; intros Hd; [|subst n; by rewrite drop_all].
    apply (f_equal length) in Hd. rewrite length_drop in Hd. cbn in Hd. lia. }
  assert ((Z.of_nat (length (out ++ o)) <? cap) = (Z.of_nat (length o) <? cap - Z.of_nat (length out))) as ->.
  { rewrite length_app. apply eq_true_iff_eq. rewrite !Z.ltb_lt. lia. }
  cbn [orb]. destruct (bool_decide (n = length input) && (Z.of_nat (length o) <? cap - Z.of_nat (length out))) eqn:Ed.
  - apply andb_true_iff in Ed as [->%bool_decide_eq_true _]. rewrite firstn_all in Hdi. rewrite Hdi in Hlaw.
    exists (out ++ o), i'. split_and!; try done; [by rewrite Hdo, Hout, app_assoc|by rewrite <- Hlaw, Hdo, Hout, app_assoc].
  - destruct Hlaw as (Hp & Hcl).
    assert (negb (Nat.eqb n 0) || negb (bool_decide (o = [])) = true) as ->.
    { destruct Hp as [Hp|Hp]; [destruct (Nat.eqb_spec n 0); [done|done]|]. rewrite bool_decide_false by done. by rewrite orb_true_r. }
    cbn [orb negb]. assert (d_in i' ++ drop n input = d_in i ++ input) as Hall by (by rewrite Hdi, <- app_assoc, take_drop).
    destruct (IH i' (drop n input) (out ++ o) cap (Z.of_nat (length (out ++ o)))) as (out' & i2 & Hrun & Hok2 & Hdi2 & Hdo2 & Heq).
    + done.
    + by rewrite Hall.
    + by rewrite Hdo, Hout, app_assoc.
    + done.
    + by rewrite Hall.
    + lia.
    + rewrite Hall in *. exists out', i2. by split_and!.
Qed.
(** [inflate] of a whole message's payload. *)
Lemma inflate_ok i payload message : d_ok i -> is_stream (d_in i ++ payload ++ SYNC_TAIL) ->
  inflates (d_in i ++ payload ++ SYNC_TAIL) = d_out i ++ message -> Z.of_nat (length message) <= MAX_MESSAGE ->
  exists i', inflate i payload true 0 = Ok (message, i', Z.of_nat (length message)) /\ d_ok i' /\
    d_in i' = d_in i ++ payload ++ SYNC_TAIL /\ d_out i' = d_out i ++ message.
Proof.
  intros Hok Hs Hi Hmax. unfold inflate. cbv zeta.
  destruct (inflate_loop_ok (S (decompress_calls i (payload ++ SYNC_TAIL))) i (Z.of_nat (length (payload ++ SYNC_TAIL))) (payload ++ SYNC_TAIL) [] 0 0 (d_out i))
    as (out & i' & Hrun & Hok' & Hdi & Hdo & Heq); [done|done|by rewrite app_nil_r|done|rewrite Hi, length_app; lia|lia|].
  rewrite Hi in Heq. apply app_inv_head in Heq. subst out. exists i'. by rewrite Hrun.
Qed.
End Codec.

(** ** Frames through both layers *)

Definition is_message (f : WsFrame) : bool := (fh_opcode (wf_header f) =? 1) || (fh_opcode (wf_header f) =? 2).
(** What the WebSocket library writes: whole messages, and control frames. *)
Record library_frame (f : WsFrame) : Prop := mkLibraryFrame {
  lf_header : FrameHeader_ok (wf_header f);
  lf_data : Forall is_u8 (wf_data f);
  lf_size : Z.of_nat (length (wf_data f)) <= MAX_MESSAGE;
  lf_kind : is_message f = true /\ fh_fin (wf_header f) = true /\ fh_rsv1 (wf_header f) = false \/ 8 <= fh_opcode (wf_header f);
}.
(** The frame on the wire of a message deflated to [out]. *)
Definition deflated (f : WsFrame) (out : list Z) : WsFrame :=
  let h := wf_header f in
  mkWsFrame (mkFrameHeader (fh_fin h) true (fh_rsv23 h) (fh_opcode h) (fh_mask h) (fh_len h) (fh_payload h)) out.
Definition message_bytes (fs : list WsFrame) : list Z :=
  (fun f => Z.of_nat (length (wf_data f))) <$> List.filter is_message fs.

Section Carried.
Context `{FL : FlateLaws}.

(** [fs] on the wire are [ws]: the messages deflated, one stream after the
    other, from what the codec has taken in and put out before. *)
Inductive carried (compress reset : bool) : list Z * list Z -> list WsFrame -> list WsFrame -> list Z * list Z -> Prop :=
| carried_nil xy : carried compress reset xy [] [] xy
| carried_deflated x y f fs out ws xy :
    compress = true -> is_message f = true -> is_stream (y ++ out ++ SYNC_TAIL) -> inflates (y ++ out ++ SYNC_TAIL) = x ++ wf_data f ->
    carried compress reset (if reset then ([], []) else (x ++ wf_data f, y ++ out ++ SYNC_TAIL)) fs ws xy ->
    carried compress reset (x, y) (f :: fs) (deflated f out :: ws) xy
| carried_plain xy f fs ws xy' :
    compress && is_message f = false -> carried compress reset xy fs ws xy' ->
    carried compress reset xy (f :: fs) (f :: ws) xy'.

Lemma carried_app compress reset xy fs ws xy1 fs' ws' xy' :
  carried compress reset xy fs ws xy1 -> carried compress reset xy1 fs' ws' xy' ->
  carried compress reset xy (fs ++ fs') (ws ++ ws') xy'.
Proof. intros Hc Hc2. induction Hc; cbn [app]; [done|by constructor; auto|by constructor; auto]. Qed.

Lemma frames_wire_app fs fs' : frames_wire (fs ++ fs') = frames_wire fs ++ frames_wire fs'.
Proof. unfold frames_wire. by rewrite fmap_app, concat_app. Qed.
Lemma frames_wire_cons f fs : frames_wire (f :: fs) = frame_wire f ++ frames_wire fs.
Proof. done. Qed.
Lemma message_bytes_app fs fs' : message_bytes (fs ++ fs') = message_bytes fs ++ message_bytes fs'.
Proof. unfold message_bytes. by rewrite List.filter_app, fmap_app. Qed.
Lemma message_bytes_one f : message_bytes [f] = if is_message f then [Z.of_nat (length (wf_data f))] else [].
Proof. unfold message_bytes. cbn [List.filter]. by destruct (is_message f). Qed.
Lemma library_fits f : library_frame f -> fits f.
Proof. intros [Hh _ Hs _]. split; [done|]. unfold MAX_MESSAGE in Hs. change (Z.shiftl 64 20) with 67108864 in Hs. unfold u64_max. lia. Qed.
Lemma is_message_data f : library_frame f -> is_message f = (fh_opcode (wf_header f) <? 8).
Proof.
  intros [_ _ _ Hk]. unfold is_message in *. destruct Hk as [(Hm & _ & _)|Hk].
  - rewrite Hm. apply orb_true_iff in Hm. symmetry. apply Z.ltb_lt. lia.
  - apply eq_true_iff_eq. rewrite orb_true_iff, Z.ltb_lt. lia.
Qed.

(** *** Out *)

Definition out_stream (s : DeflateStream) : list Z * list Z :=
  let d := default new_compressor (ds_deflater s) in (c_in d, c_out d).
Definition count_all (k : Z) (ns : list Z) : Z := fold_left u64_add ns k.

(** What stays and what is counted when [sent] has gone out as [ws]. *)
Record sent_as (params : Params) (s : DeflateStream) (sent ws : list WsFrame) (s' : DeflateStream) : Prop := mkSentAs {
  sa_role : ds_role s' = ds_role s;
  sa_agreement : ds_agreement s' = ds_agreement s;
  sa_head : ds_write_head_done s' = ds_write_head_done s;
  sa_ready : ds_ready_out s' = ds_ready_out s ++ frames_wire ws;
  sa_flushed : flushed (default new_compressor (ds_deflater s'));
  sa_stream : carried (can_compress params (ds_role s)) (reset_deflater params (ds_role s)) (out_stream s) sent ws (out_stream s');
  sa_bytes : cc_bytes_sent (ds_counters s') = count_all (cc_bytes_sent (ds_counters s)) (message_bytes sent);
  sa_wire : cc_wire_bytes_sent (ds_counters s') = count_all (cc_wire_bytes_sent (ds_counters s)) (message_bytes ws);
}.

Lemma frame_out_ok params s f raw : library_frame f -> flushed (default new_compressor (ds_deflater s)) ->
  exists w s', frame_out params (read_header f) (masked (fh_mask (wf_header f)) (wf_data f)) (frame_wire f) s = Ok s' /\
    sent_as params s [f] [w] (s' <| ds_raw_out := raw |>) /\ ds_raw_out s' = ds_raw_out s.
Proof.
  intros Hlf Hfl. unfold frame_out. cbn [read_header fh_opcode fh_fin fh_rsv1 fh_mask fh_payload]. fold (is_message f).
  destruct (can_compress params (ds_role s) && is_message f) eqn:Ec.
  - apply andb_true_iff in Ec as [Ec Em]. destruct (lf_kind f Hlf) as [(_ & Hfin & Hrsv)|Hk].
    2: { rewrite (is_message_data f Hlf) in Em. lia. }
    rewrite Hfin, Hrsv. cbn [andb negb]. rewrite masked_involutive.
    destruct (deflate_ok (ds_deflater s) (wf_data f) Hfl (lf_data f Hlf)) as (out & d' & -> & Hf' & Hu & Hci & Hco & Hs & Hi).
    cbn [result_bind]. exists (deflated f out). eexists. split; [reflexivity|]. split; [|done].
    pose proof (message_bytes_one f) as Hm1. pose proof (message_bytes_one (deflated f out)) as Hm2.
    change (is_message (deflated f out)) with (is_message f) in Hm2. rewrite Em in Hm1, Hm2.
    split; cbn -[message_bytes]; rewrite ?Hm1, ?Hm2; try done.
    + unfold frames_wire. cbn. rewrite app_nil_r. done.
    + destruct (reset_deflater params (ds_role s)); [|done].
      destruct (compressor_begins (compressor_reset d')) as (Hb & _ & Hb2 & Hb3); [right; exists d'; split; [apply Hf'|done]|].
      split; [done|]. by rewrite Hb2, Hb3.
    + unfold out_stream at 1. eapply carried_deflated; [done|done|by rewrite <- Hco|by rewrite <- Hco, Hi, Hci|].
      unfold out_stream. cbn. destruct (reset_deflater params (ds_role s)); [|rewrite <- Hco, <- Hci; constructor].
      destruct (compressor_begins (compressor_reset d')) as (_ & -> & -> & _); [right; exists d'; split; [apply Hf'|done]|]. constructor.
  - cbn [andb]. exists f. eexists. split; [reflexivity|].
    split; [|by destruct (is_message f)].
    pose proof (message_bytes_one f) as Hb. split; destruct (is_message f) eqn:Em; cbn -[message_bytes]; try done;
      try (unfold frames_wire; cbn; by rewrite app_nil_r); try (apply carried_plain; [by rewrite Em|constructor]); by rewrite Hb.
Qed.

Lemma sent_as_trans params s sent ws s1 sent' ws' s2 :
  sent_as params s sent ws s1 -> sent_as params s1 sent' ws' s2 -> sent_as params s (sent ++ sent') (ws ++ ws') s2.
Proof.
  intros [R1 A1 W1 Y1 F1 S1 B1 K1] [R2 A2 W2 Y2 F2 S2 B2 K2]. split; try congruence.
  - by rewrite Y2, Y1, frames_wire_app, app_assoc.
  - eapply carried_app; [exact S1|]. by rewrite <- R1.
  - by rewrite B2, B1, message_bytes_app; unfold count_all; rewrite fold_left_app.
  - by rewrite K2, K1, message_bytes_app; unfold count_all; rewrite fold_left_app.
Qed.
Lemma sent_as_nil params s raw : flushed (default new_compressor (ds_deflater s)) ->
  sent_as params s [] [] (s <| ds_raw_out := raw |>).
Proof. intros Hf. split; cbn; try done; [by rewrite app_nil_r|constructor]. Qed.

(** The outbound loop takes every complete frame and leaves the start of the
    next one. *)
Lemma frames_out_ok fuel params s fs future :
  Forall library_frame fs -> ds_raw_out s ++ future = frames_wire fs -> (length (ds_raw_out s) < fuel)%nat ->
  flushed (default new_compressor (ds_deflater s)) ->
  exists sent rest ws s', frames_out fuel params s = Ok s' /\ fs = sent ++ rest /\ sent_as params s sent ws s' /\
    ds_raw_out s' ++ future = frames_wire rest /\ (future = [] -> rest = []).
Proof.
  revert s fs. induction fuel as [|fuel IH]; intros s fs Hfs Hraw Hfuel Hfl; [lia|]. cbn [frames_out].
  destruct (split_frames fs (ds_raw_out s) future) as [[-> Hend]|(f & fs' & rest & -> & Hr & Hrest)].
  - eapply Forall_impl; [exact Hfs|]. apply library_fits.
  - done.
  - exists [], fs, [], s. split_and!; try done.
    pose proof (sent_as_nil params s (ds_raw_out s) Hfl) as Hn. by destruct s.
  - apply Forall_cons in Hfs as [Hf Hfs]. rewrite Hr. destruct (split_frame_wire f rest (library_fits f Hf)) as [-> ->].
    destruct (frame_out_ok params s f rest Hf Hfl) as (w & s1 & -> & Hsent & Hraw1). cbn [result_bind].
    destruct (IH (s1 <| ds_raw_out := rest |>) fs') as (sent & rest' & ws & s' & Hrun & -> & Hsent' & Hraw' & Hend).
    + done.
    + done.
    + cbn. rewrite Hr, length_app in Hfuel. destruct (frame_wire f) eqn:Ew; [by apply frame_wire_nonempty in Ew|]. cbn in Hfuel. lia.
    + apply Hsent.
    + exists (f :: sent), rest', (w :: ws), s'. split_and!; try done. exact (sent_as_trans params s [f] [w] (s1 <| ds_raw_out := rest |>) sent ws s' Hsent Hsent').
Qed.

(** *** In *)

#[local] Arguments inflate : simpl never.
#[local] Arguments deflate : simpl never.
#[local] Arguments FrameHeader_write : simpl never.
#[local] Arguments masked : simpl never.

Definition in_stream (s : DeflateStream) : list Z * list Z := (d_out (ds_inflater s), d_in (ds_inflater s)).

(** What stays and is counted when [ws] has come in as [fs]. *)
Record received_as (s : DeflateStream) (fs ws : list WsFrame) (s' : DeflateStream) : Prop := mkReceivedAs {
  ra_role : ds_role s' = ds_role s;
  ra_agreement : ds_agreement s' = ds_agreement s;
  ra_head : ds_read_head_done s' = ds_read_head_done s;
  ra_ready : ds_ready_in s' = ds_ready_in s ++ frames_wire fs;
  ra_ok : d_ok (ds_inflater s');
  ra_bytes : cc_bytes_recv (ds_counters s') = count_all (cc_bytes_recv (ds_counters s)) (message_bytes fs);
  ra_wire : cc_wire_bytes_recv (ds_counters s') = count_all (cc_wire_bytes_recv (ds_counters s)) (message_bytes ws);
}.
Lemma received_as_trans s fs ws s1 fs' ws' s2 : received_as s fs ws s1 -> received_as s1 fs' ws' s2 -> received_as s (fs ++ fs') (ws ++ ws') s2.
Proof.
  intros [R1 A1 W1 Y1 F1 B1 K1] [R2 A2 W2 Y2 F2 B2 K2]. split; try congruence.
  - by rewrite Y2, Y1, frames_wire_app, app_assoc.
  - by rewrite B2, B1, message_bytes_app; unfold count_all; rewrite fold_left_app.
  - by rewrite K2, K1, message_bytes_app; unfold count_all; rewrite fold_left_app.
Qed.

Lemma frame_in_inflates params h payload whole s out i' n :
  (fh_opcode h <? 8) = true -> (fh_opcode h =? 0) = false -> fh_rsv1 h = true -> fh_fin h = true ->
  inflate (ds_inflater s) (masked (fh_mask h) payload) true 0 = Ok (out, i', n) ->
  exists s', frame_in params h payload whole s = Ok s' /\ ds_role s' = ds_role s /\ ds_agreement s' = ds_agreement s /\
    ds_read_head_done s' = ds_read_head_done s /\
    ds_ready_in s' = ds_ready_in s ++ FrameHeader_write h false (Z.of_nat (length out)) ++ masked (fh_mask h) out /\
    ds_inflater s' = (if reset_inflater params (ds_role s) then decompressor_reset i' else i') /\
    ds_counters s' = count_recv (fh_payload h) (Z.of_nat (length out)) (ds_counters s).
Proof.
  intros H1 H2 H3 H4 Hi. unfold frame_in. rewrite H1, H2, H3, H4. cbn. rewrite Hi. cbn.
  destruct (reset_inflater params (ds_role s)); eexists; (split; [reflexivity|]); by split_and!.
Qed.
Lemma frame_in_passes params h payload whole s :
  (fh_opcode h <? 8) = false \/ ((fh_opcode h =? 0) = false /\ fh_rsv1 h = false) ->
  exists s', frame_in params h payload whole s = Ok s' /\ ds_role s' = ds_role s /\ ds_agreement s' = ds_agreement s /\
    ds_read_head_done s' = ds_read_head_done s /\ ds_ready_in s' = ds_ready_in s ++ whole /\ ds_inflater s' = ds_inflater s /\
    ds_counters s' = (if fh_opcode h <? 8 then count_recv (fh_payload h) (fh_payload h) (ds_counters s) else ds_counters s).
Proof.
  intros Hc. unfold frame_in. destruct (fh_opcode h <? 8) eqn:E8; [|eexists; split; [reflexivity|by split_and!]].
  destruct Hc as [|[-> ->]]; [done|]. cbn. eexists. split; [reflexivity|]. by split_and!.
Qed.

(** The first frame of what is carried comes in as the one that was sent. *)
Lemma frame_in_ok params s f fs w ws reset compress xy raw :
  library_frame f -> fits w -> d_ok (ds_inflater s) -> reset = reset_inflater params (ds_role s) ->
  carried compress reset (in_stream s) (f :: fs) (w :: ws) xy ->
  exists s', frame_in params (read_header w) (masked (fh_mask (wf_header w)) (wf_data w)) (frame_wire w) s = Ok s' /\
    received_as s [f] [w] (s' <| ds_raw_in := raw |>) /\ carried compress reset (in_stream s') fs ws xy /\
    fh_payload (read_header w) = Z.of_nat (length (wf_data w)).
Proof.
  intros Hlf Hw Hok Hreset Hc.
  pose proof (message_bytes_one f) as Hm1. pose proof (message_bytes_one w) as Hm2. pose proof (is_message_data f Hlf) as Hmd.
  inversion Hc as [|x y ? ? out ? ? Hcomp Hm Hs Hi Hrest Hxy|? ? ? ? ? Hp Hrest]; subst.
  - destruct (lf_kind f Hlf) as [(_ & Hfin & Hrsv)|Hk]; [|unfold is_message in Hm; lia].
    assert ((fh_opcode (wf_header f) =? 0) = false) as Hop by (unfold is_message in Hm; lia).
    change (is_message (deflated f out)) with (is_message f) in Hm2. rewrite Hm in Hm1, Hm2. symmetry in Hmd. rewrite Hm in Hmd.
    destruct (inflate_ok (ds_inflater s) out (wf_data f) Hok Hs Hi (lf_size f Hlf)) as (i' & Hrun & Hok' & Hdi & Hdo).
    destruct (frame_in_inflates params (read_header (deflated f out))
      (masked (fh_mask (wf_header (deflated f out))) (wf_data (deflated f out))) (frame_wire (deflated f out)) s
      (wf_data f) i' (Z.of_nat (length (wf_data f)))) as (s' & -> & Hro & Hag & Hh & Hr & Hif & Hk); try done.
    { cbn [read_header deflated wf_header wf_data fh_mask]. by rewrite masked_involutive. }
    assert (frame_wire f = FrameHeader_write (read_header (deflated f out)) false (Z.of_nat (length (wf_data f))) ++ masked (fh_mask (wf_header f)) (wf_data f)) as Hfw.
    { unfold frame_wire. by rewrite Hrsv. }
    exists s'. split; [done|]. split_and!; [|unfold in_stream; rewrite Hif|done].
    + split; cbn -[message_bytes frames_wire]; rewrite ?Hro, ?Hag, ?Hh, ?Hr, ?Hif, ?Hk, ?Hm1, ?Hm2; try done.
      * unfold frames_wire. cbn -[frame_wire]. by rewrite app_nil_r, Hfw.
      * destruct (reset_inflater params (ds_role s)); [|done]. apply decompressor_begins. right. by exists i'.
    + destruct (reset_inflater params (ds_role s)); [|by rewrite Hdi, Hdo].
      destruct (decompressor_begins (decompressor_reset i')) as (Hb & -> & ->); [right; by exists i'|]. done.
  - destruct (frame_in_passes params (read_header w) (masked (fh_mask (wf_header w)) (wf_data w)) (frame_wire w) s)
      as (s' & -> & Hro & Hag & Hh & Hr & Hif & Hk).
    { cbn [read_header fh_opcode fh_rsv1]. rewrite <- Hmd. destruct (lf_kind w Hlf) as [(Hm & Hfin & Hrsv)|Hk].
      - right. split; [unfold is_message in Hm; lia|done].
      - left. rewrite Hmd. lia. }
    cbn [read_header fh_opcode fh_payload] in Hk. rewrite <- Hmd in Hk.
    exists s'. split; [done|]. split_and!; [|unfold in_stream; by rewrite Hif|done].
    split; cbn -[message_bytes frames_wire]; rewrite ?Hro, ?Hag, ?Hh, ?Hr, ?Hif, ?Hk, ?Hm1; try done.
    + unfold frames_wire. cbn -[frame_wire]. by rewrite app_nil_r.
    + by destruct (is_message w).
    + by destruct (is_message w).
Qed.

Lemma carried_length compress reset xy fs ws xy' : carried compress reset xy fs ws xy' -> length fs = length ws.
Proof. induction 1; cbn; auto. Qed.
Lemma received_as_nil s raw : d_ok (ds_inflater s) -> received_as s [] [] (s <| ds_raw_in := raw |>).
Proof. intros Hf. split; cbn; try done. by rewrite app_nil_r. Qed.
(** A frame as it is on the wire, not too large to be read. *)
Definition wire_frame (w : WsFrame) : Prop := FrameHeader_ok (wf_header w) /\ Z.of_nat (length (wf_data w)) <= MAX_FRAME.
Lemma wire_fits w : wire_frame w -> fits w.
Proof. intros [Hh Hl]. split; [done|]. unfold MAX_FRAME in Hl. change (Z.shiftl 64 20) with 67108864 in Hl. unfold u64_max. lia. Qed.

(** The inbound loop takes every complete frame and leaves the start of the
    next one. *)
Lemma frames_in_ok fuel params s fs ws compress reset xy future :
  Forall library_frame fs -> Forall wire_frame ws -> ds_raw_in s ++ future = frames_wire ws -> (length (ds_raw_in s) < fuel)%nat ->
  d_ok (ds_inflater s) -> reset = reset_inflater params (ds_role s) -> carried compress reset (in_stream s) fs ws xy ->
  exists came wcame fs' ws' s', frames_in fuel params s = Ok s' /\ fs = came ++ fs' /\ ws = wcame ++ ws' /\ received_as s came wcame s' /\
    ds_raw_in s' ++ future = frames_wire ws' /\ carried compress reset (in_stream s') fs' ws' xy /\ (future = [] -> ws' = []).
Proof.
  revert s fs ws. induction fuel as [|fuel IH]; intros s fs ws Hfs Hws Hraw Hfuel Hok Hreset Hc; [lia|]. cbn [frames_in].
  destruct (split_frames ws (ds_raw_in s) future) as [[Hnone Hend]|(w & ws' & rest & -> & Hr & Hrest)].
  - eapply Forall_impl; [exact Hws|]. apply wire_fits.
  - done.
  - assert (exists came wcame fs' ws' s', @Ok DeflateStream LayerError s = Ok s' /\ fs = came ++ fs' /\ ws = wcame ++ ws' /\ received_as s came wcame s' /\
      ds_raw_in s' ++ future = frames_wire ws' /\ carried compress reset (in_stream s') fs' ws' xy /\ (future = [] -> ws' = [])) as Hstop.
    { exists [], [], fs, ws, s. split_and!; try done. pose proof (received_as_nil s (ds_raw_in s) Hok) as Hn. by destruct s. }
    destruct (FrameHeader_parse (ds_raw_in s)) as [h|] eqn:Eh; [|exact Hstop].
    destruct (Z.ltb_spec MAX_FRAME (fh_payload h)) as [Hbig|Hbig]; [exfalso|by rewrite Hnone].
    destruct ws as [|w ws]; [by apply app_eq_nil in Hraw as [Hraw _]; rewrite Hraw in Eh|].
    apply Forall_cons in Hws as [Hw _]. apply header_parse_mono with (b := future) in Eh. rewrite Hraw, frames_wire_cons in Eh.
    rewrite (frame_wire_parse w _ (wire_fits w Hw)) in Eh. injection Eh as <-. destruct Hw as [_ Hw]. cbn in Hbig. lia.
  - apply Forall_cons in Hws as [Hw Hws]. destruct fs as [|f fs]; [by apply carried_length in Hc|]. apply Forall_cons in Hfs as [Hf Hfs].
    rewrite Hr, (frame_wire_parse w rest (wire_fits w Hw)). destruct (split_frame_wire w rest (wire_fits w Hw)) as [-> ->].
    destruct (frame_in_ok params s f fs w ws' reset compress xy rest Hf (wire_fits w Hw) Hok Hreset Hc) as (s1 & -> & Hrec & Hc1 & Hpl).
    rewrite Hpl. destruct (Z.ltb_spec MAX_FRAME (Z.of_nat (length (wf_data w)))); [destruct Hw; lia|]. cbn [result_bind].
    destruct (IH (s1 <| ds_raw_in := rest |>) fs ws') as (came & wcame & fs2 & ws2 & s' & Hrun & -> & -> & Hrec' & Hraw' & Hc' & Hend); try done.
    + cbn. rewrite Hr, length_app in Hfuel. destruct (frame_wire w) eqn:Ew; [by apply frame_wire_nonempty in Ew|]. cbn in Hfuel. lia.
    + apply Hrec.
    + rewrite Hreset. f_equal. symmetry. apply Hrec.
    + exists (f :: came), (w :: wcame), fs2, ws2, s'. split_and!; try done.
      exact (received_as_trans s [f] [w] (s1 <| ds_raw_in := rest |>) came wcame s' Hrec Hrec').
Qed.

(** *** The stream's methods *)

(** A layer whose handshake has passed with [params] agreed. *)
Definition writes_with (params : Params) (s : DeflateStream) : Prop :=
  ds_write_head_done s = true /\ ds_agreement s = Some (Some params) /\ flushed (default new_compressor (ds_deflater s)).
Definition reads_with (params : Params) (s : DeflateStream) : Prop :=
  ds_read_head_done s = true /\ ds_agreement s = Some (Some params) /\ d_ok (ds_inflater s).

(** A connection that has not failed. *)
Definition alive (accepts : list (Poll nat)) : Prop := Forall (fun a => a <> PollFailed /\ a <> PollReady O) accepts.

Lemma poll_drain_ok accepts s : alive accepts -> exists p wire rest left,
  poll_drain accepts s = (p, s <| ds_ready_out := rest |>, wire, left) /\ ds_ready_out s = wire ++ rest /\ p <> PollFailed /\ alive left.
Proof.
  intros Ha. revert s. induction Ha as [|a accepts [Hf H0] Ha IH]; intros s; cbn [poll_drain].
  - destruct (ds_ready_out s) as [|b l] eqn:E; do 4 eexists; (split; [by destruct s; cbn in *; rewrite E|]); split_and!; try done; constructor.
  - destruct (ds_ready_out s) as [|b l] eqn:E.
    { do 4 eexists. split; [by destruct s; cbn in *; rewrite E|]. split_and!; try done. by constructor. }
    assert (s = s <| ds_ready_out := b :: l |>) as Hs by (destruct s; cbn in *; by rewrite E).
    destruct a as [[|n]| |]; try done.
    + destruct (IH (s <| ds_ready_out ::= drop (S n) |>)) as (p & wire & rest & left & -> & Heq & Hp & Hl).
      exists p, (take (S n) (b :: l) ++ wire), rest, left. split_and!; try done.
      rewrite <- app_assoc, <- Heq. cbn -[take drop]. by rewrite E, take_drop.
    + do 4 eexists. split; [by rewrite Hs at 1|]. by split_and!.
Qed.

(** The WebSocket library's writes: it offers so many bytes of what it has
    to write at a time, and offers again what was not taken. *)
Fixpoint write_all (offers : list (nat * list (Poll nat))) (input : list Z) (s : DeflateStream) : option (list Z * list Z * DeflateStream) :=
  match offers with
  | [] => Some (input, [], s)
  | (n, accepts) :: offers =>
      match poll_write (take n input) accepts s with
      | (PollReady n, Ok s, wire) => '(input, more, s) ← write_all offers (drop n input) s; Some (input, wire ++ more, s)
      | (PollPending, Ok s, wire) => '(input, more, s) ← write_all offers input s; Some (input, wire ++ more, s)
      | _ => None
      end
  end.

Lemma sent_as_drained params s sent ws s' rest wire : sent_as params s sent ws s' -> ds_ready_out s' = wire ++ rest ->
  wire ++ rest = ds_ready_out s ++ frames_wire ws.
Proof. intros [_ _ _ Hy _ _ _ _] Hw. by rewrite <- Hw, Hy. Qed.

(** What a series of writes has sent, with the bytes that have left. *)
Record sent_and_left (params : Params) (s : DeflateStream) (sent ws : list WsFrame) (left : list Z) (s' : DeflateStream) : Prop := mkSentAndLeft {
  sl_sent : sent_as params s sent ws (s' <| ds_ready_out := ds_ready_out s ++ frames_wire ws |>);
  sl_left : left ++ ds_ready_out s' = ds_ready_out s ++ frames_wire ws;
}.
Lemma sent_and_left_trans params s sent ws left s1 sent' ws' left' s2 :
  sent_and_left params s sent ws left s1 -> sent_and_left params s1 sent' ws' left' s2 ->
  sent_and_left params s (sent ++ sent') (ws ++ ws') (left ++ left') s2.
Proof.
  intros [S1 L1] [S2 L2]. split.
  - destruct S1 as [R1 A1 W1 Y1 F1 C1 B1 K1], S2 as [R2 A2 W2 Y2 F2 C2 B2 K2]. cbn in *. split; cbn; try congruence.
    + eapply carried_app; [exact C1|]. unfold out_stream in *. cbn in *. by rewrite <- R1.
    + by rewrite B2, B1, message_bytes_app; unfold count_all; rewrite fold_left_app.
    + by rewrite K2, K1, message_bytes_app; unfold count_all; rewrite fold_left_app.
  - by rewrite <- app_assoc, L2, app_assoc, L1, frames_wire_app, app_assoc.
Qed.

Lemma process_out_runs params s : ds_write_head_done s = true -> ds_agreement s = Some (Some params) ->
  process_out s = frames_out (S (length (ds_raw_out s))) params s.
Proof. intros Hh Ha. unfold process_out. rewrite Hh. cbn [result_bind negb]. by rewrite Ha. Qed.
Lemma process_in_runs params s : ds_read_head_done s = true -> ds_agreement s = Some (Some params) ->
  process_in s = frames_in (S (length (ds_raw_in s))) params s.
Proof. intros Hh Ha. unfold process_in. rewrite Hh. cbn [result_bind negb]. by rewrite Ha. Qed.

Lemma poll_write_ok params s buf accepts fs future :
  alive accepts -> writes_with params s -> Forall library_frame fs -> ds_raw_out s ++ buf ++ future = frames_wire fs ->
  exists p s' wire sent rest ws, poll_write buf accepts s = (p, Ok s', wire) /\ writes_with params s' /\ fs = sent ++ rest /\
    sent_and_left params s sent ws wire s' /\
    ((p = PollPending /\ ds_raw_out s' = ds_raw_out s /\ sent = []) \/
     (p = PollReady (length buf) /\ ds_raw_out s' ++ future = frames_wire rest /\ (future = [] -> rest = []))).
Proof.
  intros Ha (Hh & Hag & Hfl) Hfs Hraw. unfold poll_write.
  destruct (if HIGH_WATER <? Z.of_nat (length (ds_ready_out s)) then poll_drain accepts s else (PollReady tt, s, [], accepts))
    as [[[p s1] wire1] left] eqn:E.
  assert (exists rest1, s1 = s <| ds_ready_out := rest1 |> /\ ds_ready_out s = wire1 ++ rest1 /\ p <> PollFailed /\ alive left) as (rest1 & -> & Hw1 & Hp & Hl).
  { destruct (HIGH_WATER <? _).
    - destruct (poll_drain_ok accepts s Ha) as (p' & w' & r' & l' & Hd & Hw & Hp & Hl). rewrite Hd in E. injection E as <- <- <- <-. by exists r'.
    - injection E as <- <- <- <-. exists (ds_ready_out s). split_and!; try done. by destruct s. }
  destruct p as [u| |]; [|exists PollPending, (s <| ds_ready_out := rest1 |>), wire1, [], fs, []|done].
  2: { split_and!; try done; [|by left]. split; [|by rewrite app_nil_r].
       pose proof (sent_as_nil params s (ds_raw_out s) Hfl) as [R A W Y Fl C B K]. split; try done. }
  change (declined (s <| ds_ready_out := rest1 |>)) with (declined s). replace (declined s) with false by (unfold declined; by rewrite Hag).
  cbn [andb]. set (s2 := s <| ds_ready_out := rest1 |> <| ds_raw_out ::= fun l => l ++ buf |>).
  rewrite (process_out_runs params s2 Hh Hag).
  destruct (frames_out_ok (S (length (ds_raw_out s2))) params s2 fs future) as (sent & rest & ws & s' & Hrun & Hfs' & Hsent & Hraw' & Hend);
    [done|by rewrite <- Hraw, app_assoc|lia|done|].
  rewrite Hrun.
  destruct (poll_drain_ok left s' Hl) as (p' & wire2 & rest2 & left2 & -> & Hw2 & Hp' & _).
  exists (PollReady (length buf)), (s' <| ds_ready_out := rest2 |>), (wire1 ++ wire2), sent, rest, ws.
  pose proof Hsent as [R A W Y Fl C B K]. cbn in *.
  split_and!; [by destruct p'|split_and!; cbn; congruence| | |].
  all: try done. 2: right; by split_and!.
  split; cbn; [|by rewrite <- app_assoc, <- Hw2, Y, Hw1, <- app_assoc]. by split.
Qed.

Lemma write_all_ok params offers input s fs :
  Forall (fun o => alive o.2) offers -> writes_with params s -> Forall library_frame fs -> ds_raw_out s ++ input = frames_wire fs ->
  (input = [] -> ds_raw_out s = []) ->
  exists rest_input wire s' sent rest ws, write_all offers input s = Some (rest_input, wire, s') /\ writes_with params s' /\
    fs = sent ++ rest /\ sent_and_left params s sent ws wire s' /\ (rest_input = [] -> rest = []).
Proof.
  intros Ho. revert input s fs. induction Ho as [|[n accepts] offers Ha Ho IH]; intros input s fs Hw Hfs Hraw Hempty; cbn [write_all].
  - exists input, [], s, [], fs, []. split_and!; try done.
    + split; [|by rewrite app_nil_r]. pose proof Hw as (_ & _ & Hfl).
      pose proof (sent_as_nil params s (ds_raw_out s) Hfl) as [R A W Y Fl C B K]. split; try done.
    + intros ->. rewrite Hempty in Hraw by done. destruct fs as [|f fs]; [done|]. exfalso. rewrite frames_wire_cons in Hraw.
      symmetry in Hraw. apply app_eq_nil in Hraw as [Hf _]. by apply frame_wire_nonempty in Hf.
  - rewrite <- (take_drop n input) in Hraw.
    destruct (poll_write_ok params s (take n input) accepts fs (drop n input) Ha Hw Hfs Hraw)
      as (p & s1 & wire & sent & rest & ws & -> & Hw1 & -> & Hs1 & [(-> & Hr1 & ->)|(-> & Hr1 & Hend)]).
    + cbn [app] in Hs1. destruct (IH input s1 rest) as (ri & wire' & s' & sent' & rest' & ws' & -> & Hw' & -> & Hs' & Hend').
      * done.
      * by apply Forall_app in Hfs as [_ Hfs].
      * rewrite take_drop in Hraw. rewrite Hr1. exact Hraw.
      * by rewrite Hr1.
      * cbn. exists ri, (wire ++ wire'), s', sent', rest', (ws ++ ws'). split_and!; try done.
        exact (sent_and_left_trans params s [] ws wire s1 sent' ws' wire' s' Hs1 Hs').
    + assert (drop (length (take n input)) input = drop n input) as ->.
      { rewrite length_take. destruct (Nat.le_gt_cases n (length input)) as [Hn|Hn].
        - by rewrite Nat.min_l by done.
        - rewrite Nat.min_r by lia. rewrite drop_all, drop_ge by lia. done. }
      destruct (IH (drop n input) s1 rest) as (ri & wire' & s' & sent' & rest' & ws' & -> & Hw' & -> & Hs' & Hend').
      * done.
      * by apply Forall_app in Hfs as [_ Hfs].
      * done.
      * intros Hd. rewrite Hd in Hr1. specialize (Hend Hd). subst rest. by apply app_eq_nil in Hr1 as [Hr1 _].
      * cbn. exists ri, (wire ++ wire'), s', (sent ++ sent'), rest', (ws ++ ws'). split_and!; [done|done|by rewrite app_assoc| |done].
        exact (sent_and_left_trans params s sent ws wire s1 sent' ws' wire' s' Hs1 Hs').
Qed.

(** The WebSocket library's reads, of so many bytes at a time. *)
Fixpoint read_all (wants : list nat) (reads : list (Poll (list Z))) (s : DeflateStream) : option (list Z * list (Poll (list Z)) * DeflateStream) :=
  match wants with
  | [] => Some ([], reads, s)
  | n :: wants =>
      match poll_read n reads s with
      | (PollReady bytes, Ok s, reads) => '(more, reads, s) ← read_all wants reads s; Some (bytes ++ more, reads, s)
      | (PollPending, Ok s, reads) => read_all wants reads s
      | _ => None
      end
  end.
(** What a connection that has not failed or ended brings. *)
Definition arriving (reads : list (Poll (list Z))) : list Z :=
  concat ((fun r => match r with PollReady chunk => chunk | _ => [] end) <$> reads).
Definition open_reads (reads : list (Poll (list Z))) : Prop := Forall (fun r => r <> PollFailed /\ r <> PollReady []) reads.

(** The frames [ws], carrying [fs], have yet to come in, the bytes [future] of
    them to arrive. *)
Record receiving (params : Params) (s : DeflateStream) (compress reset : bool) (fs ws : list WsFrame) (xy : list Z * list Z) (future : list Z) : Prop := mkReceiving {
  rc_reads : reads_with params s;
  rc_reset : reset = reset_inflater params (ds_role s);
  rc_frames : Forall library_frame fs /\ Forall wire_frame ws;
  rc_raw : ds_raw_in s ++ future = frames_wire ws;
  rc_carried : carried compress reset (in_stream s) fs ws xy;
}.

Lemma process_in_ok params s compress reset fs ws xy future : receiving params s compress reset fs ws xy future ->
  exists came wcame fs' ws' s', process_in s = Ok s' /\ fs = came ++ fs' /\ ws = wcame ++ ws' /\ received_as s came wcame s' /\
    receiving params s' compress reset fs' ws' xy future /\ (future = [] -> ws' = []).
Proof.
  intros [(Hh & Ha & Hok) Hreset [Hfs Hws] Hraw Hc]. rewrite (process_in_runs params s Hh Ha).
  destruct (frames_in_ok (S (length (ds_raw_in s))) params s fs ws compress reset xy future Hfs Hws Hraw ltac:(lia) Hok Hreset Hc)
    as (came & wcame & fs' & ws' & s' & Hrun & -> & -> & Hrec & Hraw' & Hc' & Hend).
  exists came, wcame, fs', ws', s'. apply Forall_app in Hfs as [_ Hfs], Hws as [_ Hws]. pose proof Hrec as [R A Hd _ Hok' _ _].
  split_and!; try done. split; try done; [split_and!; [by rewrite Hd|by rewrite A|done]|by rewrite R].
Qed.

(** What a series of reads has received, with the bytes handed on. *)
Record received_and_read (s : DeflateStream) (fs ws : list WsFrame) (bytes : list Z) (s' : DeflateStream) : Prop := mkReceivedAndRead {
  rr_received : received_as s fs ws (s' <| ds_ready_in := ds_ready_in s ++ frames_wire fs |>);
  rr_read : bytes ++ ds_ready_in s' = ds_ready_in s ++ frames_wire fs;
}.
Lemma received_and_read_trans s fs ws bytes s1 fs' ws' bytes' s2 :
  received_and_read s fs ws bytes s1 -> received_and_read s1 fs' ws' bytes' s2 ->
  received_and_read s (fs ++ fs') (ws ++ ws') (bytes ++ bytes') s2.
Proof.
  intros [S1 L1] [S2 L2]. split.
  - destruct S1 as [R1 A1 W1 Y1 F1 B1 K1], S2 as [R2 A2 W2 Y2 F2 B2 K2]. cbn in *. split; cbn; try congruence.
    + by rewrite B2, B1, message_bytes_app; unfold count_all; rewrite fold_left_app.
    + by rewrite K2, K1, message_bytes_app; unfold count_all; rewrite fold_left_app.
  - by rewrite <- app_assoc, L2, app_assoc, L1, frames_wire_app, app_assoc.
Qed.
Lemma received_unread s fs ws s' : received_as s fs ws s' -> received_and_read s fs ws [] s'.
Proof. intros Hr. pose proof Hr as [R A W Y O B K]. split; [|exact Y]. by split. Qed.
Lemma received_none s : d_ok (ds_inflater s) -> received_and_read s [] [] [] s.
Proof. intros Hok. apply received_unread. split; cbn; try done. by rewrite app_nil_r. Qed.
Lemma read_some s n : d_ok (ds_inflater s) -> received_and_read s [] [] (take n (ds_ready_in s)) (s <| ds_ready_in ::= drop n |>).
Proof. intros Hok. split; [split; cbn; try done|]; cbn; rewrite ?app_nil_r, ?take_drop; done. Qed.

Lemma receiving_change params s compress reset fs ws xy future future' s' :
  receiving params s compress reset fs ws xy future -> ds_role s' = ds_role s -> ds_agreement s' = ds_agreement s ->
  ds_read_head_done s' = ds_read_head_done s -> ds_inflater s' = ds_inflater s -> ds_raw_in s' ++ future' = ds_raw_in s ++ future ->
  receiving params s' compress reset fs ws xy future'.
Proof.
  intros [(Hh & Ha & Hok) Hreset Hf Hraw Hc] R A W I Hr. split; try done.
  - unfold reads_with. by rewrite W, A, I.
  - by rewrite R.
  - by rewrite Hr.
  - unfold in_stream in *. by rewrite I.
Qed.

Definition read_bytes (p : Poll (list Z)) : list Z := match p with PollReady bytes => bytes | _ => [] end.
Record read_ok (params : Params) (s : DeflateStream) (compress reset : bool) (fs ws : list WsFrame) (xy : list Z * list Z) (later : list Z)
    (bytes : list Z) (s' : DeflateStream) (left : list (Poll (list Z))) : Prop := mkReadOk {
  ro_progress : exists came wcame fs' ws', fs = came ++ fs' /\ ws = wcame ++ ws' /\ received_and_read s came wcame bytes s' /\
    receiving params s' compress reset fs' ws' xy (arriving left ++ later) /\ (arriving left ++ later = [] -> ws' = []);
  ro_open : open_reads left;
}.
Lemma read_ok_after params s compress reset fs ws xy later came wcame bytes0 s1 fs' ws' bytes s' left :
  fs = came ++ fs' -> ws = wcame ++ ws' -> received_and_read s came wcame bytes0 s1 ->
  read_ok params s1 compress reset fs' ws' xy later bytes s' left -> read_ok params s compress reset fs ws xy later (bytes0 ++ bytes) s' left.
Proof.
  intros -> -> Hr [(came' & wcame' & fs2 & ws2 & -> & -> & Hr' & Hrc & Hend) Ho]. split; [|done].
  exists (came ++ came'), (wcame ++ wcame'), fs2, ws2. rewrite !app_assoc. split_and!; try done. by eapply received_and_read_trans.
Qed.
Lemma read_ok_deliver params s compress reset fs ws xy later want reads :
  receiving params s compress reset fs ws xy (arriving reads ++ later) -> (arriving reads ++ later = [] -> ws = []) -> open_reads reads ->
  read_ok params s compress reset fs ws xy later (take want (ds_ready_in s)) (s <| ds_ready_in ::= drop want |>) reads.
Proof.
  intros Hrc Hend Ho. split; [|done]. exists [], [], fs, ws. pose proof (proj2 (proj2 (rc_reads _ _ _ _ _ _ _ _ Hrc))).
  split_and!; try done; [by apply read_some|by eapply receiving_change].
Qed.
Lemma read_ok_stop params s compress reset fs ws xy later reads :
  receiving params s compress reset fs ws xy (arriving reads ++ later) -> (arriving reads ++ later = [] -> ws = []) -> open_reads reads ->
  read_ok params s compress reset fs ws xy later [] s reads.
Proof.
  intros Hrc Hend Ho. split; [|done]. exists [], [], fs, ws. pose proof (proj2 (proj2 (rc_reads _ _ _ _ _ _ _ _ Hrc))).
  split_and!; try done. by apply received_none.
Qed.

(** Frames that waited go first. *)
Lemma retry_ok params s compress reset fs ws xy future :
  receiving params s compress reset fs ws xy future -> (future = [] -> ws = []) ->
  exists came wcame fs' ws' s1, (if bool_decide (ds_raw_in s = []) then Ok s else process_in s) = Ok s1 /\ fs = came ++ fs' /\
    ws = wcame ++ ws' /\ received_and_read s came wcame [] s1 /\ receiving params s1 compress reset fs' ws' xy future /\ (future = [] -> ws' = []).
Proof.
  intros Hrc Hend. destruct (bool_decide (ds_raw_in s = [])).
  - exists [], [], fs, ws, s. split_and!; try done. apply received_none. apply (rc_reads _ _ _ _ _ _ _ _ Hrc).
  - destruct (process_in_ok params s compress reset fs ws xy future Hrc) as (came & wcame & fs' & ws' & s1 & Hp & Hf & Hw & Hr & Hrc' & Hend').
    exists came, wcame, fs', ws', s1. split_and!; try done. by apply received_unread.
Qed.
Lemma poll_read_ok params want reads s compress reset fs ws xy later :
  open_reads reads -> receiving params s compress reset fs ws xy (arriving reads ++ later) -> (arriving reads ++ later = [] -> ws = []) ->
  exists p s' left, poll_read want reads s = (p, Ok s', left) /\ p <> PollFailed /\
    read_ok params s compress reset fs ws xy later (read_bytes p) s' left.
Proof.
  intros Ho. revert s fs ws. induction Ho as [|r reads Hr Ho IH]; intros s fs ws Hrc Hend; cbn [poll_read]; cbv zeta;
    (destruct (bool_decide (ds_ready_in s <> []));
     [do 3 eexists; split; [reflexivity|]; split; [done|]; apply read_ok_deliver; [done|done|by constructor]|]);
    destruct (retry_ok _ _ _ _ _ _ _ _ Hrc Hend) as (came & wcame & fs1 & ws1 & s1 & -> & Hf & Hw & Hrr & Hrc1 & Hend1);
    (destruct (bool_decide (ds_ready_in s1 <> []));
     [do 3 eexists; split; [reflexivity|]; split; [done|]; apply (read_ok_after _ _ _ _ _ _ _ _ _ _ [] s1 fs1 ws1 _ _ _ Hf Hw Hrr);
        apply read_ok_deliver; [done|done|by constructor]|]).
  - do 3 eexists. split; [reflexivity|]. split; [done|]. apply (read_ok_after _ _ _ _ _ _ _ _ _ _ [] s1 fs1 ws1 _ _ _ Hf Hw Hrr).
    apply read_ok_stop; [done|done|constructor].
  - destruct r as [chunk| |]; [|do 3 eexists; split; [reflexivity|]; split; [done|];
      apply (read_ok_after _ _ _ _ _ _ _ _ _ _ [] s1 fs1 ws1 _ _ _ Hf Hw Hrr); by apply read_ok_stop|by destruct Hr].
    assert (declined s1 = false) as -> by (unfold declined; by rewrite (proj1 (proj2 (rc_reads _ _ _ _ _ _ _ _ Hrc1)))).
    cbn [andb]. rewrite bool_decide_false by (intros ->; by destruct Hr).
    assert (receiving params (s1 <| ds_raw_in ::= fun l => l ++ chunk |>) compress reset fs1 ws1 xy (arriving reads ++ later)) as Hrc2.
    { eapply receiving_change; [exact Hrc1|done|done|done|done|]. cbn. unfold arriving. cbn. by rewrite <- !app_assoc. }
    destruct (process_in_ok _ _ _ _ _ _ _ _ Hrc2) as (came2 & wcame2 & fs2 & ws2 & s2 & -> & Hf2 & Hw2 & Hrr2 & Hrc3 & Hend3).
    destruct (IH s2 fs2 ws2 Hrc3 Hend3) as (p & s' & left & -> & Hp & Hok). exists p, s', left. split; [done|]. split; [done|].
    apply (read_ok_after _ _ _ _ _ _ _ _ _ _ [] s1 fs1 ws1 _ _ _ Hf Hw Hrr).
    apply (read_ok_after _ _ _ _ _ _ _ _ came2 wcame2 [] s2 fs2 ws2 _ _ _ Hf2 Hw2); [|done].
    pose proof (received_unread _ _ _ _ Hrr2) as [[R A W Y O B K] L]. split; [by split|exact L].
Qed.

Lemma read_all_ok params wants reads s compress reset fs ws xy later :
  open_reads reads -> receiving params s compress reset fs ws xy (arriving reads ++ later) -> (arriving reads ++ later = [] -> ws = []) ->
  exists bytes left s', read_all wants reads s = Some (bytes, left, s') /\
    read_ok params s compress reset fs ws xy later bytes s' left.
Proof.
  revert reads s fs ws. induction wants as [|n wants IH]; intros reads s fs ws Ho Hrc Hend; cbn [read_all].
  - exists [], reads, s. split; [done|]. by apply read_ok_stop.
  - destruct (poll_read_ok params n reads s compress reset fs ws xy later Ho Hrc Hend) as (p & s1 & left & -> & Hp & Hok).
    pose proof Hok as [(came & wcame & fs1 & ws1 & Hf & Hw & Hrr & Hrc1 & Hend1) Ho1].
    destruct (IH left s1 fs1 ws1 Ho1 Hrc1 Hend1) as (bytes & left' & s' & Hrun & Hok').
    pose proof (read_ok_after _ _ _ _ _ _ _ _ _ _ (read_bytes p) s1 fs1 ws1 bytes s' left' Hf Hw Hrr Hok') as Hall.
    exists (read_bytes p ++ bytes), left', s'. split; [|done]. destruct p as [b| |]; cbn [read_bytes app] in *; [by rewrite Hrun|done|done].
Qed.

(** C13. Once compression is agreed, the layers at the two ends of a
    connection are transparent.  Whatever whole messages and control frames
    one end's WebSocket library writes, offered in any pieces to a connection
    that takes any number of bytes at a time, the layer takes them, in order,
    without an error; and whenever and however what it sent arrives, the
    other end's library reads the same bytes, frame for frame, never an
    error - all of them once all has arrived.  Both ends count the message
    bytes and their bytes on the wire alike. *)
Theorem compression_is_transparent params s r fs offers
    (Hs : writes_with params s) (Hr : reads_with params r) (Hroles : ds_role r <> ds_role s) (Hsync : in_stream r = out_stream s)
    (Hempty : ds_raw_out s = [] /\ ds_ready_out s = [] /\ ds_raw_in r = [] /\ ds_ready_in r = [])
    (Hfs : Forall library_frame fs) (Ho : Forall (fun o => alive o.2) offers) :
  exists rest wire s' sent ws,
    write_all offers (frames_wire fs) s = Some (rest, wire, s') /\ sent `prefix_of` fs /\ (rest = [] -> sent = fs) /\
    wire ++ ds_ready_out s' = frames_wire ws /\
    cc_bytes_sent (ds_counters s') = count_all (cc_bytes_sent (ds_counters s)) (message_bytes sent) /\
    cc_wire_bytes_sent (ds_counters s') = count_all (cc_wire_bytes_sent (ds_counters s)) (message_bytes ws) /\
    (Forall wire_frame ws -> forall wants reads, open_reads reads -> arriving reads `prefix_of` wire ->
       exists bytes left r' came wcame,
         read_all wants reads r = Some (bytes, left, r') /\ came `prefix_of` sent /\ bytes ++ ds_ready_in r' = frames_wire came /\
         cc_bytes_recv (ds_counters r') = count_all (cc_bytes_recv (ds_counters r)) (message_bytes came) /\
         cc_wire_bytes_recv (ds_counters r') = count_all (cc_wire_bytes_recv (ds_counters r)) (message_bytes wcame) /\
         (left = [] -> arriving reads = wire -> ds_ready_out s' = [] -> came = sent /\ wcame = ws)).
Proof.
  destruct Hempty as (E1 & E2 & E3 & E4).
  destruct (write_all_ok params offers (frames_wire fs) s fs) as (rest & wire & s' & sent & unsent & ws & Hrun & Hs' & -> & [Hsent Hleft] & Hend);
    [done|done|done|by rewrite E1|done|].
  rewrite E2 in Hleft. cbn [app] in Hleft. exists rest, wire, s', sent, ws.
  split_and!; [done|by exists unsent|intros Hrest; by rewrite (Hend Hrest), app_nil_r|done|apply Hsent|apply Hsent|].
  intros Hws wants reads Hopen [later0 Hlater].
  assert (receiving params r (can_compress params (ds_role s)) (reset_deflater params (ds_role s)) sent ws
    (out_stream s') (arriving reads ++ later0 ++ ds_ready_out s')) as Hrc.
  { split; [done| |by apply Forall_app in Hfs as [Hfs _]| |].
    - destruct (ds_role r), (ds_role s); done.
    - rewrite E3. cbn [app]. by rewrite app_assoc, <- Hlater.
    - rewrite Hsync. apply Hsent. }
  destruct (read_all_ok params wants reads r _ _ sent ws _ (later0 ++ ds_ready_out s') Hopen Hrc) as (bytes & left & r' & Hread & [(came & wcame & fs' & ws' & -> & -> & [Hrec Hrd] & Hrc' & Hend') _]).
  { intros Hnil. rewrite app_assoc, <- Hlater, Hleft in Hnil. destruct ws as [|w ws]; [done|]. rewrite frames_wire_cons in Hnil.
    apply app_eq_nil in Hnil as [Hnil _]. by apply frame_wire_nonempty in Hnil. }
  rewrite E4 in Hrd. exists bytes, left, r', came, wcame. split_and!; [done|by exists fs'|done|apply Hrec|apply Hrec|].
  intros -> Hall Hdrained. assert (ws' = []) as ->.
  { apply Hend'. rewrite Hdrained, app_nil_r. cbn. rewrite Hlater in Hall. apply (f_equal length) in Hall. rewrite length_app in Hall.
    destruct later0; [done|cbn in Hall; lia]. }
  pose proof (carried_length _ _ _ _ _ _ (rc_carried _ _ _ _ _ _ _ _ Hrc')) as Hlen. destruct fs'; [|done]. by rewrite !app_nil_r.
Qed.
End Carried.

(** ** A codec that keeps the laws

    Each byte as a token of two, each flush as the tail; what deflate's stored
    blocks are, without their lengths. *)
Module SampleCodec.
Fixpoint decode (l : list Z) : option (list Z) :=
  match l with
  | [] => Some []
  | 1 :: b :: l => cons b <$> decode l
  | 0 :: 0 :: 255 :: 255 :: l => decode l
  | _ => None
  end.
Definition tokens (l : list Z) : list Z := concat ((fun b => [1; b]) <$> l).
Fixpoint take_tokens (room : nat) (l : list Z) : nat * list Z :=
  match l with
  | 1 :: b :: l => match room with O => (0%nat, []) | S room => let (n, o) := take_tokens room l in (S (S n), b :: o) end
  | 0 :: 0 :: 255 :: 255 :: l => let (n, o) := take_tokens room l in (S (S (S (S n))), o)
  | _ => (0%nat, [])
  end.
Record Comp := mkComp { co_in : list Z; co_out : list Z; co_done : nat }.
Record Decomp := mkDecomp { de_in : list Z; de_out : list Z }.
Definition comp_call (d : Comp) (input : list Z) (room : Z) : option (nat * list Z * Comp) :=
  let n := Nat.min (length input) (Z.to_nat ((room - 5) / 2)) in
  let full := bool_decide (n = length input) in
  let o := tokens (take n input) ++ (if full then SYNC_TAIL else []) in
  Some (n, o, mkComp (co_in d ++ take n input) (co_out d ++ o) (if full then length (co_out d ++ o) else co_done d)).
Definition decomp_call (i : Decomp) (input : list Z) (room : Z) : option (nat * list Z * bool * Decomp) :=
  let (n, o) := take_tokens (Z.to_nat room) input in
  Some (n, o, false, mkDecomp (de_in i ++ take n input) (de_out i ++ o)).
#[export] Instance codec : Flate := {
  Compressor := Comp; Decompressor := Decomp;
  new_compressor := mkComp [] [] 0; new_decompressor := mkDecomp [] [];
  compressor_reset _ := mkComp [] [] 0; decompressor_reset _ := mkDecomp [] [];
  compress_vec := comp_call; decompress_vec := decomp_call;
  vec_with_capacity n := n; vec_reserve capacity len additional := Z.max capacity (len + additional);
  compress_calls _ input := length input; decompress_calls _ input := length input;
}.

(** Induction over a stream's tokens. *)
Lemma decode_ind (P : list Z -> list Z -> Prop) : P [] [] ->
  (forall b l m, decode l = Some m -> P l m -> P (1 :: b :: l) (b :: m)) ->
  (forall l m, decode l = Some m -> P l m -> P (0 :: 0 :: 255 :: 255 :: l) m) ->
  forall l m, decode l = Some m -> P l m.
Proof.
  intros H0 H1 H2 l. induction l as [l IH] using (induction_ltof1 _ (@length Z)). unfold ltof in IH. intros m.
  assert (decode l = Some m -> (l = [] /\ m = []) \/ (exists b l' m', l = 1 :: b :: l' /\ m = b :: m' /\ decode l' = Some m') \/
    (exists l', l = 0 :: 0 :: 255 :: 255 :: l' /\ decode l' = Some m)) as Hc.
  { destruct l as [|a l]; [intros [= <-]; by left|]. cbn [decode].
    destruct (decide (a = 1)) as [->|H1']; [destruct l as [|b l]; [done|]; intros Hd; apply fmap_Some in Hd as (m' & Hd & ->); right; left; eauto 6|].
    destruct (decide (a = 0)) as [->|H0']; [|intros Hd; exfalso; repeat (case_match; simplify_eq; try done)].
    intros Hd. repeat (case_match; simplify_eq; try done). right. right. eauto. }
  intros Hd. destruct (Hc Hd) as [[-> ->]|[(b & l' & m' & -> & -> & Hd')|(l' & -> & Hd')]]; [done| |].
  - apply H1; [done|]. apply IH; [cbn; lia|done].
  - apply H2; [done|]. apply IH; [cbn; lia|done].
Qed.
Lemma decode_app l l' m : decode l = Some m -> decode (l ++ l') = app m <$> decode l'.
Proof.
  revert m. refine (decode_ind (fun l m => decode (l ++ l') = app m <$> decode l') _ _ _ l).
  - cbn. by destruct (decode l').
  - intros b k m _ IH. cbn. rewrite IH. by destruct (decode l').
  - intros k m _ IH. exact IH.
Qed.
Lemma decode_app_inv l l' m m' : decode l = Some m -> decode (l ++ l') = Some m' -> exists k, decode l' = Some k /\ m' = m ++ k.
Proof. intros Hl Hd. rewrite (decode_app _ _ _ Hl) in Hd. apply fmap_Some in Hd as (k & Hk & ->). by exists k. Qed.
Lemma decode_tokens l : decode (tokens l) = Some l.
Proof. unfold tokens. induction l as [|b l IH]; [done|]. cbn. by rewrite IH. Qed.
Lemma tokens_length l : length (tokens l) = (2 * length l)%nat.
Proof. unfold tokens. induction l as [|b l IH]; [done|]. cbn in *. lia. Qed.
Lemma tokens_range l : Forall is_u8 l -> Forall is_u8 (tokens l).
Proof. intros Hl. apply Forall_concat, Forall_fmap. eapply Forall_impl; [exact Hl|]. intros b Hb. repeat constructor; ulia. Qed.
Definition tokens_taken (l m : list Z) (room : nat) : Prop :=
  let (n, o) := take_tokens room l in
  (n <= length l)%nat /\ (length o <= room)%nat /\ decode (take n l) = Some o /\ o `prefix_of` m /\ (n <> length l -> length o = room) /\
  (n = 0%nat -> o = []).
Lemma take_tokens_ok l m : decode l = Some m -> forall room, tokens_taken l m room.
Proof.
  revert m. refine (decode_ind (fun l m => forall room, tokens_taken l m room) _ _ _ l); unfold tokens_taken.
  - intros room. cbn. split_and!; try done; lia.
  - intros b k m _ IH [|room]; cbn [take_tokens].
    + cbn. split_and!; try done; try lia. apply prefix_nil.
    + specialize (IH room). destruct (take_tokens room k) as [n o]. destruct IH as (I1 & I2 & I3 & I4 & I5 & I6). cbn [take length decode].
      rewrite I3. split_and!; try done; try lia; try by apply prefix_cons.
  - intros k m _ IH room. cbn [take_tokens]. specialize (IH room). destruct (take_tokens room k) as [n o].
    destruct IH as (I1 & I2 & I3 & I4 & I5 & I6). cbn [take length decode]. split_and!; try done; lia.
Qed.

Lemma comp_keeps d input room : decode (co_out d) = Some (co_in d) -> 6 < room ->
  let n := Nat.min (length input) (Z.to_nat ((room - 5) / 2)) in
  let full := bool_decide (n = length input) in
  let o := tokens (take n input) ++ (if full then SYNC_TAIL else []) in
  decode (co_out d ++ o) = Some (co_in d ++ take n input) /\ Z.of_nat (length o) < room /\ (full = false -> (0 < n)%nat).
Proof.
  intros Hd Hroom n full o. split_and!.
  - rewrite (decode_app _ _ _ Hd). unfold o. rewrite (decode_app _ _ _ (decode_tokens _)). destruct full; cbn; by rewrite app_nil_r.
  - unfold o. rewrite length_app, tokens_length, length_take.
    assert (2 * ((room - 5) / 2) <= room - 5) as Hdiv by (apply Z.mul_div_le; lia).
    assert (Z.of_nat (length (if full then SYNC_TAIL else [])) <= 4) by (destruct full; cbn; lia).
    assert (0 <= (room - 5) / 2) by (apply Z.div_pos; lia). unfold n. lia.
  - unfold full. intros Hf%bool_decide_eq_false. assert (1 <= (room - 5) / 2) as H1 by (apply Z.div_le_lower_bound; lia). unfold n in *. lia.
Qed.

#[export] Instance codec_laws : FlateLaws codec.
Proof.
  refine {| c_in := (co_in : Compressor -> list Z); c_out := (co_out : Compressor -> list Z); c_done := (co_done : Compressor -> nat);
    c_ok := fun d : Compressor => decode (co_out d) = Some (co_in d) /\ (co_done d <= length (co_out d))%nat;
    d_in := (de_in : Decompressor -> list Z); d_out := (de_out : Decompressor -> list Z);
    d_ok := fun i : Decompressor => decode (de_in i) = Some (de_out i);
    inflates := fun l => default [] (decode l); is_stream := fun l => is_Some (decode l) |}.
  - done.
  - intros. cbn. lia.
  - intros d [->|(d' & _ & ->)]; done.
  - intros i [->|(i' & _ & ->)]; done.
  - intros d input room [Hd Hdone] Hin Hroom. destruct (comp_keeps d input room Hd Hroom) as (K1 & K2 & K3). cbn [compress_vec codec]. unfold comp_call. cbv zeta in *.
    set (n := Nat.min (length input) (Z.to_nat ((room - 5) / 2))) in *. set (full := bool_decide (n = length input)) in *.
    set (o := tokens (take n input) ++ (if full then SYNC_TAIL else [])) in *.
    exists n, o. eexists. split; [reflexivity|]. cbn [co_in co_out co_done]. split_and!; try done; try (unfold n; lia); try lia.
    + rewrite length_app. destruct full; lia.
    + unfold o. apply Forall_app. split; [apply tokens_range; by apply Forall_take|]. destruct full; repeat constructor; ulia.
    + fold full. destruct full eqn:Ef; cbn [andb].
      * destruct (Z.ltb_spec (Z.of_nat (length o)) room); [|lia]. split_and!; [done| |by eexists|by rewrite K1].
        exists (co_out d ++ tokens (take n input)). split; [unfold o; by rewrite app_assoc|]. rewrite length_app. lia.
      * split_and!; [left; specialize (K3 eq_refl); lia|done|]. cbn. rewrite length_drop. specialize (K3 eq_refl). unfold n in *. lia.
  - intros i input room Hi [m Hs] Hroom. destruct (decode_app_inv _ _ _ _ Hi Hs) as (k & Hk & ->). cbn [decompress_vec codec]. unfold decomp_call.
    pose proof (take_tokens_ok input k Hk (Z.to_nat room)) as Ht. unfold tokens_taken in Ht.
    destruct (take_tokens (Z.to_nat room) input) as [n o]. destruct Ht as (T1 & T2 & T3 & T4 & T5 & T6).
    exists n, o. eexists. split; [reflexivity|]. cbn [de_in de_out]. rewrite (decode_app _ _ _ Hi), T3, Hs. cbn.
    split_and!; try done; try lia; [by apply prefix_app|].
    destruct (bool_decide (n = length input) && (Z.of_nat (length o) <? room)) eqn:E; [done|].
    assert (o <> []) as Hne.
    { intros ->. apply andb_false_iff in E as [E%bool_decide_eq_false|E]; [specialize (T5 E); cbn in T5; lia|apply Z.ltb_ge in E; cbn in E; lia]. }
    split; [by right|]. rewrite length_drop. destruct n; [by rewrite T6 in Hne|]. lia.
Defined.
End SampleCodec.

#[local] Existing Instance SampleCodec.codec.
#[local] Existing Instance SampleCodec.codec_laws.

(** A client that writes a message and a ping, in pieces. *)
Module SampleLayers.
Definition params : Params := mkParams false false None None.
Definition mask : option (list Z) := Some [1; 2; 3; 4].
Definition frames : list WsFrame :=
  [mkWsFrame (mkFrameHeader true false 0 1 mask 0 0) [72; 105]; mkWsFrame (mkFrameHeader true false 0 9 mask 0 0) [33];
   mkWsFrame (mkFrameHeader true false 0 2 mask 0 0) [7; 7; 7]].
Definition counts : CompressionCounts := mkCompressionCounts 0 0 0 0 0 0.
Definition agreed (role : Role) : DeflateStream :=
  (DeflateStream_new role counts) <| ds_agreement := Some (Some params) |> <| ds_read_head_done := true |> <| ds_write_head_done := true |>.
Definition offers : list (nat * list (Poll nat)) :=
  [(5%nat, []); (7%nat, [PollReady 3%nat; PollPending]); (4%nat, [PollReady 40%nat]); (20%nat, [PollReady 40%nat; PollReady 40%nat])].
End SampleLayers.

Lemma compression_is_transparent_witness : exists rest wire s' sent ws,
  write_all SampleLayers.offers (frames_wire SampleLayers.frames) (SampleLayers.agreed Client) = Some (rest, wire, s') /\
  wire ++ ds_ready_out s' = frames_wire ws /\ sent `prefix_of` SampleLayers.frames /\ rest = [] /\ sent = SampleLayers.frames /\
  cc_bytes_sent (ds_counters s') = 5.
Proof.
  assert (forall f, f ∈ SampleLayers.frames -> library_frame f) as Hlib.
  { intros f Hf. unfold SampleLayers.frames in Hf. rewrite !elem_of_cons, elem_of_nil in Hf.
    assert (length [1; 2; 3; 4] = 4%nat /\ Forall is_u8 [1; 2; 3; 4]) as Hmask by (split; [reflexivity|]; repeat constructor; ulia).
    destruct Hf as [->|[->|[->|[]]]]; (split; [repeat split; cbn; try apply Hmask; try lia; try by left| |vm_compute; discriminate|]).
    all: cbn; repeat constructor; ulia. }
  destruct (compression_is_transparent SampleLayers.params (SampleLayers.agreed Client) (SampleLayers.agreed Server) SampleLayers.frames SampleLayers.offers)
    as (rest & wire & s' & sent & ws & Hrun & Hpre & Hall & Hw & Hb & _).
  - repeat split; cbn; lia.
  - repeat split.
  - discriminate.
  - reflexivity.
  - repeat split.
  - apply Forall_forall. exact Hlib.
  - repeat constructor; discriminate.
  - exists rest, wire, s', sent, ws. assert (rest = []) as Hrest by (vm_compute in Hrun; injection Hrun as <- _ _; reflexivity).
    rewrite (Hall Hrest) in Hb |- *. split; [exact Hrun|]. split; [exact Hw|]. split; [rewrite <- (Hall Hrest) at 1; exact Hpre|]. split; [exact Hrest|]. split; [reflexivity|].
    rewrite Hb. vm_compute. reflexivity.
Defined.
