(* ===== verification/Args.v ===== *)
(** * The command line (src/src/cli.rs)

    The flags that the configuration of a run is made from, as clap gives
    them: an optional flag is an option, the others hold their default.  The
    flags of the exporters and of the agents, and the subcommands, are not
    part of that configuration. *)

From Stdlib Require Import ZArith String.
From stdpp Require Import base tactics strings numbers option list.
From S2P Require Import Prelude RustStd Chaos Worker Config.

Local Open Scope Z_scope.

Inductive AuthType := AuthNone | AuthStatic | AuthApiKey | AuthJwt | AuthOAuth2.
#[export] Instance AuthType_eq_dec : EqDecision AuthType.
Proof. solve_decision. Defined.

Inductive JwtAlg := Hs256 | Hs384 | Hs512 | Rs256 | Es256.
#[export] Instance JwtAlg_eq_dec : EqDecision JwtAlg.
Proof. solve_decision. Defined.
Definition JwtAlg_name (alg : JwtAlg) : string :=
  match alg with Hs256 => "HS256" | Hs384 => "HS384" | Hs512 => "HS512" | Rs256 => "RS256" | Es256 => "ES256" end.

Record Cli := mkCli {
  ci_url : option string;
  ci_url_flag : option string;
  ci_connections : Z;
  ci_ramp_rate : Z;
  ci_duration : string;
  ci_stages : option string;
  ci_arrival_rate : option f64;
  ci_session_duration : option string;
  ci_max_connections : option Z;
  ci_requests : option Z;
  ci_rate : Z;
  ci_payload : option string;
  ci_payload_file : option string;
  ci_binary : bool;
  ci_data : option string;
  ci_headers : list string;
  ci_subprotocol : option string;
  ci_source_ip : list string;
  ci_compression : bool;
  ci_mode : TestMode;
  ci_connect_timeout : string;
  ci_message_timeout : string;
  ci_reply_match : string;
  ci_expect : option string;
  ci_ping_interval : string;
  ci_max_p50 : option string;
  ci_max_p95 : option string;
  ci_max_p99 : option string;
  ci_max_p999 : option string;
  ci_max_error_rate : option f64;
  ci_min_throughput : option f64;
  ci_max_generator_lag : option string;
  ci_auth_type : AuthType;
  ci_auth_token : option string;
  ci_auth_token_cmd : option string;
  ci_auth_token_cmd_timeout : option string;
  ci_auth_token_refresh : option string;
  ci_auth_header : string;
  ci_auth_apikey : option string;
  ci_auth_apikey_header : string;
  ci_auth_jwt_alg : option JwtAlg;
  ci_auth_jwt_key : option string;
  ci_auth_jwt_claims : option string;
  ci_auth_jwt_ttl : option string;
  ci_auth_jwt_kid : option string;
  ci_auth_jwt_per_connection : bool;
  ci_auth_oauth2_token_url : option string;
  ci_auth_oauth2_client_id : option string;
  ci_auth_oauth2_client_secret_file : option string;
  ci_auth_oauth2_scope : option string;
  ci_auth_oauth2_audience : option string;
  ci_graphql_ws_operation_name : option string;
  ci_graphql_ws_operation : option string;
  ci_graphql_ws_variables : option string;
  ci_graphql_ws_extensions : option string;
  ci_sio_event : option string;
  ci_sio_namespace : option string;
  ci_sio_auth : option string;
  ci_sio_version : option Z;
  ci_format : OutputFormat;
  ci_capture : option string;
  ci_capture_limit : Z;
  ci_chaos_delay : option string;
  ci_chaos_drop : option f64;
  ci_chaos_corrupt : option f64;
  ci_chaos_close : option f64;
  ci_chaos_close_mode : ChaosCloseMode;
  ci_chaos_read_pause : option string;
  ci_chaos_seed : option Z;
  ci_output_file : option string;
  ci_tui : bool;
  ci_no_progress : bool;
  ci_no_reconnect : bool;
  ci_scenario : option string;
  ci_phase : option string;
}.
#[export] Instance Cli_eta : Settable Cli := fun c =>
  mkCli (ci_url c) (ci_url_flag c) (ci_connections c) (ci_ramp_rate c) (ci_duration c) (ci_stages c) (ci_arrival_rate c)
    (ci_session_duration c) (ci_max_connections c) (ci_requests c) (ci_rate c) (ci_payload c) (ci_payload_file c) (ci_binary c)
    (ci_data c) (ci_headers c) (ci_subprotocol c) (ci_source_ip c) (ci_compression c) (ci_mode c) (ci_connect_timeout c)
    (ci_message_timeout c) (ci_reply_match c) (ci_expect c) (ci_ping_interval c) (ci_max_p50 c) (ci_max_p95 c) (ci_max_p99 c)
    (ci_max_p999 c) (ci_max_error_rate c) (ci_min_throughput c) (ci_max_generator_lag c) (ci_auth_type c) (ci_auth_token c)
    (ci_auth_token_cmd c) (ci_auth_token_cmd_timeout c) (ci_auth_token_refresh c) (ci_auth_header c) (ci_auth_apikey c)
    (ci_auth_apikey_header c) (ci_auth_jwt_alg c) (ci_auth_jwt_key c) (ci_auth_jwt_claims c) (ci_auth_jwt_ttl c) (ci_auth_jwt_kid
    c) (ci_auth_jwt_per_connection c) (ci_auth_oauth2_token_url c) (ci_auth_oauth2_client_id c) (ci_auth_oauth2_client_secret_file
    c) (ci_auth_oauth2_scope c) (ci_auth_oauth2_audience c) (ci_graphql_ws_operation_name c) (ci_graphql_ws_operation c)
    (ci_graphql_ws_variables c) (ci_graphql_ws_extensions c) (ci_sio_event c) (ci_sio_namespace c) (ci_sio_auth c) (ci_sio_version
    c) (ci_format c) (ci_capture c) (ci_capture_limit c) (ci_chaos_delay c) (ci_chaos_drop c) (ci_chaos_corrupt c) (ci_chaos_close
    c) (ci_chaos_close_mode c) (ci_chaos_read_pause c) (ci_chaos_seed c) (ci_output_file c) (ci_tui c) (ci_no_progress c)
    (ci_no_reconnect c) (ci_scenario c) (ci_phase c).

(** A command line without flags. *)
Definition no_flags : Cli :=
  mkCli None None 50 0 "10s" None None None None None 0 None None false None [] None [] false Echo "5s" "5s" "first" None "0s"
    None None None None None None None AuthNone None None None None "Authorization" None "X-API-Key" None None None None None
    false None None None None None None None None None None None None None OutText None DEFAULT_CAPTURE_LIMIT None None None None
    Abrupt None None None false false false None None.

Definition resolve_url (c : Cli) : option string := match ci_url c with Some url => Some url | None => ci_url_flag c end.
Definition is_scenario_mode (c : Cli) : bool := bool_decide (is_Some (ci_scenario c)).
