(* ===== verification/Auth.v ===== *)
(** * Handshake authentication (src/src/auth.rs)

    The header a credential becomes, the command that prints a token, the
    header that changes during a run and the thread that refreshes it.  A
    time is the nanoseconds of one clock; what a child process does is a
    record of answers, and the texts of the system's errors are its. *)

From Stdlib Require Import ZArith Lia Ascii String.
From stdpp Require Import base tactics strings numbers option list.
From S2P Require Import Prelude RustStd Str Json Url Libs Live Wire Data Slo Deflate.

Local Open Scope Z_scope.
Local Open Scope rust_scope.

Definition POLL_INTERVAL : Z := from_millis 5.
Definition WARNING_GAP : Z := from_secs 60.

(** ** What is refreshed and when *)

(** [WarningLimiter]; an [Instant] before the last one is no time after it. *)
Record WarningLimiter := mkWarningLimiter { wl_gap : Z; wl_last : option Z; wl_suppressed : Z }.
#[export] Instance WarningLimiter_eta : Settable WarningLimiter := fun w => mkWarningLimiter (wl_gap w) (wl_last w) (wl_suppressed w).
Definition WarningLimiter_new (gap : Z) : WarningLimiter := mkWarningLimiter gap None 0.
Definition limiter_failed (now : Z) (w : WarningLimiter) : option Z * WarningLimiter :=
  if (match wl_last w with Some last => saturating_duration_since now last <? wl_gap w | None => false end)
  then (None, w <| wl_suppressed ::= fun n => n +u 1 |>)
  else (Some (wl_suppressed w), w <| wl_last := Some now |> <| wl_suppressed := 0 |>).
Definition limiter_succeeded (w : WarningLimiter) : WarningLimiter := w <| wl_suppressed := 0 |>.

(** What [warn] prints, without the colours. *)
Definition warning (message : string) (suppressed : Z) : string :=
  ("Warning: " +:+ message +:+
   (if (0 <? suppressed)%Z then " (" +:+ display_u64 suppressed +:+ " earlier failures not shown)" else EmptyString))%string.

Definition refresh_margin (lifetime : Z) : Z := Z.min (lifetime / 5) (from_secs 60).

(** A thread that keeps a value current: [refresh] has answered [outcome] at
    [now], or it was told to stop. *)
Section Refresh.
Context {V : Type}.

Definition Refreshed : Type := result (V * option Z) string.
Inductive Wakeup := Stop | TimedOut (outcome : Refreshed) (now : Z).
Record Refresher := mkRefresher { rf_live : V; rf_warnings : WarningLimiter; rf_wait : Z; rf_over : bool }.

(** One round of [refresh_loop], with what it prints. *)
Definition refresh_round (what : string) (retry : Z) (wakeup : Wakeup) (s : Refresher) : Refresher * list string :=
  match wakeup with
  | Stop => (mkRefresher (rf_live s) (rf_warnings s) (rf_wait s) true, [])
  | TimedOut (Ok (value, next)) _ =>
      (mkRefresher value (limiter_succeeded (rf_warnings s)) (default (rf_wait s) next) (bool_decide (next = None)), [])
  | TimedOut (Err err) now =>
      let (shown, warnings) := limiter_failed now (rf_warnings s) in
      (mkRefresher (rf_live s) warnings retry false,
       match shown with
       | Some suppressed => [warning (what +:+ " failed: " +:+ err +:+ "; new handshakes keep the previous token") suppressed]
       | None => []
       end)
  end.
Fixpoint refresh_rounds (what : string) (retry : Z) (wakeups : list Wakeup) (s : Refresher) : Refresher * list string :=
  match wakeups with
  | [] => (s, [])
  | wakeup :: wakeups =>
      if rf_over s then (s, [])
      else let (s, printed) := refresh_round what retry wakeup s in
           let (s, more) := refresh_rounds what retry wakeups s in (s, printed ++ more)
  end.
Definition refresh_loop (what : string) (first retry : Z) (live : V) (wakeups : list Wakeup) : Refresher * list string :=
  refresh_rounds what retry wakeups (mkRefresher live (WarningLimiter_new WARNING_GAP) first false).

(** What [spawn_refresh_loop] starts: the closure is given what it draws and
    reads while it runs; [None] is its panic. *)
Record RefreshThread (E : Type) := mkRefreshThread {
  rt_what : string;
  rt_first : Z;
  rt_retry : Z;
  rt_refresh : E -> option Refreshed;
}.
End Refresh.
#[global] Arguments Refreshed V : clear implicits.
#[global] Arguments Wakeup V : clear implicits.
#[global] Arguments Refresher V : clear implicits.
#[global] Arguments RefreshThread V E : clear implicits.
#[global] Arguments mkRefreshThread {V E} _ _ _ _.
#[global] Arguments rt_what {V E} _.
#[global] Arguments rt_first {V E} _.
#[global] Arguments rt_retry {V E} _.
#[global] Arguments rt_refresh {V E} _ _.

(** ** The header *)

Inductive AuthScheme := StaticScheme | ApiKeyScheme.
#[export] Instance AuthScheme_eq_dec : EqDecision AuthScheme.
Proof. solve_decision. Defined.

(** What the authentication needs of the http crate besides [HttpOps]:
    [HeaderMap]'s [insert] and [remove], the text of an invalid name's error
    and the name of the standard header. *)
Class AuthHttp `{Libs} := {
  map_insert : HeaderName -> HeaderValue -> HeaderMap -> HeaderMap;
  map_remove : HeaderName -> HeaderMap -> HeaderMap;
  name_error : string -> string;
  AUTHORIZATION : HeaderName;
}.

(** [insert] leaves one value under its name, [remove] none, and neither
    touches another name. *)
Class AuthHttpLaws `{AuthHttp} := {
  get_all_insert : forall n n' v m, map_get_all n (map_insert n' v m) = if decide (n' = n) then [v] else map_get_all n m;
  get_all_remove : forall n n' m, map_get_all n (map_remove n' m) = if decide (n' = n) then [] else map_get_all n m;
}.

(** [token.get(..n)]: [None] past the end or inside a character. *)
Definition str_get_to (n : nat) (s : string) : option string :=
  let bytes := bytes_of_string s in
  if (n <=? length bytes)%nat && from_option (fun b => negb ((128 <=? b) && (b <? 192))) true (bytes !! n)
  then Some (string_of_bytes (take n bytes)) else None.

Section Header.
Context `{AuthHttp}.

Definition auth_header_value (scheme : AuthScheme) (name : HeaderName) (token : string) : option HeaderValue :=
  let bearer := bool_decide (scheme = StaticScheme) && bool_decide (name = AUTHORIZATION)
    && negb (from_option (fun p => eq_ignore_ascii_case p "bearer ") false (str_get_to 7 token)) in
  header_value (if bearer then "Bearer " +:+ token else token)%string.

(** [LiveAuthHeader]; [P] is what signs a token for each attempt, and is
    called with what the attempt draws and reads. *)
Inductive Source (P : Type) := Shared (value : HeaderValue) | PerAttempt (signer : P).
#[global] Arguments Shared {P} value.
#[global] Arguments PerAttempt {P} signer.
Record LiveAuthHeader (P : Type) := mkLiveAuthHeader { la_name : HeaderName; la_source : Source P }.
#[global] Arguments mkLiveAuthHeader {P} _ _.
#[global] Arguments la_name {P} _.
#[global] Arguments la_source {P} _.
Definition live_new {P} (name : HeaderName) (value : HeaderValue) : LiveAuthHeader P := mkLiveAuthHeader name (Shared value).

(** [apply], with what signing prints. *)
Definition live_apply {P} (sign : P -> option HeaderValue * P * list string) (live : LiveAuthHeader P) (headers : HeaderMap)
  : HeaderMap * LiveAuthHeader P * list string :=
  match la_source live with
  | Shared value => (map_insert (la_name live) value headers, live, [])
  | PerAttempt signer =>
      let '(value, signer, printed) := sign signer in
      (match value with
       | Some value => map_insert (la_name live) value headers
       | None => map_remove (la_name live) headers
       end, mkLiveAuthHeader (la_name live) (PerAttempt signer), printed)
  end.
(** [set], which [replace] also is. *)
Definition live_set {P} (value : HeaderValue) (live : LiveAuthHeader P) : LiveAuthHeader P :=
  match la_source live with Shared _ => live_new (la_name live) value | PerAttempt _ => live end.
Definition live_received {P} (name : HeaderName) (value : HeaderValue) : LiveAuthHeader P := live_new name value.
(** [current]; [empty] is the value without text. *)
Definition live_current {P} (sign : P -> option HeaderValue * P * list string) (empty : HeaderValue) (live : LiveAuthHeader P) : HeaderValue :=
  match la_source live with Shared value => value | PerAttempt signer => default empty (sign signer).1.1 end.
End Header.

(** ** The token command *)

(** How a process ended: whether with success, and how that reads. *)
Record ExitStatus := mkExitStatus { es_success : bool; es_text : string }.
Inductive TryWait := Exited (status : ExitStatus) | Running | WaitFailed (message : string).

(** A started process: what [try_wait] answers at a time, and when each pipe
    has been read to its end, if it ever is, with what it carried. *)
Record Child := mkChild {
  cd_try_wait : Z -> TryWait;
  cd_stdout : option (Z * list Z);
  cd_stderr : option (Z * list Z);
}.

Section Command.
Context `{Formatter}.

(** The loop of [run_token_command]: [oversleep] is how much longer each
    sleep takes; also when it ended and whether it killed the process.  A
    deadline past the clock's range, which panics, is not modelled. *)
Fixpoint wait_child (fuel : nat) (oversleep : nat -> Z) (timeout deadline now : Z) (c : Child) : option (result ExitStatus string * Z * bool) :=
  match fuel with
  | O => None
  | S fuel =>
      match cd_try_wait c now with
      | Exited status => Some (Ok status, now, false)
      | Running =>
          if deadline <=? now
          then Some (Err ("the command did not finish within " +:+ debug_duration timeout)%string, now, true)
          else wait_child fuel (fun i => oversleep (S i)) timeout deadline (now + POLL_INTERVAL + oversleep O) c
      | WaitFailed e => Some (Err ("could not wait for the command: " +:+ e)%string, now, false)
      end
  end.

(** [recv_timeout] of a drained pipe: what it carried, and when the wait
    ended. *)
Definition recv_pipe (pipe : option (Z * list Z)) (now timeout : Z) : option (list Z) * Z :=
  match pipe with
  | Some (at_, bytes) => if at_ <=? now + timeout then (Some bytes, Z.max now at_) else (None, now + timeout)
  | None => (None, now + timeout)
  end.

(** [failure]: the first line of the error output that is not blank. *)
Definition failure (status : ExitStatus) (stderr : list Z) : string :=
  match head (filter (fun l => l <> ""%string) (trim <$> lines (from_utf8_lossy stderr))) with
  | Some line => "the command failed (" +:+ es_text status +:+ "): " +:+ line
  | None => "the command failed (" +:+ es_text status +:+ ")"
  end%string.

(** What [run_token_command] does with an exit. *)
Definition command_output (status : ExitStatus) (timeout deadline now : Z) (c : Child) : result string string * Z :=
  let (stderr, now) := recv_pipe (cd_stderr c) now (saturating_duration_since deadline now) in
  if negb (es_success status) then (Err (failure status (default [] stderr)), now)
  else
    let (stdout, now) := recv_pipe (cd_stdout c) now (saturating_duration_since deadline now) in
    (match stdout with
     | None => Err ("the command's output was not closed within " +:+ debug_duration timeout)%string
     | Some stdout =>
         match trim <$> from_utf8 stdout with
         | None => Err "its output is not a valid HTTP header value"%string
         | Some token =>
             if decide (token = ""%string) then Err ("the command printed no token (" +:+ es_text status +:+ ")")%string else Ok token
         end
     end, now).

(** [run_token_command] of a process started at [now]; [None] only when the
    fuel is short of the polls. *)
Definition run_token_command (fuel : nat) (oversleep : nat -> Z) (spawned : result Child string) (timeout now : Z)
  : option (result string string * Z * bool) :=
  match spawned with
  | Err e => Some (Err ("could not start the command: " +:+ e)%string, now, false)
  | Ok c =>
      '(waited, ended, killed) ← wait_child fuel oversleep timeout (now + timeout) now c;
      match waited with
      | Err e => Some (Err e, ended, killed)
      | Ok status => let (r, ended) := command_output status timeout (now + timeout) ended c in Some (r, ended, killed)
      end
  end.
(** The polls a timeout leaves time for. *)
Definition command_fuel (timeout : Z) : nat := Z.to_nat (timeout / POLL_INTERVAL + 2).
End Command.

(** ** What a token command can do *)

Section CommandFacts.
Context `{Formatter}.

Lemma recv_pipe_between pipe now deadline : now <= (recv_pipe pipe now (saturating_duration_since deadline now)).2 <= Z.max now deadline.
Proof.
  unfold recv_pipe, saturating_duration_since. destruct pipe as [[at_ bytes]|]; [|cbn; lia].
  destruct (Z.leb_spec at_ (now + Z.max 0 (deadline - now))); cbn; lia.
Qed.

Lemma recv_pipe_Some pipe now timeout bytes ended : recv_pipe pipe now timeout = (Some bytes, ended) -> exists at_, pipe = Some (at_, bytes).
Proof.
  unfold recv_pipe. destruct pipe as [[at_ bytes']|]; [|done]. destruct (at_ <=? now + timeout); [|done]. intros [= -> _]. by exists at_.
Qed.

(** The polls end, at most one sleep after the deadline. *)
Lemma wait_child_ends fuel oversleep timeout deadline now c (slack : Z) : (forall i, 0 <= oversleep i <= slack) ->
  (deadline - now) / POLL_INTERVAL + 2 <= Z.of_nat fuel -> (0 < fuel)%nat -> now <= deadline + POLL_INTERVAL + slack ->
  exists r ended killed, wait_child fuel oversleep timeout deadline now c = Some (r, ended, killed) /\
    now <= ended <= deadline + POLL_INTERVAL + slack /\
    match r with
    | Ok status => cd_try_wait c ended = Exited status /\ killed = false
    | Err e => if killed then deadline <= ended /\ cd_try_wait c ended = Running /\
                    e = ("the command did not finish within " +:+ debug_duration timeout)%string
               else exists m, cd_try_wait c ended = WaitFailed m /\ e = ("could not wait for the command: " +:+ m)%string
    end.
Proof.
  revert oversleep now. induction fuel as [|fuel IH]; intros oversleep now Ho Hfuel Hpos Hnow; [lia|]. cbn [wait_child].
  pose proof (Ho O) as H0. unfold POLL_INTERVAL, from_millis in *.
  destruct (cd_try_wait c now) as [status| |m] eqn:E.
  - exists (Ok status), now, false. by split_and!; try lia.
  - destruct (Z.leb_spec deadline now) as [Hd|Hd].
    + eexists _, now, true. by split_and!; try lia.
    + assert (now + 5 * 1000000 + oversleep O <= deadline + 5 * 1000000 + slack) by lia.
      assert ((deadline - (now + 5 * 1000000 + oversleep O)) / (5 * 1000000) + 2 <= Z.of_nat fuel) as Hf.
      { assert ((deadline - (now + 5 * 1000000 + oversleep O)) / (5 * 1000000) <= ((deadline - now) + -1 * (5 * 1000000)) / (5 * 1000000)) as Hle
          by (apply Z.div_le_mono; lia).
        rewrite Z.div_add in Hle by lia. lia. }
      assert (0 <= (deadline - now) / (5 * 1000000)) by (apply Z.div_pos; lia).
      destruct (IH (fun i => oversleep (S i)) (now + 5 * 1000000 + oversleep O)) as (r & ended & killed & -> & He & Hr); [intros i; apply Ho|lia|lia|lia|].
      exists r, ended, killed. split; [done|]. split; [lia|done].
  - eexists _, now, false. split_and!; [done|lia|lia|]. by exists m.
Qed.

(** What an exit's output may be turned into. *)
Lemma command_output_spec status timeout deadline now c r ended : command_output status timeout deadline now c = (r, ended) ->
  now <= ended <= Z.max now deadline /\
  match r with
  | Ok token => es_success status = true /\ token <> ""%string /\
      exists at_ bytes text, cd_stdout c = Some (at_, bytes) /\ from_utf8 bytes = Some text /\ token = trim text
  | Err e => (es_success status = false /\ e = failure status (default [] (recv_pipe (cd_stderr c) now (saturating_duration_since deadline now)).1)) \/
      e ∈ ["the command's output was not closed within " +:+ debug_duration timeout;
           "its output is not a valid HTTP header value";
           "the command printed no token (" +:+ es_text status +:+ ")"]%string
  end.
Proof.
  unfold command_output. pose proof (recv_pipe_between (cd_stderr c) now deadline) as H1.
  destruct (recv_pipe (cd_stderr c) now _) as [stderr now1] eqn:E1. cbn [snd fst] in *.
  destruct (es_success status) eqn:Es; cbn [negb]; [|intros [= <- <-]; split; [lia|by left]].
  pose proof (recv_pipe_between (cd_stdout c) now1 deadline) as H2.
  destruct (recv_pipe (cd_stdout c) now1 _) as [stdout now2] eqn:E2. cbn [snd] in H2. intros [= <- <-]. split; [lia|].
  destruct stdout as [bytes|]; [|right; rewrite !elem_of_cons; tauto]. apply recv_pipe_Some in E2 as [at_ E2].
  destruct (from_utf8 bytes) as [text|] eqn:Eu; cbn [fmap option_fmap option_map]; [|right; rewrite !elem_of_cons; tauto].
  case_decide; [right; rewrite !elem_of_cons; tauto|]. split; [done|]. split; [done|]. by exists at_, bytes, text.
Qed.
End CommandFacts.

(** What one run of the token command says: the token that the process
    printed and ended well with, or why there is none. *)
Definition command_says `{Formatter} (c : Child) (timeout : Z) (r : result string string) (killed : bool) : Prop :=
  match r with
  | Ok token => killed = false /\ token <> ""%string /\ exists when status, cd_try_wait c when = Exited status /\ es_success status = true /\
      exists at_ bytes text, cd_stdout c = Some (at_, bytes) /\ from_utf8 bytes = Some text /\ token = trim text
  | Err e =>
      if killed then e = ("the command did not finish within " +:+ debug_duration timeout)%string
      else e ∈ ["the command's output was not closed within " +:+ debug_duration timeout; "its output is not a valid HTTP header value"]%string \/
           exists when, (exists m, cd_try_wait c when = WaitFailed m /\ e = ("could not wait for the command: " +:+ m)%string) \/
             exists status, cd_try_wait c when = Exited status /\
               (e = ("the command printed no token (" +:+ es_text status +:+ ")")%string \/
                (es_success status = false /\ exists stderr, e = failure status stderr /\ (stderr = [] \/ exists at_, cd_stderr c = Some (at_, stderr))))
  end.

(** C24. A token command never holds a run up: whatever the process does, the
    command is over at most one poll after its timeout.  A process that is
    still running then is killed.  A token is what a process that ended with
    success printed, trimmed and not empty; every other end is an error, made
    from the exit status and the error output but never from what the process
    printed. *)
Theorem token_command_is_bounded `{Formatter} (c : Child) (oversleep : nat -> Z) (slack timeout now : Z)
    (Ht : 0 <= timeout) (Ho : forall i, 0 <= oversleep i <= slack) :
  exists r ended killed, run_token_command (command_fuel timeout) oversleep (Ok c) timeout now = Some (r, ended, killed) /\
    now <= ended <= now + timeout + POLL_INTERVAL + slack /\
    (killed = true -> now + timeout <= ended /\ cd_try_wait c ended = Running) /\ command_says c timeout r killed.
Proof.
  assert (0 <= slack) by (pose proof (Ho O); lia). assert (0 < POLL_INTERVAL) by done. assert (0 <= timeout / POLL_INTERVAL) by (apply Z.div_pos; cbn; lia).
  destruct (wait_child_ends (command_fuel timeout) oversleep timeout (now + timeout) now c slack Ho) as (w & ended & killed & Hw & He & Hs).
  { unfold command_fuel. replace (now + timeout - now) with timeout by lia. lia. }
  { unfold command_fuel. lia. }
  { cbn. lia. }
  unfold run_token_command. rewrite Hw. cbn [mbind option_bind]. destruct w as [status|e].
  - destruct Hs as [Hx ->]. destruct (command_output _ _ _ _ _) as [r ended'] eqn:Ec. apply command_output_spec in Ec as [Hb Hr].
    exists r, ended', false. split_and!; [done|lia|lia|done|]. destruct r as [token|e]; cbn [command_says].
    + destruct Hr as (Hsucc & Hne & Hout). split; [done|]. split; [done|]. by exists ended, status.
    + destruct Hr as [[Hsucc ->]|Hr].
      * right. exists ended. right. exists status. split; [done|]. right. split; [done|]. eexists. split; [done|].
        destruct (recv_pipe (cd_stderr c) ended _) as [[bytes|] ?] eqn:Ep; [|by left]. apply recv_pipe_Some in Ep. by right.
      * repeat (apply elem_of_cons in Hr as [->|Hr]; [try (left; rewrite !elem_of_cons; tauto); right; exists ended; right; exists status; by auto|]).
        by apply not_elem_of_nil in Hr.
  - exists (Err e), ended, killed. split_and!; [done|lia|lia| |].
    + intros ->. destruct Hs as (Hd & Hrun & _). by split.
    + destruct killed; cbn [command_says]; [by destruct Hs as (_ & _ & ->)|].
      destruct Hs as (m & Hm & ->). right. exists ended. left. by exists m.
Qed.

(** A command that prints its token after twelve milliseconds, and one that
    never ends. *)
Module SampleCommand.
#[export] Instance plain_format : Formatter := {|
  debug_duration d := display_u64 d; fixed n x := ""%string; display_f64 x := ""%string;
|}.
Definition prints : Child :=
  mkChild (fun now => if now <? from_millis 12 then Running else Exited (mkExitStatus true "exit status: 0"))
    (Some (from_millis 11, bytes_of_string " t0ken" ++ [10])) (Some (from_millis 12, [])).
Definition hangs : Child := mkChild (fun _ => Running) None None.
End SampleCommand.
#[local] Existing Instance SampleCommand.plain_format.

Lemma token_command_is_bounded_witness :
  run_token_command (command_fuel (from_millis 30)) (fun _ => 0) (Ok SampleCommand.prints) (from_millis 30) 0 = Some (Ok "t0ken"%string, from_millis 15, false) /\
  (exists e ended, run_token_command (command_fuel (from_millis 30)) (fun _ => 0) (Ok SampleCommand.hangs) (from_millis 30) 0 = Some (Err e, ended, true) /\
    0 <= ended <= 0 + from_millis 30 + POLL_INTERVAL + 0).
Proof.
  split; [vm_compute; reflexivity|].
  destruct (token_command_is_bounded SampleCommand.hangs (fun _ => 0) 0 (from_millis 30) 0) as (r & ended & killed & E & He & _); [done|done|].
  assert (match run_token_command (command_fuel (from_millis 30)) (fun _ => 0) (Ok SampleCommand.hangs) (from_millis 30) 0 with
          | Some (Err _, _, true) => true | _ => false end = true) as Hk by (vm_compute; reflexivity).
  rewrite E in Hk. destruct r as [|e]; [done|]. destruct killed; [|done]. by exists e, ended.
Defined.
