(* ===== verification/Jwt.v ===== *)
(** * Signed tokens (src/src/auth/jwt.rs)

    The [--auth-jwt-*] options, the signing key, the tokens and the thread
    that signs a new one before the last expires.  ring is a parameter, the
    class [Ring]; the system time is the nanoseconds since the Unix epoch. *)

From Stdlib Require Import ZArith Lia Ascii String.
From stdpp Require Import base tactics strings numbers option list.
From S2P Require Import Prelude RustStd Str Json Url Libs Live HumanDuration Wire Base64 Reply Data Template Load Slo SocketIo Deflate Config Token Args Auth.

Local Open Scope Z_scope.
Local Open Scope rust_scope.

Definition KEY_FILE_ENV : string := "WSBLAST_JWT_KEY_FILE".
Definition DEFAULT_TTL : Z := from_secs (5 * 60).
Definition MIN_TTL : Z := from_secs 2.
Definition MIN_SIGN_DELAY : Z := from_millis 100.
Definition SIGN_RETRY : Z := from_secs 1.
Definition REGISTERED : list string := ["iat"; "nbf"; "exp"; "jti"]%string.
Definition JTI_BYTES : nat := 16.

(** ** ring *)

Inductive HmacAlg := HMAC_SHA256 | HMAC_SHA384 | HMAC_SHA512.

(** The keys, how they are read and what they sign; a signature may take
    entropy, and only an RSA or ECDSA one can fail. *)
Class Ring := {
  HmacKey : Type;
  RsaKeyPair : Type;
  EcdsaKeyPair : Type;
  hmac_new : HmacAlg -> list Z -> HmacKey;
  hmac_sign : HmacKey -> list Z -> list Z;
  rsa_from_pkcs8 : list Z -> result RsaKeyPair string;
  rsa_from_der : list Z -> result RsaKeyPair string;
  rsa_sign : RsaKeyPair -> list Z -> list Z -> option (list Z);
  ecdsa_from_pkcs8 : list Z -> result EcdsaKeyPair string;
  ecdsa_sign : EcdsaKeyPair -> list Z -> list Z -> option (list Z);
}.

(** A signature is bytes. *)
Class RingLaws `{Ring} := {
  hmac_bytes key input : Forall is_u8 (hmac_sign key input);
  rsa_bytes key entropy input s : rsa_sign key entropy input = Some s -> Forall is_u8 s;
  ecdsa_bytes key entropy input s : ecdsa_sign key entropy input = Some s -> Forall is_u8 s;
}.

(** [Value::from] of a [u64]. *)
Class JsonU64 `{Libs} := number_of_u64 : Z -> JN.

Section Jwt.
Context `{Hlibs : Libs, !Ring, !JsonU64, !AuthHttp}.

(** ** Claims *)

Abbreviation Claims := (list (string * Value JN)).
(** [serde_json::Map]: a map by key, in the keys' order. *)
Fixpoint claim_insert (key : string) (value : Value JN) (m : Claims) : Claims :=
  match m with
  | [] => [(key, value)]
  | (k, v) :: rest =>
      match String.compare key k with
      | Lt => (key, value) :: m
      | Eq => (k, value) :: rest
      | Gt => (k, v) :: claim_insert key value rest
      end
  end.
Fixpoint claim_get (key : string) (m : Claims) : option (Value JN) :=
  match m with [] => None | (k, v) :: m => if decide (k = key) then Some v else claim_get key m end.

(** ** The options *)

Record JwtConfig := mkJwtConfig {
  jc_alg : JwtAlg;
  jc_key_file : string;
  jc_claims : Claims;
  jc_ttl : Z;
  jc_kid : option string;
  jc_per_connection : bool;
}.

Definition validate_kid (kid : string) : result unit string :=
  if decide (kid = ""%string) then Err "must not be empty"%string
  else if existsb (fun c => contains c kid) control_chars then Err "must contain printable characters only"%string
  else if decide (trim kid <> kid) then Err "must not start or end with whitespace"%string
  else Ok tt.

Definition invalid_auth {A} (message : string) : result A WsBlastError := fail (InvalidAuth message).
Definition parse_claims (json : option string) : result Claims WsBlastError :=
  match json with
  | None => Ok []
  | Some json =>
      match from_str json with
      | Ok (Object claims) => Ok claims
      | Ok _ => invalid_auth "--auth-jwt-claims must be a JSON object"
      | Err e => invalid_auth ("--auth-jwt-claims is not valid JSON: " +:+ e)
      end
  end.
(** [config_from_cli]; [env] is the environment variable. *)
Definition jwt_from_cli (env : option string) (c : Cli) : result JwtConfig WsBlastError :=
  let? key_file := match (match ci_auth_jwt_key c with
                          | Some file => Some file
                          | None => path ← env; if decide (path = ""%string) then None else Some path
                          end) with
    | Some file => Ok file
    | None => invalid_auth ("--auth-type jwt requires --auth-jwt-key FILE or " +:+ KEY_FILE_ENV)
    end in
  let? claims := parse_claims (ci_auth_jwt_claims c) in
  let? _ := match list_find (fun claim => is_Some (claim_get claim claims)) REGISTERED with
    | Some (_, claim) => invalid_auth ("--auth-jwt-claims must not set '" +:+ claim +:+
        "': wsblast sets iat, nbf and exp from --auth-jwt-ttl and a unique jti on every token")
    | None => Ok tt
    end in
  let? ttl := match ci_auth_jwt_ttl c with Some ttl => parse_human_duration ttl | None => Ok DEFAULT_TTL end in
  let? _ := if ttl <? MIN_TTL then invalid_auth ("--auth-jwt-ttl must be at least " +:+ display_u64 (as_secs MIN_TTL) +:+ "s") else Ok tt in
  let? _ := match ci_auth_jwt_kid c with
    | Some kid => result_map_err (fun problem => ConfigFailure (InvalidAuth ("--auth-jwt-kid " +:+ problem)%string)) (validate_kid kid)
    | None => Ok tt
    end in
  Ok (mkJwtConfig (default Hs256 (ci_auth_jwt_alg c)) key_file claims ttl (ci_auth_jwt_kid c) (ci_auth_jwt_per_connection c)).

(** ** The key *)

Definition unexpected_label (label alg expected : string) : string :=
  if contains "ENCRYPTED" label then "encrypted private keys are not supported; decrypt the key first"%string
  else (alg +:+ " needs a PEM '" +:+ expected +:+ "' block, found '" +:+ label +:+ "'")%string.

(** The lines of a block up to its end. *)
Fixpoint pem_body (end_ : string) (ls : list string) (body : string) : result (list Z) string :=
  match ls with
  | [] => Err ("the PEM block has no '" +:+ end_ +:+ "' line")%string
  | line :: ls =>
      if decide (line = end_) then ok_or "the PEM block is not valid base64"%string (base64_decode (bytes_of_string body))
      else if contains ":" line then Err "encrypted private keys are not supported; decrypt the key first"%string
      else pem_body end_ ls (body +:+ line)
  end.
Definition begin_label (line : string) : option string := rest ← strip_prefix "-----BEGIN " line; strip_suffix "-----" rest.
Fixpoint pem_lines (ls : list string) : result (string * list Z) string :=
  match ls with
  | [] => Err "not a PEM file"%string
  | line :: ls =>
      match begin_label line with
      | Some label => let? der := pem_body ("-----END " +:+ label +:+ "-----") ls "" in Ok (label, der)
      | None => pem_lines ls
      end
  end.
Definition pem_block (bytes : list Z) : result (string * list Z) string :=
  match from_utf8 bytes with
  | None => Err "not a PEM file"%string
  | Some text => pem_lines (trim <$> lines text)
  end.

(** [strip_suffix] of bytes. *)
Definition strip_bytes (suffix bytes : list Z) : option (list Z) :=
  let keep := (length bytes - length suffix)%nat in
  if decide (drop keep bytes = suffix /\ (length suffix <= length bytes)%nat) then Some (take keep bytes) else None.
Definition hmac_key (alg : HmacAlg) (bytes : list Z) : result HmacKey string :=
  let secret := match strip_bytes [13; 10] bytes with Some s => s | None => default bytes (strip_bytes [10] bytes) end in
  if decide (secret = []) then Err "the HMAC secret is empty"%string else Ok (hmac_new alg secret).
Definition rsa_key (bytes : list Z) : result RsaKeyPair string :=
  let? block := pem_block bytes in
  let (label, der) := block in
  let? read := if decide (label = "PRIVATE KEY"%string) then Ok (rsa_from_pkcs8 der)
               else if decide (label = "RSA PRIVATE KEY"%string) then Ok (rsa_from_der der)
               else Err (unexpected_label label "RS256" "PRIVATE KEY or RSA PRIVATE KEY") in
  result_map_err (fun e => "not a usable RSA private key (" +:+ e +:+ "); RS256 needs 2048 to 8192 bits")%string read.
Definition ecdsa_key (bytes : list Z) : result EcdsaKeyPair string :=
  let? block := pem_block bytes in
  let (label, der) := block in
  if decide (label = "PRIVATE KEY"%string)
  then result_map_err (fun e => "not a usable P-256 private key (" +:+ e +:+ ")")%string (ecdsa_from_pkcs8 der)
  else if decide (label = "EC PRIVATE KEY"%string)
  then Err "ES256 keys must be PKCS#8 ('BEGIN PRIVATE KEY'); convert this SEC1 key with `openssl pkcs8 -topk8 -nocrypt -in KEY -out KEY.pkcs8.pem`"%string
  else Err (unexpected_label label "ES256" "PRIVATE KEY").

(** ** Tokens *)

Inductive SigningKey := Hmac (key : HmacKey) | Rsa (key : RsaKeyPair) | Ecdsa (key : EcdsaKeyPair).
Record Signer := mkSigner { sg_key : SigningKey; sg_header : string; sg_claims : Claims; sg_ttl : Z }.
Record SignedToken := mkSignedToken { tk_token : string; tk_expires : Z }.

Definition text_of_url (bytes : list Z) : string := string_of_bytes (encode_url bytes).
Definition jose_header (alg : JwtAlg) (kid : option string) : string :=
  ("{" +:+ DQ +:+ "alg" +:+ DQ +:+ ":" +:+ DQ +:+ JwtAlg_name alg +:+ DQ +:+ "," +:+ DQ +:+ "typ" +:+ DQ +:+ ":" +:+ DQ +:+ "JWT" +:+ DQ +:+
   match kid with
   | None => "}"
   | Some kid => "," +:+ DQ +:+ "kid" +:+ DQ +:+ ":" +:+ to_string (JString kid : Value JN) +:+ "}"
   end)%string.
Definition read_key (alg : JwtAlg) (key : list Z) : result SigningKey string :=
  match alg with
  | Hs256 => let? key := hmac_key HMAC_SHA256 key in Ok (Hmac key)
  | Hs384 => let? key := hmac_key HMAC_SHA384 key in Ok (Hmac key)
  | Hs512 => let? key := hmac_key HMAC_SHA512 key in Ok (Hmac key)
  | Rs256 => let? key := rsa_key key in Ok (Rsa key)
  | Es256 => let? key := ecdsa_key key in Ok (Ecdsa key)
  end.
Definition Signer_new (alg : JwtAlg) (kid : option string) (key : list Z) (claims : Claims) (ttl : Z) : result Signer string :=
  let? key := read_key alg key in
  Ok (mkSigner key (text_of_url (bytes_of_string (jose_header alg kid))) claims ttl).
(** [Signer::load]; [read] is the file system. *)
Definition Signer_load (read : string -> result (list Z) string) (config : JwtConfig) : result Signer string :=
  let path := jc_key_file config in
  match read path with
  | Err e => Err ("could not read --auth-jwt-key " +:+ path +:+ ": " +:+ e)%string
  | Ok bytes => result_map_err (fun e => "--auth-jwt-key " +:+ path +:+ ": " +:+ e)%string
                  (Signer_new (jc_alg config) (jc_kid config) bytes (jc_claims config) (jc_ttl config))
  end.

(** What a signing reads and draws: the times at which it asks, the bytes of
    the [jti] if the system's generator works, and ring's entropy. *)
Record SignEnv := mkSignEnv { se_now : Z; se_measured : Z; se_draw : option (list Z); se_entropy : list Z }.
Definition unix_now (time : Z) : Z := as_secs (Z.max 0 time).

Definition sign_input (key : SigningKey) (entropy input : list Z) : result (list Z) string :=
  ok_or "signing failed"%string
    (match key with
     | Hmac key => Some (hmac_sign key input)
     | Rsa key => rsa_sign key entropy input
     | Ecdsa key => ecdsa_sign key entropy input
     end).
Definition token_claims (s : Signer) (now expires : Z) (jti : list Z) : Claims :=
  claim_insert "jti" (JString (text_of_url jti)) (claim_insert "exp" (Number (number_of_u64 expires))
    (claim_insert "nbf" (Number (number_of_u64 now)) (claim_insert "iat" (Number (number_of_u64 now)) (sg_claims s)))).
Definition sign_at (s : Signer) (now : Z) (e : SignEnv) : result SignedToken string :=
  match se_draw e with
  | None => Err "the system random number generator failed"%string
  | Some jti =>
      let expires := u64_saturating_add now (as_secs (sg_ttl s)) in
      let payload := to_string (Object (token_claims s now expires jti)) in
      let token := (sg_header s +:+ "." +:+ text_of_url (bytes_of_string payload))%string in
      let? signature := sign_input (sg_key s) (se_entropy e) (bytes_of_string token) in
      Ok (mkSignedToken (token +:+ "." +:+ text_of_url signature) expires)
  end.
Definition Signer_header_value (s : Signer) (name : HeaderName) (e : SignEnv) : result (HeaderValue * Z) string :=
  let? t := sign_at s (unix_now (se_now e)) e in
  match auth_header_value StaticScheme name (tk_token t) with
  | Some value => Ok (value, tk_expires t)
  | None => Err "the token is not a valid HTTP header value"%string
  end.

(** ** When they are signed *)

(** [refresh_delay]; [None] is the panic of a time past the system clock's
    range. *)
Definition I64_MAX : Z := 2 ^ 63 - 1.
Definition sign_delay (expires ttl now : Z) : option Z :=
  if I64_MAX <? expires then None
  else Some (Z.max (saturating_duration_since (from_secs expires - refresh_margin ttl) now) MIN_SIGN_DELAY).

Record PerAttemptSigner := mkPerAttempt { pa_signer : Signer; pa_name : HeaderName; pa_warnings : WarningLimiter }.
(** [PerAttempt::header_value], with what it prints. *)
Definition per_attempt_value (e : SignEnv) (p : PerAttemptSigner) : option HeaderValue * PerAttemptSigner * list string :=
  match Signer_header_value (pa_signer p) (pa_name p) e with
  | Ok (value, _) => (Some value, p, [])
  | Err err =>
      let (shown, warnings) := limiter_failed (se_measured e) (pa_warnings p) in
      (None, mkPerAttempt (pa_signer p) (pa_name p) warnings,
       match shown with
       | Some suppressed => [warning ("JWT signing failed: " +:+ err +:+ "; the handshake is sent without it") suppressed]
       | None => []
       end)
  end.

Definition resign (s : Signer) (name : HeaderName) (e : SignEnv) : option (Refreshed HeaderValue) :=
  match Signer_header_value s name e with
  | Err err => Some (Err err)
  | Ok (value, expires) => delay ← sign_delay expires (sg_ttl s) (se_measured e); Some (Ok (value, Some delay))
  end.
Definition sign_thread (s : Signer) (name : HeaderName) (first : Z) : RefreshThread HeaderValue SignEnv :=
  mkRefreshThread "JWT re-signing" first SIGN_RETRY (resign s name).

Definition jwt_prepare (read : string -> result (list Z) string) (config : JwtConfig) (name : HeaderName) (e : SignEnv)
  : option (result (LiveAuthHeader PerAttemptSigner * option (RefreshThread HeaderValue SignEnv)) ConfigError) :=
  match (let? signer := Signer_load read config in let? v := Signer_header_value signer name e in Ok (signer, v)) with
  | Err err => Some (Err (InvalidAuth err))
  | Ok (signer, (value, expires)) =>
      if jc_per_connection config
      then Some (Ok (mkLiveAuthHeader name (PerAttempt (mkPerAttempt signer name (WarningLimiter_new WARNING_GAP))), None))
      else first ← sign_delay expires (sg_ttl signer) (se_measured e);
           Some (Ok (live_new name value, Some (sign_thread signer name first)))
  end.
End Jwt.
