(* ===== verification/JwtTokens.v ===== *)
(** * What a signed token says

    A token of Jwt.v read the way a server reads it: three parts between
    dots, each unpadded base64url; and the shared token of a run, signed again
    before it expires. *)

From Stdlib Require Import ZArith Lia Ascii String.
From stdpp Require Import base tactics strings numbers option list.
From S2P Require Import Prelude RustStd Str Json JsonText Url Libs Live HumanDuration Wire Base64 Load Slo SocketIo Config Args Auth Jwt.

Local Open Scope Z_scope.
Local Open Scope rust_scope.

(** ** Reading base64url *)












(** ** Reading a token *)




Section Tokens.
Context `{Hlibs : Libs, !Ring, !RingLaws, !JsonU64, !AuthHttp}.







(** ** The header *)



End Tokens.

(** ** The shared token of a run *)

Section Shared.
Context `{Hlibs : Libs, !Ring, !JsonU64, !AuthHttp}.

(** A refresh thread over the signings it does: each starts no earlier than
    the wait before it ends, and has set the header at most [slack] after
    that. *)
Abbreviation Thread := (RefreshThread HeaderValue SignEnv).
Definition next_round (thread : Thread) (r : Refresher HeaderValue) (e : SignEnv) : option (Refresher HeaderValue) :=
  outcome ← rt_refresh thread e; Some (refresh_round (rt_what thread) (rt_retry thread) (TimedOut outcome (se_measured e)) r).1.
Fixpoint timely (thread : Thread) (slack t : Z) (r : Refresher HeaderValue) (envs : list SignEnv) : Prop :=
  match envs with
  | [] => True
  | e :: envs =>
      t + rf_wait r <= se_now e /\ se_now e <= se_measured e <= t + rf_wait r + slack /\
      forall r', next_round thread r e = Some r' -> timely thread slack (se_measured e) r' envs
  end.
(** The header's value at a time, and the time the next one is due. *)
Fixpoint shown_at (thread : Thread) (r : Refresher HeaderValue) (envs : list SignEnv) (x : Z) : HeaderValue :=
  match envs with
  | [] => rf_live r
  | e :: envs =>
      if x <? se_measured e then rf_live r
      else match next_round thread r e with Some r => shown_at thread r envs x | None => rf_live r end
  end.
Fixpoint due (thread : Thread) (slack t : Z) (r : Refresher HeaderValue) (envs : list SignEnv) : Z :=
  match envs with
  | [] => t + rf_wait r + slack
  | e :: envs => match next_round thread r e with Some r => due thread slack (se_measured e) r envs | None => t end
  end.

Lemma header_value_expires s name e v n : Signer_header_value s name e = Ok (v, n) -> n <= I64_MAX ->
  n = unix_now (se_now e) + as_secs (sg_ttl s).
Proof.
  unfold Signer_header_value. intros (t & Ht & Hv)%result_bind_Ok Hn. destruct (auth_header_value _ _ _); [|done]. injection Hv as _ <-.
  unfold sign_at in Ht. destruct (se_draw e); [|done]. apply result_bind_Ok in Ht as (sig & _ & [= <-]). cbn [tk_expires] in *.
  unfold u64_saturating_add, I64_MAX, u64_max in *. lia.
Qed.

(** The thread has just set the token signed in [e]. *)
Record just_signed (s : Signer) (name : HeaderName) (slack : Z) (e : SignEnv) (r : Refresher HeaderValue) (n : Z) : Prop := mkJustSigned {
  js_value : Signer_header_value s name e = Ok (rf_live r, n);
  js_fits : n <= I64_MAX;
  js_times : 0 <= se_now e /\ se_now e <= se_measured e <= se_now e + slack;
  js_wait : sign_delay n (sg_ttl s) (se_measured e) = Some (rf_wait r);
}.

(** It is current until the next one is due. *)
Lemma just_signed_current s name slack e r n x : MIN_TTL <= sg_ttl s -> 0 <= slack -> 2 * slack <= refresh_margin (sg_ttl s) ->
  just_signed s name slack e r n -> se_measured e <= x <= se_measured e + rf_wait r + slack ->
  from_secs (unix_now (se_now e)) <= x < from_secs n.
Proof.
  intros Httl Hs Hm [Hv Hn [Ht0 Ht] Hw] Hx. pose proof (header_value_expires _ _ _ _ _ Hv Hn) as ->. unfold sign_delay in Hw.
  destruct (Z.ltb_spec I64_MAX (unix_now (se_now e) + as_secs (sg_ttl s))) as [?|_]; [lia|]. injection Hw as Hw. rewrite <- Hw in Hx. clear Hv Hn Hw.
  unfold MIN_TTL, MIN_SIGN_DELAY, refresh_margin, saturating_duration_since, unix_now, as_secs, from_secs, from_millis, NANOS_PER_SEC in *.
  revert Httl Hm Hx. rewrite (Z.max_r 0 (se_now e)) by lia. generalize (sg_ttl s). intros ttl Httl Hm Hx.
  Z.to_euclidean_division_equations. lia.
Qed.

(** How long a round waits before the next. *)
Lemma next_round_wait s name first r e r' v n : next_round (sign_thread s name first) r e = Some r' ->
  Signer_header_value s name e = Ok (v, n) -> sign_delay n (sg_ttl s) (se_measured e) = Some (rf_wait r').
Proof.
  unfold next_round, sign_thread. cbn [rt_refresh rt_what rt_retry]. unfold resign. intros Hn Hv. rewrite Hv in Hn.
  destruct (sign_delay n (sg_ttl s) (se_measured e)); [|done]. cbn in Hn. by injection Hn as <-.
Qed.

Lemma next_round_goes_on s name first r e v n : Signer_header_value s name e = Ok (v, n) -> n <= I64_MAX ->
  is_Some (next_round (sign_thread s name first) r e).
Proof.
  intros Hv Hn. unfold next_round, sign_thread. cbn [rt_refresh rt_what rt_retry]. unfold resign. rewrite Hv.
  unfold sign_delay. destruct (Z.ltb_spec I64_MAX n); [lia|]. by eexists.
Qed.

(** The signings all work. *)
Definition signing_works (s : Signer) (name : HeaderName) (e : SignEnv) : Prop :=
  exists v n, Signer_header_value s name e = Ok (v, n) /\ n <= I64_MAX.

Lemma next_round_signed s name slack first e r e' n : just_signed s name slack e r n -> signing_works s name e' -> 0 <= slack ->
  se_measured e + rf_wait r <= se_now e' -> se_now e' <= se_measured e' <= se_measured e + rf_wait r + slack ->
  exists r' n', next_round (sign_thread s name first) r e' = Some r' /\ just_signed s name slack e' r' n'.
Proof.
  intros [Hv Hn [Ht0 Ht] Hw] (v' & n' & Hv' & Hn') Hs Hstart Hend. unfold next_round, sign_thread. cbn [rt_refresh rt_what rt_retry]. unfold resign. rewrite Hv'.
  unfold sign_delay. destruct (Z.ltb_spec I64_MAX n'); [lia|]. cbn -[I64_MAX refresh_margin]. eexists _, n'. split; [done|].
  assert (0 <= rf_wait r).
  { unfold sign_delay in Hw. destruct (I64_MAX <? n); [done|]. injection Hw as Hw. unfold MIN_SIGN_DELAY, from_millis in Hw. lia. }
  split; [exact Hv'|done|lia|]. cbn [rf_wait]. unfold sign_delay. by destruct (Z.ltb_spec I64_MAX n'); [lia|].
Qed.

Lemma shown_current s name slack first envs e r n x : MIN_TTL <= sg_ttl s -> 0 <= slack -> 2 * slack <= refresh_margin (sg_ttl s) ->
  just_signed s name slack e r n -> Forall (signing_works s name) envs -> timely (sign_thread s name first) slack (se_measured e) r envs ->
  se_measured e <= x <= due (sign_thread s name first) slack (se_measured e) r envs ->
  exists e' n', Signer_header_value s name e' = Ok (shown_at (sign_thread s name first) r envs x, n') /\
    from_secs (unix_now (se_now e')) <= x < from_secs n'.
Proof.
  intros Httl Hs Hm. revert e r n. induction envs as [|e1 envs IH]; intros e r n Hj Hall Hti Hx; cbn [shown_at due timely] in *.
  - exists e, n. split; [apply Hj|]. by eapply just_signed_current.
  - apply Forall_cons in Hall as [Hw1 Hall]. destruct Hti as (Hstart & Hend & Hti).
    destruct (next_round_signed s name slack first e r e1 n Hj Hw1 Hs Hstart Hend) as (r1 & n1 & E1 & Hj1). rewrite E1 in *.
    destruct (Z.ltb_spec x (se_measured e1)) as [Hlt|Hge].
    + exists e, n. split; [apply Hj|]. eapply just_signed_current; [done|done|done|exact Hj|lia].
    + apply (IH e1 r1 n1 Hj1 Hall); [by apply Hti|lia].
Qed.

(** C14. With [--auth-type jwt] every handshake carries a token that is
    current.  The thread that signs the shared token may be late: as long as
    it wakes up, signs and replaces the header within half of the refresh
    margin, and signing works, the header holds at every time a token of the
    configured key whose [nbf] has passed and whose [exp] has not - from the
    first one until the one after the last is due. *)
Theorem shared_token_is_current (read : string -> result (list Z) string) (config : JwtConfig) (name : HeaderName) (e0 : SignEnv)
    live thread (slack : Z) (envs : list SignEnv) (x : Z)
    (Hprepare : jwt_prepare read config name e0 = Some (Ok (live, Some thread)))
    (Httl : MIN_TTL <= jc_ttl config) (Hslack : 0 <= slack /\ 2 * slack <= refresh_margin (jc_ttl config))
    (Hstart : 0 <= se_now e0 /\ se_now e0 <= se_measured e0 <= se_now e0 + slack) :
  exists s value, Signer_load read config = Ok s /\ live = live_new name value /\
    let r0 := mkRefresher value (WarningLimiter_new WARNING_GAP) (rt_first thread) false in
    (Forall (signing_works s name) envs -> timely thread slack (se_measured e0) r0 envs ->
     se_measured e0 <= x <= due thread slack (se_measured e0) r0 envs ->
     exists e n, Signer_header_value s name e = Ok (shown_at thread r0 envs x, n) /\ from_secs (unix_now (se_now e)) <= x < from_secs n).
Proof.
  unfold jwt_prepare in Hprepare. destruct (Signer_load read config) as [s|] eqn:El; cbn [result_bind] in Hprepare; [|done].
  destruct (Signer_header_value s name e0) as [[value n]|] eqn:Ev; cbn [result_bind] in Hprepare; [|done].
  destruct (jc_per_connection config); [done|]. destruct (sign_delay n (sg_ttl s) (se_measured e0)) as [first|] eqn:Ef; [|done].
  cbn [mbind option_bind] in Hprepare. injection Hprepare as <- <-. exists s, value. split; [done|]. split; [done|]. intros r0 Hall Hti Hx.
  assert (sg_ttl s = jc_ttl config) as Et.
  { unfold Signer_load in El. destruct (read (jc_key_file config)); [|done]. apply result_map_err_Ok in El. unfold Signer_new in El.
    apply result_bind_Ok in El as (key & _ & [= <-]). done. }
  rewrite <- Et in *. eapply shown_current; [done|apply Hslack|apply Hslack| |done|done|done].
  split; [done| |done|done]. unfold sign_delay in Ef. destruct (Z.ltb_spec I64_MAX n); [done|lia].
Qed.
End Shared.

(** ** A run with a small keyed sum in ring's place *)

Module SampleJwt.
#[export] Instance libs : Libs := {|
  JN := Z; Url := Plain.PlainUrl; HeaderName := bool; HeaderValue := PlainLibs.PlainValue; HeaderMap := list (bool * PlainLibs.PlainValue);
  libs_json := text_json; libs_url := Plain.plain_url; libs_http := PlainLibs.plain_http;
|}.
#[export] Instance auth_http : AuthHttp := {|
  map_insert n v m := filter (fun e => e.1 <> n) m ++ [(n, v)];
  map_remove n m := filter (fun e => e.1 <> n) m;
  name_error s := "invalid HTTP header name"%string;
  AUTHORIZATION := true;
|}.
#[export] Instance u64_number : JsonU64 := fun n => n.
Definition keyed_sum (key input : list Z) : list Z := [sum_Z (key ++ input) mod 256; Z.of_nat (length input) mod 256].
#[export] Instance ring : Ring := {|
  HmacKey := list Z; RsaKeyPair := list Z; EcdsaKeyPair := list Z;
  hmac_new _ key := key;
  hmac_sign := keyed_sum;
  rsa_from_pkcs8 der := Ok der;
  rsa_from_der der := Ok der;
  rsa_sign key _ input := Some (keyed_sum key input);
  ecdsa_from_pkcs8 der := Ok der;
  ecdsa_sign key entropy input := Some (keyed_sum key (entropy ++ input));
|}.
Lemma keyed_sum_bytes key input : Forall is_u8 (keyed_sum key input).
Proof. unfold keyed_sum, is_uint. change (2 ^ 8) with 256. repeat constructor; apply Z.mod_pos_bound; lia. Qed.
#[export] Instance ring_laws : RingLaws.
Proof.
  split.
  - apply keyed_sum_bytes.
  - intros key entropy input s. cbn. intros [= <-]. apply keyed_sum_bytes.
  - intros key entropy input s. cbn. intros [= <-]. apply keyed_sum_bytes.
Qed.

Definition key_file : list Z := bytes_of_string "s3cret" ++ [10].
Definition read (path : string) : result (list Z) string := if decide (path = "key"%string) then Ok key_file else Err "no such file"%string.
Definition claims : list (string * Value (@JN libs)) := [("aud", JString "ws"); ("sub", JString "loadtest")]%string.
Definition config : JwtConfig := mkJwtConfig Hs256 "key" claims (from_secs 10) (Some "k1"%string) false.
Definition env (now measured : Z) : SignEnv :=
  mkSignEnv (from_millis now) (from_millis measured) (Some ((fun i => (now + Z.of_nat i) mod 256) <$> seq 0 JTI_BYTES)) [].
Definition signer : Signer :=
  mkSigner (Hmac (bytes_of_string "s3cret" : HmacKey)) (text_of_url (bytes_of_string (jose_header Hs256 (Some "k1"%string)))) claims (from_secs 10).
End SampleJwt.
#[local] Existing Instance SampleJwt.libs.
#[local] Existing Instance SampleJwt.auth_http.
#[local] Existing Instance SampleJwt.u64_number.
#[local] Existing Instance SampleJwt.ring.
#[local] Existing Instance SampleJwt.ring_laws.


(** The sample signer signs at any of these times. *)
Lemma sample_signs now measured : (match Signer_header_value SampleJwt.signer true (SampleJwt.env now measured) with Ok (_, n) => n <=? I64_MAX | _ => false end = true) ->
  signing_works SampleJwt.signer true (SampleJwt.env now measured).
Proof.
  unfold signing_works. destruct (Signer_header_value _ _ _) as [[v n]|]; [|done]. intros Hn%Z.leb_le. by exists v, n.
Qed.
Lemma sample_expires now measured n : (match Signer_header_value SampleJwt.signer true (SampleJwt.env now measured) with Ok (_, n) => n | _ => 0 end = n) ->
  0 < n -> exists v, Signer_header_value SampleJwt.signer true (SampleJwt.env now measured) = Ok (v, n).
Proof. destruct (Signer_header_value _ _ _) as [[v m]|]; [|lia]. intros <- _. by exists v. Qed.

Lemma shared_token_is_current_witness : exists live thread value e n,
  jwt_prepare SampleJwt.read SampleJwt.config true (SampleJwt.env 1000300 1000400) = Some (Ok (live, Some thread)) /\
  Signer_header_value SampleJwt.signer true e =
    Ok (shown_at thread (mkRefresher value (WarningLimiter_new WARNING_GAP) (rt_first thread) false)
          [SampleJwt.env 1008000 1008100; SampleJwt.env 1016000 1016900] (from_millis 1016500), n) /\
  from_secs (unix_now (se_now e)) <= from_millis 1016500 < from_secs n.
Proof.
  assert (Signer_load SampleJwt.read SampleJwt.config = Ok SampleJwt.signer) as El by reflexivity.
  destruct (sample_expires 1000300 1000400 1010) as [v0 E0]; [vm_compute; reflexivity|lia|].
  destruct (sample_expires 1008000 1008100 1018) as [v1 E1]; [vm_compute; reflexivity|lia|].
  destruct (sample_expires 1016000 1016900 1026) as [v2 E2]; [vm_compute; reflexivity|lia|].
  assert (jwt_prepare SampleJwt.read SampleJwt.config true (SampleJwt.env 1000300 1000400) =
    Some (Ok (live_new true v0, Some (sign_thread SampleJwt.signer true (from_millis 7600))))) as E.
  { unfold jwt_prepare. rewrite El. cbn [result_bind]. rewrite E0. reflexivity. }
  destruct (shared_token_is_current SampleJwt.read SampleJwt.config true (SampleJwt.env 1000300 1000400) _ _ (from_millis 1000)
    [SampleJwt.env 1008000 1008100; SampleJwt.env 1016000 1016900] (from_millis 1016500) E) as (s & value & Es & Hl & Hcur).
  - done.
  - split; done.
  - repeat split; done.
  - rewrite El in Es. injection Es as <-. injection Hl as <-. destruct Hcur as (e & n & Hv & Hx).
    + apply Forall_cons_2; [apply sample_signs; vm_compute; reflexivity|]. apply Forall_cons_2; [apply sample_signs; vm_compute; reflexivity|apply Forall_nil_2].
    + split; [done|]. split; [by repeat split|]. intros r1 Hr1. pose proof (next_round_wait _ _ _ _ _ _ _ _ Hr1 E1) as Hw.
      assert (rf_wait r1 = from_millis 7900) as Hw1 by (by injection Hw as Hw). cbn [timely]. rewrite Hw1. by repeat split.
    + split; [done|]. cbn [due].
      destruct (next_round_goes_on (Hlibs := SampleJwt.libs) SampleJwt.signer true (from_millis 7600) (mkRefresher v0 (WarningLimiter_new WARNING_GAP) (from_millis 7600) false)
        _ _ _ E1) as [r1 Hr1]; [done|]. cbn [rt_first sign_thread]. rewrite Hr1.
      destruct (next_round_goes_on (Hlibs := SampleJwt.libs) SampleJwt.signer true (from_millis 7600) r1 _ _ _ E2) as [r2 Hr2]; [done|]. rewrite Hr2.
      pose proof (next_round_wait SampleJwt.signer _ _ _ _ _ _ _ Hr2 E2) as Hw.
      assert (rf_wait r2 = from_millis 7100) as -> by (by injection Hw as Hw). done.
    + eexists _, _, v0, e, n. split; [exact E|]. split; [exact Hv|exact Hx].
Defined.

(** A lifetime that the options accept and no clock can hold: the run panics
    before it starts. *)
Definition huge_ttl : JwtConfig := mkJwtConfig Hs256 "key" [] (from_secs 9223372036854775807) None false.
Lemma huge_ttl_accepted :
  jwt_from_cli None (no_flags <| ci_auth_jwt_key := Some "key"%string |> <| ci_auth_jwt_ttl := Some "9223372036854775807s"%string |>) = Ok huge_ttl.
Proof.
  assert (parse_human_duration "9223372036854775807s" = Ok (from_secs 9223372036854775807)) as Ht by (vm_compute; reflexivity).
  assert ((from_secs 9223372036854775807 <? MIN_TTL) = false) as Hm by reflexivity.
  unfold jwt_from_cli. cbn -[parse_human_duration from_secs MIN_TTL Z.ltb]. rewrite Ht. cbn [result_bind]. rewrite Hm. reflexivity.
Qed.
Lemma huge_ttl_panics : jwt_prepare SampleJwt.read huge_ttl true (SampleJwt.env 1000 1000) = None.
Proof.
  set (s := mkSigner (Hmac (bytes_of_string "s3cret" : @HmacKey SampleJwt.ring)) (text_of_url (bytes_of_string (jose_header Hs256 None)))
              ([] : list (string * Value (@JN SampleJwt.libs))) (from_secs 9223372036854775807)).
  assert (match Signer_header_value s true (SampleJwt.env 1000 1000) with Ok (_, n) => n | _ => 0 end = 9223372036854775808) as Hn by (vm_compute; reflexivity).
  assert (Signer_load SampleJwt.read huge_ttl = Ok s) as El by reflexivity.
  unfold jwt_prepare. rewrite El. cbn [result_bind].
  destruct (Signer_header_value s true (SampleJwt.env 1000 1000)) as [[v n]|]; [|done]. subst n. reflexivity.
Qed.
