(* ===== verification/OAuth2.v ===== *)
(** * OAuth2 client credentials (src/src/auth/oauth2.rs)

    The [--auth-oauth2-*] options, the grant request, the token endpoint's
    answer and the thread that fetches a new token before the last expires.
    The HTTP client (reqwest) is a function from requests to answers. *)

From Stdlib Require Import ZArith Lia Ascii String.
From stdpp Require Import base tactics strings numbers option list.
From S2P Require Import Prelude RustStd Str Json Url Libs Live Wire Load Slo Config Args Auth Jwt.

Local Open Scope Z_scope.
Local Open Scope rust_scope.

Definition CLIENT_SECRET_ENV : string := "WSBLAST_OAUTH2_CLIENT_SECRET".
Definition REQUEST_TIMEOUT : Z := from_secs 30.
Definition MIN_FETCH_DELAY : Z := from_secs 1.
Definition FETCH_RETRY : Z := from_secs 5.
Definition MAX_RESPONSE : Z := 64 * 1024.

(** The host of a URL: an address's bytes, or a name. *)
Inductive Host := Ipv4 (octets : list Z) | Ipv6 (octets : list Z) | Domain (name : string).
(** [url.host()] and the crate's form encoding: one value, and the pairs of a
    body. *)
Class FormUrl `{Libs} := {
  url_host : Url -> option Host;
  byte_serialize : string -> string;
  form_pairs : list (string * string) -> string;
}.

(** An HTTP status and how it is printed. *)
Record Status := mkStatus { st_code : Z; st_text : string }.
Definition is_success (s : Status) : bool := (200 <=? st_code s) && (st_code s <? 300).

Section OAuth2.
Context `{Hlibs : Libs, !FormUrl, !AuthHttp}.

Record OAuth2Config := mkOAuth2Config {
  oc_token_url : Url;
  oc_client_id : string;
  oc_client_secret : string;
  oc_scope : option string;
  oc_audience : option string;
}.

(** [is_loopback] *)
Definition url_is_loopback (url : Url) : bool :=
  match url_host url with
  | Some (Ipv4 octets) => bool_decide (octets !! 0%nat = Some 127)
  | Some (Ipv6 octets) => bool_decide (octets = replicate 15 0 ++ [1])
  | Some (Domain name) => eq_ignore_ascii_case name "localhost"
  | None => false
  end.

Fixpoint trim_newlines (s : string) : string :=
  match s with
  | EmptyString => EmptyString
  | String c s =>
      match trim_newlines s with
      | EmptyString => if bool_decide (byte_of_ascii c = 13 \/ byte_of_ascii c = 10) then EmptyString else String c EmptyString
      | s => String c s
      end
  end.
Definition non_empty (value : option string) : option string := v ← value; if decide (v = ""%string) then None else Some v.

(** [config_from_cli]; [env] is the environment variable, [read] the file
    system. *)
Definition oauth2_from_cli (env : option string) (read : string -> result string string) (c : Cli) : result OAuth2Config WsBlastError :=
  let? token_url := match ci_auth_oauth2_token_url c with
    | Some url => Ok url
    | None => invalid_auth "--auth-type oauth2 requires --auth-oauth2-token-url"
    end in
  let? token_url := match url_parse token_url with
    | Ok url => Ok url
    | Err e => invalid_auth ("--auth-oauth2-token-url is not a valid URL: " +:+ e)
    end in
  let? _ := if bool_decide (url_scheme token_url = "https"%string) || (bool_decide (url_scheme token_url = "http"%string) && url_is_loopback token_url)
    then Ok tt
    else invalid_auth "--auth-oauth2-token-url must be an https:// URL; plain http:// is accepted only for loopback addresses" in
  let? client_id := match non_empty (ci_auth_oauth2_client_id c) with
    | Some id => Ok id
    | None => invalid_auth "--auth-type oauth2 requires --auth-oauth2-client-id"
    end in
  let? client_secret := match ci_auth_oauth2_client_secret_file c with
    | Some path =>
        match read path with
        | Ok text => Ok (trim_newlines text)
        | Err e => invalid_auth ("could not read --auth-oauth2-client-secret-file " +:+ path +:+ ": " +:+ e)
        end
    | None => Ok (default ""%string env)
    end in
  if decide (client_secret = ""%string)
  then invalid_auth ("--auth-type oauth2 requires a client secret in --auth-oauth2-client-secret-file FILE or " +:+ CLIENT_SECRET_ENV)
  else Ok (mkOAuth2Config token_url client_id client_secret (non_empty (ci_auth_oauth2_scope c)) (non_empty (ci_auth_oauth2_audience c))).

(** ** The request *)

Definition request_body (config : OAuth2Config) : string :=
  form_pairs ([("grant_type"%string, "client_credentials"%string)]
    ++ (match oc_scope config with Some scope => [("scope"%string, scope)] | None => [] end)
    ++ (match oc_audience config with Some audience => [("audience"%string, audience)] | None => [] end)).

(** What [fetch] sends, and what the client answers: a failure with its
    chain of causes, or a response whose body can be read or not. *)
Record GrantRequest := mkGrantRequest { gr_url : Url; gr_user : string; gr_password : string; gr_body : string }.
Inductive GrantAnswer := SendFailed (chain : string * list string) | Answered (status : Status) (body : result (list Z) string).

Definition error_chain (chain : string * list string) : string := fold_left (fun m cause => m +:+ ": " +:+ cause)%string chain.2 chain.1.

Record AccessToken := mkAccessToken { at_token : string; at_expires_in : option Z }.

Definition json_member (key : string) (m : list (string * Value JN)) : option (Value JN) := claim_get key m.
Definition json_text (v : Value JN) : option string := match v with JString s => Some s | _ => None end.
(** [value.as_u64()] *)
Definition json_u64 (v : Value JN) : option Z := match v with Number n => as_u64 n | _ => None end.

(** [printable]: of visible ASCII without quotes and backslashes. *)
Definition error_byte (b : Z) : bool := (32 <=? b) && (b <=? 33) || (35 <=? b) && (b <=? 91) || (93 <=? b) && (b <=? 126).
Definition printable (m : list (string * Value JN)) (key : string) : option string :=
  value ← (v ← json_member key m; json_text v);
  if negb (bool_decide (value = ""%string)) && (Z.of_nat (String.length value) <=? 100) && forallb error_byte (bytes_of_string value)
  then Some value else None.

Definition lifetime (v : option (Value JN)) : result (option Z) string :=
  match v with
  | None | Some Null => Ok None
  | Some v =>
      match (match json_u64 v with Some n => Some n | None => s ← json_text v; parse_u64 (trim s) end) with
      | Some n => Ok (Some (from_secs n))
      | None => Err "the token endpoint's expires_in is not a number of seconds"%string
      end
  end.
Definition parse_response (status : Status) (body : list Z) : result AccessToken string :=
  let json := match (text ← from_utf8 body; Some (from_str text)) with Some (Ok (Object m)) => Some m | _ => None end in
  if negb (is_success status) then
    Err (match (m ← json; printable m "error") with
         | Some code => "the token endpoint answered " +:+ st_text status +:+ ": " +:+ code
         | None => "the token endpoint answered " +:+ st_text status
         end)%string
  else
    let? m := ok_or "the token endpoint's response is not a JSON object"%string json in
    let? token := ok_or "the token endpoint's response has no access_token"%string (non_empty (v ← json_member "access_token" m; json_text v)) in
    let? _ := match (v ← json_member "token_type" m; json_text v) with
      | Some kind =>
          if eq_ignore_ascii_case kind "bearer" then Ok tt
          else Err ("the token endpoint issued a '" +:+ default "another"%string (printable m "token_type") +:+ "' token; only Bearer tokens are supported")%string
      | None => Ok tt
      end in
    let? expires_in := lifetime (json_member "expires_in" m) in
    Ok (mkAccessToken token expires_in).

Definition grant_request (config : OAuth2Config) : GrantRequest :=
  mkGrantRequest (oc_token_url config) (byte_serialize (oc_client_id config)) (byte_serialize (oc_client_secret config)) (request_body config).
(** [fetch] through [client]; the body is read to one byte past the limit. *)
Definition fetch (client : GrantRequest -> GrantAnswer) (config : OAuth2Config) : result AccessToken string :=
  match client (grant_request config) with
  | SendFailed chain => Err ("could not reach the token endpoint: " +:+ error_chain chain)%string
  | Answered status (Err e) => Err ("could not read the token endpoint's response: " +:+ e)%string
  | Answered status (Ok body) =>
      let body := take (Z.to_nat (MAX_RESPONSE + 1)) body in
      if MAX_RESPONSE <? Z.of_nat (length body)
      then Err ("the token endpoint's response is larger than " +:+ display_u64 MAX_RESPONSE +:+ " bytes")%string
      else parse_response status body
  end.
Definition oauth2_header (client : GrantRequest -> GrantAnswer) (config : OAuth2Config) (name : HeaderName) : result (HeaderValue * option Z) string :=
  let? token := fetch client config in
  match auth_header_value StaticScheme name (at_token token) with
  | Some value => Ok (value, at_expires_in token)
  | None => Err "the access token is not a valid HTTP header value"%string
  end.

(** ** The thread *)

Definition fetch_delay (expires_in : Z) : Z := Z.max (expires_in - refresh_margin expires_in) MIN_FETCH_DELAY.

(** [prepare]; [setup] is the client or why there is none.  A token without a
    lifetime needs no thread. *)
Definition oauth2_prepare {P} (setup : result (GrantRequest -> GrantAnswer) string) (config : OAuth2Config) (name : HeaderName)
  : result (LiveAuthHeader P * option (RefreshThread HeaderValue (GrantRequest -> GrantAnswer))) ConfigError :=
  match (let? client := result_map_err (fun e => "could not set up the HTTP client: " +:+ e)%string setup in oauth2_header client config name) with
  | Err e => Err (AuthTokenRequest e)
  | Ok (value, expires_in) =>
      Ok (live_new name value,
          (fun expires_in =>
             mkRefreshThread "OAuth2 token refresh" (fetch_delay expires_in) (Z.min FETCH_RETRY (fetch_delay expires_in))
               (fun client => Some (let? r := oauth2_header client config name in Ok (r.1, fetch_delay <$> r.2)))) <$> expires_in)
  end.
End OAuth2.
