(* ===== verification/FromCli.v ===== *)
(** * From the command line to a run (src/src/config.rs, src/src/app.rs)

    What the flags of a run become: the settings of the builder that the
    library also uses, the authentication, the scenario's phase over both,
    the resolved credential, and the headers of a handshake's request
    (src/src/worker.rs).  What is read from outside - files, the
    environment, the clock - is a record of answers. *)

From Stdlib Require Import ZArith Lia Ascii String.
From stdpp Require Import base tactics strings numbers option list.
From S2P Require Import Prelude RustStd Str Deflate Json Url Libs Live HumanDuration Wire Chaos Reply Data Template Worker Summaries Load Slo Config Phases Args Auth Jwt JwtTokens OAuth2.

Local Open Scope Z_scope.
Local Open Scope rust_scope.

Definition DEFAULT_TOKEN_CMD_TIMEOUT : Z := from_secs 30.
Definition DEFAULT_BINARY_PAYLOAD : list Z := bytes_of_string "wsblast-payload".

(** What building from the command line reads besides the builder's: a
    payload file's bytes, a text file, the variables of the environment, and
    the text of std's error for bytes that are not UTF-8. *)
Record CliEnv := mkCliEnv {
  ce_build : BuildEnv;
  ce_bytes : string -> result (list Z) string;
  ce_text : string -> result string string;
  ce_jwt_key_file : option string;
  ce_client_secret : option string;
  ce_utf8_error : list Z -> string;
}.

Section FromCli.
Context `{Hlibs : Libs, !Formatter, !Ring, !JsonU64, !AuthHttp, !FormUrl}.

(** ** Authentication *)

Record TokenCommand := mkTokenCommand { tc_command : string; tc_timeout : Z; tc_refresh : option Z }.
Inductive Credential :=
| CredValue (token : string)
| CredCommand (command : TokenCommand)
| CredJwt (config : JwtConfig)
| CredOAuth2 (config : OAuth2Config).
Record AuthConfig := mkAuthConfig { ac_scheme : AuthScheme; ac_header : string; ac_credential : Credential }.

Definition given {A} (o : option A) : bool := bool_decide (is_Some o).
(** The first flag of a list that was given. *)
Definition flag_given (flags : list (string * bool)) : option string := fst <$> find snd flags.
Definition jwt_flag_given (c : Cli) : option string :=
  flag_given [("--auth-jwt-alg", given (ci_auth_jwt_alg c)); ("--auth-jwt-key", given (ci_auth_jwt_key c));
    ("--auth-jwt-claims", given (ci_auth_jwt_claims c)); ("--auth-jwt-ttl", given (ci_auth_jwt_ttl c));
    ("--auth-jwt-kid", given (ci_auth_jwt_kid c)); ("--auth-jwt-per-connection", ci_auth_jwt_per_connection c)]%string.
Definition oauth2_flag_given (c : Cli) : option string :=
  flag_given [("--auth-oauth2-token-url", given (ci_auth_oauth2_token_url c)); ("--auth-oauth2-client-id", given (ci_auth_oauth2_client_id c));
    ("--auth-oauth2-client-secret-file", given (ci_auth_oauth2_client_secret_file c)); ("--auth-oauth2-scope", given (ci_auth_oauth2_scope c));
    ("--auth-oauth2-audience", given (ci_auth_oauth2_audience c))]%string.
Definition reject_token_options (c : Cli) (kind : string) : result unit WsBlastError :=
  match flag_given [("--auth-token", given (ci_auth_token c)); ("--auth-apikey", given (ci_auth_apikey c));
      ("--auth-token-cmd", given (ci_auth_token_cmd c)); ("--auth-token-cmd-timeout", given (ci_auth_token_cmd_timeout c));
      ("--auth-token-refresh", given (ci_auth_token_refresh c))]%string with
  | Some flag => invalid_auth (flag +:+ " cannot be used with --auth-type " +:+ kind)
  | None => Ok tt
  end.

(** The credential of [--auth-token-cmd]. *)
Definition command_credential (c : Cli) (command : string) : result Credential WsBlastError :=
  if decide (trim command = ""%string) then invalid_auth "--auth-token-cmd requires a non-empty command"
  else
    let? timeout := match ci_auth_token_cmd_timeout c with Some t => parse_human_duration t | None => Ok DEFAULT_TOKEN_CMD_TIMEOUT end in
    if timeout =? 0 then invalid_auth "--auth-token-cmd-timeout must be greater than zero"
    else
      let? refresh := optional parse_human_duration (ci_auth_token_refresh c) in
      if bool_decide (refresh = Some 0) then invalid_auth "--auth-token-refresh must be greater than zero"
      else Ok (CredCommand (mkTokenCommand command timeout refresh)).
(** The credential of [--auth-token] or [--auth-apikey]. *)
Definition value_credential (c : Cli) (scheme : AuthScheme) (value : option string) (flag : string) : result Credential WsBlastError :=
  match flag_given [("--auth-token-cmd-timeout", given (ci_auth_token_cmd_timeout c)); ("--auth-token-refresh", given (ci_auth_token_refresh c))]%string with
  | Some flag => invalid_auth (flag +:+ " requires --auth-token-cmd")
  | None =>
      match non_empty value with
      | Some value => Ok (CredValue value)
      | None => invalid_auth ("--auth-type " +:+ (match scheme with StaticScheme => "static" | ApiKeyScheme => "apikey" end) +:+
                  " requires a non-empty " +:+ flag +:+ " or --auth-token-cmd")
      end
  end.
Definition token_credential (c : Cli) (scheme : AuthScheme) (header : string) (value : option string) (flag : string)
  : result (option AuthConfig) WsBlastError :=
  let? credential := match ci_auth_token_cmd c with
    | Some command => command_credential c command
    | None => value_credential c scheme value flag
    end in
  Ok (Some (mkAuthConfig scheme header credential)).

Definition auth_from_cli (env : CliEnv) (c : Cli) : result (option AuthConfig) WsBlastError :=
  let? _ := match jwt_flag_given c with
    | Some flag => if decide (ci_auth_type c = AuthJwt) then Ok tt else invalid_auth (flag +:+ " requires --auth-type jwt")
    | None => Ok tt
    end in
  let? _ := match oauth2_flag_given c with
    | Some flag => if decide (ci_auth_type c = AuthOAuth2) then Ok tt else invalid_auth (flag +:+ " requires --auth-type oauth2")
    | None => Ok tt
    end in
  match ci_auth_type c with
  | AuthNone =>
      if given (ci_auth_token c) || given (ci_auth_apikey c) || given (ci_auth_token_cmd c)
      then invalid_auth "authentication options require an explicit --auth-type" else Ok None
  | AuthStatic => token_credential c StaticScheme (ci_auth_header c) (ci_auth_token c) "--auth-token"
  | AuthApiKey => token_credential c ApiKeyScheme (ci_auth_apikey_header c) (ci_auth_apikey c) "--auth-apikey"
  | AuthJwt =>
      let? _ := reject_token_options c "jwt" in
      let? config := jwt_from_cli (ce_jwt_key_file env) c in
      Ok (Some (mkAuthConfig StaticScheme (ci_auth_header c) (CredJwt config)))
  | AuthOAuth2 =>
      let? _ := reject_token_options c "oauth2" in
      let? config := oauth2_from_cli (ce_client_secret env) (ce_text env) c in
      Ok (Some (mkAuthConfig StaticScheme (ci_auth_header c) (CredOAuth2 config)))
  end.

(** ** The settings *)

Definition parse_header_pair (header : string) : result (HeaderName * HeaderValue) WsBlastError :=
  match split_once ":" header with
  | None => fail (InvalidHeader header)
  | Some (name, value) =>
      match header_name (trim name), header_value (trim value) with
      | None, _ => fail (InvalidHeader ("Invalid header name '" +:+ name +:+ "'"))
      | Some _, None => fail (InvalidHeader ("Invalid header value '" +:+ value +:+ "'"))
      | Some name, Some value => Ok (name, value)
      end
  end.
(** The [-H] flags, in order. *)
Definition headers_from_cli (headers : list string) : result HeaderMap WsBlastError :=
  let? pairs := result_collect parse_header_pair headers in
  Ok (fold_left (fun m e => map_append e.1 e.2 m) pairs map_new).

Definition parse_graphql_json_object (flag : string) (raw : option string) : result (option (Value JN)) WsBlastError :=
  match raw with
  | None => Ok None
  | Some raw =>
      match from_str raw with
      | Err e => fail (InvalidOption (flag +:+ " must contain valid JSON: " +:+ e))
      | Ok value => if is_object value then Ok (Some value) else fail (InvalidOption (flag +:+ " must contain a JSON object"))
      end
  end.
Definition build_graphql_config (c : Cli) : result (option (GraphQLWSConfig JN)) WsBlastError :=
  if negb (bool_decide (ci_mode c = GraphQLWS)) then
    if given (ci_graphql_ws_operation c) || given (ci_graphql_ws_operation_name c) || given (ci_graphql_ws_variables c) || given (ci_graphql_ws_extensions c)
    then fail (UnsupportedOption "GraphQL WS options require --mode graphql-ws") else Ok None
  else
    match (operation ← ci_graphql_ws_operation c; if decide (trim operation = ""%string) then None else Some operation) with
    | None => fail (InvalidOption "--mode graphql-ws requires --graphql-ws-operation <QUERY>")
    | Some operation =>
        let? variables := parse_graphql_json_object "--graphql-ws-variables" (ci_graphql_ws_variables c) in
        let? extensions := parse_graphql_json_object "--graphql-ws-extensions" (ci_graphql_ws_extensions c) in
        Ok (Some (mkGraphQLWSConfig (ci_graphql_ws_operation_name c) operation variables extensions))
    end.

Definition payload_from_cli (env : CliEnv) (c : Cli) : result PayloadConfig WsBlastError :=
  match ci_payload_file c with
  | Some path =>
      match ce_bytes env path with
      | Err e => fail (PayloadFile path e)
      | Ok bytes =>
          if ci_binary c then Ok (BinaryPayload bytes)
          else match from_utf8 bytes with
               | Some text => Ok (from_text text)
               | None => fail (PayloadFile path (ce_utf8_error env bytes))
               end
      end
  | None =>
      Ok (match ci_payload c with
          | Some text => if ci_binary c then BinaryPayload (bytes_of_string text) else from_text text
          | None => if ci_binary c then BinaryPayload DEFAULT_BINARY_PAYLOAD else from_text DEFAULT_TEXT_PAYLOAD
          end)
  end.

Definition slo_from_cli (c : Cli) : result SloThresholds WsBlastError :=
  let? p50 := optional parse_human_duration (ci_max_p50 c) in
  let? p95 := optional parse_human_duration (ci_max_p95 c) in
  let? p99 := optional parse_human_duration (ci_max_p99 c) in
  let? p999 := optional parse_human_duration (ci_max_p999 c) in
  let? lag := optional parse_human_duration (ci_max_generator_lag c) in
  Ok (mkSloThresholds p50 p95 p99 p999 (ci_max_error_rate c) (ci_min_throughput c) lag).

Definition arrivals_from_cli (c : Cli) : result (option Arrivals) WsBlastError :=
  match ci_arrival_rate c, ci_session_duration c with
  | Some rate, Some session => let? session := parse_human_duration session in Ok (Some (mkArrivals rate session (ci_max_connections c)))
  | _, _ => Ok None
  end.

Definition chaos_from_cli (c : Cli) : result (option ChaosConfig) WsBlastError :=
  let? delay := optional parse_delay (ci_chaos_delay c) in
  let? pause := optional parse_delay (ci_chaos_read_pause c) in
  let (delay, jitter) := default (0, 0) delay in
  let (read_pause, read_jitter) := default (0, 0) pause in
  Ok (Some (mkChaosConfig delay jitter (default f64_zero (ci_chaos_drop c)) (default f64_zero (ci_chaos_corrupt c))
    (default f64_zero (ci_chaos_close c)) (ci_chaos_close_mode c) read_pause read_jitter (ci_chaos_seed c))).

(** The configuration with what only the command line has. *)
Record CliConfig := mkCliConfig {
  cc_run : RunConfig;
  cc_output_path : option string;
  cc_tui : bool;
  cc_auth : option AuthConfig;
}.

(** The builder's settings, of flags already read. *)
Definition cli_builder (c : Cli) (target : string) (durations : Z * Z * Z * Z) (rule : ReplyMatch) (graphql : option (GraphQLWSConfig JN))
    (payload : PayloadConfig) (headers : HeaderMap) (slo : SloThresholds) (stages : list Stage) (arrivals : option Arrivals)
    (chaos : option ChaosConfig) : LoadTestConfigBuilder :=
  let '(duration, connect_timeout, message_timeout, ping_interval) := durations in
  mkBuilder target (mkLoad (ci_connections c) (ci_ramp_rate c) duration stages arrivals (ci_requests c)) (ci_rate c) payload headers None
    (DataPath <$> ci_data c) (ci_subprotocol c) (ci_source_ip c) (ci_compression c) (ci_mode c) connect_timeout message_timeout ping_interval
    (match graphql with
     | Some g => mkGraphQLOptions (Some (gc_operation g)) (gc_operation_name g) (gc_variables g) (gc_extensions g)
     | None => mkGraphQLOptions None None None None
     end)
    (mkSocketIoOptions (ci_sio_event c) (ci_sio_namespace c) (ci_sio_auth c) (ci_sio_version c)) slo (ci_format c)
    (negb (ci_no_progress c)) (negb (ci_no_reconnect c)) rule (ci_expect c) (ci_capture c) (ci_capture_limit c) chaos.

Definition no_target {A} : result A WsBlastError :=
  fail (InvalidUrl "" "No target URL provided. Specify target as argument or --url <URL>").
Definition read_durations (c : Cli) : result (Z * Z * Z * Z) WsBlastError :=
  let? duration := parse_human_duration (ci_duration c) in
  let? connect_timeout := parse_human_duration (ci_connect_timeout c) in
  let? message_timeout := parse_human_duration (ci_message_timeout c) in
  let? ping_interval := parse_human_duration (ci_ping_interval c) in
  Ok (duration, connect_timeout, message_timeout, ping_interval).
Definition read_reply_match (c : Cli) : result ReplyMatch WsBlastError :=
  result_map_err ConfigFailure (ReplyMatch_from_str (ci_reply_match c)).
Definition stages_from_cli (c : Cli) : result (list Stage) WsBlastError :=
  let? stages := optional parse_list (ci_stages c) in Ok (default [] stages).

(** [from_cli_with_target] up to [build], with the checks that [build]
    repeats, in the order of the flags. *)
Definition settings_from_cli (env : CliEnv) (c : Cli) (target_override : option string) : result LoadTestConfigBuilder WsBlastError :=
  let? target := match (match target_override with Some t => Some t | None => resolve_url c end) with Some t => Ok t | None => no_target end in
  let? _ := parse_target_url target in
  let? _ := validate_connections (ci_connections c) in
  let? _ := validate_max_requests (ci_requests c) in
  let? durations := read_durations c in
  let? rule := read_reply_match c in
  let? graphql := build_graphql_config c in
  let? payload := payload_from_cli env c in
  let? _ := validate_reply_match rule (ci_mode c) [payload] in
  let? headers := headers_from_cli (ci_headers c) in
  let? slo := slo_from_cli c in
  let? stages := stages_from_cli c in
  let? arrivals := arrivals_from_cli c in
  let? chaos := chaos_from_cli c in
  Ok (cli_builder c target durations rule graphql payload headers slo stages arrivals chaos).
Definition from_cli_with_target (env : CliEnv) (c : Cli) (target_override : option string) : option (result CliConfig WsBlastError) :=
  match settings_from_cli env c target_override with
  | Err e => Some (Err e)
  | Ok b =>
      run ← build_config (ce_build env) b;
      Some (let? run := run in
            let? auth := auth_from_cli env c in
            Ok (mkCliConfig run (ci_output_file c) (ci_tui c) auth))
  end.
Definition from_cli (env : CliEnv) (c : Cli) : option (result CliConfig WsBlastError) := from_cli_with_target env c None.

(** ** A scenario's phase over the flags *)

(** The phase's sizing and payload. *)
Definition set_phase (p : CompiledPhase) (c : CliConfig) : CliConfig :=
  let run := cc_run c in
  let load := rc_load run in
  mkCliConfig (run <| rc_load := mkLoad (cp_connections p) (cp_ramp_rate p) (cp_duration p) (ld_stages load) (cp_arrivals p) (ld_max_requests load) |>
                   <| rc_rate_per_conn := cp_rate_per_conn p |>
                   <| rc_payload := default (rc_payload run) (cp_payload p) |>) (cc_output_path c) (cc_tui c) (cc_auth c).
Definition with_scenario_data (scenario : ScenarioConfig JN) (c : Cli) : Cli :=
  c <| ci_data := match ci_data c with Some data => Some data | None => yn_data scenario end |>.
Definition from_scenario_config (env : CliEnv) (scenario : ScenarioConfig JN) (c : Cli) : option (result CliConfig WsBlastError) :=
  if given (ci_stages c)
  then Some (fail (UnsupportedOption "--stages cannot be used with --scenario; give each scenario phase its own connections and ramp_rate, or its own stages"))
  else
    match selected_phase scenario (ci_phase c) with
    | Err e => Some (Err e)
    | Ok selected =>
        phase ← compile_phase selected;
        match (let? phase := phase in
               let? targets := resolve_phase_targets scenario (resolve_url c) (ci_phase c) in Ok (phase, url_text <$> head targets)) with
        | Err e => Some (Err e)
        | Ok (phase, target) =>
            config ← from_cli_with_target env (with_scenario_data scenario c) target;
            match config with
            | Err e => Some (Err e)
            | Ok config =>
                slo ← validate_slo_mode scenario (rc_mode (cc_run config)) (ci_phase c);
                match slo with
                | Err e => Some (Err e)
                | Ok _ =>
                    let config := set_phase phase config in
                    phases ← compile scenario (ci_phase c);
                    Some (let? phases := phases in
                          let? _ := validate_phases phases (cc_run config) in
                          Ok config)
                end
            end
        end
    end.

(** ** The credential of the run *)






End FromCli.

(** ** The request of a handshake (src/src/worker.rs) *)

(** [HeaderMap::extend] with another map, and the two names the worker sets
    itself. *)
Class RequestHttp `{Libs} := {
  map_extend : HeaderMap -> HeaderMap -> HeaderMap;
  SEC_WEBSOCKET_EXTENSIONS : HeaderName;
  SEC_WEBSOCKET_PROTOCOL : HeaderName;
}.
(** A name of the added map replaces the other's values of that name; an
    appended value comes after the ones a name has. *)
Class RequestLaws `{RequestHttp} := {
  get_all_extend : forall n m base, map_get_all n (map_extend m base) =
    match map_get_all n m with [] => map_get_all n base | values => values end;
  get_all_appended : forall n n' v m, map_get_all n (map_append n' v m) = map_get_all n m ++ (if decide (n' = n) then [v] else []);
}.

Section Request.
Context `{Hlibs : Libs, !AuthHttp, !RequestHttp}.

End Request.

(** ** One validation path *)

Section OnePath.
Context `{Hlibs : Libs, !Formatter, !Ring, !JsonU64, !AuthHttp, !FormUrl}.

(** The flags read into the builder's settings, with no check of their own. *)
Definition read_json (flag : string) (raw : option string) : result (option (Value JN)) WsBlastError :=
  match raw with
  | None => Ok None
  | Some raw => match from_str raw with Ok value => Ok (Some value) | Err e => fail (InvalidOption (flag +:+ " must contain valid JSON: " +:+ e)) end
  end.
Definition read_graphql (c : Cli) : result GraphQLOptions WsBlastError :=
  let? variables := read_json "--graphql-ws-variables" (ci_graphql_ws_variables c) in
  let? extensions := read_json "--graphql-ws-extensions" (ci_graphql_ws_extensions c) in
  Ok (mkGraphQLOptions (ci_graphql_ws_operation c) (ci_graphql_ws_operation_name c) variables extensions).
Definition read_flags (env : CliEnv) (c : Cli) (target : string) : result LoadTestConfigBuilder WsBlastError :=
  let? durations := read_durations c in
  let? rule := read_reply_match c in
  let? graphql := read_graphql c in
  let? payload := payload_from_cli env c in
  let? headers := headers_from_cli (ci_headers c) in
  let? slo := slo_from_cli c in
  let? stages := stages_from_cli c in
  let? arrivals := arrivals_from_cli c in
  let? chaos := chaos_from_cli c in
  Ok ((cli_builder c target durations rule None payload headers slo stages arrivals chaos) <| lb_graphql := graphql |>).

Definition graphql_options (g : option (GraphQLWSConfig JN)) : GraphQLOptions :=
  match g with
  | Some g => mkGraphQLOptions (Some (gc_operation g)) (gc_operation_name g) (gc_variables g) (gc_extensions g)
  | None => mkGraphQLOptions None None None None
  end.

Lemma read_json_object flag raw v : parse_graphql_json_object flag raw = Ok v -> read_json flag raw = Ok v.
Proof. unfold parse_graphql_json_object, read_json. destruct raw; [|done]. destruct (from_str _); [|done]. by destruct (is_object _). Qed.
Lemma read_json_checked flag raw v : read_json flag raw = Ok v -> (forall x, v = Some x -> is_object x = true) -> parse_graphql_json_object flag raw = Ok v.
Proof.
  unfold parse_graphql_json_object, read_json. destruct raw; [|done]. destruct (from_str _); [|done]. intros [= <-] Hx. by rewrite (Hx _ eq_refl).
Qed.
Lemma read_json_None flag raw : read_json flag raw = Ok None -> raw = None.
Proof. unfold read_json. destruct raw; [|done]. by destruct (from_str _). Qed.

(** The flags of GraphQL that the command line accepts are the ones given. *)
Lemma graphql_accepted c g : build_graphql_config c = Ok g -> read_graphql c = Ok (graphql_options g).
Proof.
  unfold build_graphql_config, read_graphql, given. case_bool_decide; cbn [negb].
  - destruct (ci_graphql_ws_operation c) as [operation|]; cbn [mbind option_bind]; [|done]. case_decide; [done|].
    intros (v & Hv & Hr)%result_bind_Ok. apply result_bind_Ok in Hr as (e & He & [= <-]).
    by rewrite (read_json_object _ _ _ Hv), (read_json_object _ _ _ He).
  - destruct (ci_graphql_ws_operation c), (ci_graphql_ws_operation_name c), (ci_graphql_ws_variables c), (ci_graphql_ws_extensions c); try done.
    by intros [= <-].
Qed.

(** And the builder accepts only what the command line does. *)
Lemma graphql_checked c options r : read_graphql c = Ok options -> validate_graphql (ci_mode c) options = Ok r ->
  build_graphql_config c = Ok r /\ options = graphql_options r.
Proof.
  unfold read_graphql. intros (v & Hv & Hr)%result_bind_Ok. apply result_bind_Ok in Hr as (e & He & [= <-]).
  unfold validate_graphql, build_graphql_config. case_bool_decide; cbn [negb].
  - cbn [go_operation go_operation_name go_variables go_extensions]. destruct (ci_graphql_ws_operation c) as [operation|]; cbn [mbind option_bind]; [|done].
    case_decide; [done|]. intros ([] & Ho & [= <-])%result_bind_Ok. apply check_objects_Ok in Ho as [Hov Hoe].
    rewrite (read_json_checked _ _ _ Hv) by done. rewrite (read_json_checked _ _ _ He) by done. done.
  - unfold has_graphql_options, given. cbn [go_operation go_operation_name go_variables go_extensions].
    destruct (ci_graphql_ws_operation c), (ci_graphql_ws_operation_name c), v, e; try done. intros [= <-].
    apply read_json_None in Hv as ->. by apply read_json_None in He as ->.
Qed.

(** What [build] has checked of the load. *)
Lemma build_load_checked l0 l : build_load display_f64 l0 = Some (Ok l) ->
  validate_max_requests (ld_max_requests l0) = Ok tt /\ (ld_stages l0 = [] -> ld_arrivals l0 = None -> validate_connections (ld_connections l0) = Ok tt).
Proof.
  unfold build_load. destruct (ld_arrivals l0) as [a|].
  - destruct (Arrivals_validate _ _ _ _) as [[]|]; cbn [result_bind]; [|done]. cbn [ld_stages ld_ramp_rate set_field].
    intros Hb. split; [|done]. cbn in Hb. destruct (ld_stages l0) as [|st sts]; cbn in Hb.
    + injection Hb as Hb. apply result_bind_Ok in Hb as ([] & _ & Hb). by apply result_bind_Ok in Hb as ([] & Hm & _).
    + destruct (validate_stages _ _) as [[]|]; [|done]. destruct (duration_sum _); [|done]. cbn in Hb. injection Hb as Hb.
      apply result_bind_Ok in Hb as ([] & _ & Hb). by apply result_bind_Ok in Hb as ([] & Hm & _).
  - intros Hb. destruct (ld_stages l0) as [|st sts]; cbn in Hb.
    + injection Hb as Hb. apply result_bind_Ok in Hb as ([] & Hc & Hb). by apply result_bind_Ok in Hb as ([] & Hm & _).
    + split; [|done]. destruct (validate_stages _ _) as [[]|]; [|done]. destruct (duration_sum _); [|done]. cbn in Hb. injection Hb as Hb.
      apply result_bind_Ok in Hb as ([] & _ & Hb). by apply result_bind_Ok in Hb as ([] & Hm & _).
Qed.

Lemma settings_read env c target_override b : settings_from_cli env c target_override = Ok b ->
  exists target, option_or target_override (resolve_url c) = Some target /\ read_flags env c target = Ok b.
Proof.
  unfold settings_from_cli. intros (target & Ht & Hr)%result_bind_Ok. exists target. split.
  { unfold option_or. destruct target_override as [t|]; [by injection Ht as <-|]. destruct (resolve_url c); [by injection Ht as <-|done]. }
  do 3 (apply result_bind_Ok in Hr as (? & _ & Hr)). unfold read_flags.
  apply result_bind_Ok in Hr as (durations & -> & Hr). apply result_bind_Ok in Hr as (rule & -> & Hr). cbn [result_bind].
  apply result_bind_Ok in Hr as (g & Hg & Hr). rewrite (graphql_accepted _ _ Hg). apply result_bind_Ok in Hr as (payload & -> & Hr). cbn [result_bind].
  apply result_bind_Ok in Hr as (? & _ & Hr). apply result_bind_Ok in Hr as (headers & -> & Hr). apply result_bind_Ok in Hr as (slo & -> & Hr). cbn [result_bind].
  apply result_bind_Ok in Hr as (stages & -> & Hr). apply result_bind_Ok in Hr as (arrivals & -> & Hr).
  apply result_bind_Ok in Hr as (chaos & -> & [= <-]). cbn [result_bind]. destruct durations as [[[duration connect] message] ping]. by destruct g.
Qed.

(** *** What each flag sets

    Stated field by field, without the functions that read the flags. *)

(** A flag that is read with [f], when it is given. *)
Definition flag_read {A B E} (f : A -> result B E) (flag : option A) (value : option B) : Prop :=
  match flag, value with
  | Some text, Some v => f text = Ok v
  | None, None => True
  | _, _ => False
  end.
Lemma flag_read_Ok {A B E} (f : A -> result B E) flag value : optional f flag = Ok value <-> flag_read f flag value.
Proof.
  unfold optional, flag_read. destruct flag as [text|].
  - destruct (f text) as [v|e]; cbn; destruct value as [v'|]; split; try done; intros [=]; by subst.
  - by destruct value.
Qed.

Definition default_text (c : Cli) : string := default DEFAULT_TEXT_PAYLOAD (ci_payload c).
(** [--payload-file], [--payload] and [--binary]. *)
Definition payload_read (env : CliEnv) (c : Cli) (payload : PayloadConfig) : Prop :=
  match ci_payload_file c with
  | Some path => exists bytes, ce_bytes env path = Ok bytes /\
      if ci_binary c then payload = BinaryPayload bytes
      else exists text, from_utf8 bytes = Some text /\ payload = from_text text
  | None =>
      if ci_binary c
      then payload = BinaryPayload (match ci_payload c with Some text => bytes_of_string text | None => bytes_of_string "wsblast-payload" end)
      else payload = from_text (default_text c)
  end.
(** One [-H] flag. *)
Definition header_read (flag : string) (e : HeaderName * HeaderValue) : Prop :=
  exists name value, split_once ":" flag = Some (name, value) /\ header_name (trim name) = Some e.1 /\ header_value (trim value) = Some e.2.
Record thresholds_read (c : Cli) (slo : SloThresholds) : Prop := {
  tr_p50 : flag_read parse_human_duration (ci_max_p50 c) (max_p50 slo);
  tr_p95 : flag_read parse_human_duration (ci_max_p95 c) (max_p95 slo);
  tr_p99 : flag_read parse_human_duration (ci_max_p99 c) (max_p99 slo);
  tr_p999 : flag_read parse_human_duration (ci_max_p999 c) (max_p999 slo);
  tr_error_rate : max_error_rate slo = ci_max_error_rate c;
  tr_throughput : min_throughput slo = ci_min_throughput c;
  tr_lag : flag_read parse_human_duration (ci_max_generator_lag c) (max_generator_lag slo);
}.
Record faults_read (c : Cli) (chaos : ChaosConfig) : Prop := {
  cr_delay : match ci_chaos_delay c with
             | Some raw => parse_delay raw = Ok (cx_delay chaos, cx_jitter chaos)
             | None => cx_delay chaos = 0 /\ cx_jitter chaos = 0 end;
  cr_pause : match ci_chaos_read_pause c with
             | Some raw => parse_delay raw = Ok (cx_read_pause chaos, cx_read_jitter chaos)
             | None => cx_read_pause chaos = 0 /\ cx_read_jitter chaos = 0 end;
  cr_drop : cx_drop_percent chaos = default f64_zero (ci_chaos_drop c);
  cr_corrupt : cx_corrupt_percent chaos = default f64_zero (ci_chaos_corrupt c);
  cr_close : cx_close_percent chaos = default f64_zero (ci_chaos_close c);
  cr_mode : cx_close_mode chaos = ci_chaos_close_mode c;
  cr_seed : cx_seed chaos = ci_chaos_seed c;
}.
(** The arrival flags; [clap] asks for both or none. *)
Definition arrivals_read (c : Cli) (arrivals : option Arrivals) : Prop :=
  match ci_arrival_rate c, ci_session_duration c with
  | Some rate, Some session => exists d, parse_human_duration session = Ok d /\ arrivals = Some (mkArrivals rate d (ci_max_connections c))
  | _, _ => arrivals = None
  end.
Record load_read (c : Cli) (l : Load) : Prop := {
  lr_connections : ld_connections l = ci_connections c;
  lr_ramp_rate : ld_ramp_rate l = ci_ramp_rate c;
  lr_duration : parse_human_duration (ci_duration c) = Ok (ld_duration l);
  lr_stages : match ci_stages c with Some spec => parse_list spec = Ok (ld_stages l) | None => ld_stages l = [] end;
  lr_arrivals : arrivals_read c (ld_arrivals l);
  lr_requests : ld_max_requests l = ci_requests c;
}.
Record graphql_read (c : Cli) (g : GraphQLOptions) : Prop := {
  gr_operation : go_operation g = ci_graphql_ws_operation c;
  gr_name : go_operation_name g = ci_graphql_ws_operation_name c;
  gr_variables : flag_read from_str (ci_graphql_ws_variables c) (go_variables g);
  gr_extensions : flag_read from_str (ci_graphql_ws_extensions c) (go_extensions g);
}.
Record flags_read (env : CliEnv) (c : Cli) (target : string) (b : LoadTestConfigBuilder) : Prop := {
  fr_target : lb_target b = target;
  fr_load : load_read c (lb_load b);
  fr_rate : lb_rate_per_conn b = ci_rate c;
  fr_payload : payload_read env c (lb_payload b);
  fr_headers : exists entries, Forall2 header_read (ci_headers c) entries /\
    lb_headers b = fold_left (fun m e => map_append e.1 e.2 m) entries map_new;
  fr_invalid_header : lb_invalid_header b = None;
  fr_data : lb_data b = DataPath <$> ci_data c;
  fr_subprotocol : lb_subprotocol b = ci_subprotocol c;
  fr_source_ips : lb_source_ips b = ci_source_ip c;
  fr_compression : lb_compression b = ci_compression c;
  fr_mode : lb_mode b = ci_mode c;
  fr_connect_timeout : parse_human_duration (ci_connect_timeout c) = Ok (lb_connect_timeout b);
  fr_message_timeout : parse_human_duration (ci_message_timeout c) = Ok (lb_message_timeout b);
  fr_ping_interval : parse_human_duration (ci_ping_interval c) = Ok (lb_ping_interval b);
  fr_graphql : graphql_read c (lb_graphql b);
  fr_socketio : lb_socketio b = mkSocketIoOptions (ci_sio_event c) (ci_sio_namespace c) (ci_sio_auth c) (ci_sio_version c);
  fr_slo : thresholds_read c (lb_slo b);
  fr_format : lb_output_format b = ci_format c;
  fr_progress : lb_progress b = negb (ci_no_progress c);
  fr_reconnect : lb_reconnect b = negb (ci_no_reconnect c);
  fr_reply_match : ReplyMatch_from_str (ci_reply_match c) = Ok (lb_reply_match b);
  fr_expect : lb_expect b = ci_expect c;
  fr_capture : lb_capture b = ci_capture c;
  fr_capture_limit : lb_capture_limit b = ci_capture_limit c;
  fr_chaos : exists chaos, lb_chaos b = Some chaos /\ faults_read c chaos;
}.

Lemma payload_read_Ok env c p : payload_from_cli env c = Ok p <-> payload_read env c p.
Proof.
  unfold payload_from_cli, payload_read, default_text. destruct (ci_payload_file c) as [path|].
  - destruct (ce_bytes env path) as [bytes|e]; [|split; [done|by intros (? & ? & _)]].
    destruct (ci_binary c); [split; [intros [= <-]; by exists bytes|by intros (? & [= <-] & ->)]|].
    destruct (from_utf8 bytes) as [text|] eqn:E.
    + split; [intros [= <-]; exists bytes; split; [done|by exists text]|by intros (? & [= <-] & t & Ht & ->); simplify_eq].
    + split; [done|intros (? & [= <-] & t & Ht & _); congruence].
  - destruct (ci_payload c), (ci_binary c); cbn; split; try (by intros [= <-]); by intros ->.
Qed.
Lemma thresholds_read_Ok c slo : slo_from_cli c = Ok slo <-> thresholds_read c slo.
Proof.
  unfold slo_from_cli. split.
  - intros (p50 & F1 & Hr)%result_bind_Ok. apply result_bind_Ok in Hr as (p95 & F2 & Hr). apply result_bind_Ok in Hr as (p99 & F3 & Hr).
    apply result_bind_Ok in Hr as (p999 & F4 & Hr). apply result_bind_Ok in Hr as (lag & F5 & [= <-]). by split; cbn; try apply flag_read_Ok.
  - intros [F1 F2 F3 F4 F5 F6 F7]. apply flag_read_Ok in F1, F2, F3, F4, F7. rewrite F1, F2, F3, F4, F7. cbn. rewrite <-F5, <-F6. by destruct slo.
Qed.
Lemma headers_read_Ok flags m : headers_from_cli flags = Ok m <->
  exists entries, Forall2 header_read flags entries /\ m = fold_left (fun m e => map_append e.1 e.2 m) entries map_new.
Proof.
  unfold headers_from_cli. rewrite result_bind_Ok.
  assert (forall es, result_collect parse_header_pair flags = Ok es <-> Forall2 header_read flags es) as Hes.
  { intros es. rewrite result_collect_Ok. enough (forall flag e, parse_header_pair flag = Ok e <-> header_read flag e) as He
      by (split; intros Hf; (eapply Forall2_impl; [exact Hf|]); intros flag e; apply He).
    intros flag [n v]. unfold parse_header_pair, header_read.
    destruct (split_once _ _) as [[name value]|]; [|split; [done|by intros (? & ? & ? & _)]].
    destruct (header_name (trim name)) as [n'|] eqn:En, (header_value (trim value)) as [v'|] eqn:Ev; split; try done;
      try (intros (? & ? & [= <- <-] & ? & ?); cbn in *; congruence). intros [= <- <-]. by eexists _, _. }
  split; [intros (es & He & [= <-])|intros (es & He & ->)]; exists es; (split; [by apply Hes|done]).
Qed.
Lemma faults_read_Ok c r : chaos_from_cli c = Ok r <-> exists chaos, r = Some chaos /\ faults_read c chaos.
Proof.
  unfold chaos_from_cli, optional. split.
  - intros (delay & Hd & Hr)%result_bind_Ok. apply result_bind_Ok in Hr as (pause & Hp & Hr).
    destruct (ci_chaos_delay c) as [raw|] eqn:Ed; [apply result_bind_Ok in Hd as ([d j] & Hd & [= <-])|injection Hd as <-];
    (destruct (ci_chaos_read_pause c) as [raw'|] eqn:Ep; [apply result_bind_Ok in Hp as ([d' j'] & Hp & [= <-])|injection Hp as <-]);
    cbn in Hr; injection Hr as <-; eexists; (split; [done|]); split; cbn; rewrite ?Ed, ?Ep; done.
  - intros (chaos & -> & [F1 F2 F3 F4 F5 F6 F7]).
    destruct (ci_chaos_delay c) as [raw|], (ci_chaos_read_pause c) as [raw'|]; rewrite ?F1, ?F2; cbn; rewrite <-F3, <-F4, <-F5, <-F6, <-F7;
      destruct chaos; cbn in *; by destruct_and?; subst.
Qed.
Lemma arrivals_read_Ok c r : arrivals_from_cli c = Ok r <-> arrivals_read c r.
Proof.
  unfold arrivals_from_cli, arrivals_read. destruct (ci_arrival_rate c), (ci_session_duration c) as [text|]; try (split; [by intros [= <-]|by intros ->]).
  rewrite result_bind_Ok. split; intros (d & Hd & Hr); exists d; (split; [done|]); [by injection Hr as <-|by rewrite Hr].
Qed.
Lemma stages_read_Ok c r : stages_from_cli c = Ok r <-> match ci_stages c with Some spec => parse_list spec = Ok r | None => r = [] end.
Proof.
  unfold stages_from_cli, optional. destruct (ci_stages c) as [spec|]; cbn; [|split; [by intros [= <-]|by intros ->]].
  destruct (parse_list spec) as [r'|]; cbn; [|done]. split; intros [=]; by subst.
Qed.
Lemma json_read_Ok flag raw v : read_json flag raw = Ok v <-> flag_read from_str raw v.
Proof.
  unfold read_json, flag_read. destruct raw as [raw|]; [|by destruct v; split; try done; intros [=]].
  destruct (from_str raw) as [x|]; destruct v; split; try done; intros [=]; by subst.
Qed.
Lemma graphql_read_Ok c g : read_graphql c = Ok g <-> graphql_read c g.
Proof.
  unfold read_graphql. split.
  - intros (v & Hv & Hr)%result_bind_Ok. apply result_bind_Ok in Hr as (e & He & [= <-]). by split; cbn; try eapply json_read_Ok.
  - intros [F1 F2 F3 F4]. rewrite (proj2 (json_read_Ok _ _ _) F3). cbn. rewrite (proj2 (json_read_Ok _ _ _) F4). cbn.
    rewrite <-F1, <-F2. by destruct g.
Qed.

Lemma read_flags_Ok env c target b : read_flags env c target = Ok b <-> flags_read env c target b.
Proof.
  unfold read_flags, read_durations, read_reply_match. split.
  - intros (durations & Hd & Hr)%result_bind_Ok. apply result_bind_Ok in Hr as (rule & Hrule%result_map_err_Ok & Hr).
    apply result_bind_Ok in Hr as (options & Hg%graphql_read_Ok & Hr). apply result_bind_Ok in Hr as (payload & Hp%payload_read_Ok & Hr).
    apply result_bind_Ok in Hr as (headers & Hh%headers_read_Ok & Hr). apply result_bind_Ok in Hr as (slo & Hslo%thresholds_read_Ok & Hr).
    apply result_bind_Ok in Hr as (stages & Hst%stages_read_Ok & Hr). apply result_bind_Ok in Hr as (arrivals & Harr%arrivals_read_Ok & Hr).
    apply result_bind_Ok in Hr as (chaos & Hch%faults_read_Ok & [= <-]).
    apply result_bind_Ok in Hd as (duration & F1 & Hd). apply result_bind_Ok in Hd as (connect & F2 & Hd).
    apply result_bind_Ok in Hd as (message & F3 & Hd). apply result_bind_Ok in Hd as (ping & F4 & [= <-]). by split.
  - intros []. destruct fr_load0. rewrite lr_duration0, fr_connect_timeout0, fr_message_timeout0, fr_ping_interval0, fr_reply_match0.
    cbn [result_bind result_map_err]. rewrite (proj2 (graphql_read_Ok _ _) fr_graphql0), (proj2 (payload_read_Ok _ _ _) fr_payload0).
    cbn [result_bind]. rewrite (proj2 (headers_read_Ok _ _) fr_headers0), (proj2 (thresholds_read_Ok _ _) fr_slo0). cbn [result_bind].
    rewrite (proj2 (stages_read_Ok _ _) lr_stages0), (proj2 (arrivals_read_Ok _ _) lr_arrivals0), (proj2 (faults_read_Ok _ _) fr_chaos0).
    cbn. f_equal. destruct b as [? [] ? ? ? ? ? ? ? ? ? ? ? ? ? ? ? ? ? ? ? ? ? ? ?]. cbn in *. by subst.
Qed.

(** What the builder makes of flags read as they are is what the command line
    makes of them. *)
Lemma settings_accepted (env : CliEnv) (c : Cli) (target_override : option string) target b (run : RunConfig)
    (Hclap : given (ci_stages c) || given (ci_arrival_rate c) = true -> ci_connections c <> 0) :
  option_or target_override (resolve_url c) = Some target -> read_flags env c target = Ok b ->
  build_config (ce_build env) b = Some (Ok run) -> settings_from_cli env c target_override = Ok b.
Proof.
  intros Ht Hr Hb. pose proof Hb as (u & load & Hu & Hload & Hbuilt)%build_Ok.
  unfold read_flags in Hr. apply result_bind_Ok in Hr as (durations & Hd & Hr). apply result_bind_Ok in Hr as (rule & Hrule & Hr).
  apply result_bind_Ok in Hr as (options & Hg & Hr). apply result_bind_Ok in Hr as (payload & Hp & Hr).
  apply result_bind_Ok in Hr as (headers & Hh & Hr). apply result_bind_Ok in Hr as (slo & Hslo & Hr).
  apply result_bind_Ok in Hr as (stages & Hst & Hr). apply result_bind_Ok in Hr as (arrivals & Harr & Hr).
  apply result_bind_Ok in Hr as (chaos & Hch & [= <-]). destruct durations as [[[duration connect] message] ping].
  destruct Hbuilt as [_ Hgr _ Hre _ _ _ _ _ _ _ _ _ _]. cbn in Hgr, Hre, Hu. apply build_load_checked in Hload as [Hm Hc]. cbn in Hm, Hc.
  destruct (graphql_checked _ _ _ Hg Hgr) as [Hg' ->].
  unfold settings_from_cli.
  replace (match (match target_override with Some t => Some t | None => resolve_url c end) with Some t => Ok t | None => no_target end)
    with (Ok target : result string WsBlastError) by (unfold option_or in Ht; destruct target_override; [by injection Ht as <-|by rewrite Ht]).
  cbn [result_bind]. rewrite Hu. cbn [result_bind].
  assert (validate_connections (ci_connections c) = Ok tt) as ->.
  { unfold stages_from_cli in Hst. unfold arrivals_from_cli in Harr. destruct (ci_stages c) as [st|] eqn:Es.
    { unfold validate_connections. rewrite (proj2 (Z.eqb_neq _ _)); [done|]. by apply Hclap. }
    destruct (ci_arrival_rate c) as [rate|] eqn:Er.
    { unfold validate_connections. rewrite (proj2 (Z.eqb_neq _ _)); [done|]. by apply Hclap. }
    cbn in Hst. apply Hc; congruence. }
  cbn [result_bind]. rewrite Hm. cbn [result_bind]. rewrite Hd, Hrule, Hg', Hp. cbn [result_bind]. rewrite Hre. cbn [result_bind].
  rewrite Hh, Hslo, Hst, Harr, Hch. cbn [result_bind]. by destruct (rc_graphql_ws run).
Qed.

(** C21. The command line and the library share one validation path.  The
    checks that reading the flags makes before the builder does are only
    there to report the first mistake: a command line is accepted exactly when
    each flag can be read ([flags_read] says which setting each one is), the
    builder accepts the settings as they are, and the flags of the
    authentication are consistent - and then the run is the one the builder
    makes, with the output path, the dashboard and the authentication of the
    flags.  (A run with stages or arrivals never has [-c 0]: clap rejects
    [-c] with them and the default is not zero.) *)
Theorem cli_adds_no_checks (env : CliEnv) (c : Cli) (target_override : option string) (config : CliConfig)
    (Hclap : given (ci_stages c) || given (ci_arrival_rate c) = true -> ci_connections c <> 0) :
  from_cli_with_target env c target_override = Some (Ok config) <->
  exists target b run auth,
    option_or target_override (resolve_url c) = Some target /\ flags_read env c target b /\
    build_config (ce_build env) b = Some (Ok run) /\ auth_from_cli env c = Ok auth /\
    config = mkCliConfig run (ci_output_file c) (ci_tui c) auth.
Proof.
  unfold from_cli_with_target. split.
  - destruct (settings_from_cli env c target_override) as [b|] eqn:Es; [|done].
    destruct (build_config (ce_build env) b) as [r|] eqn:Eb; [|done]. cbn. intros [= Hr].
    apply result_bind_Ok in Hr as (run & -> & Hr). apply result_bind_Ok in Hr as (auth & Ha & [= <-]).
    apply settings_read in Es as (target & Ht & Hf). exists target, b, run, auth. split_and!; try done. by apply read_flags_Ok.
  - intros (target & b & run & auth & Ht & Hf%read_flags_Ok & Hb & Ha & ->).
    rewrite (settings_accepted env c target_override target b run Hclap Ht Hf Hb), Hb. cbn. by rewrite Ha.
Qed.
End OnePath.

(** ** What the flags of the authentication ask for *)

Section AuthFacts.
Context `{Hlibs : Libs, !Formatter, !Ring, !JsonU64, !AuthHttp, !FormUrl}.

Definition credential_ok (a : AuthConfig) : Prop :=
  match ac_credential a with
  | CredValue token => token <> ""%string
  | CredCommand command => trim (tc_command command) <> ""%string /\ 0 < tc_timeout command /\ (forall every, tc_refresh command = Some every -> 0 < every)
  | CredJwt j => MIN_TTL <= jc_ttl j /\ Forall (fun claim => claim_get claim (jc_claims j) = None) REGISTERED /\
      (forall kid, jc_kid j = Some kid -> validate_kid kid = Ok tt)
  | CredOAuth2 o => oc_client_id o <> ""%string /\ oc_client_secret o <> ""%string /\
      (url_scheme (oc_token_url o) = "https"%string \/ (url_scheme (oc_token_url o) = "http"%string /\ url_is_loopback (oc_token_url o) = true))
  end.

(** The credential is of the kind asked for, and the flags of the kinds that
    make their own are given only for them. *)
Definition kind_ok (c : Cli) (r : option AuthConfig) : Prop :=
  (jwt_flag_given c <> None -> ci_auth_type c = AuthJwt) /\ (oauth2_flag_given c <> None -> ci_auth_type c = AuthOAuth2) /\
  match ci_auth_type c with
  | AuthNone => r = None /\ ci_auth_token c = None /\ ci_auth_apikey c = None /\ ci_auth_token_cmd c = None
  | AuthStatic => exists a, r = Some a /\ ac_scheme a = StaticScheme /\ ac_header a = ci_auth_header c /\
      match ci_auth_token_cmd c with
      | Some command => exists t, ac_credential a = CredCommand t /\ tc_command t = command
      | None => exists token, ac_credential a = CredValue token /\ ci_auth_token c = Some token
      end
  | AuthApiKey => exists a, r = Some a /\ ac_scheme a = ApiKeyScheme /\ ac_header a = ci_auth_apikey_header c /\
      match ci_auth_token_cmd c with
      | Some command => exists t, ac_credential a = CredCommand t /\ tc_command t = command
      | None => exists token, ac_credential a = CredValue token /\ ci_auth_apikey c = Some token
      end
  | AuthJwt => exists a j, r = Some a /\ ac_header a = ci_auth_header c /\ ac_credential a = CredJwt j /\
      ci_auth_token c = None /\ ci_auth_apikey c = None /\ ci_auth_token_cmd c = None
  | AuthOAuth2 => exists a o, r = Some a /\ ac_header a = ci_auth_header c /\ ac_credential a = CredOAuth2 o /\
      ci_auth_token c = None /\ ci_auth_apikey c = None /\ ci_auth_token_cmd c = None
  end.

Lemma non_empty_Some o v : non_empty o = Some v -> o = Some v /\ v <> ""%string.
Proof. unfold non_empty. destruct o as [w|]; cbn; [|done]. case_decide; [done|]. by intros [= ->]. Qed.

Lemma reject_token_options_Ok c kind : reject_token_options c kind = Ok tt -> ci_auth_token c = None /\ ci_auth_apikey c = None /\ ci_auth_token_cmd c = None.
Proof.
  unfold reject_token_options, flag_given, given. destruct (ci_auth_token c); [done|]. destruct (ci_auth_apikey c); [done|].
  by destruct (ci_auth_token_cmd c).
Qed.

Lemma jwt_from_cli_ok env c j : jwt_from_cli env c = Ok j -> credential_ok (mkAuthConfig StaticScheme (ci_auth_header c) (CredJwt j)).
Proof.
  unfold jwt_from_cli. intros (file & _ & Hr)%result_bind_Ok. apply result_bind_Ok in Hr as (claims & _ & Hr).
  apply result_bind_Ok in Hr as ([] & Hreg & Hr). apply result_bind_Ok in Hr as (ttl & _ & Hr). apply result_bind_Ok in Hr as ([] & Httl & Hr).
  apply result_bind_Ok in Hr as ([] & Hkid & [= <-]). cbn -[REGISTERED]. split_and!.
  - destruct (Z.ltb_spec ttl MIN_TTL); [done|lia].
  - destruct (list_find _ _) as [[]|] eqn:E; [done|]. apply list_find_None in E. eapply Forall_impl; [exact E|]. cbn. intros claim Hn.
    destruct (claim_get claim claims); [by destruct Hn|done].
  - intros kid Hk. rewrite Hk in Hkid. by apply result_map_err_Ok in Hkid.
Qed.

Lemma oauth2_from_cli_ok env read c o : oauth2_from_cli env read c = Ok o -> credential_ok (mkAuthConfig StaticScheme (ci_auth_header c) (CredOAuth2 o)).
Proof.
  unfold oauth2_from_cli. intros (raw & _ & Hr)%result_bind_Ok. apply result_bind_Ok in Hr as (url & _ & Hr). apply result_bind_Ok in Hr as ([] & Hu & Hr).
  apply result_bind_Ok in Hr as (id & Hid & Hr). apply result_bind_Ok in Hr as (secret & _ & Hr). case_decide; [done|]. injection Hr as <-. cbn.
  split_and!; [|done|].
  - destruct (non_empty _) eqn:E; [|done]. injection Hid as <-. by apply non_empty_Some in E as [_ Hne].
  - destruct (bool_decide_reflect (url_scheme url = "https"%string)); [by left|]. cbn [orb] in Hu.
    destruct (bool_decide_reflect (url_scheme url = "http"%string)); cbn [andb] in Hu; [|done]. right. split; [done|]. by destruct (url_is_loopback url).
Qed.

Lemma token_credential_ok c scheme header value flag r : token_credential c scheme header value flag = Ok r ->
  exists a, r = Some a /\ ac_scheme a = scheme /\ ac_header a = header /\ credential_ok a /\
    match ci_auth_token_cmd c with
    | Some command => exists t, ac_credential a = CredCommand t /\ tc_command t = command
    | None => exists token, ac_credential a = CredValue token /\ value = Some token
    end.
Proof.
  unfold token_credential. intros (cred & Hc & [= <-])%result_bind_Ok. eexists. split; [done|]. split; [done|]. split; [done|].
  destruct (ci_auth_token_cmd c) as [command|].
  - unfold command_credential in Hc. case_decide as Ht; [done|]. apply result_bind_Ok in Hc as (timeout & Hto & Hc).
    destruct (Z.eqb_spec timeout 0) as [|Hz]; [done|]. apply result_bind_Ok in Hc as (refresh & Hre & Hc). case_bool_decide as Hb; [done|]. injection Hc as <-.
    split; [|by eexists]. cbn. split; [done|]. split.
    + enough (0 <= timeout) by lia. destruct (ci_auth_token_cmd_timeout c); [apply parse_human_duration_range in Hto; lia|by injection Hto as <-].
    + intros every ->. unfold optional in Hre. destruct (ci_auth_token_refresh c); [|done]. apply result_bind_Ok in Hre as (d & Hd & [= <-]).
      apply parse_human_duration_range in Hd. assert (d <> 0) by congruence. lia.
  - unfold value_credential in Hc. destruct (flag_given _); [done|]. destruct (non_empty value) eqn:E; [|done]. injection Hc as <-.
    apply non_empty_Some in E as [-> Hne]. by split; [|eexists].
Qed.

Lemma flag_only (flag : option string) (P : Prop) `{Hd : Decision P} (message : string -> string) :
  (match flag with Some f => if decide P then Ok tt else invalid_auth (message f) | None => Ok tt end = Ok tt) -> flag <> None -> P.
Proof. destruct flag; [|done]. by case_decide. Qed.

(** The authentication a command line is accepted with is the one it
    asks for, and usable: the credential is of the given type and under the
    given header; a token is not empty, a command not blank, with a timeout
    and a refresh interval that are not zero; a JWT lives for at least two
    seconds, with claims that leave the registered ones to wsblast and a key
    ID that can be looked up; OAuth2 has an id and a secret, and sends them
    only over TLS or to this machine.  The flags of a type that makes its own
    credential are never silently ignored. *)
Theorem auth_flags_are_sound (env : CliEnv) (c : Cli) (r : option AuthConfig) (Hr : auth_from_cli env c = Ok r) :
  kind_ok c r /\ forall a, r = Some a -> credential_ok a.
Proof.
  unfold auth_from_cli in Hr. apply result_bind_Ok in Hr as ([] & Hj & Hr). apply result_bind_Ok in Hr as ([] & Ho & Hr).
  unfold kind_ok.
  pose proof (flag_only _ _ _ Hj) as Hj'. pose proof (flag_only _ _ _ Ho) as Ho'.
  destruct (ci_auth_type c).
  - unfold given in Hr. destruct (ci_auth_token c), (ci_auth_apikey c), (ci_auth_token_cmd c); try done. by injection Hr as <-.
  - apply token_credential_ok in Hr as (a & -> & Hs & Hh & Hok & Hc). split; [|by intros ? [= <-]]. split; [done|]. split; [done|]. by exists a.
  - apply token_credential_ok in Hr as (a & -> & Hs & Hh & Hok & Hc). split; [|by intros ? [= <-]]. split; [done|]. split; [done|]. by exists a.
  - apply result_bind_Ok in Hr as ([] & Ht & Hr). apply reject_token_options_Ok in Ht. apply result_bind_Ok in Hr as (j & Hjw & [= <-]).
    split; [|intros a [= <-]; by apply (jwt_from_cli_ok _ _ _ Hjw)]. split; [done|]. split; [done|]. by eexists _, j.
  - apply result_bind_Ok in Hr as ([] & Ht & Hr). apply reject_token_options_Ok in Ht. apply result_bind_Ok in Hr as (o & Hoa & [= <-]).
    split; [|intros a [= <-]; by apply (oauth2_from_cli_ok _ _ _ _ Hoa)]. split; [done|]. split; [done|]. by eexists _, o.
Qed.

(** *** The headers of a request *)

Section RequestFacts.
Context `{!AuthHttpLaws, !RequestHttp, !RequestLaws}.






End RequestFacts.
End AuthFacts.

(** ** A command line with a signed token *)

Module SampleCli.
#[export] Instance form_url : FormUrl (H := SampleJwt.libs) := {|
  url_host (u : @Url SampleJwt.libs) := Some (Domain (Plain.pl_authority (u : Plain.PlainUrl)));
  byte_serialize s := s;
  form_pairs ps := String.concat "&" ((fun p => p.1 +:+ "=" +:+ p.2)%string <$> ps);
|}.
Lemma get_all_filter (n n' : bool) (m : list (bool * PlainLibs.PlainValue)) :
  omap (fun e => if decide (e.1 = n) then Some e.2 else None) (filter (fun e => e.1 <> n') m) =
  if decide (n' = n) then [] else omap (fun e => if decide (e.1 = n) then Some e.2 else None) m.
Proof.
  induction m as [|[k v] m IH]; [by case_decide|]. rewrite filter_cons. cbn [fst].
  destruct (decide (k <> n')) as [Hk|Hk]; cbn -[filter]; rewrite IH; repeat case_decide; subst; try done; by destruct k, n, n'.
Qed.
#[export] Instance auth_laws : @AuthHttpLaws SampleJwt.libs SampleJwt.auth_http.
Proof.
  split; intros n n'; cbn -[filter].
  - intros v m. rewrite omap_app, get_all_filter. cbn. by case_decide; rewrite ?app_nil_r.
  - intros m. apply get_all_filter.
Qed.

Definition extend_entries (m base : list (bool * PlainLibs.PlainValue)) : list (bool * PlainLibs.PlainValue) :=
  filter (fun e => omap (fun e' => if decide (e'.1 = e.1) then Some e'.2 else None) m = []) base ++ m.
Definition entries_of (n : bool) (m : list (bool * PlainLibs.PlainValue)) : list PlainLibs.PlainValue :=
  omap (fun e => if decide (e.1 = n) then Some e.2 else None) m.
Lemma append_entries_of n n' v m : entries_of n (m ++ [(n', v)]) = entries_of n m ++ (if decide (n' = n) then [v] else []).
Proof. unfold entries_of. rewrite omap_app. f_equal. cbn. by case_decide. Qed.
Lemma extend_entries_of n m base :
  entries_of n (extend_entries m base) = match entries_of n m with [] => entries_of n base | values => values end.
Proof.
  unfold extend_entries, entries_of. rewrite omap_app.
  set (get := fun n : bool => fun e : bool * PlainLibs.PlainValue => if decide (e.1 = n) then Some e.2 else None).
  change (omap (get n) (filter (fun e => omap (get e.1) m = []) base) ++ omap (get n) m =
    match omap (get n) m with [] => omap (get n) base | values => values end).
  induction base as [|e base IH]; [cbn; by destruct (omap (get n) m)|]. rewrite filter_cons.
  destruct (decide (e.1 = n)) as [He|He].
  - rewrite He. destruct (omap (get n) m) as [|v vs] eqn:Em; [|rewrite decide_False by done; exact IH].
    rewrite decide_True by done. rewrite app_nil_r in *. cbn. rewrite IH. done.
  - assert (get n e = None) as Hg by (unfold get; by rewrite decide_False). destruct (decide _); cbn; rewrite ?Hg; exact IH.
Qed.
#[export] Instance request_http : RequestHttp (H := SampleJwt.libs) := {|
  map_extend (m base : @HeaderMap SampleJwt.libs) := extend_entries m base;
  SEC_WEBSOCKET_EXTENSIONS := false; SEC_WEBSOCKET_PROTOCOL := false;
|}.
#[export] Instance request_laws : @RequestLaws SampleJwt.libs request_http.
Proof. split; [exact extend_entries_of|exact append_entries_of]. Qed.

Definition env : CliEnv :=
  mkCliEnv Sample.env (fun _ => Err "no such file"%string) (fun _ => Err "no such file"%string) None None (fun _ => "invalid utf-8"%string).
Definition flags : Cli :=
  no_flags <| ci_url := Some "ws://127.0.0.1:9001/feed"%string |> <| ci_connections := 5 |> <| ci_headers := ["x-user: ann"%string] |>
    <| ci_max_p95 := Some "50ms"%string |> <| ci_auth_type := AuthJwt |> <| ci_auth_jwt_key := Some "key"%string |> <| ci_auth_jwt_kid := Some "k1"%string |>.
End SampleCli.
#[local] Existing Instance Sample.no_format.
#[local] Existing Instance SampleJwt.libs.
#[local] Existing Instance SampleJwt.auth_http.
#[local] Existing Instance SampleJwt.u64_number.
#[local] Existing Instance SampleJwt.ring.
#[local] Existing Instance SampleCli.form_url.
#[local] Existing Instance SampleCli.auth_laws.
#[local] Existing Instance SampleCli.request_http.
#[local] Existing Instance SampleCli.request_laws.

Lemma sample_run : exists b run, read_flags SampleCli.env SampleCli.flags "ws://127.0.0.1:9001/feed" = Ok b /\ build_config Sample.env b = Some (Ok run).
Proof.
  assert (match read_flags SampleCli.env SampleCli.flags "ws://127.0.0.1:9001/feed" with
          | Ok b => match build_config Sample.env b with Some (Ok _) => true | _ => false end | _ => false end = true) as Hok by (vm_compute; reflexivity).
  destruct (read_flags SampleCli.env SampleCli.flags "ws://127.0.0.1:9001/feed") as [b|] eqn:Eb; [|done].
  destruct (build_config Sample.env b) as [[run|]|] eqn:Er; [|done|done]. by exists b, run.
Qed.

Lemma cli_adds_no_checks_witness : exists config,
  from_cli_with_target SampleCli.env SampleCli.flags None = Some (Ok config) /\ is_Some (cc_auth config).
Proof.
  destruct sample_run as (b & run & Eb & Er).
  assert (match auth_from_cli SampleCli.env SampleCli.flags with Ok (Some _) => true | _ => false end = true) as Hok by (vm_compute; reflexivity).
  destruct (auth_from_cli SampleCli.env SampleCli.flags) as [[a|]|] eqn:Ea; [|done|done].
  exists (mkCliConfig run None false (Some a)). split; [|by exists a].
  apply (cli_adds_no_checks SampleCli.env SampleCli.flags None (mkCliConfig run None false (Some a))); [done|].
  exists "ws://127.0.0.1:9001/feed"%string, b, run, (Some a).
  exact (conj eq_refl (conj (proj1 (read_flags_Ok SampleCli.env SampleCli.flags _ b) Eb) (conj Er (conj Ea eq_refl)))).
Defined.

Lemma auth_flags_are_sound_witness : exists a, auth_from_cli SampleCli.env SampleCli.flags = Ok (Some a) /\ credential_ok a.
Proof.
  assert (match auth_from_cli SampleCli.env SampleCli.flags with Ok (Some _) => true | _ => false end = true) as Hok by (vm_compute; reflexivity).
  destruct (auth_from_cli SampleCli.env SampleCli.flags) as [[a|]|] eqn:Ea; [|done|done].
  exists a. split; [done|]. exact (proj2 (auth_flags_are_sound SampleCli.env SampleCli.flags (Some a) Ea) a eq_refl).
Defined.

