(* ===== verification/Connect.v ===== *)
(** * Opening a connection (src/src/connect.rs)

    The size of read buffers, the addresses of a run's target and the source
    addresses its connections bind, and the race between addresses that opens
    a TCP connection.  The resolver, the sockets, TLS and the WebSocket
    handshake are parameters: an attempt to connect takes some time or
    forever, and gives a stream or an error. *)

From Stdlib Require Import ZArith Lia Ascii String.
From stdpp Require Import base tactics strings numbers option list.
From S2P Require Import Prelude RustStd Str Json Url Libs Live Wire Session Load Slo Config Args Auth Jwt OAuth2.

Local Open Scope Z_scope.
Local Open Scope rust_scope.

(** ** Read buffers *)

Definition READ_BUFFER_BUDGET : Z := 16 * 1024 * 1024.
Definition MAX_READ_BUFFER : Z := 16 * 1024.
Definition MIN_READ_BUFFER : Z := 4 * 1024.

Definition read_buffer_size (connections : Z) : Z :=
  let share := clamp MIN_READ_BUFFER MAX_READ_BUFFER (READ_BUFFER_BUDGET / Z.max connections 1) in
  Z.shiftl 1 (Z.log2 share).

(** ** Addresses *)

(** [IpAddr] and [SocketAddr] of the standard library; the octets of the
    address, and the flow and scope of an IPv6 socket address. *)
Inductive IpAddr := IpV4 (octets : list Z) | IpV6 (octets : list Z).
Inductive SocketAddr := SocketV4 (octets : list Z) (port : Z) | SocketV6 (octets : list Z) (port flowinfo scope_id : Z).

#[export] Instance IpAddr_eq_dec : EqDecision IpAddr.
Proof. solve_decision. Defined.
#[export] Instance SocketAddr_eq_dec : EqDecision SocketAddr.
Proof. solve_decision. Defined.

Definition ip_is_ipv4 (ip : IpAddr) : bool := match ip with IpV4 _ => true | IpV6 _ => false end.
Definition is_ipv4 (addr : SocketAddr) : bool := match addr with SocketV4 _ _ => true | SocketV6 _ _ _ _ => false end.
Definition is_ipv6 (addr : SocketAddr) : bool := negb (is_ipv4 addr).
Definition is_unspecified (ip : IpAddr) : bool :=
  match ip with
  | IpV4 octets => bool_decide (octets = replicate 4 0)
  | IpV6 octets => bool_decide (octets = replicate 16 0)
  end.

(** [iter.partition(keep)] *)
Definition partition {A} (keep : A -> bool) (l : list A) : list A * list A :=
  (List.filter keep l, List.filter (fun a => negb (keep a)) l).

(** The loop of [interleave_families] over its two iterators. *)
Fixpoint alternate {A} (primary secondary : list A) : list A :=
  match primary, secondary with
  | [], [] => []
  | a :: primary, [] => a :: alternate primary []
  | [], secondary => secondary
  | a :: primary, b :: secondary => a :: b :: alternate primary secondary
  end.

Definition interleave_families (addrs : list SocketAddr) : list SocketAddr :=
  match addrs with
  | [] => []
  | first :: _ =>
      let (primary, secondary) := partition (fun addr => Bool.eqb (is_ipv6 addr) (is_ipv6 first)) addrs in
      alternate primary secondary
  end.

(** ** Source addresses *)

(** [SourceIps::next] is a [usize] counter that wraps. *)
Record SourceIps := mkSourceIps { sr_v4 : list IpAddr; sr_v6 : list IpAddr; sr_next : Z }.

#[export] Instance SourceIps_settable : Settable SourceIps := fun s => mkSourceIps (sr_v4 s) (sr_v6 s) (sr_next s).

Definition SourceIps_new (ips : list IpAddr) : SourceIps :=
  let (v4, v6) := partition ip_is_ipv4 ips in mkSourceIps v4 v6 0.

Definition sources_is_empty (s : SourceIps) : bool :=
  bool_decide (sr_v4 s = []) && bool_decide (sr_v6 s = []).

Definition of_family (s : SourceIps) (addr : SocketAddr) : list IpAddr :=
  if is_ipv4 addr then sr_v4 s else sr_v6 s.

Definition serves (s : SourceIps) (addr : SocketAddr) : bool :=
  sources_is_empty s || negb (bool_decide (of_family s addr = [])).

Definition for_turn (s : SourceIps) (addr : SocketAddr) (turn : Z) : option IpAddr :=
  let family := of_family s addr in
  if bool_decide (family = []) then None else family !! Z.to_nat (turn mod Z.of_nat (length family)).

(** [self.sources.next.fetch_add(1)], only with sources. *)
Definition take_turn (s : SourceIps) : Z * SourceIps :=
  if sources_is_empty s then (0, s) else (sr_next s, s <| sr_next := sr_next s +u 1 |>).

(** Checks a flag's address; [bind] is a [UdpSocket::bind] to it. *)
Definition check_source_ip (fmt : IpAddr -> string) (bind : IpAddr -> option string) (ip : IpAddr) : result unit string :=
  if is_unspecified ip then
    Err ("--source-ip " +:+ fmt ip +:+ " is unspecified; give an address of this machine, such as 10.0.0.5")%string
  else match bind ip with
       | None => Ok tt
       | Some e => Err ("--source-ip " +:+ fmt ip +:+ " is not usable on this machine: " +:+ e)%string
       end.

(** ** The race between addresses *)

Definition ATTEMPT_DELAY : Z := from_millis 250.

(** Where one attempt connects, and the address it binds first. *)
Definition Target : Type := SocketAddr * option IpAddr.

(** [io::Error::new(NotFound, "no address to connect to")] *)
Definition no_address : IoError := mkIoError OtherKind "no address to connect to" false.

Section Race.
Context {Stream : Type}.

(** [open_tcp] of the attempt with this number: how long it takes, [None] for
    ever, and what it gives. *)
Variable open_tcp : nat -> Target -> option (Z * result Stream IoError).

(** A future of [pending]: which attempt it is, and when it will be ready with
    what. *)
Record Attempt := mkAttempt { at_number : nat; at_ready : option (Z * result Stream IoError) }.

(** The state between two rounds of [connect_tcp]; the timer of a round starts
    with it.  [ra_opened] lists every call to [open_tcp] with its time. *)
Record Race := mkRace {
  ra_now : Z;
  ra_queue : list Target;
  ra_pending : list Attempt;
  ra_last_err : IoError;
  ra_opened : list (Target * Z);
}.

#[export] Instance Race_settable : Settable Race := fun r =>
  mkRace (ra_now r) (ra_queue r) (ra_pending r) (ra_last_err r) (ra_opened r).

(** [pending.push(open_tcp(addr))] *)
Definition race_push (target : Target) (r : Race) : Race :=
  let number := length (ra_opened r) in
  let attempt := mkAttempt number (prod_map (Z.add (ra_now r)) id <$> open_tcp number target) in
  mkRace (ra_now r) (ra_queue r) (ra_pending r ++ [attempt]) (ra_last_err r) (ra_opened r ++ [(target, ra_now r)]).

(** [queue.next()], and the attempt it starts. *)
Definition race_next (r : Race) : option Race :=
  match ra_queue r with
  | [] => None
  | target :: queue => Some (race_push target (r <| ra_queue := queue |>))
  end.

(** What a round of [select!] can wake up for, with its time: the answer of a
    pending attempt, by its place, or the delay when an address is left. *)
Inductive Wake := Answered (place : nat) | Delayed.

Definition race_wakes (r : Race) : list (Z * Wake) :=
  omap id (imap (fun place a => (fun ready => (fst ready, Answered place)) <$> at_ready a) (ra_pending r))
  ++ match ra_queue r with [] => [] | _ :: _ => [(ra_now r + ATTEMPT_DELAY, Delayed)] end.

(** The earliest of them; [select!] takes any of those that are ready
    together, and so does [FuturesUnordered]: [choice] says which. *)
Definition race_ready (r : Race) : list (Z * Wake) :=
  List.filter (fun e => forallb (fun e' => fst e <=? fst e') (race_wakes r)) (race_wakes r).

Definition race_wake (choice : nat) (r : Race) : option (Z * Wake) :=
  race_ready r !! (choice mod length (race_ready r))%nat.

(** How a call to [connect_tcp] ends: with a stream of an attempt, with the
    last error, or never. *)
Inductive Raced :=
| Won (number : nat) (stream : Stream) (at_time : Z) (opened : list (Target * Z))
| Lost (err : IoError) (at_time : Z) (opened : list (Target * Z))
| Hanging (opened : list (Target * Z)).

(** One round of the loop. *)
Definition race_round (choice : nat) (r : Race) : Race + Raced :=
  match race_wake choice r with
  | None => inr (Hanging (ra_opened r))
  | Some (now, Answered place) =>
      match ra_pending r !! place with
      | Some (mkAttempt number (Some (_, Ok stream))) => inr (Won number stream now (ra_opened r))
      | Some (mkAttempt _ (Some (_, Err err))) =>
          let r := (r <| ra_now := now |> <| ra_pending ::= delete place |> <| ra_last_err := err |>) in
          match race_next r with
          | Some r => inl r
          | None => match ra_pending r with [] => inr (Lost (ra_last_err r) now (ra_opened r)) | _ :: _ => inl r end
          end
      | _ => inr (Hanging (ra_opened r))
      end
  | Some (now, Delayed) =>
      let r := r <| ra_now := now |> in
      match race_next r with Some r => inl r | None => inl r end
  end.

Fixpoint race_loop (choice : nat -> nat) (fuel : nat) (r : Race) : option Raced :=
  match fuel with
  | O => None
  | S fuel => match race_round (choice fuel) r with inl r => race_loop choice fuel r | inr raced => Some raced end
  end.

(** Every round takes an address or ends an attempt. *)
Definition race_measure (r : Race) : nat := 2 * length (ra_queue r) + length (ra_pending r).

Definition connect_tcp (choice : nat -> nat) (now : Z) (addrs : list Target) : option Raced :=
  match race_next (mkRace now addrs [] no_address []) with
  | None => Some (Lost no_address now [])
  | Some r => race_loop choice (S (race_measure r)) r
  end.

End Race.
Arguments Attempt : clear implicits.
Arguments Race : clear implicits.
Arguments Raced : clear implicits.

(** ** The target of a run *)

(** The URL's port, and its host as it prints. *)
Class PortUrl `{Libs} := {
  port_or_known_default : Url -> option Z;
  host_str : Url -> option string;
}.

(** What the resolver, the sockets and the handshakes of one run do:
    [lookup_host] takes some time or forever; [TcpSocket::new_*] and [bind]
    fail or not; [TcpStream::connect] is given the address bound before. *)
Class Network := {
  TcpStream : Type;
  TlsStream : Type;
  WsStream : Type;
  Request : Type;
  lookup_host : string -> Z -> option (Z * result (list SocketAddr) IoError);
  new_socket : bool -> result unit IoError;
  bind : IpAddr -> result unit IoError;
  tcp_connect : nat -> option IpAddr -> SocketAddr -> option (Z * result TcpStream IoError);
  peer_addr : TcpStream -> option SocketAddr;
  request_host : Request -> option string;
  server_name : string -> bool;
  tls_connect : string -> TcpStream -> option (Z * result TlsStream IoError);
  client_async : Request -> TcpStream + TlsStream -> bool -> Z -> option (Z * result WsStream TungsteniteError);
}.

(** [ConnectError] *)
Inductive ConnectError :=
| StaticFailure (category : ErrorCategory)
| AttemptFailure (err : TungsteniteError).

(** A future: when it is ready and what it gives, [None] if it never is.
    [then_at] awaits it and goes on. *)
Definition Future (A : Type) : Type := option (Z * A).
Definition then_at {A B E} (f : Future (result A E)) (now : Z) (k : Z -> A -> Future (result B E)) : Future (result B E) :=
  match f with
  | None => None
  | Some (after, Ok a) => k (now + after) a
  | Some (after, Err e) => Some (now + after, Err e)
  end.
Definition map_error {A E F} (f : E -> F) (x : Future (result A E)) : Future (result A F) :=
  prod_map id (result_map_err f) <$> x.

(** [tokio::time::timeout(limit, f)]: a future that is ready by then is
    taken, [None] is the elapsed timer. *)
Definition tokio_timeout {A} (limit : Z) (f : Future A) : Z * option A :=
  match f with
  | Some (t, a) => if t <=? limit then (t, Some a) else (limit, None)
  | None => (limit, None)
  end.

(** [s.trim_start_matches('[').trim_end_matches(']')] *)
Fixpoint trim_brackets_start (s : string) : string :=
  match s with
  | EmptyString => EmptyString
  | String c rest => if Ascii.eqb c "[" then trim_brackets_start rest else s
  end.
Fixpoint trim_brackets_end (s : string) : string :=
  match s with
  | EmptyString => EmptyString
  | String c rest =>
      match trim_brackets_end rest with
      | EmptyString => if Ascii.eqb c "]" then EmptyString else String c EmptyString
      | rest => String c rest
      end
  end.

Section Connect.
Context `{Hlibs : Libs, !FormUrl, !PortUrl, !Network}.

(** [preferred] is the index of the address that last accepted a connection;
    [tls] whether the target is a [wss://] one; [read_buffer] the size in
    [ws_config]; [compression] whether the run offers it. *)
Record ConnectTarget := mkConnectTarget {
  ct_addrs : result (list SocketAddr) ErrorCategory;
  ct_preferred : Z;
  ct_tls : bool;
  ct_read_buffer : Z;
  ct_sources : SourceIps;
  ct_compression : bool;
}.

#[export] Instance ConnectTarget_settable : Settable ConnectTarget := fun c =>
  mkConnectTarget (ct_addrs c) (ct_preferred c) (ct_tls c) (ct_read_buffer c) (ct_sources c) (ct_compression c).

Definition resolve (url : Url) : Future (result (list SocketAddr) ErrorCategory) :=
  match port_or_known_default url with
  | None => Some (0, Err Other)
  | Some port =>
      match url_host url with
      | None => Some (0, Err Other)
      | Some host =>
          then_at (match host with
                   | Ipv4 ip => Some (0, Ok [SocketV4 ip port])
                   | Ipv6 ip => Some (0, Ok [SocketV6 ip port 0 0])
                   | Domain domain => map_error (fun _ => DnsResolution) (lookup_host domain port)
                   end) 0 (fun now addrs =>
            Some (now, if bool_decide (addrs = []) then Err DnsResolution else Ok (interleave_families addrs)))
      end
  end.

(** The addresses a source serves; the message when there is none. *)
Definition usable_addrs (url : Url) (sources : SourceIps) (addrs : list SocketAddr)
    : result (list SocketAddr) ErrorCategory * list string :=
  let usable := List.filter (serves sources) addrs in
  if bool_decide (usable = []) then
    let family := (if forallb is_ipv6 addrs then "IPv6" else "IPv4")%string in
    (Err TcpConnect,
     [("Warning: " +:+ default EmptyString (host_str url) +:+ " has only " +:+ family +:+
       " addresses and no --source-ip is " +:+ family +:+ ", so every connection fails.")%string])
  else (Ok usable, []).

(** [ConnectTarget::prepare] and the warnings it prints. *)
Definition prepare (url : Url) (timeout connections : Z) (source_ips : list IpAddr) (compression : bool)
    : ConnectTarget * list string :=
  let sources := SourceIps_new source_ips in
  let (addrs, warnings) :=
    match default (Err Timeout) (tokio_timeout timeout (resolve url)).2 with
    | Ok addrs => usable_addrs url sources addrs
    | Err category => (Err category, [])
    end in
  (mkConnectTarget addrs 0 (bool_decide (url_scheme url = "wss"%string)) (read_buffer_size connections) sources compression,
   warnings).

(** The addresses in the order a connection tries them, each with the source
    it binds. *)
Definition connect_order (c : ConnectTarget) (addrs : list SocketAddr) (turn : Z) : list Target :=
  let preferred := Z.to_nat (Z.min (ct_preferred c) (Z.of_nat (length addrs) - 1)) in
  (fun addr => (addr, for_turn (ct_sources c) addr turn)) <$>
    option_list (addrs !! preferred) ++ take preferred addrs ++ drop (S preferred) addrs.

Definition open_tcp (number : nat) (target : Target) : Future (result TcpStream IoError) :=
  let (addr, source) := target in
  match source with
  | None => tcp_connect number None addr
  | Some ip =>
      match (let? _ := new_socket (is_ipv4 addr) in bind ip) with
      | Err e => Some (0, Err e)
      | Ok _ => tcp_connect number (Some ip) addr
      end
  end.

(** [self.preferred.store(i)] after the address of the peer. *)
Definition remember (addrs : list SocketAddr) (tcp : TcpStream) (c : ConnectTarget) : ConnectTarget :=
  match peer_addr tcp with
  | Some peer =>
      match list_find (fun addr => addr = peer) addrs with
      | Some (i, _) => c <| ct_preferred := Z.of_nat i |>
      | None => c
      end
  | None => c
  end.

(** TLS, when the target is a [wss://] one. *)
Definition secure (c : ConnectTarget) (request : Request) (now : Z) (tcp : TcpStream) : Future (result (TcpStream + TlsStream) TungsteniteError) :=
  if ct_tls c then
    let host := trim_brackets_end (trim_brackets_start (default EmptyString (request_host request))) in
    if server_name host then
      then_at (map_error IoErr (tls_connect host tcp)) now (fun now tls => Some (now, Ok (inr tls)))
    else Some (now, Err TlsErr)
  else Some (now, Ok (inl tcp)).

(** [ConnectTarget::connect]: the state as soon as it starts, the state from
    the time a TCP connection is open, and the connection. *)
Definition connect (choice : nat -> nat) (request : Request) (c : ConnectTarget)
    : ConnectTarget * Future ConnectTarget * Future (result WsStream ConnectError) :=
  match ct_addrs c with
  | Err category => (c, None, Some (0, Err (StaticFailure category)))
  | Ok addrs =>
      let (turn, sources) := take_turn (ct_sources c) in
      let order := connect_order c addrs turn in
      let c := (c <| ct_sources := sources |>) in
      match connect_tcp open_tcp choice 0 order with
      | Some (Won _ tcp now _) =>
          let connected := remember addrs tcp c in
          (c, Some (now, connected),
           map_error AttemptFailure
             (match secure c request now tcp with
              | Some (now, Ok stream) => then_at (client_async request stream (ct_compression c) (ct_read_buffer c)) now (fun now ws => Some (now, Ok ws))
              | Some (now, Err e) => Some (now, Err e)
              | None => None
              end))
      | Some (Lost e now _) => (c, None, Some (now, Err (AttemptFailure (IoErr e))))
      | Some (Hanging _) | None => (c, None, None)
      end
  end.

(** The worker's [timeout(connect_timeout, target.connect(request))]: the
    state an attempt leaves, also when it is dropped, and what the handshake
    of the session learns. *)
Definition connect_within (timeout : Z) (choice : nat -> nat) (request : Request) (c : ConnectTarget) : ConnectTarget * ConnectResult :=
  let '(started, connected, stream) := connect choice request c in
  (default started (tokio_timeout timeout connected).2,
   match (tokio_timeout timeout stream).2 with
   | None => ConnectTimeout
   | Some (Ok _) => Connected
   | Some (Err (StaticFailure category)) => ConnectStatic category
   | Some (Err (AttemptFailure err)) => ConnectFailed err
   end).

End Connect.
Arguments ConnectTarget : clear implicits.

(** ** The race, proved *)

Lemma least_exists (l : list Z) : l <> [] -> exists m, m ∈ l /\ forall x, x ∈ l -> m <= x.
Proof.
  induction l as [|y l IH]; [done|]. intros _. destruct l as [|z l].
  - exists y. split; [by apply list_elem_of_singleton|]. intros x ->%list_elem_of_singleton. lia.
  - destruct IH as (m & Hm & Hle); [done|]. exists (Z.min y m). split.
    + destruct (Z.min_spec y m) as [[_ ->]|[_ ->]]; [apply list_elem_of_here|by apply list_elem_of_further].
    + intros x [->|Hx]%elem_of_cons; [lia|]. specialize (Hle x Hx). lia.
Qed.

Lemma list_elem_of_delete {A} (l : list A) i j x : l !! j = Some x -> j <> i -> x ∈ delete i l.
Proof.
  intros Hj Hne. apply list_elem_of_lookup. destruct (decide (j < i)%nat) as [Hlt|Hge].
  - exists j. by rewrite list_lookup_delete_lt.
  - exists (pred j). rewrite list_lookup_delete_ge by lia. by replace (S (pred j)) with j by lia.
Qed.

Ltac delay_lia := change ATTEMPT_DELAY with 250000000 in *; lia.

Section RaceProofs.
Context {Stream : Type} (open : nat -> Target -> option (Z * result Stream IoError)) (start : Z) (addrs : list Target).

(** What happened so far: the addresses opened and left, when they were opened,
    and what became of every attempt. *)
Record race_core (r : Race Stream) : Prop := mk_race_core {
  rc_split : (ra_opened r).*1 ++ ra_queue r = addrs;
  rc_now : ra_queue r <> [] -> ra_now r <= start + ATTEMPT_DELAY * Z.of_nat (length (ra_opened r));
  rc_pending : forall a, a ∈ ra_pending r -> exists target t, ra_opened r !! at_number a = Some (target, t) /\
    t <= start + ATTEMPT_DELAY * Z.of_nat (at_number a) /\ at_ready a = prod_map (Z.add t) id <$> open (at_number a) target;
  rc_answered : forall i target t, ra_opened r !! i = Some (target, t) ->
    (exists a, a ∈ ra_pending r /\ at_number a = i) \/ exists d e, open i target = Some (d, Err e);
}.

(** Between two rounds an attempt is pending, and the next address is due. *)
Definition race_inv (r : Race Stream) : Prop :=
  race_core r /\ ra_pending r <> [] /\
  (ra_queue r <> [] -> ra_now r + ATTEMPT_DELAY <= start + ATTEMPT_DELAY * Z.of_nat (length (ra_opened r))).

(** How the race may end. *)
Definition raced_ok (raced : Raced Stream) : Prop :=
  match raced with
  | Won i stream t opened => exists target t0 d,
      opened !! i = Some (target, t0) /\ open i target = Some (d, Ok stream) /\ t = t0 + d /\ opened.*1 `prefix_of` addrs /\
      forall k target d s, addrs !! k = Some target -> open k target = Some (d, Ok s) -> t <= start + ATTEMPT_DELAY * Z.of_nat k + d
  | Lost e _ opened => opened.*1 = addrs /\
      (forall k target, addrs !! k = Some target -> exists d e, open k target = Some (d, Err e)) /\
      exists k target d, addrs !! k = Some target /\ open k target = Some (d, Err e)
  | Hanging opened => opened.*1 = addrs /\
      (forall k target d s, addrs !! k = Some target -> open k target <> Some (d, Ok s)) /\
      exists k target, addrs !! k = Some target /\ open k target = None
  end.

Lemma race_wake_spec choice (r : Race Stream) :
  match race_wake choice r with
  | None => race_wakes r = []
  | Some e => e ∈ race_wakes r /\ forall e', e' ∈ race_wakes r -> e.1 <= e'.1
  end.
Proof.
  unfold race_wake. destruct (race_ready r !! _) as [e|] eqn:E.
  - apply list_elem_of_lookup_2 in E. apply list_elem_of_In in E. unfold race_ready in E. apply List.filter_In in E as [Hin Hmin].
    split; [by apply list_elem_of_In|]. intros e' He'. rewrite forallb_forall in Hmin.
    apply list_elem_of_In in He'. specialize (Hmin _ He'). lia.
  - destruct (race_wakes r) as [|e0 l] eqn:Ew; [done|]. exfalso.
    destruct (least_exists (fst <$> race_wakes r)) as (m & Hm & Hle); [by rewrite Ew|].
    apply list_elem_of_fmap in Hm as (e & -> & He).
    assert (In e (race_ready r)) as Hin.
    { unfold race_ready. apply List.filter_In. split; [by apply list_elem_of_In|]. apply forallb_forall. intros e' He'.
      apply Z.leb_le, Hle, list_elem_of_fmap. exists e'. split; [done|]. by apply list_elem_of_In. }
    destruct (race_ready r) as [|x rest]; [done|]. apply lookup_ge_None in E.
    pose proof (Nat.mod_upper_bound choice (length (x :: rest))). cbn [length] in *. lia.
Qed.

Lemma elem_of_race_wakes (r : Race Stream) t w : (t, w) ∈ race_wakes r <->
  (exists place a answer, w = Answered place /\ ra_pending r !! place = Some a /\ at_ready a = Some (t, answer)) \/
  (w = Delayed /\ ra_queue r <> [] /\ t = ra_now r + ATTEMPT_DELAY).
Proof.
  unfold race_wakes. rewrite elem_of_app, list_elem_of_omap. split.
  - intros [(x & Hx & Hid)|Hd].
    + left. apply elem_of_lookup_imap in Hx as (i & a & -> & Ha). cbn in Hid.
      destruct (at_ready a) as [[t' ans]|] eqn:Er; [|done]. injection Hid as <- <-. eauto 10.
    + right. destruct (ra_queue r); [by apply not_elem_of_nil in Hd|]. apply list_elem_of_singleton in Hd. injection Hd as -> ->. done.
  - intros [(i & a & ans & -> & Ha & Hr)|(-> & Hq & ->)].
    + left. exists (Some (t, Answered i)). split; [|done]. apply elem_of_lookup_imap. exists i, a. by rewrite Hr.
    + right. destruct (ra_queue r); [done|]. by apply list_elem_of_singleton.
Qed.

Lemma race_next_inv r r' : race_core r -> race_next open r = Some r' -> race_inv r'.
Proof.
  intros [Hsplit Hnow Hp Ha]. unfold race_next. destruct (ra_queue r) as [|target queue] eqn:Eq; [done|]. intros [= <-].
  specialize (Hnow ltac:(done)). unfold race_push. cbn. split; [|split].
  - constructor; cbn.
    + rewrite fmap_app, <- Hsplit, <- app_assoc. reflexivity.
    + rewrite length_app. cbn. delay_lia.
    + intros a [Hin| ->%list_elem_of_singleton]%elem_of_app; cbn.
      * destruct (Hp a Hin) as (t & t0 & Hl & Hr). exists t, t0. split; [|done]. by apply lookup_app_l_Some.
      * exists target, (ra_now r). split; [by apply list_lookup_middle|]. done.
    + intros i tg t [Hl|[Hle Hl]]%lookup_app_Some.
      * destruct (Ha i tg t Hl) as [(a & Hin & Hi)|He]; [left; exists a|by right]. split; [by apply elem_of_app; left|done].
      * left. eexists. split; [apply elem_of_app; right; by apply list_elem_of_singleton|]. cbn.
        apply list_lookup_singleton_Some in Hl as [Hi _]. lia.
  - by destruct (ra_pending r).
  - cbn [ra_now ra_opened set_field]. intros _. rewrite length_app. cbn [length]. change (ra_now (set_field ra_queue (fun _ => queue) r)) with (ra_now r). delay_lia.
Qed.

(** An attempt's answer comes no later than the answer of an address that
    accepts, which is pending or about to be opened. *)
Lemma race_wake_due r choice t w k target d s :
  race_inv r -> race_wake choice r = Some (t, w) -> addrs !! k = Some target -> open k target = Some (d, Ok s) -> 0 <= d ->
  t <= start + ATTEMPT_DELAY * Z.of_nat k + d.
Proof.
  intros ([Hsplit _ Hp Ha] & _ & Hnow) Hw Hk Ho Hd. pose proof (race_wake_spec choice r) as Hs. rewrite Hw in Hs. destruct Hs as [_ Hmin].
  rewrite <- Hsplit in Hk. apply lookup_app_Some in Hk as [Hk|[Hge Hk]].
  - apply list_lookup_fmap_Some in Hk as ([tg t0] & -> & Hk). destruct (Ha k tg t0 Hk) as [(a & Hin & <-)|(? & ? & ?)]; [|cbn in *; congruence].
    destruct (Hp a Hin) as (tg' & t' & Hl & Ht & Hr). rewrite Hk in Hl. injection Hl as <- <-. cbn in Ho. rewrite Ho in Hr. cbn in Hr.
    apply list_elem_of_lookup in Hin as [place Hin]. specialize (Hmin (t0 + d, Answered place)). cbn in Hmin.
    rewrite elem_of_race_wakes in Hmin. specialize (Hmin ltac:(left; eauto 10)). lia.
  - rewrite length_fmap in Hge. assert (ra_queue r <> []) as Hq by (intros Hq; by rewrite Hq in Hk).
    specialize (Hmin (ra_now r + ATTEMPT_DELAY, Delayed)). rewrite elem_of_race_wakes in Hmin. specialize (Hmin ltac:(by right)). cbn in Hmin.
    specialize (Hnow Hq). delay_lia.
Qed.

Lemma race_next_measure r r' : race_next open r = Some r' -> (S (race_measure r') = race_measure r)%nat.
Proof.
  unfold race_next, race_measure. destruct (ra_queue r) as [|target queue]; [done|]. intros [= <-]. cbn. rewrite length_app. cbn. lia.
Qed.

Lemma race_next_None r : race_next open r = None -> ra_queue r = [].
Proof. unfold race_next. by destruct (ra_queue r). Qed.

(** A failed attempt leaves the others as they were. *)
Lemma race_failed_core r choice t place number ready e :
  race_inv r -> race_wake choice r = Some (t, Answered place) -> ra_pending r !! place = Some (mkAttempt number (Some (ready, Err e))) ->
  race_core (r <| ra_now := t |> <| ra_pending ::= delete place |> <| ra_last_err := e |>).
Proof.
  intros ([Hsplit Hnow Hp Ha] & Hwait & Hdue) Hw Hpl. pose proof (race_wake_spec choice r) as Hs. rewrite Hw in Hs. destruct Hs as [_ Hmin].
  constructor; cbn.
  - done.
  - intros Hq. specialize (Hmin (ra_now r + ATTEMPT_DELAY, Delayed)). rewrite elem_of_race_wakes in Hmin.
    specialize (Hmin ltac:(by right)). specialize (Hdue Hq). cbn in Hmin. lia.
  - intros a Hin. apply Hp. by eapply list_elem_of_delete_inv.
  - intros i target t0 Hi. destruct (Ha i target t0 Hi) as [(a & Hin & <-)|He]; [|by right].
    apply list_elem_of_lookup in Hin as [place' Hin]. destruct (decide (place' = place)) as [->|Hne].
    + rewrite Hpl in Hin. injection Hin as <-. right. apply list_elem_of_lookup_2 in Hpl. destruct (Hp _ Hpl) as (tg & t1 & Hl & _ & Hr).
      cbn [at_number at_ready] in *. rewrite Hi in Hl. injection Hl as <- <-. destruct (open number target) as [[d x]|]; [|done]. cbn in Hr. unfold id in Hr. injection Hr as _ <-. eauto.
    + left. exists a. split; [|done]. by eapply list_elem_of_delete.
Qed.

(** With no address left, every one has been opened. *)
Lemma race_core_all r k target : race_core r -> ra_queue r = [] -> addrs !! k = Some target -> exists t, ra_opened r !! k = Some (target, t).
Proof.
  intros [Hsplit _ _ _] Hq Hk. rewrite Hq, app_nil_r in Hsplit. rewrite <- Hsplit in Hk.
  apply list_lookup_fmap_Some in Hk as ([tg t] & -> & Hk). eauto.
Qed.

Lemma race_all_opened r : race_core r -> ra_queue r = [] -> (ra_opened r).*1 = addrs.
Proof. intros [Hsplit _ _ _] Hq. by rewrite Hq, app_nil_r in Hsplit. Qed.

Lemma race_lost_ok r t e : race_core r -> ra_queue r = [] -> ra_pending r = [] ->
  (exists k target d, addrs !! k = Some target /\ open k target = Some (d, Err e)) -> raced_ok (Lost e t (ra_opened r)).
Proof.
  intros Hcore Hq Hp He. split_and!; [by apply race_all_opened| |done]. intros k target Hk.
  destruct (race_core_all r k target Hcore Hq Hk) as [t0 Hl].
  destruct (rc_answered _ Hcore k target t0 Hl) as [(a & Hin & _)|Hfail]; [|done]. rewrite Hp in Hin. by apply not_elem_of_nil in Hin.
Qed.

Lemma race_hanging_ok r : race_inv r -> race_wakes r = [] -> raced_ok (Hanging (ra_opened r)).
Proof.
  intros (Hcore & Hwait & _) Hw.
  assert (ra_queue r = []) as Hq. { unfold race_wakes in Hw. apply app_nil in Hw as [_ Hw]. by destruct (ra_queue r). }
  assert (forall a, a ∈ ra_pending r -> at_ready a = None) as Hnever.
  { intros a [place Hin]%list_elem_of_lookup. destruct (at_ready a) as [[t answer]|] eqn:Er; [|done]. exfalso.
    assert ((t, Answered place) ∈ race_wakes r) as H by (apply elem_of_race_wakes; eauto 10). rewrite Hw in H. by apply not_elem_of_nil in H. }
  assert (forall a target t, a ∈ ra_pending r -> ra_opened r !! at_number a = Some (target, t) -> open (at_number a) target = None) as Hno.
  { intros a target t Hin Hl. destruct (rc_pending _ Hcore a Hin) as (tg & t1 & Hl' & _ & Hr). rewrite Hl in Hl'. injection Hl' as <- <-.
    rewrite (Hnever a Hin) in Hr. by destruct (open (at_number a) target). }
  split_and!; [by apply race_all_opened|..].
  - intros k target d s Hk Ho. destruct (race_core_all r k target Hcore Hq Hk) as [t0 Hl].
    destruct (rc_answered _ Hcore k target t0 Hl) as [(a & Hin & <-)|(? & ? & ?)]; [|congruence].
    rewrite (Hno a target t0 Hin Hl) in Ho. done.
  - assert (exists a, a ∈ ra_pending r) as [a Hin] by (destruct (ra_pending r) as [|a l]; [done|exists a; apply list_elem_of_here]).
    destruct (rc_pending _ Hcore a Hin) as (target & t & Hl & _). exists (at_number a), target. split; [|apply (Hno a target t Hin Hl)].
    rewrite <- (race_all_opened r Hcore Hq), list_lookup_fmap, Hl. done.
Qed.

Lemma race_delayed_core r t : race_inv r -> ra_queue r <> [] -> t = ra_now r + ATTEMPT_DELAY -> race_core (r <| ra_now := t |>).
Proof. intros ([Hsplit Hnow Hp Ha] & _ & Hdue) Hq ->. constructor; cbn; done. Qed.

(** A round goes on with less left to do, or ends the race as it may end. *)
Lemma race_round_inv choice r : race_inv r -> (forall i target d a, open i target = Some (d, a) -> 0 <= d) ->
  match race_round open choice r with
  | inl r' => race_inv r' /\ (race_measure r' < race_measure r)%nat
  | inr raced => raced_ok raced
  end.
Proof.
  intros Hinv Hpos. pose proof (race_wake_spec choice r) as Hs. unfold race_round. destruct (race_wake choice r) as [[t [place|]]|] eqn:Hw.
  - destruct Hs as [Hin _]. apply elem_of_race_wakes in Hin as [(place' & [number ready] & answer & [= <-] & Hpl & Hr)|(? & _)]; [|done].
    rewrite Hpl. cbn in Hr. subst ready. pose proof Hinv as (Hcore & Hwait & Hdue).
    destruct (rc_pending _ Hcore _ (list_elem_of_lookup_2 _ _ _ Hpl)) as (target & t0 & Hl & _ & Hr).
    cbn [at_number at_ready] in *. destruct (open number target) as [[d x]|] eqn:Ho; [|done]. cbn in Hr. unfold id in Hr. injection Hr as -> <-.
    destruct answer as [stream|e].
    + exists target, t0, d. split_and!; [done..|rewrite <- (rc_split _ Hcore); by eexists|]. intros k tg d' s Hk Hok. by eapply race_wake_due, Hpos.
    + pose proof (race_failed_core r choice (t0 + d) place number (t0 + d) e Hinv Hw Hpl) as Hcore1.
      set (r1 := r <| ra_now := t0 + d |> <| ra_pending ::= delete place |> <| ra_last_err := e |>) in *.
      assert (S (length (ra_pending r1)) = length (ra_pending r)) as Hlen.
      { pose proof (lookup_lt_Some _ _ _ Hpl). cbn. rewrite length_delete by (by eexists). lia. }
      destruct (race_next open r1) as [r2|] eqn:En.
      * split; [by eapply race_next_inv|]. apply race_next_measure in En. unfold race_measure in *. change (ra_queue r1) with (ra_queue r) in En. lia.
      * apply race_next_None in En. destruct (ra_pending r1) as [|a l] eqn:Ep.
        -- apply race_lost_ok; [done..|]. exists number, target, d. split; [|done]. by rewrite <- (rc_split _ Hcore), (lookup_app_l_Some _ _ _ target) by (by rewrite list_lookup_fmap, Hl).
        -- split; [split_and!; [done|by rewrite Ep|by rewrite En]|]. unfold race_measure. rewrite Ep, <- Hlen. change (ra_queue r1) with (ra_queue r). cbn. lia.
  - destruct Hs as [Hin _]. apply elem_of_race_wakes in Hin as [(? & ? & ? & ? & _)|(_ & Hq & Ht)]; [done|].
    destruct (race_next open _) as [r2|] eqn:En; [|by apply race_next_None in En].
    split; [eapply race_next_inv, En; by apply race_delayed_core|]. apply race_next_measure in En. unfold race_measure in *. cbn in En. lia.
  - by apply race_hanging_ok.
Qed.

Lemma race_loop_ok choice fuel r : (forall i target d a, open i target = Some (d, a) -> 0 <= d) ->
  race_inv r -> (race_measure r < fuel)%nat -> exists raced, race_loop open choice fuel r = Some raced /\ raced_ok raced.
Proof.
  intros Hpos. revert r. induction fuel as [|fuel IH]; intros r Hinv Hf; [lia|]. cbn.
  pose proof (race_round_inv (choice fuel) r Hinv Hpos) as H. destruct (race_round open (choice fuel) r) as [r'|raced]; [|eauto].
  destruct H. apply IH; [done|lia].
Qed.

End RaceProofs.

(** C34. [connect_tcp] ends as its addresses deserve, however ready futures are
    taken.  An address that accepts answers the call, whatever the others do:
    if the address [k] of the order accepts after [d], the connection is open
    at most [k] attempt delays and [d] after the start, so that an address
    that never answers holds nothing up.  The stream is one that an address
    gave.  The call fails only when every address was opened and refused, with
    the error of one of them or, without an address, the one of no address. *)
Theorem dead_addresses_hold_nothing_up {Stream} (open : nat -> Target -> option (Z * result Stream IoError)) choice start addrs
    (Hpos : forall i target d a, open i target = Some (d, a) -> 0 <= d) :
  exists raced, connect_tcp open choice start addrs = Some raced /\
  match addrs with
  | [] => raced = Lost no_address start []
  | _ :: _ =>
      match raced with
      | Won i stream t opened => opened.*1 `prefix_of` addrs /\
          (exists target t0 d, opened !! i = Some (target, t0) /\ open i target = Some (d, Ok stream) /\ t = t0 + d) /\
          forall k target d s, addrs !! k = Some target -> open k target = Some (d, Ok s) -> t <= start + ATTEMPT_DELAY * Z.of_nat k + d
      | Lost e _ opened => opened.*1 = addrs /\
          (forall k target, addrs !! k = Some target -> exists d e, open k target = Some (d, Err e)) /\
          exists k target d, addrs !! k = Some target /\ open k target = Some (d, Err e)
      | Hanging opened => opened.*1 = addrs /\
          (forall k target d s, addrs !! k = Some target -> open k target <> Some (d, Ok s)) /\
          exists k target, addrs !! k = Some target /\ open k target = None
      end
  end.
Proof.
  unfold connect_tcp. destruct (race_next open (mkRace start addrs [] no_address [])) as [r|] eqn:En.
  - assert (race_core open start addrs (mkRace start addrs [] no_address [])) as Hcore.
    { constructor; cbn; [done|intros; delay_lia|by intros a ?%not_elem_of_nil|done]. }
    destruct (race_loop_ok open start addrs choice (S (race_measure r)) r Hpos) as (raced & -> & Hok);
      [by eapply race_next_inv|lia|]. exists raced. split; [done|]. destruct addrs; [done|].
    destruct raced; try exact Hok. destruct Hok as (target & t0 & d & ? & ? & ? & ? & ?). eauto 10.
  - apply race_next_None in En. cbn in En. subst addrs. eauto.
Qed.

(** ** The addresses of a target *)

Section Targets.
Context `{Hlibs : Libs, !FormUrl, !PortUrl, !Network}.

(** The attempts of a run on its shared target, in the order they start. *)
Definition connects (timeout : Z) (attempts : list ((nat -> nat) * Request)) (c : ConnectTarget) : ConnectTarget :=
  fold_left (fun c attempt => (connect_within timeout attempt.1 attempt.2 c).1) attempts c.







Lemma filter_ext_In {A} (f g : A -> bool) l : (forall x, f x = g x) -> List.filter f l = List.filter g l.
Proof. intros Hfg. induction l as [|x l IH]; cbn; [done|]. by rewrite Hfg, IH. Qed.









End Targets.

(** ** Read buffers and families *)

(** A buffer is a power of two of 4 to 16 KiB, and the buffers of all
    connections fit the budget or are of the smallest size. *)
Lemma read_buffers_share_a_budget connections : 0 <= connections ->
  exists k, read_buffer_size connections = 2 ^ k /\ MIN_READ_BUFFER <= read_buffer_size connections <= MAX_READ_BUFFER /\
  (read_buffer_size connections * connections <= READ_BUFFER_BUDGET \/ read_buffer_size connections = MIN_READ_BUFFER).
Proof.
  intros Hc. unfold read_buffer_size. set (fair := READ_BUFFER_BUDGET / Z.max connections 1).
  assert (MIN_READ_BUFFER <= clamp MIN_READ_BUFFER MAX_READ_BUFFER fair <= MAX_READ_BUFFER /\
          (clamp MIN_READ_BUFFER MAX_READ_BUFFER fair <= fair \/ clamp MIN_READ_BUFFER MAX_READ_BUFFER fair = MIN_READ_BUFFER)) as [Hrange Hfair].
  { unfold clamp. change MIN_READ_BUFFER with 4096. change MAX_READ_BUFFER with 16384. lia. }
  set (share := clamp _ _ _) in *. change MIN_READ_BUFFER with 4096 in *. change MAX_READ_BUFFER with 16384 in *.
  rewrite Z.shiftl_mul_pow2, Z.mul_1_l by apply Z.log2_nonneg.
  destruct (Z.log2_spec share) as [Hlow _]; [lia|].
  assert (4096 <= 2 ^ Z.log2 share) as Hmin.
  { change 4096 with (2 ^ Z.log2 4096). apply Z.pow_le_mono_r; [lia|]. apply Z.log2_le_mono. lia. }
  exists (Z.log2 share). split; [done|]. split; [lia|]. destruct Hfair as [Hfair|Hfair].
  - left. transitivity (fair * Z.max connections 1); [nia|]. unfold fair. rewrite Z.mul_comm. by apply Z.mul_div_le; lia.
  - right. rewrite Hfair. reflexivity.
Qed.

Lemma alternate_perm {A} (l1 l2 : list A) : alternate l1 l2 ≡ₚ l1 ++ l2.
Proof.
  revert l2. induction l1 as [|a l1 IH]; intros [|b l2]; cbn; [done..|by rewrite IH|].
  rewrite IH. by rewrite Permutation_middle.
Qed.

Lemma bool_filter_none {A} (f : A -> bool) l : Forall (fun x => f x = false) l -> List.filter f l = [].
Proof. induction 1 as [|x l Hx]; cbn; [done|]. by rewrite Hx. Qed.

Lemma bool_filter_all {A} (f : A -> bool) l : Forall (fun x => f x = true) l -> List.filter f l = l.
Proof. induction 1 as [|x l Hx _ IH]; cbn; [done|]. by rewrite Hx, IH. Qed.

(** Two parts that a test tells apart keep their order. *)
Lemma alternate_filter {A} (f : A -> bool) l1 l2 :
  (Forall (fun x => f x = true) l1 -> Forall (fun x => f x = false) l2 -> List.filter f (alternate l1 l2) = l1) /\
  (Forall (fun x => f x = false) l1 -> Forall (fun x => f x = true) l2 -> List.filter f (alternate l1 l2) = l2).
Proof.
  revert l2. induction l1 as [|a l1 IH]; intros l2.
  - split; intros _ H2; destruct l2 as [|b l2]; cbn [alternate]; try done; [by apply bool_filter_none|by apply bool_filter_all].
  - split; intros Ha%Forall_cons H2; destruct Ha as [Ha H1]; (destruct l2 as [|b l2]; [|apply Forall_cons in H2 as [Hb H2]]); cbn; rewrite Ha, ?Hb.
    + f_equal. by apply IH.
    + f_equal. by apply IH.
    + by apply (proj2 (IH [])).
    + f_equal. by apply IH.
Qed.

Lemma Forall_filter {A} (f : A -> bool) l : Forall (fun x => f x = true) (List.filter f l).
Proof. apply Forall_forall. intros x Hx. apply list_elem_of_In, List.filter_In in Hx as [_ Hx]. done. Qed.

Lemma partition_perm {A} (f : A -> bool) (l : list A) : (partition f l).1 ++ (partition f l).2 ≡ₚ l.
Proof.
  induction l as [|x l IH]; cbn in *; [done|]. destruct (f x); cbn; [by rewrite IH|]. rewrite <- Permutation_middle. by rewrite IH.
Qed.

(** Every address is kept, each family in the resolver's order, and the first
    address stays first. *)
Lemma families_keep_their_order addrs :
  interleave_families addrs ≡ₚ addrs /\ head (interleave_families addrs) = head addrs /\
  forall six, List.filter (fun a => Bool.eqb (is_ipv6 a) six) (interleave_families addrs) = List.filter (fun a => Bool.eqb (is_ipv6 a) six) addrs.
Proof.
  destruct addrs as [|first rest]; [done|]. set (addrs := first :: rest).
  set (p := fun a => Bool.eqb (is_ipv6 a) (is_ipv6 first)).
  assert (interleave_families addrs = alternate (List.filter p addrs) (List.filter (fun a => negb (p a)) addrs)) as -> by done.
  assert (p first = true) as Hp by apply eqb_reflx. split_and!.
  - rewrite alternate_perm. apply (partition_perm p).
  - unfold addrs. cbn. rewrite Hp. by destruct (List.filter (fun a => negb (p a)) _).
  - intros six. destruct (alternate_filter (fun a => Bool.eqb (is_ipv6 a) six) (List.filter p addrs) (List.filter (fun a => negb (p a)) addrs)) as [Hs Ho].
    pose proof (Forall_filter p addrs) as Hp1. pose proof (Forall_filter (fun a => negb (p a)) addrs) as Hp2.
    destruct (bool_dec six (is_ipv6 first)) as [->|Hne].
    + apply Hs; [done|]. eapply Forall_impl; [exact Hp2|]. intros a Ha. by apply negb_true_iff in Ha.
    + rewrite Ho.
      * apply filter_ext_In. intros a. unfold p. by destruct (is_ipv6 a), (is_ipv6 first), six.
      * eapply Forall_impl; [exact Hp1|]. unfold p. cbn. intros a Ha. by destruct (is_ipv6 a), (is_ipv6 first), six.
      * eapply Forall_impl; [exact Hp2|]. unfold p. cbn. intros a Ha. by destruct (is_ipv6 a), (is_ipv6 first), six.
Qed.

(** ** Witnesses *)

Lemma dead_addresses_hold_nothing_up_witness :
  let open (i : nat) (_ : Target) : option (Z * result nat IoError) :=
    match i with O => None | 1%nat => Some (from_millis 5, Err no_address) | _ => Some (from_millis 20, Ok 7%nat) end in
  let addrs : list Target := [(SocketV6 [1] 80 0 0, None); (SocketV4 [1] 80, None); (SocketV4 [2] 80, None)] in
  exists t opened, connect_tcp open (fun n => n) 0 addrs = Some (Won 2 7%nat t opened) /\ t <= ATTEMPT_DELAY * 2 + from_millis 20.
Proof.
  intros open addrs.
  destruct (dead_addresses_hold_nothing_up open (fun n => n) 0 addrs) as (raced & Hr & Hok).
  { intros [|[|i]] target d a [= <- <-]; vm_compute; discriminate. }
  vm_compute in Hr. injection Hr as <-. destruct Hok as (_ & _ & Hok). eexists _, _. split; [vm_compute; reflexivity|].
  exact (Hok 2%nat _ (from_millis 20) 7%nat eq_refl eq_refl).
Defined.

(** A host with two addresses of each family, whose IPv6 addresses never
    answer. *)
Module SampleNet.
#[export] Instance form_url : FormUrl (H := PlainLibs.plain_libs) := {|
  url_host (u : @Url PlainLibs.plain_libs) := Some (Domain (Plain.pl_authority (u : Plain.PlainUrl)));
  byte_serialize s := s;
  form_pairs _ := EmptyString;
|}.
#[export] Instance port_url : PortUrl (H := PlainLibs.plain_libs) := {|
  port_or_known_default u := Some 80;
  host_str (u : @Url PlainLibs.plain_libs) := Some (Plain.pl_authority (u : Plain.PlainUrl));
|}.
Definition found : list SocketAddr := [SocketV6 [1] 80 0 0; SocketV6 [2] 80 0 0; SocketV4 [1] 80; SocketV4 [2] 80].
#[export] Instance network : Network := {|
  TcpStream := SocketAddr; TlsStream := SocketAddr; WsStream := SocketAddr; Request := unit;
  lookup_host _ _ := Some (from_millis 3, Ok found);
  new_socket _ := Ok tt;
  bind _ := Ok tt;
  tcp_connect _ _ addr := if is_ipv4 addr then Some (from_millis 20, Ok addr) else None;
  peer_addr addr := Some addr;
  request_host _ := None;
  server_name _ := true;
  tls_connect _ addr := Some (0, Ok addr);
  client_async _ stream _ _ := match stream with inl addr | inr addr => Some (from_millis 1, Ok addr) end;
|}.
Definition url : @Url PlainLibs.plain_libs := Plain.mkPlainUrl "ws" "echo.test" "/" [].
Definition sources : list IpAddr := [IpV4 [10; 0; 0; 1]; IpV6 [9]; IpV4 [10; 0; 0; 2]].
Definition attempts : list ((nat -> nat) * @Request network) := replicate 3 (fun n => n, (tt : @Request network)).
End SampleNet.
#[local] Existing Instance PlainLibs.plain_libs.
#[local] Existing Instance SampleNet.form_url.
#[local] Existing Instance SampleNet.port_url.
#[local] Existing Instance SampleNet.network.

Example sample_target :
  let c := (prepare SampleNet.url (from_secs 1) 4 SampleNet.sources false).1 in
  let c3 := connects (from_secs 5) SampleNet.attempts c in
  ct_addrs c = Ok [SocketV6 [1] 80 0 0; SocketV4 [1] 80; SocketV6 [2] 80 0 0; SocketV4 [2] 80] /\
  ct_preferred c3 = 1 /\ sr_next (ct_sources c3) = 3.
Proof. vm_compute. done. Qed.

