(* ===== verification/Export.v ===== *)
(** * Live export of a run's metrics (src/src/export.rs, export/prometheus.rs,
      export/otel.rs, app.rs)

    What a run publishes while it lasts: the live counters, the elapsed time
    and the latency of the last completed interval; the Prometheus endpoint
    with its text format and its small HTTP server; and the OTLP instruments.
    The OpenTelemetry SDK and the sockets are not modelled: the SDK calls the
    callbacks, a socket gives bytes in pieces. *)

From Stdlib Require Import ZArith Lia Ascii String.
From stdpp Require Import base tactics strings numbers option list.
From S2P Require Import Prelude RustStd Str Json Url Libs Hdr Live HumanDuration TimeSeries LiveIntervals Wire Data Reply Slo Load Config Capture Replay Args Auth Jwt JwtTokens OAuth2 Connect.

Local Open Scope Z_scope.
Local Open Scope rust_scope.

(** ** What is exported *)

Record MetricInfo := mkMetricInfo { mi_prometheus : string; mi_otel : string; mi_unit : string; mi_help : string }.
Record CounterDef := mkCounterDef { cd_info : MetricInfo; cd_read : LiveSnapshot -> Z }.

Definition COUNTERS : list CounterDef := [
  mkCounterDef (mkMetricInfo "wsblast_messages_sent_total" "wsblast.messages.sent" "{message}"
    "Data frames written successfully.") sn_messages_sent;
  mkCounterDef (mkMetricInfo "wsblast_messages_received_total" "wsblast.messages.received" "{message}"
    "Data frames counted as received.") sn_messages_received;
  mkCounterDef (mkMetricInfo "wsblast_bytes_sent_total" "wsblast.bytes.sent" "By"
    "Payload bytes of the data frames sent.") sn_bytes_sent;
  mkCounterDef (mkMetricInfo "wsblast_bytes_received_total" "wsblast.bytes.received" "By"
    "Payload bytes of the data frames received.") sn_bytes_received;
  mkCounterDef (mkMetricInfo "wsblast_errors_total" "wsblast.errors" "{error}"
    "Errors recorded in every category.") sn_total_errors;
  mkCounterDef (mkMetricInfo "wsblast_connections_established_total" "wsblast.connections.established" "{connection}"
    "Connection slots that completed their first handshake.") sn_connections_established;
  mkCounterDef (mkMetricInfo "wsblast_connections_failed_total" "wsblast.connections.failed" "{attempt}"
    "Failed handshake attempts, including failed reconnect attempts.") sn_connections_failed;
  mkCounterDef (mkMetricInfo "wsblast_reconnects_total" "wsblast.reconnects" "{connection}"
    "Handshakes that re-established a connection slot after it lost its connection.") sn_reconnects
]%string.

Definition ACTIVE_CONNECTIONS : MetricInfo :=
  mkMetricInfo "wsblast_active_connections" "wsblast.connections.active" "{connection}" "WebSocket connections currently open.".
Definition RUN_ELAPSED : MetricInfo :=
  mkMetricInfo "wsblast_run_elapsed_seconds" "wsblast.run.elapsed" "s" "Seconds since the run's clock started; frozen when the run ends.".
Definition LATENCY : MetricInfo :=
  mkMetricInfo "wsblast_latency_seconds" "wsblast.latency" "s" "Latency percentiles of the most recently completed time-series interval.".
Definition LATENCY_SAMPLES : MetricInfo :=
  mkMetricInfo "wsblast_latency_samples" "wsblast.latency.samples" "{sample}"
    "Latency samples recorded in the most recently completed time-series interval.".

Record IntervalExport := mkIntervalExport { ie_basis : string; ie_count : Z; ie_p50_us : Z; ie_p90_us : Z; ie_p99_us : Z }.
Record ExportSnapshot := mkExportSnapshot { es_counters : LiveSnapshot; es_elapsed : Z; es_latency : option IntervalExport }.

Definition quantiles (e : IntervalExport) : list (string * f64) :=
  if ie_count e =? 0 then []
  else let secs us := f64_div (f64_of_Z us) (f64_of_Z 1000000) in
       [("0.5", secs (ie_p50_us e)); ("0.9", secs (ie_p90_us e)); ("0.99", secs (ie_p99_us e))]%string.

Section Source.
Context {H : Type} `{Hdr H} (stores : nat -> IntervalStore H).

(** The shared counters and intervals, as a reader finds them. *)
Record ExportSource := mkExportSource { xs_live : LiveMetrics; xs_intervals : LiveState }.

Definition source_counters (s : ExportSource) : LiveSnapshot := Live.snapshot (xs_live s).
Definition source_elapsed (now : Z) (s : ExportSource) : Z := live_elapsed now (xs_intervals s).
Definition source_latency (now : Z) (s : ExportSource) : option IntervalExport :=
  (fun completed => let latency := ci_latency completed in
     mkIntervalExport (ci_basis completed) (il_count latency) (il_p50_us latency) (il_p90_us latency) (il_p99_us latency))
  <$> last_completed stores now (xs_intervals s).
Definition source_finish (now : Z) (s : ExportSource) : ExportSource := mkExportSource (xs_live s) (live_finish now (xs_intervals s)).
Definition source_snapshot (now : Z) (s : ExportSource) : ExportSnapshot :=
  mkExportSnapshot (source_counters s) (source_elapsed now s) (source_latency now s).
End Source.

(** ** The text format *)


(** A quoted label value: the code writes it as it is. *)
Definition QUOTE : ascii := ascii_of_byte 34.
Definition quoted (s : string) : string := String QUOTE (s +:+ String QUOTE EmptyString).

Section Prometheus.
Context `{Formatter}.

Definition metric_header (info : MetricInfo) (kind : string) : list string :=
  ["# HELP " +:+ mi_prometheus info +:+ " " +:+ mi_help info; "# TYPE " +:+ mi_prometheus info +:+ " " +:+ kind]%string.

(** The lines of [render], in order; each [writeln!] ends one. *)
Definition exposition_lines (s : ExportSnapshot) : list string :=
  flat_map (fun c => metric_header (cd_info c) "counter" ++ [mi_prometheus (cd_info c) +:+ " " +:+ display_u64 (cd_read c (es_counters s))]%string) COUNTERS
  ++ metric_header ACTIVE_CONNECTIONS "gauge"
  ++ [mi_prometheus ACTIVE_CONNECTIONS +:+ " " +:+ display_u64 (sn_active_connections (es_counters s))]%string
  ++ metric_header RUN_ELAPSED "gauge"
  ++ [mi_prometheus RUN_ELAPSED +:+ " " +:+ display_f64 (as_secs_f64 (es_elapsed s))]%string
  ++ metric_header LATENCY "gauge"
  ++ match es_latency s with
     | Some latency => (fun q => mi_prometheus LATENCY +:+ "{basis=" +:+ quoted (ie_basis latency) +:+ ",quantile=" +:+ quoted q.1 +:+ "} " +:+ display_f64 q.2)%string <$> quantiles latency
     | None => []
     end
  ++ metric_header LATENCY_SAMPLES "gauge"
  ++ match es_latency s with
     | Some latency => [mi_prometheus LATENCY_SAMPLES +:+ "{basis=" +:+ quoted (ie_basis latency) +:+ "} " +:+ display_u64 (ie_count latency)]%string
     | None => []
     end.

Definition prometheus_render (s : ExportSnapshot) : string := String.concat "" ((fun line => line +:+ newline)%string <$> exposition_lines s).

(** ** The endpoint *)

Definition MAX_CONCURRENT : Z := 32.











(** What happens to the server: a connection is accepted or fails to be, a
    handler ends, the run ends. *)
Inductive ServeEvent := Accepted (connection : nat) | AcceptFailed | HandlerEnded (place : nat) | Cancelled.

(** The counter, the connections with a handler, those closed unanswered, and
    whether the loop runs. *)
Record Serving := mkServing { sv_in_flight : Z; sv_handled : list nat; sv_refused : list nat; sv_running : bool }.

(** One event; cancelling ends the loop and, through their own [select!], the
    handlers. *)
Definition serve (e : ServeEvent) (s : Serving) : Serving :=
  match e with
  | Accepted connection =>
      if sv_running s then
        if MAX_CONCURRENT <=? sv_in_flight s then
          mkServing ((sv_in_flight s +u 1) -u 1) (sv_handled s) (sv_refused s ++ [connection]) true
        else mkServing (sv_in_flight s +u 1) (sv_handled s ++ [connection]) (sv_refused s) true
      else s
  | AcceptFailed => s
  | HandlerEnded place =>
      match sv_handled s !! place with
      | Some _ => mkServing (sv_in_flight s -u 1) (delete place (sv_handled s)) (sv_refused s) (sv_running s)
      | None => s
      end
  | Cancelled => mkServing (sv_in_flight s) (sv_handled s) (sv_refused s) false
  end.

End Prometheus.

(** ** OTLP *)

Definition MAX_EXPORT_TIMEOUT : Z := from_secs 5.
Definition METRICS_PATH : string := "/v1/metrics".

Record OtelSettings := mkOtelSettings {
  os_metrics_url : string;
  os_interval : Z;
  os_service_name : string;
  os_target_host : string;
  os_mode : string;
  os_defer_warning : bool;
}.

(** Whether a URL has a query and a fragment. *)
Class UrlParts `{Libs} := { url_query : Url -> option string; url_fragment : Url -> option string }.

(** [while url.ends_with('/') { url.pop() }] *)
Fixpoint pop_slashes (s : string) : string :=
  match s with
  | EmptyString => EmptyString
  | String c s =>
      match pop_slashes s with
      | EmptyString => if Ascii.eqb c "/" then EmptyString else String c EmptyString
      | s => String c s
      end
  end.

Section Otel.
Context `{Hlibs : Libs, !PortUrl, !UrlParts}.

Definition metrics_url (base : string) : result string WsBlastError :=
  let invalid reason := Err (ConfigFailure (InvalidOption ("--otel-endpoint '" +:+ base +:+ "': " +:+ reason))) in
  match url_parse base with
  | Err e => invalid e
  | Ok url =>
      if negb (bool_decide (url_scheme url = "http"%string) || bool_decide (url_scheme url = "https"%string)) then
        invalid "expected an http:// or https:// URL"%string
      else if bool_decide (default EmptyString (host_str url) = EmptyString) then invalid "the URL has no host"%string
      else if bool_decide (is_Some (url_query url)) || bool_decide (is_Some (url_fragment url)) then
        invalid "the URL must not have a query or fragment"%string
      else let text := pop_slashes (url_text url) in
           Ok (if ends_with METRICS_PATH text then text else text +:+ METRICS_PATH)%string
  end.

(** The flags of the exporters. *)
Record ExportFlags := mkExportFlags {
  xf_prometheus_listen : option string;
  xf_otel_endpoint : option string;
  xf_otel_interval : string;
  xf_otel_service_name : option string;
}.

(** [mode] is the mode's name on the command line, [service_env] the
    [OTEL_SERVICE_NAME] of the environment. *)
Definition otel_settings (flags : ExportFlags) (service_env : option string) (endpoint : string) (target : Url) (mode : string) (tui : bool)
    : result OtelSettings WsBlastError :=
  let? interval := parse_human_duration (xf_otel_interval flags) in
  if interval =? 0 then Err (ConfigFailure (InvalidOption "--otel-interval must be greater than zero"))
  else
    let named := match xf_otel_service_name flags with Some name => Some name | None => service_env end in
    let service_name := match named with
                        | Some name => if bool_decide (trim name = EmptyString) then "wsblast"%string else name
                        | None => "wsblast"%string
                        end in
    let? url := metrics_url endpoint in
    Ok (mkOtelSettings url interval service_name (default EmptyString (host_str target)) mode tui).

(** How long one export may take. *)
Definition export_timeout (settings : OtelSettings) : Z := Z.min (os_interval settings) MAX_EXPORT_TIMEOUT.

(** The exporters of a run: whether they share a source, the address the
    endpoint listens on, what OTLP was started with. *)
Record LiveExport := mkLiveExport { le_source : bool; le_prometheus : option string; le_otel : option OtelSettings }.

(** [LiveExport::start]; [listen] binds an address and tells the one it got,
    [build] makes the HTTP client and the exporter. *)
Definition export_start (flags : ExportFlags) (service_env : option string) (target : Url) (mode : string) (tui : bool)
    (listen : string -> result string string) (build : OtelSettings -> result unit string) : result (LiveExport * list string) WsBlastError :=
  let? otel := match xf_otel_endpoint flags with
               | Some endpoint => let? settings := otel_settings flags service_env endpoint target mode tui in Ok (Some settings)
               | None => Ok None
               end in
  let? served := match xf_prometheus_listen flags with
                 | Some addr =>
                     match listen addr with
                     | Ok local => Ok (Some local)
                     | Err e => Err (ConfigFailure (InvalidOption ("--prometheus-listen cannot listen on '" +:+ addr +:+ "': " +:+ e)))
                     end
                 | None => Ok None
                 end in
  let printed := match served with Some local => ["Serving Prometheus metrics at http://" +:+ local +:+ "/metrics"]%string | None => [] end in
  match otel with
  | Some settings =>
      match build settings with
      | Ok _ => Ok (mkLiveExport true served (Some settings), printed)
      | Err e => Err (ConfigFailure (InvalidOption e))
      end
  | None => Ok (mkLiveExport (bool_decide (is_Some served)) served None, printed)
  end.

End Otel.

(** [FailureNotice]: whether a failure was reported, and the warning held
    back; what a call prints. *)
Record FailureNotice := mkFailureNotice { fn_reported : bool; fn_deferred : option string }.

Definition notice_record (message : string) (defer : bool) (n : FailureNotice) : FailureNotice * list string :=
  if fn_reported n then (n, [])
  else if defer then (mkFailureNotice true (Some message), [])
  else (mkFailureNotice true (fn_deferred n), ["Warning: " +:+ message]%string).

Definition print_deferred (n : FailureNotice) : FailureNotice * list string :=
  match fn_deferred n with
  | Some message => (mkFailureNotice (fn_reported n) None, ["Warning: " +:+ message]%string)
  | None => (n, [])
  end.

(** [WarningExporter::export] of a batch that failed with this error, or did
    not. *)
Definition export_batch (url : string) (defer : bool) (failed : option string) (n : FailureNotice) : FailureNotice * list string :=
  match failed with
  | Some err => notice_record ("OpenTelemetry export to " +:+ url +:+ " failed: " +:+ err +:+
                  ". The run continues; later export failures are not reported.") defer n
  | None => (n, [])
  end.

(** An observation of an instrument: its metric, its kind, its value and
    attributes. *)
Inductive Number := U64 (n : Z) | F64 (x : f64).
Record Observation := mkObservation { ob_info : MetricInfo; ob_kind : string; ob_value : Number; ob_attributes : list (string * string) }.

(** What the callbacks that [register_instruments] registers observe, in the
    order they are registered. *)
Definition observations (settings : OtelSettings) (s : ExportSnapshot) : list Observation :=
  let attrs := [("server.address", os_target_host settings); ("wsblast.mode", os_mode settings)]%string in
  ((fun c => mkObservation (cd_info c) "counter" (U64 (cd_read c (es_counters s))) attrs) <$> COUNTERS)
  ++ [mkObservation ACTIVE_CONNECTIONS "gauge" (U64 (sn_active_connections (es_counters s))) attrs;
      mkObservation RUN_ELAPSED "gauge" (F64 (as_secs_f64 (es_elapsed s))) attrs]
  ++ match es_latency s with
     | None => []
     | Some latency =>
         ((fun q => mkObservation LATENCY "gauge" (F64 q.2) (attrs ++ [("basis", ie_basis latency); ("quantile", q.1)]%string)) <$> quantiles latency)
         ++ [mkObservation LATENCY_SAMPLES "gauge" (U64 (ie_count latency)) (attrs ++ [("basis", ie_basis latency)]%string)]
     end.

(** ** Heads of requests *)










(** ** Reading a request *)












Lemma list_ascii_app (a b : string) : list_ascii_of_string (a +:+ b) = list_ascii_of_string a ++ list_ascii_of_string b.
Proof. induction a as [|c a IH]; [done|]. rewrite app_string_cons. cbn. by rewrite IH. Qed.








(** ** Reading the text format *)

(** A text without line ends. *)
Definition line_char (c : ascii) : bool := negb (bool_decide (c = LF)) && negb (bool_decide (c = CR)).
Definition line_text (s : string) : bool := forallb line_char (list_ascii_of_string s).

(** [Display] of a float has no line ends. *)
Class FormatterLines `{Formatter} := display_f64_line : forall x, line_text (display_f64 x) = true.

Lemma line_text_app a b : line_text (a +:+ b) = line_text a && line_text b.
Proof. unfold line_text. by rewrite list_ascii_app, forallb_app. Qed.

Lemma line_text_cons c s : line_text (String c s) = line_char c && line_text s.
Proof. done. Qed.

Lemma line_text_elem s c : line_text s = true -> line_char c = false -> c ∉ list_ascii_of_string s.
Proof.
  unfold line_text. intros Hs Hc Hin. rewrite forallb_forall in Hs. apply list_elem_of_In in Hin. apply Hs in Hin. congruence.
Qed.

Lemma line_text_digits n : line_text (display_u64 n) = true.
Proof.
  unfold display_u64. generalize (N.to_uint (Z.to_N n)). intros d. induction d as [|d IH|d IH|d IH|d IH|d IH|d IH|d IH|d IH|d IH|d IH]; [done|cbn; exact IH..].
Qed.

Lemma strip_cr s : line_text s = true -> strip_suffix (String CR EmptyString) s = None.
Proof.
  intros Hs. destruct (strip_suffix (String CR EmptyString) s) as [s'|] eqn:E; [|done]. apply strip_suffix_Some in E. subst s.
  rewrite line_text_app in Hs. apply andb_prop in Hs as [_ Hs]. done.
Qed.

(** The lines written are the lines read. *)
Lemma lines_of_writes (ls : list string) : Forall (fun l => line_text l = true) ls ->
  lines (String.concat "" ((fun l => l +:+ newline)%string <$> ls)) = ls.
Proof.
  induction 1 as [|l ls Hl Hls IH]; [done|].
  assert (String.concat "" ((fun l => l +:+ newline)%string <$> l :: ls) =
          l +:+ String LF (String.concat "" ((fun l => l +:+ newline)%string <$> ls)))%string as ->.
  { rewrite fmap_cons. destruct ls as [|l' ls].
    - cbn. done.
    - rewrite fmap_cons. cbn [String.concat]. rewrite app_string_assoc. done. }
  unfold lines at 1. rewrite lines_loop_line; [by rewrite app_string_nil, IH| |].
  - by apply (line_text_elem l).
  - rewrite app_string_nil. by apply strip_cr.
Qed.

(** A reader of the format, for the samples written here: a name, labels
    without escapes, a value; comments give nothing. *)
Definition unquoted (s : string) : string :=
  match s with
  | String _ s => default EmptyString (strip_suffix (String QUOTE EmptyString) s)
  | EmptyString => EmptyString
  end.
Definition parse_label (s : string) : string * string :=
  match split_once "=" s with Some (key, value) => (key, unquoted value) | None => (s, EmptyString) end.
Definition parse_sample (line : string) : option (string * list (string * string) * string) :=
  if starts_with "#" line then None
  else '(series, value) ← split_once " " line;
       match split_once "{" series with
       | Some (name, labels) => Some (name, parse_label <$> split_on "," (default EmptyString (strip_suffix "}" labels)), value)
       | None => Some (series, [], value)
       end.

Section Agreement.
Context `{Formatter, !FormatterLines}.

Definition number_text (n : Number) : string := match n with U64 n => display_u64 n | F64 x => display_f64 x end.

Definition known_basis (s : ExportSnapshot) : Prop :=
  forall latency, es_latency s = Some latency -> ie_basis latency = "rtt"%string \/ ie_basis latency = "response_time"%string.

(** A line made of constants, numbers and names. *)
Ltac solve_line := unfold quoted; repeat (rewrite line_text_app || rewrite line_text_cons); rewrite ?line_text_digits, ?display_f64_line; reflexivity.

Lemma exposition_lines_text s : known_basis s -> Forall (fun l => line_text l = true) (exposition_lines s).
Proof.
  intros Hb. unfold exposition_lines, COUNTERS, metric_header. rewrite !Forall_app.
  cbn [flat_map cd_info mi_prometheus mi_help cd_read app ACTIVE_CONNECTIONS RUN_ELAPSED LATENCY LATENCY_SAMPLES].
  split_and!; try (repeat constructor; solve_line).
  - destruct (es_latency s) as [latency|] eqn:El; [|constructor]. apply Forall_fmap, Forall_forall. intros [q x] Hq. cbn [fst snd].
    unfold quantiles in Hq. destruct (_ =? 0); [by apply not_elem_of_nil in Hq|].
    cbv zeta in Hq. rewrite !elem_of_cons in Hq. assert (line_text q = true) as Hline by (destruct Hq as [[= -> _]|[[= -> _]|[[= -> _]|Hq]]]; [reflexivity..|by apply not_elem_of_nil in Hq]).
    unfold compose, quoted. cbn [fst snd]. repeat (rewrite line_text_app || rewrite line_text_cons). rewrite Hline, display_f64_line. by destruct (Hb latency El) as [->| ->].
  - destruct (es_latency s) as [latency|] eqn:El; [|constructor]. repeat constructor. destruct (Hb latency El) as [->| ->]; solve_line.
Qed.

(** Every observation's [TYPE] line is one of the lines, both written out. *)
Ltac declared :=
  intros o Ho; rewrite !elem_of_app in Ho; cbn [fmap list_fmap COUNTERS app] in Ho;
  repeat (rewrite elem_of_cons in Ho); rewrite ?elem_of_nil in Ho;
  repeat match type of Ho with _ \/ _ => destruct Ho as [Ho|Ho] end; try contradiction; subst o;
  apply list_elem_of_In; cbn -[display_u64 display_f64 quoted as_secs_f64 String.append]; repeat (first [left; reflexivity|right]).

(** A sample of the text and an observation that say the same: the metric,
    the value, and the labels, which OTLP has after the two attributes that
    every point carries. *)
Definition same_point (settings : OtelSettings) (sample : string * list (string * string) * string) (o : Observation) : Prop :=
  let '(name, labels, value) := sample in
  name = mi_prometheus (ob_info o) /\ value = number_text (ob_value o) /\
  ob_attributes o = [("server.address", os_target_host settings); ("wsblast.mode", os_mode settings)]%string ++ labels.

(** C37. The two exporters agree: a reader of the Prometheus text finds, in
    order, exactly the observations of the OTLP instruments, under the same
    metric and with the same value; each OTLP point carries
    [server.address] and [wsblast.mode], which the text leaves out, and then
    exactly the labels of the text; and the text declares each one's kind. *)
Theorem exporters_agree settings s (Hb : known_basis s) :
  Forall2 (same_point settings) (omap parse_sample (lines (prometheus_render s))) (observations settings s) /\
  forall o, o ∈ observations settings s -> ("# TYPE " +:+ mi_prometheus (ob_info o) +:+ " " +:+ ob_kind o)%string ∈ lines (prometheus_render s).
Proof.
  unfold prometheus_render. rewrite lines_of_writes by by apply exposition_lines_text.
  assert (omap parse_sample (exposition_lines s) =
    (fun o => (mi_prometheus (ob_info o), drop 2 (ob_attributes o), number_text (ob_value o))) <$> observations settings s) as Hs.
  { unfold exposition_lines, observations. destruct (es_latency s) as [latency|] eqn:El; [|reflexivity].
    unfold quantiles. destruct (ie_count latency =? 0); destruct (Hb latency El) as [->| ->]; reflexivity. }
  split.
  - rewrite Hs. apply Forall2_fmap_l, Forall_Forall2_diag. unfold observations. rewrite !Forall_app. split_and!.
    + by apply Forall_fmap, Forall_true.
    + by repeat constructor.
    + destruct (es_latency s); [|done]. apply Forall_app. split; [by apply Forall_fmap, Forall_true|by repeat constructor].
  - unfold exposition_lines, observations. destruct (es_latency s) as [latency|] eqn:El; [|declared].
    unfold quantiles. destruct (ie_count latency =? 0); declared.
Qed.

End Agreement.

(** ** The server, the warnings and the address *)

(** The counter is the number of handlers, at most [MAX_CONCURRENT]; a
    connection beyond them leaves it as it was. *)
Definition serving_ok (s : Serving) : Prop :=
  sv_in_flight s = Z.of_nat (length (sv_handled s)) /\ sv_in_flight s <= MAX_CONCURRENT.

Lemma serve_ok e s : serving_ok s -> serving_ok (serve e s).
Proof.
  intros [Hn Hmax]. unfold serve, serving_ok, MAX_CONCURRENT in *. destruct e as [connection| |place|]; cbn [sv_in_flight sv_handled].
  - destruct (sv_running s); [|done]. destruct (Z.leb_spec 32 (sv_in_flight s)); cbn [sv_in_flight sv_handled].
    + unfold u64_sub, u64_add. rewrite wrap_sub_l, wrap_id by (unfold is_uint; lia). lia.
    + rewrite u64_add_id, length_app by lia. cbn. lia.
  - done.
  - destruct (sv_handled s !! place) as [c|] eqn:E; [|done]. cbn [sv_in_flight sv_handled].
    pose proof (lookup_lt_Some _ _ _ E). rewrite length_delete by done. unfold u64_sub. rewrite wrap_id by (unfold is_uint; lia). lia.
  - done.
Qed.

Lemma server_stays_bounded events : serving_ok (fold_left (fun s e => serve e s) events (mkServing 0 [] [] true)).
Proof.
  assert (forall s, serving_ok s -> serving_ok (fold_left (fun s e => serve e s) events s)) as Hall.
  { induction events as [|e events IH]; intros s Hs; cbn; [done|]. by apply IH, serve_ok. }
  apply Hall. split; cbn; [done|]. by vm_compute.
Qed.

(** A run's batches, then the end of the run. *)
Definition otel_batch (url : string) (defer : bool) (s : FailureNotice * list string) (failed : option string) : FailureNotice * list string :=
  let (n, more) := export_batch url defer failed s.1 in (n, s.2 ++ more).
Definition otel_run (url : string) (defer : bool) (batches : list (option string)) : list string :=
  let (n, printed) := fold_left (otel_batch url defer) batches (mkFailureNotice false None, []) in
  printed ++ (print_deferred n).2.

Lemma reported_batches url defer batches n printed : fn_reported n = true ->
  fold_left (otel_batch url defer) batches (n, printed) = (n, printed).
Proof.
  intros Hn. induction batches as [|[err|] batches IH]; cbn [fold_left]; [done| |]; unfold otel_batch at 2; cbn [export_batch fst snd].
  - unfold notice_record. by rewrite Hn, app_nil_r.
  - by rewrite app_nil_r.
Qed.

(** However many exports fail, one warning is printed, about the first. *)
Lemma one_export_warning url defer batches :
  otel_run url defer batches =
  match omap id batches with
  | [] => []
  | err :: _ => [("Warning: OpenTelemetry export to " +:+ url +:+ " failed: " +:+ err +:+ ". The run continues; later export failures are not reported.")%string]
  end.
Proof.
  unfold otel_run. induction batches as [|[err|] batches IH]; [done| |exact IH].
  cbn [fold_left]. unfold otel_batch at 2. cbn [export_batch fst snd notice_record fn_reported].
  destruct defer; by rewrite reported_batches.
Qed.

(** A URL that is accepted posts to the metrics path of an HTTP server. *)
Lemma metrics_url_ends `{Hlibs : Libs, !PortUrl, !UrlParts} base text : metrics_url base = Ok text ->
  ends_with METRICS_PATH text = true /\
  exists url, url_parse base = Ok url /\ (url_scheme url = "http"%string \/ url_scheme url = "https"%string) /\ url_query url = None /\ url_fragment url = None.
Proof.
  unfold metrics_url. destruct (url_parse base) as [url|e]; [|done].
  destruct (_ || _) eqn:Es; [|done]. cbn [negb].
  destruct (bool_decide (default EmptyString (host_str url) = EmptyString)); [done|]. destruct (bool_decide (is_Some (url_query url)) || _) eqn:Eq; [done|].
  intros [= <-]. split.
  - destruct (ends_with METRICS_PATH (pop_slashes (url_text url))) eqn:E; [done|]. unfold ends_with. by rewrite strip_suffix_app.
  - exists url. apply orb_false_elim in Eq as [Eq Ef]. apply bool_decide_eq_false in Eq, Ef.
    apply eq_None_not_Some in Eq. apply eq_None_not_Some in Ef. split_and!; try done.
    apply orb_prop in Es as [Es|Es]; apply bool_decide_eq_true in Es; auto.
Qed.

(** ** Witnesses *)

Module SampleExport.
#[export] Instance formatter : Formatter := {| debug_duration d := display_u64 d; fixed n x := "0"%string; display_f64 x := "1.25"%string |}.
#[export] Instance formatter_lines : FormatterLines.
Proof. intros x. reflexivity. Defined.
Definition counters : LiveSnapshot := mkLiveSnapshot 2 2 3 4 12 11 1200 1100 1 0.
Definition snap : ExportSnapshot := mkExportSnapshot counters (from_millis 1250) (Some (mkIntervalExport "rtt" 9 1500 2000 12000)).
Definition settings : OtelSettings := mkOtelSettings "http://localhost:4318/v1/metrics" (from_secs 10) "wsblast" "localhost" "echo" false.
End SampleExport.
#[local] Existing Instance SampleExport.formatter.
#[local] Existing Instance SampleExport.formatter_lines.


Lemma exporters_agree_witness :
  known_basis SampleExport.snap /\
  exists sample, omap parse_sample (lines (prometheus_render SampleExport.snap)) !! 0%nat = Some sample /\
    sample = ("wsblast_messages_sent_total"%string, [], "12"%string) /\
    exists o, observations SampleExport.settings SampleExport.snap !! 0%nat = Some o /\ same_point SampleExport.settings sample o.
Proof.
  assert (known_basis SampleExport.snap) as Hb by (intros latency [= <-]; by left). split; [done|].
  destruct (exporters_agree SampleExport.settings SampleExport.snap Hb) as [Hall _].
  eexists. split; [vm_compute; reflexivity|]. split; [reflexivity|]. eexists. split; [reflexivity|].
  rewrite Forall2_lookup in Hall. specialize (Hall 0%nat). set (l := omap _ _) in Hall.
  assert (l !! 0%nat = Some ("wsblast_messages_sent_total"%string, [], "12"%string)) as Hl by (vm_compute; reflexivity).
  rewrite Hl in Hall. by inversion Hall.
Defined.
