(* ===== verification/Dashboard.v ===== *)
(** * The live dashboard (src/src/tui/source.rs, tui/model.rs, tui/app.rs,
      distributed/dashboard.rs)

    What the terminal dashboard reads on each refresh, what it remembers
    between two of them, and the values of the frame it draws; drawing itself
    (tui/widgets.rs) is not modelled. *)

From Stdlib Require Import ZArith Lia Ascii String SpecFloat Sorted.
From stdpp Require Import base tactics strings numbers option gmap list.
From S2P Require Import Prelude RustStd Str Hdr Live TimeSeries LiveIntervals Summaries Metrics Load Slo.

Local Open Scope Z_scope.
Local Open Scope rust_scope.

(** ** What the dashboard reads *)

Record AgentsView := mkAgentsView { av_total : Z; av_lost : list string }.

Record PhasePlan := mkPhasePlan {
  pp_name : option string;
  pp_index : Z;
  pp_total : Z;
  pp_connections : Z;
  pp_ramp_rate : Z;
  pp_duration : Z;
  pp_stages : list Stage;
  pp_slo : SloThresholds;
  pp_run_slo : SloThresholds;
}.

Definition no_thresholds : SloThresholds := mkSloThresholds None None None None None None None.

(** [PhasePlan::for_run], of the parts of a run's configuration it copies. *)
Definition for_run (connections ramp_rate duration : Z) (stages : list Stage) (slo : SloThresholds) : PhasePlan :=
  mkPhasePlan None 0 1 connections ramp_rate duration stages slo no_thresholds.

Record FinishedPhase := mkFinishedPhase { fp_name : string; fp_passed : bool; fp_checks : Z; fp_failed : list string }.
Record ProgressView := mkProgressView { pv_current : option PhasePlan; pv_finished : list FinishedPhase }.

(** [RunProgress::begin_phase] and [end_phase] on its state. *)
Definition progress_begin_phase (plan : PhasePlan) (p : ProgressView) : ProgressView := mkProgressView (Some plan) (pv_finished p).
Definition progress_end_phase (name : string) (slo : SloEvaluation) (p : ProgressView) : ProgressView :=
  mkProgressView (pv_current p) (pv_finished p ++
    [mkFinishedPhase name (se_passed slo) (Z.of_nat (length (se_checks slo)))
       (sc_name <$> filter (fun check => sc_passed check = false) (se_checks slo))]).

(** The answers of a [DashboardSource] at one refresh. *)
Record Reading := mkReading {
  rd_counters : LiveSnapshot;
  rd_run_elapsed : Z;
  rd_phase_clock : option PhaseClock;
  rd_last_interval : option CompletedInterval;
  rd_progress : ProgressView;
  rd_agents : option AgentsView;
}.

Section Feeds.
Context {H : Type} `{Hdr H} (stores : nat -> IntervalStore H).

(** [RunFeed], read at [now]. *)
Record RunFeed := mkRunFeed { rf_live : LiveMetrics; rf_intervals : LiveState; rf_progress : ProgressView }.
Definition run_feed (now : Z) (f : RunFeed) : Reading :=
  mkReading (Live.snapshot (rf_live f)) (live_elapsed now (rf_intervals f)) (phase_clock stores now (rf_intervals f))
    (last_completed stores now (rf_intervals f)) (rf_progress f) None.

(** The agents of a run and which are lost. *)
Record AgentBoard := mkAgentBoard { ab_names : list string; ab_lost : list bool }.
Definition AgentBoard_new (names : list string) : AgentBoard := mkAgentBoard names (replicate (length names) false).
Definition mark_lost (index : nat) (b : AgentBoard) : AgentBoard := mkAgentBoard (ab_names b) (<[index := true]> (ab_lost b)).
Definition board_view (b : AgentBoard) : AgentsView :=
  mkAgentsView (Z.of_nat (length (ab_names b))) (fst <$> filter (fun e => e.2 = true) (zip (ab_names b) (ab_lost b))).

(** [ClusterFeed] *)
Definition cluster_feed (now : Z) (f : RunFeed) (b : AgentBoard) : Reading :=
  let r := run_feed now f in
  mkReading (rd_counters r) (rd_run_elapsed r) (rd_phase_clock r) (rd_last_interval r) (rd_progress r) (Some (board_view b)).
End Feeds.

(** ** The frame *)

Definition HISTORY : nat := 240.
Definition THROUGHPUT_TICK : Z := from_millis 500.

Record RunInfo := mkRunInfo { ri_target : string; ri_mode : string }.

Record PhaseView := mkPhaseView {
  pw_name : option string;
  pw_number : Z;
  pw_total : Z;
  pw_elapsed : Z;
  pw_duration : Z;
  pw_starting : bool;
}.

(** [x.clamp(0.0, 1.0)] *)
Definition f64_clamp_unit (x : f64) : f64 :=
  if f64_ltb x f64_zero then f64_zero else if f64_ltb (f64_of_Z 1) x then f64_of_Z 1 else x.
Definition phase_ratio (p : PhaseView) : f64 :=
  if pw_duration p =? 0 then f64_of_Z 1
  else f64_clamp_unit (f64_div (as_secs_f64 (pw_elapsed p)) (as_secs_f64 (pw_duration p))).

Record StageView := mkStageView { sw_number : Z; sw_total : Z; sw_end_target : Z; sw_left : Z }.

Record LatencyView := mkLatencyView {
  lv_basis : option string;
  lv_samples : option Z;
  lv_p50_us : Z;
  lv_p90_us : Z;
  lv_p99_us : Z;
  lv_interval : Z;
}.
Definition has_samples (l : LatencyView) : bool := match lv_samples l with Some count => 0 <? count | None => false end.
Definition basis_label (basis : option string) : string :=
  match basis with
  | Some basis => if bool_decide (basis = "response_time"%string) then "response time" else "RTT"
  | None => "latency"
  end.

Record WindowView := mkWindowView { ww_secs : f64; ww_errors : Z; ww_error_rate : option f64; ww_throughput : f64 }.
Definition WindowView_default : WindowView := mkWindowView f64_zero 0 None f64_zero.

Inductive SloScope := RunScope | PhaseScope | ScenarioScope.
Inductive SloState := SloOk | Breaching | NoData.
Inductive Limit := Max (max : f64) | Min (min : f64).

Definition slo_state (limit : Limit) (live : option f64) : SloState :=
  match live with
  | Some live =>
      if f64_is_finite live then
        if match limit with Max max => f64_ltb max live | Min min => f64_ltb live min end then Breaching else SloOk
      else NoData
  | None => NoData
  end.

Record SloRow := mkSloRow { sr_name : string; sr_threshold : string; sr_live : string; sr_state : SloState }.

Record DashboardView := mkDashboardView {
  dv_info : RunInfo;
  dv_run_elapsed : Z;
  dv_counters : LiveSnapshot;
  dv_phase : option PhaseView;
  dv_latency : LatencyView;
  dv_window : WindowView;
  dv_target_connections : option Z;
  dv_stage : option StageView;
  dv_throughput_history : list Z;
  dv_p99_history : list Z;
  dv_slo_scope : SloScope;
  dv_slo : list SloRow;
  dv_finished : list FinishedPhase;
  dv_agents : option AgentsView;
}.

(** What the dashboard remembers. *)
Record Dashboard := mkDashboard {
  da_info : RunInfo;
  da_samples : list (Z * LiveSnapshot);
  da_throughput : list Z;
  da_last_throughput : option (Z * Z);
  da_p99 : list ((Z * Z) * Z);
}.
#[export] Instance Dashboard_settable : Settable Dashboard := fun d =>
  mkDashboard (da_info d) (da_samples d) (da_throughput d) (da_last_throughput d) (da_p99 d).
Definition Dashboard_new (info : RunInfo) : Dashboard := mkDashboard info [] [] None [].

Definition push_bounded {A} (value : A) (history : list A) : list A :=
  (if (HISTORY <=? length history)%nat then drop 1 history else history) ++ [value].

Definition messages_of (s : LiveSnapshot) : Z := Z.max (sn_messages_sent s) (sn_messages_received s).

Definition record_throughput (now : Z) (counters : LiveSnapshot) (d : Dashboard) : Dashboard :=
  let messages := messages_of counters in
  match da_last_throughput d with
  | None => d <| da_last_throughput := Some (now, messages) |>
  | Some (at_, before) =>
      if at_ + THROUGHPUT_TICK <=? now then
        let rate := f64_div (f64_of_Z (u64_saturating_sub messages before)) (as_secs_f64 (now - at_)) in
        d <| da_throughput ::= push_bounded (f64_round_as_u64 rate) |> <| da_last_throughput := Some (now, messages) |>
      else d
  end.

(** [while self.samples.len() > 2 && self.samples[1].0 + interval <= now] *)
Fixpoint trim_samples (interval now : Z) (samples : list (Z * LiveSnapshot)) : list (Z * LiveSnapshot) :=
  match samples with
  | _ :: ((second :: _ :: _) as rest) => if second.1 + interval <=? now then trim_samples interval now rest else samples
  | _ => samples
  end.

(** The rates between two reads. *)
Definition window_between (start now : Z) (first counters : LiveSnapshot) : WindowView :=
  let secs := as_secs_f64 (duration_saturating_sub now start) in
  if f64_leb secs f64_zero then WindowView_default
  else
    let errors := u64_saturating_sub (sn_total_errors counters) (sn_total_errors first) in
    let sent := u64_saturating_sub (sn_messages_sent counters) (sn_messages_sent first) in
    let received := u64_saturating_sub (sn_messages_received counters) (sn_messages_received first) in
    let attempted := sent +u errors in
    mkWindowView secs errors (if 0 <? attempted then Some (f64_div (f64_of_Z errors) (f64_of_Z attempted)) else None)
      (f64_div (f64_of_Z (Z.max sent received)) secs).

Definition window (now : Z) (counters : LiveSnapshot) (interval : Z) (d : Dashboard) : Dashboard * WindowView :=
  let samples := trim_samples interval now (da_samples d ++ [(now, counters)]) in
  (d <| da_samples := samples |>,
   match samples with (start, first) :: _ => window_between start now first counters | [] => WindowView_default end).

Definition record_p99 (key : Z * Z) (latency : LatencyView) (d : Dashboard) : Dashboard :=
  let p99 := if has_samples latency then lv_p99_us latency else 0 in
  match last (da_p99 d) with
  | Some (last_key, _) =>
      if bool_decide (last_key = key) then d <| da_p99 ::= fun l => removelast l ++ [(key, p99)] |>
      else d <| da_p99 ::= push_bounded (key, p99) |>
  | None => d <| da_p99 ::= push_bounded (key, p99) |>
  end.

(** [x.floor() as usize] of a number that is not negative. *)
Definition f64_floor_as_usize (x : f64) : Z :=
  match x with
  | S754_finite false m e => Z.min u64_max (if 0 <=? e then Zpos m * 2 ^ e else Zpos m / 2 ^ (- e))
  | S754_infinity false => u64_max
  | _ => 0
  end.

(** [target_at] of the model. *)
Definition plan_target_at (plan : PhasePlan) (elapsed : Z) : Z :=
  if negb (bool_decide (length (pp_stages plan) = 0%nat)) then target_at (pp_stages plan) elapsed
  else if pp_ramp_rate plan =? 0 then pp_connections plan
  else Z.min (f64_floor_as_usize (f64_mul (as_secs_f64 elapsed) (f64_of_Z (pp_ramp_rate plan))) +u 1) (pp_connections plan).

Fixpoint stage_from (index total end_ : Z) (stages : list Stage) (elapsed : Z) : option StageView :=
  match stages with
  | [] => None
  | stage :: rest =>
      let end_ := end_ + sg_duration stage in
      if (elapsed <? end_) || (index + 1 =? total) then
        Some (mkStageView (index + 1) total (sg_target stage) (duration_saturating_sub end_ elapsed))
      else stage_from (index + 1) total end_ rest elapsed
  end.
Definition stage_at (stages : list Stage) (elapsed : Z) : option StageView := stage_from 0 (Z.of_nat (length stages)) 0 stages elapsed.

Section Frames.
Context `{Formatter}.

Definition format_micros (us : Z) : string :=
  if us <? 1000 then (display_u64 us +:+ "us")%string
  else if us <? 1000000 then (fixed 1 (f64_div (f64_of_Z us) (f64_of_Z 1000)) +:+ "ms")%string
  else (fixed 2 (f64_div (f64_of_Z us) (f64_of_Z 1000000)) +:+ "s")%string.

Definition format_count (value : f64) : string :=
  if f64_ltb value (f64_of_Z 10000) then fixed 0 value
  else if f64_ltb value (f64_of_Z 1000000) then (fixed 1 (f64_div value (f64_of_Z 1000)) +:+ "k")%string
  else (fixed 2 (f64_div value (f64_of_Z 1000000)) +:+ "M")%string.

Definition two_digits (n : Z) : string := if n <? 10 then ("0" +:+ display_u64 n)%string else display_u64 n.
Definition format_duration (d : Z) : string :=
  let secs := as_secs d in
  if secs <? 60 then (fixed 1 (as_secs_f64 d) +:+ "s")%string
  else if secs <? 3600 then (display_u64 (secs / 60) +:+ "m" +:+ two_digits (secs mod 60) +:+ "s")%string
  else (display_u64 (secs / 3600) +:+ "h" +:+ two_digits (secs mod 3600 / 60) +:+ "m")%string.

(** A latency threshold's row; [live] is [None] for a percentile that only
    the final report has.  [as u64] keeps the low bits of the microseconds. *)
Definition latency_row (name : string) (max : Z) (live : option Z) (has_latency : bool) : SloRow :=
  let (text, value) :=
    match live with
    | None => ("final only"%string, None)
    | Some us => if has_latency then (format_micros us, Some (f64_of_Z us)) else ("no samples"%string, None)
    end in
  mkSloRow name ("<= " +:+ format_micros (as_u64 (as_micros max)))%string text (slo_state (Max (f64_of_Z (as_micros max))) value).

Definition slo_rows (slo : SloThresholds) (latency : LatencyView) (window : WindowView) : list SloRow :=
  let has_latency := has_samples latency in
  let response := bool_decide (lv_basis latency = Some "response_time"%string) in
  omap (fun '(rtt_name, rt_name, max, live) =>
          (fun max => latency_row (if response then rt_name else rtt_name) max live has_latency) <$> max)
    [("p50", "rt p50", max_p50 slo, Some (lv_p50_us latency)); ("p95", "rt p95", max_p95 slo, None);
     ("p99", "rt p99", max_p99 slo, Some (lv_p99_us latency)); ("p99.9", "rt p99.9", max_p999 slo, None)]%string
  ++ match max_error_rate slo with
     | Some max => [mkSloRow "errors" ("<= " +:+ percent max)
         match ww_error_rate window with Some rate => "~" +:+ percent rate | None => "none tried" end
         (slo_state (Max max) (ww_error_rate window))]%string
     | None => []
     end
  ++ match min_throughput slo with
     | Some min =>
         let live := if f64_ltb f64_zero (ww_secs window) then Some (ww_throughput window) else None in
         [mkSloRow "msg/s" (">= " +:+ format_count min) match live with Some live => format_count live | None => "starting" end
            (slo_state (Min min) live)]%string
     | None => []
     end.

(** [plan.slo != SloThresholds::default()] *)
Definition sets_thresholds (slo : SloThresholds) : bool :=
  match slo with mkSloThresholds None None None None None None None => false | _ => true end.

(** The clock of the phase that the plan describes: the one registered may
    still be the previous phase's. *)
Definition current_clock (r : Reading) : option PhaseClock :=
  match rd_phase_clock r with
  | Some clock => if match pv_current (rd_progress r) with None => true | Some plan => pc_seq clock =? pp_index plan end then Some clock else None
  | None => None
  end.

(** The latency of a frame, and the interval whose p99 is recorded. *)
Definition read_latency (r : Reading) (interval : Z) : LatencyView * option (Z * Z) :=
  match current_clock r, rd_last_interval r with
  | Some clock, Some completed =>
      if ci_phase completed =? pc_seq clock then
        let l := ci_latency completed in
        (mkLatencyView (Some (ci_basis completed)) (Some (il_count l)) (il_p50_us l) (il_p90_us l) (il_p99_us l) interval,
         Some (ci_phase completed, ci_index completed))
      else (mkLatencyView (Some (pc_basis clock)) None 0 0 0 interval, None)
  | clock, _ => (mkLatencyView (pc_basis <$> clock) None 0 0 0 interval, None)
  end.

(** The thresholds of the SLO panel. *)
Definition shown_thresholds (plan : option PhasePlan) : SloScope * SloThresholds :=
  match plan with
  | Some plan =>
      match pp_name plan with
      | None => (RunScope, pp_slo plan)
      | Some _ => if sets_thresholds (pp_slo plan) then (PhaseScope, pp_slo plan) else (ScenarioScope, pp_run_slo plan)
      end
  | None => (RunScope, no_thresholds)
  end.

Definition update (r : Reading) (d : Dashboard) : Dashboard * DashboardView :=
  let counters := rd_counters r in
  let interval := match rd_phase_clock r with Some clock => pc_interval clock | None => from_secs 1 end in
  let d := record_throughput (rd_run_elapsed r) counters d in
  let (d, window) := window (rd_run_elapsed r) counters interval d in
  let plan := pv_current (rd_progress r) in
  let clock := current_clock r in
  let phase := (fun plan => mkPhaseView (pp_name plan) (pp_index plan + 1) (pp_total plan)
                  match clock with Some clock => pc_elapsed clock | None => 0 end (pp_duration plan)
                  match clock with Some _ => false | None => true end) <$> plan in
  let (latency, completed) := read_latency r interval in
  let d := match completed with Some key => record_p99 key latency d | None => d end in
  let (target_connections, stage) :=
    match plan, clock with
    | Some plan, Some clock =>
        if pc_ended clock then (None, None) else (Some (plan_target_at plan (pc_elapsed clock)), stage_at (pp_stages plan) (pc_elapsed clock))
    | _, _ => (None, None)
    end in
  let (slo_scope, thresholds) := shown_thresholds plan in
  (d, mkDashboardView (da_info d) (rd_run_elapsed r) counters phase latency window target_connections stage
        (da_throughput d) (da_p99 d).*2 slo_scope (slo_rows thresholds latency window) (pv_finished (rd_progress r)) (rd_agents r)).

(** ** The event loop *)

Inductive KeyCode := Char (c : ascii) | Esc | OtherKey.
Definition is_stop_key (code : KeyCode) (control : bool) : bool :=
  match code with
  | Char c => Ascii.eqb c "q" || Ascii.eqb c "Q" || (Ascii.eqb c "c" && control)
  | Esc => true
  | OtherKey => false
  end.

(** What a round of the event loop wakes up for: one of the two tokens, the
    refresh with what the source says, a terminal event. *)
Inductive TuiEvent :=
| RunCancelled | RunDone
| Tick (r : Reading) (drawn : result unit string)
| KeyPressed (code : KeyCode) (control : bool)
| OtherEvent
| EventError (e : string)
| InputClosed.

(** The loop's state, and how it may end: whether it cancelled the run. *)
Record Tui := mkTui { tu_dashboard : Dashboard; tu_frames : list DashboardView; tu_input_open : bool }.
Inductive TuiEnd := TuiClosed (cancelled : bool) | TuiFailed (e : string).

(** One round; terminal events are only awaited while the input is open. *)
Definition tui_round (e : TuiEvent) (t : Tui) : Tui * option TuiEnd :=
  match e with
  | RunCancelled | RunDone => (t, Some (TuiClosed false))
  | Tick r drawn =>
      let (d, view) := update r (tu_dashboard t) in
      match drawn with
      | Ok _ => (mkTui d (tu_frames t ++ [view]) (tu_input_open t), None)
      | Err e => (mkTui d (tu_frames t) (tu_input_open t), Some (TuiFailed e))
      end
  | KeyPressed code control => if tu_input_open t && is_stop_key code control then (t, Some (TuiClosed true)) else (t, None)
  | OtherEvent => (t, None)
  | EventError e => if tu_input_open t then (t, Some (TuiFailed e)) else (t, None)
  | InputClosed => (mkTui (tu_dashboard t) (tu_frames t) false, None)
  end.

Fixpoint event_loop (events : list TuiEvent) (t : Tui) : Tui * option TuiEnd :=
  match events with
  | [] => (t, None)
  | e :: events =>
      let (t, ended) := tui_round e t in
      match ended with Some end_ => (t, Some end_) | None => event_loop events t end
  end.

End Frames.
(** ** Small integers as floats *)

Lemma digits2_log2 p : Zpos (digits2_pos p) = Z.log2 (Zpos p) + 1.
Proof.
  induction p as [p IH|p IH|]; cbn [digits2_pos]; [| |reflexivity].
  - rewrite Pos2Z.inj_succ, IH, Pos2Z.inj_xI, Z.log2_succ_double by lia. lia.
  - rewrite Pos2Z.inj_succ, IH, Pos2Z.inj_xO, Z.log2_double by lia. lia.
Qed.

Definition f64_mantissa (z : Z) : Z := z * 2 ^ (52 - Z.log2 z).

Lemma shr_fexp_exact m e : 2 ^ 52 <= Zpos m < 2 ^ 53 -> -1074 <= e ->
  shr_fexp f64_prec f64_emax (Zpos m) e loc_Exact = (Build_shr_record (Zpos m) false false, e).
Proof.
  intros Hm He. unfold shr_fexp. cbn [Zdigits2 shr_record_of_loc]. rewrite digits2_log2.
  assert (Z.log2 (Zpos m) = 52) as -> by (apply Z.log2_unique; lia).
  unfold fexp, emin, f64_prec, f64_emax. assert (Z.max (52 + 1 + e - 53) (3 - 1024 - 53) - e = 0) as -> by lia. done.
Qed.

Lemma f64_of_pos p : Zpos p < 2 ^ 53 ->
  f64_of_Z (Zpos p) = S754_finite false (Z.to_pos (f64_mantissa (Zpos p))) (Z.log2 (Zpos p) - 52).
Proof.
  intros Hp. set (n := Z.log2 (Zpos p)). assert (0 <= n <= 52) as Hn.
  { split; [apply Z.log2_nonneg|]. assert (n < 53) by (apply Z.log2_lt_pow2; lia). lia. }
  destruct (Z.log2_spec (Zpos p)) as [Hlo Hhi]; [lia|]. fold n in Hlo, Hhi.
  unfold f64_of_Z, binary_normalize, binary_round. rewrite digits2_log2. fold n.
  assert (fexp f64_prec f64_emax (n + 1 + 0) = n - 52) as -> by (unfold fexp, emin, f64_prec, f64_emax; lia).
  assert (2 ^ 52 <= f64_mantissa (Zpos p) < 2 ^ 53) as Hm.
  { unfold f64_mantissa. fold n. replace 52 with (n + (52 - n)) at 1 by lia. replace 53 with (Z.succ n + (52 - n)) by lia.
    rewrite !Z.pow_add_r by lia. split; [apply Z.mul_le_mono_nonneg_r|apply Z.mul_lt_mono_pos_r]; lia. }
  assert (shl_align p 0 (n - 52) = (Z.to_pos (f64_mantissa (Zpos p)), n - 52)) as ->.
  { unfold shl_align, f64_mantissa. fold n. rewrite Z.sub_0_r. destruct (n - 52) as [|q|q] eqn:E; [|lia|].
    - assert (52 - n = 0) as -> by lia. by rewrite Z.mul_1_r.
    - f_equal. apply Pos2Z.inj. change (PosDef.Pos.iter xO p q) with (shift_pos q p). rewrite shift_pos_correct, Z2Pos.id by lia. replace (52 - n) with (Zpos q) by lia. cbn. lia. }
  set (m := Z.to_pos (f64_mantissa (Zpos p))). assert (2 ^ 52 <= Zpos m < 2 ^ 53) as Hm' by (unfold m; rewrite Z2Pos.id; lia).
  unfold binary_round_aux. rewrite shr_fexp_exact by lia. cbn [shr_m loc_of_shr_record shr_r shr_s round_nearest_even].
  rewrite shr_fexp_exact by lia. cbn [shr_m]. rewrite (proj2 (Z.leb_le _ _)); [done|]. unfold f64_emax, f64_prec. lia.
Qed.

(** Integers below [2^53] compare as floats as they do as integers. *)
Lemma f64_ltb_Z a b : 0 <= a < 2 ^ 53 -> 0 <= b < 2 ^ 53 -> f64_ltb (f64_of_Z a) (f64_of_Z b) = (a <? b).
Proof.
  intros Ha Hb. destruct a as [|a|a], b as [|b|b]; try lia; try reflexivity.
  - rewrite f64_of_pos by lia. reflexivity.
  - rewrite f64_of_pos by lia. reflexivity.
  - rewrite !f64_of_pos by lia. unfold f64_ltb, SFltb, SFcompare.
    destruct (Z.log2_spec (Zpos a)) as [Ha1 Ha2]; [lia|]. destruct (Z.log2_spec (Zpos b)) as [Hb1 Hb2]; [lia|].
    destruct (Z.compare_spec (Z.log2 (Zpos a) - 52) (Z.log2 (Zpos b) - 52)) as [Heq|Hlt|Hgt].
    + assert (Z.log2 (Zpos a) = Z.log2 (Zpos b)) as E by lia. unfold f64_mantissa. rewrite E.
      assert (0 <= Z.log2 (Zpos b) <= 52) as Hn.
      { split; [apply Z.log2_nonneg|]. assert (Z.log2 (Zpos b) < 53) by (apply Z.log2_lt_pow2; lia). lia. }
      assert (0 < 2 ^ (52 - Z.log2 (Zpos b))) as Hpos by (apply Z.pow_pos_nonneg; lia).
      change (Pos.compare_cont Eq ?x ?y) with (Pos.compare x y). rewrite <- Z2Pos.inj_compare by lia.
      rewrite <- Zmult_compare_compat_r by lia. unfold Z.ltb. by destruct (Zpos a ?= Zpos b).
    + symmetry. apply Z.ltb_lt. apply (Z.lt_le_trans _ _ _ Ha2). etransitivity; [|exact Hb1]. apply Z.pow_le_mono_r; lia.
    + symmetry. apply Z.ltb_ge. apply Z.lt_le_incl. apply (Z.lt_le_trans _ _ _ Hb2). etransitivity; [|exact Ha1]. apply Z.pow_le_mono_r; lia.
Qed.

Lemma f64_of_Z_finite z : 0 <= z < 2 ^ 53 -> f64_is_finite (f64_of_Z z) = true.
Proof. intros Hz. destruct z as [|p|p]; [done| |lia]. by rewrite f64_of_pos by lia. Qed.

(** Of two numbers, one is below the other or it is not. *)
Lemma f64_ltb_leb a b : f64_is_nan a = false -> f64_is_nan b = false -> f64_ltb a b = negb (f64_leb b a).
Proof.
  unfold f64_ltb, f64_leb, SFltb, SFleb. intros Ha Hb.
  destruct a as [[]|[]| |[] ma ea], b as [[]|[]| |[] mb eb]; try done; cbn [SFcompare].
  - rewrite (Z.compare_antisym ea eb). destruct (ea ?= eb) eqn:E; cbn; try done.
    change (Pos.compare_cont Eq ?x ?y) with (Pos.compare x y). rewrite (Pos.compare_antisym mb ma). by destruct (mb ?= ma)%positive.
  - rewrite (Z.compare_antisym ea eb). destruct (ea ?= eb) eqn:E; cbn; try done.
    change (Pos.compare_cont Eq ?x ?y) with (Pos.compare x y). rewrite (Pos.compare_antisym mb ma). by destruct (mb ?= ma)%positive.
Qed.

(** ** The window *)

Lemma record_throughput_samples now counters d : da_samples (record_throughput now counters d) = da_samples d.
Proof. unfold record_throughput. destruct (da_last_throughput d) as [[a b]|]; [|done]. by destruct (_ <=? now). Qed.

Lemma record_p99_samples key latency d : da_samples (record_p99 key latency d) = da_samples d.
Proof. unfold record_p99. destruct (last (da_p99 d)) as [[k v]|]; [|done]. by case_bool_decide. Qed.

Definition reading_interval (r : Reading) : Z := match rd_phase_clock r with Some clock => pc_interval clock | None => from_secs 1 end.
Definition read_sample (r : Reading) : Z * LiveSnapshot := (rd_run_elapsed r, rd_counters r).

Lemma update_window `{Formatter} r d :
  let samples := trim_samples (reading_interval r) (rd_run_elapsed r) (da_samples d ++ [read_sample r]) in
  da_samples (update r d).1 = samples /\
  dv_window (update r d).2 = match samples with (start, first) :: _ => window_between start (rd_run_elapsed r) first (rd_counters r) | [] => WindowView_default end.
Proof.
  intros samples. unfold update, window. fold (reading_interval r). rewrite record_throughput_samples. fold (read_sample r).
  change (rd_run_elapsed r, rd_counters r) with (read_sample r). fold samples. cbv zeta.
  destruct (read_latency r _) as [latency [key|]]; destruct (shown_thresholds _);
    repeat match goal with |- context [let (_, _) := ?x in _] => destruct x end; cbn [fst snd dv_window]; by rewrite ?record_p99_samples.
Qed.

(** Reads in the order they were made, those made by a moment, and the one a
    window starts at: the newest of those, or the first of all. *)
Definition in_order (l : list (Z * LiveSnapshot)) : Prop := StronglySorted (fun a b => a.1 <= b.1) l.
Definition old (moment : Z) (s : Z * LiveSnapshot) : bool := s.1 <=? moment.
Definition window_start (moment : Z) (reads : list (Z * LiveSnapshot)) : option (Z * LiveSnapshot) :=
  match last (List.filter (old moment) reads) with Some s => Some s | None => head reads end.

(** What the dashboard remembers of the reads so far: all since the newest
    one made by the moment. *)
Definition remembers (moment : Z) (reads samples : list (Z * LiveSnapshot)) : Prop :=
  exists dropped s rest, reads = dropped ++ s :: rest /\ samples = s :: rest /\
    (dropped <> [] -> old moment s = true) /\ Forall (fun a => old moment a = false) rest.

Lemma none_old moment l : Forall (fun a => old moment a = false) l -> List.filter (old moment) l = [].
Proof. induction 1 as [|a l Ha _ IH]; [done|]. cbn. by rewrite Ha. Qed.

Lemma remembers_start moment reads samples : remembers moment reads samples -> head samples = window_start moment reads.
Proof.
  intros (dropped & s & rest & -> & -> & Hold & Hyoung). unfold window_start. rewrite List.filter_app. cbn [List.filter].
  rewrite (none_old _ rest) by done. destruct (old moment s) eqn:Es; [by rewrite last_snoc|].
  destruct dropped; [done|]. discriminate (Hold ltac:(done)).
Qed.

Lemma young_after moment a l : in_order (a :: l) -> old moment a = false -> Forall (fun b => old moment b = false) (a :: l).
Proof.
  intros Hs Ha. apply StronglySorted_inv in Hs as [_ Hall]. constructor; [done|]. eapply Forall_impl; [exact Hall|].
  intros b Hb. cbn in Hb. unfold old in *. apply Z.leb_gt. apply Z.leb_gt in Ha. lia.
Qed.

Lemma trim_remembers interval now l x : 0 < interval -> in_order (l ++ [(now, x)]) ->
  remembers (now - interval) (l ++ [(now, x)]) (trim_samples interval now (l ++ [(now, x)])).
Proof.
  intros Hpos. assert (old (now - interval) (now, x) = false) as Hnow by (unfold old; cbn; apply Z.leb_gt; lia).
  induction l as [|a l IH]; intros Hs; [by exists [], (now, x), []|].
  destruct l as [|b l]; [exists [], a, [(now, x)]; split_and!; [done..|by repeat constructor]|].
  cbn [app] in Hs |- *. assert (exists c rest, l ++ [(now, x)] = c :: rest) as (c & rest & Hc) by (destruct l; cbn; eauto).
  assert (trim_samples interval now (a :: b :: l ++ [(now, x)]) =
          if old (now - interval) b then trim_samples interval now (b :: l ++ [(now, x)]) else a :: b :: l ++ [(now, x)]) as ->.
  { assert ((b.1 + interval <=? now) = old (now - interval) b) as <-.
    { unfold old. destruct (Z.leb_spec (b.1 + interval) now), (Z.leb_spec b.1 (now - interval)); lia || done. }
    rewrite Hc. done. }
  apply StronglySorted_inv in Hs as [Hs _]. destruct (old (now - interval) b) eqn:Eb.
  - destruct (IH Hs) as (dropped & s & tail & Heq & Ht & Hold & Hyoung). exists (a :: dropped), s, tail. cbn [app] in Heq |- *. rewrite Heq.
    split_and!; [done|by rewrite <- Heq|intros _|done]. destruct dropped as [|d dropped]; [by injection Heq as <-|by apply Hold].
  - exists [], a, (b :: l ++ [(now, x)]). split_and!; [done..|]. by apply young_after.
Qed.

Lemma remembers_next interval moment now x reads samples : 0 < interval -> moment < now -> in_order (reads ++ [(now, x)]) ->
  remembers moment reads samples ->
  remembers (Z.max moment (now - interval)) (reads ++ [(now, x)]) (trim_samples interval now (samples ++ [(now, x)])).
Proof.
  intros Hpos Hlt Hs (dropped & s & rest & -> & -> & Hold & Hyoung). rewrite <- app_assoc in *.
  assert (in_order ((s :: rest) ++ [(now, x)])) as Hs'.
  { clear -Hs. induction dropped as [|d dropped IH]; [done|]. apply IH. by apply StronglySorted_inv in Hs as [Hs _]. }
  destruct (trim_remembers interval now (s :: rest) x Hpos Hs') as (more & s' & rest' & Heq & -> & Hold' & Hyoung').
  assert (forall m s, old m s = true -> m <= Z.max moment (now - interval) -> old (Z.max moment (now - interval)) s = true) as Hup.
  { unfold old. intros m z Hz Hm. apply Z.leb_le. apply Z.leb_le in Hz. lia. }
  assert (Forall (fun a => old moment a = false) (rest ++ [(now, x)])) as Hall.
  { apply Forall_app. split; [done|]. repeat constructor. unfold old. cbn. apply Z.leb_gt. lia. }
  assert (Forall (fun a => old moment a = false) rest') as Hrest.
  { destruct more as [|m more]; injection Heq as -> Heq; [by rewrite <- Heq|]. rewrite Heq in Hall. apply Forall_app in Hall as [_ Hall]. by apply Forall_cons in Hall as [_ Hall]. }
  exists (dropped ++ more), s', rest'. split_and!.
  - rewrite <- app_assoc. by f_equal.
  - done.
  - intros Hne. destruct more as [|m more]; [|apply (Hup (now - interval)); [by apply Hold'|lia]].
    injection Heq as <- _. rewrite app_nil_r in Hne. apply (Hup moment); [by apply Hold|lia].
  - apply Forall_forall. intros a Ha. rewrite Forall_forall in Hyoung', Hrest. specialize (Hyoung' a Ha). specialize (Hrest a Ha).
    unfold old in *. apply Z.leb_gt. apply Z.leb_gt in Hyoung', Hrest. lia.
Qed.

(** ** Histories *)

Definition histories_bounded (d : Dashboard) : Prop :=
  (length (da_throughput d) <= HISTORY)%nat /\ (length (da_p99 d) <= HISTORY)%nat.

Lemma push_bounded_length {A} (x : A) l : (length l <= HISTORY)%nat -> (length (push_bounded x l) <= HISTORY)%nat.
Proof.
  intros Hl. unfold push_bounded. rewrite length_app. cbn [length]. destruct (Nat.leb_spec HISTORY (length l)); [rewrite length_drop|]; unfold HISTORY in *; lia.
Qed.

Lemma record_throughput_bounded now counters d : histories_bounded d -> histories_bounded (record_throughput now counters d).
Proof.
  intros [Ht Hp]. unfold record_throughput. destruct (da_last_throughput d) as [[a b]|]; [|done].
  destruct (_ <=? now); [|done]. split; [by apply push_bounded_length|done].
Qed.

Lemma record_p99_bounded key latency d : histories_bounded d -> histories_bounded (record_p99 key latency d).
Proof.
  intros [Ht Hp]. unfold record_p99. destruct (last (da_p99 d)) as [[k v]|] eqn:El; [|split; [done|by apply push_bounded_length]].
  case_bool_decide; (split; [done|]); [|by apply push_bounded_length]. cbn.
  apply last_Some in El as [l El]. rewrite El in Hp |- *. by rewrite removelast_last, !length_app in *.
Qed.

Lemma update_bounded `{Formatter} r d : histories_bounded d -> histories_bounded (update r d).1.
Proof.
  intros Hd. unfold update, window. cbv zeta. apply (record_throughput_bounded (rd_run_elapsed r) (rd_counters r)) in Hd.
  destruct (read_latency r _) as [latency [key|]]; destruct (shown_thresholds _);
    repeat match goal with |- context [let (_, _) := ?x in _] => destruct x end; cbn [fst]; try exact Hd; apply record_p99_bounded; exact Hd.
Qed.

(** The refreshes of a run. *)
Definition watch `{Formatter} (rs : list Reading) (d : Dashboard) : Dashboard := fold_left (fun d r => (update r d).1) rs d.

Lemma watch_bounded `{Formatter} rs d : histories_bounded d -> histories_bounded (watch rs d).
Proof. revert d. induction rs as [|r rs IH]; intros d Hd; [done|]. by apply IH, update_bounded. Qed.

Lemma in_order_app l x : in_order (l ++ [x]) -> in_order l /\ Forall (fun a => a.1 <= x.1) l.
Proof.
  induction l as [|a l IH]; intros Hs; [split; constructor|]. cbn in Hs. apply StronglySorted_inv in Hs as [Hs Hall].
  apply IH in Hs as [Hs Hle]. apply Forall_app in Hall as [Hall Hx]. apply Forall_cons in Hx as [Hx _]. split; by constructor.
Qed.

(** The latest moment that was an interval before a refresh, up to the last
    one.  While the interval does not change, or shrinks, that is one interval
    before the last refresh; after it has grown, what older refreshes had
    forgotten by their own, shorter, interval stays forgotten. *)
Definition interval_before (r : Reading) : Z := rd_run_elapsed r - reading_interval r.
Definition window_moment (rs : list Reading) (r : Reading) : Z := fold_right Z.max (interval_before r) (interval_before <$> rs).

Lemma window_moment_snoc rs r r' : window_moment (rs ++ [r]) r' = Z.max (window_moment rs r) (interval_before r').
Proof. unfold window_moment. rewrite fmap_app. induction rs as [|r0 rs IH]; cbn in *; [done|]. rewrite IH. lia. Qed.
Lemma window_moment_last rs r : Forall (fun r' => interval_before r' <= interval_before r) rs -> window_moment rs r = interval_before r.
Proof. unfold window_moment. induction 1 as [|r0 rs Hr _ IH]; cbn in *; [done|]. rewrite IH. lia. Qed.

Lemma window_moment_before rs r : Forall (fun r => 0 < reading_interval r) (rs ++ [r]) -> Forall (fun r' => rd_run_elapsed r' <= rd_run_elapsed r) rs ->
  window_moment rs r < rd_run_elapsed r.
Proof.
  intros [Hi Hr]%Forall_app Ho. apply Forall_cons in Hr as [Hr _]. unfold window_moment. induction Hi as [|r0 rs Hr0 _ IH]; cbn in *; [unfold interval_before; lia|].
  apply Forall_cons in Ho as [Ho Hle]. specialize (IH Hle). unfold interval_before at 1. lia.
Qed.

Lemma watch_window `{Formatter} info rs r :
  Forall (fun r => 0 < reading_interval r) (rs ++ [r]) -> in_order (read_sample <$> rs ++ [r]) ->
  remembers (window_moment rs r) (read_sample <$> rs ++ [r]) (da_samples (watch (rs ++ [r]) (Dashboard_new info))).
Proof.
  revert r. induction rs as [|r0 rs IH] using rev_ind; intros r Hi Ho.
  - unfold watch. cbn [app fold_left]. destruct (update_window r (Dashboard_new info)) as [-> _]. apply Forall_cons in Hi as [Hi _].
    by apply (trim_remembers _ _ []).
  - pose proof (in_order_app _ _ ltac:(by rewrite fmap_app in Ho)) as [Ho' Hle]. pose proof Hi as [Hi' Hr]%Forall_app. apply Forall_cons in Hr as [Hr _].
    unfold watch. rewrite fold_left_app. cbn [fold_left]. fold (watch (rs ++ [r0]) (Dashboard_new info)).
    destruct (update_window r (watch (rs ++ [r0]) (Dashboard_new info))) as [-> _]. rewrite window_moment_snoc, fmap_app. rewrite fmap_app in Ho.
    apply remembers_next; [done| |done|by apply IH].
    pose proof (in_order_app _ _ ltac:(by rewrite fmap_app in Ho')) as [_ Hle0]. rewrite fmap_app in Hle. apply Forall_app in Hle as [_ Hle]. apply Forall_cons in Hle as [Hle _].
    pose proof (window_moment_before rs r0 Hi' (proj1 (Forall_fmap read_sample _ rs) Hle0)). cbn in Hle. lia.
Qed.

(** C38. The rates of a frame cover one interval of the run, however refreshes
    come: the window starts at the newest refresh made by the latest moment
    that was an interval before some refresh so far, or at the first refresh
    before there is one.  As long as no earlier refresh's moment is later, so
    while the interval stays what it is, the start is the newest refresh that
    is at least an interval old; a longer interval of a new phase does not
    bring back refreshes that are forgotten.  And the histories never outgrow
    their bound. *)
Theorem dashboard_window_covers_an_interval `{Formatter} info rs r
    (Hpos : Forall (fun r => 0 < reading_interval r) (rs ++ [r])) (Horder : in_order (read_sample <$> rs ++ [r])) :
  let (d, view) := update r (watch rs (Dashboard_new info)) in
  (exists start first, window_start (window_moment rs r) (read_sample <$> rs ++ [r]) = Some (start, first) /\
     (Forall (fun r' => interval_before r' <= interval_before r) rs ->
        window_start (rd_run_elapsed r - reading_interval r) (read_sample <$> rs ++ [r]) = Some (start, first)) /\
     dv_window view = window_between start (rd_run_elapsed r) first (rd_counters r)) /\
  (length (da_throughput d) <= HISTORY)%nat /\ (length (da_p99 d) <= HISTORY)%nat.
Proof.
  pose proof (watch_window info rs r Hpos Horder) as Hrem. pose proof (remembers_start _ _ _ Hrem) as Hhead.
  destruct (update r (watch rs (Dashboard_new info))) as [d view] eqn:Eu.
  assert (watch (rs ++ [r]) (Dashboard_new info) = d) as Hw by (unfold watch; rewrite fold_left_app; cbn [fold_left]; fold (watch rs (Dashboard_new info)); by rewrite Eu).
  pose proof (update_window r (watch rs (Dashboard_new info))) as [Hs Hv]. rewrite Eu in Hs, Hv. cbn [fst snd] in Hs, Hv. rewrite Hw in *.
  split.
  - rewrite <- Hs in Hv. destruct Hrem as (dropped & [start first] & rest & _ & Hd & _). rewrite Hd in Hv, Hhead. cbn [head] in Hhead.
    exists start, first. split_and!; [done| |done]. intros Hm. by rewrite (window_moment_last _ _ Hm) in Hhead.
  - rewrite <- Hw. apply watch_bounded. split; cbn; unfold HISTORY; lia.
Qed.

(** ** The SLO panel *)

Definition quiet (row : SloRow) : Prop := sr_state row <> Breaching.

Lemma max_quiet max live : f64_is_finite live = true -> f64_is_nan max = false ->
  slo_state (Max max) (Some live) <> Breaching <-> f64_leb live max = true.
Proof.
  intros Hl Hm. unfold slo_state. rewrite Hl, f64_ltb_leb by (done || by destruct live). by destruct (f64_leb live max).
Qed.

Lemma min_quiet min live : f64_is_finite live = true -> f64_is_nan min = false ->
  slo_state (Min min) (Some live) <> Breaching <-> f64_leb min live = true.
Proof.
  intros Hl Hm. unfold slo_state. rewrite Hl, f64_ltb_leb by (done || by destruct live). by destruct (f64_leb min live).
Qed.

Lemma latency_row_quiet `{Formatter} name max us : 0 <= us < 2 ^ 53 -> 0 <= max -> as_micros max < 2 ^ 53 ->
  quiet (latency_row name max (Some us) true) <-> from_micros us <= max.
Proof.
  intros Hus Hmax Hlt. unfold quiet, latency_row, slo_state. cbn [sr_state]. unfold as_micros in *.
  assert (0 <= max / 1000) by (apply Z.div_pos; lia). rewrite f64_of_Z_finite, f64_ltb_Z by lia. unfold from_micros.
  destruct (Z.ltb_spec (max / 1000) us) as [Hgt|Hle].
  - split; [done|]. intros Hus'. exfalso. apply Z.lt_nge in Hgt. apply Hgt. apply Z.div_le_lower_bound; lia.
  - split; [|done]. intros _. pose proof (Z.mul_div_le max 1000). lia.
Qed.

(** A threshold that a live latency is compared with. *)
Definition comparable (max : option Z) : Prop := forall t, max = Some t -> 0 <= t /\ as_micros t < 2 ^ 53.

Lemma latency_rows_quiet `{Formatter} (rows : list (string * string * option Z * option Z)) (response : bool) :
  Forall quiet (omap (fun '(rtt_name, rt_name, max, live) => (fun max => latency_row (if response then rt_name else rtt_name) max live true) <$> max) rows) <->
  Forall (fun '(rtt_name, rt_name, max, live) => forall t, max = Some t -> quiet (latency_row (if response then rt_name else rtt_name) t live true)) rows.
Proof.
  induction rows as [|[[[rtt rt] max] live] rows IH]; cbn [omap list_omap]; [by rewrite !Forall_nil|].
  rewrite Forall_cons. destruct max as [t|]; cbn [fmap option_fmap option_map].
  - rewrite Forall_cons, IH. naive_solver.
  - rewrite IH. naive_solver.
Qed.

(** The rows of the panel against the conditions of the verdict. *)
Lemma row_met `{Formatter} max name us count : count <> 0 -> 0 <= us < 2 ^ 53 -> comparable max ->
  met max (fun t => count <> 0 /\ from_micros us <= t) <-> (forall t, max = Some t -> quiet (latency_row name t (Some us) true)).
Proof.
  intros Hn Hus Hc. split.
  - intros Hm t Ht. destruct (Hc t Ht), (Hm t Ht). by apply latency_row_quiet.
  - intros Hq t Ht. destruct (Hc t Ht). split; [done|]. by apply (latency_row_quiet name); [..|apply Hq].
Qed.

Lemma errors_met `{Formatter} (max : option f64) rate : f64_is_finite rate = true -> (forall t, max = Some t -> f64_is_nan t = false) ->
  Forall quiet match max with
               | Some max => [mkSloRow "errors" ("<= " +:+ percent max) ("~" +:+ percent rate) (slo_state (Max max) (Some rate))]%string
               | None => []
               end <-> met max (fun t => f64_leb rate t = true).
Proof.
  intros Hr Hn. destruct max as [t|]; [|split; [intros _; apply met_none|constructor]].
  rewrite Forall_cons, Forall_nil, met_some. unfold quiet. cbn [sr_state]. rewrite max_quiet by auto. tauto.
Qed.

Lemma throughput_met `{Formatter} (min : option f64) rate : f64_is_finite rate = true -> (forall t, min = Some t -> f64_is_nan t = false) ->
  Forall quiet match min with
               | Some min => [mkSloRow "msg/s" (">= " +:+ format_count min) (format_count rate) (slo_state (Min min) (Some rate))]%string
               | None => []
               end <-> met min (fun t => f64_leb t rate = true).
Proof.
  intros Hr Hn. destruct min as [t|]; [|split; [intros _; apply met_none|constructor]].
  rewrite Forall_cons, Forall_nil, met_some. unfold quiet. cbn [sr_state]. rewrite min_quiet by auto. tauto.
Qed.

(** C39. The SLO panel agrees with the report's verdict: shown the values the
    report ends with, the run passes exactly when no row of the panel is
    breaching and the thresholds that have no live value (p95, p99.9 and the
    generator's lag) are met. *)
Theorem panel_agrees_with_the_report `{Formatter} slo m latency window
    (Hsamples : has_samples latency = true) (Hcount : l_count (gated_latency m).2 <> 0)
    (Hp50 : lv_p50_us latency = l_p50_us (gated_latency m).2) (Hp99 : lv_p99_us latency = l_p99_us (gated_latency m).2)
    (Hr50 : 0 <= lv_p50_us latency < 2 ^ 53) (Hr99 : 0 <= lv_p99_us latency < 2 ^ 53)
    (Hmax50 : comparable (max_p50 slo)) (Hmax99 : comparable (max_p99 slo))
    (Herrors : ww_error_rate window = Some (ag_error_rate m)) (Hfinite : f64_is_finite (ag_error_rate m) = true)
    (Hsecs : f64_ltb f64_zero (ww_secs window) = true) (Hmsgs : ww_throughput window = ag_throughput_msg_per_sec m)
    (Htput : f64_is_finite (ag_throughput_msg_per_sec m) = true)
    (Hnan : (forall t, max_error_rate slo = Some t -> f64_is_nan t = false) /\ (forall t, min_throughput slo = Some t -> f64_is_nan t = false)) :
  se_passed (evaluate_slos slo m) = true <->
  Forall quiet (slo_rows slo latency window) /\
  met (max_p95 slo) (fun t => p95_duration (gated_latency m).2 <= t) /\
  met (max_p999 slo) (fun t => p999_duration (gated_latency m).2 <= t) /\
  met (max_generator_lag slo) (fun t => exists lag, ag_generator_lag_ m = Some lag /\ from_micros (gl_p99_us lag) <= t).
Proof.
  destruct Hnan as [Hne Hnt]. rewrite evaluate_slos_passed. unfold slo_met, latency_met, slo_rows, p50_duration, p99_duration.
  rewrite !Forall_app, Hsamples, latency_rows_quiet, !Forall_cons, Forall_nil, Herrors, Hsecs, Hmsgs.
  rewrite (row_met (max_p50 slo) (if bool_decide (lv_basis latency = Some "response_time"%string) then "rt p50" else "p50")%string (l_p50_us (gated_latency m).2) _ Hcount) by (rewrite <- ?Hp50; done).
  rewrite (row_met (max_p99 slo) (if bool_decide (lv_basis latency = Some "response_time"%string) then "rt p99" else "p99")%string (l_p99_us (gated_latency m).2) _ Hcount) by (rewrite <- ?Hp99; done).
  rewrite <- Hp50, <- Hp99, errors_met, throughput_met by done. unfold met.
  assert (forall name t, quiet (latency_row name t None true)) as Hnolive by (intros name t; done). naive_solver.
Qed.

(** ** Other facts about frames *)

(** A frame shows latencies only of the phase its plan describes. *)
Lemma latency_is_of_the_phase `{Formatter} r d count plan :
  lv_samples (dv_latency (update r d).2) = Some count -> pv_current (rd_progress r) = Some plan ->
  exists clock completed, rd_phase_clock r = Some clock /\ rd_last_interval r = Some completed /\
    ci_phase completed = pc_seq clock /\ pc_seq clock = pp_index plan /\ count = il_count (ci_latency completed).
Proof.
  unfold update, window. cbv zeta. destruct (read_latency r _) as [latency key] eqn:El. destruct (shown_thresholds _).
  repeat match goal with |- context [let (_, _) := ?x in _] => destruct x end; cbn [snd dv_latency].
  all: intros Hs Hp; unfold read_latency, current_clock in El; rewrite Hp in El.
  all: destruct (rd_phase_clock r) as [clock|]; [|by injection El as <- _].
  all: destruct (Z.eqb_spec (pc_seq clock) (pp_index plan)); [|by injection El as <- _].
  all: destruct (rd_last_interval r) as [completed|]; [|by injection El as <- _].
  all: destruct (Z.eqb_spec (ci_phase completed) (pc_seq clock)); injection El as <- _; [|done]; cbn in Hs; injection Hs as <-; eauto 10.
Qed.

(** The dashboard cancels the run only for a stop key. *)
Lemma only_stop_keys_cancel `{Formatter} events t t' : event_loop events t = (t', Some (TuiClosed true)) ->
  exists code control, In (KeyPressed code control) events /\ is_stop_key code control = true.
Proof.
  revert t. induction events as [|e events IH]; intros t; [done|]. cbn [event_loop].
  assert (forall t1, event_loop events t1 = (t', Some (TuiClosed true)) ->
    exists code control, In (KeyPressed code control) (e :: events) /\ is_stop_key code control = true) as Hlater.
  { intros t1 Ht1. destruct (IH t1 Ht1) as (code & control & Hin & Hs). exists code, control. split; [by right|done]. }
  destruct e as [| |r drawn|code control| |msg|]; cbn [tui_round]; try done; try apply Hlater.
  - destruct (update r (tu_dashboard t)), drawn; [apply Hlater|done].
  - destruct (tu_input_open t && is_stop_key code control) eqn:E; [|apply Hlater].
    apply andb_prop in E as [_ E]. intros _. exists code, control. split; [by left|done].
  - destruct (tu_input_open t); [done|apply Hlater].
Qed.

(** ** Witnesses *)

Module SampleDashboard.
#[export] Instance formatter : Formatter := {| debug_duration d := display_u64 d; fixed n x := "0"%string; display_f64 x := "0"%string |}.
Definition counters (sent errors : Z) : LiveSnapshot := mkLiveSnapshot 1 1 0 0 sent sent 0 0 errors 0.
Definition clock (elapsed : Z) : PhaseClock := mkPhaseClock 0 elapsed false (from_secs 1) "rtt".
Definition reading (millis sent errors : Z) : Reading :=
  mkReading (counters sent errors) (from_millis millis) (Some (clock (from_millis millis))) None (mkProgressView None []) None.
Definition readings : list Reading := [reading 0 0 0; reading 500 40 0; reading 1000 100 1].
Definition info : RunInfo := mkRunInfo "ws://t/" "echo".
Definition slo : SloThresholds := mkSloThresholds None None (Some (from_millis 20)) None None None None.
Definition stats : LatencyStats := mkLatencyStats 9 0 f64_zero 30000 f64_zero 5000 6000 8000 9000 12000 20000 30000.
Definition metrics : AggregatedMetrics :=
  mkAggregatedMetrics 1 1 0 0 0 0 0 100 100 10 10 (from_secs 1) (f64_of_Z 100) (f64_of_Z 10) f64_zero LatencyStats_default stats LatencyStats_default
    (mkTimeSeries (f64_of_Z 1) "rtt" []) ∅ None None None None None None [] None None.
Definition shown : LatencyView := mkLatencyView (Some "rtt"%string) (Some 9) 5000 8000 12000 (from_secs 1).
Definition rates : WindowView := mkWindowView (f64_of_Z 1) 0 (Some f64_zero) (f64_of_Z 100).
End SampleDashboard.
#[local] Existing Instance SampleDashboard.formatter.

Lemma dashboard_window_covers_an_interval_witness :
  let r := SampleDashboard.reading 1600 200 5 in
  let view := (update r (watch SampleDashboard.readings (Dashboard_new SampleDashboard.info))).2 in
  dv_window view = window_between (from_millis 500) (from_millis 1600) (SampleDashboard.counters 40 0) (SampleDashboard.counters 200 5).
Proof.
  intros r view. pose proof (dashboard_window_covers_an_interval SampleDashboard.info SampleDashboard.readings r) as Hw.
  destruct (update r (watch SampleDashboard.readings (Dashboard_new SampleDashboard.info))) as [d v] eqn:Eu.
  destruct Hw as [(start & first & Hstart & _ & Hv) _]; [repeat constructor|repeat constructor; vm_compute; discriminate|].
  vm_compute in Hstart. injection Hstart as <- <-. subst view. exact Hv.
Defined.

Lemma panel_agrees_with_the_report_witness : se_passed (evaluate_slos SampleDashboard.slo SampleDashboard.metrics) = true.
Proof.
  apply (panel_agrees_with_the_report SampleDashboard.slo SampleDashboard.metrics SampleDashboard.shown SampleDashboard.rates).
  - reflexivity.
  - vm_compute. discriminate.
  - reflexivity.
  - reflexivity.
  - vm_compute. split; [discriminate|reflexivity].
  - vm_compute. split; [discriminate|reflexivity].
  - intros t [=].
  - intros t [= <-]. vm_compute. split; [discriminate|reflexivity].
  - reflexivity.
  - reflexivity.
  - vm_compute. reflexivity.
  - reflexivity.
  - vm_compute. reflexivity.
  - split; intros t [=].
  - split; [|split_and!; apply met_none]. repeat constructor; vm_compute; discriminate.
Defined.
