(* ===== verification/Drive.v ===== *)
(** * A run from start to report (src/src/runner.rs)

    [Runner::run]: the settings a scenario phase overrides, the warnings, the
    workers a run starts and awaits while they work ([drive]), and the metrics
    it returns.  What a worker does to its metrics is a sequence of the
    operations of Metrics.v; when it does them, when timers fire and when
    tasks end is the environment's choice. *)

From Stdlib Require Import ZArith Lia Ascii String SpecFloat.
From stdpp Require Import base tactics strings numbers option gmap list.
From S2P Require Import Prelude RustStd Str Hdr Histogram Json Url Libs Live HumanDuration TimeSeries LiveIntervals Summaries Metrics Chaos Reply Data Template Session Worker Load Runner Slo Config WireConfig Phases Lag Scenario.

Local Open Scope Z_scope.
Local Open Scope rust_scope.

(** ** Settings *)

Section Settings.
Context `{Libs, Formatter}.

(** [time] seeds chaos that has no seed of its own. *)
Definition phase_config (time : Z) (config : RunConfig) (phase : CompiledPhase) : RunConfig :=
  let config := config
    <| rc_load := mkLoad (cp_connections phase) (cp_ramp_rate phase) (cp_duration phase) (cp_stages phase) (cp_arrivals phase)
                    (ld_max_requests (rc_load config)) |>
    <| rc_rate_per_conn := cp_rate_per_conn phase |> in
  let config := match cp_payload phase with Some payload => config <| rc_payload := payload |> | None => config end in
  match cp_chaos phase with
  | Some chaos =>
      let fallback_seed := base ← rc_chaos config; cx_seed base in
      config <| rc_chaos :=
        if is_active chaos
        then Some (seeded time (chaos <| cx_seed ::= fun seed => match seed with Some s => Some s | None => fallback_seed end |>))
        else None |>
  | None => config
  end.

Definition latency_basis_for (config : RunConfig) (skips_response_time : bool) : string :=
  let paced_echo := awaits_replies (rc_mode config) && (0 <? rc_rate_per_conn config) in
  if paced_echo && negb skips_response_time then "response_time"%string else "rtt"%string.

Definition phase_skips_response_time (phase : CompiledPhase) : bool :=
  bool_decide (cp_actions phase = []) && negb (cp_think_time phase =? 0).

(** [Runner]: what it was built with; the capture, the live metrics and the
    token are arguments of the operations. *)
Record Runner := mkRunner { rr_config : RunConfig; rr_scenario : option CompiledPhase }.
Definition Runner_new (config : RunConfig) : Runner := mkRunner config None.
Definition with_scenario (time : Z) (config : RunConfig) (phase : CompiledPhase) : Runner :=
  mkRunner (phase_config time config phase) (Some phase).

Definition latency_basis (runner : Runner) : string :=
  latency_basis_for (rr_config runner) (from_option phase_skips_response_time false (rr_scenario runner)).

(** ** Warnings *)

(** "1st", "2nd", "3rd", "11th" and so on. *)
Definition ordinal (n : Z) : string :=
  let suffix :=
    if (11 <=? n mod 100) && (n mod 100 <=? 13) then "th"%string
    else if n mod 10 =? 1 then "st"%string
    else if n mod 10 =? 2 then "nd"%string
    else if n mod 10 =? 3 then "rd"%string
    else "th"%string in
  (display_u64 n +:+ suffix)%string.

(** [x.ceil()]. *)
Definition f64_ceiled (x : f64) : f64 := match f64_ceil x with Some n => f64_of_Z n | None => x end.

(** The warnings' texts, after their label. *)
Definition warn_if_arrivals_exceed_cap (arrivals : Arrivals) : option string :=
  max ← ar_max_connections arrivals;
  let open := f64_mul (ar_rate arrivals) (as_secs_f64 (ar_session_duration arrivals)) in
  if f64_ltb (f64_of_Z max) open then
    Some ("At --arrival-rate " +:+ display_f64 (ar_rate arrivals) +:+ " with --session-duration "
      +:+ debug_duration (ar_session_duration arrivals) +:+ ", about " +:+ display_f64 (f64_ceiled open)
      +:+ " sessions are open at once, more than --max-connections " +:+ display_u64 max +:+ "; arrivals while "
      +:+ display_u64 max +:+ " are open will be skipped.")%string
  else None.

(** [x.ceil() as usize] *)
Definition f64_ceil_as_usize (x : f64) : Z :=
  match f64_ceil x with
  | Some n => Z.max 0 (Z.min u64_max n)
  | None => match x with S754_infinity false => u64_max | _ => 0 end
  end.

Definition warn_if_ramp_exceeds_duration (connections ramp_rate duration : Z) : option string :=
  if (ramp_rate =? 0) || (connections =? 0) then None
  else
    let last_spawn_secs := f64_div (f64_of_Z (connections - 1)) (f64_of_Z ramp_rate) in
    if f64_leb (as_secs_f64 duration) last_spawn_secs then
      let reachable := f64_ceil_as_usize (f64_mul (as_secs_f64 duration) (f64_of_Z ramp_rate)) in
      Some ("Opening " +:+ display_u64 connections +:+ " connections at --ramp-rate " +:+ display_u64 ramp_rate +:+ "/s takes "
        +:+ fixed 1 last_spawn_secs +:+ "s, but the " +:+ fixed 1 (as_secs_f64 duration)
        +:+ "s duration includes the ramp; only about " +:+ display_u64 (Z.min reachable connections) +:+ " connections will be opened.")%string
    else None.

Definition check_file_descriptor_limit (rlimit : option Z) (required_conns : Z) : option string :=
  limit ← open_file_limit rlimit required_conns;
  if negb (of_sufficient limit) then
    Some ("Configured connections (" +:+ display_u64 required_conns +:+ ") approach or exceed system open file limit (ulimit -n = "
      +:+ display_u64 (of_soft_limit limit) +:+ "). Consider running 'ulimit -n 65535' to avoid EMFILE socket drops.")%string
  else None.

(** The warnings a run prints, in their order. *)
Definition warn_about_limits (rlimit : option Z) (config : RunConfig) : list string :=
  let load := rc_load config in
  let '(rows_needed, about, what) :=
    match ld_arrivals load with
    | Some arrivals => (f64_ceil_as_usize (f64_mul (ar_rate arrivals) (as_secs_f64 (ld_duration load))), "about"%string, "session"%string)
    | None => (ld_connections load, ""%string, "connection"%string)
    end in
  omap id
    [check_file_descriptor_limit rlimit (ld_connections load);
     warn_if_ramp_exceeds_duration (ld_connections load) (ld_ramp_rate load) (ld_duration load);
     arrivals ← ld_arrivals load; warn_if_arrivals_exceed_cap arrivals;
     data ← rc_data config;
     let len := Z.of_nat (length (ds_rows data)) in
     if len <? rows_needed then
       Some (ds_path data +:+ " has " +:+ display_u64 len +:+ " rows for " +:+ about +:+ (if bool_decide (about = ""%string) then "" else " ")
         +:+ display_u64 rows_needed +:+ " " +:+ what +:+ "s, so rows are reused: the " +:+ ordinal (len + 1) +:+ " " +:+ what
         +:+ " uses the first row again.")%string
     else None].
End Settings.

(** ** Workers at work

    The tasks of a run by worker id.  Every one holds its metrics until it is
    awaited, which takes them, unless the task has panicked and they are lost;
    [wk_tasks] keeps what was last in them either way. *)

(** What a session does to its worker's metrics. *)
Inductive TaskOp := Recorded (op : WorkerOp) | Interrupted | UsesResponse (uses : bool).

Record Workers (H : Type) := mkWorkers {
  wk_tasks : list WorkerMetrics;
  wk_shared : RunShared H;
  wk_totals : MetricsTotals H;
  wk_joined : list nat;
  wk_panicked : list nat;
}.
Arguments mkWorkers {H}. Arguments wk_tasks {H}. Arguments wk_shared {H}. Arguments wk_totals {H}.
Arguments wk_joined {H}. Arguments wk_panicked {H}.
#[export] Instance Workers_eta {H} : Settable (Workers H) := fun k =>
  mkWorkers (wk_tasks k) (wk_shared k) (wk_totals k) (wk_joined k) (wk_panicked k).

(** A worker starts, works, or the task at the front of the handles is
    awaited: it has ended with its metrics or by a panic. *)
Inductive DriveEvent := WorkerStarts | WorkerActs (id : nat) (op : TaskOp) | HandleAwaited (finished : bool).
(** A session of an arrival run works, or the loop of [run_arrivals] moves. *)
Inductive SessionEvent := SessionActs (id : nat) (op : TaskOp) | LoopMoves (e : ArrivalEvent).

(** The environment of each way to make load: for constant connections what
    [ramp] asks, for stages when the ticks came. *)
Inductive LoadEnv :=
  | RampEnv (cancels : list (bool * bool)) (events : list DriveEvent)
  | StagesEnv (ticks : list Z) (events : list DriveEvent)
  | ArrivalsEnv (events : list SessionEvent).

(** When chaos without a seed is seeded, when the clock starts and is read at
    the end, what the sampler and the lag probe saw ([None] when they
    panicked), and what the capture and the compression layers counted. *)
Record DriveEnv := mkDriveEnv {
  de_time : Z;
  de_start : Z;
  de_elapsed : Z;
  de_instant_max : Z;
  de_cores : option nat;
  de_load : LoadEnv;
  de_samples : option (list (Z * LiveMetrics));
  de_probe : option (Z * list Z);
  de_probe_end : Z;
  de_capture_start : option WsBlastError;
  de_capture : option CaptureSummary;
  de_compression : option CompressionCounts;
}.

Section Drive.
Context `{Libs, Formatter}.
Context {HG : Type} `{Hdr HG} (windows : bool) (rlimit : option Z).
Local Abbreviation workers := (Workers HG).

Definition task_op (op : TaskOp) (st : WorkerMetrics * RunShared HG) : WorkerMetrics * RunShared HG :=
  match op with
  | Recorded op => run_op op st
  | Interrupted => on_worker (fun w => w <| wm_interrupted := true |>) st
  | UsesResponse uses => on_worker (fun w => w <| wm_interval_uses_response := uses |>) st
  end.

Section Run.
Context (runner : Runner) (time : Z) (latency : nat).

(** [create_session]: the metrics the session starts with. *)
Definition create_session (worker_id : nat) (metrics : WorkerMetrics) (shared : RunShared HG) : WorkerMetrics :=
  st_metrics (WorkerSession_new (worker_config (rr_config runner)) (Z.of_nat worker_id) time metrics shared false 0 []).

Definition start_worker (k : workers) : workers :=
  let (metrics, shared) := with_latency latency (wk_shared k) in
  let metrics := with_interval (Some IntervalRecorder_new) metrics in
  k <| wk_tasks ::= (fun l => l ++ [create_session (length l) metrics shared]) |> <| wk_shared := shared |>.

Definition worker_acts (id : nat) (op : TaskOp) (k : workers) : option workers :=
  w ← wk_tasks k !! id;
  if decide (id ∈ wk_joined k ++ wk_panicked k) then None
  else
    let (w, shared) := task_op op (w, wk_shared k) in
    Some (k <| wk_tasks ::= <[id := w]> |> <| wk_shared := shared |>).

(** Awaiting a task: [add] is how its metrics are added to the totals. *)
Definition await_worker (add : gmap nat LatencyRecorder -> WorkerMetrics -> MetricsTotals HG -> MetricsTotals HG)
    (id : nat) (finished : bool) (k : workers) : option workers :=
  w ← wk_tasks k !! id;
  if decide (id ∈ wk_joined k ++ wk_panicked k) then None
  else if finished then
    let (w, shared) := flush_interval (w, wk_shared k) in
    Some (k <| wk_tasks ::= <[id := w]> |> <| wk_shared := shared |> <| wk_totals ::= add (rs_recorders shared) w |>
            <| wk_joined ::= fun l => id :: l |>)
  else Some (k <| wk_panicked ::= fun l => id :: l |>).

(** The loop over the handles of a constant or staged run, and the workers
    still to start before it. *)
Definition drive_step (s : nat * list nat * workers) (e : DriveEvent) : option (nat * list nat * workers) :=
  match e, s with
  | WorkerStarts, (S to_start, handles, k) => Some (to_start, handles, start_worker k)
  | WorkerActs id op, (to_start, handles, k) => pair (to_start, handles) <$> worker_acts id op k
  | HandleAwaited finished, (O, id :: handles, k) => pair (O, handles) <$> await_worker add_worker id finished k
  | _, _ => None
  end.
Definition drive_steps (events : list DriveEvent) (s : option (nat * list nat * workers)) : option (nat * list nat * workers) :=
  foldl (fun s e => s ← s; drive_step s e) s events.
Definition drive_workers (handles : list nat) (events : list DriveEvent) (k : workers) : option workers :=
  s ← drive_steps events (Some (length handles, handles, k));
  match s with (O, [], k) => Some k | _ => None end.

(** [run_arrivals] with its sessions. *)
Section Sessions.
Context (arrivals : Arrivals) (duration interval instant_max : Z).
Definition starts_session (s : ArrivalLoc * ArrivalRun) : bool :=
  match s.1 with CatchingUp now => due_now duration now s.2 && negb (max_open arrivals <=? open_count s.2) | _ => false end.
Definition sessions_step (s : ArrivalLoc * ArrivalRun * workers) (e : SessionEvent) : option (ArrivalLoc * ArrivalRun * workers) :=
  let (a, k) := s in
  match e with
  | SessionActs id op => pair a <$> worker_acts id op k
  | LoopMoves e =>
      a' ← arrival_step arrivals duration interval instant_max e a;
      k' ← match e with
           | SessionDone id finished => await_worker add_worker_counts id finished k
           | NextArrival => Some (if starts_session a then start_worker k else k)
           | _ => Some k
           end;
      Some (a', k')
  end.
Definition session_steps (events : list SessionEvent) (s : option (ArrivalLoc * ArrivalRun * workers)) : option (ArrivalLoc * ArrivalRun * workers) :=
  foldl (fun s e => s ← s; sessions_step s e) s events.
Definition run_sessions (events : list SessionEvent) (k : workers) : option (ArrivalCounts * workers) :=
  s ← session_steps events (Some (Sleeping, ArrivalRun_new, k));
  match s with
  | (Returned, a, k) => Some (rn_counts a, k <| wk_totals ::= add_recorder (rs_recorders (wk_shared k)) latency |>)
  | _ => None
  end.
End Sessions.

(** The three ways to make load: the workers afterwards, the counts of an
    arrival run, the slots tried and those not started. *)
Definition drive_load (interval instant_max : Z) (env : LoadEnv) (k : workers) : option (workers * option ArrivalCounts * Z * Z) :=
  let load := rc_load (rr_config runner) in
  match ld_arrivals load, ld_stages load, env with
  | Some arrivals, _, ArrivalsEnv events =>
      '(counts, k) ← run_sessions arrivals (ld_duration load) (Z.max interval (from_millis 1)) instant_max events k;
      Some (k, Some counts, ac_started counts, 0)
  | None, [], RampEnv cancels events =>
      let handles := ramp (0 <? ld_ramp_rate load) (seq 0 (Z.to_nat (ld_connections load))) cancels in
      k ← drive_workers handles events k;
      Some (k, None, ld_connections load, ld_connections load - Z.of_nat (length handles))
  | None, (_ :: _) as stages, StagesEnv ticks events =>
      let handles := run_stages stages (rc_stage_share (rr_config runner)) ticks in
      k ← drive_workers handles events k;
      Some (k, None, Z.of_nat (length handles), 0)
  | _, _, _ => None
  end.
End Run.

(** The watcher of the request limit: the token and the counters each time it
    looks; it cancels the run once every request is claimed. *)
Fixpoint watch_requests (max_reqs : Z) (looks : list (bool * LiveMetrics)) : bool :=
  match looks with
  | [] => false
  | (cancelled, live) :: looks =>
      if cancelled : bool then false
      else if requests_exhausted max_reqs live then true else watch_requests max_reqs looks
  end.

(** [drive]: the outcome, the workers as the run left them and the live
    intervals; [None] when the environment is not one of this run. *)
Definition drive (runner : Runner) (env : DriveEnv) (live : LiveMetrics) (intervals : option LiveState)
  : option (result (RunOutcome HG * workers * option LiveState) WsBlastError) :=
  match de_capture_start env with
  | Some e => Some (Err e)
  | None =>
      let load := rc_load (rr_config runner) in
      let interval := interval_for (ld_duration load) in
      let store := IntervalStore_new (de_start env) interval in
      let recorder := match rr_scenario runner with
                      | Some phase => with_actions (cp_action_names phase) (LatencyRecorder_new (de_cores env))
                      | None => LatencyRecorder_new (de_cores env)
                      end in
      let intervals := begin_phase (fun _ => store) 0%nat (latency_basis runner) <$> intervals in
      match MetricsTotals_new with
      | Err e => Some (Err e)
      | Ok totals =>
          let k := mkWorkers [] (mkRunShared live {[ 0%nat := recorder ]} store) totals [] [] in
          '(k, arrivals, connections, not_started) ← drive_load runner (de_time env) 0%nat interval (de_instant_max env) (de_load env) k;
          let intervals := end_phase (de_elapsed env) <$> intervals in
          let samples := CounterSampler_finish (CounterSampler_task (de_start env) live <$> de_samples env)
                           (rs_live (wk_shared k)) (de_elapsed env) in
          let time_series := build samples (rs_store (wk_shared k)) (latency_basis runner) in
          let lag := probe_finish (de_probe_end env)
                       ((fun p => probe windows (de_start env) interval p.1 p.2) <$> de_probe env) in
          Some (Ok (mkRunOutcome (wk_totals k) arrivals (de_compression env) (de_elapsed env) connections not_started
                      (de_start env) (attach lag time_series) (de_capture env) (lag_totals lag), k, intervals))
      end
  end.

(** What [run_and_collect] returns when the run is cancelled while its target
    is resolved. *)
Definition cancelled_while_resolving (runner : Runner) (now : Z) : result (RunOutcome HG) WsBlastError :=
  let connections := ld_connections (rc_load (rr_config runner)) in
  let? totals := MetricsTotals_new in
  Ok (mkRunOutcome totals None None 0 connections connections now TimeSeries_default None LagTotals_default).

(** [capture_file]: why the capture file could not be created. *)
Definition run_and_collect (runner : Runner) (capture_file : option WsBlastError) (cancelled : bool) (env : DriveEnv) (live : LiveMetrics)
    (intervals : option LiveState) : option (result (RunOutcome HG) WsBlastError) :=
  match capture_file with
  | Some e => Some (Err e)
  | None =>
      if cancelled then Some (cancelled_while_resolving runner (de_start env))
      else (fun r => let? done := r in Ok done.1.1) <$> drive runner env live intervals
  end.

(** The metrics [Runner::run] returns. *)
Definition run_metrics (runner : Runner) (outcome : RunOutcome HG) : AggregatedMetrics :=
  let load := rc_load (rr_config runner) in
  with_generator (lag_summary windows (ro_lag outcome)) (open_file_limit rlimit (ld_connections load))
    (with_compression (ro_compression outcome)
       (with_arrivals (ld_arrivals load) (ro_arrivals outcome)
          (with_capture (ro_capture outcome)
             (with_time_series (ro_time_series outcome)
                (with_not_started (ro_not_started outcome)
                   (MetricsTotals_finish (ro_totals outcome) (ro_elapsed outcome) (ro_connections outcome))))))).
Definition runner_run (runner : Runner) (capture_file : option WsBlastError) (cancelled : bool) (env : DriveEnv) (live : LiveMetrics)
    (intervals : option LiveState) : option (result AggregatedMetrics WsBlastError) :=
  (fun r => let? outcome := r in Ok (run_metrics runner outcome)) <$> run_and_collect runner capture_file cancelled env live intervals.
End Drive.

(** ** The report of a run agrees with its live counters *)

Section Workers.
Context `{Libs, Formatter}.
Context {HG : Type} `{Hdr HG}.
Local Abbreviation workers := (Workers HG).

Definition task_amount (op : TaskOp) (c : Counter) : Z := match op with Recorded op => op_amount op c | _ => 0 end.

Lemma task_op_moves op c (st : WorkerMetrics * RunShared HG) : mirrored c = true ->
  moves c (task_amount op c) (task_amount op c) st (task_op op st).
Proof.
  intros Hc. destruct op as [op| |uses]; cbn [task_op task_amount]; [by apply op_moves_together|..].
  all: apply moves_worker; intros w; rewrite Z.add_0_r; by destruct c.
Qed.

(** The counter of one task, and the sum over some of them. *)
Definition task_count (c : Counter) (tasks : list WorkerMetrics) (id : nat) : Z := from_option (mirror c) 0 (tasks !! id).
Definition tasks_sum (c : Counter) (tasks : list WorkerMetrics) (ids : list nat) : Z := sum_Z (task_count c tasks <$> ids).

Lemma tasks_sum_other c tasks ids id w : id ∉ ids -> tasks_sum c (<[id := w]> tasks) ids = tasks_sum c tasks ids.
Proof.
  intros Hid. unfold tasks_sum. f_equal. apply list_fmap_ext. intros i x Hx. unfold task_count.
  rewrite list_lookup_insert_ne; [done|]. intros ->. apply Hid. by eapply list_elem_of_lookup_2.
Qed.

Lemma tasks_sum_started c tasks w ids : Forall (fun id => (id < length tasks)%nat) ids -> tasks_sum c (tasks ++ [w]) ids = tasks_sum c tasks ids.
Proof.
  intros Hids. unfold tasks_sum. f_equal. apply list_fmap_ext. intros i x Hx. unfold task_count.
  rewrite lookup_app_l; [done|]. by eapply Forall_lookup_1 in Hids.
Qed.

Lemma tasks_sum_cons c tasks id ids : tasks_sum c tasks (id :: ids) = task_count c tasks id + tasks_sum c tasks ids.
Proof. unfold tasks_sum. by rewrite fmap_cons, sum_Z_cons. Qed.

Lemma tasks_sum_app c tasks ids1 ids2 : tasks_sum c tasks (ids1 ++ ids2) = tasks_sum c tasks ids1 + tasks_sum c tasks ids2.
Proof. unfold tasks_sum. by rewrite fmap_app, sum_Z_app. Qed.

#[local] Instance tasks_sum_perm c tasks : Proper ((≡ₚ) ==> (=)) (tasks_sum c tasks).
Proof. intros l1 l2 Hp. unfold tasks_sum. by rewrite Hp. Qed.

Lemma tasks_sum_all c tasks : tasks_sum c tasks (seq 0 (length tasks)) = workers_sum c tasks.
Proof.
  induction tasks as [|w tasks IH] using rev_ind; [done|]. rewrite length_app, seq_app, tasks_sum_app. cbn [length Nat.add seq].
  rewrite tasks_sum_started, IH by (apply Forall_forall; intros x Hx%elem_of_seq; lia). unfold tasks_sum, task_count, workers_sum. cbn [fmap list_fmap].
  rewrite list_lookup_middle by done. rewrite fmap_app, sum_Z_app. done.
Qed.

(** What holds while workers start, work and are awaited: the registry has
    what all of them counted, the totals what the joined ones did. *)
Record workers_ok (c : Counter) (k : workers) : Prop := {
  wo_live : live_agrees c (wk_tasks k, wk_shared k);
  wo_ended : NoDup (wk_joined k ++ wk_panicked k);
  wo_ids : Forall (fun id => (id < length (wk_tasks k))%nat) (wk_joined k ++ wk_panicked k);
  wo_totals : wrap 64 (totals_get c (wk_totals k)) = wrap 64 (tasks_sum c (wk_tasks k) (wk_joined k));
  wo_range : c <> total_errors -> is_u64 (totals_get c (wk_totals k));
}.

Section Steps.
Context (runner : Runner) (time : Z) (latency : nat) (c : Counter) (Hc : mirrored c = true).

Lemma create_session_counts id w (s : RunShared HG) : mirror c (create_session runner time id w s) = mirror c w.
Proof. unfold create_session, WorkerSession_new. destruct (cf_chaos _); by destruct c. Qed.

Lemma start_worker_ok k : workers_ok c k -> workers_ok c (start_worker runner time latency k).
Proof.
  intros [[Hne Hag] Hnd Hids Ht Hr]. unfold start_worker. cbn [with_latency assign_shard]. cbn [set_field].
  match goal with |- context [create_session ?r ?t ?m ?x ?y] => pose proof (create_session_counts (length (wk_tasks k)) x y) as Hw; set (s := y) in *; set (m0 := x) in * end.
  split; cbn [wk_tasks wk_shared wk_totals wk_joined wk_panicked set_field].
  - split; [done|]. cbn [fst snd] in *. unfold workers_sum in *. rewrite fmap_app, sum_Z_app. cbn [fmap list_fmap].
    assert (mirror c m0 = 0) as Hm0 by (by destruct c). rewrite Hw, Hm0. etransitivity; [exact Hag|]. rewrite sum_Z_cons. cbn. by rewrite !Z.add_0_r.
  - done.
  - eapply Forall_impl; [exact Hids|]. intros id Hid. cbv beta in *. rewrite length_app. lia.
  - rewrite tasks_sum_started; [done|]. by apply Forall_app in Hids as [? _].
  - done.
Qed.

(** A step of a task that has not ended, which moves both counters alike. *)
Lemma update_task_ok k id w w' s' d :
  workers_ok c k -> wk_tasks k !! id = Some w -> id ∉ wk_joined k ++ wk_panicked k -> moves c d d (w, wk_shared k) (w', s') ->
  workers_ok c (k <| wk_tasks ::= <[id := w']> |> <| wk_shared := s' |>).
Proof.
  intros [Hl Hnd Hids Ht Hr] Hid Hnin Hm. split; cbn [wk_tasks wk_shared wk_totals wk_joined wk_panicked set_field]; try done.
  - by apply (live_agrees_step c _ (wk_shared k) id w w' s' d).
  - by rewrite length_insert.
  - rewrite tasks_sum_other; [done|]. intros Hin. apply Hnin, elem_of_app. by left.
Qed.

Lemma worker_acts_ok id op k k' : workers_ok c k -> worker_acts id op k = Some k' -> workers_ok c k'.
Proof.
  intros Hok Ha. unfold worker_acts in Ha. destruct (wk_tasks k !! id) as [w|] eqn:Hid; [|done]. cbn [mbind option_bind] in Ha.
  case_decide as Hend; [done|]. pose proof (task_op_moves op c (w, wk_shared k) Hc) as Hm.
  destruct (task_op op (w, wk_shared k)) as [w' s']. injection Ha as <-. by apply (update_task_ok k id w w' s' (task_amount op c)).
Qed.

Lemma ended_ids k id w : workers_ok c k -> wk_tasks k !! id = Some w -> id ∉ wk_joined k ++ wk_panicked k ->
  NoDup (id :: wk_joined k ++ wk_panicked k) /\ Forall (fun id => (id < length (wk_tasks k))%nat) (id :: wk_joined k ++ wk_panicked k).
Proof. intros [_ Hnd Hids _ _] Hid Hnin. split; [by constructor|]. constructor; [by eapply lookup_lt_Some|done]. Qed.

Context (add : gmap nat LatencyRecorder -> WorkerMetrics -> MetricsTotals HG -> MetricsTotals HG).
Context (Hadd : forall heap w t, wrap 64 (totals_get c (add heap w t)) = wrap 64 (totals_get c t + mirror c w)).
Context (Hrange : forall heap w t, c <> total_errors -> is_u64 (totals_get c (add heap w t))).

Lemma await_worker_ok id finished k k' : workers_ok c k -> await_worker add id finished k = Some k' -> workers_ok c k'.
Proof using Hc Hadd Hrange.
  intros Hok Ha. unfold await_worker in Ha. destruct (wk_tasks k !! id) as [w|] eqn:Hid; [|done]. cbn [mbind option_bind] in Ha.
  case_decide as Hend; [done|]. destruct (ended_ids k id w Hok Hid Hend) as [Hnd' Hids']. destruct finished; [|injection Ha as <-].
  - pose proof (op_moves_together OpFlush c (w, wk_shared k) Hc) as Hm. cbn [run_op] in Hm.
    destruct (flush_interval (w, wk_shared k)) as [w' s']. injection Ha as <-.
    destruct (update_task_ok k id w w' s' _ Hok Hid Hend Hm) as [Hl _ Hids Ht Hr].
    cbn [wk_tasks wk_shared wk_totals wk_joined wk_panicked set_field] in *. split; cbn [wk_tasks wk_shared wk_totals wk_joined wk_panicked set_field app]; try done.
    + by rewrite length_insert.
    + rewrite Hadd, tasks_sum_cons, <- wrap_add_l, Ht, wrap_add_l. f_equal. unfold task_count.
      rewrite list_lookup_insert_eq by (by eapply lookup_lt_Some). cbn. lia.
    + intros Hne. by apply Hrange.
  - destruct Hok as [Hl Hnd Hids Ht Hr]. split; cbn [wk_tasks wk_shared wk_totals wk_joined wk_panicked set_field]; try done.
    + by rewrite <- Permutation_middle.
    + by rewrite <- Permutation_middle.
Qed.
End Steps.

(** How many tasks there are and which have ended. *)
Lemma worker_acts_ended id op (k k' : workers) : worker_acts id op k = Some k' ->
  wk_joined k' = wk_joined k /\ wk_panicked k' = wk_panicked k /\ length (wk_tasks k') = length (wk_tasks k).
Proof.
  unfold worker_acts. destruct (wk_tasks k !! id); [|done]. cbn [mbind option_bind]. case_decide; [done|].
  destruct (task_op _ _). intros [= <-]. cbn. by rewrite length_insert.
Qed.

Lemma await_worker_ended add id finished (k k' : workers) : await_worker add id finished k = Some k' ->
  wk_joined k' = (if finished then id :: wk_joined k else wk_joined k) /\
  wk_panicked k' = (if finished then wk_panicked k else id :: wk_panicked k) /\ length (wk_tasks k') = length (wk_tasks k).
Proof.
  unfold await_worker. destruct (wk_tasks k !! id); [|done]. cbn [mbind option_bind]. case_decide; [done|].
  destruct finished; [destruct (flush_interval _)|]; intros [= <-]; cbn; by rewrite ?length_insert.
Qed.

Lemma start_worker_ended runner time latency (k : workers) :
  wk_joined (start_worker runner time latency k) = wk_joined k /\ wk_panicked (start_worker runner time latency k) = wk_panicked k /\
  length (wk_tasks (start_worker runner time latency k)) = S (length (wk_tasks k)).
Proof. unfold start_worker. cbn [with_latency assign_shard]. cbn. rewrite length_app. cbn. split_and!; [done..|lia]. Qed.
End Workers.

(** *** Constant and staged connections *)

Lemma ramp_takes_a_prefix delay n cancels : ramp delay (seq 0 n) cancels = seq 0 (length (ramp delay (seq 0 n) cancels)).
Proof.
  generalize 0%nat. revert cancels. induction n as [|n IH]; intros cancels from; [done|]. cbn [seq ramp].
  destruct cancels as [|[cancelled in_delay] cancels]; [done|]. destruct cancelled; [done|].
  destruct (delay && in_delay); cbn [length seq]; [done|]. f_equal. apply IH.
Qed.

Lemma run_stages_started stages share ticks : run_stages stages share ticks ≡ₚ seq 0 (length (run_stages stages share ticks)).
Proof.
  pose proof (run_ticks_sessions stages share ticks) as Hp. cbv zeta in Hp.
  assert (run_stages stages share ticks ≡ₚ seq 0 (sd_next_id (run_ticks stages share ticks))) as Hs.
  { unfold run_stages. by rewrite reverse_Permutation, Permutation_app_comm. }
  rewrite Hs at 1. by rewrite Hs, length_seq.
Qed.

(** An invariant of a run of steps that may be stuck. *)
Lemma foldl_bind_inv {S E} (step : S -> E -> option S) (P : S -> Prop) events s s' :
  (forall s e s', P s -> step s e = Some s' -> P s') -> P s ->
  foldl (fun s e => s ← s; step s e) (Some s) events = Some s' -> P s'.
Proof.
  intros Hstep Hs. revert s'. induction events as [|e events IH] using rev_ind; intros s' Hf; [by injection Hf as <-|].
  rewrite foldl_app in Hf. cbn [foldl] in Hf. destruct (foldl _ (Some s) events) as [s1|]; [|done].
  exact (Hstep s1 e s' (IH s1 eq_refl) Hf).
Qed.

Section Loops.
Context `{Libs, Formatter}.
Context {HG : Type} `{Hdr HG}.
Local Abbreviation workers := (Workers HG).
Context (runner : Runner) (time : Z) (latency : nat) (c : Counter) (Hc : mirrored c = true).

(** Every task started has ended, exactly once. *)
Definition all_ended (k : workers) : Prop := wk_joined k ++ wk_panicked k ≡ₚ seq 0 (length (wk_tasks k)).

Lemma add_worker_range heap w (t : MetricsTotals HG) : c <> total_errors -> is_u64 (totals_get c (add_worker heap w t)).
Proof using Hc. intros Hne. destruct c; try done; apply u64_add_range. Qed.

Lemma add_worker_counts_range heap w (t : MetricsTotals HG) : c <> total_errors -> is_u64 (totals_get c (add_worker_counts heap w t)).
Proof using Hc. intros Hne. destruct c; try done; apply u64_add_range. Qed.

Lemma await_ended_perm add id finished (k k' : workers) : await_worker add id finished k = Some k' ->
  wk_joined k' ++ wk_panicked k' ≡ₚ id :: wk_joined k ++ wk_panicked k /\ length (wk_tasks k') = length (wk_tasks k).
Proof. intros (-> & -> & ->)%await_worker_ended. split; [|done]. destruct finished; [done|]. by rewrite <- Permutation_middle. Qed.

Definition driving_ok (handles0 : list nat) (s : nat * list nat * workers) : Prop :=
  workers_ok c s.2 /\ (wk_joined s.2 ++ wk_panicked s.2) ++ s.1.2 ≡ₚ handles0 /\ (length (wk_tasks s.2) + s.1.1 = length handles0)%nat.

Lemma drive_step_ok handles0 s e s' : driving_ok handles0 s -> drive_step runner time latency s e = Some s' -> driving_ok handles0 s'.
Proof using Hc.
  destruct s as [[to_start handles] k]. intros (Hok & Hp & Hn) Hs. cbn [fst snd] in *. destruct e as [|id op|finished]; cbn [drive_step] in Hs.
  - destruct to_start as [|to_start]; [done|]. injection Hs as <-. destruct (start_worker_ended runner time latency k) as (Hj & Hl & Ht).
    unfold driving_ok. cbn [fst snd]. rewrite Hj, Hl, Ht. split; [by apply start_worker_ok|]. split; [done|lia].
  - destruct (worker_acts id op k) as [k'|] eqn:E; [|done]. injection Hs as <-. destruct (worker_acts_ended _ _ _ _ E) as (Hj & Hl & Ht).
    unfold driving_ok. cbn [fst snd]. rewrite Hj, Hl, Ht. split; [by eapply worker_acts_ok|done].
  - destruct to_start as [|to_start]; [|done]. destruct handles as [|id handles]; [done|].
    destruct (await_worker add_worker id finished k) as [k'|] eqn:E; [|done]. injection Hs as <-.
    destruct (await_ended_perm _ _ _ _ _ E) as [He Ht]. unfold driving_ok. cbn [fst snd]. rewrite Ht. split; [|split; [|done]].
    + eapply (await_worker_ok c Hc add_worker); [| |exact Hok|exact E]; intros; [by apply totals_get_add_worker|by apply add_worker_range].
    + rewrite He, <- Hp. cbn [app]. by rewrite Permutation_middle.
Qed.

Definition fresh_workers (k : workers) : Prop :=
  wk_tasks k = [] /\ wk_joined k = [] /\ wk_panicked k = [] /\ live_agrees c ([], wk_shared k) /\ totals_get c (wk_totals k) = 0.

Lemma fresh_ok k : fresh_workers k -> workers_ok c k.
Proof using. intros (Ht & Hj & Hl & Hag & Hz). split; rewrite ?Ht, ?Hj, ?Hl, ?Hz; cbn [app]; try done; constructor. Qed.

Lemma drive_workers_ok handles events k k' : fresh_workers k -> handles ≡ₚ seq 0 (length handles) ->
  drive_workers runner time latency handles events k = Some k' ->
  workers_ok c k' /\ all_ended k' /\ length (wk_tasks k') = length handles.
Proof using Hc.
  intros Hf Hp Hrun. unfold drive_workers in Hrun. destruct (drive_steps _ _ _ _ _) as [s|] eqn:E; [|done]. cbn [mbind option_bind] in Hrun.
  assert (driving_ok handles (length handles, handles, k)) as Hstart.
  { split; [by apply fresh_ok|]. destruct Hf as (Ht & Hj & Hl & _). cbn. by rewrite Ht, Hj, Hl. }
  destruct (foldl_bind_inv _ (driving_ok handles) _ _ _ (drive_step_ok handles) Hstart E) as (Hok & He & Hn).
  destruct s as [[[|n] [|h hs]] k1]; try done. injection Hrun as ->. cbn [fst snd] in *. rewrite app_nil_r, Nat.add_0_r in *.
  split; [done|]. split; [|done]. unfold all_ended. by rewrite He, Hn.
Qed.

(** *** Sessions at an arrival rate *)

Section Sessions.
Context (arrivals : Arrivals) (duration interval instant_max : Z).
Context (Hcap : forall max, ar_max_connections arrivals = Some max -> is_u64 max).

(** What a step of the loop does to the sessions. *)
Lemma arrival_step_sessions e loc a loc' a' : ac_started (rn_counts a) < u64_max -> 0 <= ac_started (rn_counts a) ->
  arrival_step arrivals duration interval instant_max e (loc, a) = Some (loc', a') ->
  rn_added a' = (match e with SessionDone id true => id :: rn_added a | _ => rn_added a end) /\
  rn_lost a' = (match e with SessionDone id false => id :: rn_lost a | _ => rn_lost a end) /\
  ac_started (rn_counts a') = ac_started (rn_counts a) +
    (match e with NextArrival => Z.b2z (starts_session arrivals duration (loc, a)) | _ => 0 end).
Proof using.
  intros Hmax Hpos Hs. unfold u64_max in Hmax. destruct loc, e; cbn [arrival_step] in Hs; try done.
  all: repeat match type of Hs with
    | (if ?b then _ else _) = Some _ => destruct b eqn:?; [|done]
    | _ <$> collect_session ?id ?ok ?a = Some _ => unfold collect_session in Hs; case_decide; [|done]; destruct ok; cbn in Hs
    end; try (injection Hs as <- <-; cbn; split_and!; [done|done|lia]).
  - unfold starts_session. cbn [fst snd]. destruct (due_now duration now a); cbn [andb]; [|injection Hs as <- <-; cbn; split_and!; [done|done|lia]].
    unfold arrive, start_or_skip in Hs. destruct (Z.leb_spec (max_open arrivals) (open_count a)); cbn in Hs |- *.
    + destruct (arrival_at _ _ _); injection Hs as <- <-; cbn; split_and!; [done|done|lia|done|done|lia].
    + destruct (arrival_at _ _ _); injection Hs as <- <-; cbn; rewrite u64_add_id by lia; done.
Qed.

Definition sessions_ok (n : Z) (s : ArrivalLoc * ArrivalRun * workers) : Prop :=
  let '(loc, a, k) := s in
  workers_ok c k /\ arrivals_ok arrivals duration instant_max a /\ at_loc arrivals duration instant_max loc a /\ rn_arrived a <= n /\
  wk_joined k = rn_added a /\ wk_panicked k = rn_lost a /\ Z.of_nat (length (wk_tasks k)) = ac_started (rn_counts a).

Lemma sessions_step_ok n s e s' : n < u64_max -> sessions_ok n s -> sessions_step runner time latency arrivals duration interval instant_max s e = Some s' ->
  sessions_ok (n + 1) s'.
Proof using Hc Hcap.
  intros Hn. destruct s as [[loc a] k]. intros (Hok & Ha & Hat & Hle & Hj & Hl & Ht) Hs. destruct e as [id op|e]; cbn [sessions_step] in Hs.
  - destruct (worker_acts id op k) as [k'|] eqn:E; [|done]. injection Hs as <-. destruct (worker_acts_ended _ _ _ _ E) as (Hj' & Hl' & Ht').
    unfold sessions_ok. rewrite Hj', Hl', Ht'. split_and!; try done; [by eapply worker_acts_ok|lia].
  - destruct (arrival_step _ _ _ _ e (loc, a)) as [[loc' a']|] eqn:E; [|done]. cbn [mbind option_bind] in Hs.
    destruct (arrival_step_ok _ _ _ _ Hcap e loc loc' a a' Ha Hat ltac:(lia) E) as (Ha' & Hat' & Hle').
    pose proof (ok_counts _ _ _ _ Ha) as Hcnt.
    destruct (arrival_step_sessions e loc a loc' a' ltac:(lia) ltac:(lia) E) as (Hadd & Hlost & Hst).
    destruct (match e with SessionDone _ _ => _ | NextArrival => _ | _ => _ end) as [k'|] eqn:Ek; [|done]. injection Hs as <-.
    unfold sessions_ok. split; [|split; [done|]]; [|split; [done|]; split; [lia|]].
    + destruct e; try (injection Ek as <-; done).
      * eapply (await_worker_ok c Hc add_worker_counts); [| |exact Hok|exact Ek]; intros; [by apply totals_get_add_worker_counts|by apply add_worker_counts_range].
      * injection Ek as <-. destruct (starts_session _ _ _); [by apply start_worker_ok|done].
    + rewrite Hadd, Hlost, Hst, <- Ht. destruct e; try (injection Ek as <-; split_and!; done || lia).
      * destruct (await_worker_ended _ _ _ _ _ Ek) as (-> & -> & ->). rewrite Hj, Hl. destruct finished; split_and!; done || lia.
      * injection Ek as <-. destruct (starts_session _ _ _); [|cbn; split_and!; done || lia].
        destruct (start_worker_ended runner time latency k) as (-> & -> & ->). cbn. split_and!; try done. lia.
Qed.

Lemma session_steps_ok events s s' : sessions_ok 0 s -> Z.of_nat (length events) <= u64_max ->
  session_steps runner time latency arrivals duration interval instant_max events (Some s) = Some s' -> sessions_ok (Z.of_nat (length events)) s'.
Proof using Hc Hcap.
  intros Hs. revert s'. induction events as [|e events IH] using rev_ind; intros s' Hlen Hrun; [by injection Hrun as <-|].
  rewrite length_app in Hlen |- *. cbn [length] in *. unfold session_steps in Hrun. rewrite foldl_app in Hrun. cbn [foldl] in Hrun.
  fold (session_steps runner time latency arrivals duration interval instant_max events (Some s)) in Hrun.
  destruct (session_steps _ _ _ _ _ _ _ events (Some s)) as [s1|]; [|done]. cbn [mbind option_bind] in Hrun.
  rewrite Nat2Z.inj_add. apply (sessions_step_ok _ s1 e); [lia|apply IH; [lia|done]|done].
Qed.

Lemma run_sessions_ok events k counts k' :
  f64_is_finite (ar_rate arrivals) && f64_ltb f64_zero (ar_rate arrivals) = true -> 0 <= instant_max -> Z.of_nat (length events) <= u64_max ->
  fresh_workers k -> run_sessions runner time latency arrivals duration interval instant_max events k = Some (counts, k') ->
  workers_ok c k' /\ all_ended k' /\ Z.of_nat (length (wk_tasks k')) = ac_started counts.
Proof using Hc Hcap.
  intros Hrate Hinst Hlen Hf Hrun. unfold run_sessions in Hrun. destruct (session_steps _ _ _ _ _ _ _ _ _) as [[[loc a] k1]|] eqn:E; [|done].
  cbn [mbind option_bind] in Hrun. destruct loc; try done. injection Hrun as <- <-.
  assert (sessions_ok 0 (Sleeping, ArrivalRun_new, k)) as Hstart.
  { split; [by apply fresh_ok|]. split; [by apply arrivals_ok_new|]. split; [split; [by apply arrival_at_0|by cbn; auto]|].
    destruct Hf as (-> & -> & -> & _). done. }
  destruct (session_steps_ok events _ _ Hstart Hlen E) as (Hok & Ha & [_ Hret] & _ & Hj & Hl & Ht).
  split; [|split; [|done]].
  - destruct Hok as [? ? ? ? ?]. split; cbn [wk_tasks wk_shared wk_totals wk_joined wk_panicked set_field]; try done; by rewrite totals_get_add_recorder.
  - unfold all_ended. cbn [wk_tasks wk_joined wk_panicked set_field]. pose proof (ok_sessions _ _ _ _ Ha) as Hp.
    rewrite Hret in Hp. cbn [app] in Hp. rewrite Hj, Hl, Hp, <- Ht, Nat2Z.id. done.
Qed.
End Sessions.
End Loops.

(** *** The run *)

(** What an arrival run needs of its settings and its environment: a rate it
    can compute with, and fewer than 2^64 steps. *)
Definition drivable `{Libs} (runner : Runner) (env : DriveEnv) : Prop :=
  match ld_arrivals (rc_load (rr_config runner)), de_load env with
  | Some arrivals, ArrivalsEnv events =>
      f64_is_finite (ar_rate arrivals) && f64_ltb f64_zero (ar_rate arrivals) = true /\
      (forall max, ar_max_connections arrivals = Some max -> is_u64 max) /\
      0 <= de_instant_max env /\ Z.of_nat (length events) <= u64_max
  | _, _ => True
  end.

(** What panicked workers had counted. *)
Definition lost_counts {HG} (c : Counter) (k : Workers HG) : Z := tasks_sum c (wk_tasks k) (wk_panicked k).

Section RunReport.
Context `{Libs, Formatter}.
Context {HG : Type} `{HdrLaws HG} (windows : bool) (rlimit : option Z).
Local Abbreviation workers := (Workers HG).

Lemma drive_load_ok runner env (interval : Z) c (k k' : workers) arrivals connections not_started :
  mirrored c = true -> drivable runner env -> fresh_workers c k ->
  drive_load runner (de_time env) 0 interval (de_instant_max env) (de_load env) k = Some (k', arrivals, connections, not_started) ->
  workers_ok c k' /\ all_ended k' /\ connections = Z.of_nat (length (wk_tasks k')) + not_started.
Proof.
  intros Hc Hd Hf Hrun. unfold drive_load, drivable in *. destruct (ld_arrivals _) as [arr|].
  - destruct (de_load env) as [| |events]; try done. destruct Hd as (Hrate & Hcap & Hinst & Hlen).
    destruct (run_sessions _ _ _ _ _ _ _ events k) as [[counts k1]|] eqn:E; [|done]. injection Hrun as <- <- <- <-.
    destruct (run_sessions_ok runner _ _ c Hc arr _ _ _ Hcap events k counts k1 Hrate Hinst Hlen Hf E) as (Hok & Hall & <-). split_and!; [done..|lia].
  - destruct (ld_stages _) as [|stage stages] eqn:Es, (de_load env) as [cancels events|ticks events|]; try done.
    + destruct (drive_workers _ _ _ _ events k) as [k1|] eqn:E; [|done]. injection Hrun as <- <- <- <-.
      apply (drive_workers_ok runner _ _ c Hc) in E as (Hok & Hall & ->); [split_and!; [done..|lia]|done|].
      by rewrite ramp_takes_a_prefix at 1.
    + destruct (drive_workers _ _ _ _ events k) as [k1|] eqn:E; [|done]. injection Hrun as <- <- <- <-.
      apply (drive_workers_ok runner _ _ c Hc) in E as (Hok & Hall & ->); [split_and!; [done..|lia]|done|]. apply run_stages_started.
Qed.

(** What was counted is what was awaited and what was lost. *)
Lemma ended_agree c (k : workers) : workers_ok c k -> all_ended k ->
  snapshot_get c (snapshot (rs_live (wk_shared k))) = wrap 64 (totals_get c (wk_totals k) + lost_counts c k).
Proof.
  intros [[_ Hag] _ _ Ht _] Hall. cbn [fst snd] in Hag. rewrite Hag, <- tasks_sum_all.
  unfold all_ended in Hall. rewrite (tasks_sum_perm c (wk_tasks k) _ _ (symmetry Hall)), tasks_sum_app. unfold lost_counts.
  by rewrite <- wrap_add_l, <- Ht, wrap_add_l.
Qed.

Lemma report_get_run_metrics c runner (o : RunOutcome HG) :
  report_get c (run_metrics windows rlimit runner o) = report_get c (MetricsTotals_finish (ro_totals o) (ro_elapsed o) (ro_connections o)).
Proof. by destruct c. Qed.

(** C1. The report of a run agrees with its live counters. However its
    workers (ramped, staged or arriving) interleave with each other and with
    the runner that starts and awaits them: every worker started is awaited
    once; every slot of the report is a worker that started or one the ramp
    did not reach; and every counter that both keep has in the report the
    value the live registry ends with, less what panicked workers had
    counted, so exactly that value when none panicked. *)
Theorem run_report_agrees (runner : Runner) (env : DriveEnv) (cores : option nat) (intervals intervals' : option LiveState)
    (o : RunOutcome HG) (k : workers) (c : Counter)
    (Hcores : cores <> Some 0%nat) (Hc : mirrored c = true) (Hd : drivable runner env)
    (Hrun : drive windows runner env (LiveMetrics_default cores) intervals = Some (Ok (o, k, intervals'))) :
  let m := run_metrics windows rlimit runner o in
  let live := snapshot_get c (snapshot (rs_live (wk_shared k))) in
  wk_joined k ++ wk_panicked k ≡ₚ seq 0 (length (wk_tasks k)) /\
  ag_total_connections_attempted m = Z.of_nat (length (wk_tasks k)) + ro_not_started o /\
  live = wrap 64 (report_get c m + lost_counts c k) /\
  (wk_panicked k = [] -> report_get c m = live).
Proof.
  unfold drive in Hrun. destruct (de_capture_start env); [done|]. destruct MetricsTotals_new_ok as (h & _ & Hnew). rewrite Hnew in Hrun.
  destruct (drive_load _ _ _ _ _ _ _) as [[[[k1 arr] conn] ns]|] eqn:E; [|done]. cbn [mbind option_bind] in Hrun. injection Hrun as <- <- _.
  match type of E with drive_load _ _ _ _ _ _ ?k0 = _ => assert (fresh_workers c k0) as Hfresh end.
  { do 3 (split; [done|]). split; [split|by destruct c]; cbn [wk_shared rs_live snd].
    - cbn. by destruct cores as [[|]|].
    - by rewrite snapshot_default. }
  destruct (drive_load_ok _ _ _ c _ _ _ _ _ Hc Hd Hfresh E) as (Hok & Hall & Hconn).
  pose proof (ended_agree c k1 Hok Hall) as Hlive. cbv zeta. rewrite report_get_run_metrics, report_get_finish. cbn [ro_totals ro_not_started].
  split; [done|]. split; [by rewrite <- Hconn|]. rewrite Hlive. destruct Hok as [_ _ _ _ Hrange]. split.
  - case_decide; [by rewrite wrap_add_l|done].
  - intros Hnone. unfold lost_counts. rewrite Hnone. cbn. rewrite Z.add_0_r. case_decide as Hce; [done|].
    symmetry. by apply wrap_id, Hrange.
Qed.
End RunReport.

(** ** When the latency histograms are read

    [add_worker] moves the shared recorder into the totals with the first
    worker it adds; [run_arrivals] moves it at the end. *)

Section Histograms.
Context `{Libs, Formatter}.
Context {HG : Type} `{Hdr HG}.
Local Abbreviation workers := (Workers HG).

Definition histograms (t : MetricsTotals HG) : HG * HG * HG := (mt_handshake t, mt_rtt t, mt_response t).
(** What [on_action] leaves alone. *)
Definition outside_actions (t : MetricsTotals HG) : HG * HG * HG * list nat := (histograms t, mt_absorbed t).

Lemma outside_on_action name f t : outside_actions (on_action name f t) = outside_actions t.
Proof. unfold on_action. destruct (mt_actions t !! name); [done|]. by destruct ActionTotals_new. Qed.

Lemma outside_add_worker_counts heap w t : outside_actions (add_worker_counts heap w t) = outside_actions t.
Proof.
  unfold add_worker_counts. set (t1 := fold_left _ _ _). transitivity (outside_actions t1); [done|]. unfold t1.
  apply (fold_left_keeps outside_actions). intros t' [i name]. unfold add_worker_action.
  destruct (wm_actions w !! i); [apply outside_on_action|done].
Qed.

Lemma outside_add_recorder heap latency recorder t : latency ∉ mt_absorbed t -> heap !! latency = Some recorder ->
  outside_actions (add_recorder heap latency t)
  = (LatencyRecorder_add_to recorder (mt_handshake t) (mt_rtt t) (mt_response t), mt_absorbed t ++ [latency]).
Proof.
  intros Hn Hr. unfold add_recorder. rewrite decide_False, Hr by done. destruct (LatencyRecorder_add_to _ _ _ _) as [[h1 h2] h3].
  set (t1 := t <| mt_handshake := h1 |> <| mt_rtt := h2 |> <| mt_response := h3 |>).
  set (t2 := fold_left _ _ t1).
  assert (outside_actions t2 = outside_actions t1) as Ho.
  { unfold t2. apply (fold_left_keeps outside_actions). intros t' [i name]. apply outside_on_action. }
  unfold outside_actions, histograms in *. injection Ho as E1 E2 E3 E4. cbn -[t2]. by rewrite E1, E2, E3, E4.
Qed.

Lemma outside_add_worker heap w t : wm_latency w ∈ mt_absorbed t -> outside_actions (add_worker heap w t) = outside_actions t.
Proof. intros Hin. unfold add_worker. rewrite outside_add_worker_counts. unfold add_recorder. by rewrite decide_True. Qed.

(** No operation moves a worker to another recorder. *)
Lemma on_interval_latency f (st : WorkerMetrics * RunShared HG) :
  wm_latency (on_interval f st).1 = wm_latency st.1 /\ rs_recorders (on_interval f st).2 = rs_recorders st.2.
Proof. unfold on_interval. destruct (wm_interval st.1); [|done]. by destruct (f _). Qed.

Lemma update_action_latency f w : wm_latency (update_action f w) = wm_latency w.
Proof. unfold update_action. by destruct (wm_current_action w). Qed.

Lemma task_op_latency op (st : WorkerMetrics * RunShared HG) : wm_latency (task_op op st).1 = wm_latency st.1.
Proof.
  destruct op as [[]| |]; cbn [task_op run_op]; try done.
  - unfold record_connection_failed, record_error. cbn. rewrite update_action_latency. by repeat case_decide.
  - unfold record_message_sent. cbn. by rewrite update_action_latency.
  - unfold record_message_recv. destruct rtt; [|done]. cbn. repeat case_match; cbn; rewrite ?(proj1 (on_interval_latency _ _)); done.
  - unfold record_response_time. cbv zeta. rewrite (proj1 (on_interval_latency _ _)). by repeat case_match.
  - unfold record_unsolicited_frames. by case_match.
  - unfold record_error. cbn. rewrite update_action_latency. by repeat case_decide.
  - apply on_interval_latency.
Qed.

Section Run.
Context (runner : Runner) (time : Z) (latency : nat).
Definition on_one_recorder (k : workers) : Prop := Forall (fun w => wm_latency w = latency) (wk_tasks k).

Lemma start_worker_recorder k : on_one_recorder k -> on_one_recorder (start_worker runner time latency k).
Proof.
  intros Hk. unfold start_worker, on_one_recorder. cbn [with_latency assign_shard]. cbn. apply Forall_app. split; [done|].
  constructor; [|done]. unfold create_session, WorkerSession_new. by destruct (cf_chaos _).
Qed.

Lemma worker_acts_recorder id op k k' : on_one_recorder k -> worker_acts id op k = Some k' -> on_one_recorder k' /\ wk_totals k' = wk_totals k.
Proof.
  intros Hk Ha. unfold worker_acts in Ha. destruct (wk_tasks k !! id) as [w|] eqn:Hw; [|done]. cbn [mbind option_bind] in Ha.
  case_decide; [done|]. pose proof (task_op_latency op (w, wk_shared k)) as Hl. destruct (task_op _ _) as [w' s']. injection Ha as <-.
  split; [|done]. apply Forall_insert; [done|]. cbn in Hl. rewrite Hl. exact (Forall_lookup_1 _ _ _ _ Hk Hw).
Qed.

Lemma await_worker_recorder add id finished k k' : on_one_recorder k -> await_worker add id finished k = Some k' ->
  on_one_recorder k' /\
  (if finished then exists w, wm_latency w = latency /\ wk_totals k' = add (rs_recorders (wk_shared k)) w (wk_totals k) else wk_totals k' = wk_totals k).
Proof.
  intros Hk Ha. unfold await_worker in Ha. destruct (wk_tasks k !! id) as [w|] eqn:Hw; [|done]. cbn [mbind option_bind] in Ha.
  case_decide; [done|]. destruct finished; [|by injection Ha as <-].
  assert (wm_latency w = latency) as Hlw by (exact (Forall_lookup_1 _ _ _ _ Hk Hw)).
  pose proof (on_interval_latency IntervalRecorder_flush (w, wk_shared k)) as [Hl Hr]. fold (flush_interval (w, wk_shared k)) in Hl, Hr.
  destruct (flush_interval _) as [w' s']. injection Ha as <-. cbn in Hl, Hr. rewrite Hlw in Hl.
  split; [by apply Forall_insert|]. exists w'. split; [done|]. cbn. by rewrite Hr.
Qed.

(** Before the first join the totals are the run's first ones; after it the
    recorder is absorbed. *)
Definition unread (t0 : MetricsTotals HG) (s : nat * list nat * workers) : Prop :=
  on_one_recorder s.2 /\ (wk_joined s.2 = [] -> wk_totals s.2 = t0).
Definition read_once (o : HG * HG * HG * list nat) (s : nat * list nat * workers) : Prop :=
  on_one_recorder s.2 /\ outside_actions (wk_totals s.2) = o.

Lemma unread_step t0 s e s' : unread t0 s -> drive_step runner time latency s e = Some s' -> unread t0 s'.
Proof.
  destruct s as [[to_start handles] k]. intros [Hk Ht] Hs. cbn [snd] in *. destruct e as [|id op|finished]; cbn [drive_step] in Hs.
  - destruct to_start; [done|]. injection Hs as <-. split; [by apply start_worker_recorder|]. cbn [snd].
    destruct (start_worker_ended runner time latency k) as (-> & _). exact Ht.
  - destruct (worker_acts id op k) as [k'|] eqn:E; [|done]. injection Hs as <-. destruct (worker_acts_recorder _ _ _ _ Hk E) as [? Ht'].
    destruct (worker_acts_ended _ _ _ _ E) as (Hj & _). split; cbn [snd]; [done|]. by rewrite Hj, Ht'.
  - destruct to_start; [|done]. destruct handles as [|id handles]; [done|].
    destruct (await_worker _ _ _ k) as [k'|] eqn:E; [|done]. injection Hs as <-. destruct (await_worker_recorder _ _ _ _ _ Hk E) as [? Ht'].
    destruct (await_worker_ended _ _ _ _ _ E) as (Hj & _). split; cbn [snd]; [done|]. destruct finished; rewrite Hj; [done|]. by rewrite Ht'.
Qed.

Lemma read_once_step hs absorbed s e s' : latency ∈ absorbed -> read_once (hs, absorbed) s -> drive_step runner time latency s e = Some s' -> read_once (hs, absorbed) s'.
Proof.
  intros Hin. destruct s as [[to_start handles] k]. intros [Hk Ht] Hs. cbn [snd] in *. destruct e as [|id op|finished]; cbn [drive_step] in Hs.
  - destruct to_start; [done|]. injection Hs as <-. split; [by apply start_worker_recorder|exact Ht].
  - destruct (worker_acts id op k) as [k'|] eqn:E; [|done]. injection Hs as <-. destruct (worker_acts_recorder _ _ _ _ Hk E) as [? Ht'].
    split; cbn [snd]; [done|]. by rewrite Ht'.
  - destruct to_start; [|done]. destruct handles as [|id handles]; [done|].
    destruct (await_worker _ _ _ k) as [k'|] eqn:E; [|done]. injection Hs as <-. destruct (await_worker_recorder _ _ _ _ _ Hk E) as [? Ht'].
    split; cbn [snd]; [done|]. destruct finished; [|by rewrite Ht']. destruct Ht' as (w & Hw & ->).
    rewrite outside_add_worker; [done|]. rewrite Hw. by injection Ht as _ ->.
Qed.

Definition session_unread (t0 : MetricsTotals HG) (s : ArrivalLoc * ArrivalRun * workers) : Prop :=
  on_one_recorder s.2 /\ outside_actions (wk_totals s.2) = outside_actions t0.

Lemma session_unread_step arrivals duration interval instant_max t0 s e s' :
  session_unread t0 s -> sessions_step runner time latency arrivals duration interval instant_max s e = Some s' -> session_unread t0 s'.
Proof.
  destruct s as [a k]. intros [Hk Ht] Hs. cbn [snd] in *. destruct e as [id op|e]; cbn [sessions_step] in Hs.
  - destruct (worker_acts id op k) as [k'|] eqn:E; [|done]. injection Hs as <-. destruct (worker_acts_recorder _ _ _ _ Hk E) as [? Ht'].
    split; cbn [snd]; [done|]. by rewrite Ht'.
  - destruct (arrival_step _ _ _ _ e a) as [a'|]; [|done]. cbn [mbind option_bind] in Hs.
    destruct e; cbn [mbind option_bind] in Hs; try (injection Hs as <-; by split).
    + destruct (await_worker _ _ _ k) as [k'|] eqn:E; [|done]. injection Hs as <-. destruct (await_worker_recorder _ _ _ _ _ Hk E) as [? Ht'].
      split; cbn [snd]; [done|]. destruct finished; [|by rewrite Ht']. destruct Ht' as (w & _ & ->). by rewrite outside_add_worker_counts.
    + injection Hs as <-. destruct (starts_session _ _ a); [|by split]. split; [by apply start_worker_recorder|exact Ht].
Qed.

Lemma drive_steps_app before after (s : option (nat * list nat * workers)) :
  drive_steps runner time latency (before ++ after) s = drive_steps runner time latency after (drive_steps runner time latency before s).
Proof. apply foldl_app. Qed.

(** C31. When the latency histograms of a report are read. In a run of
    constant or staged connections they are what the workers' recorder held
    when the first worker was awaited: whatever the workers still running
    record after that is in no report, although it is counted as messages. In
    an arrival run they are what it holds once every session has ended. *)
Theorem latency_is_read_at_the_first_join (shared : RunShared HG) (t0 : MetricsTotals HG) (Hnew : MetricsTotals_new = Ok t0) :
  let k0 := mkWorkers [] shared t0 [] [] in
  (forall handles before id rest k1 after s recorder,
     drive_steps runner time latency before (Some (length handles, handles, k0)) = Some (0%nat, id :: rest, k1) -> wk_joined k1 = [] ->
     rs_recorders (wk_shared k1) !! latency = Some recorder ->
     drive_steps runner time latency (HandleAwaited true :: after) (Some (0%nat, id :: rest, k1)) = Some s ->
     histograms (wk_totals s.2) = LatencyRecorder_add_to recorder (mt_handshake t0) (mt_rtt t0) (mt_response t0)) /\
  (forall arrivals duration interval instant_max events counts k recorder,
     run_sessions runner time latency arrivals duration interval instant_max events k0 = Some (counts, k) ->
     rs_recorders (wk_shared k) !! latency = Some recorder ->
     histograms (wk_totals k) = LatencyRecorder_add_to recorder (mt_handshake t0) (mt_rtt t0) (mt_response t0)).
Proof.
  intros k0. assert (mt_absorbed t0 = []) as Habs.
  { unfold MetricsTotals_new in Hnew. destruct metrics_latency_histogram; [|done]. by injection Hnew as <-. }
  split.
  - intros handles before id rest k1 after s recorder Hbefore Hnone Hrec Hafter.
    assert (unread t0 (length handles, handles, k0)) as Hstart by (split; [constructor|done]).
    destruct (foldl_bind_inv _ (unread t0) _ _ _ (unread_step t0) Hstart Hbefore) as [Hk1 Ht1]. cbn [snd] in Hk1, Ht1.
    unfold drive_steps in Hafter. cbn [foldl mbind option_bind drive_step] in Hafter.
    destruct (await_worker add_worker id true k1) as [k2|] eqn:E.
    2: { exfalso. clear -Hafter. induction after; [done|]. apply IHafter, Hafter. }
    destruct (await_worker_recorder _ _ _ _ _ Hk1 E) as [Hk2 (w & Hw & Ht2)]. rewrite (Ht1 Hnone) in Ht2.
    assert (outside_actions (wk_totals k2) = (LatencyRecorder_add_to recorder (mt_handshake t0) (mt_rtt t0) (mt_response t0), [latency])) as Ho.
    { rewrite Ht2. unfold add_worker. rewrite outside_add_worker_counts, (outside_add_recorder _ _ recorder); rewrite ?Hw, ?Habs; try done. apply not_elem_of_nil. }
    assert (read_once (LatencyRecorder_add_to recorder (mt_handshake t0) (mt_rtt t0) (mt_response t0), [latency]) (0%nat, rest, k2)) as Hread by done.
    destruct (foldl_bind_inv _ (read_once _) _ _ _ (fun s e s' => read_once_step _ _ s e s' (list_elem_of_here _ _)) Hread Hafter) as [_ Hs].
    exact (f_equal fst Hs).
  - intros arrivals duration interval instant_max events counts k recorder Hrun Hrec. unfold run_sessions in Hrun.
    destruct (session_steps _ _ _ _ _ _ _ _ _) as [[[loc a] k1]|] eqn:E; [|done]. cbn [mbind option_bind] in Hrun. destruct loc; try done. injection Hrun as <- <-.
    assert (session_unread t0 (Sleeping, ArrivalRun_new, k0)) as Hstart by (split; [constructor|done]).
    destruct (foldl_bind_inv _ (session_unread t0) _ _ _ (session_unread_step _ _ _ _ t0) Hstart E) as [_ Ht]. cbn [snd] in Ht.
    cbn [wk_totals set_field wk_shared] in *. injection Ht as E1 E2 E3 E4.
    assert (outside_actions (add_recorder (rs_recorders (wk_shared k1)) latency (wk_totals k1))
      = (LatencyRecorder_add_to recorder (mt_handshake t0) (mt_rtt t0) (mt_response t0), [latency])) as Ho.
    { rewrite (outside_add_recorder _ _ recorder); rewrite ?E1, ?E2, ?E3, ?E4, ?Habs; try done. apply not_elem_of_nil. }
    exact (f_equal fst Ho).
Qed.
End Run.
End Histograms.

(** ** Witnesses *)

(** A run of three connections.  The first is awaited while the second still
    works; the second panics, the third ends. *)
Module SampleRun.
#[local] Existing Instance Sample.no_format.
#[local] Existing Instance PlainLibs.plain_libs.
#[local] Existing Instance PlainLibs.plain_http.

Definition builder : LoadTestConfigBuilder :=
  (builder_new "ws://127.0.0.1:9001/feed") <| lb_load := mkLoad 3 0 (from_secs 1) [] None None |>.
Definition built : option RunConfig := match build_config Sample.env builder with Some (Ok c) => Some c | _ => None end.
Definition reply (now : Z) : TaskOp := Recorded (OpMessageRecv now 4 (Some (from_millis 2))).
Definition events : list DriveEvent :=
  [WorkerStarts; WorkerActs 0 (Recorded (OpHandshake (from_millis 3))); WorkerStarts; WorkerActs 0 (Recorded (OpMessageSent 5));
   WorkerActs 1 (Recorded (OpMessageSent 7)); WorkerStarts; WorkerActs 2 Interrupted; WorkerActs 0 (reply 10); HandleAwaited true;
   WorkerActs 2 (Recorded (OpMessageSent 9)); WorkerActs 2 (reply 20); HandleAwaited false; HandleAwaited true].
Definition env : DriveEnv :=
  mkDriveEnv 0 0 (from_secs 1) (2 ^ 63) (Some 1%nat) (RampEnv [(false, false); (false, false); (false, false)] events)
    (Some []) None (from_secs 1) None None None.
Definition ran (runner : Runner) := drive (HG := ClassHistogram) false runner env (LiveMetrics_default (Some 1%nat)) None.
Definition shared : RunShared ClassHistogram := mkRunShared (LiveMetrics_default (Some 1%nat)) {[ 0%nat := with_shards 1 ]} (IntervalStore_new 0 1000000000).
End SampleRun.
#[local] Existing Instance Sample.no_format.
#[local] Existing Instance PlainLibs.plain_libs.

Lemma some_exists {A} (o : option A) : match o with Some _ => true | None => false end = true -> exists a, o = Some a.
Proof. destruct o as [a|]; [by exists a|done]. Qed.

Lemma run_report_agrees_witness : exists config, SampleRun.built = Some config /\
  match SampleRun.ran (Runner_new config) with
  | Some (Ok (o, k, _)) =>
      let sent := report_get messages_sent (run_metrics false None (Runner_new config) o) in
      sent = 2 /\ lost_counts messages_sent k = 1 /\ wk_panicked k = [1%nat] /\
      snapshot_get messages_sent (snapshot (rs_live (wk_shared k))) = wrap 64 (sent + lost_counts messages_sent k)
  | _ => False
  end.
Proof.
  destruct (some_exists SampleRun.built) as [config Eb]; [vm_compute; reflexivity|]. exists config. split; [exact Eb|].
  assert (from_option (fun config => match SampleRun.ran (Runner_new config) with
    | Some (Ok (o, k, _)) => (report_get messages_sent (run_metrics false None (Runner_new config) o), lost_counts messages_sent k, wk_panicked k) = (2, 1, [1%nat])
    | _ => False end) False SampleRun.built) as Hv by (vm_compute; reflexivity).
  assert (from_option (fun config => ld_arrivals (rc_load config) = None) False SampleRun.built) as Ha by (vm_compute; reflexivity).
  rewrite Eb in Hv, Ha. cbn [from_option] in Hv, Ha. destruct (SampleRun.ran (Runner_new config)) as [[[[o k] i]|e]|] eqn:E; [|destruct Hv|destruct Hv].
  injection Hv as Hs Hl Hp. cbv zeta. split; [exact Hs|]. split; [exact Hl|]. split; [exact Hp|].
  refine (proj1 (proj2 (proj2 (run_report_agrees false None (Runner_new config) SampleRun.env (Some 1%nat) None i o k messages_sent _ eq_refl _ E)))).
  - discriminate.
  - unfold drivable. cbn [rr_config Runner_new]. rewrite Ha. exact I.
Defined.

(** The third worker's reply is one of the two messages received, and missing
    from the round trips. *)
Lemma latency_is_read_at_the_first_join_witness : exists config t0, SampleRun.built = Some config /\ MetricsTotals_new = Ok t0 /\
  match drive_steps (Runner_new config) 0 0 SampleRun.events (Some (3%nat, [0; 1; 2]%nat, mkWorkers [] SampleRun.shared t0 [] [])),
        drive_steps (Runner_new config) 0 0 (take 8 SampleRun.events) (Some (3%nat, [0; 1; 2]%nat, mkWorkers [] SampleRun.shared t0 [] [])) with
  | Some (_, _, k), Some (_, _, k1) =>
      mt_messages_recv (wk_totals k) = 2 /\ hdr_len (mt_rtt (wk_totals k)) = 1 /\
      exists recorder, rs_recorders (wk_shared k1) !! 0%nat = Some recorder /\
        histograms (wk_totals k) = LatencyRecorder_add_to recorder (mt_handshake t0) (mt_rtt t0) (mt_response t0)
  | _, _ => False
  end.
Proof.
  destruct (some_exists SampleRun.built) as [config Eb]; [vm_compute; reflexivity|].
  destruct (@MetricsTotals_new ClassHistogram _) as [t0|] eqn:Et; [|vm_compute in Et; discriminate].
  exists config, t0. split; [exact Eb|]. split; [reflexivity|].
  pose (k0 := mkWorkers [] SampleRun.shared t0 [] []).
  assert (match SampleRun.built, @MetricsTotals_new ClassHistogram _ with
    | Some config, Ok t0 =>
        match drive_steps (Runner_new config) 0 0 SampleRun.events (Some (3%nat, [0; 1; 2]%nat, mkWorkers [] SampleRun.shared t0 [] [])),
              drive_steps (Runner_new config) 0 0 (take 8 SampleRun.events) (Some (3%nat, [0; 1; 2]%nat, mkWorkers [] SampleRun.shared t0 [] [])) with
        | Some s, Some s1 => (mt_messages_recv (wk_totals s.2), hdr_len (mt_rtt (wk_totals s.2)), s1.1, wk_joined s1.2,
              bool_decide (is_Some (rs_recorders (wk_shared s1.2) !! 0%nat))) = (2, 1, (0%nat, [0; 1; 2]%nat), [], true)
        | _, _ => False
        end
    | _, _ => False
    end) as Hv by (vm_compute; reflexivity).
  rewrite Eb, Et in Hv. fold k0 in Hv |- *.
  assert (SampleRun.events = take 8 SampleRun.events ++ HandleAwaited true :: drop 9 SampleRun.events) as Hsplit by reflexivity.
  destruct (drive_steps _ 0 0 SampleRun.events _) as [[[n hs] k]|] eqn:E; [|destruct Hv].
  destruct (drive_steps _ 0 0 (take 8 SampleRun.events) _) as [[[n1 hs1] k1]|] eqn:E1; [|destruct Hv].
  cbn [fst snd] in Hv. injection Hv as Hm Hr Hn Hh Hj Hrec. subst n1 hs1. split; [exact Hm|]. split; [exact Hr|].
  destruct (rs_recorders (wk_shared k1) !! 0%nat) as [recorder|] eqn:Erec; [|discriminate].
  exists recorder. split; [reflexivity|].
  rewrite Hsplit, drive_steps_app, E1 in E.
  exact (proj1 (latency_is_read_at_the_first_join (Runner_new config) 0 0 SampleRun.shared t0 Et)
           [0; 1; 2]%nat (take 8 SampleRun.events) 0%nat [1; 2]%nat k1 (drop 9 SampleRun.events) (n, hs, k) recorder E1 Hj Erec E).
Defined.
